(* ===== verification/_CoqProject ===== *)
-Q . S2P
Prelude.v
Riscv.v
Mem.v
CString.v
Kalloc.v
Vm.v
PageTable.v
VmSpec.v
UvmSpec.v
UserCopy.v
MemExample.v
MemTheorems.v
Spinlock.v
Proc.v
ProcSpec.v
ProcExit.v
ProcWait.v
ProcExample.v
ProcTheorems.v
IoState.v
SleepLock.v
UserMem.v
Uart.v
Printf.v
Console.v
Bio.v
BioSpec.v
Bytes.v
Log.v
LogDisk.v
LogSpec.v
LogRecover.v
LogExample.v
LogTheorems.v
Ring.v
DevSpec.v
ConsoleSpec.v
DevTheorems.v
Fs.v
Dir.v
Pipe.v
File.v
Syscall.v
Sysfile.v
Exec.v
Dispatch.v
FsSpec.v
InodeSpec.v
ReadSpec.v
FileMap.v
DirSpec.v
NameSpec.v
BmapSpec.v
WriteSpec.v
PipeSpec.v
FileSpec.v
FsExample.v
FsTheorems.v
Kvm.v
Hart.v
Virtio.v
Trap.v
VirtioSpec.v
VirtioSafe.v
VirtioTheorems.v
TrapSpec.v
ULib.v
UPrintf.v
Programs.v
Grep.v
GrepSpec.v
Mkfs.v
MkfsSpec.v
MkfsTheorems.v
Umalloc.v
UmallocSpec.v
Sh.v
ShSpec.v
ShParse.v
ShRun.v
