(* ===== verification/Prelude.v ===== *)
(** * A verification library for the xv6 kernel and its user programs

    The repository is an xv6 system for RISC-V ([kernel/], [user/]) with a
    scheduler that picks by an accumulator of priorities, exit messages that a
    parent reads in [wait], and a system call for the size of a process.  This
    library translates the C code into Rocq definitions and proves what the
    parts promise each other.

    ** The translation

    A routine of the kernel is a function in the state and error monad of this
    file: it returns a value and a state or fails.  [EPanic] is a call of
    [panic], [EUB] an access without meaning in C, [EBlock] a wait for another
    thread, and [EFuel] the end of the fuel of a loop that is not structural;
    [wp c s Q] says that [c] returns with [Q], so it excludes all four.
    Integers are [Z] with the wrap-around of their C type written out, memory is
    a finite map of bytes ([Mem]), structures are records, and an array of
    structures that the code indexes is a list.  A pointer into such an array is
    an index; members whose address is taken live in memory.  The state of the
    kernel is [pst iost]: memory and free list ([Kalloc]), locks and harts
    ([Spinlock]), the process table ([Proc]) and the tables of the file system
    and of the devices ([IoState]).  Addresses that the linker chooses are the
    class [Linker], with the facts about them that the code relies on in
    [LinkerOk]; [MemExample] has an instance with the addresses of
    [kernel/kernel.sym].

    A routine that switches to the scheduler is divided there ([sched_enter],
    [sched_resume], and so on for [sleep], [yield] and the traps), as is
    [virtio_disk_rw] at its sleep; the theorems say what holds at the point of
    division.  A hart sees its own steps; what another hart or the device may do
    in between is a step of its own where a theorem speaks of interleavings
    ([VirtioSafe], [VirtioTheorems]), and otherwise the lock that the code holds
    keeps others away.

    ** The files

    Memory.  [Riscv], [Mem], [CString] ([kernel/string.c]), [Kalloc]
    ([kernel/kalloc.c]) and [Vm] ([kernel/vm.c]) have the routines; [PageTable]
    relates page tables in memory to an abstract address space, [VmSpec],
    [UvmSpec] and [UserCopy] specify the routines over it.  [MemTheorems]: the
    pages handed out and the free list partition memory, [mappages] and
    [uvmalloc] refine the abstract address space, and the copies between kernel
    and user transfer what is mapped and nothing else.

    Processes.  [Spinlock] ([kernel/spinlock.c]), [Proc] ([kernel/proc.c]);
    specifications in [ProcSpec], [ProcExit], [ProcWait]; [ProcTheorems]: which
    process the scheduler picks, that every runnable process is picked in
    bounded time, what [exit] and [wait] leave behind, and two defects of the
    scheduler and of [wait].  Processes use files through the class [FileOps],
    whose laws are [FileOpsOk]; [Dispatch] and [FileSpec] implement it with the
    file layer and discharge the laws.

    Devices.  [SleepLock], [UserMem], [Uart], [Printf], [Console] with
    [Ring], [DevSpec], [ConsoleSpec] and [DevTheorems]: the serial port and the
    console as queues and a line discipline, and that printed integers denote
    their value.  [Virtio] ([kernel/virtio_disk.c]) with [VirtioSpec],
    [VirtioSafe] and [VirtioTheorems]: no interleaving of callers, interrupts
    and device makes the driver panic, and a request through it is the transfer
    [disk_rw] that the buffer cache assumes.

    Buffer cache and log.  [Bio] ([kernel/bio.c]), [Bytes], [Log]
    ([kernel/log.c]); [BioSpec] describes the cache as a view of the disk,
    [LogDisk], [LogSpec] and [LogRecover] the log; [LogTheorems]: a crash after
    any number of the disk writes of a commit leaves all of a transaction or
    nothing, and recovery may itself be interrupted.

    Files.  [Fs], [Dir] ([kernel/fs.c]), [Pipe], [File], [Syscall],
    [Sysfile], [Exec] and [Dispatch] have the routines; [FsSpec] (blocks and
    their allocator inside a transaction), [InodeSpec], [ReadSpec], [FileMap]
    (the blocks of a file), [DirSpec], [NameSpec], [BmapSpec], [WriteSpec],
    [PipeSpec] and [FileSpec] the specifications; [FsTheorems]: allocation,
    inodes through eviction, reading, writing, path resolution with balanced
    references, pipes as queues, and the file layer against two lists of
    references.

    Traps and system calls.  [Trap] ([kernel/trap.c], [kernel/plic.c]) with
    [TrapSpec]: a system call from the trap to the return to user space, the
    timer, and what an exception in user mode leads to.  [Trap] also has
    [forkret] and [kernel/main.c].  [Hart] ([kernel/start.c] and the assembly in
    [kernel/entry.S], [kernel/swtch.S], [kernel/trampoline.S] and
    [kernel/kernelvec.S]) runs lists of instructions on the registers of a hart:
    context switches and traps give every register back, and [start] sets up a
    timer whose interrupts are invisible to the code they interrupt.

    The kernel's address space.  [Kvm] has [kvmmake], [kvminit] and
    [kvminithart] of [kernel/vm.c], with the proof that they cannot run out of
    memory and map the devices, the kernel's text and memory, the trampoline and
    the guarded kernel stacks, and nothing else; no page is both writable and
    executable.

    User programs.  [ULib] ([user/ulib.c] and the interface of the system
    calls, the class [UserOS]), [Grep] with [GrepSpec] (the matcher decides its
    pattern language; [grep] prints the matching lines however the input is cut
    into reads), [Umalloc] with [UmallocSpec] (any sequence of [malloc] and
    [free] is safe), [Sh] with [ShSpec] and [ShParse] (the shell's parser
    accepts exactly its grammar and builds the tree).  [ShRun] has the rest of
    [user/sh.c] as trees of system calls, which are run on descriptor tables: a
    line at the prompt starts the programs it asks for, with their redirections
    and pipes and no descriptor more.  [UPrintf] is [user/printf.c], and
    [Programs] has [cat], [wc], [echo], [kill], [ln], [mkdir] and [rm], and
    [gets] and [stat] of [user/ulib.c], with what [cat], [wc], [echo] and
    [gets] compute.

    The disk image.  [Mkfs] ([mkfs/mkfs.c]) with [MkfsSpec] and
    [MkfsTheorems]: the image is a well-formed file system, in which the name of
    each argument leads to a file with its contents.

    [MemExample], [ProcExample], [LogExample] and [FsExample] are concrete
    states on which the theorems are instantiated.

    ** Bounds and fuel

    Loops over arrays are structural.  Where a loop has fuel, it is computed
    from the arguments (the number of blocks a range touches, the length of a
    path, the number of bitmap blocks, the length of a line) and the theorems
    are about total correctness, so they show that it is enough; for
    [free_chain] this is a theorem of its own.  Theorems on the log speak of at
    most 30 blocks and on operations of at most three at a time, the constants
    of [kernel/param.h].

    ** Not modelled

    The page-table walk of the hardware, the TLB and memory fences (the
    translation of addresses is a parameter of [Hart]); what a hart does between
    [main] and the scheduler's first pick as a theorem about the whole state
    ([main] is a definition whose parts have theorems of their own);
    [user/initcode.S], whose bytes the kernel holds, and the generated stubs of
    the system calls; [kernel/ramdisk.c], which refers to members that
    [struct buf] does not have and is not built; the loop in [panic];
    [user/ls.c], which passes a 64-bit size for the conversion [%d], without
    meaning in C; [user/init.c], [user/forktest.c], [user/stressfs.c],
    [user/zombie.c], [user/helloworld.c], [user/goodbye.c] and
    [user/memsize_test.c], which only make a few calls and print a line; and
    [user/usertests.c] and [user/grind.c], which test the kernel from user space
    and have no behaviour of their own to specify.  Concurrency between harts
    inside a critical section is excluded by the locks, whose use the
    translation keeps. *)

From stdpp Require Export base gmap list strings.
From Stdlib Require Export ZArith Lia.

#[global] Open Scope Z_scope.

(** ** Machine integers

    A C integer of width [w] is a [Z] kept in range by the wrap-around
    functions below; the names follow [kernel/types.h]. *)

Definition u8 (z : Z) : Z := z mod 2 ^ 8.
Definition u16 (z : Z) : Z := z mod 2 ^ 16.
Definition u32 (z : Z) : Z := z mod 2 ^ 32.
Definition u64 (z : Z) : Z := z mod 2 ^ 64.
Definition i16 (z : Z) : Z := (z + 2 ^ 15) mod 2 ^ 16 - 2 ^ 15.
Definition i32 (z : Z) : Z := (z + 2 ^ 31) mod 2 ^ 32 - 2 ^ 31.
Definition i64 (z : Z) : Z := (z + 2 ^ 63) mod 2 ^ 64 - 2 ^ 63.

(** C truth values. *)
Definition ctrue (z : Z) : bool := negb (z =? 0).
Definition cbool (b : bool) : Z := if b then 1 else 0.

(** The bytes of a string constant. *)
Fixpoint str (s : string) : list Z :=
  match s with
  | EmptyString => []
  | String c s => Z.of_nat (Ascii.nat_of_ascii c) :: str s
  end.

(** ** A state and error monad

    A kernel routine is a function from the state to a result.  [EPanic]
    is a call of [panic()], which never returns; [EUB] is an access the C
    standard gives no meaning to (an index outside its array, a null
    pointer); [EBlock] is a routine that waits, spinning or asleep, for
    something only another thread can do; [EFuel] is only there so that a loop without a structural
    measure is a total function, and every theorem about such a loop shows
    that it does not occur. *)

Inductive err :=
  | EPanic (msg : string)
  | EUB (what : string)
  | EBlock (what : string)
  | EFuel.

Inductive res (S A : Type) :=
  | Ok (a : A) (s : S)
  | Fail (e : err).
Arguments Ok {S A} a s.
Arguments Fail {S A} e.

Definition M (S A : Type) : Type := S -> res S A.

Definition ret {S A} (a : A) : M S A := fun s => Ok a s.

Definition bind {S A B} (c : M S A) (k : A -> M S B) : M S B :=
  fun s => match c s with Ok a s' => k a s' | Fail e => Fail e end.

Definition fail {S A} (e : err) : M S A := fun _ => Fail e.
Definition panic {S A} (msg : string) : M S A := fail (EPanic msg).
Definition ub {S A} (what : string) : M S A := fail (EUB what).

Definition gets {S A} (f : S -> A) : M S A := fun s => Ok (f s) s.
Definition modify {S} (f : S -> S) : M S unit := fun s => Ok tt (f s).

(** Run a routine of a component inside a larger state. *)
Definition zoom {S T A} (get : T -> S) (set : S -> T -> T) (c : M S A) : M T A :=
  fun t => match c (get t) with
           | Ok a s => Ok a (set s t)
           | Fail e => Fail e
           end.

Declare Scope kernel_scope.
Delimit Scope kernel_scope with K.
Notation "x <- c1 ;; c2" := (bind c1 (fun x => c2))
  (at level 100, c1 at next level, right associativity) : kernel_scope.
Notation "c1 ;; c2" := (bind c1 (fun _ => c2))
  (at level 100, right associativity) : kernel_scope.
Notation "'when' b 'then' c" := (if b then c else ret tt)
  (at level 10, b at level 200, c at level 200) : kernel_scope.

(** ** Weakest preconditions

    [wp c s Q] says that [c] run in [s] returns, with [Q] of its result:
    it excludes panics, undefined behaviour and running out of fuel. *)

Definition wp {S A} (c : M S A) (s : S) (Q : A -> S -> Prop) : Prop :=
  match c s with Ok a s' => Q a s' | Fail _ => False end.

Section Wp.
Context {S : Type}.

Lemma wp_ret {A} (a : A) (s : S) Q : Q a s -> wp (ret a) s Q.
Proof. done. Qed.

Lemma wp_bind {A B} (c : M S A) (k : A -> M S B) s Q :
  wp c s (fun a s' => wp (k a) s' Q) -> wp (bind c k) s Q.
Proof. unfold wp, bind. by destruct (c s). Qed.

Lemma wp_unbind {A B} (c : M S A) (k : A -> M S B) s Q :
  wp (bind c k) s Q -> wp c s (fun a s' => wp (k a) s' Q).
Proof. unfold wp, bind. by destruct (c s). Qed.

Lemma wp_gets {A} (f : S -> A) s Q : Q (f s) s -> wp (gets f) s Q.
Proof. done. Qed.

Lemma wp_modify (f : S -> S) s Q : Q tt (f s) -> wp (modify f) s Q.
Proof. done. Qed.

Lemma wp_mono {A} (c : M S A) s (P Q : A -> S -> Prop) :
  wp c s P -> (forall a s', P a s' -> Q a s') -> wp c s Q.
Proof. unfold wp. destruct (c s); auto. Qed.

Lemma wp_ok {A} (c : M S A) s Q :
  wp c s Q <-> exists a s', c s = Ok a s' /\ Q a s'.
Proof.
  unfold wp. destruct (c s) as [a s'|e]; split.
  - eauto.
  - by intros (? & ? & [= <- <-] & ?).
  - done.
  - by intros (? & ? & ? & ?).
Qed.

(** Regroup the first two steps of a sequence. *)
Lemma wp_group {A B C} (a : M S A) (f : A -> M S B) (g : B -> M S C) s Q :
  wp (bind (bind a f) g) s Q -> wp (bind a (fun x => bind (f x) g)) s Q.
Proof. unfold wp, bind. by destruct (a s). Qed.

Lemma wp_zoom {T A} (get : T -> S) set (c : M S A) (t : T) Q :
  wp c (get t) (fun a s => Q a (set s t)) -> wp (zoom get set c) t Q.
Proof. unfold wp, zoom. by destruct (c (get t)). Qed.

Lemma bind_ok {A B} (c : M S A) (k : A -> M S B) s b s' :
  bind c k s = Ok b s' <-> exists a s1, c s = Ok a s1 /\ k a s1 = Ok b s'.
Proof.
  unfold bind. destruct (c s) as [a s1|e]; split.
  - eauto.
  - by intros (? & ? & [= <- <-] & ?).
  - done.
  - by intros (? & ? & ? & ?).
Qed.

(** A step that succeeds, whatever the rest does. *)
Lemma bind_r {A B} (c : M S A) (k : A -> M S B) s (R : res S B -> Prop) :
  wp c s (fun a s' => R (k a s')) -> R (bind c k s).
Proof. unfold wp, bind. by destruct (c s). Qed.

(** A step that succeeds, followed by one that fails. *)
Lemma bind_fail_r {A B} (c : M S A) (k : A -> M S B) s e :
  wp c s (fun a s' => k a s' = Fail e) -> bind c k s = Fail e.
Proof. unfold wp, bind. by destruct (c s). Qed.
End Wp.

Create HintDb kernel.
#[export] Hint Resolve wp_ret wp_gets wp_modify : kernel.

(** One symbolic step of a routine under [wp]. *)
Ltac wp_step :=
  lazymatch goal with
  | |- wp (bind _ _) _ _ => apply wp_bind
  | |- wp (ret _) _ _ => apply wp_ret
  | |- wp (gets _) _ _ => apply wp_gets; cbn beta
  | |- wp (modify _) _ _ => apply wp_modify; cbn beta
  | |- wp (zoom _ _ _) _ _ => apply wp_zoom; cbn beta
  end.
Ltac wp_steps := repeat wp_step.

(** Linear arithmetic that also knows division and remainder by constants. *)
Ltac zdm := Z.to_euclidean_division_equations; lia.

(** ** Wrap-around lemmas *)

Lemma u8_range z : 0 <= u8 z < 256.
Proof. apply Z.mod_pos_bound. lia. Qed.
Lemma u16_range z : 0 <= u16 z < 2 ^ 16.
Proof. apply Z.mod_pos_bound. lia. Qed.
Lemma u32_range z : 0 <= u32 z < 2 ^ 32.
Proof. apply Z.mod_pos_bound. lia. Qed.
Lemma u64_range z : 0 <= u64 z < 2 ^ 64.
Proof. apply Z.mod_pos_bound. lia. Qed.

Lemma u8_small z : 0 <= z < 256 -> u8 z = z.
Proof. apply Z.mod_small. Qed.
Lemma u16_small z : 0 <= z < 2 ^ 16 -> u16 z = z.
Proof. apply Z.mod_small. Qed.
Lemma u32_small z : 0 <= z < 2 ^ 32 -> u32 z = z.
Proof. apply Z.mod_small. Qed.
Lemma u64_small z : 0 <= z < 2 ^ 64 -> u64 z = z.
Proof. apply Z.mod_small. Qed.
Lemma i32_small z : - 2 ^ 31 <= z < 2 ^ 31 -> i32 z = z.
Proof. intros. unfold i32. rewrite Z.mod_small; lia. Qed.
Lemma i32_range z : - 2 ^ 31 <= i32 z < 2 ^ 31.
Proof. unfold i32. pose proof (Z.mod_pos_bound (z + 2 ^ 31) (2 ^ 32)). lia. Qed.
