(* ===== verification/Riscv.v ===== *)
(** * Constants and macros of the machine and of the kernel

    [kernel/param.h], [kernel/riscv.h] (the page-table part) and
    [kernel/memlayout.h], with the arithmetic facts about pages, page-table
    indices and page-table entries that the memory components share. *)

From S2P Require Import Prelude.

(** ** param.h *)

Definition NPROC : Z := 64.
Definition NCPU : Z := 8.
Definition NOFILE : Z := 16.
Definition NFILE : Z := 100.
Definition NINODE : Z := 50.
Definition NDEV : Z := 10.
Definition ROOTDEV : Z := 1.
Definition MAXARG : Z := 32.
Definition MAXOPBLOCKS : Z := 10.
Definition LOGSIZE : Z := MAXOPBLOCKS * 3.
Definition NBUF : Z := MAXOPBLOCKS * 3.
Definition FSSIZE : Z := 2000.
Definition MAXPATH : Z := 128.

(** ** riscv.h: pages and page-table entries *)

Definition PGSIZE : Z := 4096.
Definition PGSHIFT : Z := 12.

Definition PGROUNDUP (sz : Z) : Z := Z.land (u64 (sz + PGSIZE - 1)) (Z.lnot (PGSIZE - 1)).
Definition PGROUNDDOWN (a : Z) : Z := Z.land a (Z.lnot (PGSIZE - 1)).

Definition PTE_V : Z := Z.shiftl 1 0.
Definition PTE_R : Z := Z.shiftl 1 1.
Definition PTE_W : Z := Z.shiftl 1 2.
Definition PTE_X : Z := Z.shiftl 1 3.
Definition PTE_U : Z := Z.shiftl 1 4.

Definition PA2PTE (pa : Z) : Z := u64 (Z.shiftl (Z.shiftr pa 12) 10).
Definition PTE2PA (pte : Z) : Z := u64 (Z.shiftl (Z.shiftr pte 10) 12).
Definition PTE_FLAGS (pte : Z) : Z := Z.land pte 0x3FF.

Definition PXMASK : Z := 0x1FF.
Definition PXSHIFT (level : Z) : Z := PGSHIFT + 9 * level.
Definition PX (level va : Z) : Z := Z.land (Z.shiftr va (PXSHIFT level)) PXMASK.

Definition MAXVA : Z := Z.shiftl 1 (9 + 9 + 9 + 12 - 1).

(** use riscv's sv39 page table scheme. *)
Definition SATP_SV39 : Z := Z.shiftl 8 60.
Definition MAKE_SATP (pagetable : Z) : Z := Z.lor SATP_SV39 (Z.shiftr pagetable 12).

(** ** memlayout.h *)

Definition UART0 : Z := 0x10000000.
Definition UART0_IRQ : Z := 10.
Definition VIRTIO0 : Z := 0x10001000.
Definition VIRTIO0_IRQ : Z := 1.
Definition CLINT : Z := 0x2000000.
Definition PLIC : Z := 0x0c000000.
Definition KERNBASE : Z := 0x80000000.
Definition PHYSTOP : Z := KERNBASE + 128 * 1024 * 1024.
Definition TRAMPOLINE : Z := MAXVA - PGSIZE.
Definition KSTACK (p : Z) : Z := TRAMPOLINE - (p + 1) * 2 * PGSIZE.
Definition TRAPFRAME : Z := TRAMPOLINE - PGSIZE.

(** ** kernel.ld: addresses fixed when the kernel is linked *)

Class Linker := {
  kend : Z;        (** [end]: first address after the kernel *)
  etext : Z;       (** end of the kernel text *)
  trampoline : Z;  (** the page of trampoline.S *)
  proc_base : Z;   (** the array [proc] *)
  ticks_addr : Z;  (** the variable [ticks] *)
  initcode : Z;    (** the array [initcode] *)
  forkret : Z;     (** the function [forkret] *)
  bcache_addr : Z; (** the variable [bcache] *)
  itable_addr : Z; (** the variable [itable] *)
  log_addr : Z;    (** the variable [log] *)
  ftable_addr : Z; (** the variable [ftable] *)
  cons_addr : Z;   (** the variable [cons] *)
  uart_tx_r_addr : Z;  (** the variable [uart_tx_r] *)
  disk_addr : Z;   (** the variable [disk] of virtio_disk.c *)
  kernelvec : Z;   (** the trap vector of kernelvec.S *)
  uservec : Z;     (** the trap vector in the trampoline page *)
  userret : Z;     (** the way back to user space in the trampoline page *)
  usertrap_addr : Z;   (** the function [usertrap] *)
  klocal : Z;      (** local variables, on the kernel stack, whose addresses are passed on *)
}.

(** sizeof(struct proc), sizeof(struct buf), sizeof(struct inode) and
    sizeof(struct file) on this target. *)
Definition SIZEOF_PROC : Z := 432.
Definition SIZEOF_BUF : Z := 1112.
Definition SIZEOF_INODE : Z := 136.
Definition SIZEOF_FILE : Z := 40.

(** What the linker script guarantees of them. *)
Class LinkerOk `{Linker} : Prop := {
  etext_aligned : etext mod PGSIZE = 0;
  trampoline_eq : trampoline = etext - PGSIZE;
  kern_layout : KERNBASE <= trampoline /\ etext <= kend < PHYSTOP;
  proc_layout : etext <= proc_base /\ proc_base + NPROC * SIZEOF_PROC <= kend;
  bcache_layout : etext <= bcache_addr /\ bcache_addr + 24 + (NBUF + 1) * SIZEOF_BUF <= kend;
  klocal_layout : PHYSTOP <= klocal /\ klocal + 1024 <= MAXVA;
  itable_layout : etext <= itable_addr /\ itable_addr + 24 + NINODE * SIZEOF_INODE <= kend;
  ftable_layout : etext <= ftable_addr /\ ftable_addr + 24 + NFILE * SIZEOF_FILE <= kend;
}.

(** ** Page arithmetic *)

Lemma land_lnot_4095 a : Z.land a (Z.lnot 4095) = a / 4096 * 4096.
Proof.
  change (Z.lnot 4095) with (Z.lnot (Z.ones 12)).
  rewrite <- Z.ldiff_land, Z.ldiff_ones_r by lia.
  rewrite Z.shiftl_mul_pow2, Z.shiftr_div_pow2 by lia. reflexivity.
Qed.

Lemma PGROUNDDOWN_eq a : PGROUNDDOWN a = a / 4096 * 4096.
Proof. apply land_lnot_4095. Qed.

Lemma PGROUNDUP_eq sz :
  0 <= sz -> sz + 4095 < 2 ^ 64 -> PGROUNDUP sz = (sz + 4095) / 4096 * 4096.
Proof.
  intros. unfold PGROUNDUP, PGSIZE. rewrite u64_small by lia.
  replace (sz + 4096 - 1) with (sz + 4095) by lia. apply land_lnot_4095.
Qed.

Lemma PGROUNDUP_aligned sz : PGROUNDUP sz mod 4096 = 0.
Proof. unfold PGROUNDUP. rewrite land_lnot_4095. apply Z.mod_mul. lia. Qed.

Lemma PGROUNDUP_range sz : 0 <= PGROUNDUP sz < 2 ^ 64.
Proof.
  unfold PGROUNDUP. rewrite land_lnot_4095.
  pose proof (u64_range (sz + PGSIZE - 1)). zdm.
Qed.

Lemma MAXVA_eq : MAXVA = 2 ^ 38.
Proof. reflexivity. Qed.

(** The page containing an address, and the byte range of a page. *)
Definition in_page (p a : Z) : Prop := p <= a < p + PGSIZE.

#[export] Instance in_page_dec p a : Decision (in_page p a).
Proof. unfold in_page. apply _. Defined.

(** Linear arithmetic over addresses: the layout constants are numerals. *)
Ltac alia :=
  unfold in_page, TRAPFRAME, TRAMPOLINE, PHYSTOP, KERNBASE, PGSIZE in *;
  try rewrite MAXVA_eq in *; first [lia | zdm].

Lemma PX_eq l va : 0 <= l -> PX l va = va / 2 ^ (12 + 9 * l) mod 512.
Proof.
  intros. unfold PX, PXMASK, PXSHIFT, PGSHIFT.
  change 0x1FF with (Z.ones 9). rewrite Z.land_ones, Z.shiftr_div_pow2 by lia.
  reflexivity.
Qed.

Lemma PX_range l va : 0 <= l -> 0 <= PX l va < 512.
Proof. intros. rewrite PX_eq by done. apply Z.mod_pos_bound. lia. Qed.

Lemma PTE_FLAGS_eq pte : PTE_FLAGS pte = pte mod 1024.
Proof. unfold PTE_FLAGS. change 0x3FF with (Z.ones 10). apply Z.land_ones. lia. Qed.

Lemma PTE2PA_eq pte : PTE2PA pte = u64 (pte / 1024 * 4096).
Proof.
  unfold PTE2PA. rewrite Z.shiftl_mul_pow2, Z.shiftr_div_pow2 by lia. reflexivity.
Qed.

Lemma PA2PTE_eq pa : 0 <= pa < 2 ^ 64 -> PA2PTE pa = pa / 4096 * 1024.
Proof.
  intros. unfold PA2PTE. rewrite Z.shiftl_mul_pow2, Z.shiftr_div_pow2 by lia.
  change (2 ^ 12) with 4096. change (2 ^ 10) with 1024.
  apply u64_small. zdm.
Qed.

(** A flag word that fits in the low ten bits can be or-ed into a PTE without
    touching the physical page number. *)
Lemma lor_flags pa f :
  0 <= pa < 2 ^ 64 -> 0 <= f < 1024 -> Z.lor (PA2PTE pa) f = pa / 4096 * 1024 + f.
Proof.
  intros Hpa Hf. rewrite PA2PTE_eq by done.
  rewrite <- Z.add_lor_land by done.
  assert (Z.land (pa / 4096 * 1024) f = 0) as ->; [|lia].
  apply Z.bits_inj'; intros i Hi.
  rewrite Z.land_spec, Z.bits_0. change 1024 with (2 ^ 10).
  destruct (decide (i < 10)).
  - rewrite Z.mul_pow2_bits_low by lia. done.
  - rewrite andb_comm. rewrite (Z.bits_above_log2 f); [done|lia|].
    destruct (decide (f = 0)) as [->|]; [simpl; lia|].
    apply Z.lt_le_trans with 10; [|lia]. apply Z.log2_lt_pow2; lia.
Qed.

Lemma PTE2PA_mk pa f :
  0 <= pa < 2 ^ 64 -> pa mod 4096 = 0 -> 0 <= f < 1024 ->
  PTE2PA (Z.lor (PA2PTE pa) f) = pa.
Proof.
  intros. rewrite lor_flags by done. rewrite PTE2PA_eq.
  replace ((pa / 4096 * 1024 + f) / 1024) with (pa / 4096) by zdm.
  rewrite u64_small; zdm.
Qed.

Lemma PTE_FLAGS_mk pa f :
  0 <= pa < 2 ^ 64 -> 0 <= f < 1024 -> PTE_FLAGS (Z.lor (PA2PTE pa) f) = f.
Proof. intros. rewrite lor_flags, PTE_FLAGS_eq by done. zdm. Qed.

(** * Modes of open

    [kernel/fcntl.h], used by the kernel and by user programs. *)

Definition O_RDONLY : Z := 0x000.
Definition O_WRONLY : Z := 0x001.
Definition O_RDWR : Z := 0x002.
Definition O_CREATE : Z := 0x200.
Definition O_TRUNC : Z := 0x400.
