(* ===== verification/Mem.v ===== *)
(** * Byte-addressed memory

    The machine's memory, seen by the kernel through its direct map: a
    finite map from addresses to bytes, unset bytes reading as zero.  The
    little-endian loads and stores of 8, 4, 2 and 1 bytes are those of the
    compiled C code. *)

From S2P Require Import Prelude.

Abbreviation mem := (gmap Z Z).

Definition rd (m : mem) (a : Z) : Z := u8 (default 0 (m !! a)).
Definition wr (m : mem) (a v : Z) : mem := <[a := u8 v]> m.

Fixpoint ld (n : nat) (m : mem) (a : Z) : Z :=
  match n with
  | O => 0
  | S n => rd m a + 256 * ld n m (a + 1)
  end.

Fixpoint st (n : nat) (m : mem) (a v : Z) : mem :=
  match n with
  | O => m
  | S n => st n (wr m a v) (a + 1) (v / 256)
  end.

Definition load64 : mem -> Z -> Z := ld 8.
Definition store64 : mem -> Z -> Z -> mem := st 8.
Definition load32 : mem -> Z -> Z := ld 4.
Definition store32 : mem -> Z -> Z -> mem := st 4.

(** The bytes of a range, and storing a list of bytes. *)
Fixpoint bytes (n : nat) (m : mem) (a : Z) : list Z :=
  match n with
  | O => []
  | S n => rd m a :: bytes n m (a + 1)
  end.

Fixpoint wr_bytes (m : mem) (a : Z) (bs : list Z) : mem :=
  match bs with
  | [] => m
  | b :: bs => wr_bytes (wr m a b) (a + 1) bs
  end.

(** ** Lemmas *)

Lemma rd_range m a : 0 <= rd m a < 256.
Proof. apply u8_range. Qed.

Lemma rd_wr m a v b : rd (wr m a v) b = if decide (a = b) then u8 v else rd m b.
Proof.
  unfold rd, wr. rewrite lookup_insert. case_decide; [|done].
  simpl. apply u8_small, u8_range.
Qed.
Lemma rd_wr_eq m a v : rd (wr m a v) a = u8 v.
Proof. rewrite rd_wr. by case_decide. Qed.
Lemma rd_wr_ne m a v b : a <> b -> rd (wr m a v) b = rd m b.
Proof. rewrite rd_wr. by case_decide. Qed.

Lemma rd_st n m a v b :
  rd (st n m a v) b =
  if decide (a <= b < a + Z.of_nat n) then u8 (v / 256 ^ (b - a)) else rd m b.
Proof.
  revert m a v. induction n as [|n IH]; intros m a v; cbn [st].
  { case_decide; [lia|done]. }
  rewrite IH, rd_wr. repeat case_decide; try lia; try done.
  - f_equal. rewrite Z.div_div by lia. f_equal.
    replace (b - a) with (Z.succ (b - (a + 1))) by lia.
    rewrite Z.pow_succ_r by lia. lia.
  - subst. replace (b - b) with 0 by lia. by rewrite Z.pow_0_r, Z.div_1_r.
Qed.

Lemma ld_ext n m m' a a' :
  (forall i, 0 <= i < Z.of_nat n -> rd m (a + i) = rd m' (a' + i)) ->
  ld n m a = ld n m' a'.
Proof.
  revert a a'. induction n as [|n IH]; intros a a' H; cbn [ld]; [done|].
  f_equal.
  - specialize (H 0). rewrite !Z.add_0_r in H. apply H. lia.
  - f_equal. apply IH. intros i Hi. rewrite <- !Z.add_assoc. apply H. lia.
Qed.

Lemma ld_range n m a : 0 <= ld n m a < 256 ^ Z.of_nat n.
Proof.
  revert a. induction n as [|n IH]; intros a; cbn [ld]; [simpl; lia|].
  rewrite Nat2Z.inj_succ, Z.pow_succ_r by lia.
  specialize (IH (a + 1)). pose proof (rd_range m a). lia.
Qed.

Lemma load64_range m a : 0 <= load64 m a < 2 ^ 64.
Proof. apply (ld_range 8). Qed.

Lemma ld_st_eq n m a v : ld n (st n m a v) a = v mod 256 ^ Z.of_nat n.
Proof.
  revert m a v. induction n as [|n IH]; intros m a v; [by rewrite Z.mod_1_r|].
  cbn [ld st]. rewrite IH, rd_st, rd_wr_eq.
  case_decide; [lia|].
  rewrite Nat2Z.inj_succ, Z.pow_succ_r by lia.
  rewrite Z.rem_mul_r by lia. unfold u8. change (2 ^ 8) with 256. lia.
Qed.

Lemma ld_st_ne n k m a v b :
  b + Z.of_nat n <= a \/ a + Z.of_nat k <= b -> ld n (st k m a v) b = ld n m b.
Proof. intros H. apply ld_ext. intros i Hi. rewrite rd_st. case_decide; [lia|done]. Qed.

Lemma load64_store64_eq m a v : 0 <= v < 2 ^ 64 -> load64 (store64 m a v) a = v.
Proof. intros. unfold load64, store64. rewrite ld_st_eq. by apply Z.mod_small. Qed.

Lemma load64_store64_ne m a v b :
  b + 8 <= a \/ a + 8 <= b -> load64 (store64 m a v) b = load64 m b.
Proof. intros. by apply ld_st_ne. Qed.

Lemma load64_ext m m' a :
  (forall b, a <= b < a + 8 -> rd m b = rd m' b) -> load64 m a = load64 m' a.
Proof. intros H. apply ld_ext. intros i Hi. apply H. simpl in Hi. lia. Qed.

Lemma rd_empty a : rd ∅ a = 0.
Proof. unfold rd. by rewrite lookup_empty. Qed.

Lemma load64_empty a : load64 ∅ a = 0.
Proof. unfold load64. cbn [ld]. by rewrite !rd_empty. Qed.

Lemma rd_store64_ne m a v b : ~ (a <= b < a + 8) -> rd (store64 m a v) b = rd m b.
Proof. intros. unfold store64. rewrite rd_st. simpl. case_decide; [lia|done]. Qed.

Lemma rd_store32_ne m a v b : ~ (a <= b < a + 4) -> rd (store32 m a v) b = rd m b.
Proof. intros Hb. unfold store32. rewrite rd_st. by case_decide; [lia|]. Qed.

(** The same for 4 bytes, next to 8. *)
Lemma load32_store32_eq m a v : 0 <= v < 2 ^ 32 -> load32 (store32 m a v) a = v.
Proof. intros Hv. unfold load32, store32. rewrite ld_st_eq. by apply Z.mod_small. Qed.
Lemma load32_store32_ne m a v b : b + 4 <= a \/ a + 4 <= b -> load32 (store32 m a v) b = load32 m b.
Proof. intros Hb. apply ld_st_ne. simpl. lia. Qed.
Lemma load32_store64_ne m a v b : b + 4 <= a \/ a + 8 <= b -> load32 (store64 m a v) b = load32 m b.
Proof. intros Hb. apply ld_st_ne. simpl. lia. Qed.
Lemma load64_store32_ne m a v b : b + 8 <= a \/ a + 4 <= b -> load64 (store32 m a v) b = load64 m b.
Proof. intros Hb. apply ld_st_ne. simpl. lia. Qed.
Lemma load32_ext m m' a : (forall i, 0 <= i < 4 -> rd m (a + i) = rd m' (a + i)) -> load32 m a = load32 m' a.
Proof. apply (ld_ext 4). Qed.
Lemma load32_range m a : 0 <= load32 m a < 2 ^ 32.
Proof. apply (ld_range 4). Qed.

Lemma length_bytes n m a : length (bytes n m a) = n.
Proof. revert a. induction n; intros; simpl; auto. Qed.

Lemma lookup_bytes n m a (i : nat) :
  (i < n)%nat -> bytes n m a !! i = Some (rd m (a + Z.of_nat i)).
Proof.
  revert a i. induction n as [|n IH]; intros a i Hi; [lia|].
  destruct i as [|i]; cbn [bytes].
  - simpl. by rewrite Z.add_0_r.
  - change (bytes n m (a + 1) !! i = Some (rd m (a + Z.of_nat (S i)))).
    rewrite IH by lia. do 2 f_equal. lia.
Qed.

Lemma bytes_ext n m m' a a' :
  (forall i, 0 <= i < Z.of_nat n -> rd m (a + i) = rd m' (a' + i)) ->
  bytes n m a = bytes n m' a'.
Proof.
  revert a a'. induction n as [|n IH]; intros a a' H; cbn [bytes]; [done|].
  f_equal.
  - specialize (H 0). rewrite !Z.add_0_r in H. apply H. lia.
  - apply IH. intros i Hi. rewrite <- !Z.add_assoc. apply H. lia.
Qed.

Lemma bytes_app n k m a : bytes (n + k) m a = bytes n m a ++ bytes k m (a + Z.of_nat n).
Proof.
  revert a. induction n as [|n IH]; intros a; simpl.
  - by rewrite Z.add_0_r.
  - rewrite IH. do 3 f_equal. lia.
Qed.

Lemma rd_wr_bytes m a bs b :
  rd (wr_bytes m a bs) b =
  if decide (a <= b < a + Z.of_nat (length bs))
  then u8 (default 0 (bs !! Z.to_nat (b - a))) else rd m b.
Proof.
  revert m a. induction bs as [|x bs IH]; intros m a; cbn [wr_bytes].
  { case_decide; [simpl in *; lia|done]. }
  rewrite IH, rd_wr. simpl length. repeat case_decide; try lia; try done.
  - replace (Z.to_nat (b - a)) with (S (Z.to_nat (b - (a + 1)))) by lia. done.
  - subst. by rewrite Z.sub_diag.
Qed.


(** Proofs go through the lemmas above; evaluation is unaffected. *)
#[global] Opaque load64 store64 load32 store32 rd wr.
