(* ===== verification/CString.v ===== *)
(** * Memory and string routines of the kernel

    [kernel/string.c], on the byte-addressed memory of [Mem].  The routines
    that write return the new memory (the C functions return their first
    argument, unchanged).  [char] is unsigned on RISC-V. *)

From S2P Require Import Prelude Mem.

(** ** The routines *)

Fixpoint memset_loop (k : nat) (m : mem) (cdst c i : Z) : mem :=
  match k with
  | O => m
  | S k => memset_loop k (wr m (cdst + i) c) cdst c (i + 1)
  end.
Definition memset (m : mem) (dst c n : Z) : mem :=
  memset_loop (Z.to_nat (u32 n)) m dst c 0.

Fixpoint memcmp_loop (n : nat) (m : mem) (s1 s2 : Z) : Z :=
  match n with
  | O => 0
  | S n => if rd m s1 =? rd m s2 then memcmp_loop n m (s1 + 1) (s2 + 1)
           else rd m s1 - rd m s2
  end.
Definition memcmp (m : mem) (v1 v2 n : Z) : Z := memcmp_loop (Z.to_nat (u32 n)) m v1 v2.

Fixpoint copy_down (n : nat) (m : mem) (d s : Z) : mem :=
  match n with
  | O => m
  | S n => copy_down n (wr m (d - 1) (rd m (s - 1))) (d - 1) (s - 1)
  end.
Fixpoint copy_up (n : nat) (m : mem) (d s : Z) : mem :=
  match n with
  | O => m
  | S n => copy_up n (wr m d (rd m s)) (d + 1) (s + 1)
  end.
Definition memmove (m : mem) (dst src n : Z) : mem :=
  let n := u32 n in
  if n =? 0 then m
  else if (src <? dst) && (dst <? src + n)
  then copy_down (Z.to_nat n) m (dst + n) (src + n)
  else copy_up (Z.to_nat n) m dst src.
Definition memcpy (m : mem) (dst src n : Z) : mem := memmove m dst src n.

Fixpoint strncmp_loop (n : nat) (m : mem) (p q : Z) : Z :=
  match n with
  | O => 0
  | S n' => if ctrue (rd m p) && (rd m p =? rd m q)
            then strncmp_loop n' m (p + 1) (q + 1)
            else rd m p - rd m q
  end.
Definition strncmp (m : mem) (p q n : Z) : Z := strncmp_loop (Z.to_nat (u32 n)) m p q.

Fixpoint zero_fill (n : nat) (m : mem) (s : Z) : mem :=
  match n with
  | O => m
  | S n => zero_fill n (wr m s 0) (s + 1)
  end.
(** After the first loop of [strncpy] has stored the terminating zero, the
    second loop stores zeros in what is left of the [n] bytes. *)
Fixpoint strncpy_loop (n : nat) (m : mem) (s t : Z) : mem :=
  match n with
  | O => m
  | S n => let c := rd m t in
           let m := wr m s c in
           if c =? 0 then zero_fill n m (s + 1) else strncpy_loop n m (s + 1) (t + 1)
  end.
Definition strncpy (m : mem) (s t n : Z) : mem := strncpy_loop (Z.to_nat (i32 n)) m s t.

(** [k] is the value of [--n] in the loop test: the copied terminator is
    followed by the final [*s = 0] one byte further. *)
Fixpoint safestrcpy_loop (k : nat) (m : mem) (s t : Z) : mem :=
  match k with
  | O => wr m s 0
  | S k => let c := rd m t in
           let m := wr m s c in
           if c =? 0 then wr m (s + 1) 0 else safestrcpy_loop k m (s + 1) (t + 1)
  end.
Definition safestrcpy (m : mem) (s t n : Z) : mem :=
  if i32 n <=? 0 then m else safestrcpy_loop (Z.to_nat (i32 n - 1)) m s t.

(** [strlen] has no bound of its own: [None] when no zero byte is found in
    the first [fuel] bytes. *)
Fixpoint strlen_loop (fuel : nat) (m : mem) (s n : Z) : option Z :=
  match fuel with
  | O => None
  | S fuel => if ctrue (rd m (s + n)) then strlen_loop fuel m s (n + 1) else Some n
  end.
Definition strlen (fuel : nat) (m : mem) (s : Z) : option Z := strlen_loop fuel m s 0.

(** ** Specifications *)

(** [cstr m t bs]: a NUL-terminated string with the bytes [bs] is at [t]. *)
Definition cstr (m : mem) (t : Z) (bs : list Z) : Prop :=
  (forall (i : nat) b, bs !! i = Some b -> b <> 0 /\ rd m (t + Z.of_nat i) = b) /\
  rd m (t + Z.of_nat (length bs)) = 0.

(** The bytes of [src .. src+n) copied to [dst .. dst+n) all at once. *)
Definition copied (m m' : mem) (dst src n : Z) : Prop :=
  forall b, rd m' b = if decide (dst <= b < dst + n) then rd m (src + (b - dst)) else rd m b.

(** ** memset *)

Lemma rd_memset_loop k m d c i b :
  rd (memset_loop k m d c i) b =
  if decide (d + i <= b < d + i + Z.of_nat k) then u8 c else rd m b.
Proof.
  revert m i. induction k as [|k IH]; intros m i; cbn [memset_loop].
  { case_decide; [lia|done]. }
  rewrite IH, rd_wr. repeat case_decide; try lia; done.
Qed.

Lemma rd_memset m d c n b :
  0 <= n < 2 ^ 32 ->
  rd (memset m d c n) b = if decide (d <= b < d + n) then u8 c else rd m b.
Proof.
  intros. unfold memset. rewrite rd_memset_loop, u32_small by done.
  rewrite Z2Nat.id by lia. repeat case_decide; try lia; done.
Qed.

Lemma load64_memset_0 m d n a :
  0 <= n < 2 ^ 32 -> d <= a -> a + 8 <= d + n -> load64 (memset m d 0 n) a = 0.
Proof.
  intros Hn H1 H2. transitivity (load64 ∅ a); [|vm_compute; reflexivity || done].
  apply load64_ext. intros b Hb. rewrite rd_memset by done.
  case_decide; [done|lia].
Qed.

Lemma load64_memset_ne m d c n a :
  0 <= n < 2 ^ 32 -> a + 8 <= d \/ d + n <= a ->
  load64 (memset m d c n) a = load64 m a.
Proof.
  intros. apply load64_ext. intros b Hb. rewrite rd_memset by done.
  case_decide; [lia|done].
Qed.

(** ** memmove *)

Lemma copy_up_spec n m d s :
  d <= s \/ s + Z.of_nat n <= d -> copied m (copy_up n m d s) d s (Z.of_nat n).
Proof.
  revert m d s. induction n as [|n IH]; intros m d s H b; cbn [copy_up].
  { case_decide; [lia|done]. }
  rewrite (IH _ (d + 1) (s + 1)) by lia. rewrite !rd_wr.
  repeat case_decide; try lia; try done.
  - f_equal. lia.
  - subst. rewrite u8_small by apply rd_range. f_equal. lia.
Qed.

Lemma copy_down_spec n m d s :
  s <= d \/ d + Z.of_nat n <= s ->
  copied m (copy_down n m (d + Z.of_nat n) (s + Z.of_nat n)) d s (Z.of_nat n).
Proof.
  revert m. induction n as [|n IH]; intros m H b; cbn [copy_down].
  { case_decide; [lia|done]. }
  replace (d + Z.of_nat (S n) - 1) with (d + Z.of_nat n) by lia.
  replace (s + Z.of_nat (S n) - 1) with (s + Z.of_nat n) by lia.
  rewrite IH by lia. rewrite !rd_wr.
  repeat case_decide; try lia; try done.
  subst. rewrite u8_small by apply rd_range. f_equal. lia.
Qed.

Lemma memmove_copied m dst src n :
  0 <= n < 2 ^ 32 -> copied m (memmove m dst src n) dst src n.
Proof.
  intros Hn. unfold memmove. rewrite u32_small by done.
  destruct (Z.eqb_spec n 0) as [->|Hne].
  { intros b. case_decide; [lia|done]. }
  pose proof (copy_up_spec (Z.to_nat n) m dst src) as Hup.
  pose proof (copy_down_spec (Z.to_nat n) m dst src) as Hdown.
  rewrite Z2Nat.id in Hup, Hdown by lia.
  destruct (Z.ltb_spec src dst), (Z.ltb_spec dst (src + n)); cbn [andb];
    first [apply Hdown; lia | apply Hup; lia].
Qed.

(** [copied] determines every load. *)
Lemma bytes_copied m m' dst src n (k : nat) :
  copied m m' dst src n -> Z.of_nat k <= n -> bytes k m' dst = bytes k m src.
Proof.
  intros H Hk. apply bytes_ext. intros i Hi. rewrite H.
  case_decide; [f_equal; lia|lia].
Qed.

Lemma load64_copied_ne m m' dst src n a :
  copied m m' dst src n -> a + 8 <= dst \/ dst + n <= a ->
  load64 m' a = load64 m a.
Proof. intros H Ha. apply load64_ext. intros b Hb. rewrite H. case_decide; [lia|done]. Qed.

(** ** memcmp and strncmp *)

Lemma memcmp_loop_0 n m a b :
  memcmp_loop n m a b = 0 <-> bytes n m a = bytes n m b.
Proof.
  revert a b. induction n as [|n IH]; intros a b; cbn [memcmp_loop bytes]; [done|].
  destruct (Z.eqb_spec (rd m a) (rd m b)) as [E|E].
  - rewrite IH, E. split; [by intros ->|by intros [= ?]].
  - split; [lia|congruence].
Qed.

(** The sign of [memcmp] is that of the first pair of bytes that differ. *)
Lemma memcmp_loop_first n m a b (i : nat) :
  (i < n)%nat -> bytes i m a = bytes i m b ->
  rd m (a + Z.of_nat i) <> rd m (b + Z.of_nat i) ->
  memcmp_loop n m a b = rd m (a + Z.of_nat i) - rd m (b + Z.of_nat i).
Proof.
  revert a b i. induction n as [|n IH]; intros a b i Hi Hpre Hd; [lia|].
  cbn [memcmp_loop]. destruct i as [|i].
  - rewrite !Z.add_0_r in *. by destruct (Z.eqb_spec (rd m a) (rd m b)).
  - cbn [bytes] in Hpre. injection Hpre as E Hpre. rewrite E, Z.eqb_refl.
    replace (a + Z.of_nat (S i)) with (a + 1 + Z.of_nat i) in * by lia.
    replace (b + Z.of_nat (S i)) with (b + 1 + Z.of_nat i) in * by lia.
    apply IH; [lia|done|done].
Qed.

Lemma cstr_cons m t x bs :
  cstr m t (x :: bs) <-> x <> 0 /\ rd m t = x /\ cstr m (t + 1) bs.
Proof.
  unfold cstr. simpl length. split.
  - intros [H1 H2]. destruct (H1 0%nat x eq_refl) as [? Hx].
    rewrite Z.add_0_r in Hx. repeat split; try done.
    + by apply (H1 (S i)).
    + replace (t + 1 + Z.of_nat i) with (t + Z.of_nat (S i)) by lia. by apply (H1 (S i)).
    + rewrite <- H2. f_equal. lia.
  - intros (Hx & Ht & H1 & H2). split.
    + intros [|i] b Hb.
      * injection Hb as <-. by rewrite Z.add_0_r.
      * replace (t + Z.of_nat (S i)) with (t + 1 + Z.of_nat i) by lia. by apply H1.
    + rewrite <- H2. f_equal. lia.
Qed.

Lemma cstr_nil m t : cstr m t [] <-> rd m t = 0.
Proof.
  unfold cstr. simpl. rewrite Z.add_0_r. split; [by intros [_ ?]|].
  intros ?. split; [|done]. intros i b Hb. by rewrite lookup_nil in Hb.
Qed.

Lemma cstr_inv m t bs :
  cstr m t bs ->
  (bs = [] /\ rd m t = 0) \/
  exists x bs', bs = x :: bs' /\ x <> 0 /\ rd m t = x /\ cstr m (t + 1) bs'.
Proof.
  destruct bs as [|x bs]; [rewrite cstr_nil|rewrite cstr_cons]; eauto 10.
Qed.

Lemma strncmp_loop_0 n m p q s t :
  cstr m p s -> cstr m q t ->
  strncmp_loop n m p q = 0 <-> take n s = take n t.
Proof.
  revert p q s t. induction n as [|n IH]; intros p q s t Hs Ht; [done|].
  cbn [strncmp_loop]. unfold ctrue.
  apply cstr_inv in Hs as [[-> ->]|(x & s' & -> & Hx & -> & Hs')];
  apply cstr_inv in Ht as [[-> ->]|(y & t' & -> & Hy & -> & Ht')]; simpl.
  - done.
  - split; [lia|done].
  - destruct (Z.eqb_spec x 0); [done|]. simpl. split; [lia|done].
  - destruct (Z.eqb_spec x 0); [done|]. simpl.
    destruct (Z.eqb_spec x y) as [->|?].
    + rewrite (IH (p + 1) (q + 1) s' t') by done.
      split; [by intros ->|by intros [=]].
    + split; [lia|congruence].
Qed.

(** ** strncpy, safestrcpy and strlen *)

Lemma rd_zero_fill n m s b :
  rd (zero_fill n m s) b = if decide (s <= b < s + Z.of_nat n) then 0 else rd m b.
Proof.
  revert m s. induction n as [|n IH]; intros m s; cbn [zero_fill].
  { case_decide; [lia|done]. }
  rewrite IH, rd_wr. repeat case_decide; try lia; done.
Qed.

(** Writing below a string leaves it in place. *)
Lemma cstr_wr m t bs a v :
  ~ (t <= a <= t + Z.of_nat (length bs)) -> cstr m t bs -> cstr (wr m a v) t bs.
Proof.
  intros Ha [H1 H2]. split.
  - intros i b Hb. rewrite rd_wr_ne; [by apply H1|].
    apply lookup_lt_Some in Hb. lia.
  - rewrite rd_wr_ne; [done|lia].
Qed.

Lemma rd_strncpy_loop n m s t bs b :
  cstr m t bs ->
  s + Z.of_nat n <= t \/ t + Z.of_nat (length bs) < s ->
  rd (strncpy_loop n m s t) b =
  if decide (s <= b < s + Z.of_nat n) then default 0 (bs !! Z.to_nat (b - s)) else rd m b.
Proof.
  revert m s t bs. induction n as [|n IH]; intros m s t bs Ht Hd; cbn [strncpy_loop].
  { case_decide; [lia|done]. }
  apply cstr_inv in Ht as [[-> E]|(x & bs' & -> & Hx & E & Ht)]; rewrite E.
  - simpl. rewrite rd_zero_fill, rd_wr.
    repeat case_decide; try lia; try done; rewrite lookup_nil; done.
  - destruct (Z.eqb_spec x 0) as [|_]; [done|]. simpl length in Hd.
    rewrite (IH _ _ _ bs'); [|apply cstr_wr; [lia|done]|lia].
    rewrite rd_wr. repeat case_decide; try lia; try done.
    + replace (Z.to_nat (b - s)) with (S (Z.to_nat (b - (s + 1)))) by lia. done.
    + subst. rewrite Z.sub_diag. simpl. apply u8_small, rd_range.
Qed.

Lemma strncpy_loop_out n m (d t a : Z) : ~ (d <= a < d + Z.of_nat n) -> rd (strncpy_loop n m d t) a = rd m a.
Proof.
  revert m d t. induction n as [|n IH]; intros m d t Ha; [done|]. cbn [strncpy_loop].
  destruct (_ =? 0).
  - rewrite rd_zero_fill, decide_False, rd_wr_ne by lia. done.
  - rewrite IH, rd_wr_ne by lia. done.
Qed.

(** At most [n] bytes are written, whatever the source holds. *)
Lemma strncpy_out m (d t n a : Z) : ~ (d <= a < d + Z.max 0 (i32 n)) -> rd (strncpy m d t n) a = rd m a.
Proof. intros Ha. apply strncpy_loop_out. lia. Qed.

Lemma safestrcpy_loop_spec k m s t bs :
  cstr m t bs ->
  s + Z.of_nat k < t \/ t + Z.of_nat (length bs) < s ->
  cstr (safestrcpy_loop k m s t) s (take k bs) /\
  (forall b, ~ (s <= b <= s + Z.of_nat k) -> rd (safestrcpy_loop k m s t) b = rd m b).
Proof.
  revert m s t bs. induction k as [|k IH]; intros m s t bs Ht Hd; cbn [safestrcpy_loop].
  { split; [|intros; by rewrite rd_wr_ne by lia]. simpl.
    apply cstr_nil. by rewrite rd_wr_eq. }
  apply cstr_inv in Ht as [[-> E]|(x & bs' & -> & Hx & E & Ht)]; rewrite E.
  - simpl. split.
    + apply cstr_nil. rewrite rd_wr_ne by lia. by rewrite rd_wr_eq.
    + intros. by rewrite !rd_wr_ne by lia.
  - destruct (Z.eqb_spec x 0) as [|_]; [done|]. simpl length in Hd.
    destruct (IH (wr m s x) (s + 1) (t + 1) bs') as [H1 H2];
      [apply cstr_wr; [lia|done]|lia|].
    split.
    + cbn [take]. apply cstr_cons. split; [done|]. split; [|done].
      rewrite H2 by lia. rewrite rd_wr_eq, <- E. apply u8_small, rd_range.
    + intros b Hb. rewrite H2 by lia. by rewrite rd_wr_ne by lia.
Qed.

Lemma strlen_loop_spec fuel m s n bs :
  cstr m (s + n) bs -> (length bs < fuel)%nat ->
  strlen_loop fuel m s n = Some (n + Z.of_nat (length bs)).
Proof.
  revert n bs. induction fuel as [|f IH]; intros n bs H Hf; [lia|].
  cbn [strlen_loop]. unfold ctrue.
  apply cstr_inv in H as [[-> E]|(x & bs' & -> & Hx & E & H)]; rewrite E.
  - simpl. f_equal. lia.
  - destruct (Z.eqb_spec x 0) as [|_]; [done|]. simpl negb.
    rewrite (IH _ bs'); [|by rewrite Z.add_assoc|simpl in *; lia].
    f_equal. simpl length. lia.
Qed.

(** A zero byte within reach is enough for [strlen] to return. *)
Lemma strlen_loop_bound fuel m s n j :
  n <= j < n + Z.of_nat fuel -> rd m (s + j) = 0 ->
  exists k, strlen_loop fuel m s n = Some k /\ n <= k <= j.
Proof.
  revert n. induction fuel as [|f IH]; intros n Hj Hz; [lia|]. cbn [strlen_loop].
  destruct (ctrue (rd m (s + n))) eqn:E; [|exists n; split; [done|lia]].
  assert (n <> j) by (intros ->; rewrite Hz in E; done).
  destruct (IH (n + 1)) as (k & -> & ?); [lia|done|]. exists k. split; [done|lia].
Qed.

Lemma strlen_bound fuel m s j :
  0 <= j < Z.of_nat fuel -> rd m (s + j) = 0 ->
  exists k, strlen fuel m s = Some k /\ 0 <= k <= j.
Proof. intros Hj Hz. by apply (strlen_loop_bound fuel m s 0 j). Qed.

(** Proofs go through the lemmas above; evaluation is unaffected. *)
#[global] Opaque memset memmove memcmp strncmp strncpy safestrcpy strlen.
