(* ===== verification/Kalloc.v ===== *)
(** * Physical page allocator

    [kernel/kalloc.c].  Free pages form a linked list threaded through their
    own first eight bytes.  The abstract allocator is a stack of page
    addresses; [kalloc] and [kfree] refine its pop and push, and the pages a
    client holds and the free pages always partition the pages [kinit]
    found. *)

From S2P Require Import Prelude Riscv Mem CString.
From Stdlib Require Import Permutation.

(** ** State and operations *)

Record kst := KSt {
  phys : mem;        (** physical memory *)
  freelist : Z;      (** kmem.freelist *)
}.
Definition set_phys (f : mem -> mem) (s : kst) : kst := KSt (f (phys s)) (freelist s).
Definition set_freelist (r : Z) (s : kst) : kst := KSt (phys s) r.

Section Kalloc.
Context `{Linker}.
Local Open Scope kernel_scope.

Definition kfree (pa : Z) : M kst unit :=
  if ctrue (pa mod PGSIZE) || (pa <? kend) || (PHYSTOP <=? pa)
  then panic "kfree"
  else
    modify (set_phys (fun m => memset m pa 1 PGSIZE)) ;;
    next <- gets freelist ;;
    modify (set_phys (fun m => store64 m pa next)) ;;
    modify (set_freelist pa).

Definition kalloc : M kst Z :=
  r <- gets freelist ;;
  (when ctrue r then
     next <- gets (fun s => load64 (phys s) r) ;;
     modify (set_freelist next)) ;;
  (when ctrue r then modify (set_phys (fun m => memset m r 5 PGSIZE))) ;;
  ret r.

Fixpoint freerange_loop (fuel : nat) (p pa_end : Z) : M kst unit :=
  match fuel with
  | O => fail EFuel
  | S fuel =>
      if p + PGSIZE <=? pa_end
      then kfree p ;; freerange_loop fuel (p + PGSIZE) pa_end
      else ret tt
  end.
Definition freerange (pa_start pa_end : Z) : M kst unit :=
  let p := PGROUNDUP pa_start in
  freerange_loop (S (Z.to_nat ((pa_end - p) / PGSIZE))) p pa_end.

Definition kinit : M kst unit := freerange kend PHYSTOP.

(** ** The abstract allocator *)

(** A page the allocator may own. *)
Definition page_ok (p : Z) : Prop := p mod PGSIZE = 0 /\ kend <= p < PHYSTOP.

(** [fl m h l]: the list threaded through memory from [h] is the stack [l] of
  distinct pages. *)
Fixpoint fl (m : mem) (h : Z) (l : list Z) : Prop :=
  match l with
  | [] => h = 0
  | p :: l => h = p /\ page_ok p /\ (p ∉ l) /\ fl m (load64 m p) l
  end.

(** Refinement relation between the kernel's state and the stack. *)
Definition free_rep (s : kst) (l : list Z) : Prop := fl (phys s) (freelist s) l.

(** Memory outside the page [p] is the same. *)
Definition same_outside (p : Z) (m m' : mem) : Prop :=
  forall a, ~ in_page p a -> rd m' a = rd m a.

(** The pages of [start .. stop), lowest first. *)
Definition pages_from (start stop : Z) : list Z :=
  (fun i : nat => start + Z.of_nat i * PGSIZE) <$> seq 0 (Z.to_nat ((stop - start) / PGSIZE)).

(** ** A client of the allocator

  The client holds pages it was given; it may ask for a page or return
  one it holds. *)

Inductive alloc_op := Alloc | Free (p : Z).

Definition alloc_step (op : alloc_op) (s : kst) (held : list Z) : option (kst * list Z) :=
  match op with
  | Alloc => match kalloc s with
             | Ok r s' => Some (s', if ctrue r then r :: held else held)
             | Fail _ => None
             end
  | Free p => if decide (p ∈ held)
              then match kfree p s with
                   | Ok _ s' => Some (s', remove Z.eq_dec p held)
                   | Fail _ => None
                   end
              else Some (s, held)
  end.
Fixpoint alloc_run (ops : list alloc_op) (s : kst) (held : list Z) : option (kst * list Z) :=
  match ops with
  | [] => Some (s, held)
  | op :: ops => match alloc_step op s held with
                 | Some (s', held') => alloc_run ops s' held'
                 | None => None
                 end
  end.

End Kalloc.

(** ** Lemmas *)

Lemma pages_disjoint p q :
  p mod PGSIZE = 0 -> q mod PGSIZE = 0 -> p <> q -> p + PGSIZE <= q \/ q + PGSIZE <= p.
Proof. unfold PGSIZE. intros. zdm. Qed.

Section KallocTheory.
Context `{LinkerOk}.

Lemma page_ok_bounds p : page_ok p -> KERNBASE < p /\ p + PGSIZE <= PHYSTOP.
Proof.
  intros [Ha Hb]. pose proof kern_layout. pose proof trampoline_eq.
  unfold PHYSTOP, KERNBASE, PGSIZE in *. zdm.
Qed.

Lemma page_ok_nonzero p : page_ok p -> ctrue p = true.
Proof.
  intros Hp. apply page_ok_bounds in Hp. unfold ctrue, KERNBASE in *.
  destruct (Z.eqb_spec p 0); lia || done.
Qed.

Lemma page_ok_disjoint p q :
  page_ok p -> page_ok q -> p <> q -> p + PGSIZE <= q \/ q + PGSIZE <= p.
Proof. intros [? _] [? _] ?. by apply pages_disjoint. Qed.

Lemma fl_ok m h l : fl m h l -> Forall page_ok l /\ NoDup l.
Proof.
  revert h. induction l as [|p l IH]; intros h Hl; [by repeat constructor|].
  destruct Hl as (_ & Hp & Hn & Hl). apply IH in Hl as [? ?]. split; by constructor.
Qed.

(** The list only depends on the link words of its own pages. *)
Lemma fl_frame m m' h l :
  (forall p, p ∈ l -> load64 m' p = load64 m p) -> fl m h l -> fl m' h l.
Proof.
  revert h. induction l as [|p l IH]; intros h Hf Hl; [done|].
  destruct Hl as (-> & Hp & Hn & Hl). cbn [fl]. split_and!; try done.
  rewrite Hf by set_solver. apply IH; [|done]. intros q Hq. apply Hf. set_solver.
Qed.

Lemma fl_same_outside m m' h l p :
  page_ok p -> p ∉ l -> same_outside p m m' -> fl m h l -> fl m' h l.
Proof.
  intros Hp Hn Hs Hl. pose proof (fl_ok _ _ _ Hl) as [Hok _].
  apply (fl_frame m); [|done]. intros q Hq. apply load64_ext. intros b Hb. apply Hs.
  rewrite Forall_forall in Hok. specialize (Hok q Hq).
  assert (p <> q) by (intros ->; done).
  destruct (page_ok_disjoint p q) as [|]; try done; unfold in_page, PGSIZE in *; lia.
Qed.

Lemma same_outside_memset p m c : same_outside p m (memset m p c PGSIZE).
Proof.
  intros a Ha. rewrite rd_memset by (unfold PGSIZE; lia).
  case_decide; [done|done].
Qed.

Lemma same_outside_store64 p m a v :
  p <= a -> a + 8 <= p + PGSIZE -> same_outside p m (store64 m a v).
Proof. intros ? ? b Hb. apply rd_store64_ne. unfold in_page in *. lia. Qed.

Lemma same_outside_trans p m1 m2 m3 :
  same_outside p m1 m2 -> same_outside p m2 m3 -> same_outside p m1 m3.
Proof. intros H1 H2 a Ha. by rewrite H2, H1. Qed.

Lemma kalloc_wp s l (Q : Z -> kst -> Prop) :
  free_rep s l ->
  (l = [] -> Q 0 s) ->
  (forall p l' s', l = p :: l' -> page_ok p -> free_rep s' l' ->
     same_outside p (phys s) (phys s') ->
     (forall a, in_page p a -> rd (phys s') a = 5) -> Q p s') ->
  wp kalloc s Q.
Proof.
  intros Hl Hnil Hcons. unfold kalloc. do 2 wp_step.
  destruct l as [|p l].
  - unfold free_rep in Hl. simpl in Hl. rewrite Hl. simpl. wp_steps. by apply Hnil.
  - destruct Hl as (Hh & Hp & Hn & Hl). rewrite Hh, page_ok_nonzero by done.
    wp_steps. apply (Hcons p l); [done|done| | |].
    + unfold free_rep. simpl.
      eapply fl_same_outside; [done|done|apply same_outside_memset|done].
    + apply same_outside_memset.
    + intros a Ha. simpl. rewrite rd_memset by alia. case_decide; [done|alia].
Qed.

Lemma kfree_wp s l p (Q : unit -> kst -> Prop) :
  free_rep s l -> page_ok p -> p ∉ l ->
  (forall s', free_rep s' (p :: l) -> same_outside p (phys s) (phys s') -> Q tt s') ->
  wp (kfree p) s Q.
Proof.
  intros Hl Hp Hn HQ. unfold kfree.
  destruct Hp as [Ha [Hlo Hhi]].
  replace (ctrue (p mod PGSIZE) || (p <? kend) || (PHYSTOP <=? p)) with false
    by (rewrite Ha; simpl; symmetry; apply orb_false_iff; split; lia).
  wp_steps. destruct s as [m h]; unfold set_phys, set_freelist, free_rep in *; simpl in *.
  assert (Hs : same_outside p m (store64 (memset m p 1 PGSIZE) p h)).
  { eapply same_outside_trans; [apply same_outside_memset|].
    apply same_outside_store64; unfold PGSIZE; lia. }
  apply HQ; [|done]. simpl. split_and!; try done.
  assert (0 <= h < 2 ^ 64).
  { destruct l as [|q l]; simpl in Hl; [lia|].
    destruct Hl as (-> & Hq & _). apply page_ok_bounds in Hq.
    alia. }
  rewrite load64_store64_eq by done.
  eapply (fl_same_outside m _ _ _ p); [by split|done|done|done].
Qed.

Lemma kfree_panics s p : ~ page_ok p -> kfree p s = Fail (EPanic "kfree").
Proof.
  intros Hp. unfold kfree, page_ok, ctrue in *.
  destruct (Z.eqb_spec (p mod PGSIZE) 0), (Z.ltb_spec p kend), (Z.leb_spec PHYSTOP p);
    simpl; try done. exfalso. apply Hp. split; [done|lia].
Qed.

(** *** Initialisation *)

Lemma pages_from_nil p stop : stop < p + PGSIZE -> pages_from p stop = [].
Proof.
  intros. unfold pages_from. replace (Z.to_nat _) with 0%nat; [done|].
  unfold PGSIZE in *. zdm.
Qed.

Lemma pages_from_cons p stop :
  p + PGSIZE <= stop -> pages_from p stop = p :: pages_from (p + PGSIZE) stop.
Proof.
  intros. unfold pages_from.
  replace (Z.to_nat ((stop - p) / PGSIZE))
    with (S (Z.to_nat ((stop - (p + PGSIZE)) / PGSIZE))).
  2: { unfold PGSIZE in *. zdm. }
  cbn [seq fmap list_fmap]. f_equal; [lia|].
  rewrite <- fmap_S_seq, <- list_fmap_compose. apply list_fmap_ext.
  intros i x _. unfold compose. lia.
Qed.

Lemma freerange_loop_wp fuel p stop s l (Q : unit -> kst -> Prop) :
  p mod PGSIZE = 0 -> kend <= p -> stop <= PHYSTOP ->
  (Z.to_nat ((stop - p) / PGSIZE) < fuel)%nat ->
  free_rep s l -> (forall q, q ∈ l -> q < p) ->
  (forall s', free_rep s' (reverse (pages_from p stop) ++ l) -> Q tt s') ->
  wp (freerange_loop fuel p stop) s Q.
Proof.
  revert p s l. induction fuel as [|f IH]; intros p s l Ha Hlo Hhi Hf Hl Hlt HQ; [lia|].
  cbn [freerange_loop]. destruct (Z.leb_spec (p + PGSIZE) stop) as [Hle|Hgt].
  - rewrite pages_from_cons in HQ by done. rewrite reverse_cons in HQ.
    wp_step. apply (kfree_wp s l); [done|split; [done|unfold PGSIZE in *; lia]| |].
    { intros Hin. specialize (Hlt p Hin). lia. }
    intros s' Hs' _. apply (IH _ _ (p :: l)); try done.
    + unfold PGSIZE in *. zdm.
    + unfold PGSIZE in *. lia.
    + unfold PGSIZE in *. zdm.
    + intros q [->|Hq]%elem_of_cons; [unfold PGSIZE; lia|].
      specialize (Hlt q Hq). unfold PGSIZE. lia.
    + intros s'' Hs''. apply HQ. by rewrite <- app_assoc.
  - rewrite pages_from_nil in HQ by lia. apply wp_ret. by apply HQ.
Qed.

(** *** Conservation of pages *)

Lemma remove_Permutation (p : Z) held :
  NoDup held -> p ∈ held -> held ≡ₚ p :: remove Z.eq_dec p held.
Proof.
  intros Hd Hin. induction Hd as [|x held Hx Hd IH]; [set_solver|].
  simpl. destruct (Z.eq_dec p x) as [->|Hne].
  - rewrite notin_remove; [done|]. by rewrite <- list_elem_of_In.
  - rewrite IH at 1 by (by apply elem_of_cons in Hin as [?|?]). apply Permutation_swap.
Qed.

Lemma alloc_step_conserves op s held l pages :
  free_rep s l -> NoDup pages -> Forall page_ok pages -> held ++ l ≡ₚ pages ->
  exists s' held' l', alloc_step op s held = Some (s', held') /\
    free_rep s' l' /\ held' ++ l' ≡ₚ pages.
Proof.
  intros Hl Hd Hok Hp. destruct op as [|p]; cbn [alloc_step].
  - assert (Hw : wp kalloc s (fun r s' => exists held' l',
      held' = (if ctrue r then r :: held else held) /\
      free_rep s' l' /\ held' ++ l' ≡ₚ pages)).
    { apply (kalloc_wp s l); [done| |].
      - intros ->. exists held, []. done.
      - intros p l' s' -> Hpok Hs' _ _. exists (p :: held), l'.
        rewrite page_ok_nonzero by done. split_and!; [done|done|].
        rewrite <- Hp. simpl. apply Permutation_middle. }
    apply wp_ok in Hw as (r & s' & -> & held' & l' & -> & ? & ?). eauto 10.
  - case_decide as Hin; [|eauto 10].
    assert (Hnd : NoDup (held ++ l)) by (by rewrite Hp).
    apply NoDup_app in Hnd as (Hnd & Hdis & _).
    assert (Hpok : page_ok p).
    { rewrite Forall_forall in Hok. apply Hok. rewrite <- Hp. set_solver. }
    assert (Hw : wp (kfree p) s (fun _ s' => free_rep s' (p :: l))).
    { apply (kfree_wp s l); auto. }
    apply wp_ok in Hw as ([] & s' & -> & Hs').
    exists s', (remove Z.eq_dec p held), (p :: l). split_and!; [done|done|].
    rewrite <- Hp. rewrite (remove_Permutation p held) at 2 by done.
    simpl. symmetry. apply Permutation_middle.
Qed.
Lemma alloc_run_conserves ops s held l pages :
  free_rep s l -> NoDup pages -> Forall page_ok pages -> held ++ l ≡ₚ pages ->
  exists s' held' l', alloc_run ops s held = Some (s', held') /\
    free_rep s' l' /\ held' ++ l' ≡ₚ pages.
Proof.
  revert s held l. induction ops as [|op ops IH]; intros s held l Hl Hd Hok Hp; [eauto 10|].
  cbn [alloc_run]. destruct (alloc_step_conserves op s held l pages Hl Hd Hok Hp)
    as (s' & held' & l' & -> & Hl' & Hp'). by apply (IH _ _ l').
Qed.

(** The pages of a range are distinct, and those above [kend] may be owned. *)
Lemma elem_of_pages_from p start stop :
  p ∈ pages_from start stop -> start <= p /\ p + PGSIZE <= stop /\ (p - start) mod PGSIZE = 0.
Proof.
  unfold pages_from. intros (i & -> & Hi)%list_elem_of_fmap. apply elem_of_seq in Hi. alia.
Qed.

Lemma pages_from_NoDup start stop : NoDup (pages_from start stop).
Proof.
  unfold pages_from. apply NoDup_fmap_2; [|apply NoDup_seq]. intros i j ?. alia.
Qed.

Lemma pages_from_ok start stop :
  start mod PGSIZE = 0 -> kend <= start -> stop <= PHYSTOP -> Forall page_ok (pages_from start stop).
Proof.
  intros Ha Hlo Hhi. rewrite Forall_forall. intros p (H1 & H2 & H3)%elem_of_pages_from.
  split; alia.
Qed.

Lemma kinit_wp s :
  freelist s = 0 ->
  wp kinit s (fun _ s' => free_rep s' (reverse (pages_from (PGROUNDUP kend) PHYSTOP))).
Proof.
  intros Hs. pose proof kern_layout as [Hk1 Hk2]. pose proof (PGROUNDUP_aligned kend).
  assert (Hk : PGROUNDUP kend = (kend + 4095) / 4096 * 4096).
  { apply PGROUNDUP_eq; pose proof trampoline_eq; alia. }
  unfold kinit, freerange. apply (freerange_loop_wp _ _ _ s []); try done; try lia.
  - rewrite Hk. alia.
  - by intros q ?%not_elem_of_nil.
  - intros s' Hs'. by rewrite app_nil_r in Hs'.
Qed.

Lemma kinit_pages_ok :
  let pages := pages_from (PGROUNDUP kend) PHYSTOP in NoDup pages /\ Forall page_ok pages.
Proof.
  split; [apply pages_from_NoDup|]. apply pages_from_ok; [apply PGROUNDUP_aligned| |lia].
  pose proof kern_layout. rewrite PGROUNDUP_eq by (pose proof trampoline_eq; alia). alia.
Qed.
End KallocTheory.
