(* ===== verification/Vm.v ===== *)
(** * Page tables and user memory: the routines

    [kernel/vm.c], with [proc_pagetable] and [proc_freepagetable] of
    [kernel/proc.c], which only use them.  Page tables live in physical
    memory, as arrays of 512 eight-byte entries; a pointer to an entry is its
    address and a null pointer is 0.  Loops that run over an address range
    carry as fuel the number of pages in the range. *)

From S2P Require Import Prelude Riscv Mem CString Kalloc.

Section Vm.
Context `{Linker}.
Local Open Scope kernel_scope.

(** Load and store through a pointer. *)
Definition loadq (a : Z) : M kst Z := gets (fun s => load64 (phys s) a).
Definition storeq (a v : Z) : M kst unit := modify (set_phys (fun m => store64 m a v)).

Definition is_set (v bit : Z) : bool := ctrue (Z.land v bit).

(** The address of entry [i] of the page-table page [pagetable]. *)
Definition slot (pagetable i : Z) : Z := pagetable + 8 * i.

Fixpoint walk_loop (level : nat) (pagetable va : Z) (alloc : bool) : M kst Z :=
  match level with
  | O => ret (slot pagetable (PX 0 va))
  | S l =>
      let pte := slot pagetable (PX (Z.of_nat level) va) in
      v <- loadq pte ;;
      if is_set v PTE_V
      then walk_loop l (PTE2PA v) va alloc
      else if negb alloc then ret 0
      else
        pagetable' <- kalloc ;;
        if pagetable' =? 0 then ret 0
        else
          modify (set_phys (fun m => memset m pagetable' 0 PGSIZE)) ;;
          storeq pte (Z.lor (PA2PTE pagetable') PTE_V) ;;
          walk_loop l pagetable' va alloc
  end.
Definition walk (pagetable va : Z) (alloc : bool) : M kst Z :=
  if MAXVA <=? va then panic "walk" else walk_loop 2 pagetable va alloc.

Definition walkaddr (pagetable va : Z) : M kst Z :=
  if MAXVA <=? va then ret 0
  else
    pte <- walk pagetable va false ;;
    if pte =? 0 then ret 0
    else
      v <- loadq pte ;;
      if negb (is_set v PTE_V) then ret 0
      else if negb (is_set v PTE_U) then ret 0
      else ret (PTE2PA v).

Fixpoint mappages_loop (fuel : nat) (pagetable a last pa perm : Z) : M kst Z :=
  match fuel with
  | O => fail EFuel
  | S fuel =>
      pte <- walk pagetable a true ;;
      if pte =? 0 then ret (-1)
      else
        v <- loadq pte ;;
        if is_set v PTE_V then panic "mappages: remap"
        else
          storeq pte (Z.lor (Z.lor (PA2PTE pa) perm) PTE_V) ;;
          if a =? last then ret 0
          else mappages_loop fuel pagetable (u64 (a + PGSIZE)) last (u64 (pa + PGSIZE)) perm
  end.
Definition mappages (pagetable va size pa perm : Z) : M kst Z :=
  if size =? 0 then panic "mappages: size"
  else
    let a := PGROUNDDOWN va in
    let last := PGROUNDDOWN (u64 (va + size - 1)) in
    mappages_loop (S (Z.to_nat (u64 (last - a) / PGSIZE))) pagetable a last pa perm.

Definition kvmmap (kpgtbl va pa sz perm : Z) : M kst unit :=
  r <- mappages kpgtbl va sz pa perm ;;
  if negb (r =? 0) then panic "kvmmap" else ret tt.

Fixpoint uvmunmap_loop (fuel : nat) (pagetable a stop : Z) (do_free : bool) : M kst unit :=
  if a <? stop then
    match fuel with
    | O => fail EFuel
    | S fuel =>
        pte <- walk pagetable a false ;;
        if pte =? 0 then panic "uvmunmap: walk"
        else
          v <- loadq pte ;;
          if negb (is_set v PTE_V) then panic "uvmunmap: not mapped"
          else if PTE_FLAGS v =? PTE_V then panic "uvmunmap: not a leaf"
          else
            (when do_free then kfree (PTE2PA v)) ;;
            storeq pte 0 ;;
            uvmunmap_loop fuel pagetable (u64 (a + PGSIZE)) stop do_free
    end
  else ret tt.
Definition uvmunmap (pagetable va npages : Z) (do_free : bool) : M kst unit :=
  if ctrue (va mod PGSIZE) then panic "uvmunmap: not aligned"
  else uvmunmap_loop (Z.to_nat npages) pagetable va (u64 (va + u64 (npages * PGSIZE))) do_free.

Definition uvmcreate : M kst Z :=
  pagetable <- kalloc ;;
  if pagetable =? 0 then ret 0
  else modify (set_phys (fun m => memset m pagetable 0 PGSIZE)) ;; ret pagetable.

(** [uvmfirst] uses what [kalloc] and [mappages] return unchecked. *)
Definition uvmfirst (pagetable src sz : Z) : M kst unit :=
  if PGSIZE <=? sz then panic "uvmfirst: more than a page"
  else
    pa <- kalloc ;;
    modify (set_phys (fun m => memset m pa 0 PGSIZE)) ;;
    mappages pagetable 0 PGSIZE pa (Z.lor (Z.lor (Z.lor PTE_W PTE_R) PTE_X) PTE_U) ;;
    modify (set_phys (fun m => memmove m pa src sz)).

Definition uvmdealloc (pagetable oldsz newsz : Z) : M kst Z :=
  if oldsz <=? newsz then ret oldsz
  else
    (when PGROUNDUP newsz <? PGROUNDUP oldsz then
       let npages := i32 ((PGROUNDUP oldsz - PGROUNDUP newsz) / PGSIZE) in
       uvmunmap pagetable (PGROUNDUP newsz) (u64 npages) true) ;;
    ret newsz.

Fixpoint uvmalloc_loop (fuel : nat) (pagetable a oldsz newsz xperm : Z) : M kst Z :=
  if a <? newsz then
    match fuel with
    | O => fail EFuel
    | S fuel =>
        pa <- kalloc ;;
        if pa =? 0 then uvmdealloc pagetable a oldsz ;; ret 0
        else
          modify (set_phys (fun m => memset m pa 0 PGSIZE)) ;;
          r <- mappages pagetable a PGSIZE pa (Z.lor (Z.lor PTE_R PTE_U) xperm) ;;
          if negb (r =? 0)
          then kfree pa ;; uvmdealloc pagetable a oldsz ;; ret 0
          else uvmalloc_loop fuel pagetable (u64 (a + PGSIZE)) oldsz newsz xperm
    end
  else ret newsz.
Definition uvmalloc (pagetable oldsz newsz xperm : Z) : M kst Z :=
  if newsz <? oldsz then ret oldsz
  else
    let oldsz := PGROUNDUP oldsz in
    uvmalloc_loop (Z.to_nat ((newsz - oldsz + PGSIZE - 1) / PGSIZE))
      pagetable oldsz oldsz newsz xperm.

(** The C function recurses into the entries that point to page-table pages;
  [depth] bounds that recursion, and three levels are enough for any
  well-formed table. *)
Fixpoint freewalk (depth : nat) (pagetable : Z) : M kst unit :=
  match depth with
  | O => fail EFuel
  | S d =>
      (fix loop (k : nat) (i : Z) : M kst unit :=
         match k with
         | O => ret tt
         | S k =>
             pte <- loadq (slot pagetable i) ;;
             (if is_set pte PTE_V && (Z.land pte (Z.lor (Z.lor PTE_R PTE_W) PTE_X) =? 0)
              then freewalk d (PTE2PA pte) ;; storeq (slot pagetable i) 0
              else if is_set pte PTE_V then panic "freewalk: leaf"
              else ret tt) ;;
             loop k (i + 1)
         end) 512%nat 0 ;;
      kfree pagetable
  end.

Definition uvmfree (pagetable sz : Z) : M kst unit :=
  (when 0 <? sz then uvmunmap pagetable 0 (PGROUNDUP sz / PGSIZE) true) ;;
  freewalk 3 pagetable.

Fixpoint uvmcopy_loop (fuel : nat) (old new i sz : Z) : M kst Z :=
  if i <? sz then
    match fuel with
    | O => fail EFuel
    | S fuel =>
        pte <- walk old i false ;;
        if pte =? 0 then panic "uvmcopy: pte should exist"
        else
          v <- loadq pte ;;
          if negb (is_set v PTE_V) then panic "uvmcopy: page not present"
          else
            let pa := PTE2PA v in
            let flags := PTE_FLAGS v in
            let err := uvmunmap new 0 (i / PGSIZE) true ;; ret (-1) in
            pa' <- kalloc ;;
            if pa' =? 0 then err
            else
              modify (set_phys (fun m => memmove m pa' pa PGSIZE)) ;;
              r <- mappages new i PGSIZE pa' flags ;;
              if negb (r =? 0) then kfree pa' ;; err
              else uvmcopy_loop fuel old new (u64 (i + PGSIZE)) sz
    end
  else ret 0.
Definition uvmcopy (old new sz : Z) : M kst Z :=
  uvmcopy_loop (Z.to_nat ((sz + PGSIZE - 1) / PGSIZE)) old new 0 sz.

Definition uvmclear (pagetable va : Z) : M kst unit :=
  pte <- walk pagetable va false ;;
  if pte =? 0 then panic "uvmclear"
  else
    v <- loadq pte ;;
    storeq pte (Z.land v (u64 (Z.lnot PTE_U))).

Fixpoint copyout_loop (fuel : nat) (pagetable dstva src len : Z) : M kst Z :=
  if 0 <? len then
    match fuel with
    | O => fail EFuel
    | S fuel =>
        let va0 := PGROUNDDOWN dstva in
        pa0 <- walkaddr pagetable va0 ;;
        if pa0 =? 0 then ret (-1)
        else
          let n := PGSIZE - (dstva - va0) in
          let n := if len <? n then len else n in
          modify (set_phys (fun m => memmove m (pa0 + (dstva - va0)) src n)) ;;
          copyout_loop fuel pagetable (u64 (va0 + PGSIZE)) (src + n) (len - n)
    end
  else ret 0.
Definition copyout (pagetable dstva src len : Z) : M kst Z :=
  copyout_loop (S (Z.to_nat ((len + PGSIZE - 1) / PGSIZE))) pagetable dstva src len.

Fixpoint copyin_loop (fuel : nat) (pagetable dst srcva len : Z) : M kst Z :=
  if 0 <? len then
    match fuel with
    | O => fail EFuel
    | S fuel =>
        let va0 := PGROUNDDOWN srcva in
        pa0 <- walkaddr pagetable va0 ;;
        if pa0 =? 0 then ret (-1)
        else
          let n := PGSIZE - (srcva - va0) in
          let n := if len <? n then len else n in
          modify (set_phys (fun m => memmove m dst (pa0 + (srcva - va0)) n)) ;;
          copyin_loop fuel pagetable (dst + n) (u64 (va0 + PGSIZE)) (len - n)
    end
  else ret 0.
Definition copyin (pagetable dst srcva len : Z) : M kst Z :=
  copyin_loop (S (Z.to_nat ((len + PGSIZE - 1) / PGSIZE))) pagetable dst srcva len.

(** The inner loop of [copyinstr]: the [n] bytes at [p] are copied to [dst]
  up to and including a zero byte; says whether one was found. *)
Fixpoint copyinstr_page (n : nat) (p dst : Z) : M kst bool :=
  match n with
  | O => ret false
  | S n =>
      c <- gets (fun s => rd (phys s) p) ;;
      modify (set_phys (fun m => wr m dst c)) ;;
      if c =? 0 then ret true
      else copyinstr_page n (p + 1) (dst + 1)
  end.
Fixpoint copyinstr_loop (fuel : nat) (pagetable dst srcva max : Z) : M kst Z :=
  if 0 <? max then
    match fuel with
    | O => fail EFuel
    | S fuel =>
        let va0 := PGROUNDDOWN srcva in
        pa0 <- walkaddr pagetable va0 ;;
        if pa0 =? 0 then ret (-1)
        else
          let n := PGSIZE - (srcva - va0) in
          let n := if max <? n then max else n in
          got_null <- copyinstr_page (Z.to_nat n) (pa0 + (srcva - va0)) dst ;;
          if (got_null : bool) then ret 0
          else copyinstr_loop fuel pagetable (dst + n) (u64 (va0 + PGSIZE)) (max - n)
    end
  else ret (-1).
Definition copyinstr (pagetable dst srcva max : Z) : M kst Z :=
  copyinstr_loop (S (Z.to_nat ((max + PGSIZE - 1) / PGSIZE))) pagetable dst srcva max.

(** ** Process page tables (proc.c) *)

Definition proc_pagetable (trapframe : Z) : M kst Z :=
  pagetable <- uvmcreate ;;
  if pagetable =? 0 then ret 0
  else
    r <- mappages pagetable TRAMPOLINE PGSIZE trampoline (Z.lor PTE_R PTE_X) ;;
    if r <? 0 then uvmfree pagetable 0 ;; ret 0
    else
      r <- mappages pagetable TRAPFRAME PGSIZE trapframe (Z.lor PTE_R PTE_W) ;;
      if r <? 0
      then uvmunmap pagetable TRAMPOLINE 1 false ;; uvmfree pagetable 0 ;; ret 0
      else ret pagetable.

Definition proc_freepagetable (pagetable sz : Z) : M kst unit :=
  uvmunmap pagetable TRAMPOLINE 1 false ;;
  uvmunmap pagetable TRAPFRAME 1 false ;;
  uvmfree pagetable sz.

End Vm.
