(* ===== verification/PageTable.v ===== *)
(** * Page tables: well-formedness and the address space they represent

    The concrete state is physical memory with page-table pages in it; the
    abstract state is a finite map from virtual page numbers to a physical
    page and its permission bits.  A labelling gives every page-table page
    its level and the address prefix it is responsible for: it makes the
    tree structure a local condition on single entries. *)

From S2P Require Import Prelude Riscv Mem CString Kalloc Vm.

(** ** The abstract address space *)

Abbreviation aspace := (gmap Z (Z * Z)).   (** vpn -> physical page, flags *)

Definition mkpte (pa f : Z) : Z := Z.lor (Z.lor (PA2PTE pa) f) PTE_V.
(** An entry that points to the next-level page-table page [p]. *)
Definition ptr (p : Z) : Z := Z.lor (PA2PTE p) PTE_V.

Abbreviation labels := (gmap Z (Z * Z)).   (** page -> level, prefix *)

(** The prefix of [va] that a page-table page of level [l] is indexed under. *)
Definition prefix (l va : Z) : Z := va / 2 ^ (12 + 9 * (l + 1)).

(** [walk] without allocation, as a function of memory. *)
Fixpoint wlk (l : nat) (m : mem) (pt va : Z) : Z :=
  match l with
  | O => slot pt (PX 0 va)
  | S l' => let v := load64 m (slot pt (PX (Z.of_nat l) va)) in
            if is_set v PTE_V then wlk l' m (PTE2PA v) va else 0
  end.
(** The leaf entry for [va], 0 where there is none. *)
Definition pte_at (m : mem) (root va : Z) : Z :=
  let a := wlk 2 m root va in if a =? 0 then 0 else load64 m a.

Section Wf.
Context `{Linker}.

Record pt_wf (m : mem) (root : Z) (L : labels) : Prop := PtWf {
  wf_root : L !! root = Some (2, 0);
  wf_page : forall p l x, L !! p = Some (l, x) ->
    page_ok p /\ 0 <= l <= 2 /\ (l = 2 -> p = root);
  wf_child : forall p l x i, L !! p = Some (l, x) -> 0 < l -> 0 <= i < 512 ->
    is_set (load64 m (slot p i)) PTE_V = true ->
    exists c, load64 m (slot p i) = ptr c /\ L !! c = Some (l - 1, x * 512 + i);
  wf_parent : forall p l x, L !! p = Some (l, x) -> l < 2 ->
    exists q, L !! q = Some (l + 1, x / 512) /\ load64 m (slot q (x mod 512)) = ptr p;
}.

(** Page tables, free pages, and nothing in both. *)
Record vm_ok (s : kst) (root : Z) (L : labels) (free : list Z) : Prop := VmOk {
  vm_wf : pt_wf (phys s) root L;
  vm_free : free_rep s free;
  vm_sep : forall p, p ∈ free -> L !! p = None;
}.

(** The page table at [root] represents the address space [A]. *)
Definition as_rep (m : mem) (root : Z) (A : aspace) : Prop :=
  forall va, 0 <= va < MAXVA ->
    pte_at m root va =
    match A !! (va / PGSIZE) with Some (pa, f) => mkpte pa f | None => 0 end.

End Wf.

(** ** Entries *)

Lemma is_set_V v : is_set v PTE_V = Z.odd v.
Proof.
  unfold is_set, PTE_V, ctrue. change (Z.shiftl 1 0) with (Z.ones 1).
  rewrite Z.land_ones by lia. change (2 ^ 1) with 2.
  rewrite Zmod_odd. by destruct (Z.odd v).
Qed.

Lemma lor_V f : 0 <= f < 1024 -> 0 <= Z.lor f PTE_V < 1024.
Proof.
  intros Hf. change PTE_V with 1.
  assert (0 <= Z.lor f 1) by (apply Z.lor_nonneg; lia). split; [done|].
  destruct (decide (Z.lor f 1 = 0)) as [->|Hn]; [lia|].
  apply (Z.log2_lt_pow2 _ 10); [lia|].
  rewrite Z.log2_lor by lia. change (Z.log2 1) with 0.
  destruct (decide (f = 0)) as [->|]; [simpl; lia|].
  assert (Z.log2 f < 10) by (apply Z.log2_lt_pow2; lia). lia.
Qed.

Lemma ptr_eq p : 0 <= p < 2 ^ 64 -> ptr p = p / 4096 * 1024 + 1.
Proof. intros. unfold ptr. change PTE_V with 1. rewrite lor_flags by lia. done. Qed.

Lemma mkpte_lor pa f : mkpte pa f = Z.lor (PA2PTE pa) (Z.lor f PTE_V).
Proof. unfold mkpte. by rewrite Z.lor_assoc. Qed.

Lemma lor_range a b : 0 <= a < 2 ^ 64 -> 0 <= b < 2 ^ 64 -> 0 <= Z.lor a b < 2 ^ 64.
Proof.
  intros Ha Hb. assert (0 <= Z.lor a b) by (apply Z.lor_nonneg; lia). split; [done|].
  destruct (decide (Z.lor a b = 0)) as [->|]; [lia|].
  apply Z.log2_lt_pow2; [lia|]. rewrite Z.log2_lor by lia.
  destruct (decide (a = 0)) as [->|], (decide (b = 0)) as [->|];
    repeat match goal with
    | H : ?x <> 0 |- _ => assert (Z.log2 x < 64) by (apply Z.log2_lt_pow2; lia); clear H
    end; simpl; lia.
Qed.

Lemma mkpte_range pa f : 0 <= f < 1024 -> 0 <= mkpte pa f < 2 ^ 64.
Proof.
  intros. rewrite mkpte_lor. apply lor_range.
  - apply u64_range.
  - pose proof (lor_V f). lia.
Qed.

Lemma mkpte_valid pa f : is_set (mkpte pa f) PTE_V = true.
Proof.
  rewrite is_set_V, <- Z.bit0_odd. unfold mkpte. rewrite Z.lor_spec.
  change (Z.testbit PTE_V 0) with true. apply orb_true_r.
Qed.

Lemma mkpte_PA pa f :
  0 <= pa < 2 ^ 64 -> pa mod 4096 = 0 -> 0 <= f < 1024 -> PTE2PA (mkpte pa f) = pa.
Proof. intros. rewrite mkpte_lor. apply PTE2PA_mk; [done|done|by apply lor_V]. Qed.

Lemma mkpte_FLAGS pa f :
  0 <= pa < 2 ^ 64 -> 0 <= f < 1024 -> PTE_FLAGS (mkpte pa f) = Z.lor f PTE_V.
Proof. intros. rewrite mkpte_lor. apply PTE_FLAGS_mk; [done|by apply lor_V]. Qed.

Lemma ptr_mkpte p : ptr p = mkpte p 0.
Proof. unfold ptr, mkpte. by rewrite Z.lor_0_r. Qed.

Section Ptr.
Context `{LinkerOk}.

Lemma page_ok_range p : page_ok p -> 0 <= p < 2 ^ 64 /\ p mod 4096 = 0.
Proof. intros Hp. pose proof (page_ok_bounds p Hp). destruct Hp. alia. Qed.

Lemma ptr_PA p : page_ok p -> PTE2PA (ptr p) = p.
Proof. intros [? ?]%page_ok_range. rewrite ptr_mkpte. apply mkpte_PA; lia. Qed.

Lemma ptr_inj p q : page_ok p -> page_ok q -> ptr p = ptr q -> p = q.
Proof. intros Hp Hq E. rewrite <- (ptr_PA p), <- (ptr_PA q) by done. by rewrite E. Qed.

(** Slots of page-table pages do not overlap. *)
Lemma load_store_slot m p i q j v :
  page_ok p -> page_ok q -> 0 <= i < 512 -> 0 <= j < 512 -> 0 <= v < 2 ^ 64 ->
  load64 (store64 m (slot p i) v) (slot q j) =
  if decide (p = q /\ i = j) then v else load64 m (slot q j).
Proof.
  intros Hp Hq Hi Hj Hv. case_decide as E.
  - destruct E as [-> ->]. by apply load64_store64_eq.
  - apply load64_store64_ne. unfold slot.
    destruct (decide (p = q)) as [->|Hne]; [lia|].
    destruct (page_ok_disjoint p q); try done; alia.
Qed.

Lemma load_memset_slot m p c q j :
  page_ok p -> page_ok q -> 0 <= j < 512 -> p <> q ->
  load64 (memset m p c PGSIZE) (slot q j) = load64 m (slot q j).
Proof.
  intros Hp Hq Hj Hne. apply load64_memset_ne; [alia|]. unfold slot.
  destruct (page_ok_disjoint p q); try done; alia.
Qed.
End Ptr.

(** ** Prefixes *)

Lemma prefix_top va : 0 <= va < MAXVA -> prefix 2 va = 0.
Proof.
  intros. unfold prefix. apply Z.div_small. rewrite MAXVA_eq in *.
  change (12 + 9 * (2 + 1)) with 39. lia.
Qed.

Lemma prefix_step l va :
  0 <= l -> prefix l va = prefix (l + 1) va * 512 + PX (l + 1) va.
Proof.
  intros Hl. rewrite PX_eq by lia. unfold prefix.
  replace (12 + 9 * (l + 1 + 1)) with (12 + 9 * (l + 1) + 9) by lia.
  rewrite (Z.pow_add_r 2 (12 + 9 * (l + 1)) 9), <- Z.div_div by lia.
  change (2 ^ 9) with 512.
  set (y := va / 2 ^ (12 + 9 * (l + 1))). pose proof (Z.div_mod y 512). lia.
Qed.

Lemma prefix_leaf va : 0 <= va -> va / 4096 = prefix 0 va * 512 + PX 0 va.
Proof.
  intros. rewrite PX_eq by lia. unfold prefix. change (2 ^ (12 + 9 * (0 + 1))) with (2 ^ 12 * 512).
  change (2 ^ (12 + 9 * 0)) with (2 ^ 12).
  rewrite <- Z.div_div by lia. change (2 ^ 12) with 4096.
  pose proof (Z.div_mod (va / 4096) 512). lia.
Qed.

(** ** Walking a well-formed table *)

Section Walk.
Context `{LinkerOk}.

Lemma slot_nonzero p i : page_ok p -> 0 <= i < 512 -> slot p i <> 0.
Proof. intros Hp%page_ok_bounds ?. unfold slot. alia. Qed.

Lemma ptr_valid p : is_set (ptr p) PTE_V = true.
Proof. rewrite ptr_mkpte. apply mkpte_valid. Qed.

Lemma walk_loop_false l pt va s :
  walk_loop l pt va false s = Ok (wlk l (phys s) pt va) s.
Proof.
  revert pt. induction l as [|l IH]; intros pt; cbn [walk_loop wlk]; [done|].
  unfold bind, loadq, gets. cbn zeta.
  destruct (is_set _ PTE_V); [apply IH|done].
Qed.

Context (m : mem) (root : Z) (L : labels).
Hypothesis Hwf : pt_wf m root L.

Lemma wlk_label (l : nat) p va :
  0 <= va -> L !! p = Some (Z.of_nat l, prefix (Z.of_nat l) va) ->
  wlk l m p va = 0 \/
  exists q, L !! q = Some (0, prefix 0 va) /\ wlk l m p va = slot q (PX 0 va).
Proof.
  intros Hva. revert p. induction l as [|l IH]; intros p Hp; cbn [wlk]; [eauto|].
  cbn zeta. destruct (is_set _ PTE_V) eqn:Hv; [|by left].
  destruct (wf_child _ _ _ Hwf _ _ _ (PX (Z.of_nat (S l)) va) Hp) as (c & Hc & HL);
    [lia|apply PX_range; lia|done|].
  rewrite Hc, ptr_PA by (by eapply wf_page in HL as [? _]).
  apply IH. rewrite HL. do 2 f_equal; [lia|].
  rewrite (prefix_step (Z.of_nat l)) by lia.
  by replace (Z.of_nat l + 1) with (Z.of_nat (S l)) by lia.
Qed.

Lemma wlk_up (l : nat) p va :
  0 <= va -> L !! p = Some (Z.of_nat l, prefix (Z.of_nat l) va) -> Z.of_nat l < 2 ->
  exists q, L !! q = Some (Z.of_nat (S l), prefix (Z.of_nat (S l)) va) /\
            wlk (S l) m q va = wlk l m p va.
Proof.
  intros Hva Hp Hl. pose proof (wf_page _ _ _ Hwf _ _ _ Hp) as [Hpok _].
  destruct (wf_parent _ _ _ Hwf _ _ _ Hp Hl) as (q & Hq & Hload).
  pose proof (PX_range (Z.of_nat l + 1) va) as HPX.
  rewrite (prefix_step (Z.of_nat l)) in Hq, Hload by lia.
  rewrite Z.div_add_l, (Z.div_small (PX _ _)), Z.add_0_r in Hq by lia.
  rewrite Z.add_comm, Z.mod_add, Z.mod_small in Hload by lia.
  replace (Z.of_nat l + 1) with (Z.of_nat (S l)) in Hq, Hload by lia.
  exists q. split; [done|]. cbn [wlk]. cbn zeta.
  by rewrite Hload, ptr_valid, ptr_PA.
Qed.

Lemma wlk_reach (l : nat) p va :
  0 <= va < MAXVA -> L !! p = Some (Z.of_nat l, prefix (Z.of_nat l) va) ->
  wlk 2 m root va = wlk l m p va.
Proof.
  intros Hva Hp. destruct (wf_page _ _ _ Hwf _ _ _ Hp) as (_ & Hl & Htop).
  destruct l as [|[|[|l]]]; [..|lia].
  - destruct (wlk_up 0 p va) as (q & Hq & <-); [lia|done|lia|].
    destruct (wlk_up 1 q va) as (r & Hr & <-); [lia|done|lia|].
    by destruct (wf_page _ _ _ Hwf _ _ _ Hr) as (_ & _ & ->).
  - destruct (wlk_up 1 p va) as (r & Hr & <-); [lia|done|lia|].
    by destruct (wf_page _ _ _ Hwf _ _ _ Hr) as (_ & _ & ->).
  - by rewrite Htop.
Qed.

Lemma wlk_root va :
  0 <= va < MAXVA ->
  wlk 2 m root va = 0 \/
  exists q, L !! q = Some (0, prefix 0 va) /\ wlk 2 m root va = slot q (PX 0 va).
Proof.
  intros Hva. apply wlk_label; [lia|]. simpl Z.of_nat. rewrite prefix_top by done.
  apply (wf_root _ _ _ Hwf).
Qed.

(** The leaf entry is found in the level-0 page labelled with the prefix. *)
Lemma pte_at_label p va :
  0 <= va < MAXVA -> L !! p = Some (0, prefix 0 va) ->
  wlk 2 m root va = slot p (PX 0 va) /\
  pte_at m root va = load64 m (slot p (PX 0 va)).
Proof.
  intros Hva Hp. pose proof (wlk_reach 0 p va Hva Hp) as E.
  change (wlk 0 m p va) with (slot p (PX 0 va)) in E.
  split; [done|]. unfold pte_at. rewrite E. cbn zeta.
  destruct (Z.eqb_spec (slot p (PX 0 va)) 0) as [Hz|]; [|done].
  exfalso. revert Hz. apply slot_nonzero; [|apply PX_range; lia].
  by destruct (wf_page _ _ _ Hwf _ _ _ Hp).
Qed.

Lemma pte_at_nolabel va :
  0 <= va < MAXVA -> (forall p, L !! p <> Some (0, prefix 0 va)) ->
  wlk 2 m root va = 0 /\ pte_at m root va = 0.
Proof.
  intros Hva Hno. destruct (wlk_root va Hva) as [E|(q & Hq & _)].
  - split; [done|]. unfold pte_at. by rewrite E.
  - by destruct (Hno q).
Qed.

Lemma leaf_dec va :
  0 <= va < MAXVA ->
  (exists p, L !! p = Some (0, prefix 0 va) /\ page_ok p) \/
  (forall p, L !! p <> Some (0, prefix 0 va)).
Proof.
  intros Hva. destruct (wlk_root va Hva) as [E|(q & Hq & _)].
  - right. intros p Hp. destruct (pte_at_label p va Hva Hp) as [E' _].
    rewrite E in E'. symmetry in E'. revert E'.
    apply slot_nonzero; [by destruct (wf_page _ _ _ Hwf _ _ _ Hp)|apply PX_range; lia].
  - left. exists q. split; [done|]. by destruct (wf_page _ _ _ Hwf _ _ _ Hq).
Qed.

(** A page carrying a given label is unique. *)
Lemma leaf_unique p q va :
  0 <= va < MAXVA -> L !! p = Some (0, prefix 0 va) -> L !! q = Some (0, prefix 0 va) ->
  p = q.
Proof.
  intros Hva Hp Hq. destruct (pte_at_label p va Hva Hp) as [E1 _].
  destruct (pte_at_label q va Hva Hq) as [E2 _]. rewrite E1 in E2.
  unfold slot in E2. lia.
Qed.
End Walk.

(** ** Updating a well-formed table *)

Section Update.
Context `{LinkerOk} (m : mem) (root : Z) (L : labels).
Hypothesis Hwf : pt_wf m root L.

(** Writes outside the page-table pages change nothing. *)
Lemma pt_frame m' :
  (forall p i, is_Some (L !! p) -> 0 <= i < 512 ->
     load64 m' (slot p i) = load64 m (slot p i)) ->
  pt_wf m' root L /\
  (forall va, 0 <= va < MAXVA -> pte_at m' root va = pte_at m root va).
Proof.
  intros Hsame.
  assert (Hwf' : pt_wf m' root L).
  { destruct Hwf as [H1 H2 H3 H4]. split; [done|done| |].
    - intros p l x i Hp Hl Hi. rewrite Hsame by eauto. by apply H3.
    - intros p l x Hp Hl. destruct (H4 p l x Hp Hl) as (q & Hq & E).
      exists q. split; [done|]. rewrite Hsame; [done|eauto|].
      apply Z.mod_pos_bound. lia. }
  split; [done|]. intros va Hva.
  destruct (leaf_dec m root L Hwf va Hva) as [(p & Hp & _)|Hno].
  - rewrite (proj2 (pte_at_label m root L Hwf p va Hva Hp)).
    rewrite (proj2 (pte_at_label m' root L Hwf' p va Hva Hp)).
    apply Hsame; [eauto|apply PX_range; lia].
  - rewrite (proj2 (pte_at_nolabel m root L Hwf va Hva Hno)).
    by rewrite (proj2 (pte_at_nolabel m' root L Hwf' va Hva Hno)).
Qed.

(** Storing a leaf entry. *)
Lemma leaf_store_wf p x i v :
  L !! p = Some (0, x) -> 0 <= i < 512 -> 0 <= v < 2 ^ 64 ->
  pt_wf (store64 m (slot p i) v) root L.
Proof.
  intros Hp Hi Hv. pose proof (wf_page _ _ _ Hwf _ _ _ Hp) as [Hpok _].
  destruct Hwf as [H1 H2 H3 H4]. split; [done|done| |].
  - intros q l y j Hq Hl Hj. destruct (H2 _ _ _ Hq) as [Hqok _].
    rewrite load_store_slot by done. case_decide as E.
    { destruct E as [-> _]. rewrite Hp in Hq. injection Hq as <- <-. lia. }
    by apply H3.
  - intros q l y Hq Hl. destruct (H4 q l y Hq Hl) as (r & Hr & E).
    exists r. split; [done|]. destruct (H2 _ _ _ Hr) as [Hrok _].
    rewrite load_store_slot by (try done; apply Z.mod_pos_bound; lia).
    case_decide as E'; [|done].
    destruct E' as [-> _]. rewrite Hp in Hr. injection Hr as ? _.
    destruct (H2 _ _ _ Hq). lia.
Qed.

Lemma pte_at_store p va v va' :
  0 <= va < MAXVA -> 0 <= va' < MAXVA -> 0 <= v < 2 ^ 64 ->
  L !! p = Some (0, prefix 0 va) ->
  pte_at (store64 m (slot p (PX 0 va)) v) root va' =
  if decide (va' / PGSIZE = va / PGSIZE) then v else pte_at m root va'.
Proof.
  intros Hva Hva' Hv Hp. change PGSIZE with 4096.
  pose proof (wf_page _ _ _ Hwf _ _ _ Hp) as [Hpok _].
  pose proof (PX_range 0 va). pose proof (PX_range 0 va').
  assert (Hwf' := leaf_store_wf p _ (PX 0 va) v Hp ltac:(lia) Hv).
  rewrite (prefix_leaf va), (prefix_leaf va') by lia.
  destruct (leaf_dec m root L Hwf va' Hva') as [(q & Hq & Hqok)|Hno].
  - rewrite (proj2 (pte_at_label m root L Hwf q va' Hva' Hq)).
    rewrite (proj2 (pte_at_label _ root L Hwf' q va' Hva' Hq)).
    rewrite load_store_slot by (done || lia).
    destruct (decide (p = q)) as [->|Hne].
    + rewrite Hp in Hq. injection Hq as E. rewrite E.
      repeat case_decide; try done; lia.
    + case_decide as E1; [by destruct E1|]. case_decide as E2; [|done].
      exfalso. apply Hne. apply (leaf_unique m root L Hwf _ _ va Hva Hp).
      assert (prefix 0 va' = prefix 0 va) as <- by lia. done.
  - rewrite (proj2 (pte_at_nolabel m root L Hwf va' Hva' Hno)).
    rewrite (proj2 (pte_at_nolabel _ root L Hwf' va' Hva' Hno)).
    case_decide as E; [|done]. exfalso. apply (Hno p). rewrite Hp.
    do 2 f_equal. lia.
Qed.

End Update.

(** Linking a fresh zeroed page [q] below entry [i] of [p]: [m1] is memory
    with [q] zeroed, and the new table is labelled by [L']. *)
Section Link.
Context `{LinkerOk} (m m1 : mem) (root : Z) (L : labels) (p l x i q : Z).
Hypothesis Hwf : pt_wf m root L.
Hypothesis Hp : L !! p = Some (l, x).
Hypothesis Hl : 0 < l.
Hypothesis Hi : 0 <= i < 512.
Hypothesis Hinv : is_set (load64 m (slot p i)) PTE_V = false.
Hypothesis Hq : L !! q = None.
Hypothesis Hqok : page_ok q.
Hypothesis Hzero : forall j, 0 <= j < 512 -> load64 m1 (slot q j) = 0.
Hypothesis Hsame : forall r j, is_Some (L !! r) -> 0 <= j < 512 ->
  load64 m1 (slot r j) = load64 m (slot r j).
Let m' := store64 m1 (slot p i) (ptr q).
Let L' := <[q := (l - 1, x * 512 + i)]> L.

Lemma link_labels : (forall r, r <> q -> L' !! r = L !! r) /\ L' !! q = Some (l - 1, x * 512 + i).
Proof.
  unfold L'. split; [|apply lookup_insert_eq].
  intros r Hr. by rewrite lookup_insert_ne by done.
Qed.

Lemma link_load r j : is_Some (L !! r) -> 0 <= j < 512 -> ~ (p = r /\ i = j) ->
  load64 m' (slot r j) = load64 m (slot r j).
Proof.
  intros [[l' x'] Hr] Hj Hne. destruct (wf_page _ _ _ Hwf _ _ _ Hp).
  destruct (wf_page _ _ _ Hwf _ _ _ Hr). unfold m'.
  rewrite load_store_slot by (try done; rewrite ptr_mkpte; apply mkpte_range; lia).
  case_decide; [done|]. apply Hsame; eauto.
Qed.

Lemma link_load_new : load64 m' (slot p i) = ptr q.
Proof.
  destruct (wf_page _ _ _ Hwf _ _ _ Hp). unfold m'.
  rewrite load_store_slot by (try done; rewrite ptr_mkpte; apply mkpte_range; lia).
  by case_decide as E; [|destruct E].
Qed.

Lemma link_load_zero j : 0 <= j < 512 -> load64 m' (slot q j) = 0.
Proof.
  intros Hj. destruct (wf_page _ _ _ Hwf _ _ _ Hp). unfold m'.
  rewrite load_store_slot by (try done; rewrite ptr_mkpte; apply mkpte_range; lia).
  case_decide as E; [|by apply Hzero]. destruct E as [E _]. congruence.
Qed.

Lemma link_wf : pt_wf m' root L'.
Proof.
  destruct link_labels as [HL HLq]. destruct (wf_page _ _ _ Hwf _ _ _ Hp) as (_ & Hlb & _).
  split.
  - pose proof (wf_root _ _ _ Hwf). rewrite HL; congruence.
  - intros r l' x' Hr. destruct (decide (r = q)) as [->|Hne].
    + rewrite HLq in Hr. injection Hr as <- <-. split_and!; [done|lia|lia|lia].
    + rewrite HL in Hr by done. by apply (wf_page _ _ _ Hwf) in Hr.
  - intros r l' x' j Hr Hl' Hj Hv. destruct (decide (r = q)) as [->|Hne].
    { by rewrite link_load_zero in Hv by done. }
    rewrite HL in Hr by done. destruct (decide (p = r /\ i = j)) as [[<- <-]|Hn].
    + rewrite link_load_new. rewrite Hp in Hr. injection Hr as <- <-. eauto.
    + rewrite link_load in * by eauto.
      destruct (wf_child _ _ _ Hwf _ _ _ _ Hr Hl' Hj Hv) as (c & Hc & HLc).
      exists c. rewrite HL by congruence. done.
  - intros r l' x' Hr Hl'. destruct (decide (r = q)) as [->|Hne].
    + rewrite HLq in Hr. injection Hr as <- <-. exists p. rewrite HL by congruence.
      rewrite Z.div_add_l, (Z.div_small i), Z.add_0_r by lia.
      rewrite (Z.add_comm (x * 512)), Z.mod_add, Z.mod_small by lia.
      rewrite link_load_new. by replace (l - 1 + 1) with l by lia.
    + rewrite HL in Hr by done.
      destruct (wf_parent _ _ _ Hwf _ _ _ Hr Hl') as (c & Hc & E).
      exists c. rewrite HL by congruence. split; [done|].
      rewrite link_load; [done|eauto|apply Z.mod_pos_bound; lia|].
      intros [<- ->]. by rewrite E, ptr_valid in Hinv.
Qed.

Lemma link_pte va : 0 <= va < MAXVA -> pte_at m' root va = pte_at m root va.
Proof.
  intros Hva. pose proof (PX_range 0 va). destruct link_labels as [HL HLq].
  destruct (leaf_dec m root L Hwf va Hva) as [(r & Hr & _)|Hno].
  - rewrite (proj2 (pte_at_label m root L Hwf r va Hva Hr)).
    rewrite (proj2 (pte_at_label m' root L' link_wf r va Hva ltac:(rewrite HL; congruence))).
    apply link_load; [eauto|lia|]. intros [-> _]. rewrite Hp in Hr. injection Hr. lia.
  - rewrite (proj2 (pte_at_nolabel m root L Hwf va Hva Hno)).
    destruct (leaf_dec m' root L' link_wf va Hva) as [(r & Hr & _)|Hno'].
    + rewrite (proj2 (pte_at_label m' root L' link_wf r va Hva Hr)).
      destruct (decide (r = q)) as [->|Hne]; [apply link_load_zero; lia|].
      rewrite HL in Hr by done. by destruct (Hno r).
    + by apply (pte_at_nolabel m' root L' link_wf).
Qed.
End Link.
