(* ===== verification/VmSpec.v ===== *)
(** * Specifications of the page-table routines

    Each routine of [Vm] is related to the abstract address space of
    [PageTable]: [mappages] adds mappings, [uvmunmap] removes them,
    [walkaddr] looks one up, [uvmalloc] and [uvmdealloc] move the size,
    [copyout] and [copyin] transfer bytes. *)

From S2P Require Import Prelude Riscv Mem CString Kalloc Vm PageTable.

Section Defs.
Context `{Linker}.

(** Going from [s] to [s'] only took pages from the free list to make
  page-table pages of them, and only wrote page-table pages. *)
Record grow (s : kst) (L : labels) (fr : list Z) (s' : kst) (L' : labels) (fr' : list Z) : Prop :=
Grow {
  grow_sub : forall p v, L !! p = Some v -> L' !! p = Some v;
  grow_taken : exists taken, fr = taken ++ fr' /\
    forall p, is_Some (L' !! p) <-> is_Some (L !! p) \/ p ∈ taken;
  grow_frame : forall a, (forall p, is_Some (L' !! p) -> ~ in_page p a) ->
    rd (phys s') a = rd (phys s) a;
}.

(** The new page-table pages are for addresses in [P]. *)
Definition labels_for (P : Z -> Prop) (L L' : labels) : Prop :=
forall p l x, L' !! p = Some (l, x) -> L !! p = Some (l, x) \/ exists a, P a /\ x = prefix l a.

(** Entries of an address space are what a page-table entry can hold. *)
Definition as_wf (A : aspace) : Prop :=
forall vpn pa f, A !! vpn = Some (pa, f) ->
  0 <= vpn < MAXVA / PGSIZE /\ 0 <= pa < 2 ^ 64 /\ pa mod PGSIZE = 0 /\ 0 <= f < 1024.

(** The state holds a page table at [root] (labelled by [L]) for [A], and
  the free list [fr]. *)
Record space_ok (s : kst) (root : Z) (L : labels) (fr : list Z) (A : aspace) : Prop := SpaceOk {
  sp_vm : vm_ok s root L fr;
  sp_rep : as_rep (phys s) root A;
  sp_wf : as_wf A;
}.

(** [n] consecutive pages from [vpn] mapped to consecutive pages from [pa]. *)
Fixpoint map_range (n : nat) (vpn pa perm : Z) (A : aspace) : aspace :=
match n with
| O => A
| S n => map_range n (vpn + 1) (pa + PGSIZE) perm (<[vpn := (pa, perm)]> A)
end.

(** The inverse: [n] pages from [vpn] unmapped, and the physical pages they had. *)
Fixpoint unmap_range (n : nat) (vpn : Z) (A : aspace) : aspace :=
match n with
| O => A
| S n => unmap_range n (vpn + 1) (delete vpn A)
end.
Fixpoint range_pas (n : nat) (vpn : Z) (A : aspace) : list Z :=
match n with
| O => []
| S n => match A !! vpn with
         | Some (pa, _) => pa :: range_pas n (vpn + 1) A
         | None => range_pas n (vpn + 1) A
         end
end.

(** The physical page a user access to [va] reaches, 0 if none. *)
Definition user_page (A : aspace) (va : Z) : Z :=
match A !! (va / PGSIZE) with
| Some (pa, f) => if is_set f PTE_U then pa else 0
| None => 0
end.

End Defs.

Section Spec.
Context `{LinkerOk}.

Lemma grow_refl s L fr : grow s L fr s L fr.
Proof.
  split; [done| |done]. exists []. split; [done|]. intros p.
  split; [by left|]. by intros [?|?%not_elem_of_nil].
Qed.

Lemma grow_trans s1 L1 f1 s2 L2 f2 s3 L3 f3 :
  grow s1 L1 f1 s2 L2 f2 -> grow s2 L2 f2 s3 L3 f3 -> grow s1 L1 f1 s3 L3 f3.
Proof.
  intros [A1 (t1 & -> & B1) C1] [A2 (t2 & -> & B2) C2]. split.
  - eauto.
  - exists (t1 ++ t2). rewrite app_assoc. split; [done|].
    intros p. rewrite B2, B1, elem_of_app. tauto.
  - intros a Ha. rewrite C2 by done. apply C1. intros p [v Hv]. apply Ha. eauto.
Qed.

(** A write inside a page-table page. *)
Lemma grow_store s L fr p i v :
  is_Some (L !! p) -> 0 <= i < 512 ->
  grow s L fr (set_phys (fun m => store64 m (slot p i) v) s) L fr.
Proof.
  intros Hp Hi. split; [done|apply (grow_refl s L fr)|].
  - intros a Ha. simpl. apply rd_store64_ne. specialize (Ha p Hp). unfold slot. alia.
Qed.

(** The memory of a freshly linked page-table page, before the link. *)
Lemma fresh_page_loads m m0 q :
  page_ok q -> same_outside q m m0 ->
  let m1 := memset m0 q 0 PGSIZE in
  (forall j, 0 <= j < 512 -> load64 m1 (slot q j) = 0) /\
  (forall r j, page_ok r -> r <> q -> 0 <= j < 512 ->
     load64 m1 (slot r j) = load64 m (slot r j)) /\
  same_outside q m m1.
Proof.
  intros Hq Hs m1. unfold m1. split_and!.
  - intros j Hj. unfold slot. apply load64_memset_0; alia.
  - intros r j Hr Hne Hj. rewrite load_memset_slot by done.
    apply load64_ext. intros b Hb. apply Hs. unfold slot in Hb.
    destruct (page_ok_disjoint q r); try done; alia.
  - eapply same_outside_trans; [done|apply same_outside_memset].
Qed.

(** One allocation of [walk]: take the page [q], zero it, link it. *)
Lemma link_step s s1 root L fr q p l x i :
  vm_ok s root L (q :: fr) -> page_ok q ->
  free_rep s1 fr -> same_outside q (phys s) (phys s1) ->
  L !! p = Some (l, x) -> 0 < l -> 0 <= i < 512 ->
  is_set (load64 (phys s) (slot p i)) PTE_V = false ->
  let s' := set_phys (fun m => store64 m (slot p i) (Z.lor (PA2PTE q) PTE_V))
              (set_phys (fun m => memset m q 0 PGSIZE) s1) in
  let L' := <[q := (l - 1, x * 512 + i)]> L in
  vm_ok s' root L' fr /\ grow s L (q :: fr) s' L' fr /\
  (forall va, 0 <= va < MAXVA -> pte_at (phys s') root va = pte_at (phys s) root va).
Proof.
  intros Hok Hqok Hfr Hphys Hp Hl Hi Hinv s' L'.
  destruct Hok as [Hwf Hfree Hsep]. pose proof (wf_page _ _ _ Hwf _ _ _ Hp) as [Hpok _].
  assert (HLq : L !! q = None) by (apply Hsep; left).
  destruct (fresh_page_loads (phys s) (phys s1) q Hqok Hphys) as (Hz & Hld & Hout).
  assert (Hld' : forall r j, is_Some (L !! r) -> 0 <= j < 512 ->
    load64 (memset (phys s1) q 0 PGSIZE) (slot r j) = load64 (phys s) (slot r j)).
  { intros r j [[? ?] Hr] Hj. apply Hld; [|congruence|done].
    by destruct (wf_page _ _ _ Hwf _ _ _ Hr). }
  destruct (fl_ok _ _ _ Hfree) as [Hall Hnd]. inversion Hnd as [|? ? Hnin _]; subst.
  split_and!.
  - split.
    + apply (link_wf (phys s)) with (p := p) (l := l) (x := x) (i := i); done.
    + unfold free_rep. simpl. apply (fl_same_outside (memset (phys s1) q 0 PGSIZE) _ _ _ p);
        [done| |apply same_outside_store64; unfold slot; alia|].
      { intros Hin. rewrite Hsep in Hp by (by right). done. }
      apply (fl_same_outside (phys s1) _ _ _ q); [done|done|apply same_outside_memset|done].
    + intros r Hr. unfold L'. rewrite lookup_insert_ne by (intros <-; by apply Hnin).
      apply Hsep. by right.
  - split.
    + intros r v Hr. unfold L'. rewrite lookup_insert_ne by congruence. done.
    + exists [q]. split; [done|]. intros r. unfold L'. rewrite lookup_insert.
      rewrite list_elem_of_singleton. case_decide as E.
      * subst. split; [by right|eauto].
      * split; [by left|]. by intros [?| ->].
    + intros a Ha. simpl. rewrite rd_store64_ne.
      * apply Hout. apply Ha. unfold L'. rewrite lookup_insert_eq. eauto.
      * intros Hin. apply (Ha p); [|unfold slot in *; alia].
        unfold L'. rewrite lookup_insert_ne by congruence. eauto.
  - intros va Hva. apply (link_pte (phys s)) with (L := L) (l := l) (x := x); done.
Qed.

(** What [walk] with allocation guarantees. *)
Definition walk_post (s : kst) (root : Z) (L : labels) (fr : list Z) (va a : Z) (s' : kst) : Prop :=
  exists L' fr', vm_ok s' root L' fr' /\ grow s L fr s' L' fr' /\ labels_for (eq va) L L' /\
    (forall va', 0 <= va' < MAXVA -> pte_at (phys s') root va' = pte_at (phys s) root va') /\
    ((a = 0 /\ fr' = []) \/
     exists p, L' !! p = Some (0, prefix 0 va) /\ page_ok p /\ a = slot p (PX 0 va)).

Lemma walk_loop_alloc_wp (l : nat) s root L fr pt va :
  vm_ok s root L fr -> 0 <= va < MAXVA ->
  L !! pt = Some (Z.of_nat l, prefix (Z.of_nat l) va) ->
  wp (walk_loop l pt va true) s (walk_post s root L fr va).
Proof.
  revert s L fr pt. induction l as [|l IH]; intros s L fr pt Hok Hva Hpt; cbn [walk_loop].
  { apply wp_ret. exists L, fr. split_and!; [done|apply grow_refl|by left|done|right].
    exists pt. split_and!; [done| |done].
    by destruct (wf_page _ _ _ (vm_wf _ _ _ _ Hok) _ _ _ Hpt). }
  cbn zeta. set (i := PX (Z.of_nat (S l)) va).
  assert (Hi : 0 <= i < 512) by (apply PX_range; lia).
  assert (Hpre : prefix (Z.of_nat (S l)) va * 512 + i = prefix (Z.of_nat l) va).
  { rewrite (prefix_step (Z.of_nat l)) by lia. unfold i.
    by replace (Z.of_nat l + 1) with (Z.of_nat (S l)) by lia. }
  wp_step. unfold loadq. wp_step.
  destruct (is_set (load64 (phys s) (slot pt i)) PTE_V) eqn:Hv.
  - destruct (wf_child _ _ _ (vm_wf _ _ _ _ Hok) _ _ _ i Hpt) as (c & Hc & HLc);
      [lia|done|done|].
    rewrite Hpre in HLc. replace (Z.of_nat (S l) - 1) with (Z.of_nat l) in HLc by lia.
    rewrite Hc, ptr_PA by (by destruct (wf_page _ _ _ (vm_wf _ _ _ _ Hok) _ _ _ HLc)).
    by apply IH.
  - cbn [negb]. wp_step. apply (kalloc_wp s fr); [apply Hok| |].
    + intros ->. simpl. apply wp_ret. exists L, [].
      split_and!; [done|apply grow_refl|by left|done|by left].
    + intros q fr' s1 -> Hqok Hfr Hphys _.
      destruct (Z.eqb_spec q 0) as [->|_].
      { exfalso. by apply page_ok_nonzero in Hqok. }
      destruct (link_step s s1 root L fr' q pt _ _ i Hok Hqok Hfr Hphys Hpt)
        as (Hok' & Hgrow & Hsame); [lia|done|done|].
      unfold storeq. do 4 wp_step. eapply wp_mono.
      { apply IH; [done|done|]. rewrite lookup_insert_eq. do 2 f_equal; lia. }
      intros a s2 (L2 & fr2 & Hok2 & Hg2 & Hl2 & Hs2 & Hr2). exists L2, fr2.
      split_and!; [done|by eapply grow_trans| | |done].
      * intros p k x Hp. destruct (Hl2 p k x Hp) as [Hp1|?]; [|by right]. rewrite lookup_insert in Hp1.
        case_decide; [|by left]. injection Hp1 as <- <-. right. exists va. split; [done|]. rewrite Hpre. f_equal. lia.
      * intros va' Hva'. rewrite Hs2 by done. by apply Hsame.
Qed.

Lemma walk_alloc_wp s root L fr va :
  vm_ok s root L fr -> 0 <= va < MAXVA ->
  wp (walk root va true) s (walk_post s root L fr va).
Proof.
  intros Hok Hva. unfold walk. destruct (Z.leb_spec MAXVA va); [lia|].
  apply walk_loop_alloc_wp; [done|done|]. simpl Z.of_nat.
  rewrite prefix_top by done. apply (wf_root _ _ _ (vm_wf _ _ _ _ Hok)).
Qed.

Lemma walk_lookup s root va :
  0 <= va < MAXVA -> walk root va false s = Ok (wlk 2 (phys s) root va) s.
Proof.
  intros. unfold walk. destruct (Z.leb_spec MAXVA va); [lia|]. apply walk_loop_false.
Qed.

(** *** Reading the table *)

Lemma space_pte s root L fr A va :
  space_ok s root L fr A -> 0 <= va < MAXVA ->
  (wlk 2 (phys s) root va = 0 /\ A !! (va / PGSIZE) = None) \/
  (wlk 2 (phys s) root va <> 0 /\
   load64 (phys s) (wlk 2 (phys s) root va) =
     match A !! (va / PGSIZE) with Some (pa, f) => mkpte pa f | None => 0 end).
Proof.
  intros [_ Hrep _] Hva. specialize (Hrep va Hva). unfold pte_at in Hrep.
  cbn zeta in Hrep. destruct (Z.eqb_spec (wlk 2 (phys s) root va) 0) as [E|E].
  - left. split; [done|]. destruct (A !! _) as [[pa f]|]; [|done].
    pose proof (mkpte_valid pa f) as Hv. by rewrite <- Hrep in Hv.
  - right. done.
Qed.

Lemma is_set_mkpte_U pa f : is_set (mkpte pa f) PTE_U = is_set f PTE_U.
Proof.
  unfold is_set. rewrite mkpte_lor, !Z.land_lor_distr_l.
  assert (Z.land PTE_V PTE_U = 0) as -> by done.
  rewrite Z.lor_0_r. assert (Z.land (PA2PTE pa) PTE_U = 0) as ->; [|done].
  unfold PA2PTE, u64. rewrite <- Z.land_ones, <- Z.land_assoc by lia.
  change (Z.land (Z.ones 64) PTE_U) with PTE_U.
  apply Z.bits_inj'. intros i Hi. rewrite Z.land_spec, Z.bits_0.
  unfold PTE_U. rewrite (Z.shiftl_spec 1) by done.
  destruct (decide (i < 10)).
  - by rewrite Z.shiftl_spec_low.
  - rewrite (Z.bits_above_log2 1) by (simpl; lia). apply andb_false_r.
Qed.

(** [walkaddr] is a lookup in the address space. *)
Lemma walkaddr_space s root L fr A va :
  space_ok s root L fr A -> 0 <= va -> walkaddr root va s = Ok (user_page A va) s.
Proof.
  intros Hs Hva. unfold walkaddr, user_page. destruct (Z.leb_spec MAXVA va) as [Hge|Hlt].
  - destruct (A !! (va / PGSIZE)) as [[pa f]|] eqn:E; [|done].
    exfalso. apply (sp_wf _ _ _ _ _ Hs) in E. alia.
  - unfold bind at 1. rewrite walk_lookup by lia.
    destruct (space_pte s root L fr A va Hs) as [[-> ->]|[Hne Hld]]; [lia|done|].
    destruct (Z.eqb_spec (wlk 2 (phys s) root va) 0) as [|_]; [done|].
    unfold bind, loadq, gets. rewrite Hld.
    destruct (A !! (va / PGSIZE)) as [[pa f]|] eqn:E; [|done].
    rewrite mkpte_valid, is_set_mkpte_U. cbn [negb].
    apply (sp_wf _ _ _ _ _ Hs) in E as (_ & ? & ? & ?).
    rewrite mkpte_PA by (done || alia). by destruct (is_set f PTE_U).
Qed.

(** *** Changing one leaf entry *)

(** A store to the leaf entry for [va] found at [slot p (PX 0 va)]. *)
Lemma space_store s root L fr A p va v A' :
  space_ok s root L fr A -> 0 <= va < MAXVA -> 0 <= v < 2 ^ 64 ->
  L !! p = Some (0, prefix 0 va) -> as_wf A' ->
  (match A' !! (va / PGSIZE) with Some (pa, f) => mkpte pa f | None => 0 end) = v ->
  (forall vpn, vpn <> va / PGSIZE -> A' !! vpn = A !! vpn) ->
  let s' := set_phys (fun m => store64 m (slot p (PX 0 va)) v) s in
  space_ok s' root L fr A' /\ grow s L fr s' L fr.
Proof.
  intros [[Hwf Hfree Hsep] Hrep HA] Hva Hv Hp HA' Hnew Hold s'.
  pose proof (PX_range 0 va). destruct (wf_page _ _ _ Hwf _ _ _ Hp) as [Hpok _].
  split; [|apply grow_store; [eauto|lia]]. split; [split| |done].
  - by apply (leaf_store_wf (phys s) root L Hwf p (prefix 0 va)); [|lia|].
  - unfold free_rep. simpl. apply (fl_same_outside (phys s) _ _ _ p);
      [done| |apply same_outside_store64; unfold slot; alia|done].
    intros Hin. rewrite Hsep in Hp; done.
  - done.
  - intros va' Hva'. simpl.
    rewrite (pte_at_store (phys s) root L Hwf p va v va') by done.
    case_decide as E; [by rewrite E|]. rewrite Hold by done. by apply Hrep.
Qed.

Lemma walk_space s root L fr A va :
  space_ok s root L fr A -> 0 <= va < MAXVA ->
  wp (walk root va true) s (fun a s' => exists L' fr',
    space_ok s' root L' fr' A /\ grow s L fr s' L' fr' /\ labels_for (eq va) L L' /\
    ((a = 0 /\ fr' = []) \/
     exists p, L' !! p = Some (0, prefix 0 va) /\ page_ok p /\ a = slot p (PX 0 va))).
Proof.
  intros [Hvm Hrep HA] Hva. eapply wp_mono; [by apply walk_alloc_wp|].
  intros a s' (L' & fr' & Hvm' & Hg & Hlf & Hsame & Hr). exists L', fr'.
  split_and!; [|done|done|done]. split; [done| |done].
  intros va' Hva'. rewrite Hsame by done. by apply Hrep.
Qed.

(** *** mappages *)

Lemma labels_mono (P P' : Z -> Prop) L L' : (forall a, P a -> P' a) -> labels_for P L L' -> labels_for P' L L'.
Proof. intros HP HL p l x Hp. destruct (HL p l x Hp) as [?|(a & ? & ?)]; [by left|]. right. exists a. auto. Qed.

Lemma labels_trans P L1 L2 L3 : labels_for P L1 L2 -> labels_for P L2 L3 -> labels_for P L1 L3.
Proof. intros H1 H2 p l x Hp. destruct (H2 p l x Hp) as [Hp2|?]; [|by right]. by apply H1. Qed.

Lemma as_wf_insert A vpn pa f :
  as_wf A -> 0 <= vpn < MAXVA / PGSIZE -> 0 <= pa < 2 ^ 64 -> pa mod PGSIZE = 0 ->
  0 <= f < 1024 -> as_wf (<[vpn := (pa, f)]> A).
Proof.
  intros HA ? ? ? ? vpn' pa' f'. rewrite lookup_insert. case_decide; [|apply HA].
  intros [= <- <-]. by subst.
Qed.

Lemma map_range_lookup_ne n vpn pa perm A v :
  v < vpn \/ vpn + Z.of_nat n <= v -> map_range n vpn pa perm A !! v = A !! v.
Proof.
  revert vpn pa A. induction n as [|n IH]; intros vpn pa A Hv; cbn [map_range]; [done|].
  rewrite IH by lia. by rewrite lookup_insert_ne by lia.
Qed.

Lemma map_range_lookup n vpn pa perm A (k : nat) :
  (k < n)%nat ->
  map_range n vpn pa perm A !! (vpn + Z.of_nat k) = Some (pa + Z.of_nat k * PGSIZE, perm).
Proof.
  revert vpn pa A k. induction n as [|n IH]; intros vpn pa A k Hk; [lia|].
  cbn [map_range]. destruct k as [|k].
  - rewrite map_range_lookup_ne by lia. rewrite !Z.add_0_r, lookup_insert_eq. done.
  - replace (vpn + Z.of_nat (S k)) with (vpn + 1 + Z.of_nat k) by lia.
    rewrite IH by lia. do 2 f_equal. lia.
Qed.

Lemma mappages_loop_wp (n fuel : nat) s root L fr A a pa perm :
  space_ok s root L fr A -> (n <= fuel)%nat -> (0 < n)%nat ->
  0 <= a -> a mod PGSIZE = 0 -> a + Z.of_nat n * PGSIZE <= MAXVA ->
  0 <= pa -> pa mod PGSIZE = 0 -> pa + Z.of_nat n * PGSIZE < 2 ^ 64 -> 0 <= perm < 1024 ->
  (forall k : nat, (k < n)%nat -> A !! (a / PGSIZE + Z.of_nat k) = None) ->
  wp (mappages_loop fuel root a (a + (Z.of_nat n - 1) * PGSIZE) pa perm) s
    (fun r s' => exists L' fr' (k : nat),
       space_ok s' root L' fr' (map_range k (a / PGSIZE) pa perm A) /\
       grow s L fr s' L' fr' /\ labels_for (fun b => a <= b < a + Z.of_nat n * PGSIZE) L L' /\
       ((r = 0 /\ k = n) \/ (r = -1 /\ (k < n)%nat /\ fr' = []))).
Proof.
  revert fuel s L fr A a pa. induction n as [|n IH]; [lia|].
  intros [|fuel] s L fr A a pa Hs Hf _ Ha Haa Hamax Hpa Hpaa Hpamax Hperm Hnone; [lia|].
  assert (Hva : 0 <= a < MAXVA) by alia.
  assert (Hvpn : 0 <= a / PGSIZE < MAXVA / PGSIZE) by alia.
  cbn [mappages_loop]. wp_step. eapply wp_mono; [by apply walk_space|].
  intros pte s1 (L1 & fr1 & Hs1 & Hg1 & Hlf1 & [[-> ->]|(p & Hp & Hpok & ->)]).
  { simpl. apply wp_ret. exists L1, [], 0%nat. cbn [map_range].
    split_and!; [done|done|apply (labels_mono (eq a)); [alia|done]|]. right. split_and!; [done|lia|done]. }
  pose proof (PX_range 0 a). rewrite (proj2 (Z.eqb_neq _ _)) by (apply slot_nonzero; [done|lia]).
  specialize (Hnone 0%nat ltac:(lia)) as Hnone0. rewrite Z.add_0_r in Hnone0.
  unfold loadq. do 2 wp_step.
  destruct (pte_at_label _ _ _ (vm_wf _ _ _ _ (sp_vm _ _ _ _ _ Hs1)) p a Hva Hp) as [_ E].
  rewrite <- E, (sp_rep _ _ _ _ _ Hs1), Hnone0 by done.
  change (is_set 0 PTE_V) with false. cbn iota.
  unfold storeq. do 2 wp_step. fold (mkpte pa perm).
  destruct (space_store s1 root L1 fr1 A p a (mkpte pa perm) (<[a / PGSIZE := (pa, perm)]> A))
    as [Hs2 Hg2]; try done.
  { by apply mkpte_range. } { apply as_wf_insert; try done; [apply Hs1|alia]. }
  { by rewrite lookup_insert_eq. } { intros. by rewrite lookup_insert_ne by done. }
  destruct n as [|n].
  - replace (a + (Z.of_nat 1 - 1) * PGSIZE) with a by lia. rewrite Z.eqb_refl.
    apply wp_ret. exists L1, fr1, 1%nat. cbn [map_range].
    split_and!; [done|by eapply grow_trans|apply (labels_mono (eq a)); [alia|done]|by left].
  - rewrite (proj2 (Z.eqb_neq _ _)) by alia.
    rewrite !u64_small by (alia || (rewrite MAXVA_eq in *; alia)).
    replace (a + (Z.of_nat (S (S n)) - 1) * PGSIZE)
      with (a + PGSIZE + (Z.of_nat (S n) - 1) * PGSIZE) by lia.
    assert (Hdiv : (a + PGSIZE) / PGSIZE = a / PGSIZE + 1) by alia.
    eapply wp_mono.
    { apply (IH fuel _ L1 fr1 (<[a / PGSIZE := (pa, perm)]> A)); try done; try lia; try alia.
      intros k Hk. rewrite Hdiv, lookup_insert_ne by lia.
      specialize (Hnone (S k) ltac:(lia)). rewrite <- Hnone. f_equal. lia. }
    intros r s3 (L3 & fr3 & k & Hs3 & Hg3 & Hlf3 & Hr). exists L3, fr3, (S k).
    rewrite Hdiv in Hs3. cbn [map_range]. split_and!; [done| | |].
    { eapply grow_trans; [done|]. by eapply grow_trans. }
    { eapply (labels_trans _ L L1); [apply (labels_mono (eq a)); [alia|done]|]. eapply labels_mono; [|exact Hlf3]. alia. }
    destruct Hr as [[-> ->]|(-> & ? & ->)]; [by left|right; split_and!; [done|lia|done]].
Qed.

Lemma mappages_wp s root L fr A va (n : nat) pa perm :
  space_ok s root L fr A -> (0 < n)%nat ->
  0 <= va -> va mod PGSIZE = 0 -> va + Z.of_nat n * PGSIZE <= MAXVA ->
  0 <= pa -> pa mod PGSIZE = 0 -> pa + Z.of_nat n * PGSIZE < 2 ^ 64 -> 0 <= perm < 1024 ->
  (forall k : nat, (k < n)%nat -> A !! (va / PGSIZE + Z.of_nat k) = None) ->
  wp (mappages root va (Z.of_nat n * PGSIZE) pa perm) s
    (fun r s' => exists L' fr' (k : nat),
       space_ok s' root L' fr' (map_range k (va / PGSIZE) pa perm A) /\
       grow s L fr s' L' fr' /\ labels_for (fun b => va <= b < va + Z.of_nat n * PGSIZE) L L' /\
       ((r = 0 /\ k = n) \/ (r = -1 /\ (k < n)%nat /\ fr' = []))).
Proof.
  intros Hs Hn H1 H2 H3 H4 H5 H6 H7 H8. unfold mappages.
  destruct (Z.eqb_spec (Z.of_nat n * PGSIZE) 0); [alia|]. cbn zeta.
  rewrite !PGROUNDDOWN_eq, (u64_small (va + _ - 1)) by alia.
  replace ((va + Z.of_nat n * PGSIZE - 1) / 4096 * 4096)
    with (va + (Z.of_nat n - 1) * PGSIZE) by alia.
  replace (va / 4096 * 4096) with va by alia.
  apply mappages_loop_wp; try done.
  rewrite u64_small by alia. alia.
Qed.

(** *** Entries of mapped pages, and writes to other pages *)

Lemma space_slot s root L fr A va pa f :
  space_ok s root L fr A -> 0 <= va < MAXVA -> A !! (va / PGSIZE) = Some (pa, f) ->
  exists p, L !! p = Some (0, prefix 0 va) /\ page_ok p /\
    wlk 2 (phys s) root va = slot p (PX 0 va) /\
    load64 (phys s) (slot p (PX 0 va)) = mkpte pa f.
Proof.
  intros Hs Hva HA. destruct (space_pte s root L fr A va Hs Hva) as [[_ E]|[Hne E]].
  { congruence. }
  rewrite HA in E. pose proof (vm_wf _ _ _ _ (sp_vm _ _ _ _ _ Hs)) as Hwf.
  destruct (wlk_root _ _ _ Hwf va Hva) as [?|(p & Hp & Hw)]; [done|].
  exists p. rewrite Hw in E. split_and!; try done.
  by destruct (wf_page _ _ _ Hwf _ _ _ Hp).
Qed.

Lemma load_slot_same_outside m m' q p i :
  page_ok p -> page_ok q -> p <> q -> 0 <= i < 512 -> same_outside q m m' ->
  load64 m' (slot p i) = load64 m (slot p i).
Proof.
  intros Hp Hq Hne Hi Hs. apply load64_ext. intros b Hb. apply Hs. unfold slot in Hb.
  destruct (page_ok_disjoint q p); try done; alia.
Qed.

Lemma space_same_outside s s' root L fr fr' A q :
  space_ok s root L fr A -> page_ok q -> L !! q = None ->
  same_outside q (phys s) (phys s') ->
  free_rep s' fr' -> (forall p, p ∈ fr' -> L !! p = None) ->
  space_ok s' root L fr' A.
Proof.
  intros [[Hwf _ _] Hrep HA] Hq HLq Hso Hfree Hsep.
  destruct (pt_frame _ _ _ Hwf (phys s')) as [Hwf' Hpte].
  { intros p i [[l x] Hp] Hi. apply (load_slot_same_outside _ _ q); try done; [|congruence].
    by destruct (wf_page _ _ _ Hwf _ _ _ Hp). }
  split; [by split| |done]. intros va Hva. rewrite Hpte by done. by apply Hrep.
Qed.

Lemma space_kfree s root L fr A q :
  space_ok s root L fr A -> page_ok q -> L !! q = None -> q ∉ fr ->
  wp (kfree q) s (fun _ s' => space_ok s' root L (q :: fr) A /\
                              same_outside q (phys s) (phys s')).
Proof.
  intros Hs Hq HLq Hn. pose proof (sp_vm _ _ _ _ _ Hs) as [_ Hfree Hsep].
  apply (kfree_wp s fr); [done|done|done|]. intros s' Hs' Hso. split; [|done].
  apply (space_same_outside s s' root L fr _ A q); try done.
  intros p [->|Hp]%elem_of_cons; [done|by apply Hsep].
Qed.

(** *** uvmunmap *)

Lemma as_wf_delete A vpn : as_wf A -> as_wf (delete vpn A).
Proof.
  intros HA vpn' pa f. rewrite lookup_delete. case_decide; [done|]. apply HA.
Qed.

Lemma unmap_range_lookup n vpn A v :
  unmap_range n vpn A !! v =
  if decide (vpn <= v < vpn + Z.of_nat n) then None else A !! v.
Proof.
  revert vpn A. induction n as [|n IH]; intros vpn A; cbn [unmap_range].
  { case_decide; [lia|done]. }
  rewrite IH, lookup_delete. repeat case_decide; try lia; done.
Qed.

Lemma range_pas_delete n vpn v A : v < vpn -> range_pas n vpn (delete v A) = range_pas n vpn A.
Proof.
  revert vpn. induction n as [|n IH]; intros vpn Hv; cbn [range_pas]; [done|].
  rewrite lookup_delete_ne by lia. by rewrite IH by lia.
Qed.

(** A page that [uvmunmap] accepts: mapped as a leaf and, when it is to be
    freed, owned by nobody else. *)
Definition unmappable (L : labels) (A : aspace) (do_free : bool) (vpn : Z) : Prop :=
  exists pa f, A !! vpn = Some (pa, f) /\ Z.lor f PTE_V <> PTE_V /\
    (do_free = true -> page_ok pa /\ L !! pa = None).

Definition unmap_post (n : nat) (s : kst) root L fr A (do_free : bool) (vpn : Z) (s' : kst) : Prop :=
  let freed := if do_free then range_pas n vpn A else [] in
  space_ok s' root L (reverse freed ++ fr) (unmap_range n vpn A) /\
  (forall a, (forall p, is_Some (L !! p) \/ p ∈ freed -> ~ in_page p a) ->
     rd (phys s') a = rd (phys s) a).

(** Freeing the page of an entry and clearing the entry. *)
Lemma unmap_entry_wp s root L fr A va pa f p (do_free : bool) :
  space_ok s root L fr A -> 0 <= va < MAXVA -> A !! (va / PGSIZE) = Some (pa, f) ->
  L !! p = Some (0, prefix 0 va) ->
  (do_free = true -> page_ok pa /\ L !! pa = None /\ pa ∉ fr) ->
  wp (bind (if do_free then kfree pa else ret tt)
           (fun _ => storeq (slot p (PX 0 va)) 0)) s
    (fun _ s' =>
       space_ok s' root L (if do_free then pa :: fr else fr) (delete (va / PGSIZE) A) /\
       (forall a, (forall q, is_Some (L !! q) \/ (do_free = true /\ q = pa) -> ~ in_page q a) ->
          rd (phys s') a = rd (phys s) a)).
Proof.
  intros Hs Hva HA Hp Hfree. wp_step.
  assert (Hstore : forall s1 fr1, space_ok s1 root L fr1 A ->
    let s' := set_phys (fun m => store64 m (slot p (PX 0 va)) 0) s1 in
    space_ok s' root L fr1 (delete (va / PGSIZE) A) /\ grow s1 L fr1 s' L fr1).
  { intros s1 fr1 Hs1. apply (space_store s1 root L fr1 A); try done.
    - apply as_wf_delete, Hs1.
    - by rewrite lookup_delete_eq.
    - intros. by rewrite lookup_delete_ne by done. }
  destruct do_free.
  - destruct (Hfree eq_refl) as (? & ? & ?).
    eapply wp_mono; [by apply (space_kfree s root L fr A pa)|].
    intros [] s1 [Hs1 Hso]. unfold storeq. wp_step.
    destruct (Hstore s1 _ Hs1) as [Hs2 Hg]. split; [done|]. intros a Ha.
    rewrite (grow_frame _ _ _ _ _ _ Hg) by auto. apply Hso. auto.
  - wp_step. unfold storeq. wp_step. destruct (Hstore s fr Hs) as [Hs2 Hg].
    split; [done|]. intros a Ha. rewrite (grow_frame _ _ _ _ _ _ Hg) by auto. done.
Qed.

Lemma uvmunmap_loop_wp (n fuel : nat) s root L fr A a (do_free : bool) :
  space_ok s root L fr A -> (n <= fuel)%nat ->
  0 <= a -> a mod PGSIZE = 0 -> a + Z.of_nat n * PGSIZE <= MAXVA ->
  (forall k : nat, (k < n)%nat -> unmappable L A do_free (a / PGSIZE + Z.of_nat k)) ->
  (do_free = true -> NoDup (range_pas n (a / PGSIZE) A ++ fr)) ->
  wp (uvmunmap_loop fuel root a (a + Z.of_nat n * PGSIZE) do_free) s
    (fun _ s' => unmap_post n s root L fr A do_free (a / PGSIZE) s').
Proof.
  revert fuel s fr A a. induction n as [|n IH]; intros fuel s fr A a Hs Hf Ha Haa Hmax Hun Hnd.
  { rewrite Z.add_0_r. destruct fuel; cbn [uvmunmap_loop]; rewrite Z.ltb_irrefl; apply wp_ret;
      unfold unmap_post; by destruct do_free. }
  destruct fuel as [|fuel]; [lia|]. cbn [uvmunmap_loop].
  rewrite (proj2 (Z.ltb_lt _ _)) by alia.
  assert (Hva : 0 <= a < MAXVA) by alia.
  destruct (Hun 0%nat ltac:(lia)) as (pa & f & HA & Hflag & Hown). rewrite Z.add_0_r in HA.
  destruct (space_slot s root L fr A a pa f Hs Hva HA) as (p & Hp & Hpok & Hw & Hld).
  destruct (sp_wf _ _ _ _ _ Hs _ _ _ HA) as (_ & Hpa & Hpaa & Hfr).
  pose proof (PX_range 0 a) as HPX. wp_step. unfold wp at 1. rewrite walk_lookup, Hw by done.
  rewrite (proj2 (Z.eqb_neq _ _)) by (apply slot_nonzero; [done|lia]).
  unfold loadq. do 2 wp_step. rewrite Hld, mkpte_valid. cbn [negb].
  rewrite mkpte_FLAGS, (proj2 (Z.eqb_neq _ _)), mkpte_PA by done.
  cbn [range_pas] in Hnd. rewrite HA in Hnd.
  apply wp_group, wp_bind. eapply wp_mono.
  { apply (unmap_entry_wp s root L fr A a pa f p do_free Hs Hva HA Hp).
    intros E. destruct (Hown E). specialize (Hnd E). cbn [app] in Hnd.
    apply NoDup_cons in Hnd as [Hn _]. split_and!; try done.
    intros ?. apply Hn, elem_of_app. auto. }
  intros [] s1 [Hs1 Hfr1]. rewrite u64_small by alia.
  replace (a + Z.of_nat (S n) * PGSIZE) with (a + PGSIZE + Z.of_nat n * PGSIZE) by lia.
  assert (Hdiv : (a + PGSIZE) / PGSIZE = a / PGSIZE + 1) by alia.
  eapply wp_mono.
  { apply (IH fuel s1 _ _ (a + PGSIZE) Hs1); [lia|alia|alia|alia| |].
    - intros k Hk'. destruct (Hun (S k) ltac:(lia)) as (pa' & f' & HA' & ? & ?).
      exists pa', f'. rewrite Hdiv, lookup_delete_ne by lia.
      split_and!; try done. rewrite <- HA'. f_equal. lia.
    - intros E. specialize (Hnd E). rewrite Hdiv, range_pas_delete by lia. rewrite E.
      by rewrite <- Permutation_middle. }
  intros [] s' [Hs' Hfr']. rewrite Hdiv in Hs', Hfr'. unfold unmap_post.
  cbn [unmap_range range_pas]. rewrite HA. rewrite range_pas_delete in Hs', Hfr' by lia.
  destruct do_free; cbn zeta in *; (split; [|intros b Hb; rewrite Hfr', Hfr1; [done|..]]).
  - rewrite reverse_cons, <- app_assoc. done.
  - intros q [?|[_ ->]]; apply Hb; [by left|right; left].
  - intros q [?|?]; apply Hb; [by left|right; by right].
  - done.
  - intros q [?|[? _]]; [apply Hb; by left|done].
  - intros q [?|?]; apply Hb; [by left|by right].
Qed.

Lemma uvmunmap_wp (n : nat) s root L fr A va (do_free : bool) :
  space_ok s root L fr A ->
  0 <= va -> va mod PGSIZE = 0 -> va + Z.of_nat n * PGSIZE <= MAXVA ->
  (forall k : nat, (k < n)%nat -> unmappable L A do_free (va / PGSIZE + Z.of_nat k)) ->
  (do_free = true -> NoDup (range_pas n (va / PGSIZE) A ++ fr)) ->
  wp (uvmunmap root va (Z.of_nat n) do_free) s
    (fun _ s' => unmap_post n s root L fr A do_free (va / PGSIZE) s').
Proof.
  intros Hs Hva Haa Hmax Hun Hnd. unfold uvmunmap. rewrite Haa. cbn [ctrue Z.eqb negb].
  rewrite (u64_small (Z.of_nat n * PGSIZE)), u64_small by alia. rewrite Nat2Z.id.
  by apply uvmunmap_loop_wp.
Qed.
End Spec.
