(* ===== verification/UvmSpec.v ===== *)
(** * Growing, shrinking and copying user memory

    Specifications of [uvmdealloc] and [uvmalloc] over the abstract address
    space, with the accounting of physical pages: every
    page is at any time a page-table page, a free page, or a page handed to
    the address space. *)

From S2P Require Import Prelude Riscv Mem CString Kalloc Vm PageTable VmSpec.

Section Defs.
Context `{Linker}.

(** Map the pages [ps], in order, from [vpn] up. *)
Fixpoint map_pages (ps : list Z) (vpn perm : Z) (A : aspace) : aspace :=
match ps with
| [] => A
| p :: ps => map_pages ps (vpn + 1) perm (<[vpn := (p, perm)]> A)
end.

(** Pages that belong neither to the page table nor to the free list. *)
Record own (L : labels) (fr ps : list Z) : Prop := Own {
  own_ok : Forall page_ok ps;
  own_labels : forall p, p ∈ ps -> L !! p = None;
  own_nodup : NoDup (ps ++ fr);
}.

(** Accounting of pages: those of the table and of the free list before are
  those of the table, of the free list and the [used] ones after; no other
  page was written. *)
Record evolves (s : kst) (L : labels) (fr : list Z)
             (s' : kst) (L' : labels) (fr' used : list Z) : Prop := Evolves {
  ev_sub : forall p v, L !! p = Some v -> L' !! p = Some v;
  ev_pages : forall p, (is_Some (L' !! p) \/ p ∈ fr' \/ p ∈ used) <-> (is_Some (L !! p) \/ p ∈ fr);
  ev_frame : forall a, (forall p, is_Some (L !! p) \/ p ∈ fr -> ~ in_page p a) ->
    rd (phys s') a = rd (phys s) a;
}.

Definition zeroed (m : mem) (p : Z) : Prop := forall a, in_page p a -> rd m a = 0.

End Defs.

Section Uvm.
Context `{LinkerOk}.

Lemma map_pages_ne ps vpn perm A v :
  v < vpn \/ vpn + Z.of_nat (length ps) <= v -> map_pages ps vpn perm A !! v = A !! v.
Proof.
  revert vpn A. induction ps as [|p ps IH]; intros vpn A Hv; [done|].
  cbn [map_pages length] in *. rewrite IH by lia. by rewrite lookup_insert_ne by lia.
Qed.

Lemma map_pages_lookup ps vpn perm A (k : nat) p :
  ps !! k = Some p -> map_pages ps vpn perm A !! (vpn + Z.of_nat k) = Some (p, perm).
Proof.
  revert vpn A k. induction ps as [|q ps IH]; intros vpn A k Hk; [done|].
  cbn [map_pages]. destruct k as [|k].
  - injection Hk as <-. rewrite map_pages_ne by lia. by rewrite Z.add_0_r, lookup_insert_eq.
  - replace (vpn + Z.of_nat (S k)) with (vpn + 1 + Z.of_nat k) by lia. by apply IH.
Qed.

Lemma map_pages_snoc ps p vpn perm A :
  map_pages (ps ++ [p]) vpn perm A =
  <[vpn + Z.of_nat (length ps) := (p, perm)]> (map_pages ps vpn perm A).
Proof.
  revert vpn A. induction ps as [|q ps IH]; intros vpn A; cbn [map_pages app length].
  - by rewrite Z.add_0_r.
  - rewrite IH. f_equal. lia.
Qed.

Lemma range_pas_ext n vpn A A' :
  (forall v, vpn <= v -> A !! v = A' !! v) -> range_pas n vpn A = range_pas n vpn A'.
Proof.
  revert vpn. induction n as [|n IH]; intros vpn HA; [done|]. cbn [range_pas].
  rewrite HA, IH; [done|intros; apply HA; lia|lia].
Qed.

Lemma range_pas_map_pages ps vpn perm A :
  range_pas (length ps) vpn (map_pages ps vpn perm A) = ps.
Proof.
  revert vpn A. induction ps as [|p ps IH]; intros vpn A; [done|].
  cbn [length range_pas map_pages]. rewrite map_pages_ne, lookup_insert_eq by lia.
  by rewrite IH.
Qed.

Lemma unmap_map_pages ps vpn perm A :
  (forall k : nat, (k < length ps)%nat -> A !! (vpn + Z.of_nat k) = None) ->
  unmap_range (length ps) vpn (map_pages ps vpn perm A) = A.
Proof.
  intros HA. apply map_eq. intros v. rewrite unmap_range_lookup. case_decide as Hv.
  - symmetry. specialize (HA (Z.to_nat (v - vpn))). rewrite Z2Nat.id in HA by lia.
    replace (vpn + (v - vpn)) with v in HA by lia. apply HA. lia.
  - by rewrite map_pages_ne by lia.
Qed.

(** *** Accounting *)

Lemma evolves_refl s L fr : evolves s L fr s L fr [].
Proof. split; [done| |done]. intros p. rewrite elem_of_nil. tauto. Qed.

Lemma grow_evolves s L fr s' L' fr' :
  grow s L fr s' L' fr' -> evolves s L fr s' L' fr' [].
Proof.
  intros [Hsub (taken & -> & Hlab) Hframe]. split; [done| |].
  - intros p. rewrite elem_of_nil, elem_of_app, Hlab. tauto.
  - intros a Ha. apply Hframe. intros p Hp. apply Ha.
    rewrite elem_of_app. apply Hlab in Hp. tauto.
Qed.

Lemma evolves_trans s1 L1 f1 s2 L2 f2 u2 s3 L3 f3 u3 :
  evolves s1 L1 f1 s2 L2 f2 u2 -> evolves s2 L2 f2 s3 L3 f3 u3 ->
  evolves s1 L1 f1 s3 L3 f3 (u2 ++ u3).
Proof.
  intros [A1 B1 C1] [A2 B2 C2]. split; [eauto| |].
  - intros p. rewrite <- (B1 p), elem_of_app.
    transitivity ((is_Some (L2 !! p) \/ p ∈ f2) \/ p ∈ u2); [rewrite <- (B2 p)|]; tauto.
  - intros a Ha. rewrite C2; [by apply C1|]. intros p Hp. apply Ha.
    specialize (B1 p). tauto.
Qed.

(** Giving [used] pages back to the free list. *)
Lemma evolves_return s1 L1 f1 s2 L2 f2 u2 s3 f3 :
  evolves s1 L1 f1 s2 L2 f2 u2 ->
  (forall p, p ∈ f3 <-> p ∈ f2 \/ p ∈ u2) ->
  (forall a, (forall p, is_Some (L2 !! p) \/ p ∈ f2 \/ p ∈ u2 -> ~ in_page p a) ->
     rd (phys s3) a = rd (phys s2) a) ->
  evolves s1 L1 f1 s3 L2 f3 [].
Proof.
  intros [A1 B1 C1] Hf Hfr. split; [done| |].
  - intros p. rewrite elem_of_nil, Hf. specialize (B1 p). tauto.
  - intros a Ha. rewrite Hfr; [by apply C1|]. intros p Hp. apply Ha, B1. tauto.
Qed.

(** Owned pages stay owned while the table grows out of the free list. *)
Lemma own_evolves s L fr s' L' fr' ps :
  own L fr ps -> NoDup fr' -> evolves s L fr s' L' fr' [] -> own L' fr' ps.
Proof.
  intros [H1 H2 H3] Hnd [_ Hp _]. apply NoDup_app in H3 as (Hn1 & Hn2 & Hn3).
  assert (Hout : forall p, p ∈ ps -> ~ (is_Some (L' !! p) \/ p ∈ fr')).
  { intros p Hin Hbad. specialize (Hp p). specialize (Hn2 p Hin). specialize (H2 p Hin).
    destruct (proj1 Hp) as [[v Hv]|?]; [tauto|congruence|done]. }
  split; [done| |].
  - intros p Hin. specialize (Hout p Hin). apply eq_None_not_Some. tauto.
  - apply NoDup_app. split_and!; [done| |done]. intros p Hin. specialize (Hout p Hin). tauto.
Qed.

(** The bytes of owned pages are not touched. *)
Lemma own_page_frame s L fr s' L' fr' u ps p root :
  vm_ok s root L fr -> own L fr ps -> evolves s L fr s' L' fr' u -> p ∈ ps ->
  forall a, in_page p a -> rd (phys s') a = rd (phys s) a.
Proof.
  intros [Hwf Hfree _] [H1 H2 H3] Hev Hin a Ha.
  rewrite Forall_forall in H1. apply (ev_frame _ _ _ _ _ _ _ Hev).
  intros q Hq Hqa. assert (page_ok q /\ p <> q) as [Hqok Hne].
  { apply NoDup_app in H3 as (_ & Hn & _). specialize (H2 p Hin). specialize (Hn p Hin).
    destruct Hq as [[[l x] Hq]|Hq].
    - split; [by destruct (wf_page _ _ _ Hwf _ _ _ Hq)|]. intros ->. congruence.
    - split; [|by intros ->]. apply fl_ok in Hfree as [Hok _].
      rewrite Forall_forall in Hok. by apply Hok. }
  destruct (page_ok_disjoint p q (H1 p Hin) Hqok Hne); alia.
Qed.

(** *** uvmdealloc *)

Lemma pgroundup_pages sz : 0 <= sz < MAXVA -> PGROUNDUP sz = (sz + 4095) / 4096 * PGSIZE.
Proof. intros. rewrite PGROUNDUP_eq by alia. done. Qed.

Lemma uvmdealloc_wp s root L fr A oldsz newsz (n : nat) :
  let vpn := (newsz + 4095) / 4096 in
  space_ok s root L fr A -> 0 <= newsz < oldsz -> oldsz + PGSIZE <= MAXVA ->
  Z.of_nat n = (oldsz + 4095) / 4096 - vpn ->
  (forall k : nat, (k < n)%nat -> unmappable L A true (vpn + Z.of_nat k)) ->
  NoDup (range_pas n vpn A ++ fr) ->
  wp (uvmdealloc root oldsz newsz) s
    (fun r s' => r = newsz /\ unmap_post n s root L fr A true vpn s').
Proof.
  intros vpn Hs Hsz Hmax Hn Hun Hnd. unfold uvmdealloc.
  destruct (Z.leb_spec oldsz newsz); [lia|].
  rewrite !pgroundup_pages by alia. fold vpn.
  assert (Hvpn : vpn * PGSIZE / PGSIZE = vpn) by (apply Z.div_mul; done).
  destruct (Z.ltb_spec (vpn * PGSIZE) ((oldsz + 4095) / 4096 * PGSIZE)) as [Hlt|Hge].
  - wp_step. rewrite <- Z.mul_sub_distr_r, Z.div_mul, <- Hn by done.
    rewrite i32_small by (unfold vpn in *; alia).
    assert (0 <= vpn * PGSIZE /\ vpn * PGSIZE + Z.of_nat n * PGSIZE <= MAXVA) as [? ?].
    { unfold vpn in *. alia. }
    rewrite u64_small by alia. eapply wp_mono.
    { apply (uvmunmap_wp n s root L fr A); rewrite ?Hvpn; try done. by apply Z.mod_mul. }
    intros [] s' Hs'. apply wp_ret. by rewrite Hvpn in Hs'.
  - wp_step. apply wp_ret. apply wp_ret. split; [done|].
    assert (n = 0%nat) as -> by alia. by unfold unmap_post.
Qed.

Lemma own_unmappable L fr A ps vpn perm :
  own L fr ps -> Z.lor perm PTE_V <> PTE_V ->
  (forall k : nat, (k < length ps)%nat -> 
    unmappable L (map_pages ps vpn perm A) true (vpn + Z.of_nat k)) /\
  NoDup (range_pas (length ps) vpn (map_pages ps vpn perm A) ++ fr).
Proof.
  intros [H1 H2 H3] Hperm. split; [|by rewrite range_pas_map_pages].
  intros k [p Hk]%lookup_lt_is_Some. exists p, perm.
  split_and!; [by apply map_pages_lookup|done|]. intros _.
  apply list_elem_of_lookup_2 in Hk. rewrite Forall_forall in H1. auto.
Qed.

(** Undoing the mappings of owned pages, as the error paths do. *)
Lemma uvmdealloc_undo s root L fr A ps a0 perm :
  space_ok s root L fr (map_pages ps (a0 / PGSIZE) perm A) ->
  0 <= a0 -> a0 mod PGSIZE = 0 ->
  a0 + Z.of_nat (length ps) * PGSIZE + PGSIZE <= MAXVA ->
  own L fr ps -> Z.lor perm PTE_V <> PTE_V ->
  (forall k : nat, (k < length ps)%nat -> A !! (a0 / PGSIZE + Z.of_nat k) = None) ->
  wp (uvmdealloc root (a0 + Z.of_nat (length ps) * PGSIZE) a0) s
    (fun _ s' => space_ok s' root L (reverse ps ++ fr) A /\
       forall a, (forall p, is_Some (L !! p) \/ p ∈ ps -> ~ in_page p a) ->
         rd (phys s') a = rd (phys s) a).
Proof.
  intros Hs Ha Haa Hmax Hown Hperm Hnone.
  destruct ps as [|p ps].
  { unfold uvmdealloc. simpl length. rewrite (proj2 (Z.leb_le _ _)) by lia.
    apply wp_ret. split; [done|]. auto. }
  destruct (own_unmappable L fr A (p :: ps) (a0 / PGSIZE) perm Hown Hperm) as [Hun Hnd].
  assert (Hvpn : (a0 + 4095) / 4096 = a0 / PGSIZE) by alia.
  eapply wp_mono.
  { apply (uvmdealloc_wp s root L fr _ _ a0 (length (p :: ps)) Hs);
      rewrite ?Hvpn; try done; simpl length in *; alia. }
  rewrite Hvpn. intros r s' (_ & Hs' & Hfr). cbn zeta in *.
  rewrite range_pas_map_pages, unmap_map_pages in * by done.
  split; [done|]. intros a Hb. apply Hfr. done.
Qed.

(** *** uvmalloc *)

Lemma space_kalloc s root L fr A :
  space_ok s root L fr A ->
  wp kalloc s (fun r s' =>
    (r = 0 /\ fr = [] /\ s' = s) \/
    (exists fr', fr = r :: fr' /\ page_ok r /\ L !! r = None /\ (r ∉ fr') /\
       space_ok s' root L fr' A /\ same_outside r (phys s) (phys s'))).
Proof.
  intros Hs. pose proof (sp_vm _ _ _ _ _ Hs) as [_ Hfree Hsep].
  apply (kalloc_wp s fr); [done|by left|]. intros q fr' s' -> Hq Hfree' Hso _. right.
  assert (HLq : L !! q = None) by (apply Hsep; left).
  apply fl_ok in Hfree as [_ Hnd]. apply NoDup_cons in Hnd as [Hn _].
  exists fr'. split_and!; try done.
  apply (space_same_outside s s' root L (q :: fr') _ A q); try done.
  intros p Hp. apply Hsep. by right.
Qed.

(** Writing a page that is neither a page-table page nor free. *)
Lemma space_write_page s root L fr A q (f : mem -> mem) :
  space_ok s root L fr A -> page_ok q -> L !! q = None -> q ∉ fr ->
  same_outside q (phys s) (f (phys s)) -> space_ok (set_phys f s) root L fr A.
Proof.
  intros Hs Hq HLq Hn Hso. pose proof (sp_vm _ _ _ _ _ Hs) as [_ Hfree Hsep].
  apply (space_same_outside s _ root L fr fr A q); try done.
  unfold free_rep. simpl. by apply (fl_same_outside (phys s) _ _ _ q).
Qed.

Lemma evolves_take s L q fr s' :
  same_outside q (phys s) (phys s') -> evolves s L (q :: fr) s' L fr [q].
Proof.
  intros Hso. split; [done| |].
  - intros p. rewrite list_elem_of_singleton, elem_of_cons. tauto.
  - intros a Ha. apply Hso, Ha. right. left.
Qed.

Lemma own_take L fr ps q :
  own L (q :: fr) ps -> page_ok q -> L !! q = None -> own L fr (ps ++ [q]).
Proof.
  intros [H1 H2 H3] Hq HLq. split.
  - apply Forall_app. split; [done|by constructor].
  - intros p. rewrite elem_of_app, list_elem_of_singleton. intros [?| ->]; auto.
  - by rewrite <- app_assoc.
Qed.

(** The state after [kalloc] gave the page [q] and it was cleared. *)
Lemma zero_page_step s s1 root L q fr A :
  space_ok s1 root L fr A -> page_ok q -> L !! q = None -> q ∉ fr ->
  same_outside q (phys s) (phys s1) ->
  let s2 := set_phys (fun m => memset m q 0 PGSIZE) s1 in
  space_ok s2 root L fr A /\ evolves s L (q :: fr) s2 L fr [q] /\ zeroed (phys s2) q.
Proof.
  intros Hs Hq HLq Hn Hso s2. split_and!.
  - apply (space_write_page s1 root L fr A q); try done. apply same_outside_memset.
  - apply evolves_take. eapply same_outside_trans; [done|apply same_outside_memset].
  - intros a Ha. simpl. rewrite rd_memset by alia. case_decide; [done|alia].
Qed.

(** [map_range] of one page, on top of [map_pages]. *)
Lemma map_range_1 ps q vpn perm A :
  map_range 1 (vpn + Z.of_nat (length ps)) q perm (map_pages ps vpn perm A) =
  map_pages (ps ++ [q]) vpn perm A.
Proof. by rewrite map_pages_snoc. Qed.

(** Outcome of [uvmalloc] when the pages [ps] were already mapped. *)
Definition uvmalloc_post (n : nat) s root L fr A ps vpn perm newsz (r : Z) (s' : kst) : Prop :=
  (r = newsz /\ exists qs L' fr', length qs = n /\
     space_ok s' root L' fr' (map_pages (ps ++ qs) vpn perm A) /\
     own L' fr' (ps ++ qs) /\ evolves s L fr s' L' fr' qs /\
     (forall q, q ∈ qs -> zeroed (phys s') q)) \/
  (r = 0 /\ exists L' fr', space_ok s' root L' fr' A /\ evolves s L (fr ++ ps) s' L' fr' []).

(** The error paths of [uvmalloc]: pages mapped so far go back. *)
Lemma uvmalloc_fail_wp n s s1 root L fr L1 fr1 A ps a0 perm newsz u :
  space_ok s1 root L1 fr1 (map_pages ps (a0 / PGSIZE) perm A) ->
  own L1 fr1 ps -> evolves s L fr s1 L1 fr1 u -> (forall p, p ∈ u -> p ∈ fr1) ->
  0 <= a0 -> a0 mod PGSIZE = 0 ->
  a0 + Z.of_nat (length ps) * PGSIZE + PGSIZE <= MAXVA -> Z.lor perm PTE_V <> PTE_V ->
  (forall k : nat, (k < length ps)%nat -> A !! (a0 / PGSIZE + Z.of_nat k) = None) ->
  wp (bind (uvmdealloc root (a0 + Z.of_nat (length ps) * PGSIZE) a0) (fun _ => ret 0)) s1
    (uvmalloc_post n s root L fr A ps (a0 / PGSIZE) perm newsz).
Proof.
  intros Hs1 Hown Hev Hu Ha0 Ha Hmax Hperm Hnone. wp_step. eapply wp_mono.
  { by apply (uvmdealloc_undo s1 root L1 fr1 A ps a0 perm). }
  intros r s2 [Hs2 Hfr]. apply wp_ret. right. split; [done|].
  exists L1, (reverse ps ++ fr1). split; [done|]. split; [apply Hev| |].
  - intros p. rewrite elem_of_nil, !elem_of_app, elem_of_reverse.
    pose proof (ev_pages _ _ _ _ _ _ _ Hev p). specialize (Hu p). tauto.
  - intros a Hb. rewrite Hfr.
    + apply (ev_frame _ _ _ _ _ _ _ Hev). intros p Hp. apply Hb. rewrite elem_of_app. tauto.
    + intros p Hp. apply Hb. rewrite elem_of_app.
      pose proof (ev_pages _ _ _ _ _ _ _ Hev p). tauto.
Qed.

(** One more page mapped: what is known after the [q] just added, and the
    rest of the loop. *)
Lemma uvmalloc_post_step n s s3 root L q fr L3 fr3 A ps vpn perm newsz r s' :
  vm_ok s3 root L3 fr3 -> own L3 fr3 (ps ++ [q]) ->
  evolves s L (q :: fr) s3 L3 fr3 [q] -> zeroed (phys s3) q ->
  uvmalloc_post n s3 root L3 fr3 A (ps ++ [q]) vpn perm newsz r s' ->
  uvmalloc_post (S n) s root L (q :: fr) A ps vpn perm newsz r s'.
Proof.
  intros Hvm Hown Hev Hz [(-> & qs & L' & fr' & Hlen & Hs' & Hown' & Hev' & Hz')
                         |(-> & L' & fr' & Hs' & Hev')].
  - left. split; [done|]. exists (q :: qs), L', fr'. rewrite <- app_assoc in Hs', Hown'.
    split_and!; [simpl; lia|done|done|apply (evolves_trans _ _ _ _ _ _ [q] _ _ _ _ Hev Hev')|].
    intros p [->|Hp]%elem_of_cons; [|by apply Hz'].
    intros a Ha. rewrite (own_page_frame s3 L3 fr3 s' L' fr' qs (ps ++ [q]) q root);
      try done; [by apply Hz|]. apply elem_of_app. right. left.
  - right. split; [done|]. exists L', fr'. split; [done|].
    destruct Hev as [A1 B1 C1], Hev' as [A2 B2 C2]. split; [eauto| |].
    + intros p. rewrite (B2 p), !elem_of_app.
      transitivity ((is_Some (L3 !! p) \/ p ∈ fr3 \/ p ∈ [q]) \/ p ∈ ps); [tauto|].
      rewrite (B1 p). tauto.
    + intros a Ha. rewrite C2; [apply C1|].
      * intros p Hp. apply Ha. rewrite elem_of_app. tauto.
      * intros p Hp. apply Ha. rewrite !elem_of_app in Hp. rewrite elem_of_app.
        assert ((is_Some (L3 !! p) \/ p ∈ fr3 \/ p ∈ [q]) \/ p ∈ ps) as Hp' by tauto.
        rewrite (B1 p) in Hp'. tauto.
Qed.

Lemma uvmalloc_loop_wp (n fuel : nat) s root L fr A ps a0 newsz xperm :
  let perm := Z.lor (Z.lor PTE_R PTE_U) xperm in
  let a := a0 + Z.of_nat (length ps) * PGSIZE in
  space_ok s root L fr (map_pages ps (a0 / PGSIZE) perm A) -> own L fr ps ->
  (n <= fuel)%nat -> 0 <= a0 -> a0 mod PGSIZE = 0 ->
  a + Z.of_nat n * PGSIZE + PGSIZE <= MAXVA ->
  newsz <= a + Z.of_nat n * PGSIZE ->
  ((0 < n)%nat -> a + (Z.of_nat n - 1) * PGSIZE < newsz) ->
  0 <= perm < 1024 -> Z.lor perm PTE_V <> PTE_V ->
  (forall k : nat, (k < length ps + n)%nat -> A !! (a0 / PGSIZE + Z.of_nat k) = None) ->
  wp (uvmalloc_loop fuel root a a0 newsz xperm) s
    (uvmalloc_post n s root L fr A ps (a0 / PGSIZE) perm newsz).
Proof.
  intros perm. revert fuel s L fr ps. induction n as [|n IH];
    intros fuel s L fr ps a Hs Hown Hf Ha0 Ha Hmax Hle Hlt Hperm HpermV Hnone.
  { assert (newsz <= a) by lia.
    destruct fuel; cbn [uvmalloc_loop]; rewrite (proj2 (Z.ltb_ge _ _)) by lia; apply wp_ret;
      (left; split; [done|]; exists [], L, fr; rewrite app_nil_r;
       split_and!; try done; [apply evolves_refl|by intros q ?%not_elem_of_nil]). }
  destruct fuel as [|fuel]; [lia|]. cbn [uvmalloc_loop].
  specialize (Hlt ltac:(lia)). rewrite (proj2 (Z.ltb_lt _ _)) by alia.
  assert (Hnone' : forall k : nat, (k < length ps)%nat -> A !! (a0 / PGSIZE + Z.of_nat k) = None)
    by (intros; apply Hnone; lia).
  wp_step. eapply wp_mono; [by apply (space_kalloc s root L fr)|].
  intros q s1 [(-> & -> & ->)|(fr1 & -> & Hq & HLq & Hnq & Hs1 & Hso)].
  { simpl. apply (uvmalloc_fail_wp _ s s root L [] L [] A ps a0 perm newsz []); try done.
    - apply evolves_refl.
    - alia. }
  rewrite (proj2 (Z.eqb_neq q 0)) by (apply page_ok_bounds in Hq; alia).
  destruct (zero_page_step s s1 root L q fr1 _ Hs1 Hq HLq Hnq Hso) as (Hs2 & Hev2 & Hz2).
  pose proof (own_take L fr1 ps q Hown Hq HLq) as Hown2.
  assert (Hvpn : a / PGSIZE = a0 / PGSIZE + Z.of_nat (length ps)) by (unfold a; alia).
  do 2 wp_step. set (s2 := set_phys _ s1) in *. clearbody s2. apply wp_bind.
  replace PGSIZE with (Z.of_nat 1 * PGSIZE) at 1 by lia.
  eapply wp_mono.
  { apply (mappages_wp s2 root L fr1 _ a 1 q perm Hs2); try lia; try (unfold a; alia).
    - apply page_ok_bounds in Hq. alia.
    - by destruct Hq.
    - apply page_ok_bounds in Hq. alia.
    - intros k Hk. rewrite Hvpn, map_pages_ne by lia.
      rewrite <- Z.add_assoc, <- Nat2Z.inj_add. apply Hnone. lia. }
  intros r s3 (L3 & fr3 & k & Hs3 & Hg3 & _ & Hr). apply grow_evolves in Hg3 as Hev3.
  pose proof (evolves_trans _ _ _ _ _ _ _ _ _ _ _ Hev2 Hev3) as Hev. rewrite app_nil_r in Hev.
  pose proof (vm_free _ _ _ _ (sp_vm _ _ _ _ _ Hs3)) as Hfree3. apply fl_ok in Hfree3 as [_ Hnd3].
  pose proof (own_evolves _ _ _ _ _ _ _ Hown2 Hnd3 Hev3) as Hown3.
  destruct Hr as [[-> ->]|(-> & Hk & ->)].
  - cbn [Z.eqb negb]. rewrite Hvpn, map_range_1 in Hs3.
    assert (Hz3 : zeroed (phys s3) q).
    { intros b Hb. rewrite (own_page_frame s2 L fr1 s3 L3 fr3 [] (ps ++ [q]) q root);
        try done; [by apply Hz2|apply Hs2|]. apply elem_of_app. right. left. }
    rewrite u64_small by (unfold a in *; alia).
    eapply wp_mono; [|intros r s' Hpost;
      apply (uvmalloc_post_step n s s3 root L q fr1 L3 fr3); try done; apply Hs3].
    replace (a + PGSIZE) with (a0 + Z.of_nat (length (ps ++ [q])) * PGSIZE)
      by (rewrite length_app; simpl length; unfold a; lia).
    apply IH; rewrite ?length_app; simpl length; try done; try (unfold a in *; alia).
    intros k Hk. apply Hnone. lia.
  - change (negb (-1 =? 0)) with true. cbn iota. assert (k = 0%nat) as -> by lia.
    cbn [map_range] in Hs3. destruct Hown3 as [O1 O2 O3].
    assert (Hq3 : L3 !! q = None) by (apply O2, elem_of_app; right; left).
    wp_step. eapply wp_mono; [apply (space_kfree s3 root L3 [] _ q Hs3 Hq Hq3), not_elem_of_nil|].
    intros [] s4 [Hs4 Hso4].
    apply (uvmalloc_fail_wp _ s s4 root L (q :: fr1) L3 [q] A ps a0 perm newsz []); try done.
    + split; [by apply Forall_app in O1 as [? _]|intros; apply O2, elem_of_app; auto|].
      by rewrite <- app_assoc, app_nil_r in O3.
    + apply (evolves_return _ _ _ _ _ _ _ s4 [q] Hev).
      * intros p. rewrite elem_of_nil. tauto.
      * intros b Hb. apply Hso4, Hb. right. right. left.
    + intros p ?%not_elem_of_nil. done.
    + unfold a in *. alia.
Qed.

(** [uvmalloc] from an empty accumulator: [n] is the number of pages between
    the rounded sizes. *)
Lemma uvmalloc_wp s root L fr A oldsz newsz xperm :
  let perm := Z.lor (Z.lor PTE_R PTE_U) xperm in
  let vpn := (oldsz + 4095) / 4096 in
  let n := Z.to_nat ((newsz + 4095) / 4096 - vpn) in
  space_ok s root L fr A -> 0 <= oldsz <= newsz -> newsz + 2 * PGSIZE <= MAXVA ->
  0 <= perm < 1024 -> Z.lor perm PTE_V <> PTE_V ->
  (forall v, vpn <= v < (newsz + 4095) / 4096 -> A !! v = None) ->
  wp (uvmalloc root oldsz newsz xperm) s (uvmalloc_post n s root L fr A [] vpn perm newsz).
Proof.
  intros perm vpn n Hs Hsz Hmax Hperm HpermV Hnone. unfold uvmalloc.
  rewrite (proj2 (Z.ltb_ge _ _)) by lia. cbn zeta. rewrite pgroundup_pages by alia. fold vpn.
  assert (Hvpn : vpn * PGSIZE / PGSIZE = vpn) by (apply Z.div_mul; done).
  pose proof (uvmalloc_loop_wp n (Z.to_nat ((newsz - vpn * PGSIZE + PGSIZE - 1) / PGSIZE))
    s root L fr A [] (vpn * PGSIZE) newsz xperm) as Hw.
  cbn zeta in Hw. fold perm in Hw. rewrite Hvpn in Hw. simpl length in Hw.
  rewrite Z.mul_0_l, Z.add_0_r in Hw. pose proof (vm_free _ _ _ _ (sp_vm _ _ _ _ _ Hs)) as Hfree.
  apply fl_ok in Hfree as [_ Hnd]. apply Hw; try done.
  - split; [done| |done]. by intros p ?%not_elem_of_nil.
  - unfold n, vpn in *. alia.
  - unfold vpn. alia.
  - by apply Z.mod_mul.
  - unfold n, vpn in *. alia.
  - unfold n, vpn in *. alia.
  - unfold n, vpn in *. alia.
  - intros k Hk. apply Hnone. unfold n in Hk. lia.
Qed.
End Uvm.
