(* ===== verification/UserCopy.v ===== *)
(** * Copying between kernel and user memory

    Specifications of [copyout], [copyin] and [copyinstr] of [kernel/vm.c]
    over the abstract address space: which bytes are transferred, where the
    transfer stops, and that page tables and the free list are untouched. *)

From S2P Require Import Prelude Riscv Mem CString Kalloc Vm PageTable VmSpec.

Section Defs.
Context `{Linker}.

(** The physical address behind the user address [va]. *)
Definition upa (A : aspace) (va : Z) : Z := user_page A va + va mod PGSIZE.
Definition user_mapped (A : aspace) (va : Z) : Prop := user_page A va <> 0.

(** User pages are pages of their own: not page tables, not free, and not
  shared between two virtual pages. *)
Record user_ok (L : labels) (fr : list Z) (A : aspace) : Prop := UserOk {
  uo_page : forall vpn pa f, A !! vpn = Some (pa, f) -> is_set f PTE_U = true ->
    page_ok pa /\ L !! pa = None /\ (pa ∉ fr);
  uo_inj : forall v1 v2 pa f1 f2, A !! v1 = Some (pa, f1) -> is_set f1 PTE_U = true ->
    A !! v2 = Some (pa, f2) -> is_set f2 PTE_U = true -> v1 = v2;
}.

(** A kernel buffer: outside page tables, free pages and user pages. *)
Definition buf_ok (L : labels) (fr : list Z) (A : aspace) (buf len : Z) : Prop :=
forall a, buf <= a < buf + len ->
  (forall p, is_Some (L !! p) \/ p ∈ fr -> ~ in_page p a) /\
  (forall va, 0 <= va -> user_mapped A va -> ~ in_page (user_page A va) a).

(** The first [k] bytes at [src] are now at the user addresses from [va],
  and no other byte of physical memory changed. *)
Definition wrote_user (A : aspace) (m m' : mem) (va src k : Z) : Prop :=
(forall i, 0 <= i < k -> user_mapped A (va + i) /\ rd m' (upa A (va + i)) = rd m (src + i)) /\
(forall a, (forall i, 0 <= i < k -> a <> upa A (va + i)) -> rd m' a = rd m a).

(** The [k] bytes at the user addresses from [va] are now at [dst]. *)
Definition read_user (A : aspace) (m m' : mem) (dst va k : Z) : Prop :=
(forall i, 0 <= i < k -> user_mapped A (va + i) /\ rd m' (dst + i) = rd m (upa A (va + i))) /\
(forall a, ~ (dst <= a < dst + k) -> rd m' a = rd m a).

(** The outcome [r] of copying a string of fewer than [max] bytes from user
  address [va]: 0 when the first [k] bytes end in the string's NUL, and -1
  when [max] bytes had none or the next byte is not mapped. *)
Definition str_result (A : aspace) (m : mem) (va max k r : Z) : Prop :=
(r = 0 /\ 0 < k /\ rd m (upa A (va + k - 1)) = 0 /\
   forall i, 0 <= i < k - 1 -> rd m (upa A (va + i)) <> 0) \/
(r = -1 /\ (forall i, 0 <= i < k -> rd m (upa A (va + i)) <> 0) /\
   (k = max \/ (k < max /\ ~ user_mapped A (va + k)))).

End Defs.

Section Copy.
Context `{LinkerOk}.

(** Only the bytes of page-table pages and free pages matter. *)
Lemma space_frame s s' root L fr A :
  space_ok s root L fr A -> freelist s' = freelist s ->
  (forall p a, is_Some (L !! p) \/ p ∈ fr -> in_page p a -> rd (phys s') a = rd (phys s) a) ->
  space_ok s' root L fr A.
Proof.
  intros [[Hwf Hfree Hsep] Hrep HA] Hfl Hsame.
  destruct (pt_frame _ _ _ Hwf (phys s')) as [Hwf' Hpte].
  { intros p i Hp Hi. apply load64_ext. intros b Hb. apply (Hsame p); [by left|].
    unfold slot in Hb. alia. }
  split; [split|..]; try done.
  - unfold free_rep in *. rewrite Hfl. apply (fl_frame (phys s)); [|done].
    intros p Hp. apply load64_ext. intros b Hb. apply (Hsame p); [by right|alia].
  - intros va Hva. rewrite Hpte by done. by apply Hrep.
Qed.

Lemma user_mapped_inv A va :
  user_mapped A va ->
  exists f, A !! (va / PGSIZE) = Some (user_page A va, f) /\ is_set f PTE_U = true.
Proof.
  unfold user_mapped, user_page. destruct (A !! _) as [[pa f]|]; [|done].
  destruct (is_set f PTE_U) eqn:E; [|done]. intros _. eauto.
Qed.

Lemma user_page_ok L fr A va :
  user_ok L fr A -> user_mapped A va ->
  page_ok (user_page A va) /\ L !! user_page A va = None /\ user_page A va ∉ fr.
Proof. intros Hu (f & HA & Hf)%user_mapped_inv. by apply (uo_page _ _ _ Hu _ _ f HA). Qed.

Lemma upa_in_page A va : 0 <= va -> in_page (user_page A va) (upa A va).
Proof. intros. unfold upa. alia. Qed.

Lemma user_page_same A va va' : va / PGSIZE = va' / PGSIZE -> user_page A va = user_page A va'.
Proof. unfold user_page. by intros ->. Qed.

Lemma upa_inj L fr A va va' :
  user_ok L fr A -> 0 <= va -> 0 <= va' -> user_mapped A va -> user_mapped A va' ->
  upa A va = upa A va' -> va = va'.
Proof.
  intros Hu Hva Hva' Hm Hm' E.
  pose proof (user_page_ok _ _ _ _ Hu Hm) as (Hp & _). 
  pose proof (user_page_ok _ _ _ _ Hu Hm') as (Hp' & _).
  pose proof (upa_in_page A va Hva). pose proof (upa_in_page A va' Hva').
  assert (Epg : user_page A va = user_page A va').
  { destruct (decide (user_page A va = user_page A va')) as [|Hne]; [done|].
    destruct (page_ok_disjoint _ _ Hp Hp' Hne); alia. }
  apply user_mapped_inv in Hm as (f & HA & Hf), Hm' as (f' & HA' & Hf').
  rewrite Epg in HA. pose proof (uo_inj _ _ _ Hu _ _ _ _ _ HA Hf HA' Hf') as Ev.
  unfold upa in E. rewrite Epg in E. alia.
Qed.

(** Writing user bytes keeps the address space. *)
Lemma wrote_user_space s s' root L fr A va src k :
  space_ok s root L fr A -> user_ok L fr A -> 0 <= va ->
  freelist s' = freelist s -> wrote_user A (phys s) (phys s') va src k ->
  space_ok s' root L fr A.
Proof.
  intros Hs Hu Hva Hfl [Hw1 Hw2]. apply (space_frame s); try done.
  intros p a Hp Ha. apply Hw2. intros i Hi ->.
  destruct (Hw1 i Hi) as [Hm _]. destruct (user_page_ok _ _ _ _ Hu Hm) as (Hq & HL & Hn).
  pose proof (upa_in_page A (va + i)) as Hin.
  assert (page_ok p /\ p <> user_page A (va + i)) as [Hpok Hne].
  { destruct Hs as [[Hwf Hfree _] _ _]. destruct Hp as [[[l x] Hp]|Hp].
    - split; [by destruct (wf_page _ _ _ Hwf _ _ _ Hp)|]. intros ->. congruence.
    - apply fl_ok in Hfree as [Hok _]. rewrite Forall_forall in Hok.
      split; [by apply Hok|]. by intros ->. }
  destruct (page_ok_disjoint _ _ Hpok Hq Hne); alia.
Qed.

(** A mapped page is below [MAXVA]: the address of the next one does not wrap. *)
Lemma next_page s root L fr A va :
  space_ok s root L fr A -> 0 <= va -> user_mapped A va ->
  u64 (va / 4096 * 4096 + PGSIZE) = va / 4096 * 4096 + PGSIZE.
Proof.
  intros Hs Hva (f & HA & _)%user_mapped_inv. apply (sp_wf _ _ _ _ _ Hs) in HA as [HA _].
  apply u64_small. alia.
Qed.

(** The bytes one iteration of a copy loop handles: to the end of the page
    or of the transfer. *)
Lemma chunk_bounds va len :
  0 <= va -> 0 < len ->
  let va0 := va / 4096 * 4096 in
  let n := if len <? PGSIZE - va mod PGSIZE then len else PGSIZE - va mod PGSIZE in
  0 < n <= len /\ va mod PGSIZE + n <= PGSIZE /\ (n < len -> va + n = va0 + PGSIZE).
Proof. intros Hva Hlen va0 n. unfold n, va0. destruct (Z.ltb_spec len (PGSIZE - va mod PGSIZE)); alia. Qed.

(** Addresses of a chunk lie in one page. *)
Lemma chunk_upa A va n i :
  0 <= va -> va mod PGSIZE + n <= PGSIZE -> 0 <= i < n ->
  user_page A (va + i) = user_page A va /\ upa A (va + i) = user_page A va + va mod PGSIZE + i.
Proof.
  intros Hva Hn Hi. assert (E : user_page A (va + i) = user_page A va) by (apply user_page_same; alia).
  split; [done|]. unfold upa. rewrite E. alia.
Qed.

(** *** copyout *)

Lemma copyout_loop_wp (fuel : nat) s root L fr A va src len :
  space_ok s root L fr A -> user_ok L fr A -> buf_ok L fr A src len ->
  0 <= va -> 0 <= len ->
  (len + va mod PGSIZE + PGSIZE - 1) / PGSIZE <= Z.of_nat fuel ->
  wp (copyout_loop fuel root va src len) s (fun r s' =>
    exists k, 0 <= k <= len /\ wrote_user A (phys s) (phys s') va src k /\
      freelist s' = freelist s /\ space_ok s' root L fr A /\
      ((r = 0 /\ k = len) \/ (r = -1 /\ k < len /\ ~ user_mapped A (va + k)))).
Proof.
  revert s va src len. induction fuel as [|fuel IH];
    intros s va src len Hs Hu Hb Hva Hlen Hf; cbn [copyout_loop].
  { destruct (Z.ltb_spec 0 len); [alia|]. apply wp_ret. exists 0.
    split_and!; [lia|lia| |done|done|left; split; [done|lia]].
    split; [intros; lia|done]. }
  destruct (Z.ltb_spec 0 len) as [Hpos|Hz]; cycle 1.
  { apply wp_ret. exists 0.
    split_and!; [lia|lia| |done|done|left; split; [done|lia]].
    split; [intros; lia|done]. }
  rewrite PGROUNDDOWN_eq. set (va0 := va / 4096 * 4096).
  assert (Hva0 : va0 / PGSIZE = va / PGSIZE) by (unfold va0; alia).
  wp_step. unfold wp at 1. rewrite (walkaddr_space s root L fr A) by (done || unfold va0; alia).
  rewrite (user_page_same A va0 va Hva0).
  destruct (Z.eqb_spec (user_page A va) 0) as [Hunm|Hm].
  { apply wp_ret. exists 0. split_and!; [lia|lia| |done|done|].
    - split; [intros; lia|done].
    - right. rewrite Z.add_0_r. split_and!; [done|lia|]. intros Hn. by apply Hn. }
  assert (Hoff : va - va0 = va mod PGSIZE) by (unfold va0; alia). rewrite Hoff.
  set (n := if len <? PGSIZE - va mod PGSIZE then len else PGSIZE - va mod PGSIZE).
  pose proof (chunk_bounds va len Hva Hpos) as Hn. cbn zeta in Hn. fold n va0 in Hn.
  do 2 wp_step. set (s1 := set_phys _ s).
  assert (Hw : wrote_user A (phys s) (phys s1) va src n /\ freelist s1 = freelist s).
  { split; [|done]. pose proof (memmove_copied (phys s) (user_page A va + va mod PGSIZE) src n) as Hc.
    unfold s1. cbn [phys set_phys]. specialize (Hc ltac:(alia)).
    assert (Hpg : forall i, 0 <= i < n -> upa A (va + i) = user_page A va + va mod PGSIZE + i).
    { intros i Hi. apply (chunk_upa A va n i); lia. }
    split.
    - intros i Hi. split.
      { unfold user_mapped. by rewrite (proj1 (chunk_upa A va n i Hva ltac:(lia) Hi)). }
      rewrite Hc, Hpg by done. case_decide; [f_equal; lia|lia].
    - intros a Ha. rewrite Hc. case_decide as Hd; [|done]. exfalso.
      apply (Ha (a - (user_page A va + va mod PGSIZE))); [lia|]. rewrite Hpg by lia. lia. }
  destruct Hw as [Hw Hfl]. clearbody s1.
  pose proof (wrote_user_space s s1 root L fr A va src n Hs Hu Hva Hfl Hw) as Hs1.
  assert (Hnext : u64 (va0 + PGSIZE) = va0 + PGSIZE) by (by apply (next_page s root L fr A)).
  rewrite Hnext. destruct (decide (n = len)) as [En|En].
  - replace (len - n) with 0 by lia.
    destruct fuel; cbn [copyout_loop]; rewrite Z.ltb_irrefl; apply wp_ret;
      exists len; (split_and!; [lia|lia|by rewrite <- En|done|done|by left]).
  - replace (va0 + PGSIZE) with (va + n) by lia.
    eapply wp_mono.
    { apply (IH s1 (va + n) (src + n) (len - n)); try done; try lia.
      - intros a Ha. apply Hb. lia.
      - assert ((va + n) mod PGSIZE = 0) as -> by (unfold va0 in *; alia).
        unfold va0 in *; alia. }
    intros r s2 (k & Hk & [Hw1 Hw2] & Hfl2 & Hs2 & Hr). exists (n + k).
    split_and!; [lia|lia| |congruence|done|].
    2: { destruct Hr as [[-> ->]|(-> & ? & ?)]; [left; split; [done|lia]|right].
         rewrite Z.add_assoc. split_and!; [done|lia|done]. }
    destruct Hw as [Hv1 Hv2].
    assert (Hsrc : forall i, 0 <= i < len -> rd (phys s1) (src + i) = rd (phys s) (src + i)).
    { intros i Hi. apply Hv2. intros j Hj E. destruct (Hb (src + i)) as [_ Hbu]; [lia|].
      destruct (Hv1 j Hj) as [Hm' _]. apply (Hbu (va + j)); [lia|done|].
      rewrite E. apply upa_in_page. lia. }
    split.
    + intros i Hi. destruct (decide (i < n)) as [Hin|Hin].
      * destruct (Hv1 i) as [Hm1 Hr1]; [lia|]. split; [done|]. rewrite Hw2; [done|].
        intros j Hj E. destruct (Hw1 j Hj) as [Hm2 _].
        apply (upa_inj L fr) in E; try done; lia.
      * destruct (Hw1 (i - n)) as [Hm1 Hr1]; [lia|].
        replace (va + n + (i - n)) with (va + i) in * by lia. split; [done|].
        rewrite Hr1, <- Z.add_assoc. replace (n + (i - n)) with i by lia. apply Hsrc. lia.
    + intros a Ha. rewrite Hw2, Hv2; [done| |].
      * intros i Hi. apply Ha. lia.
      * intros i Hi. rewrite <- Z.add_assoc. apply Ha. lia.
Qed.

Lemma copyout_wp s root L fr A va src len :
  space_ok s root L fr A -> user_ok L fr A -> buf_ok L fr A src len ->
  0 <= va -> 0 <= len ->
  wp (copyout root va src len) s (fun r s' =>
    exists k, 0 <= k <= len /\ wrote_user A (phys s) (phys s') va src k /\
      freelist s' = freelist s /\ space_ok s' root L fr A /\
      ((r = 0 /\ k = len) \/ (r = -1 /\ k < len /\ ~ user_mapped A (va + k)))).
Proof. intros. unfold copyout. apply copyout_loop_wp; try done. alia. Qed.

(** *** copyin *)

(** Writing a kernel buffer keeps the address space. *)
Lemma buf_write_space s s' root L fr A dst len :
  space_ok s root L fr A -> buf_ok L fr A dst len -> freelist s' = freelist s ->
  (forall a, ~ (dst <= a < dst + len) -> rd (phys s') a = rd (phys s) a) ->
  space_ok s' root L fr A.
Proof.
  intros Hs Hb Hfl Hw. apply (space_frame s); try done. intros p a Hp Ha.
  apply Hw. intros Hin. by apply (proj1 (Hb a Hin) p).
Qed.

Lemma buf_write_user s s' L fr A dst len va :
  buf_ok L fr A dst len -> 0 <= va -> user_mapped A va ->
  (forall a, ~ (dst <= a < dst + len) -> rd (phys s') a = rd (phys s) a) ->
  rd (phys s') (upa A va) = rd (phys s) (upa A va).
Proof.
  intros Hb Hva Hm Hw. apply Hw. intros Hin. apply (proj2 (Hb _ Hin) va Hva Hm), upa_in_page, Hva.
Qed.

(** Two transfers in a row make one. *)
Lemma read_user_app A m m1 m2 dst va n k :
  read_user A m m1 dst va n -> read_user A m1 m2 (dst + n) (va + n) k -> 0 <= n -> 0 <= k ->
  (forall i, 0 <= i < k -> user_mapped A (va + n + i) ->
     rd m1 (upa A (va + n + i)) = rd m (upa A (va + n + i))) ->
  read_user A m m2 dst va (n + k).
Proof.
  intros [Hu1 Hu2] [Hv1 Hv2] Hn Hk Hsame. split.
  - intros i Hi. destruct (decide (i < n)).
    + destruct (Hu1 i) as [? E]; [lia|]. split; [done|]. rewrite Hv2 by lia. done.
    + destruct (Hv1 (i - n)) as [? E]; [lia|]. specialize (Hsame (i - n) ltac:(lia)).
      replace (va + n + (i - n)) with (va + i) in * by lia.
      replace (dst + n + (i - n)) with (dst + i) in * by lia.
      split; [done|]. rewrite E. auto.
  - intros a Ha. rewrite Hv2, Hu2 by lia. done.
Qed.

Lemma read_user_nil A m dst va : read_user A m m dst va 0.
Proof. split; [intros; lia|done]. Qed.

(** One iteration of [copyin]. *)
Lemma copyin_chunk A m dst va n :
  0 <= va -> user_mapped A va -> 0 <= n -> va mod PGSIZE + n <= PGSIZE ->
  read_user A m (memmove m dst (user_page A va + va mod PGSIZE) n) dst va n.
Proof.
  intros Hva Hm Hn Hle. pose proof (memmove_copied m dst (user_page A va + va mod PGSIZE) n) as Hc.
  specialize (Hc ltac:(alia)). split.
  - intros i Hi. destruct (chunk_upa A va n i) as [E1 E2]; [done|done|done|].
    split; [unfold user_mapped; by rewrite E1|]. rewrite Hc, E2. case_decide; [f_equal|]; lia.
  - intros a Ha. rewrite Hc. by case_decide.
Qed.

Lemma copyin_loop_wp (fuel : nat) s root L fr A va dst len :
  space_ok s root L fr A -> buf_ok L fr A dst len -> 0 <= va -> 0 <= len ->
  (len + va mod PGSIZE + PGSIZE - 1) / PGSIZE <= Z.of_nat fuel ->
  wp (copyin_loop fuel root dst va len) s (fun r s' =>
    exists k, 0 <= k <= len /\ read_user A (phys s) (phys s') dst va k /\
      freelist s' = freelist s /\ space_ok s' root L fr A /\
      ((r = 0 /\ k = len) \/ (r = -1 /\ k < len /\ ~ user_mapped A (va + k)))).
Proof.
  revert s va dst len. induction fuel as [|fuel IH];
    intros s va dst len Hs Hb Hva Hlen Hf; cbn [copyin_loop];
    (destruct (Z.ltb_spec 0 len) as [Hpos|Hz];
     [|apply wp_ret; exists 0; split_and!;
       [lia|lia|apply read_user_nil|done|done|left; split; [done|lia]]]); [alia|].
  rewrite PGROUNDDOWN_eq. set (va0 := va / 4096 * 4096).
  assert (Hva0 : va0 / PGSIZE = va / PGSIZE) by (unfold va0; alia).
  wp_step. unfold wp at 1. rewrite (walkaddr_space s root L fr A) by (done || unfold va0; alia).
  rewrite (user_page_same A va0 va Hva0).
  destruct (Z.eqb_spec (user_page A va) 0) as [Hunm|Hm].
  { apply wp_ret. exists 0. split_and!; [lia|lia|apply read_user_nil|done|done|].
    right. rewrite Z.add_0_r. split_and!; [done|lia|]. intros Hn. by apply Hn. }
  assert (Hoff : va - va0 = va mod PGSIZE) by (unfold va0; alia). rewrite Hoff.
  pose proof (chunk_bounds va len Hva Hpos) as (Hn1 & Hn2 & Hn3). cbn zeta in *. fold va0 in Hn3.
  set (n := if len <? PGSIZE - va mod PGSIZE then len else PGSIZE - va mod PGSIZE) in *.
  do 2 wp_step. set (s1 := set_phys _ s).
  assert (Hw : read_user A (phys s) (phys s1) dst va n) by (apply copyin_chunk; done || lia).
  assert (Hfl : freelist s1 = freelist s) by done. clearbody s1.
  assert (Hkeep : forall a, ~ (dst <= a < dst + len) -> rd (phys s1) a = rd (phys s) a).
  { intros a Ha. apply Hw. lia. }
  pose proof (buf_write_space s s1 root L fr A dst len Hs Hb Hfl Hkeep) as Hs1.
  unfold va0. rewrite (next_page s root L fr A va) by done. fold va0.
  destruct (decide (n = len)) as [En|En].
  - replace (len - n) with 0 by lia.
    destruct fuel; cbn [copyin_loop]; rewrite Z.ltb_irrefl; apply wp_ret;
      exists len; (split_and!; [lia|lia|by rewrite <- En|done|done|by left]).
  - rewrite <- Hn3 by lia. eapply wp_mono.
    { apply (IH s1 (va + n) (dst + n) (len - n)); try done; try lia.
      - intros a Ha. apply Hb. lia.
      - assert ((va + n) mod PGSIZE = 0) as -> by (unfold va0 in *; alia). unfold va0 in *; alia. }
    intros r s2 (k & Hk & Hr2 & Hfl2 & Hs2 & Hr). exists (n + k).
    split_and!; [lia|lia| |congruence|done|].
    2: { destruct Hr as [[-> ->]|(-> & ? & ?)]; [left; split; [done|lia]|right].
         rewrite Z.add_assoc. split_and!; [done|lia|done]. }
    eapply read_user_app; [done|done|lia|lia|]. intros i Hi Hm'.
    apply (buf_write_user s s1 L fr A dst len); done || lia.
Qed.

Lemma copyin_wp s root L fr A va dst len :
  space_ok s root L fr A -> buf_ok L fr A dst len -> 0 <= va -> 0 <= len ->
  wp (copyin root dst va len) s (fun r s' =>
    exists k, 0 <= k <= len /\ read_user A (phys s) (phys s') dst va k /\
      freelist s' = freelist s /\ space_ok s' root L fr A /\
      ((r = 0 /\ k = len) \/ (r = -1 /\ k < len /\ ~ user_mapped A (va + k)))).
Proof. intros. unfold copyin. apply copyin_loop_wp; try done. alia. Qed.

(** *** copyinstr *)

Lemma copyinstr_page_wp (n : nat) s p dst :
  dst + Z.of_nat n <= p \/ p + Z.of_nat n <= dst ->
  wp (copyinstr_page n p dst) s (fun b s' =>
    exists k, 0 <= k <= Z.of_nat n /\ copied (phys s) (phys s') dst p k /\
      freelist s' = freelist s /\
      (forall i, 0 <= i < k - cbool b -> rd (phys s) (p + i) <> 0) /\
      (if b then 0 < k /\ rd (phys s) (p + k - 1) = 0 else k = Z.of_nat n)).
Proof.
  revert s p dst. induction n as [|n IH]; intros s p dst Hd; cbn [copyinstr_page].
  { apply wp_ret. exists 0. split_and!; try done.
    - intros b. by case_decide; [lia|].
    - simpl. intros; lia. }
  wp_steps. set (s1 := set_phys _ s).
  assert (Hs1 : forall a, rd (phys s1) a = if decide (dst = a) then rd (phys s) p else rd (phys s) a).
  { intros a. unfold s1. cbn [phys set_phys]. rewrite rd_wr. case_decide; [|done].
    apply u8_small, rd_range. }
  assert (Hfl : freelist s1 = freelist s) by done. clearbody s1.
  destruct (Z.eqb_spec (rd (phys s) p) 0) as [E|E].
  { apply wp_ret. exists 1. split_and!; try done; try lia.
    - intros b. rewrite Hs1. repeat case_decide; try lia; f_equal; lia.
    - simpl. intros; lia.
    - by replace (p + 1 - 1) with p by lia. }
  eapply wp_mono; [apply (IH s1 (p + 1) (dst + 1)); lia|].
  intros b s2 (k & Hk & Hc & Hfl2 & Hnz & Hb). exists (k + 1). split_and!; [lia|lia| |congruence| |].
  - intros a. rewrite Hc. rewrite !Hs1. repeat case_decide; try lia; try done; f_equal; lia.
  - intros i Hi. destruct (decide (i = 0)) as [->|]; [by rewrite Z.add_0_r|].
    assert (0 <= cbool b) by (by destruct b). specialize (Hnz (i - 1) ltac:(lia)). rewrite Hs1 in Hnz. case_decide; [lia|].
    by replace (p + i) with (p + 1 + (i - 1)) by lia.
  - destruct b; [|lia]. destruct Hb as [? Hb]. split; [lia|]. rewrite Hs1 in Hb.
    case_decide; [lia|]. rewrite <- Hb. f_equal. lia.
Qed.

(** A kernel buffer does not overlap the user page that is being read. *)
Lemma buf_page_disjoint L fr A dst max va n :
  buf_ok L fr A dst max -> 0 <= va -> user_mapped A va -> 0 < n <= max ->
  va mod PGSIZE + n <= PGSIZE ->
  dst + n <= user_page A va + va mod PGSIZE \/ user_page A va + va mod PGSIZE + n <= dst.
Proof.
  intros Hb Hva Hm Hn Hle. set (p := user_page A va + va mod PGSIZE).
  destruct (decide (dst + n <= p)); [by left|]. destruct (decide (p + n <= dst)); [by right|].
  exfalso. set (a := Z.max dst p). destruct (Hb a) as [_ Hbu]; [unfold a; lia|].
  apply (Hbu va Hva Hm). unfold a, p in *. alia.
Qed.

(** One iteration of [copyinstr]. *)
Lemma copied_read_user A m m' dst va n :
  0 <= va -> user_mapped A va -> va mod PGSIZE + n <= PGSIZE ->
  copied m m' dst (user_page A va + va mod PGSIZE) n -> read_user A m m' dst va n.
Proof.
  intros Hva Hm Hle Hc. split.
  - intros i Hi. destruct (chunk_upa A va n i) as [E1 E2]; [done|done|done|].
    split; [unfold user_mapped; by rewrite E1|]. rewrite Hc, E2. case_decide; [f_equal|]; lia.
  - intros a Ha. rewrite Hc. by case_decide.
Qed.

(** A result for the rest of the string, seen from its start. *)
Lemma str_result_shift A m m1 va n max k r :
  0 <= n -> 0 <= k <= max - n ->
  (forall i, 0 <= i < n -> rd m (upa A (va + i)) <> 0) ->
  (forall i, 0 <= i < k -> rd m1 (upa A (va + n + i)) = rd m (upa A (va + n + i))) ->
  str_result A m1 (va + n) (max - n) k r -> str_result A m va max (n + k) r.
Proof.
  intros Hn Hk Hnz Hsame Hr.
  assert (Hall : forall j, (forall i, 0 <= i < j -> rd m1 (upa A (va + n + i)) <> 0) -> j <= k ->
            forall i, 0 <= i < n + j -> rd m (upa A (va + i)) <> 0).
  { intros j Hj Hjk i Hi. destruct (decide (i < n)); [apply Hnz; lia|].
    replace (va + i) with (va + n + (i - n)) by lia. rewrite <- Hsame by lia. apply Hj. lia. }
  destruct Hr as [(-> & Hk0 & Hz & Hnz1)|(-> & Hnz1 & Hend)]; [left|right].
  - split_and!; [done|lia| |].
    + rewrite <- Hz. replace (va + n + k - 1) with (va + n + (k - 1)) by lia.
      rewrite Hsame by lia. do 2 f_equal. lia.
    + intros i Hi. apply (Hall (k - 1) Hnz1); lia.
  - split_and!; [done| |].
    + intros i Hi. by apply (Hall k Hnz1); [lia|].
    + destruct Hend as [->|[? Hm]]; [left; lia|right]. split; [lia|]. by rewrite Z.add_assoc.
Qed.

Lemma copyinstr_loop_wp (fuel : nat) s root L fr A va dst max :
  space_ok s root L fr A -> buf_ok L fr A dst max -> 0 <= va -> 0 <= max ->
  (max + va mod PGSIZE + PGSIZE - 1) / PGSIZE <= Z.of_nat fuel ->
  wp (copyinstr_loop fuel root dst va max) s (fun r s' =>
    exists k, 0 <= k <= max /\ read_user A (phys s) (phys s') dst va k /\
      freelist s' = freelist s /\ space_ok s' root L fr A /\
      str_result A (phys s) va max k r).
Proof.
  revert s va dst max. induction fuel as [|fuel IH];
    intros s va dst max Hs Hb Hva Hlen Hf; cbn [copyinstr_loop];
    (destruct (Z.ltb_spec 0 max) as [Hpos|Hz];
     [|apply wp_ret; exists 0; split_and!;
       [lia|lia|apply read_user_nil|done|done|right; split_and!; [done|intros; lia|left; lia]]]); [alia|].
  rewrite PGROUNDDOWN_eq. set (va0 := va / 4096 * 4096).
  assert (Hva0 : va0 / PGSIZE = va / PGSIZE) by (unfold va0; alia).
  wp_step. unfold wp at 1. rewrite (walkaddr_space s root L fr A) by (done || unfold va0; alia).
  rewrite (user_page_same A va0 va Hva0).
  destruct (Z.eqb_spec (user_page A va) 0) as [Hunm|Hm].
  { apply wp_ret. exists 0. split_and!; [lia|lia|apply read_user_nil|done|done|].
    right. rewrite Z.add_0_r. split_and!; [done|intros; lia|]. right. split; [lia|]. intros Hn. by apply Hn. }
  assert (Hoff : va - va0 = va mod PGSIZE) by (unfold va0; alia). rewrite Hoff.
  pose proof (chunk_bounds va max Hva Hpos) as (Hn1 & Hn2 & Hn3). cbn zeta in *. fold va0 in Hn3.
  set (n := if max <? PGSIZE - va mod PGSIZE then max else PGSIZE - va mod PGSIZE) in *.
  wp_step. eapply wp_mono.
  { apply (copyinstr_page_wp (Z.to_nat n)). rewrite Z2Nat.id by lia.
    by apply (buf_page_disjoint L fr A dst max va n). }
  intros b s1 (k & Hk & Hc & Hfl & Hnz & Hb1). rewrite Z2Nat.id in Hk, Hb1 by lia.
  pose proof (copied_read_user A _ _ dst va k Hva Hm ltac:(lia) Hc) as Hw.
  assert (Hkeep : forall a, ~ (dst <= a < dst + max) -> rd (phys s1) a = rd (phys s) a).
  { intros a Ha. apply Hw. lia. }
  pose proof (buf_write_space s s1 root L fr A dst max Hs Hb Hfl Hkeep) as Hs1.
  assert (Hpa : forall i, 0 <= i < n -> upa A (va + i) = user_page A va + va mod PGSIZE + i).
  { intros i Hi. apply (chunk_upa A va n i); lia. }
  destruct b.
  { apply wp_ret. exists k. split_and!; [lia|lia|done|done|done|]. left.
    destruct Hb1 as [? Hz0]. split_and!; [done|lia| |].
    - replace (va + k - 1) with (va + (k - 1)) by lia. rewrite Hpa by lia. rewrite <- Hz0. f_equal. lia.
    - intros i Hi. rewrite Hpa by lia. by apply Hnz. }
  assert (Hnz' : forall i, 0 <= i < n -> rd (phys s) (upa A (va + i)) <> 0).
  { intros i Hi. rewrite Hpa by lia. apply Hnz. simpl. lia. }
  subst k. destruct (decide (n = max)) as [En|En].
  { replace (max - n) with 0 by lia.
    destruct fuel; cbn [copyinstr_loop]; rewrite Z.ltb_irrefl; apply wp_ret; exists n;
      (split_and!; [lia|lia|done|done|done|right; split_and!; [done|done|left; lia]]). }
  unfold va0. rewrite (next_page s root L fr A va) by done. fold va0. rewrite <- Hn3 by lia.
  eapply wp_mono.
  { apply (IH s1 (va + n) (dst + n) (max - n)); try done; try lia.
    - intros a Ha. apply Hb. lia.
    - assert ((va + n) mod PGSIZE = 0) as -> by (unfold va0 in *; alia). unfold va0 in *; alia. }
  intros r s2 (k & Hk2 & Hr2 & Hfl2 & Hs2 & Hr). exists (n + k).
  assert (Hsame : forall i, 0 <= i < k ->
    rd (phys s1) (upa A (va + n + i)) = rd (phys s) (upa A (va + n + i))).
  { intros i Hi. apply (buf_write_user s s1 L fr A dst max); try done; [lia|]. by apply Hr2. }
  split_and!; [lia|lia| |congruence|done|].
  - eapply read_user_app; [done|done|lia|lia|]. auto.
  - eapply str_result_shift; done || lia.
Qed.

Lemma copyinstr_wp s root L fr A va dst max :
  space_ok s root L fr A -> buf_ok L fr A dst max -> 0 <= va -> 0 <= max ->
  wp (copyinstr root dst va max) s (fun r s' =>
    exists k, 0 <= k <= max /\ read_user A (phys s) (phys s') dst va k /\
      freelist s' = freelist s /\ space_ok s' root L fr A /\
      str_result A (phys s) va max k r).
Proof. intros. unfold copyinstr. apply copyinstr_loop_wp; try done. alia. Qed.
End Copy.
