(* ===== verification/MemExample.v ===== *)
(** * A concrete kernel memory

    The link-time addresses of [kernel/kernel.sym] and a small physical
    memory: a page table with one user page mapped at virtual address 0, and
    four free pages.  The theorems on memory management are instantiated
    here. *)

From S2P Require Import Prelude Riscv Mem CString Kalloc Vm PageTable VmSpec UvmSpec UserCopy.

#[export] Instance xv6_linker : Linker :=
  {| kend := 0x80022f70; etext := 0x80008000; trampoline := 0x80007000;
     proc_base := 0x80010f90; ticks_addr := 0x800088f0; initcode := 0x80008860;
     forkret := 0x800019f4; bcache_addr := 0x80017ba8; itable_addr := 0x80020288;
     log_addr := 0x80021d30; ftable_addr := 0x80021e78; cons_addr := 0x80010a40; uart_tx_r_addr := 0x800088c8;
     disk_addr := 0x80022e30; kernelvec := 0x80005cf0; uservec := 0x80007000; userret := 0x8000709c;
     usertrap_addr := 0x8000291c;
     klocal := KSTACK 1 + 3072 |}.
#[export] Instance xv6_linker_ok : LinkerOk.
Proof. split; vm_compute; repeat split; congruence. Qed.

Definition ex_root : Z := 0x80030000.
Definition ex_pt1 : Z := 0x80031000.
Definition ex_pt0 : Z := 0x80032000.
Definition ex_user : Z := 0x80033000.
Definition ex_fr : list Z := [0x80041000; 0x80042000; 0x80043000; 0x80044000].
Definition ex_perm : Z := Z.lor (Z.lor PTE_R PTE_W) PTE_U.

(** Memory with the free list linked up, everything else zero. *)
Definition ex_mem : mem :=
  store64 (store64 (store64 (store64 (store64 ∅ ex_pt1 ex_pt0)
    ex_pt0 0x80041000) 0x80041000 0x80042000) 0x80042000 0x80043000) 0x80043000 0x80044000.
Definition ex_state0 : kst := KSt ex_mem ex_pt1.
Definition ex_L0 : labels := {[ex_root := (2, 0)]}.

(** The page table after the pages [ex_pt1] and [ex_pt0] are linked in and
    the user page is mapped. *)
Definition ex_link (q p : Z) (s : kst) (next : Z) : kst :=
  set_phys (fun m => store64 m (slot p 0) (Z.lor (PA2PTE q) PTE_V))
    (set_phys (fun m => memset m q 0 PGSIZE) (set_freelist next s)).
Definition ex_state : kst :=
  set_phys (fun m => store64 m (slot ex_pt0 0) (mkpte ex_user ex_perm))
    (ex_link ex_pt0 ex_pt1 (ex_link ex_pt1 ex_root ex_state0 ex_pt0) 0x80041000).
Definition ex_L : labels := <[ex_pt0 := (0, 0)]> (<[ex_pt1 := (1, 0)]> ex_L0).
Definition ex_A : aspace := {[0 := (ex_user, ex_perm)]}.

Lemma ex_page_ok p : 0x80030000 <= p < 0x80050000 -> p mod 4096 = 0 -> page_ok p.
Proof. intros. split; [done|]. simpl. alia. Qed.

Ltac ex_page := apply ex_page_ok; [vm_compute; split; congruence|reflexivity].

Lemma ex_root_zero i : 0 <= i < 512 -> load64 ex_mem (slot ex_root i) = 0.
Proof.
  intros Hi. unfold ex_mem, slot, ex_pt1, ex_pt0, ex_root.
  rewrite !load64_store64_ne by lia.
  apply load64_empty.
Qed.

Lemma ex_free0 : free_rep ex_state0 (ex_pt1 :: ex_pt0 :: ex_fr).
Proof.
  unfold free_rep, ex_fr, ex_state0, freelist, phys.
  repeat (cbn [fl]; split; [by vm_compute|split; [ex_page|split;
    [apply (bool_decide_unpack _); vm_compute; exact I|]]]).
  by vm_compute.
Qed.

Lemma ex_L0_lookup p l x : ex_L0 !! p = Some (l, x) -> p = ex_root /\ l = 2 /\ x = 0.
Proof. unfold ex_L0. rewrite lookup_singleton_Some. intros [<- [= <- <-]]. done. Qed.

Lemma ex_A_lookup v pa f : ex_A !! v = Some (pa, f) -> v = 0 /\ pa = ex_user /\ f = ex_perm.
Proof. unfold ex_A. rewrite lookup_singleton_Some. intros [<- [= <- <-]]. done. Qed.

Lemma ex_vm0 : vm_ok ex_state0 ex_root ex_L0 (ex_pt1 :: ex_pt0 :: ex_fr).
Proof.
  split; [split|apply ex_free0|].
  - apply lookup_singleton_eq.
  - intros p l x (-> & -> & ->)%ex_L0_lookup. split_and!; [ex_page|lia|lia|done].
  - intros p l x i (-> & -> & ->)%ex_L0_lookup _ Hi.
    cbn [phys ex_state0]. by rewrite ex_root_zero.
  - intros p l x (-> & -> & ->)%ex_L0_lookup ?. lia.
  - intros p Hp. apply lookup_singleton_ne. intros <-. revert Hp.
    apply (bool_decide_unpack _). vm_compute. exact I.
Qed.

Lemma ex_space0 : space_ok ex_state0 ex_root ex_L0 (ex_pt1 :: ex_pt0 :: ex_fr) ∅.
Proof.
  split; [apply ex_vm0| |].
  - intros va Hva. rewrite lookup_empty. unfold pte_at. cbn [wlk].
    assert (0 <= PX (Z.of_nat 2) va < 512) by (apply PX_range; lia).
    cbn [phys ex_state0]. by rewrite ex_root_zero by done.
  - intros vpn pa f. by rewrite lookup_empty.
Qed.

(** Linking one of the pages. *)
Lemma ex_link_ok s L q fr p l next :
  vm_ok s ex_root L (q :: fr) -> L !! p = Some (l, 0) -> 0 < l ->
  load64 (phys s) q = next -> is_set (load64 (phys s) (slot p 0)) PTE_V = false ->
  vm_ok (ex_link q p s next) ex_root (<[q := (l - 1, 0)]> L) fr /\
  (forall va, 0 <= va < MAXVA ->
     pte_at (phys (ex_link q p s next)) ex_root va = pte_at (phys s) ex_root va).
Proof.
  intros Hvm Hp Hl Hnext Hinv. pose proof (vm_free _ _ _ _ Hvm) as (_ & Hq & _ & Hfl).
  destruct (link_step s (set_freelist next s) ex_root L fr q p l 0 0) as (H1 & _ & H3); try done.
  unfold free_rep. cbn [phys freelist set_freelist]. by rewrite <- Hnext.
Qed.

Lemma ex_space : space_ok ex_state ex_root ex_L ex_fr ex_A.
Proof.
  destruct (ex_link_ok ex_state0 ex_L0 ex_pt1 (ex_pt0 :: ex_fr) ex_root 2 ex_pt0) as [H1 P1];
    [apply ex_vm0|by vm_compute|lia|by vm_compute|by vm_compute|].
  destruct (ex_link_ok (ex_link ex_pt1 ex_root ex_state0 ex_pt0) (<[ex_pt1 := (1, 0)]> ex_L0)
    ex_pt0 ex_fr ex_pt1 1 0x80041000) as [H2 P2];
    [done|by vm_compute|lia|by vm_compute|by vm_compute|].
  set (s2 := ex_link ex_pt0 ex_pt1 _ _) in *.
  assert (Hs2 : space_ok s2 ex_root ex_L ex_fr ∅).
  { split; [done| |apply (sp_wf _ _ _ _ _ ex_space0)].
    intros va Hva. rewrite P2, P1 by done. by apply (sp_rep _ _ _ _ _ ex_space0). }
  destruct (space_store s2 ex_root ex_L ex_fr ∅ ex_pt0 0 (mkpte ex_user ex_perm) ex_A) as [H3 _];
    [done|alia|apply mkpte_range; vm_compute; split; congruence|by vm_compute| |done| |done].
  - intros vpn pa f (-> & -> & ->)%ex_A_lookup. vm_compute. repeat split; congruence.
  - intros vpn Hv. unfold ex_A. rewrite lookup_empty. by apply lookup_singleton_ne.
Qed.

Lemma ex_user_ok : user_ok ex_L ex_fr ex_A.
Proof.
  split.
  - intros vpn pa f (-> & -> & ->)%ex_A_lookup _.
    split_and!; [ex_page|by vm_compute|]. apply (bool_decide_unpack _). vm_compute. exact I.
  - by intros v1 v2 pa f1 f2 (-> & _)%ex_A_lookup _ (-> & _)%ex_A_lookup.
Qed.

(** A kernel buffer in the last example page. *)
Definition ex_buf : Z := 0x80048000.
Lemma ex_buf_ok : buf_ok ex_L ex_fr ex_A ex_buf 4096.
Proof.
  intros a Ha. unfold ex_buf in Ha. split.
  - intros p Hp. assert (p < 0x80045000); [|alia].
    destruct Hp as [[v Hv]|Hp].
    + unfold ex_L, ex_L0 in Hv. rewrite !lookup_insert_Some, lookup_singleton_Some in Hv.
      unfold ex_pt0, ex_pt1, ex_root in Hv. lia.
    + unfold ex_fr in Hp. rewrite !elem_of_cons, elem_of_nil in Hp. lia.
  - intros va Hva (f & Hf & _)%user_mapped_inv.
    apply ex_A_lookup in Hf as (_ & -> & _). unfold ex_user. alia.
Qed.
