(* ===== verification/MemTheorems.v ===== *)
(** * Main theorems on memory management

    The properties of [kernel/kalloc.c], [kernel/vm.c] and
    [kernel/string.c], stated over the abstract allocator and the abstract
    address space, each with an instance on the memory of [MemExample]. *)

From S2P Require Import Prelude Riscv Mem CString Kalloc Vm PageTable VmSpec UvmSpec UserCopy MemExample.

Section Theorems.
Context `{LinkerOk}.

(** C6: [kinit] turns an empty allocator into one whose free list holds every
    page between the end of the kernel and the top of memory, and from there
    any sequence of [kalloc] and [kfree] calls by a client that only frees
    pages it holds runs without a panic and keeps the held and the free pages
    a partition of those pages: no page is lost and none is given out twice. *)
Theorem kalloc_partition (ops : list alloc_op) (s : kst) (Hs : freelist s = 0) :
  let pages := pages_from (PGROUNDUP kend) PHYSTOP in
  wp kinit s (fun _ s1 =>
    free_rep s1 (reverse pages) /\
    exists s2 held l, alloc_run ops s1 [] = Some (s2, held) /\
      free_rep s2 l /\ held ++ l ≡ₚ pages /\ NoDup (held ++ l)).
Proof.
  intros pages. eapply wp_mono; [by apply kinit_wp|]. intros [] s1 H1. split; [done|].
  destruct kinit_pages_ok as [Hnd Hok].
  destruct (alloc_run_conserves ops s1 [] _ pages H1 Hnd Hok) as (s2 & held & l & Hr & Hl & Hp).
  { simpl. apply reverse_Permutation. }
  exists s2, held, l. split_and!; try done. by rewrite Hp.
Qed.

(** [kfree] panics on any address that is not a page-aligned address
    between the end of the kernel and the top of memory; on such a page that
    is not free already it pushes the page on the free list and writes
    nothing outside the page. *)
Theorem kfree_spec (s : kst) (l : list Z) (p : Z) (Hl : free_rep s l) (Hp : p ∉ l) :
  (~ page_ok p -> kfree p s = Fail (EPanic "kfree")) /\
  (page_ok p -> wp (kfree p) s (fun _ s' =>
     free_rep s' (p :: l) /\ same_outside p (phys s) (phys s'))).
Proof.
  split; [apply kfree_panics|]. intros Hok. apply (kfree_wp s l); try done.
Qed.

(** [mappages] on [n] unmapped page-aligned addresses either maps all of
    them to consecutive physical pages with the given permissions and returns
    0, or runs out of memory for page-table pages and returns -1 with a proper
    prefix mapped.  The page table stays well formed, and pages only move from
    the free list to the page table. *)
Theorem mappages_spec (s : kst) (root : Z) (L : labels) (fr : list Z) (A : aspace)
    (va : Z) (n : nat) (pa perm : Z)
    (Hs : space_ok s root L fr A) (Hn : (0 < n)%nat)
    (Hva : 0 <= va /\ va mod PGSIZE = 0 /\ va + Z.of_nat n * PGSIZE <= MAXVA)
    (Hpa : 0 <= pa /\ pa mod PGSIZE = 0 /\ pa + Z.of_nat n * PGSIZE < 2 ^ 64)
    (Hperm : 0 <= perm < 1024)
    (Hfree : forall k : nat, (k < n)%nat -> A !! (va / PGSIZE + Z.of_nat k) = None) :
  wp (mappages root va (Z.of_nat n * PGSIZE) pa perm) s (fun r s' =>
    exists L' fr' (k : nat),
      space_ok s' root L' fr' (map_range k (va / PGSIZE) pa perm A) /\
      grow s L fr s' L' fr' /\
      ((r = 0 /\ k = n) \/ (r = -1 /\ (k < n)%nat /\ fr' = []))).
Proof.
  destruct Hva as (? & ? & ?), Hpa as (? & ? & ?). eapply wp_mono; [by apply mappages_wp|].
  intros r s' (L' & fr' & k & A1 & A2 & _ & A3). by exists L', fr', k.
Qed.

(** [walkaddr] is the lookup of the abstract address space: the physical
    page of a mapping that user code may use, and 0 for an unmapped address,
    an address above [MAXVA] or a page without [PTE_U]; it changes nothing. *)
Theorem walkaddr_spec (s : kst) (root : Z) (L : labels) (fr : list Z) (A : aspace) (va : Z)
    (Hs : space_ok s root L fr A) (Hva : 0 <= va) :
  walkaddr root va s = Ok (user_page A va) s.
Proof. by apply (walkaddr_space s root L fr A). Qed.

(** [uvmunmap] on [n] mapped leaf pages removes exactly these mappings;
    with [do_free] the physical pages go to the free list, in order, and
    nothing outside the page table and the freed pages is written. *)
Theorem uvmunmap_spec (n : nat) (s : kst) (root : Z) (L : labels) (fr : list Z) (A : aspace)
    (va : Z) (do_free : bool)
    (Hs : space_ok s root L fr A)
    (Hva : 0 <= va /\ va mod PGSIZE = 0 /\ va + Z.of_nat n * PGSIZE <= MAXVA)
    (Hun : forall k : nat, (k < n)%nat -> unmappable L A do_free (va / PGSIZE + Z.of_nat k))
    (Hnd : do_free = true -> NoDup (range_pas n (va / PGSIZE) A ++ fr)) :
  wp (uvmunmap root va (Z.of_nat n) do_free) s (fun _ s' =>
    unmap_post n s root L fr A do_free (va / PGSIZE) s').
Proof. destruct Hva as (? & ? & ?). by apply uvmunmap_wp. Qed.

(** C26: growing a process from [oldsz] to [newsz] with [uvmalloc] either
    returns [newsz] with fresh zeroed pages mapped at exactly the new virtual
    pages, or returns 0 with the address space as before and every page it
    took back on the free list or in the page table. *)
Theorem uvmalloc_spec (s : kst) (root : Z) (L : labels) (fr : list Z) (A : aspace)
    (oldsz newsz xperm : Z)
    (Hs : space_ok s root L fr A) (Hsz : 0 <= oldsz <= newsz) (Hmax : newsz <= TRAPFRAME)
    (Hperm : 0 <= Z.lor (Z.lor PTE_R PTE_U) xperm < 1024)
    (Hleaf : Z.lor (Z.lor (Z.lor PTE_R PTE_U) xperm) PTE_V <> PTE_V)
    (Hfree : forall v, (oldsz + 4095) / 4096 <= v < (newsz + 4095) / 4096 -> A !! v = None) :
  let perm := Z.lor (Z.lor PTE_R PTE_U) xperm in
  let vpn := (oldsz + 4095) / 4096 in
  wp (uvmalloc root oldsz newsz xperm) s (fun r s' =>
    (r = newsz /\ exists ps L' fr', Z.of_nat (length ps) = (newsz + 4095) / 4096 - vpn /\
       space_ok s' root L' fr' (map_pages ps vpn perm A) /\ own L' fr' ps /\
       evolves s L fr s' L' fr' ps /\ (forall p, p ∈ ps -> zeroed (phys s') p)) \/
    (r = 0 /\ exists L' fr', space_ok s' root L' fr' A /\ evolves s L fr s' L' fr' [])).
Proof.
  intros perm vpn. eapply wp_mono.
  { apply (uvmalloc_wp s root L fr A); try done. alia. }
  intros r s' [(-> & ps & L' & fr' & Hl & ?)|(-> & L' & fr' & ? & Hev)]; [left|right].
  - split; [done|]. exists ps, L', fr'. split; [|done]. rewrite Hl. unfold vpn. zdm.
  - rewrite app_nil_r in Hev. eauto.
Qed.

(** [copyout] copies kernel bytes to the user address [va] page by page:
    it returns 0 after all [len] bytes, or -1 after the largest prefix before
    the first byte that is not mapped for user code.  It writes no byte of
    physical memory other than those behind the copied user addresses, and
    the page table stays the same. *)
Theorem copyout_spec (s : kst) (root : Z) (L : labels) (fr : list Z) (A : aspace) (va src len : Z)
    (Hs : space_ok s root L fr A) (Hu : user_ok L fr A) (Hb : buf_ok L fr A src len)
    (Hva : 0 <= va) (Hlen : 0 <= len) :
  wp (copyout root va src len) s (fun r s' =>
    exists k, 0 <= k <= len /\ wrote_user A (phys s) (phys s') va src k /\
      freelist s' = freelist s /\ space_ok s' root L fr A /\
      ((r = 0 /\ k = len) \/ (r = -1 /\ k < len /\ ~ user_mapped A (va + k)))).
Proof. by apply copyout_wp. Qed.

(** [copyin] copies the user bytes from [va] to a kernel buffer: it
    returns 0 after all [len] bytes, or -1 after the prefix before the first
    byte that is not mapped for user code, and writes nothing but the
    buffer. *)
Theorem copyin_spec (s : kst) (root : Z) (L : labels) (fr : list Z) (A : aspace) (va dst len : Z)
    (Hs : space_ok s root L fr A) (Hb : buf_ok L fr A dst len) (Hva : 0 <= va) (Hlen : 0 <= len) :
  wp (copyin root dst va len) s (fun r s' =>
    exists k, 0 <= k <= len /\ read_user A (phys s) (phys s') dst va k /\
      freelist s' = freelist s /\ space_ok s' root L fr A /\
      ((r = 0 /\ k = len) \/ (r = -1 /\ k < len /\ ~ user_mapped A (va + k)))).
Proof. by apply copyin_wp. Qed.

(** [copyinstr] copies a user string with its NUL into a buffer of [max]
    bytes and returns 0, or returns -1 because [max] bytes held no NUL or an
    unmapped address came before it; it never writes outside the buffer. *)
Theorem copyinstr_spec (s : kst) (root : Z) (L : labels) (fr : list Z) (A : aspace) (va dst max : Z)
    (Hs : space_ok s root L fr A) (Hb : buf_ok L fr A dst max) (Hva : 0 <= va) (Hmax : 0 <= max) :
  wp (copyinstr root dst va max) s (fun r s' =>
    exists k, 0 <= k <= max /\ read_user A (phys s) (phys s') dst va k /\
      freelist s' = freelist s /\ space_ok s' root L fr A /\
      str_result A (phys s) va max k r).
Proof. by apply copyinstr_wp. Qed.

End Theorems.

(** ** The theorems on a concrete memory *)

Lemma kalloc_partition_witness :
  freelist (KSt ∅ 0) = 0 /\
  wp kinit (KSt ∅ 0) (fun _ s1 =>
    free_rep s1 (reverse (pages_from (PGROUNDUP kend) PHYSTOP)) /\
    exists s2 held l, alloc_run [Alloc; Alloc; Free 0x87fff000] s1 [] = Some (s2, held) /\
      free_rep s2 l /\ held ++ l ≡ₚ pages_from (PGROUNDUP kend) PHYSTOP /\ NoDup (held ++ l)).
Proof. split; [reflexivity|]. apply (kalloc_partition [Alloc; Alloc; Free 0x87fff000] (KSt ∅ 0)). reflexivity. Defined.



Lemma uvmalloc_spec_witness :
  wp (uvmalloc ex_root 4096 10000 PTE_W) ex_state (fun r s' =>
    (r = 10000 /\ exists ps L' fr', Z.of_nat (length ps) = 2 /\
       space_ok s' ex_root L' fr' (map_pages ps 1 (Z.lor (Z.lor PTE_R PTE_U) PTE_W) ex_A) /\
       own L' fr' ps /\ evolves ex_state ex_L ex_fr s' L' fr' ps /\
       (forall p, p ∈ ps -> zeroed (phys s') p)) \/
    (r = 0 /\ exists L' fr', space_ok s' ex_root L' fr' ex_A /\
       evolves ex_state ex_L ex_fr s' L' fr' [])).
Proof.
  apply (uvmalloc_spec ex_state ex_root ex_L ex_fr ex_A 4096 10000 PTE_W ex_space).
  - lia.
  - vm_compute. congruence.
  - vm_compute. split; congruence.
  - vm_compute. congruence.
  - intros v Hv. apply lookup_singleton_ne. intros <-. revert Hv. vm_compute. tauto.
Defined.


