(* ===== verification/Spinlock.v ===== *)
(** * Spin locks and interrupt nesting

    [kernel/spinlock.c] with the interrupt-enable routines of
    [kernel/riscv.h], [cpuid] and [mycpu] of [kernel/proc.c], as seen by one
    hart.  The amoswap of [acquire] either gets the lock or finds it held by
    another hart, in which case the hart spins ([EBlock]). *)

From S2P Require Import Prelude Riscv.

(** ** State *)

(** The spin locks of the kernel by their variable; the lock inside a sleep
    lock and the lock of a pipe are named by the address of the structure. *)
Inductive lockid :=
  | ProcLock (i : nat) | WaitLock | PidLock | TicksLock
  | BcacheLock | LogLock | ItableLock | FtableLock | ConsLock | UartLock | PrLock | VdiskLock
  | SleepSpin (a : Z) | PipeLock (a : Z).

#[export] Instance lockid_eq_dec : EqDecision lockid.
Proof. solve_decision. Defined.

(** [lk_cpu] is the hart whose [struct cpu] the lock points to. *)
Record spinlock := Spinlock { locked : bool; lk_cpu : option nat }.

Record cpu := Cpu {
  cpu_proc : option nat;   (** the process running on this cpu, or null *)
  noff : Z;                (** depth of push_off() nesting *)
  intena : bool;           (** were interrupts enabled before push_off()? *)
}.

Record lkst := LkSt {
  cpus : list cpu;              (** cpus[NCPU] *)
  hart : nat;                   (** the tp register of the running hart *)
  sie : bool;                   (** sstatus.SIE of the running hart *)
  locks : lockid -> spinlock;
}.

Definition set_locks (f : (lockid -> spinlock) -> lockid -> spinlock) (s : lkst) : lkst :=
  LkSt (cpus s) (hart s) (sie s) (f (locks s)).
Definition set_cpus (f : list cpu -> list cpu) (s : lkst) : lkst :=
  LkSt (f (cpus s)) (hart s) (sie s) (locks s).
Definition set_sie (b : bool) (s : lkst) : lkst := LkSt (cpus s) (hart s) b (locks s).

Definition upd_lock (l : lockid) (v : spinlock) (m : lockid -> spinlock) : lockid -> spinlock :=
  fun l' => if decide (l = l') then v else m l'.

(** ** Operations *)

Section Ops.
Local Open Scope kernel_scope.

Definition intr_get : M lkst bool := gets sie.
Definition intr_on : M lkst unit := modify (set_sie true).
Definition intr_off : M lkst unit := modify (set_sie false).

Definition cpuid : M lkst nat := gets hart.
Definition mycpu : M lkst cpu :=
  id <- cpuid ;;
  c <- gets (fun s => cpus s !! id) ;;
  match c with Some c => ret c | None => ub "cpus" end.
Definition upd_mycpu (f : cpu -> cpu) : M lkst unit :=
  modify (fun s => set_cpus (alter f (hart s)) s).

Definition set_noff (n : Z) (c : cpu) : cpu := Cpu (cpu_proc c) n (intena c).
Definition set_intena (b : bool) (c : cpu) : cpu := Cpu (cpu_proc c) (noff c) b.

Definition initlock (lk : lockid) : M lkst unit :=
  modify (set_locks (upd_lock lk (Spinlock false None))).

Definition holding (lk : lockid) : M lkst bool :=
  l <- gets (fun s => locks s lk) ;;
  c <- cpuid ;;
  ret (locked l && bool_decide (lk_cpu l = Some c)).

Definition push_off : M lkst unit :=
  old <- intr_get ;;
  intr_off ;;
  c <- mycpu ;;
  (when noff c =? 0 then upd_mycpu (set_intena old)) ;;
  c <- mycpu ;;
  upd_mycpu (set_noff (i32 (noff c + 1))).

Definition pop_off : M lkst unit :=
  c <- mycpu ;;
  on <- intr_get ;;
  if (on : bool) then panic "pop_off - interruptible"
  else if noff c <? 1 then panic "pop_off"
  else
    upd_mycpu (set_noff (noff c - 1)) ;;
    (when (noff c - 1 =? 0) && intena c then intr_on).

Definition acquire (lk : lockid) : M lkst unit :=
  push_off ;;
  h <- holding lk ;;
  if (h : bool) then panic "acquire"
  else
    l <- gets (fun s => locks s lk) ;;
    if locked l then fail (EBlock "acquire")
    else
      c <- cpuid ;;
      modify (set_locks (upd_lock lk (Spinlock true (Some c)))).

Definition release (lk : lockid) : M lkst unit :=
  h <- holding lk ;;
  if negb (h : bool) then panic "release"
  else
    modify (set_locks (upd_lock lk (Spinlock false None))) ;;
    pop_off.

End Ops.

(** ** Nested critical sections

    [crit ks] acquires the locks [ks] in order and releases them in the
    opposite order, as the kernel's critical sections do. *)
Fixpoint crit (ks : list lockid) : M lkst unit :=
  match ks with
  | [] => ret tt
  | k :: ks => bind (acquire k) (fun _ => bind (crit ks) (fun _ => release k))
  end.

(** The running hart's cpu structure exists, its nesting counter is in range,
    and interrupts are off inside critical sections. *)
Definition hart_ok (s : lkst) : Prop :=
  exists c, cpus s !! hart s = Some c /\ 0 <= noff c < 2 ^ 31 - 1 /\ (0 < noff c -> sie s = false).

(** No hart has the lock. *)
Definition lock_free (s : lkst) (l : lockid) : Prop := locks s l = Spinlock false None.

(** Same as before: harts, interrupt state and locks. *)
Definition lk_same (s s' : lkst) : Prop :=
  hart s' = hart s /\ sie s' = sie s /\ (forall l, locks s' l = locks s l) /\
  (forall i, i <> hart s -> cpus s' !! i = cpus s !! i) /\
  (forall c, cpus s !! hart s = Some c -> exists c', cpus s' !! hart s = Some c' /\
     cpu_proc c' = cpu_proc c /\ noff c' = noff c /\ (0 < noff c -> intena c' = intena c)).

(** ** Lemmas *)

(** [acquire] of a free lock, with everything it changes. *)
Definition acquired (lk : lockid) (s s' : lkst) : Prop :=
  hart s' = hart s /\ sie s' = false /\
  locks s' lk = Spinlock true (Some (hart s)) /\ (forall l, l <> lk -> locks s' l = locks s l) /\
  (forall i, i <> hart s -> cpus s' !! i = cpus s !! i) /\
  (forall c, cpus s !! hart s = Some c -> exists c', cpus s' !! hart s = Some c' /\
     cpu_proc c' = cpu_proc c /\ noff c' = noff c + 1 /\
     intena c' = (if noff c =? 0 then sie s else intena c)).

Lemma upd_lock_eq l v m : upd_lock l v m l = v.
Proof. unfold upd_lock. by rewrite decide_True. Qed.
Lemma upd_lock_ne l l' v m : l <> l' -> upd_lock l v m l' = m l'.
Proof. intros. unfold upd_lock. by rewrite decide_False. Qed.

Lemma mycpu_wp s c (Q : cpu -> lkst -> Prop) :
  cpus s !! hart s = Some c -> Q c s -> wp mycpu s Q.
Proof. intros Hc HQ. unfold mycpu, cpuid. wp_steps. rewrite Hc. by apply wp_ret. Qed.

Lemma holding_wp s l (Q : bool -> lkst -> Prop) :
  Q (locked (locks s l) && bool_decide (lk_cpu (locks s l) = Some (hart s))) s ->
  wp (holding l) s Q.
Proof. intros HQ. unfold holding, cpuid. by wp_steps. Qed.

(** The cpu structure after [push_off], and after the matching [pop_off]. *)
Definition pushed (on : bool) (c : cpu) : cpu :=
  Cpu (cpu_proc c) (noff c + 1) (if noff c =? 0 then on else intena c).

Lemma push_off_wp s c (Q : unit -> lkst -> Prop) :
  cpus s !! hart s = Some c -> 0 <= noff c < 2 ^ 31 - 1 ->
  Q tt (LkSt (alter (pushed (sie s)) (hart s) (cpus s)) (hart s) false (locks s)) ->
  wp push_off s Q.
Proof.
  intros Hc Hn HQ. unfold push_off, intr_get, intr_off. do 4 wp_step. apply wp_bind.
  apply (mycpu_wp _ c); [done|].
  assert (Hi : i32 (noff c + 1) = noff c + 1) by (apply i32_small; lia).
  destruct (noff c =? 0) eqn:E; unfold upd_mycpu; do 2 wp_step; apply wp_bind.
  - apply (mycpu_wp _ (set_intena (sie s) c)); [simpl; by rewrite list_lookup_alter_eq, Hc|].
    wp_step. unfold set_cpus. simpl. rewrite Hi, list_alter_alter_eq.
    erewrite list_alter_ext; [exact HQ| |done]. intros c'. rewrite Hc. intros [= <-].
    unfold pushed. simpl. by rewrite E.
  - apply (mycpu_wp _ c); [done|]. wp_step. unfold set_cpus. simpl. rewrite Hi.
    erewrite list_alter_ext; [exact HQ| |done]. intros c'. rewrite Hc. intros [= <-].
    unfold pushed, set_noff. by rewrite E.
Qed.

Lemma pop_off_wp s c (Q : unit -> lkst -> Prop) :
  cpus s !! hart s = Some c -> 0 < noff c -> sie s = false ->
  Q tt (LkSt (alter (set_noff (noff c - 1)) (hart s) (cpus s)) (hart s)
             ((noff c =? 1) && intena c) (locks s)) ->
  wp pop_off s Q.
Proof.
  intros Hc Hn Hs HQ. unfold pop_off, intr_get. wp_step. apply (mycpu_wp _ c); [done|].
  do 2 wp_step. rewrite Hs, (proj2 (Z.ltb_ge _ _)) by lia. unfold upd_mycpu, intr_on.
  do 2 wp_step. unfold set_cpus, set_sie in *. simpl.
  assert ((noff c - 1 =? 0) = (noff c =? 1)) as -> by (destruct (Z.eqb_spec (noff c) 1); lia).
  destruct (_ && _) eqn:E; wp_step; simpl; [exact HQ|]. by rewrite Hs.
Qed.

Lemma acquire_wp s lk (Q : unit -> lkst -> Prop) :
  hart_ok s -> lock_free s lk -> (forall s', acquired lk s s' -> Q tt s') -> wp (acquire lk) s Q.
Proof.
  intros (c & Hc & Hn & _) Hfree HQ. unfold acquire. wp_step. apply (push_off_wp s c); [done|done|].
  wp_step. apply holding_wp. cbn [locks]. rewrite Hfree. cbn [locked andb].
  do 2 wp_step. rewrite Hfree. cbn [locked]. unfold cpuid. wp_steps. apply HQ.
  unfold acquired, set_locks. cbn [hart sie locks cpus]. split_and!; try done.
  - apply upd_lock_eq.
  - intros l Hl. by apply upd_lock_ne.
  - intros i Hi. by rewrite list_lookup_alter_ne.
  - intros c0. rewrite Hc. intros [= <-]. exists (pushed (sie s) c).
    by rewrite list_lookup_alter_eq, Hc.
Qed.

(** Releasing a lock this hart holds, back to the state [s] it was acquired in. *)
Lemma release_wp s s' lk :
  hart_ok s -> lock_free s lk -> acquired lk s s' -> wp (release lk) s' (fun _ => lk_same s).
Proof.
  intros (c & Hc & Hn & Hoff) Hfree (Hh & Hs & Hl & Hls & Hcs & Hcc).
  destruct (Hcc c Hc) as (c' & Hc' & Hp & Hno & Hin).
  unfold release. wp_step. apply holding_wp. rewrite Hl, Hh. cbn [locked lk_cpu].
  rewrite bool_decide_eq_true_2 by done. cbn [andb negb]. do 2 wp_step.
  unfold set_locks. rewrite Hh, Hs in *.
  apply (pop_off_wp _ c'); cbn [cpus hart sie]; [done|lia|done|].
  unfold lk_same. cbn [cpus hart sie locks]. split_and!; try done.
  - rewrite Hno, Hin. destruct (Z.eqb_spec (noff c) 0) as [E|E].
    + by rewrite (proj2 (Z.eqb_eq _ _)) by lia.
    + rewrite (proj2 (Z.eqb_neq _ _)) by lia. simpl. symmetry. apply Hoff. lia.
  - intros l. destruct (decide (lk = l)) as [<-|Hne]; [by rewrite upd_lock_eq, Hfree|].
    rewrite upd_lock_ne by done. by apply Hls.
  - intros i Hi. rewrite list_lookup_alter_ne by done. by apply Hcs.
  - intros c0. rewrite Hc. intros [= <-]. rewrite list_lookup_alter_eq, Hc'. simpl.
    eexists. split; [done|]. unfold set_noff. simpl. split_and!; [done|lia|].
    intros Hpos. rewrite Hin. by rewrite (proj2 (Z.eqb_neq _ _)) by lia.
Qed.

Lemma lk_same_refl s : lk_same s s.
Proof. unfold lk_same. split_and!; try done. intros c Hc. eauto 10. Qed.

Lemma lk_same_trans s1 s2 s3 : lk_same s1 s2 -> lk_same s2 s3 -> lk_same s1 s3.
Proof.
  intros (A1 & A2 & A3 & A4 & A5) (B1 & B2 & B3 & B4 & B5). rewrite A1 in *.
  split_and!; try congruence.
  - intros i Hi. rewrite B4 by done. auto.
  - intros c Hc. destruct (A5 c Hc) as (c2 & Hc2 & P2 & N2 & I2).
    destruct (B5 c2 Hc2) as (c3 & Hc3 & P3 & N3 & I3). exists c3.
    split_and!; [done|congruence|congruence|]. intros Hn. rewrite I3 by lia. auto.
Qed.

Lemma lk_same_hart_ok s s' : lk_same s s' -> hart_ok s -> hart_ok s'.
Proof.
  intros (A1 & A2 & A3 & A4 & A5) (c & Hc & Hn & Hi). destruct (A5 c Hc) as (c' & Hc' & _ & Hn' & _).
  exists c'. rewrite A1, A2, Hn'. done.
Qed.

Lemma lk_same_free s s' l : lk_same s s' -> lock_free s l -> lock_free s' l.
Proof. intros (_ & _ & A3 & _) Hl. unfold lock_free. by rewrite A3. Qed.

Lemma acquired_same lk s s1 s2 c :
  cpus s !! hart s = Some c -> 0 <= noff c -> acquired lk s s1 -> lk_same s1 s2 -> acquired lk s s2.
Proof.
  intros Hc Hn (Hh & Hs & Hl & Hls & Hcs & Hcc) (Eh & Es & El & Ecs & Ecc).
  rewrite Hh in *. split_and!; try congruence.
  - intros l Hne. rewrite El. auto.
  - intros i Hi. rewrite Ecs by done. auto.
  - intros c0 Hc0. destruct (Hcc c0 Hc0) as (c1 & Hc1 & Hp1 & Hn1 & Hi1).
    destruct (Ecc c1 Hc1) as (c2 & Hc2 & Hp2 & Hn2 & Hi2). exists c2.
    rewrite Hc in Hc0. injection Hc0 as <-.
    split_and!; [done|congruence|congruence|]. rewrite Hi2 by lia. done.
Qed.

Lemma acquired_hart_ok lk s s1 c :
  cpus s !! hart s = Some c -> 0 <= noff c < 2 ^ 31 - 2 -> acquired lk s s1 ->
  hart_ok s1 /\ exists c1, cpus s1 !! hart s1 = Some c1 /\ noff c1 = noff c + 1.
Proof.
  intros Hc Hn (Hh & Hs & _ & _ & _ & Hcc). destruct (Hcc c Hc) as (c1 & Hc1 & _ & Hn1 & _).
  rewrite <- Hh in Hc1. split; [|eauto]. exists c1. split_and!; [done|lia|lia|done].
Qed.

Lemma crit_wp ks s c :
  NoDup ks -> (forall k, k ∈ ks -> lock_free s k) -> hart_ok s ->
  cpus s !! hart s = Some c -> noff c + Z.of_nat (length ks) < 2 ^ 31 - 1 ->
  wp (crit ks) s (fun _ => lk_same s).
Proof.
  revert s c. induction ks as [|k ks IH]; intros s c Hnd Hfree Hok Hc Hlen; cbn [crit].
  { apply wp_ret. unfold lk_same. split_and!; try done. intros c0 Hc0. eauto 10. }
  apply NoDup_cons in Hnd as [Hk Hnd]. wp_step.
  assert (Hn : 0 <= noff c) by (destruct Hok as (c0 & Hc0 & ? & _); congruence || (rewrite Hc in Hc0; injection Hc0 as <-; lia)).
  simpl length in Hlen. apply acquire_wp; [done|apply Hfree; left|]. intros s1 Hacq.
  destruct (acquired_hart_ok k s s1 c) as [Hok1 (c1 & Hc1 & Hn1)]; [done|lia|done|].
  wp_step. eapply wp_mono; [apply (IH s1 c1); try done; [|lia]|].
  - intros k' Hk'. unfold lock_free. destruct Hacq as (_ & _ & _ & Hls & _).
    rewrite Hls by (intros ->; done). apply Hfree. by right.
  - intros [] s2 Hsame. apply (release_wp s); [done|apply Hfree; left|].
    by apply (acquired_same k s s1 s2 c).
Qed.

Lemma acquired_from_same lk s s0 s1 : lk_same s s0 -> acquired lk s0 s1 -> hart_ok s -> acquired lk s s1.
Proof.
  intros (A1 & A2 & A3 & A4 & A5) (B1 & B2 & B3 & B4 & B5 & B6) (c & Hc & Hn & _).
  rewrite A1 in *. split_and!; try done; try congruence.
  - intros l Hl. rewrite B4 by done. auto.
  - intros i Hi. rewrite B5 by done. auto.
  - intros c1 Hc1. rewrite Hc in Hc1. injection Hc1 as <-.
    destruct (A5 c Hc) as (c0 & Hc0 & P0 & N0 & I0).
    destruct (B6 c0 Hc0) as (c2 & Hc2 & P2 & N2 & I2). exists c2.
    split_and!; [done|congruence|congruence|]. rewrite I2, N0, A2.
    destruct (Z.eqb_spec (noff c) 0); [done|]. apply I0. lia.
Qed.

(** Releasing the outer of two locks, as [sleep] and [exit] do, leaves a hart
    that has acquired only the inner one. *)
Lemma release_swap lk1 lk2 s s1 s1' s2 :
  lk1 <> lk2 -> hart_ok s -> lock_free s lk1 ->
  acquired lk1 s s1 -> lk_same s1 s1' -> acquired lk2 s1' s2 ->
  wp (release lk1) s2 (fun _ s3 => acquired lk2 s s3).
Proof.
  intros Hne (c & Hc & Hn & Hoff) Hfree Ha Hs1 Hb.
  pose proof (acquired_same lk1 s s1 s1' c Hc ltac:(lia) Ha Hs1) as (Hh & Hs & Hl & Hls & Hcs & Hcc).
  destruct (Hcc c Hc) as (c1 & Hc1 & Hp1 & Hn1 & Hi1).
  destruct Hb as (Eh & Es & El & Els & Ecs & Ecc). rewrite Hh in *.
  destruct (Ecc c1 Hc1) as (c2 & Hc2 & Hp2 & Hn2 & Hi2). rewrite <- Eh in Hc2.
  unfold release. wp_step. apply holding_wp. rewrite Els, Hl, Eh by done. cbn [locked lk_cpu].
  rewrite bool_decide_eq_true_2 by done. cbn [andb negb]. do 2 wp_step. unfold set_locks.
  apply (pop_off_wp _ c2); cbn [cpus hart sie]; [done|lia|done|].
  rewrite (proj2 (Z.eqb_neq _ _)) by lia. unfold acquired. cbn [cpus hart sie locks andb].
  rewrite Eh. split_and!; try done.
  - by rewrite upd_lock_ne, El.
  - intros l Hl'. destruct (decide (lk1 = l)) as [<-|Hne'].
    + by rewrite upd_lock_eq, Hfree.
    + rewrite upd_lock_ne by done. rewrite Els by done. by apply Hls.
  - intros i Hi. rewrite list_lookup_alter_ne by done. rewrite Ecs by done. by apply Hcs.
  - intros c0. rewrite Hc. intros [= <-]. rewrite list_lookup_alter_eq, <- Eh, Hc2. simpl.
    eexists. split; [done|]. unfold set_noff. simpl. split_and!; [congruence|lia|].
    rewrite Hi2, (proj2 (Z.eqb_neq _ _)) by lia. done.
Qed.

(** Misuse is caught. *)
Lemma acquire_held_panics s lk c :
  cpus s !! hart s = Some c -> 0 <= noff c < 2 ^ 31 - 1 ->
  locks s lk = Spinlock true (Some (hart s)) -> acquire lk s = Fail (EPanic "acquire").
Proof.
  intros Hc Hn Hl.
  assert (Hw : wp push_off s (fun _ s' => locks s' = locks s /\ hart s' = hart s)).
  { by apply (push_off_wp s c). }
  apply wp_ok in Hw as ([] & s' & E & El & Eh).
  unfold acquire, bind at 1. rewrite E. unfold bind, holding, cpuid, gets, ret. simpl.
  rewrite El, Hl, Eh. simpl. by rewrite bool_decide_eq_true_2.
Qed.

Lemma release_free_panics s lk :
  ~ (locked (locks s lk) = true /\ lk_cpu (locks s lk) = Some (hart s)) ->
  release lk s = Fail (EPanic "release").
Proof.
  intros Hn. unfold release, bind, holding, cpuid, gets, ret. simpl.
  destruct (locked (locks s lk)); simpl; [|done].
  rewrite bool_decide_eq_false_2; [done|]. tauto.
Qed.

(** ** Main theorem *)

(** C33: locks taken in any nested order by a hart that holds none of them are
    all acquired and released without a panic; afterwards the locks, the
    nesting depth and the interrupt-enable state are what they were.  A hart
    that acquires a lock it holds, or releases one it does not hold, panics. *)
Theorem spinlock_nesting (ks : list lockid) (s : lkst) (c : cpu) (lk : lockid)
    (Hok : hart_ok s) (Hc : cpus s !! hart s = Some c)
    (Hlen : noff c + Z.of_nat (length ks) < 2 ^ 31 - 1)
    (Hnd : NoDup ks) (Hfree : forall k, k ∈ ks -> lock_free s k) :
  wp (crit ks) s (fun _ => lk_same s) /\
  (locks s lk = Spinlock true (Some (hart s)) -> acquire lk s = Fail (EPanic "acquire")) /\
  (~ (locked (locks s lk) = true /\ lk_cpu (locks s lk) = Some (hart s)) ->
   release lk s = Fail (EPanic "release")).
Proof.
  split_and!; [by apply (crit_wp ks s c)| |apply release_free_panics].
  destruct Hok as (c0 & Hc0 & Hn & _). by apply (acquire_held_panics s lk c0).
Qed.

Lemma spinlock_nesting_witness :
  let s := LkSt [Cpu None 0 false] 0 true (fun _ => Spinlock false None) in
  wp (crit [WaitLock; ProcLock 3; PidLock]) s (fun _ => lk_same s) /\
  release PidLock s = Fail (EPanic "release").
Proof.
  intros s.
  destruct (spinlock_nesting [WaitLock; ProcLock 3; PidLock] s (Cpu None 0 false) PidLock)
    as (H1 & _ & H3).
  - exists (Cpu None 0 false). repeat split; simpl; lia || done.
  - reflexivity.
  - simpl. lia.
  - apply (bool_decide_unpack _). vm_compute. exact I.
  - intros k _. reflexivity.
  - split; [exact H1|]. apply H3. simpl. intros [? ?]. congruence.
Defined.
