(* ===== verification/Proc.v ===== *)
(** * Processes

    [kernel/proc.c], with [struct proc] of [kernel/proc.h].  Members of
    [struct proc] whose address the code takes ([xstate], [exit_msg] and
    [name]) live in memory at their place in the array [proc]; the others are
    a record.  A pointer into [proc] is an index.  [swtch] splits a routine in
    two: the part that runs up to the switch to the scheduler and the part
    that runs when the process is switched to again.

    Files and inodes are reached through the interface [FileOps]. *)

From S2P Require Import Prelude Riscv Mem CString Kalloc Vm Spinlock.

(** ** Data *)

Inductive procstate := UNUSED | USED | SLEEPING | RUNNABLE | RUNNING | ZOMBIE.

#[export] Instance procstate_eq_dec : EqDecision procstate.
Proof. solve_decision. Defined.

Record proc := Proc {
  state : procstate;
  chan : Z;
  p_killed : Z;
  pid : Z;
  accumulator : Z;
  ps_priority : Z;
  cfs_priority : Z;
  rtime : Z;
  stime : Z;
  retime : Z;
  parent : option nat;
  kstack : Z;
  sz : Z;
  pagetable : Z;
  trapframe : Z;
  context_ra : Z;
  context_sp : Z;
  ofile : list Z;
  cwd : Z;
}.

Definition with_state (v : procstate) (p : proc) : proc :=
  Proc v (chan p) (p_killed p) (pid p) (accumulator p) (ps_priority p) (cfs_priority p) (rtime p)
    (stime p) (retime p) (parent p) (kstack p) (sz p) (pagetable p) (trapframe p) (context_ra p)
    (context_sp p) (ofile p) (cwd p).
Definition with_chan (v : Z) (p : proc) : proc :=
  Proc (state p) v (p_killed p) (pid p) (accumulator p) (ps_priority p) (cfs_priority p) (rtime p)
    (stime p) (retime p) (parent p) (kstack p) (sz p) (pagetable p) (trapframe p) (context_ra p)
    (context_sp p) (ofile p) (cwd p).
Definition with_killed (v : Z) (p : proc) : proc :=
  Proc (state p) (chan p) v (pid p) (accumulator p) (ps_priority p) (cfs_priority p) (rtime p)
    (stime p) (retime p) (parent p) (kstack p) (sz p) (pagetable p) (trapframe p) (context_ra p)
    (context_sp p) (ofile p) (cwd p).
Definition with_pid (v : Z) (p : proc) : proc :=
  Proc (state p) (chan p) (p_killed p) v (accumulator p) (ps_priority p) (cfs_priority p)
    (rtime p) (stime p) (retime p) (parent p) (kstack p) (sz p) (pagetable p) (trapframe p)
    (context_ra p) (context_sp p) (ofile p) (cwd p).
Definition with_accumulator (v : Z) (p : proc) : proc :=
  Proc (state p) (chan p) (p_killed p) (pid p) v (ps_priority p) (cfs_priority p) (rtime p)
    (stime p) (retime p) (parent p) (kstack p) (sz p) (pagetable p) (trapframe p) (context_ra p)
    (context_sp p) (ofile p) (cwd p).
Definition with_ps_priority (v : Z) (p : proc) : proc :=
  Proc (state p) (chan p) (p_killed p) (pid p) (accumulator p) v (cfs_priority p) (rtime p)
    (stime p) (retime p) (parent p) (kstack p) (sz p) (pagetable p) (trapframe p) (context_ra p)
    (context_sp p) (ofile p) (cwd p).
Definition with_cfs_priority (v : Z) (p : proc) : proc :=
  Proc (state p) (chan p) (p_killed p) (pid p) (accumulator p) (ps_priority p) v (rtime p)
    (stime p) (retime p) (parent p) (kstack p) (sz p) (pagetable p) (trapframe p) (context_ra p)
    (context_sp p) (ofile p) (cwd p).
Definition with_rtime (v : Z) (p : proc) : proc :=
  Proc (state p) (chan p) (p_killed p) (pid p) (accumulator p) (ps_priority p) (cfs_priority p) v
    (stime p) (retime p) (parent p) (kstack p) (sz p) (pagetable p) (trapframe p) (context_ra p)
    (context_sp p) (ofile p) (cwd p).
Definition with_stime (v : Z) (p : proc) : proc :=
  Proc (state p) (chan p) (p_killed p) (pid p) (accumulator p) (ps_priority p) (cfs_priority p)
    (rtime p) v (retime p) (parent p) (kstack p) (sz p) (pagetable p) (trapframe p) (context_ra p)
    (context_sp p) (ofile p) (cwd p).
Definition with_retime (v : Z) (p : proc) : proc :=
  Proc (state p) (chan p) (p_killed p) (pid p) (accumulator p) (ps_priority p) (cfs_priority p)
    (rtime p) (stime p) v (parent p) (kstack p) (sz p) (pagetable p) (trapframe p) (context_ra p)
    (context_sp p) (ofile p) (cwd p).
Definition with_parent (v : option nat) (p : proc) : proc :=
  Proc (state p) (chan p) (p_killed p) (pid p) (accumulator p) (ps_priority p) (cfs_priority p)
    (rtime p) (stime p) (retime p) v (kstack p) (sz p) (pagetable p) (trapframe p) (context_ra p)
    (context_sp p) (ofile p) (cwd p).
Definition with_kstack (v : Z) (p : proc) : proc :=
  Proc (state p) (chan p) (p_killed p) (pid p) (accumulator p) (ps_priority p) (cfs_priority p)
    (rtime p) (stime p) (retime p) (parent p) v (sz p) (pagetable p) (trapframe p) (context_ra p)
    (context_sp p) (ofile p) (cwd p).
Definition with_sz (v : Z) (p : proc) : proc :=
  Proc (state p) (chan p) (p_killed p) (pid p) (accumulator p) (ps_priority p) (cfs_priority p)
    (rtime p) (stime p) (retime p) (parent p) (kstack p) v (pagetable p) (trapframe p)
    (context_ra p) (context_sp p) (ofile p) (cwd p).
Definition with_pagetable (v : Z) (p : proc) : proc :=
  Proc (state p) (chan p) (p_killed p) (pid p) (accumulator p) (ps_priority p) (cfs_priority p)
    (rtime p) (stime p) (retime p) (parent p) (kstack p) (sz p) v (trapframe p) (context_ra p)
    (context_sp p) (ofile p) (cwd p).
Definition with_trapframe (v : Z) (p : proc) : proc :=
  Proc (state p) (chan p) (p_killed p) (pid p) (accumulator p) (ps_priority p) (cfs_priority p)
    (rtime p) (stime p) (retime p) (parent p) (kstack p) (sz p) (pagetable p) v (context_ra p)
    (context_sp p) (ofile p) (cwd p).
Definition with_context_ra (v : Z) (p : proc) : proc :=
  Proc (state p) (chan p) (p_killed p) (pid p) (accumulator p) (ps_priority p) (cfs_priority p)
    (rtime p) (stime p) (retime p) (parent p) (kstack p) (sz p) (pagetable p) (trapframe p) v
    (context_sp p) (ofile p) (cwd p).
Definition with_context_sp (v : Z) (p : proc) : proc :=
  Proc (state p) (chan p) (p_killed p) (pid p) (accumulator p) (ps_priority p) (cfs_priority p)
    (rtime p) (stime p) (retime p) (parent p) (kstack p) (sz p) (pagetable p) (trapframe p)
    (context_ra p) v (ofile p) (cwd p).
Definition with_ofile (v : list Z) (p : proc) : proc :=
  Proc (state p) (chan p) (p_killed p) (pid p) (accumulator p) (ps_priority p) (cfs_priority p)
    (rtime p) (stime p) (retime p) (parent p) (kstack p) (sz p) (pagetable p) (trapframe p)
    (context_ra p) (context_sp p) v (cwd p).
Definition with_cwd (v : Z) (p : proc) : proc :=
  Proc (state p) (chan p) (p_killed p) (pid p) (accumulator p) (ps_priority p) (cfs_priority p)
    (rtime p) (stime p) (retime p) (parent p) (kstack p) (sz p) (pagetable p) (trapframe p)
    (context_ra p) (context_sp p) (ofile p) v.

Record pst (F : Type) := PSt {
  pk : kst;                  (** memory and the page allocator *)
  procs : list proc;         (** proc[NPROC] *)
  initproc : option nat;
  nextpid : Z;
  ticks : Z;
  plk : lkst;                (** cpus and spin locks *)
  pfs : F;
}.
Arguments PSt {F}.
Arguments pk {F}. Arguments procs {F}. Arguments initproc {F}. Arguments nextpid {F}.
Arguments ticks {F}. Arguments plk {F}. Arguments pfs {F}.

Definition set_pk {F} (v : kst) (s : pst F) : pst F :=
  PSt v (procs s) (initproc s) (nextpid s) (ticks s) (plk s) (pfs s).
Definition set_procs {F} (v : list proc) (s : pst F) : pst F :=
  PSt (pk s) v (initproc s) (nextpid s) (ticks s) (plk s) (pfs s).
Definition set_initproc {F} (v : option nat) (s : pst F) : pst F :=
  PSt (pk s) (procs s) v (nextpid s) (ticks s) (plk s) (pfs s).
Definition set_nextpid {F} (v : Z) (s : pst F) : pst F :=
  PSt (pk s) (procs s) (initproc s) v (ticks s) (plk s) (pfs s).
Definition set_ticks {F} (v : Z) (s : pst F) : pst F :=
  PSt (pk s) (procs s) (initproc s) (nextpid s) v (plk s) (pfs s).
Definition set_plk {F} (v : lkst) (s : pst F) : pst F :=
  PSt (pk s) (procs s) (initproc s) (nextpid s) (ticks s) v (pfs s).
Definition set_pfs {F} (v : F) (s : pst F) : pst F :=
  PSt (pk s) (procs s) (initproc s) (nextpid s) (ticks s) (plk s) v.

(** What [proc.c] uses of [file.c], [fs.c] and [log.c]; a file or inode
    pointer is an address, 0 being null. *)
Class FileOps (F : Type) := {
  fo_filedup : Z -> M (pst F) Z;
  fo_fileclose : Z -> M (pst F) unit;
  fo_idup : Z -> M (pst F) Z;
  fo_iput : Z -> M (pst F) unit;
  fo_begin_op : M (pst F) unit;
  fo_end_op : M (pst F) unit;
  fo_namei_root : M (pst F) Z;     (** namei("/") *)
}.

Definition INT_MAX : Z := 2147483647.
Definition nproc : nat := 64.

(** Offsets in [struct proc] and [struct trapframe]. *)
Definition OFF_xstate : Z := 44.
Definition OFF_exit_msg : Z := 52.
Definition OFF_name : Z := 416.
Definition TF_epc : Z := 24.
Definition TF_sp : Z := 48.
Definition TF_a0 : Z := 112.
Definition SIZEOF_TRAPFRAME : Z := 288.

Section Proc.
Context `{Linker} {F : Type} `{FileOps F}.
Local Open Scope kernel_scope.

Abbreviation P := (M (pst F)).

(** &proc[i], and a pointer as a sleep channel. *)
Definition paddr (i : nat) : Z := proc_base + Z.of_nat i * SIZEOF_PROC.
Definition ptr_chan (p : option nat) : Z := match p with Some i => paddr i | None => 0 end.

Definition inmem {A} (c : M kst A) : P A := zoom pk set_pk c.
Definition inlk {A} (c : M lkst A) : P A := zoom plk set_plk c.
Definition infs {A} (c : M F A) : P A := zoom pfs set_pfs c.
Definition phys_wr (f : mem -> mem) : P unit := inmem (modify (set_phys f)).

(** proc[i], and an assignment to one of its members. *)
Definition getp (i : nat) : P proc :=
  o <- gets (fun s => procs s !! i) ;;
  match o with Some p => ret p | None => ub "proc[]" end.
Definition updp (i : nat) (f : proc -> proc) : P unit :=
  getp i ;; modify (fun s => set_procs (alter f i (procs s)) s).
Definition deref (p : option nat) : P nat :=
  match p with Some i => ret i | None => ub "null pointer" end.

Definition myproc : P (option nat) :=
  inlk push_off ;;
  c <- inlk mycpu ;;
  inlk pop_off ;;
  ret (cpu_proc c).

Definition allocpid : P Z :=
  inlk (acquire PidLock) ;;
  p <- gets nextpid ;;
  modify (set_nextpid (i32 (p + 1))) ;;
  inlk (release PidLock) ;;
  ret p.

Definition freeproc (i : nat) : P unit :=
  p <- getp i ;;
  (when ctrue (trapframe p) then inmem (kfree (trapframe p))) ;;
  updp i (with_trapframe 0) ;;
  (when ctrue (pagetable p) then inmem (proc_freepagetable (pagetable p) (sz p))) ;;
  updp i (with_pagetable 0) ;;
  updp i (with_sz 0) ;;
  updp i (with_pid 0) ;;
  updp i (with_parent None) ;;
  phys_wr (fun m => wr m (paddr i + OFF_name) 0) ;;
  updp i (with_chan 0) ;;
  updp i (with_killed 0) ;;
  phys_wr (fun m => store32 m (paddr i + OFF_xstate) 0) ;;
  updp i (with_state UNUSED) ;;
  updp i (with_accumulator (-1)) ;;
  updp i (with_ps_priority 0).

(** The search loop of [allocproc]: the first [UNUSED] slot, its lock held. *)
Fixpoint find_unused (ps : list nat) : P (option nat) :=
  match ps with
  | [] => ret None
  | i :: ps =>
      inlk (acquire (ProcLock i)) ;;
      p <- getp i ;;
      if decide (state p = UNUSED) then ret (Some i)
      else inlk (release (ProcLock i)) ;; find_unused ps
  end.

Definition allocproc : P (option nat) :=
  r <- find_unused (seq 0 nproc) ;;
  match r with
  | None => ret None
  | Some i =>
      pd <- allocpid ;;
      updp i (with_pid pd) ;;
      updp i (with_state USED) ;;
      tf <- inmem kalloc ;;
      updp i (with_trapframe tf) ;;
      if tf =? 0 then freeproc i ;; inlk (release (ProcLock i)) ;; ret None
      else
        pt <- inmem (proc_pagetable tf) ;;
        updp i (with_pagetable pt) ;;
        if pt =? 0 then freeproc i ;; inlk (release (ProcLock i)) ;; ret None
        else
          p <- getp i ;;
          updp i (with_context_ra forkret) ;;
          updp i (with_context_sp (u64 (kstack p + PGSIZE))) ;;
          ret (Some i)
  end.

Fixpoint procinit_loop (ps : list nat) : P unit :=
  match ps with
  | [] => ret tt
  | i :: ps =>
      inlk (initlock (ProcLock i)) ;;
      updp i (with_state UNUSED) ;;
      updp i (with_kstack (KSTACK (Z.of_nat i))) ;;
      updp i (with_ps_priority 0) ;;
      updp i (with_accumulator (-1)) ;;
      procinit_loop ps
  end.
Definition procinit : P unit :=
  inlk (initlock PidLock) ;;
  inlk (initlock WaitLock) ;;
  procinit_loop (seq 0 nproc).

Fixpoint proc_mapstacks_loop (ps : list nat) (kpgtbl : Z) : M kst unit :=
  match ps with
  | [] => ret tt
  | i :: ps =>
      pa <- kalloc ;;
      if pa =? 0 then panic "kalloc"
      else
        kvmmap kpgtbl (KSTACK (Z.of_nat i)) pa PGSIZE (Z.lor PTE_R PTE_W) ;;
        proc_mapstacks_loop ps kpgtbl
  end.
Definition proc_mapstacks (kpgtbl : Z) : M kst unit := proc_mapstacks_loop (seq 0 nproc) kpgtbl.

(** The bytes of the name [initcode] as [safestrcpy] leaves them. *)
Definition initcode_name : list Z := [105; 110; 105; 116; 99; 111; 100; 101; 0; 0].

Definition userinit : P unit :=
  r <- allocproc ;;
  modify (set_initproc r) ;;
  i <- deref r ;;
  p <- getp i ;;
  inmem (uvmfirst (pagetable p) initcode 52) ;;
  updp i (with_sz PGSIZE) ;;
  phys_wr (fun m => store64 m (trapframe p + TF_epc) 0) ;;
  phys_wr (fun m => store64 m (trapframe p + TF_sp) PGSIZE) ;;
  phys_wr (fun m => wr_bytes m (paddr i + OFF_name) initcode_name) ;;
  ip <- fo_namei_root ;;
  updp i (with_cwd ip) ;;
  updp i (with_state RUNNABLE) ;;
  inlk (release (ProcLock i)).

Definition growproc (n : Z) : P Z :=
  r <- myproc ;;
  i <- deref r ;;
  p <- getp i ;;
  if 0 <? n then
    sz' <- inmem (uvmalloc (pagetable p) (sz p) (u64 (sz p + n)) PTE_W) ;;
    if sz' =? 0 then ret (-1) else updp i (with_sz sz') ;; ret 0
  else if n <? 0 then
    sz' <- inmem (uvmdealloc (pagetable p) (sz p) (u64 (sz p + n))) ;;
    updp i (with_sz sz') ;; ret 0
  else updp i (with_sz (sz p)) ;; ret 0.

Definition is_running (p : proc) : bool :=
  bool_decide (state p = RUNNABLE) || bool_decide (state p = RUNNING).

(** The loop of [set_accumulator] over the table. *)
Fixpoint set_accumulator_loop (js : list nat) (np : nat) : P unit :=
  match js with
  | [] => ret tt
  | j :: js =>
      pj <- getp j ;;
      pn <- getp np ;;
      (when is_running pj && (accumulator pj <? accumulator pn)
       then updp np (with_accumulator (accumulator pj))) ;;
      set_accumulator_loop js np
  end.
Definition set_accumulator (np : nat) : P unit :=
  updp np (with_accumulator INT_MAX) ;;
  set_accumulator_loop (seq 0 nproc) np ;;
  pn <- getp np ;;
  (when accumulator pn =? INT_MAX then updp np (with_accumulator 0)).

(** The loop of [fork] over the open files. *)
Fixpoint fork_files (fds : list nat) (p np : nat) : P unit :=
  match fds with
  | [] => ret tt
  | fd :: fds =>
      pp <- getp p ;;
      match ofile pp !! fd with
      | None => ub "ofile[]"
      | Some f =>
          (when ctrue f then
             f' <- fo_filedup f ;;
             updp np (fun q => with_ofile (<[fd := f']> (ofile q)) q)) ;;
          fork_files fds p np
      end
  end.

Definition fork : P Z :=
  r <- myproc ;;
  i <- deref r ;;
  a <- allocproc ;;
  match a with
  | None => ret (-1)
  | Some np =>
      p <- getp i ;;
      q <- getp np ;;
      c <- inmem (uvmcopy (pagetable p) (pagetable q) (sz p)) ;;
      if c <? 0 then freeproc np ;; inlk (release (ProcLock np)) ;; ret (-1)
      else
        updp np (with_sz (sz p)) ;;
        phys_wr (fun m => memmove m (trapframe q) (trapframe p) SIZEOF_TRAPFRAME) ;;
        phys_wr (fun m => store64 m (trapframe q + TF_a0) 0) ;;
        fork_files (seq 0 16) i np ;;
        ip <- fo_idup (cwd p) ;;
        updp np (with_cwd ip) ;;
        phys_wr (fun m => safestrcpy m (paddr np + OFF_name) (paddr i + OFF_name) 16) ;;
        q <- getp np ;;
        let pd := pid q in
        inlk (release (ProcLock np)) ;;
        inlk (acquire WaitLock) ;;
        updp np (with_parent (Some i)) ;;
        inlk (release WaitLock) ;;
        inlk (acquire (ProcLock np)) ;;
        updp np (with_ps_priority 5) ;;
        set_accumulator np ;;
        updp np (with_retime 0) ;;
        updp np (with_rtime 0) ;;
        updp np (with_stime 0) ;;
        p <- getp i ;;
        updp np (with_cfs_priority (cfs_priority p)) ;;
        updp np (with_state RUNNABLE) ;;
        inlk (release (ProcLock np)) ;;
        ret pd
  end.

Fixpoint wakeup_loop (ps : list nat) (ch : Z) : P unit :=
  match ps with
  | [] => ret tt
  | i :: ps =>
      me <- myproc ;;
      (if decide (Some i = me) then ret tt
       else
         inlk (acquire (ProcLock i)) ;;
         p <- getp i ;;
         (when bool_decide (state p = SLEEPING) && (chan p =? ch) then
            updp i (with_state RUNNABLE) ;; set_accumulator i) ;;
         inlk (release (ProcLock i))) ;;
      wakeup_loop ps ch
  end.
Definition wakeup (ch : Z) : P unit := wakeup_loop (seq 0 nproc) ch.

Fixpoint reparent_loop (ps : list nat) (p : nat) : P unit :=
  match ps with
  | [] => ret tt
  | i :: ps =>
      pp <- getp i ;;
      (when bool_decide (parent pp = Some p) then
         ip <- gets initproc ;;
         updp i (with_parent ip) ;;
         wakeup (ptr_chan ip)) ;;
      reparent_loop ps p
  end.
Definition reparent (p : nat) : P unit := reparent_loop (seq 0 nproc) p.

(** [sched] up to its call of [swtch]; the value is the saved [intena]. *)
Definition sched_enter : P bool :=
  r <- myproc ;;
  i <- deref r ;;
  h <- inlk (holding (ProcLock i)) ;;
  if negb (h : bool) then panic "sched p->lock"
  else
    c <- inlk mycpu ;;
    if negb (noff c =? 1) then panic "sched locks"
    else
      p <- getp i ;;
      if decide (state p = RUNNING) then panic "sched running"
      else
        on <- inlk intr_get ;;
        if (on : bool) then panic "sched interruptible"
        else c <- inlk mycpu ;; ret (intena c).
(** [sched] after [swtch] has come back. *)
Definition sched_resume (intena : bool) : P unit := inlk (upd_mycpu (set_intena intena)).

(** The loop of [exit] that closes the open files. *)
Fixpoint exit_files (fds : list nat) (i : nat) : P unit :=
  match fds with
  | [] => ret tt
  | fd :: fds =>
      p <- getp i ;;
      match ofile p !! fd with
      | None => ub "ofile[]"
      | Some f =>
          (when ctrue f then
             fo_fileclose f ;;
             updp i (fun q => with_ofile (<[fd := 0]> (ofile q)) q)) ;;
          exit_files fds i
      end
  end.

(** The end of [exit], up to the switch to the scheduler, from which it does
    not return.  No page of the kernel is mapped at address 0: a null message
    cannot be read. *)
Definition exit_zombie (status msg : Z) (i : nat) : P bool :=
  (if msg =? 0 then ub "exit: msg" else phys_wr (fun m => strncpy m (paddr i + OFF_exit_msg) msg 32)) ;;
  phys_wr (fun m => store32 m (paddr i + OFF_xstate) status) ;;
  updp i (with_state ZOMBIE) ;;
  inlk (release WaitLock) ;;
  sched_enter.

Definition exit (status msg : Z) : P bool :=
  r <- myproc ;;
  ip <- gets initproc ;;
  if decide (r = ip) then panic "init exiting"
  else
    i <- deref r ;;
    exit_files (seq 0 16) i ;;
    p <- getp i ;;
    fo_begin_op ;;
    fo_iput (cwd p) ;;
    fo_end_op ;;
    updp i (with_cwd 0) ;;
    inlk (acquire WaitLock) ;;
    reparent i ;;
    p <- getp i ;;
    wakeup (ptr_chan (parent p)) ;;
    inlk (acquire (ProcLock i)) ;;
    exit_zombie status msg i.

Definition setkilled (i : nat) : P unit :=
  inlk (acquire (ProcLock i)) ;;
  updp i (with_killed 1) ;;
  inlk (release (ProcLock i)).

Definition killed (i : nat) : P Z :=
  inlk (acquire (ProcLock i)) ;;
  p <- getp i ;;
  inlk (release (ProcLock i)) ;;
  ret (p_killed p).

Fixpoint kill_loop (ps : list nat) (pd : Z) : P Z :=
  match ps with
  | [] => ret (-1)
  | i :: ps =>
      inlk (acquire (ProcLock i)) ;;
      p <- getp i ;;
      if pid p =? pd then
        updp i (with_killed 1) ;;
        (when bool_decide (state p = SLEEPING) then
           updp i (with_state RUNNABLE) ;;
           updp i (with_accumulator (i64 (accumulator p + ps_priority p)))) ;;
        inlk (release (ProcLock i)) ;;
        ret 0
      else inlk (release (ProcLock i)) ;; kill_loop ps pd
  end.
Definition kill (pd : Z) : P Z := kill_loop (seq 0 nproc) pd.

(** [sleep] up to the switch, and after it. *)
Definition sleep_enter (ch : Z) (lk : lockid) : P bool :=
  r <- myproc ;;
  i <- deref r ;;
  inlk (acquire (ProcLock i)) ;;
  inlk (release lk) ;;
  updp i (with_chan ch) ;;
  updp i (with_state SLEEPING) ;;
  sched_enter.
Definition sleep_resume (i : nat) (intena : bool) (lk : lockid) : P unit :=
  sched_resume intena ;;
  updp i (with_chan 0) ;;
  inlk (release (ProcLock i)) ;;
  inlk (acquire lk).

Definition yield_enter : P bool :=
  r <- myproc ;;
  i <- deref r ;;
  inlk (acquire (ProcLock i)) ;;
  p <- getp i ;;
  updp i (with_state RUNNABLE) ;;
  updp i (with_accumulator (i64 (accumulator p + ps_priority p))) ;;
  sched_enter.
Definition yield_resume (i : nat) (intena : bool) : P unit :=
  sched_resume intena ;; inlk (release (ProcLock i)).

(** One scan of [wait] over the table.  The three outcomes are a return
    value, and the end of the loop without and with children.  The 32 bytes
    of [exit_msg] are followed by four bytes of padding, which nothing
    writes: 36 is enough fuel for [strlen]. *)
Inductive scan_result := ScanRet (r : Z) | ScanEnd (havekids : bool).

Fixpoint wait_scan (ps : list nat) (me : nat) (addr msg : Z) (havekids : bool) : P scan_result :=
  match ps with
  | [] => ret (ScanEnd havekids)
  | i :: ps =>
      pp <- getp i ;;
      if decide (parent pp = Some me) then
        inlk (acquire (ProcLock i)) ;;
        p <- getp me ;;
        n <- gets (fun s => strlen 36 (phys (pk s)) (paddr i + OFF_exit_msg)) ;;
        len <- (match n with Some n => ret n | None => ub "strlen" end) ;;
        dst <- gets (fun s => rd (phys (pk s)) msg) ;;
        (** a failure only prints an error *)
        inmem (copyout (pagetable p) dst (paddr i + OFF_exit_msg) len) ;;
        pp <- getp i ;;
        if decide (state pp = ZOMBIE) then
          r <- (if ctrue addr then inmem (copyout (pagetable p) addr (paddr i + OFF_xstate) 4)
                else ret 0) ;;
          if r <? 0 then
            inlk (release (ProcLock i)) ;; inlk (release WaitLock) ;; ret (ScanRet (-1))
          else
            inlk (release (ProcLock i)) ;; inlk (release WaitLock) ;; ret (ScanRet (pid pp))
        else
          inlk (release (ProcLock i)) ;;
          wait_scan ps me addr msg true
      else wait_scan ps me addr msg havekids
  end.

(** One turn of the loop of [wait]: [Some] is the value it returns, [None]
    means that the process went to sleep on its own address, and the loop is
    entered again after [sleep_resume]. *)
Definition wait_turn (me : nat) (addr msg : Z) : P (option Z) :=
  r <- wait_scan (seq 0 nproc) me addr msg false ;;
  match r with
  | ScanRet v => ret (Some v)
  | ScanEnd havekids =>
      k <- (if negb havekids then ret 1 else killed me) ;;
      if ctrue k then inlk (release WaitLock) ;; ret (Some (-1))
      else sleep_enter (paddr me) WaitLock ;; ret None
  end.
Definition wait (addr msg : Z) : P (option Z) :=
  r <- myproc ;;
  me <- deref r ;;
  inlk (acquire WaitLock) ;;
  wait_turn me addr msg.

(** The selection loop of [scheduler]. *)
Fixpoint pick_loop (ps : list nat) (minAcc : Z) (toRun : option nat) : P (option nat) :=
  match ps with
  | [] => ret toRun
  | i :: ps =>
      p <- getp i ;;
      if is_running p && (accumulator p <? minAcc)
      then pick_loop ps (i32 (accumulator p)) (Some i)
      else pick_loop ps minAcc toRun
  end.
Definition pick : P (option nat) := pick_loop (seq 0 nproc) INT_MAX None.

Definition set_cpu_proc (p : option nat) (c : cpu) : cpu := Cpu p (noff c) (intena c).

(** One turn of the loop of [scheduler] up to [swtch].  The loop variable has
    gone past the last element, so the assignment through it is one to
    proc[NPROC]. *)
Definition scheduler_enter : P (option nat) :=
  inlk intr_on ;;
  toRun <- pick ;;
  match toRun with
  | None => ret None
  | Some r =>
      inlk (acquire (ProcLock r)) ;;
      updp nproc (with_state RUNNING) ;;
      inlk (upd_mycpu (set_cpu_proc (Some r))) ;;
      ret (Some r)
  end.
(** After [swtch]. *)
Definition scheduler_resume : P unit :=
  inlk (upd_mycpu (set_cpu_proc None)) ;;
  getp nproc ;;
  inlk (release (ProcLock nproc)).

Definition either_copyout (user_dst : bool) (dst src len : Z) : P Z :=
  r <- myproc ;;
  if user_dst then
    i <- deref r ;;
    p <- getp i ;;
    inmem (copyout (pagetable p) dst src len)
  else phys_wr (fun m => memmove m dst src len) ;; ret 0.
Definition either_copyin (dst : Z) (user_src : bool) (src len : Z) : P Z :=
  r <- myproc ;;
  if user_src then
    i <- deref r ;;
    p <- getp i ;;
    inmem (copyin (pagetable p) dst src len)
  else phys_wr (fun m => memmove m dst src len) ;; ret 0.

End Proc.
