(* ===== verification/ProcSpec.v ===== *)
(** * Specifications of the process routines

    The effect of each routine of [Proc] on the process table as a function
    of the table, with the lock and interrupt state given back. *)

From S2P Require Import Prelude Riscv Mem CString Kalloc Vm Spinlock Proc.

(** ** The process table *)

(** The floor of the accumulators: the least accumulator below [INT_MAX] of
    the running and runnable processes other than [np], 0 if there is none. *)
Fixpoint acc_scan (l : list proc) (i np : nat) (v : Z) : Z :=
  match l with
  | [] => v
  | p :: l => acc_scan l (S i) np
                (if bool_decide (i <> np) && is_running p && (accumulator p <? v)
                 then accumulator p else v)
  end.
Definition acc_floor (ps : list proc) (np : nat) : Z :=
  let v := acc_scan ps 0 np INT_MAX in if v =? INT_MAX then 0 else v.

(** What [wakeup] makes of the table. *)
Definition woken (v ch : Z) (me : option nat) (i : nat) (p : proc) : proc :=
  if bool_decide (Some i <> me) && bool_decide (state p = SLEEPING) && (chan p =? ch)
  then with_accumulator v (with_state RUNNABLE p) else p.

Definition wakeup_table (ch : Z) (me : option nat) (ps : list proc) : list proc :=
  imap (woken (acc_floor ps (length ps)) ch me) ps.

(** What [kill] makes of its victim. *)
Definition kill_proc (p : proc) : proc :=
  if decide (state p = SLEEPING)
  then with_accumulator (i64 (accumulator p + ps_priority p)) (with_state RUNNABLE (with_killed 1 p))
  else with_killed 1 p.

(** What [yield] makes of the process that calls it. *)
Definition yielded (p : proc) : proc :=
  with_accumulator (i64 (accumulator p + ps_priority p)) (with_state RUNNABLE p).

(** The choice of the scheduler. *)
Fixpoint pick_from (l : list proc) (i : nat) (v : Z) (r : option nat) : option nat :=
  match l with
  | [] => r
  | p :: l => if is_running p && (accumulator p <? v)
              then pick_from l (S i) (i32 (accumulator p)) (Some i)
              else pick_from l (S i) v r
  end.

Lemma acc_scan_spec l i np v :
  let w := acc_scan l i np v in
  w <= v /\
  (w = v \/ exists k p, l !! k = Some p /\ (i + k)%nat <> np /\ is_running p = true /\ accumulator p = w) /\
  (forall k p, l !! k = Some p -> (i + k)%nat <> np -> is_running p = true -> w <= accumulator p).
Proof.
  revert i v. induction l as [|p l IH]; intros i v; cbn [acc_scan].
  { split_and!; [lia|by left|]. intros k p. by rewrite lookup_nil. }
  set (v' := if bool_decide (i <> np) && is_running p && (accumulator p <? v)
             then accumulator p else v).
  destruct (IH (S i) v') as (H1 & H2 & H3).
  assert (Hv' : v' <= v /\ (v' = v \/ (i <> np /\ is_running p = true /\ accumulator p = v')) /\
                (i <> np -> is_running p = true -> v' <= accumulator p)).
  { unfold v'. destruct (bool_decide_reflect (i <> np)), (is_running p) eqn:E,
      (Z.ltb_spec (accumulator p) v); cbn [andb]; split_and!; try lia; auto; try done. }
  destruct Hv' as (Hle & Hv' & Hp). cbn zeta in *. split_and!; [lia| |].
  - destruct H2 as [H2|(k & q & Hk & Hne & Hr & Ha)].
    + destruct Hv' as [?|(? & ? & ?)]; [left; congruence|right]. exists 0%nat, p.
      rewrite Nat.add_0_r. split_and!; congruence || done.
    + right. exists (S k), q. rewrite Nat.add_succ_r. done.
  - intros [|k] q Hk Hne Hr.
    + injection Hk as <-. rewrite Nat.add_0_r in Hne. specialize (Hp Hne Hr). lia.
    + rewrite Nat.add_succ_r in Hne. by apply (H3 k).
Qed.

(** The floor is the least accumulator below [INT_MAX] of the others, or 0. *)
Lemma acc_floor_spec ps np :
  let v := acc_floor ps np in
  (exists k p, ps !! k = Some p /\ k <> np /\ is_running p = true /\ accumulator p = v /\ v < INT_MAX /\
     forall j q, ps !! j = Some q -> j <> np -> is_running q = true -> v <= accumulator q) \/
  (v = 0 /\ forall j q, ps !! j = Some q -> j <> np -> is_running q = true -> INT_MAX <= accumulator q).
Proof.
  unfold acc_floor. destruct (acc_scan_spec ps 0 np INT_MAX) as (H1 & H2 & H3). cbn zeta in *.
  destruct (Z.eqb_spec (acc_scan ps 0 np INT_MAX) INT_MAX) as [E|E]; [right|left].
  - split; [done|]. intros j q Hj Hne Hr. specialize (H3 j q Hj Hne Hr). lia.
  - destruct H2 as [?|(k & p & Hk & Hne & Hr & Ha)]; [done|]. exists k, p. split_and!; try done; lia.
Qed.

Lemma pick_from_spec l i v r :
  v <= INT_MAX -> (forall k p, l !! k = Some p -> is_running p = true -> - 2 ^ 31 <= accumulator p) ->
  (pick_from l i v r = r /\ forall k p, l !! k = Some p -> is_running p = true -> v <= accumulator p) \/
  (exists k p, l !! k = Some p /\ pick_from l i v r = Some (i + k)%nat /\
     is_running p = true /\ accumulator p < v /\
     forall j q, l !! j = Some q -> is_running q = true ->
       accumulator p <= accumulator q /\ ((j < k)%nat -> accumulator p < accumulator q)).
Proof.
  revert i v r. induction l as [|p l IH]; intros i v r Hv Hlo; cbn [pick_from].
  { left. split; [done|]. intros k p. by rewrite lookup_nil. }
  assert (Hlo' : forall k q, l !! k = Some q -> is_running q = true -> - 2 ^ 31 <= accumulator q)
    by (intros k; apply (Hlo (S k))).
  destruct (is_running p) eqn:Hr; [destruct (Z.ltb_spec (accumulator p) v) as [Hlt|Hge]|]; cbn [andb].
  - specialize (Hlo 0%nat p eq_refl Hr) as Hlo0. unfold INT_MAX in Hv.
    rewrite i32_small by lia.
    destruct (IH (S i) (accumulator p) (Some i)) as [[-> Hmin]|(k & q & Hk & -> & Hq & Hlt' & Hmin)];
      [unfold INT_MAX; lia|done|right|right].
    + exists 0%nat, p. rewrite Nat.add_0_r. split_and!; try done.
      intros [|j] q Hj Hq; [injection Hj as <-; split; lia|]. split; [by apply (Hmin j)|lia].
    + exists (S k), q. rewrite Nat.add_succ_r. split_and!; try done; [lia|].
      intros [|j] q' Hj Hq'; [injection Hj as <-; split; lia|].
      destruct (Hmin j q' Hj Hq') as [? Hf]. split; [done|]. intros. apply Hf. lia.
  - destruct (IH (S i) v r Hv Hlo') as [[-> Hmin]|(k & q & Hk & -> & Hq & Hlt' & Hmin)]; [left|right].
    + split; [done|]. intros [|j] q Hj Hq; [injection Hj as <-; lia|by apply (Hmin j)].
    + exists (S k), q. rewrite Nat.add_succ_r. split_and!; try done.
      intros [|j] q' Hj Hq'; [injection Hj as <-; split; lia|].
      destruct (Hmin j q' Hj Hq') as [? Hf]. split; [done|]. intros. apply Hf. lia.
  - destruct (IH (S i) v r Hv Hlo') as [[-> Hmin]|(k & q & Hk & -> & Hq & Hlt' & Hmin)]; [left|right].
    + split; [done|]. intros [|j] q Hj Hq; [injection Hj as <-; congruence|by apply (Hmin j)].
    + exists (S k), q. rewrite Nat.add_succ_r. split_and!; try done.
      intros [|j] q' Hj Hq'; [injection Hj as <-; congruence|].
      destruct (Hmin j q' Hj Hq') as [? Hf]. split; [done|]. intros. apply Hf. lia.
Qed.

(** The running hart is in order, runs the process [me] and holds [n] locks. *)
Definition runs (k : lkst) (me : option nat) (n : Z) : Prop :=
  hart_ok k /\ exists c, cpus k !! hart k = Some c /\ cpu_proc c = me /\ noff c = n /\
    n < 2 ^ 31 - 10.

(** The processes of the table are the same, but for some that were woken. *)
Definition woke_only (ps ps' : list proc) : Prop :=
  length ps' = length ps /\
  forall j p, ps !! j = Some p -> exists p', ps' !! j = Some p' /\
    (p' = p \/ exists v, state p = SLEEPING /\ p' = with_accumulator v (with_state RUNNABLE p)).

Lemma woke_only_refl ps : woke_only ps ps.
Proof. split; [done|]. eauto. Qed.

Lemma woke_only_trans ps1 ps2 ps3 : woke_only ps1 ps2 -> woke_only ps2 ps3 -> woke_only ps1 ps3.
Proof.
  intros [L1 H1] [L2 H2]. split; [congruence|]. intros j p Hp.
  destruct (H1 j p Hp) as (p2 & Hp2 & Hc). destruct (H2 j p2 Hp2) as (p3 & Hp3 & Hc').
  exists p3. split; [done|]. destruct Hc as [->|(v & Hs & ->)]; [done|].
  destruct Hc' as [->|(w & Hs' & ->)]; [eauto|done].
Qed.

(** ** The interface of the file layer *)

Section Files.
Context `{Linker} {F : Type}.
Implicit Types (s : pst F) (i : nat).

(** Kernel variables outside the buffer cache, and outside the pages that are
    handed out. *)
Definition kernel_var (a : Z) : Prop :=
  ~ (kend <= a < PHYSTOP) /\ ~ (bcache_addr <= a < bcache_addr + 24 + (NBUF + 1) * SIZEOF_BUF).

(** Process [i] runs on this hart and no spin lock is held. *)
Definition calm i s : Prop :=
  runs (plk s) (Some i) 0 /\ (forall l, lock_free (plk s) l) /\ length (procs s) = nproc /\ is_Some (procs s !! i).

(** What a call may change besides files: memory of the cache and of pages,
    and sleeping processes may be woken. *)
Definition fo_frame i s s' : Prop :=
  lk_same (plk s) (plk s') /\ woke_only (procs s) (procs s') /\ procs s' !! i = procs s !! i /\
  initproc s' = initproc s /\ forall a, kernel_var a -> rd (phys (pk s')) a = rd (phys (pk s)) a.

End Files.

(** What the file layer promises: [fo_inv s fs ips] holds when the file and
    inode references [fs] and [ips] are outstanding.  The counters of
    references are machine integers. *)
Class FileOpsOk (F : Type) `{Linker} `{FileOps F} := {
  fo_inv : pst F -> list Z -> list Z -> Prop;
  fo_inv_perm s fs fs' ips : fs ≡ₚ fs' -> fo_inv s fs ips -> fo_inv s fs' ips;
  fo_inv_ext s s' fs ips : pfs s' = pfs s -> freelist (pk s') = freelist (pk s) ->
    (forall a, kend <= a < PHYSTOP -> rd (phys (pk s')) a = rd (phys (pk s)) a) ->
    fo_inv s fs ips -> fo_inv s' fs ips;
  fo_filedup_ok i s f fs ips : calm i s -> Z.of_nat (length fs) < 2 ^ 30 -> fo_inv s (f :: fs) ips ->
    wp (fo_filedup f) s (fun r s' => r = f /\ fo_inv s' (f :: f :: fs) ips /\ fo_frame i s s');
  fo_fileclose_ok i s f fs ips : calm i s -> fo_inv s (f :: fs) ips ->
    wp (fo_fileclose f) s (fun _ s' => fo_inv s' fs ips /\ fo_frame i s s');
  fo_idup_ok i s k fs ips : calm i s -> Z.of_nat (length ips) < 2 ^ 30 -> fo_inv s fs (k :: ips) ->
    wp (fo_idup k) s (fun r s' => r = k /\ fo_inv s' fs (k :: k :: ips) /\ fo_frame i s s');
  fo_put_ok i s k fs ips : calm i s -> fo_inv s fs (k :: ips) ->
    wp (bind fo_begin_op (fun _ => bind (fo_iput k) (fun _ => fo_end_op))) s
       (fun _ s' => fo_inv s' fs ips /\ fo_frame i s s');
}.

Section Spec.
Context `{Linker} {F : Type} `{FileOps F}.
Local Open Scope kernel_scope.

Implicit Types (s : pst F) (ps : list proc) (np i j : nat).

(** Everything but lock bookkeeping is the same, and that is restored. *)
Definition quiet s s' : Prop := exists l, s' = set_plk l s /\ lk_same (plk s) l.


(** ** Primitives *)

Lemma runs_hart_ok k me n : runs k me n -> hart_ok k.
Proof. by intros [? _]. Qed.

Lemma runs_same k k' me n : lk_same k k' -> runs k me n -> runs k' me n.
Proof.
  intros Hs [Hh (c & Hc & Hp & Hn & Hb)]. split; [by eapply lk_same_hart_ok|].
  destruct Hs as (Eh & _ & _ & _ & Hcc). destruct (Hcc c Hc) as (c' & Hc' & Hp' & Hn' & _).
  exists c'. rewrite Eh. split_and!; congruence || done.
Qed.

Lemma runs_acquired l k k' me n :
  n + 1 < 2 ^ 31 - 10 -> runs k me n -> acquired l k k' -> runs k' me (n + 1).
Proof.
  intros Hmax [Hh (c & Hc & Hp & Hn & Hb)] Ha.
  assert (0 <= noff c) by (destruct Hh as (c0 & Hc0 & ? & _); rewrite Hc in Hc0;
    injection Hc0 as <-; lia).
  destruct (acquired_hart_ok l k k' c) as [Hh' _]; [done|lia|done|]. split; [done|].
  destruct Ha as (Eh & _ & _ & _ & _ & Hcc). destruct (Hcc c Hc) as (c' & Hc' & Hp' & Hn' & _).
  exists c'. rewrite Eh. split_and!; congruence || lia || done.
Qed.

Lemma myproc_wp s me n (Q : option nat -> pst F -> Prop) :
  runs (plk s) me n -> (forall l, lk_same (plk s) l -> Q me (set_plk l s)) -> wp myproc s Q.
Proof.
  intros [Hh (c & Hc & Hp & Hn & Hb)] HQ. unfold myproc, inlk. do 2 wp_step.
  destruct Hh as (c0 & Hc0 & Hn0 & Hoff). rewrite Hc in Hc0. injection Hc0 as <-.
  apply (push_off_wp _ c); [done|done|]. cbn [plk set_plk]. do 2 wp_step.
  apply (mycpu_wp _ (pushed (sie (plk s)) c)).
  { cbn [plk set_plk cpus hart]. by rewrite list_lookup_alter_eq, Hc. }
  do 2 wp_step. cbn [plk set_plk].
  apply (pop_off_wp _ (pushed (sie (plk s)) c)); cbn [cpus hart sie locks].
  { by rewrite list_lookup_alter_eq, Hc. } { simpl. lia. } { done. }
  wp_step. cbn [cpu_proc pushed]. rewrite Hp. apply (HQ (LkSt _ _ _ _)).
  unfold lk_same. cbn [cpus hart sie locks pushed noff intena]. split_and!; try done.
  - destruct (Z.eqb_spec (noff c) 0) as [E|E].
    + by rewrite (proj2 (Z.eqb_eq _ _)) by lia.
    + rewrite (proj2 (Z.eqb_neq _ _)) by lia. symmetry. apply Hoff. lia.
  - intros i Hi. by rewrite !list_lookup_alter_ne by done.
  - intros c0. rewrite Hc. intros [= <-]. rewrite !list_lookup_alter_eq, Hc. simpl.
    eexists. split; [done|]. simpl. split_and!; [done|lia|].
    intros Hpos. by rewrite (proj2 (Z.eqb_neq _ _)) by lia.
Qed.

Lemma getp_wp s i p (Q : proc -> pst F -> Prop) :
  procs s !! i = Some p -> Q p s -> wp (getp i) s Q.
Proof. intros Hp HQ. unfold getp. wp_steps. rewrite Hp. by apply wp_ret. Qed.

Lemma updp_wp s i p f (Q : unit -> pst F -> Prop) :
  procs s !! i = Some p -> Q tt (set_procs (alter f i (procs s)) s) -> wp (updp i f) s Q.
Proof. intros Hp HQ. unfold updp. wp_step. apply (getp_wp s i p); [done|]. by wp_step. Qed.

Lemma quiet_refl s : quiet s s.
Proof.
  exists (plk s). split; [by destruct s|apply lk_same_refl].
Qed.

Lemma quiet_trans s1 s2 s3 : quiet s1 s2 -> quiet s2 s3 -> quiet s1 s3.
Proof.
  intros (l2 & -> & H2) (l3 & -> & H3). exists l3. split; [done|]. by eapply lk_same_trans.
Qed.

Lemma acq_wp s l (Q : unit -> pst F -> Prop) :
  hart_ok (plk s) -> lock_free (plk s) l ->
  (forall l1, acquired l (plk s) l1 -> Q tt (set_plk l1 s)) -> wp (inlk (acquire l)) s Q.
Proof. intros Hh Hl HQ. unfold inlk. wp_step. by apply acquire_wp. Qed.

Lemma rel_wp s k0 l (Q : unit -> pst F -> Prop) :
  acquired l k0 (plk s) -> hart_ok k0 -> lock_free k0 l ->
  (forall l1, lk_same k0 l1 -> Q tt (set_plk l1 s)) -> wp (inlk (release l)) s Q.
Proof.
  intros Ha Hh Hl HQ. unfold inlk. wp_step. eapply wp_mono; [by apply (release_wp k0)|].
  intros [] l1 Hl1. auto.
Qed.

(** [set_accumulator] *)

Lemma alter_acc_lookup ps np v j p :
  ps !! j = Some p ->
  alter (with_accumulator v) np ps !! j =
  Some (if bool_decide (j <> np) then p else with_accumulator v p).
Proof.
  intros Hp. rewrite list_lookup_alter. case_decide as E.
  - subst. rewrite Hp, bool_decide_eq_false_2; [done|]. auto.
  - rewrite bool_decide_eq_true_2; [done|]. auto.
Qed.

Lemma with_accumulator_twice ps np v w :
  alter (with_accumulator v) np (alter (with_accumulator w) np ps) = alter (with_accumulator v) np ps.
Proof. rewrite list_alter_alter_eq. by apply list_alter_ext. Qed.

Lemma set_accumulator_loop_wp (l : list proc) k np v s ps (Q : unit -> pst F -> Prop) :
  procs s = alter (with_accumulator v) np ps -> drop k ps = l -> is_Some (ps !! np) ->
  Q tt (set_procs (alter (with_accumulator (acc_scan l k np v)) np ps) s) ->
  wp (set_accumulator_loop (seq k (length l)) np) s Q.
Proof.
  revert k v s. induction l as [|p l IH]; intros k v s Hs Hl [pn Hn] HQ.
  { apply wp_ret. simpl in HQ. rewrite <- Hs in HQ. by destruct s. }
  cbn [length seq set_accumulator_loop].
  assert (Hp : ps !! k = Some p) by (by rewrite <- (Nat.add_0_r k), <- lookup_drop, Hl).
  assert (Hdrop : drop (S k) ps = l) by (by rewrite <- Nat.add_1_r, <- drop_drop, Hl).
  wp_step. eapply getp_wp; [rewrite Hs; by apply alter_acc_lookup|].
  wp_step. eapply getp_wp; [rewrite Hs; by apply alter_acc_lookup|].
  rewrite (bool_decide_eq_false_2 (np <> np)) by auto. cbn [accumulator with_accumulator].
  cbn [acc_scan] in HQ. destruct (bool_decide_reflect (k <> np)) as [Hne|Heq].
  - cbn [andb] in HQ. destruct (is_running p && (accumulator p <? v)).
    + wp_step. eapply updp_wp; [rewrite Hs; by apply alter_acc_lookup|].
      apply (IH _ (accumulator p)); [|done|done|done].
      cbn [procs set_procs]. by rewrite Hs, with_accumulator_twice.
    + do 2 wp_step. by apply (IH _ v).
  - cbn [andb] in HQ. rewrite Z.ltb_irrefl, andb_false_r. do 2 wp_step. by apply (IH _ v).
Qed.

Lemma set_accumulator_wp s np (Q : unit -> pst F -> Prop) :
  length (procs s) = nproc -> (np < nproc)%nat ->
  Q tt (set_procs (alter (with_accumulator (acc_floor (procs s) np)) np (procs s)) s) ->
  wp (set_accumulator np) s Q.
Proof.
  intros Hlen Hnp HQ. assert (Hn : is_Some (procs s !! np)) by (apply lookup_lt_is_Some; lia).
  destruct Hn as [pn Hn]. unfold set_accumulator. wp_step. apply (updp_wp s np pn); [done|].
  wp_step. rewrite <- Hlen.
  apply (set_accumulator_loop_wp (procs s) 0 np INT_MAX _ (procs s)); [done|done|eauto|].
  set (v := acc_scan (procs s) 0 np INT_MAX) in *. unfold acc_floor in HQ. fold v in HQ.
  wp_step. eapply getp_wp; [by apply alter_acc_lookup|].
  rewrite bool_decide_eq_false_2 by auto. cbn [accumulator with_accumulator].
  destruct (v =? INT_MAX).
  - eapply updp_wp; [by apply alter_acc_lookup|].
    cbn [procs set_procs]. by rewrite with_accumulator_twice.
  - by wp_step.
Qed.

(** [scheduler] *)

Lemma pick_loop_wp (l : list proc) k v r s (Q : option nat -> pst F -> Prop) :
  drop k (procs s) = l -> Q (pick_from l k v r) s -> wp (pick_loop (seq k (length l)) v r) s Q.
Proof.
  revert k v r. induction l as [|p l IH]; intros k v r Hl HQ; [by apply wp_ret|].
  cbn [length seq pick_loop]. cbn [pick_from] in HQ.
  assert (Hp : procs s !! k = Some p) by (by rewrite <- (Nat.add_0_r k), <- lookup_drop, Hl).
  assert (Hdrop : drop (S k) (procs s) = l) by (by rewrite <- Nat.add_1_r, <- drop_drop, Hl).
  wp_step. apply (getp_wp s k p); [done|].
  destruct (_ && _); by apply IH.
Qed.

Lemma pick_wp s (Q : option nat -> pst F -> Prop) :
  length (procs s) = nproc -> Q (pick_from (procs s) 0 INT_MAX None) s -> wp pick s Q.
Proof. intros Hlen HQ. unfold pick. rewrite <- Hlen. by apply pick_loop_wp. Qed.

Lemma updp_out s i f : procs s !! i = None -> updp i f s = Fail (EUB "proc[]").
Proof. intros Hi. unfold updp, getp, bind, gets. simpl. by rewrite Hi. Qed.

Lemma scheduler_enter_ub s c :
  length (procs s) = nproc -> cpus (plk s) !! hart (plk s) = Some c -> noff c = 0 ->
  (forall i, lock_free (plk s) (ProcLock i)) -> pick_from (procs s) 0 INT_MAX None <> None ->
  scheduler_enter s = Fail (EUB "proc[]").
Proof.
  intros Hlen Hc Hn Hfree Hp. unfold scheduler_enter. apply bind_fail_r.
  unfold inlk, intr_on. do 2 wp_step. apply bind_fail_r. apply pick_wp; [done|]. cbn [procs set_plk].
  destruct (pick_from (procs s) 0 INT_MAX None) as [r|]; [|done].
  apply bind_fail_r. apply acq_wp; [|apply Hfree|].
  - exists c. cbn [plk set_plk set_sie cpus hart sie]. split_and!; [done|lia|lia|lia].
  - intros l1 _. unfold bind. rewrite updp_out; [done|]. cbn [procs set_plk].
    apply lookup_ge_None. lia.
Qed.

(** [wakeup] *)

(** The table when [wakeup] has come to process [k]. *)
Definition wakeup_upto (k : nat) (v ch : Z) (me : option nat) (ps0 ps : list proc) : Prop :=
  forall j, ps !! j = if (j <? k)%nat then woken v ch me j <$> ps0 !! j else ps0 !! j.

(** Processes woken on the way do not change the floor. *)
Lemma wakeup_floor k v ch me ps0 ps i p :
  v = acc_floor ps0 (length ps0) -> wakeup_upto k v ch me ps0 ps -> ps0 !! i = Some p ->
  state p = SLEEPING ->
  acc_floor (alter (with_state RUNNABLE) i ps) i = v.
Proof.
  intros Hv Hup Hi Hsl.
  assert (Hold : forall j q, ps0 !! j = Some q -> is_running q = true ->
            alter (with_state RUNNABLE) i ps !! j = Some q /\ j <> i).
  { intros j q Hj Hq. assert (Hne : j <> i).
    { intros ->. rewrite Hi in Hj. injection Hj as <-. unfold is_running in Hq. rewrite Hsl in Hq. done. }
    split; [|done]. rewrite list_lookup_alter_ne, Hup, Hj by done.
    destruct (_ <? _)%nat; [|done]. simpl. f_equal. unfold woken.
    destruct (bool_decide_reflect (state q = SLEEPING)) as [E|E];
      [|by rewrite andb_false_r]. unfold is_running in Hq. rewrite E in Hq. done. }
  assert (Hnew : forall j q, alter (with_state RUNNABLE) i ps !! j = Some q -> j <> i ->
            is_running q = true -> ps0 !! j = Some q \/ accumulator q = v).
  { intros j q Hj Hne Hq. rewrite list_lookup_alter_ne, Hup in Hj by done.
    destruct (_ <? _)%nat; [|by left]. destruct (ps0 !! j) as [q0|]; [|done].
    injection Hj as <-. unfold woken. destruct (_ && _); [by right|by left]. }
  assert (Hlen : forall j q, ps0 !! j = Some q -> j <> length ps0).
  { intros j q Hj%lookup_lt_Some. lia. }
  destruct (acc_floor_spec (alter (with_state RUNNABLE) i ps) i)
    as [(k1 & p1 & Hk1 & Hne1 & Hr1 & Ha1 & Hlt1 & Hmin1)|[E1 Hmin1]];
  destruct (acc_floor_spec ps0 (length ps0))
    as [(k0 & p0 & Hk0 & Hne0 & Hr0 & Ha0 & Hlt0 & Hmin0)|[E0 Hmin0]];
  rewrite <- Hv in *; cbn zeta in *.
  - destruct (Hold k0 p0 Hk0 Hr0) as [Hk0' Hne]. specialize (Hmin1 k0 p0 Hk0' Hne Hr0).
    destruct (Hnew k1 p1 Hk1 Hne1 Hr1) as [Hk1'|?]; [|lia].
    specialize (Hmin0 k1 p1 Hk1' (Hlen _ _ Hk1') Hr1). lia.
  - destruct (Hnew k1 p1 Hk1 Hne1 Hr1) as [Hk1'|?]; [|lia].
    specialize (Hmin0 k1 p1 Hk1' (Hlen _ _ Hk1') Hr1). lia.
  - destruct (Hold k0 p0 Hk0 Hr0) as [Hk0' Hne]. specialize (Hmin1 k0 p0 Hk0' Hne Hr0). lia.
  - lia.
Qed.

Lemma wakeup_upto_step k v ch me ps0 ps ps' :
  wakeup_upto k v ch me ps0 ps ->
  (forall j, ps' !! j = if decide (j = k) then woken v ch me k <$> ps0 !! k else ps !! j) ->
  wakeup_upto (S k) v ch me ps0 ps'.
Proof.
  intros Hup Hps j. rewrite Hps. case_decide as E.
  - subst. by rewrite (proj2 (Nat.ltb_lt _ _)) by lia.
  - rewrite Hup. destruct (Nat.ltb_spec j k), (Nat.ltb_spec j (S k)); done || lia.
Qed.

Lemma wakeup_loop_wp m k s ch me n v ps0 (Q : unit -> pst F -> Prop) :
  (k + m)%nat = nproc -> length ps0 = nproc -> length (procs s) = nproc ->
  v = acc_floor ps0 (length ps0) -> wakeup_upto k v ch me ps0 (procs s) ->
  runs (plk s) me n -> n + 1 < 2 ^ 31 - 10 ->
  (forall i, Some i <> me -> lock_free (plk s) (ProcLock i)) ->
  (forall l ps', lk_same (plk s) l -> wakeup_upto nproc v ch me ps0 ps' -> length ps' = nproc ->
     Q tt (set_plk l (set_procs ps' s))) ->
  wp (wakeup_loop (seq k m) ch) s Q.
Proof.
  revert k s. induction m as [|m IH]; intros k s Hkm Hlen0 Hlen Hv Hup Hr Hn Hfree HQ.
  { apply wp_ret. rewrite Nat.add_0_r in Hkm. subst k.
    specialize (HQ (plk s) (procs s) (lk_same_refl _) Hup Hlen). by destruct s. }
  cbn [seq wakeup_loop]. wp_step. apply (myproc_wp s me n); [done|]. intros l Hl. wp_step.
  assert (Hk : is_Some (ps0 !! k)) by (apply lookup_lt_is_Some; lia). destruct Hk as [p Hk].
  assert (Hpk : procs s !! k = Some p) by (by rewrite Hup, (proj2 (Nat.ltb_ge _ _))).
  case_decide as Hme.
  - wp_step. apply IH; cbn [procs plk set_plk]; try done; [lia| | | |].
    + eapply wakeup_upto_step; [done|]. intros j. case_decide; [|done]. subst j.
      rewrite Hk, Hpk. simpl. unfold woken. by rewrite (bool_decide_eq_false_2 (Some k <> me)) by auto.
    + by eapply runs_same.
    + intros i Hi. eapply lk_same_free; eauto.
    + intros l' ps' Hl' Hps' Hlen'. apply (HQ l' ps'); [by eapply lk_same_trans|done|done].
  - wp_step. apply acq_wp; cbn [plk set_plk].
    { by eapply runs_hart_ok, runs_same. } { eapply lk_same_free; eauto. }
    intros l1 Hl1. wp_step. apply (getp_wp _ k p); [done|]. wp_step.
    set (w := woken v ch me k p).
    assert (Hbody : wp (when bool_decide (state p = SLEEPING) && (chan p =? ch) then
              updp k (with_state RUNNABLE) ;; set_accumulator k) (set_plk l1 (set_plk l s))
        (fun _ s' => exists ps', s' = set_plk l1 (set_procs ps' s) /\ length ps' = nproc /\
           forall j, ps' !! j = if decide (j = k) then Some w else procs s !! j)).
    { unfold w, woken. rewrite (bool_decide_eq_true_2 (Some k <> me)) by done. cbn [andb].
      destruct (bool_decide_reflect (state p = SLEEPING)) as [Hsl|]; cbn [andb].
      2: { wp_step. exists (procs s). split; [by destruct s|]. split; [done|].
           intros j. by case_decide; subst. }
      destruct (chan p =? ch).
      2: { wp_step. exists (procs s). split; [by destruct s|]. split; [done|].
           intros j. by case_decide; subst. }
      wp_step. apply (updp_wp _ k p); [done|]. apply set_accumulator_wp; cbn [procs set_procs set_plk].
      { by rewrite length_alter. } { lia. }
      erewrite wakeup_floor by done.
      exists (alter (with_accumulator v) k (alter (with_state RUNNABLE) k (procs s))).
      split; [by destruct s|]. split; [by rewrite !length_alter|].
      intros j. case_decide as E; [subst; by rewrite !list_lookup_alter_eq, Hpk|].
      by rewrite !list_lookup_alter_ne by done. }
    eapply wp_mono; [exact Hbody|]. intros [] s' (ps' & -> & Hlen' & Hps').
    apply (rel_wp _ l); cbn [plk set_plk]; [done|by eapply runs_hart_ok, runs_same|eapply lk_same_free; eauto|].
    intros l2 Hl2. pose proof (lk_same_trans _ _ _ Hl Hl2) as Hl02.
    apply IH; cbn [procs plk set_plk set_procs]; try done; [lia| | | |].
    + eapply wakeup_upto_step; [done|]. intros j. rewrite Hps'. by rewrite Hk.
    + by eapply runs_same.
    + intros i Hi. eapply lk_same_free; eauto.
    + intros l' ps'' Hl' Hps'' Hlen''. apply (HQ l' ps''); [by eapply lk_same_trans|done|done].
Qed.

Lemma wakeup_wp s ch me n (Q : unit -> pst F -> Prop) :
  length (procs s) = nproc -> runs (plk s) me n -> n + 1 < 2 ^ 31 - 10 ->
  (forall i, Some i <> me -> lock_free (plk s) (ProcLock i)) ->
  (forall l, lk_same (plk s) l ->
     Q tt (set_plk l (set_procs (wakeup_table ch me (procs s)) s))) ->
  wp (wakeup ch) s Q.
Proof.
  intros Hlen Hr Hn Hfree HQ. unfold wakeup.
  apply (wakeup_loop_wp nproc 0 s ch me n (acc_floor (procs s) (length (procs s))) (procs s)); try done.
  intros l ps' Hl Hps' Hlen'. replace ps' with (wakeup_table ch me (procs s)); [by apply HQ|].
  apply list_eq. intros j. unfold wakeup_table. rewrite list_lookup_imap, Hps'.
  destruct (Nat.ltb_spec j nproc); [done|].
  by rewrite (lookup_ge_None_2 (procs s)) by lia.
Qed.

(** [kill] *)

Lemma kill_loop_wp m k s pd me n (Q : Z -> pst F -> Prop) :
  (k + m)%nat = length (procs s) -> runs (plk s) me n -> n + 1 < 2 ^ 31 - 10 ->
  (forall i, lock_free (plk s) (ProcLock i)) ->
  (forall l i p, lk_same (plk s) l -> (k <= i)%nat -> procs s !! i = Some p -> pid p = pd ->
     (forall j q, (k <= j < i)%nat -> procs s !! j = Some q -> pid q <> pd) ->
     Q 0 (set_plk l (set_procs (alter kill_proc i (procs s)) s))) ->
  (forall l, lk_same (plk s) l ->
     (forall j q, (k <= j)%nat -> procs s !! j = Some q -> pid q <> pd) -> Q (-1) (set_plk l s)) ->
  wp (kill_loop (seq k m) pd) s Q.
Proof.
  revert k s. induction m as [|m IH]; intros k s Hkm Hr Hn Hfree HQ0 HQ1.
  { apply wp_ret. specialize (HQ1 (plk s) (lk_same_refl _)). destruct s. apply HQ1.
    intros j q Hj Hq%lookup_lt_Some. simpl in *. lia. }
  cbn [seq kill_loop]. assert (Hk : is_Some (procs s !! k)) by (apply lookup_lt_is_Some; lia).
  destruct Hk as [p Hk]. wp_step. apply acq_wp; [by eapply runs_hart_ok|done|].
  intros l1 Hl1. wp_step. apply (getp_wp _ k p); [done|].
  assert (Hh : hart_ok (plk s)) by (by eapply runs_hart_ok).
  destruct (Z.eqb_spec (pid p) pd) as [Epd|Epd].
  - wp_step. apply (updp_wp _ k p); [done|]. wp_step.
    set (s2 := set_procs (alter (with_killed 1) k (procs s)) (set_plk l1 s)).
    assert (Hp2 : procs s2 !! k = Some (with_killed 1 p)) by (simpl; by rewrite list_lookup_alter_eq, Hk).
    assert (Hbody : wp (when bool_decide (state p = SLEEPING) then
              updp k (with_state RUNNABLE) ;;
              updp k (with_accumulator (i64 (accumulator p + ps_priority p)))) s2
        (fun _ s' => s' = set_plk l1 (set_procs (alter kill_proc k (procs s)) s))).
    { unfold bool_decide. destruct (decide_rel _ (state p) SLEEPING) as [E|E]; simpl.
      - wp_step. eapply updp_wp; [done|].
        eapply updp_wp; [cbn [procs set_procs]; rewrite list_lookup_alter_eq, Hp2; done|].
        unfold set_procs, set_plk, s2. cbn [procs pk initproc nextpid ticks plk pfs set_procs set_plk].
        f_equal. rewrite !list_alter_alter_eq. apply list_alter_ext; [|done].
        intros q. rewrite Hk. intros [= <-]. unfold kill_proc. by rewrite decide_True.
      - wp_step. unfold s2, set_procs, set_plk. cbn [procs pk initproc nextpid ticks plk pfs].
        f_equal. apply list_alter_ext; [|done]. intros q. rewrite Hk. intros [= <-].
        unfold kill_proc. by rewrite decide_False. }
    eapply wp_mono; [exact Hbody|]. intros [] s' ->. wp_step.
    apply (rel_wp _ (plk s)); [done|done|apply Hfree|]. intros l2 Hl2. apply wp_ret.
    apply (HQ0 l2 k p); try done. lia.
  - wp_step. apply (rel_wp _ (plk s)); [done|done|apply Hfree|]. intros l2 Hl2.
    apply IH; cbn [procs plk set_plk]; [lia|by eapply runs_same|done| | |].
    + intros i. eapply lk_same_free; eauto.
    + intros l i q Hl Hi Hq Epq Hbefore. apply (HQ0 l i q); try done; [by eapply lk_same_trans|lia|].
      intros j q' Hj Hq'. destruct (decide (j = k)) as [->|]; [congruence|]. apply (Hbefore j); [lia|done].
    + intros l Hl Hall. apply (HQ1 l); [by eapply lk_same_trans|]. intros j q Hj Hq.
      destruct (decide (j = k)) as [->|]; [congruence|]. apply (Hall j); [lia|done].
Qed.

End Spec.
