(* ===== verification/ProcExit.v ===== *)
(** * Exiting, waiting and allocating processes

    Specifications of [reparent], [exit], [wait] and [allocpid]/[allocproc]
    of [Proc] over the process table. *)

From S2P Require Import Prelude Riscv Mem CString Kalloc Vm PageTable VmSpec UvmSpec UserCopy.
From S2P Require Import Spinlock Proc ProcSpec.

(** ** Tables *)

Definition reparented (ip : option nat) (p : nat) (q : proc) : proc :=
  if decide (parent q = Some p) then with_parent ip q else q.
Definition is_child (p : nat) (q : proc) : bool := bool_decide (parent q = Some p).

(** Children of [p] go to [ip], which is woken if there was one. *)
Definition reparent_table (ch : Z) (ip : option nat) (p : nat) (me : option nat) (ps : list proc)
    : list proc :=
  let ps1 := reparented ip p <$> ps in
  if existsb (is_child p) ps then wakeup_table ch me ps1 else ps1.

(** The table when [reparent] has come to process [k]. *)
Definition reparent_upto (k : nat) (ip : option nat) (p : nat) (ps : list proc) : list proc :=
  imap (fun j q => if (j <? k)%nat then reparented ip p q else q) ps.

Lemma acc_scan_ext l l' i np v :
  Forall2 (fun p q => is_running p = is_running q /\ accumulator p = accumulator q) l l' ->
  acc_scan l i np v = acc_scan l' i np v.
Proof.
  intros Hl. revert i v. induction Hl as [|p q l l' [E1 E2] Hl IH]; intros i v; [done|].
  cbn [acc_scan]. by rewrite E1, E2, IH.
Qed.

Lemma acc_floor_alter f k ps np :
  (forall q, is_running (f q) = is_running q /\ accumulator (f q) = accumulator q) ->
  acc_floor (alter f k ps) np = acc_floor ps np.
Proof.
  intros Hf. unfold acc_floor. erewrite acc_scan_ext; [done|]. apply Forall2_lookup. intros j.
  rewrite list_lookup_alter. case_decide; [subst|]; destruct (ps !! _); simpl; constructor; auto.
Qed.

Lemma woken_idem v v' ch me i p : woken v' ch me i (woken v ch me i p) = woken v ch me i p.
Proof.
  unfold woken at 2 3. destruct (bool_decide (Some i <> me) && _ && _) eqn:E.
  - unfold woken. cbn [state chan with_accumulator with_state].
    rewrite (bool_decide_eq_false_2 (RUNNABLE = SLEEPING)) by done. by rewrite andb_false_r.
  - unfold woken. by rewrite E.
Qed.

Lemma length_wakeup_table ch me ps : length (wakeup_table ch me ps) = length ps.
Proof. apply length_imap. Qed.

Lemma lookup_wakeup_table ch me ps j :
  wakeup_table ch me ps !! j = woken (acc_floor ps (length ps)) ch me j <$> ps !! j.
Proof. apply list_lookup_imap. Qed.

Lemma wakeup_table_idem ch me ps :
  wakeup_table ch me (wakeup_table ch me ps) = wakeup_table ch me ps.
Proof.
  apply list_eq. intros j. rewrite !lookup_wakeup_table. destruct (ps !! j) as [p|]; [|done].
  simpl. f_equal. apply woken_idem.
Qed.

Lemma wakeup_table_parent ip ch me k ps :
  alter (with_parent ip) k (wakeup_table ch me ps) = wakeup_table ch me (alter (with_parent ip) k ps).
Proof.
  apply list_eq. intros j. rewrite lookup_wakeup_table, length_alter, acc_floor_alter by done.
  rewrite !list_lookup_alter, !lookup_wakeup_table.
  case_decide as E; [subst|done]. destruct (ps !! j) as [p|]; [|done]. simpl. f_equal.
  unfold woken. cbn [state chan with_parent]. by destruct (_ && _ && _).
Qed.

Lemma woken_parent v ch me i p : parent (woken v ch me i p) = parent p.
Proof. unfold woken. by destruct (_ && _). Qed.

Lemma reparent_upto_0 ip p ps : reparent_upto 0 ip p ps = ps.
Proof. apply list_eq. intros j. unfold reparent_upto. rewrite list_lookup_imap. by destruct (ps !! j). Qed.

Lemma reparent_upto_step k ip p ps q :
  ps !! k = Some q ->
  reparent_upto (S k) ip p ps =
  if is_child p q then alter (with_parent ip) k (reparent_upto k ip p ps) else reparent_upto k ip p ps.
Proof.
  intros Hq. apply list_eq. intros j.
  assert (Hj : j <> k -> (j <? S k)%nat = (j <? k)%nat).
  { intros. destruct (Nat.ltb_spec j (S k)), (Nat.ltb_spec j k); done || lia. }
  unfold is_child, reparent_upto. destruct (bool_decide_reflect (parent q = Some p)) as [E|E].
  - rewrite list_lookup_alter, !list_lookup_imap. case_decide as Ek.
    + subst j. rewrite Hq. simpl. rewrite (proj2 (Nat.ltb_lt k (S k))), Nat.ltb_irrefl by lia.
      unfold reparented. by rewrite decide_True.
    + by rewrite Hj.
  - rewrite !list_lookup_imap. destruct (decide (j = k)) as [->|Ek]; [|by rewrite Hj].
    rewrite Hq. simpl. rewrite (proj2 (Nat.ltb_lt k (S k))), Nat.ltb_irrefl by lia.
    unfold reparented. by rewrite decide_False.
Qed.

Lemma reparent_upto_lookup k ip p ps q :
  ps !! k = Some q -> reparent_upto k ip p ps !! k = Some q.
Proof. intros Hq. unfold reparent_upto. rewrite list_lookup_imap, Hq. simpl. by rewrite Nat.ltb_irrefl. Qed.

Lemma reparent_upto_all ip p ps : reparent_upto (length ps) ip p ps = reparented ip p <$> ps.
Proof.
  apply list_eq. intros j. unfold reparent_upto. rewrite list_lookup_imap, list_lookup_fmap.
  destruct (ps !! j) eqn:E; [|done]. simpl. apply lookup_lt_Some in E.
  by rewrite (proj2 (Nat.ltb_lt _ _)).
Qed.

(** Rewriting one element by itself. *)
Lemma alter_id_at {A} (f : A -> A) i (l : list A) x : l !! i = Some x -> f x = x -> alter f i l = l.
Proof.
  intros Hx Hf. apply list_eq. intros j. rewrite list_lookup_alter. case_decide; [subst|done].
  by rewrite Hx; simpl; rewrite Hf.
Qed.

Section Exit.
Context `{Linker} {F : Type} `{FileOps F}.
Local Open Scope kernel_scope.
Implicit Types (s : pst F) (ps : list proc).

(** ** reparent *)

Lemma reparent_table_step (b : bool) ch ip p me k ps q :
  ps !! k = Some q ->
  let T b k := if (b : bool) then wakeup_table ch me (reparent_upto k ip p ps) else reparent_upto k ip p ps in
  (exists q', T b k !! k = Some q' /\ parent q' = parent q) /\
  (is_child p q = true -> wakeup_table ch me (alter (with_parent ip) k (T b k)) = T true (S k)) /\
  (is_child p q = false -> T b k = T b (S k)).
Proof.
  intros Hq T. unfold T. rewrite (reparent_upto_step k ip p ps q Hq). split_and!.
  - destruct b; [|eexists; split; [by apply reparent_upto_lookup|done]].
    eexists. rewrite lookup_wakeup_table, (reparent_upto_lookup k ip p ps q Hq). split; [done|].
    apply woken_parent.
  - intros ->. destruct b; [|done]. by rewrite wakeup_table_parent, wakeup_table_idem.
  - by intros ->.
Qed.

Lemma reparent_loop_wp m k s p ip n ps0 (b : bool) (Q : unit -> pst F -> Prop) :
  let ch := ptr_chan ip in
  (k + m)%nat = nproc -> length ps0 = nproc ->
  procs s = (if b then wakeup_table ch (Some p) (reparent_upto k ip p ps0) else reparent_upto k ip p ps0) ->
  b = existsb (is_child p) (take k ps0) -> initproc s = ip ->
  runs (plk s) (Some p) n -> n + 1 < 2 ^ 31 - 10 ->
  (forall i, Some i <> Some p -> lock_free (plk s) (ProcLock i)) ->
  (forall l, lk_same (plk s) l ->
     Q tt (set_plk l (set_procs (reparent_table ch ip p (Some p) ps0) s))) ->
  wp (reparent_loop (seq k m) p) s Q.
Proof.
  intros ch. revert k s b. induction m as [|m IH]; intros k s b Hkm Hlen Hs Hb Hip Hr Hn Hfree HQ.
  { apply wp_ret. assert (k = length ps0) as -> by lia. rewrite firstn_all in Hb. subst b.
    specialize (HQ (plk s) (lk_same_refl _)). rewrite reparent_upto_all in Hs.
    unfold reparent_table in HQ. rewrite <- Hs in HQ. by destruct s. }
  cbn [seq reparent_loop]. assert (Hk : is_Some (ps0 !! k)) by (apply lookup_lt_is_Some; lia).
  destruct Hk as [q Hk].
  destruct (reparent_table_step b ch ip p (Some p) k ps0 q Hk) as ((q' & Hq' & Eq') & Hc & Hnc).
  assert (Hb' : existsb (is_child p) (take (S k) ps0) = b || is_child p q).
  { erewrite take_S_r by done. rewrite existsb_app, <- Hb. simpl. by rewrite orb_false_r. }
  wp_step. apply (getp_wp s k q'); [by rewrite Hs|].
  rewrite Eq'. fold (is_child p q). destruct (is_child p q).
  - wp_step. wp_step. wp_step. rewrite Hip. wp_step. apply (updp_wp s k q'); [by rewrite Hs|].
    apply (wakeup_wp _ _ (Some p) n); cbn [plk set_procs procs]; try done.
    { rewrite length_alter, Hs. unfold reparent_upto.
      destruct b; rewrite ?length_wakeup_table, length_imap; done. }
    intros l Hl. fold ch. rewrite Hs, Hc by done.
    apply (IH _ _ true); cbn [plk set_procs procs initproc set_plk]; try done; [lia| | | |].
    + by rewrite Hb', orb_true_r.
    + by eapply runs_same.
    + intros i Hi. eapply lk_same_free; eauto.
    + intros l' Hl'. apply (HQ l'). by eapply lk_same_trans.
  - do 2 wp_step. apply (IH _ _ b); try done; [lia| |].
    + by rewrite Hs, Hnc.
    + by rewrite Hb', orb_false_r.
Qed.

Lemma reparent_wp s p n (Q : unit -> pst F -> Prop) :
  length (procs s) = nproc -> runs (plk s) (Some p) n -> n + 1 < 2 ^ 31 - 10 ->
  (forall i, Some i <> Some p -> lock_free (plk s) (ProcLock i)) ->
  (forall l, lk_same (plk s) l ->
     Q tt (set_plk l (set_procs (reparent_table (ptr_chan (initproc s)) (initproc s) p (Some p) (procs s)) s))) ->
  wp (reparent p) s Q.
Proof.
  intros Hlen Hr Hn Hfree HQ. unfold reparent.
  apply (reparent_loop_wp nproc 0 s p (initproc s) n (procs s) false); try done.
  by rewrite reparent_upto_0.
Qed.

(** ** sched *)

Lemma sched_enter_wp s k0 i p (Q : bool -> pst F -> Prop) :
  runs k0 (Some i) 0 -> acquired (ProcLock i) k0 (plk s) ->
  procs s !! i = Some p -> state p <> RUNNING ->
  (forall l, acquired (ProcLock i) k0 l -> Q (sie k0) (set_plk l s)) ->
  wp sched_enter s Q.
Proof.
  intros Hr Ha Hp Hst HQ. pose proof Hr as [Hh (c & Hc & Ep & En & Hb)].
  pose proof (runs_acquired (ProcLock i) k0 (plk s) (Some i) 0 ltac:(lia) Hr Ha) as Hr1.
  unfold sched_enter. wp_step. apply (myproc_wp s (Some i) (0 + 1)); [done|]. intros l Hl.
  pose proof (acquired_same _ _ _ _ c Hc ltac:(lia) Ha Hl) as Ha'.
  pose proof Ha' as (Eh & Es & El & _ & _ & Hcc).
  destruct (Hcc c Hc) as (c' & Hc' & Ep' & En' & Ei'). rewrite <- Eh in Hc'.
  wp_step. apply wp_ret. wp_step. unfold inlk at 1. wp_step. apply holding_wp.
  cbn [plk set_plk]. rewrite El. cbn [locked lk_cpu]. rewrite Eh, bool_decide_eq_true_2 by done.
  cbn [andb negb]. wp_step. unfold inlk at 1. wp_step. apply (mycpu_wp _ c'); [done|].
  rewrite En', En. change (negb (0 + 1 =? 1)) with false. cbn iota. wp_step. apply (getp_wp _ i p); [done|].
  rewrite decide_False by done. wp_step. unfold inlk at 1, intr_get. do 2 wp_step.
  cbn [plk set_plk]. rewrite Es. wp_step. unfold inlk. wp_step. apply (mycpu_wp _ c'); [done|].
  wp_step. rewrite Ei', En. cbn [Z.eqb]. by apply HQ.
Qed.

(** ** sleep *)

Definition asleep (ch : Z) (p : proc) : proc := with_state SLEEPING (with_chan ch p).

Lemma sleep_enter_wp s k0 i p ch lk (Q : bool -> pst F -> Prop) :
  runs k0 (Some i) 0 -> lk <> ProcLock i -> lock_free k0 lk -> lock_free k0 (ProcLock i) ->
  acquired lk k0 (plk s) -> procs s !! i = Some p ->
  (forall l, acquired (ProcLock i) k0 l ->
     Q (sie k0) (set_plk l (set_procs (alter (asleep ch) i (procs s)) s))) ->
  wp (sleep_enter ch lk) s Q.
Proof.
  intros Hr Hne Hfl Hfp Ha Hp HQ. pose proof Hr as [Hh (c & Hc & Ep & En & Hb)].
  pose proof (runs_acquired lk k0 (plk s) (Some i) 0 ltac:(lia) Hr Ha) as Hr1.
  unfold sleep_enter. wp_step. apply (myproc_wp s (Some i) (0 + 1)); [done|]. intros l1 Hl1.
  wp_step. apply wp_ret. wp_step. apply acq_wp; cbn [plk set_plk].
  { by eapply runs_hart_ok, runs_same. }
  { apply (lk_same_free (plk s)); [done|]. destruct Ha as (_ & _ & _ & Hls & _).
    unfold lock_free. rewrite Hls by done. apply Hfp. }
  intros l2 Hl2. wp_step. unfold inlk at 1. wp_step. cbn [plk set_plk].
  eapply wp_mono; [by apply (release_swap lk (ProcLock i) k0 (plk s) l1 l2)|]. intros [] l3 Hl3.
  wp_step. apply (updp_wp _ i p); [done|]. wp_step.
  eapply updp_wp; [cbn [procs set_procs set_plk]; by rewrite list_lookup_alter_eq, Hp|].
  eapply (sched_enter_wp _ k0 i (asleep ch p)); [done|done| |done|].
  { cbn [procs set_procs set_plk]. by rewrite !list_lookup_alter_eq, Hp. }
  intros l4 Hl4. specialize (HQ l4 Hl4). cbn [procs set_procs set_plk] in *.
  rewrite list_alter_alter_eq. exact HQ.
Qed.

Lemma yield_enter_wp s i p (Q : bool -> pst F -> Prop) :
  runs (plk s) (Some i) 0 -> lock_free (plk s) (ProcLock i) -> procs s !! i = Some p ->
  (forall l, acquired (ProcLock i) (plk s) l ->
     Q (sie (plk s)) (set_plk l (set_procs (alter yielded i (procs s)) s))) ->
  wp yield_enter s Q.
Proof.
  intros Hr Hf Hp HQ. unfold yield_enter. wp_step. apply (myproc_wp s (Some i) 0); [done|].
  intros l0 Hl0. wp_step. apply wp_ret. wp_step. apply acq_wp; cbn [plk set_plk].
  { by eapply runs_hart_ok, runs_same. } { by eapply lk_same_free. }
  intros l1 Hl1. wp_step. apply (getp_wp _ i p); [done|]. wp_step. apply (updp_wp _ i p); [done|].
  wp_step. eapply updp_wp; [cbn [procs set_procs set_plk]; by rewrite list_lookup_alter_eq, Hp|].
  eapply (sched_enter_wp _ l0 i (yielded p)); [by eapply runs_same|done| |done|].
  { cbn [procs set_procs set_plk]. by rewrite !list_lookup_alter_eq, Hp. }
  intros l2 Hl2. assert (sie l0 = sie (plk s)) as -> by apply Hl0.
  assert (Ha : acquired (ProcLock i) (plk s) l2).
  { eapply acquired_from_same; [done|done|by eapply runs_hart_ok]. }
  specialize (HQ l2 Ha). cbn [procs set_procs set_plk] in *. rewrite list_alter_alter_eq.
  erewrite list_alter_ext; [exact HQ| |done]. intros q. rewrite Hp. by intros [= <-].
Qed.

Lemma killed_wp s i p (Q : Z -> pst F -> Prop) :
  hart_ok (plk s) -> lock_free (plk s) (ProcLock i) -> procs s !! i = Some p ->
  (forall l, lk_same (plk s) l -> Q (p_killed p) (set_plk l s)) -> wp (killed i) s Q.
Proof.
  intros Hh Hf Hp HQ. unfold killed. wp_step. apply acq_wp; [done|done|]. intros l1 Hl1.
  wp_step. apply (getp_wp _ i p); [done|]. wp_step. apply (rel_wp _ (plk s)); [done|done|done|].
  intros l2 Hl2. apply wp_ret. by apply HQ.
Qed.

(** ** exit *)

Lemma fo_frame_trans i s1 s2 s3 : fo_frame i s1 s2 -> fo_frame i s2 s3 -> fo_frame i s1 s3.
Proof.
  intros (A1 & A2 & A3 & A4 & A5) (B1 & B2 & B3 & B4 & B5). split; [by eapply lk_same_trans|].
  split; [by eapply woke_only_trans|]. split; [congruence|]. split; [congruence|]. intros a Ha. by rewrite B5, A5.
Qed.

(** The running process changes its own entry before or after the call. *)
Lemma fo_frame_alter i s s' f :
  fo_frame i s s' -> fo_frame i (set_procs (alter f i (procs s)) s) (set_procs (alter f i (procs s')) s').
Proof.
  intros (A1 & [Hl Hw] & A3 & A4 & A5). split; [done|]. cbn [procs set_procs initproc pk]. split; [|split; [|done]].
  - split; [by rewrite !length_alter|]. intros j p Hj. destruct (decide (j = i)) as [->|Hne].
    + exists p. split; [|by left]. rewrite list_lookup_alter_eq in *. by rewrite A3.
    + rewrite list_lookup_alter_ne in * by done. by apply Hw.
  - by rewrite !list_lookup_alter_eq, A3.
Qed.

Lemma calm_frame i s s' : calm i s -> fo_frame i s s' -> calm i s'.
Proof.
  intros (C1 & C2 & C3 & C4) (A1 & [Hl _] & A3 & _). split; [by eapply runs_same|]. split; [intros l; by eapply lk_same_free|].
  split; [congruence|by rewrite A3].
Qed.

Lemma calm_procs i s f : calm i s -> calm i (set_procs (alter f i (procs s)) s).
Proof.
  intros (C1 & C2 & C3 & [p C4]). split; [done|]. split; [done|]. cbn [procs set_procs]. split; [by rewrite length_alter|].
  rewrite list_lookup_alter_eq, C4. by eexists.
Qed.

Lemma exit_files_wp `{!FileOpsOk F} m k s i p fs ips (Q : unit -> pst F -> Prop) :
  calm i s -> procs s !! i = Some p -> (k + m)%nat = length (ofile p) ->
  fo_inv s (filter (fun f => f <> 0) (drop k (ofile p)) ++ fs) ips ->
  (forall s', fo_inv s' fs ips ->
     fo_frame i (set_procs (alter (with_ofile (take k (ofile p) ++ replicate m 0)) i (procs s)) s) s' -> Q tt s') ->
  wp (exit_files (seq k m) i) s Q.
Proof.
  revert k s p. induction m as [|m IH]; intros k s p Hc Hp Hk Hinv HQ.
  { apply wp_ret. rewrite Nat.add_0_r in Hk. rewrite drop_ge in Hinv by lia. simpl in Hinv.
    apply HQ; [done|]. rewrite take_ge, app_nil_r by lia. rewrite (alter_id_at _ i (procs s) p) by (done || by destruct p).
    replace (set_procs (procs s) s) with s by (by destruct s). split; [apply lk_same_refl|]. split; [apply woke_only_refl|done]. }
  cbn [seq exit_files]. wp_step. apply (getp_wp s i p); [done|].
  assert (Hf : is_Some (ofile p !! k)) by (apply lookup_lt_is_Some; lia). destruct Hf as [f Hf].
  rewrite Hf. rewrite (drop_S _ f) in Hinv by done. wp_step. unfold ctrue.
  destruct (Z.eqb_spec f 0) as [->|Hne]; cbn [negb].
  - wp_step. apply (IH (S k) s p); [done|done|lia|by rewrite filter_cons_False in Hinv by auto|].
    intros s' Hfs. erewrite take_S_r by done. rewrite <- app_assoc. by apply HQ.
  - rewrite filter_cons_True in Hinv by done. wp_step.
    eapply wp_mono; [by apply (fo_fileclose_ok i)|]. intros [] s1 [Hinv1 F1].
    assert (Hp1 : procs s1 !! i = Some p) by (destruct F1 as (_ & _ & -> & _); done).
    apply (updp_wp _ i p); [done|].
    apply (IH (S k) _ (with_ofile (<[k := 0]> (ofile p)) p)); cbn [procs set_procs ofile with_ofile].
    + apply calm_procs. by eapply calm_frame.
    + by rewrite list_lookup_alter_eq, Hp1.
    + rewrite length_insert. lia.
    + rewrite drop_insert_lt by lia. by eapply (fo_inv_ext s1).
    + intros s' Hfs F2. apply HQ; [done|]. eapply fo_frame_trans; [|exact F2].
      rewrite list_alter_alter_eq. erewrite take_S_r by (apply list_lookup_insert_eq; lia).
      rewrite take_insert_ge, <- app_assoc by lia. set (g := with_ofile _).
      apply (fo_frame_alter i _ _ g) in F1.
      replace (alter _ i (procs s1)) with (alter g i (procs s1)); [exact F1|].
      apply list_alter_ext; [|done]. intros q. rewrite Hp1. by intros [= <-].
Qed.

(** The table and the memory when [exit] reaches the scheduler, from the table
    once the files are closed. *)
Definition exit_table (ip par : option nat) (i : nat) (ps : list proc) : list proc :=
  let ps2 := reparent_table (ptr_chan ip) ip i (Some i) ps in
  alter (with_state ZOMBIE) i (wakeup_table (ptr_chan par) (Some i) ps2).
Definition exit_mem (i : nat) (msg status : Z) (m : mem) : mem :=
  store32 (strncpy m (paddr i + OFF_exit_msg) msg 32) (paddr i + OFF_xstate) status.

(** The process table lies below the pages of the allocator. *)
Lemma exit_mem_above `{!LinkerOk} i msg status m a :
  (i < nproc)%nat -> kend <= a -> rd (exit_mem i msg status m) a = rd m a.
Proof.
  intros Hi Ha. pose proof proc_layout as [_ Hl].
  assert (Hp : paddr i + SIZEOF_PROC <= kend) by (unfold paddr, NPROC, SIZEOF_PROC, nproc in *; lia).
  unfold SIZEOF_PROC in Hp. unfold exit_mem, OFF_xstate, OFF_exit_msg.
  rewrite rd_store32_ne by lia. apply strncpy_out. change (i32 32) with 32. lia.
Qed.

Lemma length_reparent_table ch ip p me ps : length (reparent_table ch ip p me ps) = length ps.
Proof.
  unfold reparent_table. destruct (existsb _ _); rewrite ?length_wakeup_table; apply length_fmap.
Qed.

(** The exiting process itself is not touched by the wakeups. *)
Lemma reparent_table_me ch ip i ps p :
  ps !! i = Some p -> parent p <> Some i -> reparent_table ch ip i (Some i) ps !! i = Some p.
Proof.
  intros Hp Hpar. unfold reparent_table.
  assert (Hr : (reparented ip i <$> ps) !! i = Some p).
  { rewrite list_lookup_fmap, Hp. simpl. unfold reparented. by rewrite decide_False. }
  destruct (existsb _ _); [|done]. rewrite lookup_wakeup_table, Hr. simpl. unfold woken.
  by rewrite (bool_decide_eq_false_2 (Some i <> Some i)) by auto.
Qed.

Lemma woken_state v ch me j q :
  Some j <> me -> (state q = SLEEPING /\ chan q = ch) \/ state q = RUNNABLE ->
  state (woken v ch me j q) = RUNNABLE.
Proof.
  intros Hne Hq. unfold woken. rewrite (bool_decide_eq_true_2 (Some j <> me)) by done.
  destruct Hq as [[E <-]|E]; rewrite E.
  - by rewrite Z.eqb_refl, (bool_decide_eq_true_2 (SLEEPING = SLEEPING)).
  - by rewrite (bool_decide_eq_false_2 (RUNNABLE = SLEEPING)).
Qed.

Lemma woken_cases v ch me j q :
  woken v ch me j q = q \/ state (woken v ch me j q) = RUNNABLE.
Proof. unfold woken. destruct (_ && _); auto. Qed.

(** What the other processes find: an exiting process's children belong to
    [ip], and a parent asleep in [wait] is runnable. *)
Lemma exit_table_other ip par i j ps q :
  j <> i -> ps !! j = Some q ->
  exists q', exit_table ip par i ps !! j = Some q' /\
    parent q' = (if decide (parent q = Some i) then ip else parent q) /\
    ((state q = SLEEPING /\ chan q = ptr_chan par) \/ state q = RUNNABLE -> state q' = RUNNABLE).
Proof.
  intros Hne Hq. unfold exit_table. rewrite list_lookup_alter_ne, lookup_wakeup_table by done.
  unfold reparent_table. set (q1 := reparented ip i q).
  assert (Hps : exists q2, (if existsb (is_child i) ps
            then wakeup_table (ptr_chan ip) (Some i) (reparented ip i <$> ps)
            else reparented ip i <$> ps) !! j = Some q2 /\ parent q2 = parent q1 /\
            (q2 = q1 \/ state q2 = RUNNABLE)).
  { destruct (existsb _ _).
    - rewrite lookup_wakeup_table, list_lookup_fmap, Hq. simpl. eexists. split; [done|].
      split; [apply woken_parent|apply woken_cases].
    - rewrite list_lookup_fmap, Hq. simpl. eauto. }
  destruct Hps as (q2 & -> & Hpar & Hst). simpl. eexists. split; [done|]. split.
  - rewrite woken_parent, Hpar. unfold q1, reparented. by case_decide.
  - intros Hs. apply woken_state; [congruence|]. destruct Hst as [->|?]; [|by right].
    unfold q1, reparented. by case_decide.
Qed.

Lemma exit_table_me ip par i ps p :
  ps !! i = Some p -> parent p <> Some i -> exit_table ip par i ps !! i = Some (with_state ZOMBIE p).
Proof.
  intros Hp Hpar. unfold exit_table. rewrite list_lookup_alter_eq, lookup_wakeup_table.
  rewrite (reparent_table_me _ _ _ _ p) by done.
  simpl. unfold woken. by rewrite (bool_decide_eq_false_2 (Some i <> Some i)) by auto.
Qed.

Lemma group3_r {A B C D} (b : M (pst F) A) (c : M (pst F) B) (d : M (pst F) C) (k : C -> M (pst F) D) s
    (R : res (pst F) D -> Prop) :
  wp (bind b (fun _ => bind c (fun _ => d))) s (fun x s' => R (k x s')) ->
  R (bind b (fun _ => bind c (fun _ => bind d k)) s).
Proof.
  unfold wp, bind. destruct (b s) as [a s1|]; [|done]. destruct (c s1) as [a2 s2|]; [|done]. by destruct (d s2) as [a3 s3|].
Qed.

(** The first part of [exit]: files and directory are given up.  The result
    of what follows is arbitrary. *)
Lemma exit_close `{!FileOpsOk F} {B} s i p fs ips (k : M (pst F) B) (R : res (pst F) B -> Prop) :
  calm i s -> procs s !! i = Some p -> length (ofile p) = 16%nat ->
  fo_inv s (filter (fun f => f <> 0) (ofile p) ++ fs) (cwd p :: ips) ->
  (forall s', fo_inv s' fs ips -> calm i s' ->
     fo_frame i (set_procs (alter (compose (with_cwd 0) (with_ofile (replicate 16 0))) i (procs s)) s) s' -> R (k s')) ->
  R ((exit_files (seq 0 16) i ;; p <- getp i ;; fo_begin_op ;; fo_iput (cwd p) ;; fo_end_op ;; updp i (with_cwd 0) ;; k)%K s).
Proof.
  intros Hc Hp Hof Hinv HQ. apply bind_r, (exit_files_wp 16 0 s i p fs (cwd p :: ips)); [done|done|done|done|].
  intros s1 Hinv1 F1. cbn [take app] in F1. assert (Hp1 : procs s1 !! i = Some (with_ofile (replicate 16 0) p)).
  { destruct F1 as (_ & _ & -> & _). cbn [procs set_procs]. by rewrite list_lookup_alter_eq, Hp. }
  assert (Hc1 : calm i s1) by (eapply calm_frame; [by apply calm_procs|exact F1]).
  apply bind_r. eapply getp_wp; [exact Hp1|]. cbn [cwd with_ofile]. apply group3_r.
  eapply wp_mono; [by apply (fo_put_ok i)|]. intros _u s2 [Hinv2 F2].
  assert (Hp2 : procs s2 !! i = Some (with_ofile (replicate 16 0) p)) by (destruct F2 as (_ & _ & -> & _); done).
  apply bind_r. eapply updp_wp; [exact Hp2|]. apply HQ.
  - by eapply (fo_inv_ext s2).
  - apply calm_procs. by eapply calm_frame.
  - rewrite <- list_alter_alter_eq. apply (fo_frame_alter i _ _ (with_cwd 0)) in F1, F2. by eapply fo_frame_trans.
Qed.

(** The table once the children are given away and the parent is woken. *)
Definition exit_woken (ip par : option nat) (i : nat) (ps : list proc) : list proc :=
  wakeup_table (ptr_chan par) (Some i) (reparent_table (ptr_chan ip) ip i (Some i) ps).

Lemma exit_woken_me ip par i ps p : ps !! i = Some p -> parent p <> Some i -> exit_woken ip par i ps !! i = Some p.
Proof.
  intros Hp Hpar. unfold exit_woken. rewrite lookup_wakeup_table, (reparent_table_me _ _ _ _ p) by done. simpl. unfold woken.
  by rewrite (bool_decide_eq_false_2 (Some i <> Some i)) by auto.
Qed.

(** The second part: from [wait_lock] to the process's own lock. *)
Lemma exit_handover s i p par (k : M (pst F) bool) (R : res (pst F) bool -> Prop) :
  calm i s -> procs s !! i = Some p -> parent p = par -> par <> Some i ->
  (forall l1 l3 l4, acquired WaitLock (plk s) l1 -> lk_same l1 l3 -> acquired (ProcLock i) l3 l4 ->
     R (k (set_plk l4 (set_procs (exit_woken (initproc s) par i (procs s)) s)))) ->
  R ((inlk (acquire WaitLock) ;; reparent i ;; p <- getp i ;; wakeup (ptr_chan (parent p)) ;;
      inlk (acquire (ProcLock i)) ;; k)%K s).
Proof.
  intros (Hr & Hfree & Hlen & _) Hp Hpar Hne HR. apply bind_r, acq_wp. { by eapply runs_hart_ok. } { apply Hfree. }
  intros l1 Hl1. pose proof (runs_acquired WaitLock (plk s) l1 (Some i) 0 ltac:(lia) Hr Hl1) as Hr1.
  assert (Hf1 : forall k, lock_free l1 (ProcLock k)).
  { intros k'. destruct Hl1 as (_ & _ & _ & Hls & _). unfold lock_free. rewrite Hls by done. apply Hfree. }
  apply bind_r, (reparent_wp _ i (0 + 1)); cbn [procs plk set_plk]; try done.
  intros l2 Hl2. cbn [procs initproc set_procs set_plk].
  set (ps2 := reparent_table (ptr_chan (initproc s)) (initproc s) i (Some i) (procs s)).
  assert (Hp2 : ps2 !! i = Some p) by (apply reparent_table_me; [done|by rewrite Hpar]).
  apply bind_r, (getp_wp _ i p); [done|]. rewrite Hpar.
  apply bind_r, (wakeup_wp _ _ (Some i) (0 + 1)); cbn [procs plk set_procs set_plk]; try done.
  { unfold ps2. by rewrite length_reparent_table. } { by eapply runs_same. }
  { intros k' _. eapply lk_same_free; eauto. }
  intros l3 Hl3. pose proof (lk_same_trans _ _ _ Hl2 Hl3) as Hl13.
  apply bind_r, acq_wp; cbn [plk set_plk set_procs].
  { eapply runs_hart_ok, runs_same; eauto. } { eapply lk_same_free; eauto. }
  intros l4 Hl4. by apply (HR l1 l3 l4).
Qed.

(** [exit] up to its last part. *)
Lemma exit_upto `{!FileOpsOk F} s i p status msg fs ips (R : res (pst F) bool -> Prop) :
  calm i s -> initproc s <> Some i ->
  procs s !! i = Some p -> parent p <> Some i -> length (ofile p) = 16%nat ->
  fo_inv s (filter (fun f => f <> 0) (ofile p) ++ fs) (cwd p :: ips) ->
  (forall s1 l1 l3 l4, fo_inv s1 fs ips ->
     fo_frame i (set_procs (alter (compose (with_cwd 0) (with_ofile (replicate 16 0))) i (procs s)) s) s1 ->
     calm i s1 -> acquired WaitLock (plk s1) l1 -> lk_same l1 l3 -> acquired (ProcLock i) l3 l4 ->
     R (exit_zombie status msg i (set_plk l4 (set_procs (exit_woken (initproc s) (parent p) i (procs s1)) s1)))) ->
  R (exit status msg s).
Proof.
  intros Hc Hinit Hp Hpar Hof Hinv HR. pose proof Hc as (Hr & Hfree & Hlen & Hi).
  unfold exit. apply bind_r, (myproc_wp s (Some i) 0); [done|]. intros l0 Hl0. apply bind_r, wp_gets.
  cbn [initproc set_plk]. rewrite decide_False by auto. apply bind_r, wp_ret.
  apply (exit_close (set_plk l0 s) i p fs ips).
  { split; [by eapply runs_same|]. split; [intros l; by eapply lk_same_free|done]. }
  { done. } { done. } { by eapply (fo_inv_ext s). }
  intros s1 Hinv1 Hc1 F1. pose proof F1 as (Fl & _ & Fp & Fi & _). cbn [plk set_procs set_plk initproc procs] in Fl, Fp, Fi.
  rewrite list_lookup_alter_eq, Hp in Fp. apply (exit_handover s1 i _ (parent p) _ R Hc1 Fp); [done|done|].
  intros l1 l3 l4 A1 A2 A3. rewrite Fi. apply (HR s1 l1 l3 l4); try done.
  destruct F1 as (_ & F1). split; [by eapply lk_same_trans|exact F1].
Qed.

Lemma exit_zombie_wp s s1 i p ps status msg l1 l3 l4 (Q : bool -> pst F -> Prop) :
  msg <> 0 -> calm i s1 -> ps !! i = Some p -> acquired WaitLock (plk s1) l1 -> lk_same l1 l3 -> acquired (ProcLock i) l3 l4 ->
  hart_ok (plk s) -> lk_same (plk s) (plk s1) ->
  (forall l, acquired (ProcLock i) (plk s) l ->
     Q (sie (plk s)) (PSt (KSt (exit_mem i msg status (phys (pk s1))) (freelist (pk s1)))
       (alter (with_state ZOMBIE) i ps) (initproc s1) (nextpid s1) (ticks s1) l (pfs s1))) ->
  wp (exit_zombie status msg i) (set_plk l4 (set_procs ps s1)) Q.
Proof.
  intros Hmsg (Hr & Hfree & _) Hp Hl1 Hl13 Hl4 Hh Hls HQ. unfold exit_zombie. rewrite (proj2 (Z.eqb_neq _ _) Hmsg).
  unfold phys_wr, inmem. do 6 wp_step. wp_step. apply (updp_wp _ i p); [done|]. wp_step. unfold inlk at 1. wp_step.
  cbn [plk set_plk set_procs set_pk]. eapply wp_mono.
  { apply (release_swap WaitLock (ProcLock i) (plk s1) l1 l3 l4); try done. by eapply runs_hart_ok. }
  intros [] l5 Hl5. apply (sched_enter_wp _ (plk s1) i (with_state ZOMBIE p)); [done|done| |done|].
  { change (alter (with_state ZOMBIE) i ps !! i = Some (with_state ZOMBIE p)). by rewrite list_lookup_alter_eq, Hp. }
  intros l6 Hl6. assert (sie (plk s1) = sie (plk s)) as -> by apply Hls. apply (HQ l6). by eapply acquired_from_same.
Qed.

Lemma exit_wp `{!FileOpsOk F} s i p status msg fs ips (Q : bool -> pst F -> Prop) :
  calm i s -> initproc s <> Some i -> msg <> 0 ->
  procs s !! i = Some p -> parent p <> Some i -> length (ofile p) = 16%nat ->
  fo_inv s (filter (fun f => f <> 0) (ofile p) ++ fs) (cwd p :: ips) ->
  (forall l s1, acquired (ProcLock i) (plk s) l -> fo_inv s1 fs ips ->
     fo_frame i (set_procs (alter (compose (with_cwd 0) (with_ofile (replicate 16 0))) i (procs s)) s) s1 ->
     Q (sie (plk s))
       (PSt (KSt (exit_mem i msg status (phys (pk s1))) (freelist (pk s1)))
            (exit_table (initproc s) (parent p) i (procs s1)) (initproc s1) (nextpid s1) (ticks s1) l (pfs s1))) ->
  wp (exit status msg) s Q.
Proof.
  intros Hc Hinit Hmsg Hp Hpar Hof Hinv HQ.
  apply (exit_upto s i p status msg fs ips (fun r => match r with Ok a s' => Q a s' | Fail _ => False end)); try done.
  intros s1 l1 l3 l4 Hinv1 F1 Hc1 A1 A2 A3. pose proof F1 as (Fl & _ & Fp & _). cbn [plk set_procs procs] in Fl, Fp.
  rewrite list_lookup_alter_eq, Hp in Fp.
  apply (exit_zombie_wp s s1 i (with_cwd 0 (with_ofile (replicate 16 0) p)) _ status msg l1 l3 l4); try done.
  - by apply exit_woken_me.
  - destruct Hc as [Hr _]. by eapply runs_hart_ok.
  - intros l Hl. by apply (HQ l s1).
Qed.

(** A null message: the copy of the message is the end. *)
Lemma exit_null `{!FileOpsOk F} s i p status fs ips :
  calm i s -> initproc s <> Some i ->
  procs s !! i = Some p -> parent p <> Some i -> length (ofile p) = 16%nat ->
  fo_inv s (filter (fun f => f <> 0) (ofile p) ++ fs) (cwd p :: ips) ->
  exit status 0 s = Fail (EUB "exit: msg").
Proof. intros. by apply (exit_upto s i p status 0 fs ips (fun r => r = Fail (EUB "exit: msg"))). Qed.

End Exit.
