(* ===== verification/ProcWait.v ===== *)
(** * Waiting for children

    Specification of [wait] of [Proc]: which child it reports, when it
    returns -1 and when it goes to sleep, and what it leaves of the process
    table. *)

From S2P Require Import Prelude Riscv Mem CString Kalloc Vm PageTable VmSpec UvmSpec UserCopy.
From S2P Require Import Spinlock Proc ProcSpec ProcExit.

(** The first exited child of [me] from index [k] on, and whether there is any
    child. *)
Definition zombie_child (me : nat) (p : proc) : bool :=
  is_child me p && bool_decide (state p = ZOMBIE).

Section Wait.
Context `{LinkerOk} {F : Type} `{FileOps F}.
Local Open Scope kernel_scope.
Implicit Types (s : pst F) (ps : list proc).

(** Kernel data, below the pages the allocator hands out, is the same. *)
Definition kdata_same (m m' : mem) : Prop := forall a, a < kend -> rd m' a = rd m a.

(** The exit message of process [i] ends within its 36 bytes. *)
Definition msg_ok (m : mem) (i : nat) : Prop :=
  exists j, 0 <= j < 36 /\ rd m (paddr i + OFF_exit_msg + j) = 0.

(** Kernel data can be copied out: it overlaps no page of the allocator. *)
Lemma kernel_buf_ok (k : kst) root L fr A buf len :
  space_ok k root L fr A -> user_ok L fr A -> buf + len <= kend -> buf_ok L fr A buf len.
Proof.
  intros Hs Hu Hb a Ha. split.
  - intros p Hp. assert (Hok : page_ok p).
    { destruct Hs as [[Hwf Hfree _] _ _]. destruct Hp as [[[l x] Hp]|Hp].
      - by destruct (wf_page _ _ _ Hwf _ _ _ Hp).
      - apply fl_ok in Hfree as [Hok _]. rewrite Forall_forall in Hok. by apply Hok. }
    destruct Hok as [_ Hok]. alia.
  - intros va Hva Hm. destruct (user_page_ok _ _ _ _ Hu Hm) as ([_ Hok] & _). alia.
Qed.

Lemma wrote_user_kdata L fr A m m' va src k :
  user_ok L fr A -> 0 <= va -> wrote_user A m m' va src k -> kdata_same m m'.
Proof.
  intros Hu Hva [Hw1 Hw2] a Ha. apply Hw2. intros i Hi ->. destruct (Hw1 i Hi) as [Hm _].
  destruct (user_page_ok _ _ _ _ Hu Hm) as ([_ Hok] & _).
  pose proof (upa_in_page A (va + i)). alia.
Qed.

(** The state of memory that copies to user space maintain. *)
Definition user_mem (root : Z) (L : labels) (fr : list Z) (A : aspace) (m0 : mem) (k : kst) : Prop :=
  space_ok k root L fr A /\ kdata_same m0 (phys k).

Lemma copyout_kernel_wp s root L fr A m0 va src len (Q : Z -> pst F -> Prop) :
  user_mem root L fr A m0 (pk s) -> user_ok L fr A -> src + len <= kend -> 0 <= va -> 0 <= len ->
  (forall r k', r = 0 \/ r = -1 -> user_mem root L fr A m0 k' -> Q r (set_pk k' s)) ->
  wp (inmem (copyout root va src len)) s Q.
Proof.
  intros [Hs Hk] Hu Hsrc Hva Hlen HQ. unfold inmem. wp_step. eapply wp_mono.
  { apply (copyout_wp (pk s) root L fr A); try done. by eapply kernel_buf_ok. }
  intros r k' (n & Hn & Hw & _ & Hs' & Hr). apply HQ; [tauto|]. split; [done|].
  intros a Ha. rewrite (wrote_user_kdata _ _ _ _ _ _ _ _ Hu Hva Hw) by done. by apply Hk.
Qed.

Lemma paddr_kernel i off : (i < nproc)%nat -> off <= SIZEOF_PROC -> paddr i + off <= kend.
Proof.
  intros Hi Hoff. pose proof proc_layout as [_ Hl]. unfold paddr, NPROC, SIZEOF_PROC, nproc in *. lia.
Qed.

Lemma msg_ok_same m m' i : (i < nproc)%nat -> kdata_same m m' -> msg_ok m i -> msg_ok m' i.
Proof.
  intros Hi Hk (j & Hj & Hz). exists j. split; [done|]. rewrite Hk; [done|].
  pose proof (paddr_kernel i SIZEOF_PROC Hi ltac:(done)). unfold OFF_exit_msg, SIZEOF_PROC in *. lia.
Qed.

(** The outcome of a scan from [k] on, when the locks were as in [k0] before
    [wait_lock] was taken. *)
Definition scan_post (k0 : lkst) s root L fr A me (k : nat) (hk : bool) (r : scan_result) s' : Prop :=
  exists kk l, s' = set_pk kk (set_plk l s) /\ user_mem root L fr A (phys (pk s)) kk /\
  match r with
  | ScanEnd b => lk_same (plk s) l /\ b = hk || existsb (is_child me) (drop k (procs s)) /\
      existsb (zombie_child me) (drop k (procs s)) = false
  | ScanRet v => lk_same k0 l /\ exists z p, (k <= z)%nat /\ procs s !! z = Some p /\
      zombie_child me p = true /\
      (forall j q, (k <= j < z)%nat -> procs s !! j = Some q -> zombie_child me q = false) /\
      (v = pid p \/ v = -1)
  end.

Lemma wait_scan_wp m k s k0 root L fr A me pme addr msg hk :
  (k + m)%nat = length (procs s) -> length (procs s) = nproc ->
  procs s !! me = Some pme -> pagetable pme = root ->
  user_mem root L fr A (phys (pk s)) (pk s) -> user_ok L fr A ->
  (forall i, (i < nproc)%nat -> msg_ok (phys (pk s)) i) -> 0 <= addr ->
  runs k0 (Some me) 0 -> (forall i, lock_free k0 (ProcLock i)) -> lock_free k0 WaitLock ->
  acquired WaitLock k0 (plk s) ->
  wp (wait_scan (seq k m) me addr msg hk) s (scan_post k0 s root L fr A me k hk).
Proof.
  revert k s hk. induction m as [|m IH];
    intros k s hk Hkm Hlen Hme Hroot Hmem Hu Hmsg Haddr Hr0 Hf0 HfW Ha; cbn [seq wait_scan].
  { apply wp_ret. exists (pk s), (plk s). split; [by destruct s|]. split; [done|].
    rewrite drop_ge by lia. simpl. rewrite orb_false_r. split_and!; [apply lk_same_refl|done|done]. }
  assert (Hk : is_Some (procs s !! k)) by (apply lookup_lt_is_Some; lia). destruct Hk as [p Hk].
  assert (Hknp : (k < nproc)%nat) by lia.
  assert (Hdrop : drop k (procs s) = p :: drop (S k) (procs s)) by (by apply drop_S).
  pose proof (runs_acquired WaitLock k0 (plk s) (Some me) 0 ltac:(lia) Hr0 Ha) as Hr1.
  assert (Hfree : forall i, lock_free (plk s) (ProcLock i)).
  { intros i. destruct Ha as (_ & _ & _ & Hls & _). unfold lock_free. rewrite Hls by done. apply Hf0. }
  wp_step. apply (getp_wp s k p); [done|]. case_decide as Hch.
  2: { eapply wp_mono; [apply IH; done || lia|]. intros r s' (kk & l & -> & Hm' & Hr).
    exists kk, l. split; [done|]. split; [done|]. rewrite Hdrop. cbn [existsb].
    assert (is_child me p = false) as Ec by (by apply bool_decide_eq_false_2).
    assert (zombie_child me p = false) as Ez by (unfold zombie_child; by rewrite Ec).
    rewrite Ec, Ez. destruct r as [v|b]; [|done].
    destruct Hr as (Hl & z & q & Hz & Hq & Hzc & Hbef & Hv). split; [done|]. exists z, q.
    split_and!; try done; [lia|]. intros j q' Hj Hq'.
    destruct (decide (j = k)) as [->|]; [congruence|]. apply (Hbef j); [lia|done]. }
  assert (Ec : is_child me p = true) by (by apply bool_decide_eq_true_2).
  wp_step. apply acq_wp; [by eapply runs_hart_ok|apply Hfree|]. intros l1 Hl1.
  wp_step. apply (getp_wp _ me pme); [done|]. do 2 wp_step. cbn [pk set_plk].
  destruct (Hmsg k Hknp) as (j0 & Hj0 & Hz0).
  destruct (strlen_bound 36 _ _ _ Hj0 Hz0) as (len & -> & Hlb). wp_step. apply wp_ret.
  do 2 wp_step. cbn [pk set_plk]. wp_step. rewrite Hroot.
  apply (copyout_kernel_wp _ root L fr A (phys (pk s))); [done|done| |apply rd_range|lia|].
  { pose proof (paddr_kernel k (OFF_exit_msg + len) Hknp). unfold OFF_exit_msg, SIZEOF_PROC in *. lia. }
  intros r1 kk1 _ Hm1. cbn [pk set_pk set_plk]. wp_step. apply (getp_wp _ k p); [done|].
  case_decide as Hzo.
  - (* the child has exited *)
    assert (Ez : zombie_child me p = true)
      by (unfold zombie_child; by rewrite Ec, bool_decide_eq_true_2).
    set (s2 := set_pk kk1 (set_plk l1 s)).
    assert (Hx : wp (if ctrue addr then inmem (copyout root addr (paddr k + OFF_xstate) 4) else ret 0) s2
      (fun r s' => exists kk2, s' = set_pk kk2 (set_plk l1 s) /\ user_mem root L fr A (phys (pk s)) kk2)).
    { destruct (ctrue addr); [|by wp_step; exists kk1].
      apply (copyout_kernel_wp _ root L fr A (phys (pk s))); try done.
      - pose proof (paddr_kernel k (OFF_xstate + 4) Hknp). unfold OFF_xstate, SIZEOF_PROC in *. lia.
      - intros r kk2 _ Hm2. by exists kk2. }
    wp_step. eapply wp_mono; [exact Hx|]. intros r s3 (kk2 & -> & Hm2).
    assert (Hend : forall v, v = pid p \/ v = -1 ->
      wp (inlk (release (ProcLock k)) ;; inlk (release WaitLock) ;; ret (ScanRet v))
         (set_pk kk2 (set_plk l1 s)) (scan_post k0 s root L fr A me k hk)).
    { intros v Hv. wp_step. apply (rel_wp _ (plk s)); [done|by eapply runs_hart_ok|apply Hfree|].
      intros l2 Hl2. wp_step. pose proof Hr0 as [Hh0 (c & Hc & _ & Hn & _)].
      apply (rel_wp _ k0); [|done|done|].
      { cbn [plk set_plk set_pk]. by eapply (acquired_same _ _ _ _ c); [done|lia| |]. }
      intros l3 Hl3. apply wp_ret. exists kk2, l3. split; [done|]. split; [done|]. split; [done|].
      exists k, p. split_and!; try done. intros; lia. }
    destruct (r <? 0); apply Hend; auto.
  - (* a child that is still around *)
    assert (Ez : zombie_child me p = false)
      by (unfold zombie_child; by rewrite Ec, bool_decide_eq_false_2).
    wp_step. apply (rel_wp _ (plk s)); [done|by eapply runs_hart_ok|apply Hfree|]. intros l2 Hl2.
    pose proof Hr0 as [Hh0 (c & Hc & _ & Hn & _)].
    eapply wp_mono; [apply (IH (S k)); cbn [procs plk pk set_plk set_pk]; try done; [lia| | |]|].
    + destruct Hm1 as [Hs1 Hk1]. by split.
    + intros i Hi. destruct Hm1 as [_ Hk1]. apply (msg_ok_same (phys (pk s))); auto.
    + by eapply (acquired_same _ _ _ _ c); [done|lia| |].
    + intros r s' (kk & l & -> & [Hs' Hk'] & Hr). exists kk, l. split; [done|]. split.
      { split; [done|]. intros a Ha'. destruct Hm1 as [_ Hk1]. rewrite Hk' by done. by apply Hk1. }
      rewrite Hdrop. cbn [existsb]. rewrite Ec, Ez. cbn [procs plk set_plk set_pk] in Hr.
      destruct r as [v|b].
      * destruct Hr as (Hl & z & q & Hz & Hq & Hzc & Hbef & Hv). split; [done|]. exists z, q.
        split_and!; try done; [lia|]. intros j q' Hj Hq'.
        destruct (decide (j = k)) as [->|]; [congruence|]. apply (Hbef j); [lia|done].
      * destruct Hr as (Hl & -> & Hnz). split_and!; [by eapply lk_same_trans| |done].
        by rewrite orb_true_r.
Qed.

(** The outcome of [wait]. *)
Definition wait_post s root L fr A me pme (r : option Z) s' : Prop :=
  user_mem root L fr A (phys (pk s)) (pk s') /\
  match r with
  | Some v => procs s' = procs s /\ lk_same (plk s) (plk s') /\
      ((v = -1 /\ existsb (zombie_child me) (procs s) = false /\
        (existsb (is_child me) (procs s) = false \/ p_killed pme <> 0)) \/
       exists z p, procs s !! z = Some p /\ zombie_child me p = true /\
         (forall j q, (j < z)%nat -> procs s !! j = Some q -> zombie_child me q = false) /\
         (v = pid p \/ v = -1))
  | None => existsb (zombie_child me) (procs s) = false /\ existsb (is_child me) (procs s) = true /\
      p_killed pme = 0 /\ procs s' = alter (asleep (paddr me)) me (procs s) /\
      acquired (ProcLock me) (plk s) (plk s')
  end.

Lemma wait_wp s root L fr A me pme addr msg :
  length (procs s) = nproc -> procs s !! me = Some pme -> pagetable pme = root ->
  space_ok (pk s) root L fr A -> user_ok L fr A ->
  (forall i, (i < nproc)%nat -> msg_ok (phys (pk s)) i) -> 0 <= addr ->
  runs (plk s) (Some me) 0 -> (forall lk, lock_free (plk s) lk) ->
  wp (wait addr msg) s (wait_post s root L fr A me pme).
Proof.
  intros Hlen Hme Hroot Hs Hu Hmsg Haddr Hr Hfree.
  unfold wait. wp_step. apply (myproc_wp s (Some me) 0); [done|]. intros l0 Hl0.
  wp_step. apply wp_ret. wp_step. assert (Hr0 : runs l0 (Some me) 0) by (by eapply runs_same).
  assert (Hf0 : forall lk, lock_free l0 lk) by (intros; by eapply lk_same_free).
  apply acq_wp; [by eapply runs_hart_ok|apply Hf0|]. cbn [plk set_plk]. intros l1 Hl1.
  unfold wait_turn. wp_step. eapply wp_mono.
  { apply (wait_scan_wp nproc 0 _ l0 root L fr A me pme); try done. }
  intros r s' (kk & l & -> & Hm & Hpost). cbn [procs pk plk set_plk set_pk drop] in *.
  destruct r as [v|b].
  - destruct Hpost as (Hl & z & p & _ & Hz & Hzc & Hbef & Hv). apply wp_ret. split; [done|].
    split; [done|]. split; [by eapply lk_same_trans|]. right. exists z, p. split_and!; try done.
    intros j q Hj. apply Hbef. lia.
  - destruct Hpost as (Hl & -> & Hnz). pose proof Hr0 as [Hh0 (c & Hc & _ & Hn & _)].
    assert (Ha : acquired WaitLock l0 l) by (by eapply (acquired_same _ _ _ _ c); [done|lia| |]).
    assert (Hret : (existsb (is_child me) (procs s) = false \/ p_killed pme <> 0) ->
      forall l2, acquired WaitLock l0 l2 ->
      wp (inlk (release WaitLock) ;; ret (Some (-1))) (set_pk kk (set_plk l2 s))
         (wait_post s root L fr A me pme)).
    { intros Hwhy l2 Hl2. wp_step. apply (rel_wp _ l0); [done|by eapply runs_hart_ok|apply Hf0|].
      intros l3 Hl3. apply wp_ret. split; [done|]. split; [done|]. split; [by eapply lk_same_trans|].
      by left. }
    rewrite !drop_0 in *. cbn [orb]. destruct (existsb (is_child me) (procs s)) eqn:Ech; cbn [negb].
    + wp_step. apply (killed_wp _ me pme); cbn [plk set_plk set_pk]; [| |done|].
      { by eapply runs_hart_ok, runs_acquired; [|apply Hr0|]. }
      { destruct Ha as (_ & _ & _ & Hls & _). unfold lock_free. rewrite Hls by done. apply Hf0. }
      intros l2 Hl2. assert (Ha2 : acquired WaitLock l0 l2)
        by (by eapply (acquired_same _ _ _ _ c); [done|lia| |]).
      unfold ctrue. destruct (Z.eqb_spec (p_killed pme) 0) as [Ek|Ek]; cbn [negb].
      * wp_step. apply (sleep_enter_wp _ l0 me pme); cbn [plk set_plk set_pk procs]; try done.
        intros l3 Hl3. apply wp_ret. split; [done|]. split_and!; try done.
        eapply acquired_from_same; [done|done|by eapply runs_hart_ok].
      * apply (Hret (or_intror Ek) l2 Ha2).
    + do 2 wp_step. change (ctrue 1) with true. cbn iota. apply (Hret (or_introl eq_refl) l Ha).
Qed.

End Wait.
