(* ===== verification/ProcExample.v ===== *)
(** * A concrete process table

    Three processes on the memory of [MemExample]: the first process, asleep
    in [wait]; a process that runs on hart 0 with the example page table; and
    a child of it that has exited.  File and inode references are counted by
    two lists, the simplest implementation of the interface [FileOps]. *)

From S2P Require Import Prelude Riscv Mem CString Kalloc Vm PageTable VmSpec UvmSpec UserCopy.
From S2P Require Import MemExample Spinlock Proc ProcSpec ProcExit ProcWait.

(** ** Reference lists as a file layer *)

Definition held_refs : Type := list Z * list Z.

Fixpoint drop_ref (f : Z) (l : list Z) : option (list Z) :=
  match l with
  | [] => None
  | x :: l => if x =? f then Some l else cons x <$> drop_ref f l
  end.

#[export] Instance refs_ops : FileOps held_refs := {|
  fo_filedup f := infs (fun s => if bool_decide (f ∈ s.1) then Ok f (f :: s.1, s.2) else Fail (EPanic "filedup"));
  fo_fileclose f := infs (fun s => match drop_ref f s.1 with
                                        | Some l => Ok tt (l, s.2) | None => Fail (EPanic "fileclose") end);
  fo_idup i := infs (fun s => Ok i (s.1, i :: s.2));
  fo_iput i := infs (fun s => match drop_ref i s.2 with
                                   | Some l => Ok tt (s.1, l) | None => Fail (EPanic "iput") end);
  fo_begin_op := ret tt;
  fo_end_op := ret tt;
  fo_namei_root := infs (fun s => Ok 1 (s.1, 1 :: s.2));
|}.

Lemma drop_ref_perm f l l' : l ≡ₚ f :: l' -> exists l'', drop_ref f l = Some l'' /\ l'' ≡ₚ l'.
Proof.
  revert l'. induction l as [|x l IH]; intros l' Hp; [by apply Permutation_nil_cons in Hp|].
  cbn [drop_ref]. destruct (Z.eqb_spec x f) as [->|Hne].
  - exists l. split; [done|]. by apply Permutation_cons_inv in Hp.
  - assert (Hin : x ∈ l').
    { assert (Hx : x ∈ f :: l') by (rewrite <- Hp; left). by apply elem_of_cons in Hx as [?|?]. }
    apply elem_of_Permutation in Hin as [k Hk].
    destruct (IH (k)) as (l'' & -> & Hl'').
    { rewrite Hk in Hp. rewrite (Permutation_swap x f k) in Hp. by apply Permutation_cons_inv in Hp. }
    exists (x :: l''). split; [done|]. by rewrite Hk, Hl''.
Qed.

Lemma fo_frame_pfs {F} `{Linker} i (s : pst F) x : fo_frame i s (set_pfs x s).
Proof. split; [apply lk_same_refl|]. split; [apply woke_only_refl|done]. Qed.

#[export] Instance refs_ops_ok : FileOpsOk held_refs.
Proof.
  refine {| fo_inv s fs ips := (pfs s).1 ≡ₚ fs /\ (pfs s).2 ≡ₚ ips |}.
  - intros s fs fs' ips Hp [? ?]. by rewrite <- Hp.
  - intros s s' fs ips Hpf _ _ Hi. by rewrite Hpf.
  - intros i s f fs ips _ _ [Hf Hi]. unfold wp. simpl. unfold infs, zoom. rewrite bool_decide_eq_true_2.
    + split; [done|]. split; [|apply fo_frame_pfs]. simpl. by rewrite Hf.
    + rewrite Hf. left.
  - intros i s f fs ips _ [Hf Hi]. destruct (drop_ref_perm f (pfs s).1 fs Hf) as (l & E & Hl).
    unfold wp, fo_fileclose, refs_ops, infs, zoom. rewrite E. split; [done|apply fo_frame_pfs].
  - intros i s k fs ips _ _ [Hf Hi]. unfold wp. simpl. unfold infs, zoom.
    split; [done|]. split; [|apply fo_frame_pfs]. simpl. by rewrite Hi.
  - intros i s k fs ips _ [Hf Hi]. destruct (drop_ref_perm k (pfs s).2 ips Hi) as (l & E & Hl).
    unfold wp, fo_begin_op, fo_iput, fo_end_op, refs_ops, bind, ret, infs, zoom. rewrite E. split; [done|apply fo_frame_pfs].
Defined.

(** ** The table *)

Definition proc0 : proc :=
  Proc UNUSED 0 0 0 (-1) 0 0 0 0 0 None 0 0 0 0 0 0 (replicate 16 0) 0.
Definition ex_init : proc :=
  with_cwd 1 (with_accumulator 3 (with_ps_priority 5 (with_chan (paddr 0) (with_state SLEEPING (with_pid 1 proc0))))).
Definition ex_runner : proc :=
  with_cwd 1 (with_ofile (<[0%nat := 7]> (replicate 16 0)) (with_accumulator 10 (with_ps_priority 5
    (with_pagetable ex_root (with_sz 4096 (with_parent (Some 0%nat) (with_state RUNNABLE (with_pid 2 proc0)))))))).
Definition ex_zombie : proc := with_parent (Some 1%nat) (with_state ZOMBIE (with_pid 3 proc0)).
Definition ex_other : proc :=
  with_accumulator 4 (with_ps_priority 2 (with_parent (Some 0%nat) (with_state RUNNABLE (with_pid 4 proc0)))).
Definition ex_procs : list proc := [ex_init; ex_runner; ex_zombie; ex_other] ++ replicate 60 proc0.

Definition ex_lk (me : option nat) : lkst :=
  LkSt [Cpu me 0 false] 0 true (fun _ => Spinlock false None).
Definition ex_pst (me : option nat) : pst held_refs :=
  PSt ex_state ex_procs (Some 0%nat) 5 0 (ex_lk me) ([7], [1]).

Lemma ex_runs me : runs (ex_lk me) me 0.
Proof.
  split.
  - exists (Cpu me 0 false). repeat split; simpl; lia || done.
  - exists (Cpu me 0 false). repeat split; simpl; lia || done.
Qed.

Lemma ex_msg_ok i : (i < nproc)%nat -> msg_ok (phys ex_state) i.
Proof.
  intros Hi. exists 0. split; [lia|]. rewrite Z.add_0_r.
  assert (Hall : forallb (fun i => rd (phys ex_state) (paddr i + OFF_exit_msg) =? 0) (seq 0 nproc) = true)
    by (vm_compute; reflexivity).
  rewrite forallb_forall in Hall. apply Z.eqb_eq, Hall, in_seq. lia.
Qed.
