(* ===== verification/ProcTheorems.v ===== *)
(** * Main theorems on processes

    The properties of [kernel/proc.c], stated over the process table, each
    with an instance on a concrete table. *)

From S2P Require Import Prelude Riscv Mem CString Kalloc Vm PageTable VmSpec UvmSpec UserCopy.
From S2P Require Import MemExample Spinlock Proc ProcSpec ProcExit ProcWait ProcExample.

(** ** Scheduling rounds

    One round: the scheduler picks a process, which runs until it yields. *)

Section Rounds.
Context `{Linker} {F : Type} `{FileOps F}.

Definition round (s : pst F) : option (nat * pst F) :=
  match pick s with
  | Ok (Some r) s' => Some (r, set_procs (alter yielded r (procs s')) s')
  | _ => None
  end.
(** The processes picked in the next [n] rounds. *)
Fixpoint picks (n : nat) (s : pst F) : list nat :=
  match n with
  | O => []
  | S n => match round s with Some (r, s') => r :: picks n s' | None => [] end
  end.

(** How many rounds the other processes can be ahead of an accumulator [a]. *)
Definition lead (a : Z) (p : proc) : nat :=
  if is_running p then Z.to_nat (a - accumulator p + 1) else 0.
Definition total_lead (a : Z) (ps : list proc) : nat := sum_list_with (lead a) ps.

(** Accumulators and priorities of the processes that compete. *)
Definition fair (ps : list proc) : Prop :=
  forall i p, ps !! i = Some p -> is_running p = true ->
    - 2 ^ 31 <= accumulator p /\ 1 <= ps_priority p < 2 ^ 31.

Lemma sum_list_with_alter f g i (ps : list proc) p :
  ps !! i = Some p -> (f (g p) < f p)%nat ->
  (sum_list_with f (alter g i ps) < sum_list_with f ps)%nat.
Proof.
  revert i. induction ps as [|q ps IH]; intros i Hi Hlt; [done|].
  destruct i as [|i]; simpl in *; [injection Hi as <-; lia|].
  specialize (IH i Hi Hlt). change (list_alter g i ps) with (alter g i ps) in *. lia.
Qed.

Lemma yielded_running p : is_running (yielded p) = true.
Proof. done. Qed.

Lemma round_spec s k pk :
  length (procs s) = nproc -> fair (procs s) -> procs s !! k = Some pk -> is_running pk = true ->
  accumulator pk < INT_MAX ->
  exists r s', round s = Some (r, s') /\ length (procs s') = nproc /\ fair (procs s') /\
    (r = k \/ (procs s' !! k = Some pk /\
       (total_lead (accumulator pk) (procs s') < total_lead (accumulator pk) (procs s))%nat)).
Proof.
  intros Hlen Hfair Hk Hr Hlt.
  assert (Hp : wp pick s (fun r s' => r = pick_from (procs s) 0 INT_MAX None /\ s' = s))
    by (by apply pick_wp).
  apply wp_ok in Hp as (o & s' & Hp & -> & ->). unfold round. rewrite Hp.
  destruct (pick_from_spec (procs s) 0 INT_MAX None) as [[E Hmin]|(r & p & Hrp & -> & Hpr & Hplt & Hmin)].
  { lia. } { intros j q Hj Hq. by destruct (Hfair j q Hj Hq). }
  { specialize (Hmin k pk Hk Hr). lia. }
  rewrite Nat.add_0_l. eexists _, _. split; [done|]. cbn [procs set_procs].
  destruct (Hfair r p Hrp Hpr) as [Hlo Hprio]. destruct (Hmin k pk Hk Hr) as [Hle _].
  assert (Hacc : accumulator (yielded p) = accumulator p + ps_priority p).
  { simpl. unfold i64, INT_MAX in *. rewrite Z.mod_small; lia. }
  split_and!; [by rewrite length_alter| |].
  - intros i q. rewrite list_lookup_alter. case_decide as E; [|apply Hfair].
    subst i. rewrite Hrp. intros [= <-] _. rewrite Hacc. simpl. lia.
  - destruct (decide (r = k)) as [->|Hne]; [by left|right].
    split; [by rewrite list_lookup_alter_ne|]. apply (sum_list_with_alter _ _ _ _ p); [done|].
    unfold lead. rewrite yielded_running, Hpr, Hacc. lia.
Qed.

Lemma picks_lead n s k pk :
  length (procs s) = nproc -> fair (procs s) -> procs s !! k = Some pk -> is_running pk = true ->
  accumulator pk < INT_MAX -> (total_lead (accumulator pk) (procs s) <= n)%nat -> (0 < n)%nat ->
  k ∈ picks n s.
Proof.
  revert s. induction n as [|n IH]; intros s Hlen Hfair Hk Hr Hlt Hn Hpos; [lia|].
  cbn [picks]. destruct (round_spec s k pk) as (r & s' & -> & Hlen' & Hfair' & Hcase); try done.
  destruct Hcase as [->|[Hk' Hlead]]; [left|right].
  assert (Hself : (0 < total_lead (accumulator pk) (procs s'))%nat).
  { unfold total_lead. clear -Hk' Hr. revert k Hk'.
    induction (procs s') as [|q l IHl]; intros k Hk'; [done|].
    destruct k; simpl in *; [injection Hk' as ->; unfold lead; rewrite Hr; lia|].
    specialize (IHl _ Hk'). lia. }
  apply IH; try done; lia.
Qed.
End Rounds.

Section Theorems.
Context `{LinkerOk} {F : Type} `{FileOps F}.
Implicit Types (s : pst F).

(** [set_accumulator] gives a process the least accumulator below
    [INT_MAX] of the other running and runnable processes, or 0 when there is
    none, and changes nothing else. *)
Theorem set_accumulator_spec s (np : nat) (Hlen : length (procs s) = nproc) (Hnp : (np < nproc)%nat) :
  wp (set_accumulator np) s (fun _ s' => exists v,
    s' = set_procs (alter (with_accumulator v) np (procs s)) s /\
    ((exists k p, procs s !! k = Some p /\ k <> np /\ is_running p = true /\ accumulator p = v /\
        v < INT_MAX /\ forall j q, procs s !! j = Some q -> j <> np -> is_running q = true ->
          v <= accumulator q) \/
     (v = 0 /\ forall j q, procs s !! j = Some q -> j <> np -> is_running q = true ->
        INT_MAX <= accumulator q))).
Proof.
  apply set_accumulator_wp; [done|done|]. eexists. split; [done|]. apply acc_floor_spec.
Qed.

(** C11: the selection loop of [scheduler] chooses, among the running and
    runnable processes with an accumulator below [INT_MAX], the one with the
    least accumulator, the first of these in the table; it chooses none only
    when there is no such process. *)
Theorem scheduler_picks_least s (Hlen : length (procs s) = nproc)
    (Hlo : forall k p, procs s !! k = Some p -> is_running p = true -> - 2 ^ 31 <= accumulator p) :
  wp pick s (fun r s' => s' = s /\
    match r with
    | None => forall k p, procs s !! k = Some p -> is_running p = true -> INT_MAX <= accumulator p
    | Some k => exists p, procs s !! k = Some p /\ is_running p = true /\ accumulator p < INT_MAX /\
        forall j q, procs s !! j = Some q -> is_running q = true ->
          accumulator p <= accumulator q /\ ((j < k)%nat -> accumulator p < accumulator q)
    end).
Proof.
  apply pick_wp; [done|]. split; [done|].
  destruct (pick_from_spec (procs s) 0 INT_MAX None) as [[-> Hmin]|(k & p & Hk & -> & ?)]; try done.
  simpl. exists p. done.
Qed.


(** C34: a turn of [scheduler] that finds a process to run writes to
    proc[NPROC], one past the end of the process table: the loop variable,
    not the chosen process, is marked running. *)
Theorem scheduler_writes_past_table s (c : cpu) (k : nat) (p : proc)
    (Hlen : length (procs s) = nproc) (Hc : cpus (plk s) !! hart (plk s) = Some c) (Hn : noff c = 0)
    (Hfree : forall i, lock_free (plk s) (ProcLock i))
    (Hlo : forall k p, procs s !! k = Some p -> is_running p = true -> - 2 ^ 31 <= accumulator p)
    (Hk : procs s !! k = Some p) (Hr : is_running p = true) (Hlt : accumulator p < INT_MAX) :
  scheduler_enter s = Fail (EUB "proc[]").
Proof.
  apply (scheduler_enter_ub s c); try done.
  destruct (pick_from_spec (procs s) 0 INT_MAX None) as [[_ Hmin]|(j & q & _ & -> & _)]; try done.
  specialize (Hmin k p Hk Hr). lia.
Qed.

(** [wakeup] makes exactly the processes asleep on the channel runnable,
    the caller apart, all with the accumulator floor of the table; nothing
    else changes and every lock is given back. *)
Theorem wakeup_spec s (ch : Z) (me : option nat) (n : Z)
    (Hlen : length (procs s) = nproc) (Hr : runs (plk s) me n) (Hn : n + 1 < 2 ^ 31 - 10)
    (Hfree : forall i, Some i <> me -> lock_free (plk s) (ProcLock i)) :
  wp (wakeup ch) s (fun _ s' => exists l, lk_same (plk s) l /\
    s' = set_plk l (set_procs (imap (fun i p =>
      if decide (Some i <> me /\ state p = SLEEPING /\ chan p = ch)
      then with_accumulator (acc_floor (procs s) nproc) (with_state RUNNABLE p) else p) (procs s)) s)).
Proof.
  apply (wakeup_wp s ch me n); try done. intros l Hl. exists l. split; [done|]. do 2 f_equal.
  apply imap_ext. intros i p _. unfold woken. rewrite Hlen.
  destruct (bool_decide_reflect (Some i <> me)), (bool_decide_reflect (state p = SLEEPING)),
    (Z.eqb_spec (chan p) ch); simpl; case_decide; tauto.
Qed.

(** [kill] marks the first process with the given pid as killed, wakes it
    if it sleeps, and returns 0; it returns -1 and changes nothing when no
    process has the pid. *)
Theorem kill_spec s (pd : Z) (me : option nat) (n : Z)
    (Hlen : length (procs s) = nproc) (Hr : runs (plk s) me n) (Hn : n + 1 < 2 ^ 31 - 10)
    (Hfree : forall i, lock_free (plk s) (ProcLock i)) :
  wp (kill pd) s (fun r s' => exists l, lk_same (plk s) l /\
    ((r = 0 /\ exists i p, procs s !! i = Some p /\ pid p = pd /\
        (forall j q, (j < i)%nat -> procs s !! j = Some q -> pid q <> pd) /\
        s' = set_plk l (set_procs (<[i :=
          if decide (state p = SLEEPING)
          then with_accumulator (i64 (accumulator p + ps_priority p))
                 (with_state RUNNABLE (with_killed 1 p))
          else with_killed 1 p]> (procs s)) s)) \/
     (r = -1 /\ (forall j q, procs s !! j = Some q -> pid q <> pd) /\ s' = set_plk l s))).
Proof.
  unfold kill. rewrite <- Hlen. apply (kill_loop_wp _ _ s pd me n); try done.
  - intros l i p Hl _ Hp Hpd Hbef. exists l. split; [done|]. left. split; [done|]. exists i, p.
    split_and!; try done; [intros j q Hj; apply (Hbef j q); lia|]. do 2 f_equal.
    rewrite list_insert_alter. apply list_alter_ext; [|done].
    intros q. rewrite Hp. by intros [= <-].
  - intros l Hl Hall. exists l. split; [done|]. right. split_and!; try done.
    intros j q Hq. by apply (Hall j); [lia|].
Qed.

(** C22: [exit] of a process that is not the first one leaves it a zombie with
    its status and message recorded, no open files and no current directory,
    all its references released; its children have the first process as
    parent and its parent, if asleep in [wait], is runnable.  It enters the
    scheduler holding only its own lock.  The kernel's variables other than the
    buffer cache are otherwise as they were. *)
Theorem exit_spec `{!FileOpsOk F} s (i : nat) (p : proc) (status msg : Z) (fs ips : list Z)
    (Hc : calm i s) (Hinit : initproc s <> Some i) (Hmsg : msg <> 0)
    (Hp : procs s !! i = Some p) (Hpar : parent p <> Some i) (Hof : length (ofile p) = 16%nat)
    (Hinv : fo_inv s (filter (fun f => f <> 0) (ofile p) ++ fs) (cwd p :: ips)) :
  wp (exit status msg) s (fun _ s' =>
    procs s' !! i = Some (with_state ZOMBIE (with_cwd 0 (with_ofile (replicate 16 0) p))) /\
    (exists m, phys (pk s') = exit_mem i msg status m /\
      forall a, kernel_var a -> rd m a = rd (phys (pk s)) a) /\
    acquired (ProcLock i) (plk s) (plk s') /\ fo_inv s' fs ips /\
    forall j q, j <> i -> procs s !! j = Some q -> exists q', procs s' !! j = Some q' /\
      parent q' = (if decide (parent q = Some i) then initproc s else parent q) /\
      (state q = SLEEPING -> chan q = ptr_chan (parent p) -> state q' = RUNNABLE)).
Proof.
  apply (exit_wp s i p status msg fs ips); try done. intros l s1 Hl Hfs (_ & [_ Fw] & Fp & _ & Fm).
  cbn [procs pk plk pfs phys set_procs] in *. rewrite list_lookup_alter_eq, Hp in Fp.
  assert (Hi : (i < nproc)%nat).
  { destruct Hc as (_ & _ & <- & _). by apply lookup_lt_Some in Hp. }
  split_and!; [by apply exit_table_me|by eexists|done| |].
  - eapply fo_inv_ext; [| | |exact Hfs]; [done|done|]. intros a [Ha _]. by apply exit_mem_above.
  - intros j q Hne Hq. destruct (Fw j q) as (q1 & Hq1 & Hw); [by rewrite list_lookup_alter_ne|].
    destruct (exit_table_other (initproc s) (parent p) i j (procs s1) q1) as (q' & Hq' & Hpq & Hst); [done|done|].
    exists q'. split; [done|]. split; [|intros E1 E2; apply Hst];
      destruct Hw as [->|(v & Hv & ->)]; cbn [parent state chan with_accumulator with_state] in *; auto.
Qed.


End Theorems.

(** ** The theorems on a concrete table *)

Lemma ex_procs_low k p :
  ex_procs !! k = Some p -> is_running p = true -> - 2 ^ 31 <= accumulator p /\ 1 <= ps_priority p < 2 ^ 31.
Proof.
  intros Hk Hr. assert (Hall : forallb (fun p => negb (is_running p) ||
    ((- 2 ^ 31 <=? accumulator p) && (1 <=? ps_priority p) && (ps_priority p <? 2 ^ 31))) ex_procs = true)
    by (vm_compute; reflexivity).
  rewrite forallb_forall in Hall. specialize (Hall p). rewrite Hr in Hall.
  apply list_elem_of_lookup_2, list_elem_of_In, Hall in Hk. simpl in Hk.
  rewrite !andb_true_iff in Hk. lia.
Qed.


Lemma scheduler_picks_least_witness :
  wp pick (ex_pst None) (fun r s' => s' = ex_pst None /\
    match r with
    | None => forall k p, ex_procs !! k = Some p -> is_running p = true -> INT_MAX <= accumulator p
    | Some k => exists p, ex_procs !! k = Some p /\ is_running p = true /\ accumulator p < INT_MAX /\
        forall j q, ex_procs !! j = Some q -> is_running q = true ->
          accumulator p <= accumulator q /\ ((j < k)%nat -> accumulator p < accumulator q)
    end).
Proof.
  apply (scheduler_picks_least (ex_pst None)); [reflexivity|].
  intros k p Hk Hr. by destruct (ex_procs_low k p Hk Hr).
Defined.


Lemma scheduler_writes_past_table_witness : scheduler_enter (ex_pst None) = Fail (EUB "proc[]").
Proof.
  apply (scheduler_writes_past_table (ex_pst None) (Cpu None 0 false) 1 ex_runner);
    try reflexivity.
  intros k p Hk Hr. by destruct (ex_procs_low k p Hk Hr).
Defined.


Lemma exit_spec_witness :
  wp (exit 0 ex_buf) (ex_pst (Some 1%nat)) (fun _ s' =>
    procs s' !! 1%nat = Some (with_state ZOMBIE (with_cwd 0 (with_ofile (replicate 16 0) ex_runner))) /\
    (exists m, phys (pk s') = exit_mem 1 ex_buf 0 m /\ forall a, kernel_var a -> rd m a = rd (phys ex_state) a) /\
    acquired (ProcLock 1) (ex_lk (Some 1%nat)) (plk s') /\ fo_inv s' [] [] /\
    forall j q, j <> 1%nat -> ex_procs !! j = Some q -> exists q', procs s' !! j = Some q' /\
      parent q' = (if decide (parent q = Some 1%nat) then Some 0%nat else parent q) /\
      (state q = SLEEPING -> chan q = paddr 0 -> state q' = RUNNABLE)).
Proof.
  apply (exit_spec (ex_pst (Some 1%nat)) 1 ex_runner 0 ex_buf [] []);
    [|discriminate|discriminate|reflexivity|discriminate|reflexivity|].
  - split; [apply ex_runs|]. split; [reflexivity|]. split; [reflexivity|]. exists ex_runner. reflexivity.
  - split; reflexivity.
Defined.

