(* ===== verification/IoState.v ===== *)
(** * Structures of the file system and of the devices

    The structures of [kernel/sleeplock.h], [kernel/buf.h], [kernel/fs.h] and
    [kernel/file.h] and the variables of [bio.c], [log.c], [fs.c],
    [file.c] and [virtio_disk.c].  A pointer to an element of a static array is its index.  The
    data of a block is a list of [BSIZE] bytes. *)

From S2P Require Import Prelude Riscv.

Definition BSIZE : Z := 1024.
Definition bsize : nat := 1024.
Definition nbuf : nat := 30.
Definition ninode : nat := 50.
Definition nfile : nat := 100.
Definition logsize : nat := 30.

Record sleeplock := SleepLock {
  sl_locked : Z;
  sl_pid : Z;   (** process holding lock *)
}.
Definition set_sl_locked (v : Z) (l : sleeplock) : sleeplock :=
  SleepLock v (sl_pid l).
Definition set_sl_pid (v : Z) (l : sleeplock) : sleeplock :=
  SleepLock (sl_locked l) v.

(** A cached copy of a disk block; [b_prev] and [b_next] are indices into the
    array of buffers, [nbuf] being [bcache.head], which follows [bcache.buf]. *)
Record buf := Buf {
  b_valid : Z;   (** has data been read from disk? *)
  b_disk : Z;   (** does disk own buf? *)
  b_dev : Z;
  b_blockno : Z;
  b_lock : sleeplock;
  b_refcnt : Z;
  b_prev : nat;
  b_next : nat;
  b_data : list Z;
}.
Definition set_b_valid (v : Z) (b : buf) : buf :=
  Buf v (b_disk b) (b_dev b) (b_blockno b) (b_lock b) (b_refcnt b) (b_prev b) (b_next b)
    (b_data b).
Definition set_b_disk (v : Z) (b : buf) : buf :=
  Buf (b_valid b) v (b_dev b) (b_blockno b) (b_lock b) (b_refcnt b) (b_prev b) (b_next b)
    (b_data b).
Definition set_b_dev (v : Z) (b : buf) : buf :=
  Buf (b_valid b) (b_disk b) v (b_blockno b) (b_lock b) (b_refcnt b) (b_prev b) (b_next b)
    (b_data b).
Definition set_b_blockno (v : Z) (b : buf) : buf :=
  Buf (b_valid b) (b_disk b) (b_dev b) v (b_lock b) (b_refcnt b) (b_prev b) (b_next b)
    (b_data b).
Definition set_b_lock (v : sleeplock) (b : buf) : buf :=
  Buf (b_valid b) (b_disk b) (b_dev b) (b_blockno b) v (b_refcnt b) (b_prev b) (b_next b)
    (b_data b).
Definition set_b_refcnt (v : Z) (b : buf) : buf :=
  Buf (b_valid b) (b_disk b) (b_dev b) (b_blockno b) (b_lock b) v (b_prev b) (b_next b)
    (b_data b).
Definition set_b_prev (v : nat) (b : buf) : buf :=
  Buf (b_valid b) (b_disk b) (b_dev b) (b_blockno b) (b_lock b) (b_refcnt b) v (b_next b)
    (b_data b).
Definition set_b_next (v : nat) (b : buf) : buf :=
  Buf (b_valid b) (b_disk b) (b_dev b) (b_blockno b) (b_lock b) (b_refcnt b) (b_prev b) v
    (b_data b).
Definition set_b_data (v : list Z) (b : buf) : buf :=
  Buf (b_valid b) (b_disk b) (b_dev b) (b_blockno b) (b_lock b) (b_refcnt b) (b_prev b)
    (b_next b) v.

(** The disk: its contents at power-on and the writes performed since then,
    the latest first.  A block that was never written reads as it was. *)
Record disk := Disk { dk_base : Z -> list Z; dk_writes : list (Z * list Z) }.
Fixpoint last_write (ws : list (Z * list Z)) (b : Z) : option (list Z) :=
  match ws with
  | [] => None
  | (b', d) :: ws => if b' =? b then Some d else last_write ws b
  end.
Definition disk_read (dk : disk) (b : Z) : list Z :=
  default (dk_base dk b) (last_write (dk_writes dk) b).
Definition disk_write (b : Z) (d : list Z) (dk : disk) : disk :=
  Disk (dk_base dk) ((b, d) :: dk_writes dk).

(** The log; [lh_n] and [lh_block] are the members of [log.lh]. *)
Record log := Log {
  lg_start : Z;
  lg_size : Z;
  outstanding : Z;   (** how many FS sys calls are executing *)
  committing : Z;   (** in commit(), please wait *)
  lg_dev : Z;
  lh_n : Z;
  lh_block : list Z;
}.
Definition set_lg_start (v : Z) (g : log) : log :=
  Log v (lg_size g) (outstanding g) (committing g) (lg_dev g) (lh_n g) (lh_block g).
Definition set_lg_size (v : Z) (g : log) : log :=
  Log (lg_start g) v (outstanding g) (committing g) (lg_dev g) (lh_n g) (lh_block g).
Definition set_outstanding (v : Z) (g : log) : log :=
  Log (lg_start g) (lg_size g) v (committing g) (lg_dev g) (lh_n g) (lh_block g).
Definition set_committing (v : Z) (g : log) : log :=
  Log (lg_start g) (lg_size g) (outstanding g) v (lg_dev g) (lh_n g) (lh_block g).
Definition set_lg_dev (v : Z) (g : log) : log :=
  Log (lg_start g) (lg_size g) (outstanding g) (committing g) v (lh_n g) (lh_block g).
Definition set_lh_n (v : Z) (g : log) : log :=
  Log (lg_start g) (lg_size g) (outstanding g) (committing g) (lg_dev g) v (lh_block g).
Definition set_lh_block (v : list Z) (g : log) : log :=
  Log (lg_start g) (lg_size g) (outstanding g) (committing g) (lg_dev g) (lh_n g) v.

Record superblock := Superblock {
  sb_magic : Z;
  sb_size : Z;   (** size of file system image (blocks) *)
  sb_nblocks : Z;
  sb_ninodes : Z;
  sb_nlog : Z;
  sb_logstart : Z;
  sb_inodestart : Z;
  sb_bmapstart : Z;
}.
Definition set_sb_magic (v : Z) (b : superblock) : superblock :=
  Superblock v (sb_size b) (sb_nblocks b) (sb_ninodes b) (sb_nlog b) (sb_logstart b)
    (sb_inodestart b) (sb_bmapstart b).
Definition set_sb_size (v : Z) (b : superblock) : superblock :=
  Superblock (sb_magic b) v (sb_nblocks b) (sb_ninodes b) (sb_nlog b) (sb_logstart b)
    (sb_inodestart b) (sb_bmapstart b).
Definition set_sb_nblocks (v : Z) (b : superblock) : superblock :=
  Superblock (sb_magic b) (sb_size b) v (sb_ninodes b) (sb_nlog b) (sb_logstart b)
    (sb_inodestart b) (sb_bmapstart b).
Definition set_sb_ninodes (v : Z) (b : superblock) : superblock :=
  Superblock (sb_magic b) (sb_size b) (sb_nblocks b) v (sb_nlog b) (sb_logstart b)
    (sb_inodestart b) (sb_bmapstart b).
Definition set_sb_nlog (v : Z) (b : superblock) : superblock :=
  Superblock (sb_magic b) (sb_size b) (sb_nblocks b) (sb_ninodes b) v (sb_logstart b)
    (sb_inodestart b) (sb_bmapstart b).
Definition set_sb_logstart (v : Z) (b : superblock) : superblock :=
  Superblock (sb_magic b) (sb_size b) (sb_nblocks b) (sb_ninodes b) (sb_nlog b) v
    (sb_inodestart b) (sb_bmapstart b).
Definition set_sb_inodestart (v : Z) (b : superblock) : superblock :=
  Superblock (sb_magic b) (sb_size b) (sb_nblocks b) (sb_ninodes b) (sb_nlog b)
    (sb_logstart b) v (sb_bmapstart b).
Definition set_sb_bmapstart (v : Z) (b : superblock) : superblock :=
  Superblock (sb_magic b) (sb_size b) (sb_nblocks b) (sb_ninodes b) (sb_nlog b)
    (sb_logstart b) (sb_inodestart b) v.

(** In-memory copy of an inode. *)
Record inode := Inode {
  i_dev : Z;
  i_inum : Z;
  i_ref : Z;   (** reference count *)
  i_lock : sleeplock;   (** protects everything below here *)
  i_valid : Z;   (** inode has been read from disk? *)
  i_type : Z;   (** copy of disk inode *)
  i_major : Z;
  i_minor : Z;
  i_nlink : Z;
  i_size : Z;
  i_addrs : list Z;
}.
Definition set_i_dev (v : Z) (n : inode) : inode :=
  Inode v (i_inum n) (i_ref n) (i_lock n) (i_valid n) (i_type n) (i_major n) (i_minor n)
    (i_nlink n) (i_size n) (i_addrs n).
Definition set_i_inum (v : Z) (n : inode) : inode :=
  Inode (i_dev n) v (i_ref n) (i_lock n) (i_valid n) (i_type n) (i_major n) (i_minor n)
    (i_nlink n) (i_size n) (i_addrs n).
Definition set_i_ref (v : Z) (n : inode) : inode :=
  Inode (i_dev n) (i_inum n) v (i_lock n) (i_valid n) (i_type n) (i_major n) (i_minor n)
    (i_nlink n) (i_size n) (i_addrs n).
Definition set_i_lock (v : sleeplock) (n : inode) : inode :=
  Inode (i_dev n) (i_inum n) (i_ref n) v (i_valid n) (i_type n) (i_major n) (i_minor n)
    (i_nlink n) (i_size n) (i_addrs n).
Definition set_i_valid (v : Z) (n : inode) : inode :=
  Inode (i_dev n) (i_inum n) (i_ref n) (i_lock n) v (i_type n) (i_major n) (i_minor n)
    (i_nlink n) (i_size n) (i_addrs n).
Definition set_i_type (v : Z) (n : inode) : inode :=
  Inode (i_dev n) (i_inum n) (i_ref n) (i_lock n) (i_valid n) v (i_major n) (i_minor n)
    (i_nlink n) (i_size n) (i_addrs n).
Definition set_i_major (v : Z) (n : inode) : inode :=
  Inode (i_dev n) (i_inum n) (i_ref n) (i_lock n) (i_valid n) (i_type n) v (i_minor n)
    (i_nlink n) (i_size n) (i_addrs n).
Definition set_i_minor (v : Z) (n : inode) : inode :=
  Inode (i_dev n) (i_inum n) (i_ref n) (i_lock n) (i_valid n) (i_type n) (i_major n) v
    (i_nlink n) (i_size n) (i_addrs n).
Definition set_i_nlink (v : Z) (n : inode) : inode :=
  Inode (i_dev n) (i_inum n) (i_ref n) (i_lock n) (i_valid n) (i_type n) (i_major n)
    (i_minor n) v (i_size n) (i_addrs n).
Definition set_i_size (v : Z) (n : inode) : inode :=
  Inode (i_dev n) (i_inum n) (i_ref n) (i_lock n) (i_valid n) (i_type n) (i_major n)
    (i_minor n) (i_nlink n) v (i_addrs n).
Definition set_i_addrs (v : list Z) (n : inode) : inode :=
  Inode (i_dev n) (i_inum n) (i_ref n) (i_lock n) (i_valid n) (i_type n) (i_major n)
    (i_minor n) (i_nlink n) (i_size n) v.

Inductive fdtype := FD_NONE | FD_PIPE | FD_INODE | FD_DEVICE.

#[export] Instance fdtype_eq_dec : EqDecision fdtype.
Proof. solve_decision. Defined.

Record file := File {
  f_type : fdtype;
  f_ref : Z;   (** reference count *)
  f_readable : Z;
  f_writable : Z;
  f_pipe : Z;   (** FD_PIPE: address of the pipe *)
  f_ip : nat;   (** FD_INODE and FD_DEVICE *)
  f_off : Z;   (** FD_INODE *)
  f_major : Z;   (** FD_DEVICE *)
}.
Definition set_f_type (v : fdtype) (f : file) : file :=
  File v (f_ref f) (f_readable f) (f_writable f) (f_pipe f) (f_ip f) (f_off f) (f_major f).
Definition set_f_ref (v : Z) (f : file) : file :=
  File (f_type f) v (f_readable f) (f_writable f) (f_pipe f) (f_ip f) (f_off f) (f_major f).
Definition set_f_readable (v : Z) (f : file) : file :=
  File (f_type f) (f_ref f) v (f_writable f) (f_pipe f) (f_ip f) (f_off f) (f_major f).
Definition set_f_writable (v : Z) (f : file) : file :=
  File (f_type f) (f_ref f) (f_readable f) v (f_pipe f) (f_ip f) (f_off f) (f_major f).
Definition set_f_pipe (v : Z) (f : file) : file :=
  File (f_type f) (f_ref f) (f_readable f) (f_writable f) v (f_ip f) (f_off f) (f_major f).
Definition set_f_ip (v : nat) (f : file) : file :=
  File (f_type f) (f_ref f) (f_readable f) (f_writable f) (f_pipe f) v (f_off f) (f_major f).
Definition set_f_off (v : Z) (f : file) : file :=
  File (f_type f) (f_ref f) (f_readable f) (f_writable f) (f_pipe f) (f_ip f) v (f_major f).
Definition set_f_major (v : Z) (f : file) : file :=
  File (f_type f) (f_ref f) (f_readable f) (f_writable f) (f_pipe f) (f_ip f) (f_off f) v.

(** The console's input line and the transmit buffer of the uart, with the
    device: the bytes waiting at the receiver, how many bytes the transmitter
    can take before it is busy, the bytes sent and the values written to the
    control registers, the latest first. *)
Record console := Console {
  c_buf : list Z;
  c_r : Z;   (** read index *)
  c_w : Z;   (** write index *)
  c_e : Z;   (** edit index *)
}.
Definition set_c_buf (v : list Z) (c : console) : console :=
  Console v (c_r c) (c_w c) (c_e c).
Definition set_c_r (v : Z) (c : console) : console :=
  Console (c_buf c) v (c_w c) (c_e c).
Definition set_c_w (v : Z) (c : console) : console :=
  Console (c_buf c) (c_r c) v (c_e c).
Definition set_c_e (v : Z) (c : console) : console :=
  Console (c_buf c) (c_r c) (c_w c) v.
Record uart := Uart {
  tx_buf : list Z;
  tx_w : Z;
  tx_r : Z;
  u_rx : list Z;   (** received, not yet read *)
  u_room : nat;   (** bytes the transmitter still accepts *)
  u_sent : list Z;
  u_conf : list (Z * Z);   (** writes to the other registers *)
}.
Definition set_tx_buf (v : list Z) (u : uart) : uart :=
  Uart v (tx_w u) (tx_r u) (u_rx u) (u_room u) (u_sent u) (u_conf u).
Definition set_tx_w (v : Z) (u : uart) : uart :=
  Uart (tx_buf u) v (tx_r u) (u_rx u) (u_room u) (u_sent u) (u_conf u).
Definition set_tx_r (v : Z) (u : uart) : uart :=
  Uart (tx_buf u) (tx_w u) v (u_rx u) (u_room u) (u_sent u) (u_conf u).
Definition set_u_rx (v : list Z) (u : uart) : uart :=
  Uart (tx_buf u) (tx_w u) (tx_r u) v (u_room u) (u_sent u) (u_conf u).
Definition set_u_room (v : nat) (u : uart) : uart :=
  Uart (tx_buf u) (tx_w u) (tx_r u) (u_rx u) v (u_sent u) (u_conf u).
Definition set_u_sent (v : list Z) (u : uart) : uart :=
  Uart (tx_buf u) (tx_w u) (tx_r u) (u_rx u) (u_room u) v (u_conf u).
Definition set_u_conf (v : list (Z * Z)) (u : uart) : uart :=
  Uart (tx_buf u) (tx_w u) (tx_r u) (u_rx u) (u_room u) (u_sent u) v.

(** The driver's side of the virtio queue: the descriptor table, the two rings
    (of a used entry only the id is kept), and the driver's book-keeping.
    Descriptors point to a command header, to the data of a buffer or to a
    status byte, by their indices.  [vq_pages] are the pages of the queue and
    [vq_regs] the writes to the device's registers, the latest first;
    [dev_seen] is how far the device has read the avail ring. *)
Inductive dptr := DNull | DOps (i : nat) | DData (b : nat) | DStatus (i : nat).

Record virtq_desc := VirtqDesc {
  d_addr : dptr;
  d_len : Z;
  d_flags : Z;
  d_next : Z;
}.
Definition set_d_addr (v : dptr) (d : virtq_desc) : virtq_desc :=
  VirtqDesc v (d_len d) (d_flags d) (d_next d).
Definition set_d_len (v : Z) (d : virtq_desc) : virtq_desc :=
  VirtqDesc (d_addr d) v (d_flags d) (d_next d).
Definition set_d_flags (v : Z) (d : virtq_desc) : virtq_desc :=
  VirtqDesc (d_addr d) (d_len d) v (d_next d).
Definition set_d_next (v : Z) (d : virtq_desc) : virtq_desc :=
  VirtqDesc (d_addr d) (d_len d) (d_flags d) v.
Record blk_req := BlkReq {
  rq_type : Z;
  rq_reserved : Z;
  rq_sector : Z;
}.
Definition set_rq_type (v : Z) (r : blk_req) : blk_req :=
  BlkReq v (rq_reserved r) (rq_sector r).
Definition set_rq_reserved (v : Z) (r : blk_req) : blk_req :=
  BlkReq (rq_type r) v (rq_sector r).
Definition set_rq_sector (v : Z) (r : blk_req) : blk_req :=
  BlkReq (rq_type r) (rq_reserved r) v.
Record vinfo := VInfo {
  vi_b : option nat;
  vi_status : Z;
}.
Definition set_vi_b (v : option nat) (n : vinfo) : vinfo :=
  VInfo v (vi_status n).
Definition set_vi_status (v : Z) (n : vinfo) : vinfo :=
  VInfo (vi_b n) v.
Record vdisk := VDisk {
  vq_desc : list virtq_desc;
  avail_idx : Z;   (** avail->idx *)
  avail_ring : list Z;
  dev_idx : Z;   (** used->idx *)
  dev_ring : list Z;   (** used->ring[].id *)
  vq_free : list Z;
  used_idx : Z;   (** disk.used_idx *)
  vq_info : list vinfo;
  vq_ops : list blk_req;
  vq_pages : list Z;
  vq_regs : list (Z * Z);
  dev_seen : Z;
}.
Definition set_vq_desc (v : list virtq_desc) (d : vdisk) : vdisk :=
  VDisk v (avail_idx d) (avail_ring d) (dev_idx d) (dev_ring d) (vq_free d) (used_idx d)
    (vq_info d) (vq_ops d) (vq_pages d) (vq_regs d) (dev_seen d).
Definition set_avail_idx (v : Z) (d : vdisk) : vdisk :=
  VDisk (vq_desc d) v (avail_ring d) (dev_idx d) (dev_ring d) (vq_free d) (used_idx d)
    (vq_info d) (vq_ops d) (vq_pages d) (vq_regs d) (dev_seen d).
Definition set_avail_ring (v : list Z) (d : vdisk) : vdisk :=
  VDisk (vq_desc d) (avail_idx d) v (dev_idx d) (dev_ring d) (vq_free d) (used_idx d)
    (vq_info d) (vq_ops d) (vq_pages d) (vq_regs d) (dev_seen d).
Definition set_dev_idx (v : Z) (d : vdisk) : vdisk :=
  VDisk (vq_desc d) (avail_idx d) (avail_ring d) v (dev_ring d) (vq_free d) (used_idx d)
    (vq_info d) (vq_ops d) (vq_pages d) (vq_regs d) (dev_seen d).
Definition set_dev_ring (v : list Z) (d : vdisk) : vdisk :=
  VDisk (vq_desc d) (avail_idx d) (avail_ring d) (dev_idx d) v (vq_free d) (used_idx d)
    (vq_info d) (vq_ops d) (vq_pages d) (vq_regs d) (dev_seen d).
Definition set_vq_free (v : list Z) (d : vdisk) : vdisk :=
  VDisk (vq_desc d) (avail_idx d) (avail_ring d) (dev_idx d) (dev_ring d) v (used_idx d)
    (vq_info d) (vq_ops d) (vq_pages d) (vq_regs d) (dev_seen d).
Definition set_used_idx (v : Z) (d : vdisk) : vdisk :=
  VDisk (vq_desc d) (avail_idx d) (avail_ring d) (dev_idx d) (dev_ring d) (vq_free d) v
    (vq_info d) (vq_ops d) (vq_pages d) (vq_regs d) (dev_seen d).
Definition set_vq_info (v : list vinfo) (d : vdisk) : vdisk :=
  VDisk (vq_desc d) (avail_idx d) (avail_ring d) (dev_idx d) (dev_ring d) (vq_free d)
    (used_idx d) v (vq_ops d) (vq_pages d) (vq_regs d) (dev_seen d).
Definition set_vq_ops (v : list blk_req) (d : vdisk) : vdisk :=
  VDisk (vq_desc d) (avail_idx d) (avail_ring d) (dev_idx d) (dev_ring d) (vq_free d)
    (used_idx d) (vq_info d) v (vq_pages d) (vq_regs d) (dev_seen d).
Definition set_vq_pages (v : list Z) (d : vdisk) : vdisk :=
  VDisk (vq_desc d) (avail_idx d) (avail_ring d) (dev_idx d) (dev_ring d) (vq_free d)
    (used_idx d) (vq_info d) (vq_ops d) v (vq_regs d) (dev_seen d).
Definition set_vq_regs (v : list (Z * Z)) (d : vdisk) : vdisk :=
  VDisk (vq_desc d) (avail_idx d) (avail_ring d) (dev_idx d) (dev_ring d) (vq_free d)
    (used_idx d) (vq_info d) (vq_ops d) (vq_pages d) v (dev_seen d).
Definition set_dev_seen (v : Z) (d : vdisk) : vdisk :=
  VDisk (vq_desc d) (avail_idx d) (avail_ring d) (dev_idx d) (dev_ring d) (vq_free d)
    (used_idx d) (vq_info d) (vq_ops d) (vq_pages d) (vq_regs d) v.

(** Everything behind the file and device interfaces of the kernel. *)
Record iost := IoSt {
  bufs : list buf;   (** bcache.buf and bcache.head *)
  dsk : disk;
  lg : log;
  sb : superblock;
  itable : list inode;
  ftable : list file;
  cons : console;
  urt : uart;
  panicked : Z;
  pr_locking : Z;   (** pr.locking *)
  devsw : list bool;   (** is the entry the console's? *)
  vdk : vdisk;
}.
Definition set_bufs (v : list buf) (s : iost) : iost :=
  IoSt v (dsk s) (lg s) (sb s) (itable s) (ftable s) (cons s) (urt s) (panicked s)
    (pr_locking s) (devsw s) (vdk s).
Definition set_dsk (v : disk) (s : iost) : iost :=
  IoSt (bufs s) v (lg s) (sb s) (itable s) (ftable s) (cons s) (urt s) (panicked s)
    (pr_locking s) (devsw s) (vdk s).
Definition set_lg (v : log) (s : iost) : iost :=
  IoSt (bufs s) (dsk s) v (sb s) (itable s) (ftable s) (cons s) (urt s) (panicked s)
    (pr_locking s) (devsw s) (vdk s).
Definition set_sb (v : superblock) (s : iost) : iost :=
  IoSt (bufs s) (dsk s) (lg s) v (itable s) (ftable s) (cons s) (urt s) (panicked s)
    (pr_locking s) (devsw s) (vdk s).
Definition set_itable (v : list inode) (s : iost) : iost :=
  IoSt (bufs s) (dsk s) (lg s) (sb s) v (ftable s) (cons s) (urt s) (panicked s)
    (pr_locking s) (devsw s) (vdk s).
Definition set_ftable (v : list file) (s : iost) : iost :=
  IoSt (bufs s) (dsk s) (lg s) (sb s) (itable s) v (cons s) (urt s) (panicked s)
    (pr_locking s) (devsw s) (vdk s).
Definition set_cons (v : console) (s : iost) : iost :=
  IoSt (bufs s) (dsk s) (lg s) (sb s) (itable s) (ftable s) v (urt s) (panicked s)
    (pr_locking s) (devsw s) (vdk s).
Definition set_urt (v : uart) (s : iost) : iost :=
  IoSt (bufs s) (dsk s) (lg s) (sb s) (itable s) (ftable s) (cons s) v (panicked s)
    (pr_locking s) (devsw s) (vdk s).
Definition set_panicked (v : Z) (s : iost) : iost :=
  IoSt (bufs s) (dsk s) (lg s) (sb s) (itable s) (ftable s) (cons s) (urt s) v (pr_locking s)
    (devsw s) (vdk s).
Definition set_pr_locking (v : Z) (s : iost) : iost :=
  IoSt (bufs s) (dsk s) (lg s) (sb s) (itable s) (ftable s) (cons s) (urt s) (panicked s) v
    (devsw s) (vdk s).
Definition set_devsw (v : list bool) (s : iost) : iost :=
  IoSt (bufs s) (dsk s) (lg s) (sb s) (itable s) (ftable s) (cons s) (urt s) (panicked s)
    (pr_locking s) v (vdk s).
Definition set_vdk (v : vdisk) (s : iost) : iost :=
  IoSt (bufs s) (dsk s) (lg s) (sb s) (itable s) (ftable s) (cons s) (urt s) (panicked s)
    (pr_locking s) (devsw s) v.
