(* ===== verification/SleepLock.v ===== *)
(** * Sleep locks, and the kernel seen from a driver

    [kernel/sleeplock.c].  A routine that would go to sleep on a held lock
    ends in [EBlock].  The second half states what the routines of the file
    system and of the devices use of processes and spin locks: [kready] is
    the situation of a running process, [kframe] says that a routine has given
    back every lock and changed the process table by wakeups only. *)

From S2P Require Import Prelude Riscv Mem Kalloc Spinlock Proc ProcSpec ProcExit IoState.

Abbreviation kernel := (pst iost).
Abbreviation K := (M kernel).

(** A sleep lock in the state of the kernel, with its address. *)
Record slref := SlRef {
  sl_get : iost -> option sleeplock;
  sl_put : sleeplock -> iost -> iost;
  sl_addr : Z;
}.

Section Ops.
Context `{Linker}.
Local Open Scope kernel_scope.

(** Read and assign parts of the file system's state. *)
Definition iogets {A} (f : iost -> A) : K A := infs (gets f).
Definition iomod (f : iost -> iost) : K unit := infs (modify f).

Definition getsl (r : slref) : K sleeplock :=
  o <- iogets (sl_get r) ;;
  match o with Some l => ret l | None => ub "sleeplock" end.
Definition putsl (r : slref) (f : sleeplock -> sleeplock) : K unit :=
  l <- getsl r ;; iomod (sl_put r (f l)).

(** myproc()->pid *)
Definition mypid : K Z :=
  r <- myproc ;; i <- deref r ;; p <- getp i ;; ret (pid p).

Definition initsleeplock (lk : slref) : K unit :=
  inlk (initlock (SleepSpin (sl_addr lk))) ;;
  putsl lk (set_sl_locked 0) ;;
  putsl lk (set_sl_pid 0).

Definition acquiresleep (lk : slref) : K unit :=
  inlk (acquire (SleepSpin (sl_addr lk))) ;;
  l <- getsl lk ;;
  if ctrue (sl_locked l) then fail (EBlock "acquiresleep")
  else
    putsl lk (set_sl_locked 1) ;;
    pd <- mypid ;;
    putsl lk (set_sl_pid pd) ;;
    inlk (release (SleepSpin (sl_addr lk))).

Definition releasesleep (lk : slref) : K unit :=
  inlk (acquire (SleepSpin (sl_addr lk))) ;;
  putsl lk (set_sl_locked 0) ;;
  putsl lk (set_sl_pid 0) ;;
  wakeup (sl_addr lk) ;;
  inlk (release (SleepSpin (sl_addr lk))).

Definition holdingsleep (lk : slref) : K bool :=
  inlk (acquire (SleepSpin (sl_addr lk))) ;;
  l <- getsl lk ;;
  r <- (if ctrue (sl_locked l) then pd <- mypid ;; ret (sl_pid l =? pd) else ret false) ;;
  inlk (release (SleepSpin (sl_addr lk))) ;;
  ret r.

End Ops.

(** ** The situation of a running process *)

Section Kern.
Context `{Linker}.
Implicit Types (s : kernel) (i : nat) (held : list lockid).

(** Process [i] runs on this hart and holds exactly the spin locks [held];
    no other hart holds any. *)
Definition kready held i s : Prop :=
  runs (plk s) (Some i) (Z.of_nat (length held)) /\ (length held <= 8)%nat /\
  (forall l, l ∉ held -> lock_free (plk s) l) /\
  Forall (fun l => match l with ProcLock _ => False | _ => True end) held /\
  length (procs s) = nproc /\ is_Some (procs s !! i).

Definition pframe i s s' : Prop :=
  woke_only (procs s) (procs s') /\ procs s' !! i = procs s !! i /\
  pk s' = pk s /\ initproc s' = initproc s /\ nextpid s' = nextpid s /\ ticks s' = ticks s.

Definition kframe i s s' : Prop := lk_same (plk s) (plk s') /\ pframe i s s'.

(** Inside the critical section of [l] entered in [s]. *)
Definition inside l i s s' : Prop := acquired l (plk s) (plk s') /\ pframe i s s'.

(** The pid of the running process. *)
Definition cur_pid i s : Z := match procs s !! i with Some p => pid p | None => 0 end.

Lemma pframe_refl i s : pframe i s s.
Proof. repeat split; try done. apply woke_only_refl. Qed.

Lemma pframe_trans i s1 s2 s3 : pframe i s1 s2 -> pframe i s2 s3 -> pframe i s1 s3.
Proof.
  intros (A & B & C & D & E & G) (A' & B' & C' & D' & E' & G').
  split_and!; try congruence. by eapply woke_only_trans.
Qed.

Lemma kframe_refl i s : kframe i s s.
Proof. split; [apply lk_same_refl|apply pframe_refl]. Qed.

Lemma kframe_trans i s1 s2 s3 : kframe i s1 s2 -> kframe i s2 s3 -> kframe i s1 s3.
Proof. intros [A B] [A' B']. split; [by eapply lk_same_trans|by eapply pframe_trans]. Qed.

Lemma kframe_plk i s k : lk_same (plk s) k -> kframe i s (set_plk k s).
Proof. intros. split; [done|]. repeat split; try done. apply woke_only_refl. Qed.

Lemma kframe_pfs i s f : kframe i s (set_pfs f s).
Proof. split; [apply lk_same_refl|]. repeat split; try done. apply woke_only_refl. Qed.

Lemma kready_frame held i s s' : kready held i s -> kframe i s s' -> kready held i s'.
Proof.
  intros (Hr & Hn & Hf & Hp & Hl & Hi) [Hk ([Hw _] & Hs & _)]. split_and!; try done.
  - by eapply runs_same.
  - intros l Hni. eapply lk_same_free; eauto.
  - congruence.
  - by rewrite Hs.
Qed.

Lemma cur_pid_frame i s s' : kframe i s s' -> cur_pid i s' = cur_pid i s.
Proof. intros [_ (_ & E & _)]. unfold cur_pid. by rewrite E. Qed.

Lemma kready_hart held i s : kready held i s -> hart_ok (plk s).
Proof. intros (Hr & _). by eapply runs_hart_ok. Qed.

Lemma inside_frame l held i s s1 s2 :
  kready held i s -> inside l i s s1 -> kframe i s1 s2 -> inside l i s s2.
Proof.
  intros Hr [Ha Hp] [Hk Hp']. split; [|by eapply pframe_trans].
  destruct Hr as ((Hh & c & Hc & _) & _). destruct Hh as (c' & Hc' & Hn & _).
  rewrite Hc in Hc'. injection Hc' as <-. eapply acquired_same; [done|lia|done|done].
Qed.

Lemma kready_inside l held i s s1 :
  kready held i s -> l ∉ held -> (length held < 8)%nat ->
  match l with ProcLock _ => False | _ => True end ->
  inside l i s s1 -> kready (l :: held) i s1.
Proof.
  intros (Hr & Hn & Hf & Hp & Hl & Hi) Hni Hlen Hlp [Ha ([Hw _] & Hs & _)]. split_and!.
  - replace (Z.of_nat (length (l :: held))) with (Z.of_nat (length held) + 1) by (simpl; lia).
    eapply runs_acquired; [|done|done]. lia.
  - simpl. lia.
  - intros l' [Hne Hni']%not_elem_of_cons. destruct Ha as (_ & _ & _ & Hls & _).
    unfold lock_free. rewrite Hls by done. by apply Hf.
  - by constructor.
  - congruence.
  - by rewrite Hs.
Qed.

Lemma k_acq held i s l (Q : unit -> kernel -> Prop) :
  kready held i s -> l ∉ held -> (length held < 8)%nat ->
  match l with ProcLock _ => False | _ => True end ->
  (forall s1, inside l i s s1 -> kready (l :: held) i s1 -> pfs s1 = pfs s -> Q tt s1) ->
  wp (inlk (acquire l)) s Q.
Proof.
  intros Hr Hni Hlen Hlp HQ. apply acq_wp.
  - by eapply kready_hart.
  - by apply Hr.
  - intros l1 Ha. assert (Hin : inside l i s (set_plk l1 s)).
    { split; [done|]. repeat split; try done. apply woke_only_refl. }
    apply HQ; [done| |done]. by eapply kready_inside.
Qed.

Lemma k_rel held i s s1 l (Q : unit -> kernel -> Prop) :
  kready held i s -> l ∉ held -> inside l i s s1 ->
  (forall s2, kframe i s s2 -> pfs s2 = pfs s1 -> Q tt s2) -> wp (inlk (release l)) s1 Q.
Proof.
  intros Hr Hni [Ha Hp] HQ. apply (rel_wp s1 (plk s)).
  - done.
  - by eapply kready_hart.
  - by apply Hr.
  - intros l1 Hl1. apply HQ; [|done]. split; [done|]. destruct Hp as (? & ? & ? & ? & ? & ?).
    repeat split; try done; apply H0.
Qed.

Lemma woken_only v ch me ps : woke_only ps (imap (woken v ch me) ps).
Proof.
  split; [apply length_imap|]. intros j p Hp. rewrite list_lookup_imap, Hp. simpl.
  eexists. split; [done|]. unfold woken.
  destruct (bool_decide (Some j <> me)); cbn [andb]; [|by left].
  destruct (bool_decide_reflect (state p = SLEEPING)); cbn [andb]; [|by left].
  destruct (chan p =? ch); [|by left]. right. eauto.
Qed.

Lemma k_wakeup held i s ch (Q : unit -> kernel -> Prop) :
  kready held i s -> (forall s2, kframe i s s2 -> pfs s2 = pfs s -> Q tt s2) -> wp (wakeup ch) s Q.
Proof.
  intros Hr HQ. pose proof Hr as (Hru & Hn & Hf & Hp & Hl & [p Hi]).
  apply (wakeup_wp s ch (Some i) (Z.of_nat (length held))); [done|done|lia| |].
  - intros j _. apply Hf. intros Hin. rewrite Forall_forall in Hp. by apply (Hp _ Hin).
  - intros l Hsame. apply HQ; [|done]. split; [done|]. split_and!; try done.
    + apply woken_only.
    + cbn [procs set_plk set_procs]. unfold wakeup_table. rewrite list_lookup_imap, Hi. simpl.
      unfold woken. by rewrite bool_decide_eq_false_2 by tauto.
Qed.

Lemma k_mypid held i s (Q : Z -> kernel -> Prop) :
  kready held i s -> (forall s2, kframe i s s2 -> pfs s2 = pfs s -> Q (cur_pid i s) s2) ->
  wp mypid s Q.
Proof.
  intros Hr HQ. pose proof Hr as (Hru & Hn & Hf & Hp & Hl & [p Hi]). unfold mypid.
  wp_step. eapply myproc_wp; [done|]. intros l Hl1. wp_step. apply wp_ret. wp_step.
  apply (getp_wp _ i p); [done|]. wp_step. specialize (HQ (set_plk l s)).
  unfold cur_pid in HQ. rewrite Hi in HQ. apply HQ; [by apply kframe_plk|done].
Qed.

Lemma iogets_wp {A} (f : iost -> A) s (Q : A -> kernel -> Prop) :
  Q (f (pfs s)) s -> wp (iogets f) s Q.
Proof. intros HQ. unfold iogets, infs. do 2 wp_step. by destruct s. Qed.

Lemma iomod_wp (f : iost -> iost) s (Q : unit -> kernel -> Prop) :
  Q tt (set_pfs (f (pfs s)) s) -> wp (iomod f) s Q.
Proof. intros HQ. unfold iomod, infs. by do 2 wp_step. Qed.

(** ** Sleep locks *)

(** The lock is there, and [sl_put] assigns to it. *)
Class SlOk (r : slref) (f : iost) : Prop := {
  sl_there : is_Some (sl_get r f);
  sl_get_put l l' : sl_get r (sl_put r l (sl_put r l' f)) = Some l;
  sl_get_put1 l : sl_get r (sl_put r l f) = Some l;
  sl_put_put l l' : sl_put r l (sl_put r l' f) = sl_put r l f;
}.

Lemma getsl_wp r s l (Q : sleeplock -> kernel -> Prop) :
  sl_get r (pfs s) = Some l -> Q l s -> wp (getsl r) s Q.
Proof. intros Hl HQ. unfold getsl. wp_step. apply iogets_wp. rewrite Hl. by apply wp_ret. Qed.

Lemma putsl_wp r s l f (Q : unit -> kernel -> Prop) :
  sl_get r (pfs s) = Some l -> Q tt (set_pfs (sl_put r (f l) (pfs s)) s) -> wp (putsl r f) s Q.
Proof. intros Hl HQ. unfold putsl. wp_step. apply (getsl_wp r s l); [done|]. by apply iomod_wp. Qed.

Lemma acquiresleep_wp held i s r l (Q : unit -> kernel -> Prop) :
  kready held i s -> SleepSpin (sl_addr r) ∉ held -> (length held < 8)%nat ->
  SlOk r (pfs s) -> sl_get r (pfs s) = Some l -> sl_locked l = 0 ->
  (forall s2, kframe i s s2 -> pfs s2 = sl_put r (SleepLock 1 (cur_pid i s)) (pfs s) -> Q tt s2) ->
  wp (acquiresleep r) s Q.
Proof.
  intros Hr Hni Hlen Hok Hl H0 HQ. unfold acquiresleep. wp_step.
  apply (k_acq held i); [done|done|done|done|]. intros s1 Hin Hr1 E1. wp_step.
  apply (getsl_wp r s1 l); [by rewrite E1|]. rewrite H0. cbn [ctrue Z.eqb negb]. wp_step.
  apply (putsl_wp r s1 l); [by rewrite E1|]. rewrite E1. wp_step.
  eapply k_mypid; [eapply kready_frame; [done|apply kframe_pfs]|]. intros s2 Hk2 E2. cbn [pfs set_pfs] in E2.
  wp_step. eapply putsl_wp; [rewrite E2; apply sl_get_put1|]. rewrite E2, sl_put_put.
  assert (Hk : kframe i s1 s2) by (eapply kframe_trans; [apply kframe_pfs|done]).
  eapply (k_rel held i s); [done|done| |].
  - eapply inside_frame; [done|done|]. eapply kframe_trans; [done|apply kframe_pfs].
  - intros s3 Hk3 E3. apply HQ; [done|]. rewrite E3. cbn [pfs set_pfs]. f_equal.
    unfold set_sl_pid, set_sl_locked. cbn [sl_locked sl_pid]. f_equal.
    unfold cur_pid. cbn [procs set_pfs]. destruct Hin as [_ (_ & -> & _)]. done.
Qed.

Lemma releasesleep_wp held i s r (Q : unit -> kernel -> Prop) :
  kready held i s -> SleepSpin (sl_addr r) ∉ held -> (length held < 8)%nat -> SlOk r (pfs s) ->
  (forall s2, kframe i s s2 -> pfs s2 = sl_put r (SleepLock 0 0) (pfs s) -> Q tt s2) ->
  wp (releasesleep r) s Q.
Proof.
  intros Hr Hni Hlen Hok HQ. unfold releasesleep. destruct (sl_there (r := r) (f := pfs s)) as [l Hl].
  wp_step. apply (k_acq held i); [done|done|done|done|]. intros s1 Hin Hr1 E1. wp_step.
  apply (putsl_wp r s1 l); [by rewrite E1|]. rewrite E1. wp_step.
  eapply putsl_wp; [apply sl_get_put1|]. cbn [pfs set_pfs]. rewrite sl_put_put.
  wp_step. eapply k_wakeup.
  { eapply kready_frame; [done|]. eapply kframe_trans; apply kframe_pfs. }
  intros s2 Hk2 E2. cbn [pfs set_pfs] in E2. eapply (k_rel held i s); [done|done| |].
  - eapply inside_frame; [done|done|]. eapply kframe_trans; [|done].
    eapply kframe_trans; apply kframe_pfs.
  - intros s3 Hk3 E3. apply HQ; [done|]. by rewrite E3, E2.
Qed.

Lemma holdingsleep_wp held i s r l (Q : bool -> kernel -> Prop) :
  kready held i s -> SleepSpin (sl_addr r) ∉ held -> (length held < 8)%nat ->
  sl_get r (pfs s) = Some l ->
  (forall s2, kframe i s s2 -> pfs s2 = pfs s ->
     Q (ctrue (sl_locked l) && (sl_pid l =? cur_pid i s)) s2) ->
  wp (holdingsleep r) s Q.
Proof.
  intros Hr Hni Hlen Hl HQ. unfold holdingsleep. wp_step.
  apply (k_acq held i); [done|done|done|done|]. intros s1 Hin Hr1 E1. wp_step.
  apply (getsl_wp r s1 l); [by rewrite E1|]. destruct (ctrue (sl_locked l)); cbn [andb] in *.
  - do 2 wp_step. eapply k_mypid; [done|]. intros s2 Hk2 E2. do 2 wp_step.
    eapply (k_rel held i s); [done|done|by eapply inside_frame|]. intros s3 Hk3 E3. wp_step.
    replace (cur_pid i s1) with (cur_pid i s); [apply HQ; [done|congruence]|].
    unfold cur_pid. destruct Hin as [_ (_ & -> & _)]. done.
  - do 3 wp_step. eapply (k_rel held i s); [done|done|done|]. intros s3 Hk3 E3. wp_step.
    apply HQ; [done|congruence].
Qed.

End Kern.
