(* ===== verification/UserMem.v ===== *)
(** * User memory of the running process

    [either_copyout] and [either_copyin] of [kernel/proc.c] over the memory of
    the running process, in the form their callers use. *)

From S2P Require Import Prelude Riscv Mem CString Kalloc Vm PageTable VmSpec UserCopy Spinlock Proc ProcSpec.
From S2P Require Import IoState SleepLock.

Section Defs.
Context `{Linker}.
Implicit Types (s : kernel) (i : nat).

(** The address space of process [i] is [A]. *)
Definition user_at i s (L : labels) (fr : list Z) (A : aspace) : Prop :=
  (exists p, procs s !! i = Some p /\ space_ok (pk s) (pagetable p) L fr A) /\ user_ok L fr A.

(** As [kframe], but memory may change. *)
Definition uframe i s s2 : Prop := kframe i (set_pk (pk s2) s) s2.

(** Kernel variables, outside the pages that are handed out. *)
Definition kernel_buf (a len : Z) : Prop := a + len <= kend \/ PHYSTOP <= a.

(** The user bytes from [va] became [bs]; no other byte of a page changed. *)
Definition user_wrote (A : aspace) (m m' : mem) (va : Z) (bs : list Z) : Prop :=
  (forall k b, bs !! k = Some b -> user_mapped A (va + Z.of_nat k) /\ rd m' (upa A (va + Z.of_nat k)) = b) /\
  (forall a, kend <= a < PHYSTOP -> (forall k, (k < length bs)%nat -> a <> upa A (va + Z.of_nat k)) -> rd m' a = rd m a).

(** The bytes at [va]. *)
Definition user_bytes (A : aspace) (m : mem) (va : Z) (n : nat) : list Z :=
  (fun k => rd m (upa A (va + Z.of_nat k))) <$> seq 0 n.

End Defs.

Section Frame.
Context `{LinkerOk}.
Implicit Types (s : kernel) (i : nat).

Lemma uframe_kframe i s s2 : kframe i s s2 -> uframe i s s2.
Proof. intros [K1 (K2 & K3 & K4 & K5)]. split; [done|]. split; [done|]. split; [done|]. by split. Qed.

Lemma uframe_refl i s : uframe i s s.
Proof. apply uframe_kframe, kframe_refl. Qed.

Lemma uframe_trans i s1 s2 s3 : uframe i s1 s2 -> uframe i s2 s3 -> uframe i s1 s3.
Proof.
  intros [A1 (A2 & A3 & A4 & A5 & A6 & A7)] [B1 (B2 & B3 & B4 & B5 & B6 & B7)].
  cbn [plk procs pk initproc nextpid ticks set_pk] in *.
  split; [by eapply lk_same_trans|]. split_and!; cbn [plk procs pk initproc nextpid ticks set_pk]; try congruence.
  by eapply woke_only_trans.
Qed.

Lemma uframe_pk i s m : uframe i s (set_pk m s).
Proof. apply kframe_refl. Qed.

Lemma uframe_pfs i s f : uframe i s (set_pfs f s).
Proof. apply uframe_kframe, kframe_pfs. Qed.

Lemma kready_uframe ls i s s2 : kready ls i s -> uframe i s s2 -> kready ls i s2.
Proof. intros Hr Hu. eapply kready_frame; [|exact Hu]. exact Hr. Qed.

(** Leaving a critical section. *)
Lemma uframe_locks i s k1 s2 k2 : uframe i (set_plk k1 s) s2 -> lk_same (plk s) k2 -> uframe i s (set_plk k2 s2).
Proof. by intros [_ B] K. Qed.

Lemma kvar_buf_ok k root L fr A a len :
  space_ok k root L fr A -> user_ok L fr A -> kernel_buf a len -> buf_ok L fr A a len.
Proof.
  intros [[Hwf Hfree _] _ _] Hu Hb x Hx.
  assert (Hpage : forall p, page_ok p -> ~ in_page p x).
  { intros p Hp Hin. pose proof (page_ok_bounds p Hp). destruct Hp as [_ Hp]. unfold kernel_buf, in_page in *. lia. }
  split.
  - intros p [[[l y] Hp]|Hp]; apply Hpage.
    + by destruct (wf_page _ _ _ Hwf _ _ _ Hp).
    + apply fl_ok in Hfree as [Hok _]. rewrite Forall_forall in Hok. by apply Hok.
  - intros va Hva Hm. apply Hpage. by destruct (user_page_ok _ _ _ _ Hu Hm).
Qed.

Lemma user_at_kframe i s s2 L fr A : user_at i s L fr A -> kframe i s s2 -> user_at i s2 L fr A.
Proof.
  intros [(p & Hp & Hs) Hu] [_ (_ & Hi & Hk & _)]. split; [|done]. exists p. by rewrite Hi, Hk.
Qed.

Lemma user_at_pfs i s f L fr A : user_at i s L fr A -> user_at i (set_pfs f s) L fr A.
Proof. intros Hu. eapply user_at_kframe; [done|apply kframe_pfs]. Qed.

(** Writing kernel variables keeps the address space. *)
Lemma user_at_kernel_write i s k' L fr A a len :
  user_at i s L fr A -> kernel_buf a len -> freelist k' = freelist (pk s) ->
  (forall x, ~ (a <= x < a + len) -> rd (phys k') x = rd (phys (pk s)) x) ->
  user_at i (set_pk k' s) L fr A.
Proof.
  intros [(p & Hp & Hs) Hu] Hb Hf Hw. split; [|done]. exists p. split; [done|].
  eapply buf_write_space; [done|by eapply kvar_buf_ok|done|done].
Qed.

(** ** Writing user memory *)

Lemma upa_page L fr A va : user_ok L fr A -> 0 <= va -> user_mapped A va -> kend <= upa A va < PHYSTOP.
Proof.
  intros Hu Hva Hm. destruct (user_page_ok _ _ _ _ Hu Hm) as (Hp & _). pose proof (page_ok_bounds _ Hp).
  pose proof (upa_in_page A va Hva). destruct Hp as [_ Hp]. unfold in_page in *. lia.
Qed.

Lemma user_wrote_nil A m m' va :
  (forall a, kend <= a < PHYSTOP -> rd m' a = rd m a) -> user_wrote A m m' va [].
Proof. intros E. split; [done|]. intros a Ha _. by apply E. Qed.

Lemma user_wrote_app L fr A m m1 m2 va bs bs' :
  user_ok L fr A -> 0 <= va ->
  user_wrote A m m1 va bs -> user_wrote A m1 m2 (va + Z.of_nat (length bs)) bs' ->
  user_wrote A m m2 va (bs ++ bs').
Proof.
  intros Hu Hva [W1 F1] [W2 F2]. split.
  - intros k b Hk. destruct (decide (k < length bs)%nat) as [Hlt|Hge].
    + rewrite lookup_app_l in Hk by done. destruct (W1 k b Hk) as [Hm E]. split; [done|].
      rewrite F2; [done|by eapply upa_page; [|lia|]|]. intros j Hj Ej.
      destruct (lookup_lt_is_Some_2 bs' j Hj) as [b' Hb']. destruct (W2 j b' Hb') as [Hm' _].
      eapply upa_inj in Ej; [|done|lia|lia|done|done]. lia.
    + rewrite lookup_app_r in Hk by lia. destruct (W2 _ _ Hk) as [Hm E].
      replace (va + Z.of_nat (length bs) + Z.of_nat (k - length bs)) with (va + Z.of_nat k) in * by lia. done.
  - intros a Ha Hne. rewrite F2, F1; [done|done| |done|].
    + intros k Hk. apply Hne. rewrite length_app. lia.
    + intros k Hk. specialize (Hne (length bs + k)%nat). rewrite length_app, Nat2Z.inj_add, Z.add_assoc in Hne.
      apply Hne. lia.
Qed.

Lemma wrote_user_bytes L fr A m m' va src (n : nat) :
  user_ok L fr A -> 0 <= va -> wrote_user A m m' va src (Z.of_nat n) -> user_wrote A m m' va (bytes n m src).
Proof.
  intros Hu Hva [W F]. split.
  - intros k b Hk. pose proof (lookup_lt_Some _ _ _ Hk) as Hlt. rewrite length_bytes in Hlt.
    destruct (W (Z.of_nat k)) as [Hm E]; [lia|]. split; [done|]. rewrite E. rewrite lookup_bytes in Hk by lia. congruence.
  - intros a Ha Hne. apply F. intros j Hj. rewrite <- (Z2Nat.id j) by lia. apply Hne. rewrite length_bytes. lia.
Qed.

(** ** The calls *)

Lemma run_pagetable {A} ls i s p (m : Z -> K A) (Q : A -> kernel -> Prop) :
  kready ls i s -> procs s !! i = Some p ->
  (forall l, lk_same (plk s) l -> wp (m (pagetable p)) (set_plk l s) Q) ->
  wp (r <- myproc ;; j <- deref r ;; q <- getp j ;; m (pagetable q))%K s Q.
Proof.
  intros Hr Hp Hm. pose proof Hr as (Hru & _). wp_step. eapply myproc_wp; [done|]. intros l Hl.
  wp_step. apply wp_ret. wp_step. by apply (getp_wp _ i p); [|apply Hm].
Qed.

(** The outcome [r] of a copy of [len] bytes that stopped after [k]. *)
Definition copy_result (A : aspace) (va len k r : Z) : Prop :=
  0 <= k <= len /\ ((r = 0 /\ k = len) \/ (r = -1 /\ k < len /\ ~ user_mapped A (va + k))).

Lemma either_copyout_user ls i s L fr A dst src len (Q : Z -> kernel -> Prop) :
  kready ls i s -> user_at i s L fr A -> kernel_buf src len -> 0 <= dst -> 0 <= len ->
  (forall s2 k r, uframe i s s2 -> pfs s2 = pfs s -> user_at i s2 L fr A -> copy_result A dst len k r ->
     user_wrote A (phys (pk s)) (phys (pk s2)) dst (bytes (Z.to_nat k) (phys (pk s)) src) ->
     (forall a, ~ kend <= a < PHYSTOP -> rd (phys (pk s2)) a = rd (phys (pk s)) a) -> Q r s2) ->
  wp (either_copyout true dst src len) s Q.
Proof.
  intros Hr Hua Hb Hd Hlen HQ. pose proof Hua as [(p & Hp & Hs) Hu]. unfold either_copyout.
  eapply (run_pagetable ls i s p (fun pt => inmem (copyout pt dst src len))); [done|done|]. intros l Hl.
  unfold inmem. wp_step. eapply wp_mono; [eapply copyout_wp; [exact Hs|done|by eapply kvar_buf_ok|done|done]|].
  intros r k' (k & Hk & Hw & Hf & Hs' & Hres). cbn [pk set_plk] in *.
  apply (HQ _ k r); cbn [pk pfs set_pk set_plk].
  - split; [done|]. repeat split; try done. apply woke_only_refl.
  - done.
  - split; [|done]. by exists p.
  - by split.
  - eapply wrote_user_bytes; [done|done|]. by rewrite Z2Nat.id by lia.
  - intros a Ha. apply Hw. intros j Hj ->. destruct Hw as [Hw _]. destruct (Hw j Hj) as [Hm _].
    apply Ha. eapply upa_page; [done|lia|done].
Qed.

Lemma either_copyin_user ls i s L fr A dst src len (Q : Z -> kernel -> Prop) :
  kready ls i s -> user_at i s L fr A -> kernel_buf dst len -> 0 <= src -> 0 <= len ->
  (forall s2 k r, uframe i s s2 -> pfs s2 = pfs s -> user_at i s2 L fr A -> copy_result A src len k r ->
     read_user A (phys (pk s)) (phys (pk s2)) dst src k -> Q r s2) ->
  wp (either_copyin dst true src len) s Q.
Proof.
  intros Hr Hua Hb Hd Hlen HQ. pose proof Hua as [(p & Hp & Hs) Hu]. unfold either_copyin.
  eapply (run_pagetable ls i s p (fun pt => inmem (copyin pt dst src len))); [done|done|]. intros l Hl.
  unfold inmem. wp_step. eapply wp_mono; [eapply copyin_wp; [exact Hs|by eapply kvar_buf_ok|done|done]|].
  intros r k' (k & Hk & Hw & Hf & Hs' & Hres). cbn [pk set_plk] in *.
  apply (HQ _ k r); cbn [pk pfs set_pk set_plk]; [|done| |by split|done].
  - split; [done|]. repeat split; try done. apply woke_only_refl.
  - split; [|done]. by exists p.
Qed.

Lemma phys_wr_wp s f (Q : unit -> kernel -> Prop) : Q tt (set_pk (set_phys f (pk s)) s) -> wp (phys_wr f) s Q.
Proof. intros HQ. unfold phys_wr, inmem. by do 2 wp_step. Qed.

End Frame.
