(* ===== verification/Uart.v ===== *)
(** * The serial port

    [kernel/uart.c].  The device keeps the bytes it has received and not yet
    delivered, how many bytes the transmitter still accepts, and what was sent.
    A routine that would sleep until there is room ends in [EBlock]. *)

From S2P Require Import Prelude Riscv Mem Spinlock Proc IoState SleepLock.

Definition UART_TX_BUF_SIZE : Z := 32.
Definition uart_tx_buf_size : nat := 32.

(** Registers and their bits. *)
Definition THR : Z := 0.
Definition IER : Z := 1.
Definition FCR : Z := 2.
Definition LCR : Z := 3.
Definition IER_RX_ENABLE : Z := Z.shiftl 1 0.
Definition IER_TX_ENABLE : Z := Z.shiftl 1 1.
Definition FCR_FIFO_ENABLE : Z := Z.shiftl 1 0.
Definition FCR_FIFO_CLEAR : Z := Z.shiftl 3 1.
Definition LCR_EIGHT_BITS : Z := Z.shiftl 3 0.
Definition LCR_BAUD_LATCH : Z := Z.shiftl 1 7.

Section Uart.
Context `{Linker}.
Local Open Scope kernel_scope.

Definition guart {A} (f : uart -> A) : K A := iogets (fun s => f (urt s)).
Definition uuart (f : uart -> uart) : K unit := iomod (fun s => set_urt (f (urt s)) s).

(** Accesses to the registers: a control register, and the transmit holding
    register once the line status shows it is empty. *)
Definition WriteReg (reg v : Z) : K unit := uuart (fun u => set_u_conf ((reg, v) :: u_conf u) u).
Definition send (c : Z) : K unit :=
  uuart (fun u => set_u_sent (u8 c :: u_sent u) (set_u_room (pred (u_room u)) u)).
Definition tx_idle : K bool := guart (fun u => negb (u_room u =? 0)%nat).
(** The transmitter empties its register while the processor polls. *)
Definition tx_wait : K unit := uuart (fun u => set_u_room (max 1 (u_room u)) u).

Definition uartinit : K unit :=
  WriteReg IER 0x00 ;;
  WriteReg LCR LCR_BAUD_LATCH ;;
  WriteReg 0 0x03 ;;
  WriteReg 1 0x00 ;;
  WriteReg LCR LCR_EIGHT_BITS ;;
  WriteReg FCR (Z.lor FCR_FIFO_ENABLE FCR_FIFO_CLEAR) ;;
  WriteReg IER (Z.lor IER_TX_ENABLE IER_RX_ENABLE) ;;
  inlk (initlock UartLock).

Definition uartputc_sync (c : Z) : K unit :=
  inlk push_off ;;
  p <- iogets panicked ;;
  if ctrue p then fail (EBlock "panicked")
  else
    tx_wait ;;
    send c ;;
    inlk pop_off.

(** The loop ends when the buffer is empty: one turn more than its size. *)
Fixpoint uartstart_loop (fuel : nat) : K unit :=
  match fuel with
  | O => fail EFuel
  | S fuel =>
      w <- guart tx_w ;;
      r <- guart tx_r ;;
      if w =? r then ret tt
      else
        idle <- tx_idle ;;
        if negb (idle : bool) then ret tt
        else
          o <- guart (fun u => tx_buf u !! Z.to_nat (r mod UART_TX_BUF_SIZE)) ;;
          c <- (match o with Some c => ret c | None => ub "uart_tx_buf[]" end) ;;
          uuart (set_tx_r (u64 (r + 1))) ;;
          wakeup uart_tx_r_addr ;;
          send c ;;
          uartstart_loop fuel
  end.
Definition uartstart : K unit := uartstart_loop (S uart_tx_buf_size).

Definition uartputc (c : Z) : K unit :=
  inlk (acquire UartLock) ;;
  p <- iogets panicked ;;
  if ctrue p then fail (EBlock "panicked")
  else
    w <- guart tx_w ;;
    r <- guart tx_r ;;
    if w =? u64 (r + UART_TX_BUF_SIZE) then fail (EBlock "uartputc")
    else
      uuart (fun u => set_tx_buf (<[Z.to_nat (w mod UART_TX_BUF_SIZE) := u8 c]> (tx_buf u)) u) ;;
      uuart (set_tx_w (u64 (w + 1))) ;;
      uartstart ;;
      inlk (release UartLock).

(** -1 if no input is waiting. *)
Definition uartgetc : K Z :=
  rx <- guart u_rx ;;
  match rx with
  | c :: rx => uuart (set_u_rx rx) ;; ret c
  | [] => ret (-1)
  end.

End Uart.
