(* ===== verification/Printf.v ===== *)
(** * Formatted console output

    [printint], [printptr] and [printf] of [kernel/printf.c] and [consputc] of
    [kernel/console.c].  A format string and a string argument are the lists
    of their bytes before the NUL. *)

From S2P Require Import Prelude Riscv Mem Spinlock Proc IoState SleepLock Uart.

Definition BACKSPACE : Z := 0x100.

(** Arguments as [va_arg] finds them; a null string is [None]. *)
Inductive parg := PInt (v : Z) | PPtr (v : Z) | PStr (s : option (list Z)).

Definition digits : list Z := str "0123456789abcdef".

(** The digits of [x] in [base], least significant first, as the loop of
    [printint] stores them. *)
Fixpoint int_digits (fuel : nat) (x base : Z) : list Z :=
  match fuel with
  | O => []
  | S fuel =>
      default 0 (digits !! Z.to_nat (x mod base)) ::
      (if x / base =? 0 then [] else int_digits fuel (x / base) base)
  end.

Section Printf.
Context `{Linker}.
Local Open Scope kernel_scope.

Definition consputc (c : Z) : K unit :=
  if c =? BACKSPACE then
    uartputc_sync 8 ;; uartputc_sync 32 ;; uartputc_sync 8
  else uartputc_sync c.

Fixpoint putchars (cs : list Z) : K unit :=
  match cs with
  | [] => ret tt
  | c :: cs => consputc c ;; putchars cs
  end.

(** The array [buf] of [printint] has 16 elements; more digits would be
    stored past its end. *)
Definition printint (xx base : Z) (sign : bool) : K unit :=
  let neg := sign && (xx <? 0) in
  let x := if neg then u32 (- xx) else u32 xx in
  let ds := int_digits 32 x base in
  let buf := if neg then ds ++ [45] else ds in
  if (16 <? length buf)%nat then ub "printint: buf[]"
  else putchars (reverse buf).

Fixpoint printptr_loop (n : nat) (x : Z) : K unit :=
  match n with
  | O => ret tt
  | S n =>
      consputc (default 0 (digits !! Z.to_nat (Z.shiftr x 60))) ;;
      printptr_loop n (u64 (Z.shiftl x 4))
  end.
Definition printptr (x : Z) : K unit :=
  consputc 48 ;; consputc 120 ;; printptr_loop 16 x.

Fixpoint printf_loop (fmt : list Z) (ap : list parg) : K unit :=
  match fmt with
  | [] => ret tt
  | c :: fmt =>
      if negb (c =? 37) then consputc c ;; printf_loop fmt ap
      else
        match fmt with
        | [] => ret tt
        | c :: fmt =>
            if c =? 100 then
              match ap with PInt v :: ap => printint v 10 true ;; printf_loop fmt ap | _ => ub "va_arg" end
            else if c =? 120 then
              match ap with PInt v :: ap => printint v 16 true ;; printf_loop fmt ap | _ => ub "va_arg" end
            else if c =? 112 then
              match ap with PPtr v :: ap => printptr v ;; printf_loop fmt ap | _ => ub "va_arg" end
            else if c =? 115 then
              match ap with
              | PStr s :: ap => putchars (default (str "(null)") s) ;; printf_loop fmt ap
              | _ => ub "va_arg"
              end
            else if c =? 37 then consputc 37 ;; printf_loop fmt ap
            else consputc 37 ;; consputc c ;; printf_loop fmt ap
        end
  end.

Definition printf (fmt : list Z) (ap : list parg) : K unit :=
  locking <- iogets pr_locking ;;
  (when ctrue locking then inlk (acquire PrLock)) ;;
  printf_loop fmt ap ;;
  (when ctrue locking then inlk (release PrLock)).

Definition printfinit : K unit :=
  inlk (initlock PrLock) ;;
  iomod (set_pr_locking 1).

End Printf.
