(* ===== verification/Console.v ===== *)
(** * The console

    [kernel/console.c], [uartintr] of [kernel/uart.c] and [procdump] of
    [kernel/proc.c].  Input is collected in a circular buffer: bytes before
    [c_w] can be read, bytes from there to [c_e] are still being edited. *)

From S2P Require Import Prelude Riscv Mem CString Kalloc Spinlock Proc IoState SleepLock Uart Printf.

Definition INPUT_BUF_SIZE : Z := 128.
Definition input_buf_size : nat := 128.

(** Control-x, for the character x. *)
Definition ctrl (x : Z) : Z := x - 64.
Definition C_P : Z := ctrl 80.
Definition C_U : Z := ctrl 85.
Definition C_H : Z := ctrl 72.
Definition C_D : Z := ctrl 68.
Definition NL : Z := 10.
Definition CR : Z := 13.

Section Console.
Context `{Linker}.
Local Open Scope kernel_scope.

Definition gcons {A} (f : console -> A) : K A := iogets (fun s => f (cons s)).
Definition ucons (f : console -> console) : K unit := iomod (fun s => set_cons (f (cons s)) s).

(** cons.buf[x % INPUT_BUF_SIZE] *)
Definition cons_ix (x : Z) : nat := Z.to_nat (x mod INPUT_BUF_SIZE).
Definition cons_at (x : Z) : K Z :=
  o <- gcons (fun c => c_buf c !! cons_ix x) ;;
  match o with Some c => ret c | None => ub "cons.buf[]" end.

Fixpoint consolewrite_loop (k : nat) (i : Z) (user_src : bool) (src : Z) : K Z :=
  match k with
  | O => ret i
  | S k =>
      r <- either_copyin klocal user_src (u64 (src + i)) 1 ;;
      if r =? -1 then ret i
      else
        c <- gets (fun s => rd (phys (pk s)) klocal) ;;
        uartputc c ;;
        consolewrite_loop k (i + 1) user_src src
  end.
Definition consolewrite (user_src : bool) (src n : Z) : K Z :=
  consolewrite_loop (Z.to_nat n) 0 user_src src.

(** [n] bytes are still wanted; the result is the number left over, or
    [None] when the process was killed while it waited. *)
Fixpoint consoleread_loop (n : nat) (target : Z) (user_dst : bool) (dst : Z) : K (option Z) :=
  match n with
  | O => ret (Some 0)
  | S n' =>
      r <- gcons c_r ;;
      w <- gcons c_w ;;
      if r =? w then
        m <- myproc ;;
        i <- deref m ;;
        k <- killed i ;;
        if ctrue k then inlk (release ConsLock) ;; ret None
        else fail (EBlock "consoleread")
      else
        c <- cons_at r ;;
        ucons (set_c_r (u32 (r + 1))) ;;
        if c =? C_D then
          (when Z.of_nat n <? target then ucons (set_c_r r)) ;;
          ret (Some (Z.of_nat n))
        else
          phys_wr (fun m => wr m klocal c) ;;
          e <- either_copyout user_dst dst klocal 1 ;;
          if e =? -1 then ret (Some (Z.of_nat n))
          else if c =? NL then ret (Some (Z.of_nat n'))
          else consoleread_loop n' target user_dst (u64 (dst + 1))
  end.
Definition consoleread (user_dst : bool) (dst n : Z) : K Z :=
  inlk (acquire ConsLock) ;;
  r <- consoleread_loop (Z.to_nat n) (u32 n) user_dst dst ;;
  match r with
  | None => ret (-1)
  | Some rest =>
      inlk (release ConsLock) ;;
      ret (if n <? 0 then 0 else n - rest)
  end.

(** The line of [procdump] for one process. *)
Definition state_name (st : procstate) : list Z :=
  match st with
  | UNUSED => str "unused"
  | USED => str "used"
  | SLEEPING => str "sleep "
  | RUNNABLE => str "runble"
  | RUNNING => str "run   "
  | ZOMBIE => str "zombie"
  end.
Fixpoint procdump_loop (ps : list nat) : K unit :=
  match ps with
  | [] => ret tt
  | i :: ps =>
      p <- getp i ;;
      if decide (state p = UNUSED) then procdump_loop ps
      else
        n <- gets (fun s => strlen 16 (phys (pk s)) (paddr i + OFF_name)) ;;
        len <- (match n with Some n => ret n | None => ub "p->name" end) ;;
        name <- gets (fun s => bytes (Z.to_nat len) (phys (pk s)) (paddr i + OFF_name)) ;;
        printf (str "%d %s %s") [PInt (pid p); PStr (Some (state_name (state p))); PStr (Some name)] ;;
        printf [NL] [] ;;
        procdump_loop ps
  end.
Definition procdump : K unit := printf [NL] [] ;; procdump_loop (seq 0 nproc).

(** The loop for control-U: at most a buffer of bytes is being edited. *)
Fixpoint kill_line (fuel : nat) : K unit :=
  match fuel with
  | O => fail EFuel
  | S fuel =>
      e <- gcons c_e ;;
      w <- gcons c_w ;;
      if e =? w then ret tt
      else
        c <- cons_at (u32 (e - 1)) ;;
        if c =? NL then ret tt
        else
          ucons (set_c_e (u32 (e - 1))) ;;
          consputc BACKSPACE ;;
          kill_line fuel
  end.

(** The switch of [consoleintr]. *)
Definition intr_body (c : Z) : K unit :=
  if c =? C_P then procdump
  else if c =? C_U then kill_line (S input_buf_size)
  else if (c =? C_H) || (c =? 0x7f) then
    e <- gcons c_e ;;
    w <- gcons c_w ;;
    when negb (e =? w) then
      ucons (set_c_e (u32 (e - 1))) ;;
      consputc BACKSPACE
  else
    e <- gcons c_e ;;
    r <- gcons c_r ;;
    when negb (c =? 0) && (u32 (e - r) <? INPUT_BUF_SIZE) then
      let c := if c =? CR then NL else c in
      consputc c ;;
      ucons (fun k => set_c_buf (<[cons_ix e := u8 c]> (c_buf k)) k) ;;
      ucons (set_c_e (u32 (e + 1))) ;;
      when (c =? NL) || (c =? C_D) || (u32 (u32 (e + 1) - r) =? INPUT_BUF_SIZE) then
        ucons (set_c_w (u32 (e + 1))) ;;
        wakeup (cons_addr + 152).

Definition consoleintr (c : Z) : K unit :=
  inlk (acquire ConsLock) ;;
  intr_body c ;;
  inlk (release ConsLock).

(** Read and process the incoming characters, then send buffered ones. *)
Fixpoint uartintr_loop (fuel : nat) : K unit :=
  match fuel with
  | O => fail EFuel
  | S fuel =>
      c <- uartgetc ;;
      if c =? -1 then ret tt
      else consoleintr c ;; uartintr_loop fuel
  end.
Definition uartintr : K unit :=
  n <- guart (fun u => length (u_rx u)) ;;
  uartintr_loop (S n) ;;
  inlk (acquire UartLock) ;;
  uartstart ;;
  inlk (release UartLock).

(** Major device number of the console. *)
Definition CONSOLE : nat := 1.

Definition consoleinit : K unit :=
  inlk (initlock ConsLock) ;;
  uartinit ;;
  iomod (fun s => set_devsw (<[CONSOLE := true]> (devsw s)) s).

End Console.
