(* ===== verification/Bio.v ===== *)
(** * The buffer cache

    [kernel/bio.c].  The buffers are linked through [b_prev] and [b_next] in
    the order of their last use, as in the code; [bget] walks the links.
    [disk_rw] is the transfer that [virtio_disk_rw] performs between a buffer
    and the disk, which the driver waits for before it returns. *)

From S2P Require Import Prelude Riscv Mem Spinlock Proc IoState SleepLock.

Section Bio.
Context `{Linker}.
Local Open Scope kernel_scope.

(** bcache.buf[i], and an assignment to one of its members. *)
Definition getb (i : nat) : K buf :=
  o <- iogets (fun s => bufs s !! i) ;;
  match o with Some b => ret b | None => ub "bcache.buf[]" end.
Definition updb (i : nat) (f : buf -> buf) : K unit :=
  getb i ;; iomod (fun s => set_bufs (alter f i (bufs s)) s).

Definition buf_addr (i : nat) : Z := bcache_addr + 24 + Z.of_nat i * SIZEOF_BUF.
Definition buf_lock (i : nat) : slref :=
  SlRef (fun s => b_lock <$> bufs s !! i)
        (fun l s => set_bufs (alter (set_b_lock l) i (bufs s)) s)
        (buf_addr i + 16).

(** The transfer of one block. *)
Definition disk_rw (i : nat) (write : bool) : K unit :=
  b <- getb i ;;
  if write
  then iomod (fun s => set_dsk (disk_write (b_blockno b) (b_data b) (dsk s)) s)
  else d <- iogets (fun s => disk_read (dsk s) (b_blockno b)) ;; updb i (set_b_data d).

Fixpoint binit_loop (bs : list nat) : K unit :=
  match bs with
  | [] => ret tt
  | b :: bs =>
      h <- getb nbuf ;;
      updb b (set_b_next (b_next h)) ;;
      updb b (set_b_prev nbuf) ;;
      initsleeplock (buf_lock b) ;;
      h <- getb nbuf ;;
      updb (b_next h) (set_b_prev b) ;;
      updb nbuf (set_b_next b) ;;
      binit_loop bs
  end.
Definition binit : K unit :=
  inlk (initlock BcacheLock) ;;
  updb nbuf (set_b_prev nbuf) ;;
  updb nbuf (set_b_next nbuf) ;;
  binit_loop (seq 0 nbuf).

(** The two loops of [bget]. *)
Fixpoint bget_find (fuel b : nat) (dev blockno : Z) : K (option nat) :=
  match fuel with
  | O => fail EFuel
  | S fuel =>
      if (b =? nbuf)%nat then ret None
      else
        x <- getb b ;;
        if (b_dev x =? dev) && (b_blockno x =? blockno) then ret (Some b)
        else bget_find fuel (b_next x) dev blockno
  end.
Fixpoint bget_lru (fuel b : nat) : K (option nat) :=
  match fuel with
  | O => fail EFuel
  | S fuel =>
      if (b =? nbuf)%nat then ret None
      else
        x <- getb b ;;
        if b_refcnt x =? 0 then ret (Some b) else bget_lru fuel (b_prev x)
  end.

(** The list has [nbuf] elements: one more step of the loop ends it. *)
Definition bget_recycle (dev blockno : Z) : K nat :=
  h <- getb nbuf ;;
  r <- bget_lru (S nbuf) (b_prev h) ;;
  match r with
  | Some b =>
      updb b (set_b_dev dev) ;;
      updb b (set_b_blockno blockno) ;;
      updb b (set_b_valid 0) ;;
      updb b (set_b_refcnt 1) ;;
      inlk (release BcacheLock) ;;
      acquiresleep (buf_lock b) ;;
      ret b
  | None => panic "bget: no buffers"
  end.
Definition bget (dev blockno : Z) : K nat :=
  inlk (acquire BcacheLock) ;;
  h <- getb nbuf ;;
  r <- bget_find (S nbuf) (b_next h) dev blockno ;;
  match r with
  | Some b =>
      x <- getb b ;;
      updb b (set_b_refcnt (u32 (b_refcnt x + 1))) ;;
      inlk (release BcacheLock) ;;
      acquiresleep (buf_lock b) ;;
      ret b
  | None => bget_recycle dev blockno
  end.

Definition bread (dev blockno : Z) : K nat :=
  b <- bget dev blockno ;;
  x <- getb b ;;
  (when b_valid x =? 0 then disk_rw b false ;; updb b (set_b_valid 1)) ;;
  ret b.

Definition bwrite (b : nat) : K unit :=
  h <- holdingsleep (buf_lock b) ;;
  if negb (h : bool) then panic "bwrite" else disk_rw b true.

(** The end of [brelse]: take the buffer out of the list and put it in front. *)
Definition unlink_buf (b : nat) : K unit :=
  x <- getb b ;;
  updb (b_next x) (set_b_prev (b_prev x)) ;;
  x <- getb b ;;
  updb (b_prev x) (set_b_next (b_next x)).
Definition push_front (b : nat) : K unit :=
  h <- getb nbuf ;;
  updb b (set_b_next (b_next h)) ;;
  updb b (set_b_prev nbuf) ;;
  h <- getb nbuf ;;
  updb (b_next h) (set_b_prev b) ;;
  updb nbuf (set_b_next b).

Definition brelse (b : nat) : K unit :=
  h <- holdingsleep (buf_lock b) ;;
  if negb (h : bool) then panic "brelse"
  else
    releasesleep (buf_lock b) ;;
    inlk (acquire BcacheLock) ;;
    x <- getb b ;;
    updb b (set_b_refcnt (u32 (b_refcnt x - 1))) ;;
    (** no one is waiting for it. *)
    (when u32 (b_refcnt x - 1) =? 0 then unlink_buf b ;; push_front b) ;;
    inlk (release BcacheLock).

Definition bpin (b : nat) : K unit :=
  inlk (acquire BcacheLock) ;;
  x <- getb b ;;
  updb b (set_b_refcnt (u32 (b_refcnt x + 1))) ;;
  inlk (release BcacheLock).

Definition bunpin (b : nat) : K unit :=
  inlk (acquire BcacheLock) ;;
  x <- getb b ;;
  updb b (set_b_refcnt (u32 (b_refcnt x - 1))) ;;
  inlk (release BcacheLock).

(** What the holder of a locked buffer does with its contents. *)
Definition buf_data (b : nat) : K (list Z) := x <- getb b ;; ret (b_data x).
Definition set_buf_data (b : nat) (d : list Z) : K unit := updb b (set_b_data d).

End Bio.

(** ** Circular lists through a pointer function *)

(** Following [f] from [a] visits [l] and then arrives at [z]. *)
Fixpoint path (f : nat -> nat) (a : nat) (l : list nat) (z : nat) : Prop :=
  match l with
  | [] => f a = z
  | x :: l => f a = x /\ path f x l z
  end.

Definition upd (f : nat -> nat) (i v : nat) : nat -> nat := fun j => if decide (i = j) then v else f j.

(** [nx] and [pv] link the elements of [l], in this order, into a circle
    with [h]. *)
Definition circle (nx pv : nat -> nat) (h : nat) (l : list nat) : Prop :=
  NoDup (h :: l) /\ path nx h l h /\ path pv h (reverse l) h.

(** The last element of [a :: l]. *)
Definition lastof (a : nat) (l : list nat) : nat := default a (last l).

Lemma upd_eq f i v : upd f i v i = v.
Proof. unfold upd. by rewrite decide_True. Qed.
Lemma upd_ne f i v j : i <> j -> upd f i v j = f j.
Proof. intros. unfold upd. by rewrite decide_False. Qed.

Lemma lastof_cons a x l : lastof a (x :: l) = lastof x l.
Proof. unfold lastof. rewrite last_cons. by destruct (last l). Qed.

Lemma lastof_in a l : lastof a l ∈ a :: l.
Proof.
  revert a. induction l as [|x l IH]; intros a; [left|]. rewrite lastof_cons. right. apply IH.
Qed.

Lemma path_app f a l1 b l2 z : path f a (l1 ++ b :: l2) z <-> path f a l1 b /\ path f b l2 z.
Proof.
  revert a. induction l1 as [|x l1 IH]; intros a; cbn [path app]; [done|]. rewrite IH. tauto.
Qed.

Lemma path_ext f g a l z : (forall x, x ∈ a :: l -> f x = g x) -> path f a l z -> path g a l z.
Proof.
  revert a. induction l as [|x l IH]; intros a Hfg; cbn [path].
  - rewrite <- (Hfg a) by left. done.
  - intros [Ha Hp]. rewrite <- (Hfg a) by left. split; [done|]. apply IH; [|done].
    intros y Hy. apply Hfg. by right.
Qed.

Lemma path_upd_ne f i v a l z : i ∉ a :: l -> path f a l z -> path (upd f i v) a l z.
Proof. intros Hi. apply path_ext. intros x Hx. rewrite upd_ne; [done|]. by intros <-. Qed.

Lemma path_head f a l z : path f a l z -> f a = match l with [] => z | x :: _ => x end.
Proof. destruct l; simpl; tauto. Qed.

(** Redirect the last pointer. *)
Lemma path_redirect f a l z w : NoDup (a :: l) -> path f a l z -> path (upd f (lastof a l) w) a l w.
Proof.
  revert a. induction l as [|x l IH]; intros a Hnd; cbn [path].
  - intros _. apply upd_eq.
  - rewrite lastof_cons. intros [Ha Hp]. apply NoDup_cons in Hnd as [Hna Hnd]. split.
    + rewrite upd_ne; [done|]. intros E. apply Hna. rewrite <- E. apply lastof_in.
    + by apply IH.
Qed.

(** Bypass [b]. *)
Lemma path_bypass f a l1 b l2 z :
  NoDup (a :: l1 ++ b :: l2) -> path f a l1 b -> path f b l2 z ->
  path (upd f (lastof a l1) (f b)) a (l1 ++ l2) z.
Proof.
  revert a. induction l1 as [|x l1 IH]; intros a Hnd H1 H2; cbn [app path] in *.
  - unfold lastof. simpl. apply NoDup_cons in Hnd as [Hna Hnd].
    pose proof (path_head _ _ _ _ H2) as Hb. destruct l2 as [|y l2]; cbn [path] in *.
    + by rewrite upd_eq.
    + rewrite upd_eq. split; [done|]. apply path_upd_ne; [set_solver|]. by destruct H2 as [_ H2].
  - rewrite lastof_cons. destruct H1 as [Ha H1]. apply NoDup_cons in Hnd as [Hna Hnd]. split.
    + rewrite upd_ne; [done|]. intros E. apply Hna. rewrite <- E.
      pose proof (lastof_in x l1). set_solver.
    + by apply IH.
Qed.

Lemma circle_prev nx pv h l1 b l2 : circle nx pv h (l1 ++ b :: l2) -> pv b = lastof h l1.
Proof.
  intros (_ & _ & Hp). rewrite reverse_app, reverse_cons, <- app_assoc in Hp. simpl in Hp.
  apply path_app in Hp as [_ Hp]. rewrite (path_head _ _ _ _ Hp). unfold lastof.
  rewrite <- (reverse_involutive l1) at 2. destruct (reverse l1) as [|x r]; [done|].
  by rewrite reverse_cons, last_snoc.
Qed.

Lemma circle_next nx pv h l1 b l2 :
  circle nx pv h (l1 ++ b :: l2) -> nx b = lastof h (reverse l2).
Proof.
  intros (_ & Hp & _). apply path_app in Hp as [_ Hp]. rewrite (path_head _ _ _ _ Hp).
  unfold lastof. destruct l2 as [|x r]; [done|]. by rewrite reverse_cons, last_snoc.
Qed.

(** Take [b] out of the circle. *)
Lemma circle_unlink nx pv h l1 b l2 :
  circle nx pv h (l1 ++ b :: l2) ->
  circle (upd nx (pv b) (nx b)) (upd pv (nx b) (pv b)) h (l1 ++ l2).
Proof.
  intros Hc. pose proof (circle_prev _ _ _ _ _ _ Hc) as Epv.
  pose proof (circle_next _ _ _ _ _ _ Hc) as Enx. destruct Hc as (Hnd & Hn & Hp).
  rewrite Epv at 1. rewrite Enx at 2.
  assert (Hr : reverse (l1 ++ b :: l2) = reverse l2 ++ b :: reverse l1)
    by (rewrite reverse_app, reverse_cons, <- app_assoc; done).
  split_and!.
  - apply NoDup_cons in Hnd as [? Hnd]. apply NoDup_cons.
    apply NoDup_app in Hnd as (? & ? & Hnd). apply NoDup_cons in Hnd as [? ?].
    split; [set_solver|]. apply NoDup_app. split_and!; [done|set_solver|done].
  - apply path_app in Hn as [H1 H2]. by apply path_bypass.
  - rewrite reverse_app. rewrite Hr in Hp. apply path_app in Hp as [H1 H2].
    apply path_bypass; [|done|done]. rewrite <- Hr. 
    apply NoDup_cons in Hnd as [? Hnd]. apply NoDup_cons. split; [by rewrite elem_of_reverse|].
    by rewrite reverse_Permutation.
Qed.

(** Put [b] in front. *)
Lemma circle_push nx pv h l b :
  circle nx pv h l -> b ∉ h :: l ->
  circle (upd (upd nx b (nx h)) h b) (upd (upd pv b h) (nx h) b) h (b :: l).
Proof.
  intros (Hnd & Hn & Hp) Hb. apply not_elem_of_cons in Hb as [Hbh Hbl].
  pose proof Hnd as [Hh Hl]%NoDup_cons.
  assert (Enx : nx h = lastof h (reverse l)).
  { rewrite (path_head _ _ _ _ Hn). unfold lastof. destruct l; [done|].
    by rewrite reverse_cons, last_snoc. }
  split_and!.
  - apply NoDup_cons. split; [set_solver|]. by apply NoDup_cons.
  - cbn [path]. rewrite upd_eq. split; [done|]. apply path_upd_ne; [set_solver|].
    pose proof (path_head _ _ _ _ Hn) as E. destruct l as [|x l]; cbn [path] in *.
    + by rewrite upd_eq.
    + rewrite upd_eq. destruct Hn as [_ Hn]. split; [done|]. apply path_upd_ne; [set_solver|done].
  - rewrite reverse_cons. apply path_app. cbn [path]. split.
    + rewrite Enx. eapply path_redirect.
      { by rewrite reverse_Permutation. }
      apply path_upd_ne; [|done]. rewrite not_elem_of_cons, elem_of_reverse. done.
    + rewrite upd_ne, upd_eq; [done|]. rewrite Enx. intros E.
      pose proof (lastof_in h (reverse l)) as Hin. rewrite E in Hin.
      apply elem_of_cons in Hin as [?|Hin]; [done|]. by rewrite elem_of_reverse in Hin.
Qed.
