(* ===== verification/BioSpec.v ===== *)
(** * The buffer cache as a view of the disk

    [bio_inv] relates the linked buffers to a view: the contents of every
    block as the cache shows them, the blocks that are pinned, the buffers the
    running process has locked, the blocks whose contents differ from the
    disk, and the buffers in the order of their last use.  Each routine of
    [Bio] has a lemma that gives its effect on the view. *)

From S2P Require Import Prelude Riscv Mem Spinlock Proc ProcSpec IoState SleepLock Bio.

(** ** The view *)

Record bview := BView {
  v_data : Z -> list Z;
  v_pins : gset Z;
  v_held : gmap nat Z;    (** locked buffers, with their block *)
  v_dirty : gset Z;
  v_lru : list nat;       (** most recently used first *)
}.

Definition nxt (bs : list buf) (i : nat) : nat := from_option b_next 0%nat (bs !! i).
Definition prv (bs : list buf) (i : nat) : nat := from_option b_prev 0%nat (bs !! i).

Definition b2z (b : bool) : Z := if b then 1 else 0.

(** References to a buffer: its holder and the log. *)
Definition brefs (v : bview) (i : nat) (b : Z) : Z :=
  b2z (bool_decide (is_Some (v_held v !! i))) + b2z (bool_decide (b ∈ v_pins v)).

Definition block_upd (L : Z -> list Z) (b : Z) (d : list Z) : Z -> list Z :=
  fun b' => if decide (b = b') then d else L b'.

(** One buffer: unused since boot, or a copy of its block. *)
Definition buf_ok (me : Z) (v : bview) (i : nat) (x : buf) : Prop :=
  match v_held v !! i with
  | Some b => b_dev x = ROOTDEV /\ b_blockno x = b /\ b_lock x = SleepLock 1 me
  | None => b_lock x = SleepLock 0 0
  end /\
  ((b_dev x = 0 /\ b_refcnt x = 0) \/
   (b_dev x = ROOTDEV /\ b_valid x = 1 /\ b_data x = v_data v (b_blockno x) /\
    b_refcnt x = brefs v i (b_blockno x))).

Definition cached (f : iost) (b : Z) : Prop :=
  exists i x, (i < nbuf)%nat /\ bufs f !! i = Some x /\ b_dev x = ROOTDEV /\ b_blockno x = b.

Record bio_inv (me : Z) (f : iost) (v : bview) : Prop := BioInv {
  bi_len : length (bufs f) = S nbuf;
  bi_lru : v_lru v ≡ₚ seq 0 nbuf;
  bi_circle : circle (nxt (bufs f)) (prv (bufs f)) nbuf (v_lru v);
  bi_buf i x : (i < nbuf)%nat -> bufs f !! i = Some x -> buf_ok me v i x;
  bi_uniq i j x y : (i < nbuf)%nat -> (j < nbuf)%nat -> bufs f !! i = Some x -> bufs f !! j = Some y ->
    b_dev x = ROOTDEV -> b_dev y = ROOTDEV -> b_blockno x = b_blockno y -> i = j;
  bi_disk b : b ∉ v_dirty v -> disk_read (dsk f) b = v_data v b;
  bi_pins b : b ∈ v_pins v -> cached f b;
  bi_held i b : v_held v !! i = Some b -> (i < nbuf)%nat;
  bi_dirty b : b ∈ v_dirty v -> b ∈ v_pins v \/ exists i, v_held v !! i = Some b;
  bi_size b : length (v_data v b) = bsize;
}.

(** ** Lemmas on the arrays *)

Section Spec.
Context `{Linker}.
Implicit Types (s : kernel) (f : iost) (v : bview) (ls : list lockid) (bs : list buf).

Lemma getb_wp s i x (Q : buf -> kernel -> Prop) :
  bufs (pfs s) !! i = Some x -> Q x s -> wp (getb i) s Q.
Proof. intros Hx HQ. unfold getb. wp_step. apply iogets_wp. rewrite Hx. by apply wp_ret. Qed.

Lemma updb_wp s i x g (Q : unit -> kernel -> Prop) :
  bufs (pfs s) !! i = Some x ->
  Q tt (set_pfs (set_bufs (alter g i (bufs (pfs s))) (pfs s)) s) -> wp (updb i g) s Q.
Proof.
  intros Hx HQ. unfold updb. wp_step. apply (getb_wp s i x); [done|]. by apply iomod_wp.
Qed.

(** Consecutive assignments to one element. *)
Lemma set_bufs_alter i g h f :
  set_bufs (alter h i (bufs (set_bufs (alter g i (bufs f)) f))) (set_bufs (alter g i (bufs f)) f)
  = set_bufs (alter (fun b => h (g b)) i (bufs f)) f.
Proof. unfold set_bufs. cbn [bufs dsk lg sb itable ftable cons urt panicked pr_locking devsw]. by rewrite list_alter_alter_eq. Qed.

Lemma set_pfs_twice s f g : set_pfs f (set_pfs g s) = set_pfs f s.
Proof. done. Qed.

Lemma nxt_alter_next bs i w : (i < length bs)%nat -> forall j, nxt (alter (set_b_next w) i bs) j = upd (nxt bs) i w j.
Proof.
  intros Hi j. unfold nxt, upd. case_decide as E; subst.
  - rewrite list_lookup_alter_eq. by destruct (lookup_lt_is_Some_2 bs j Hi) as [x ->].
  - by rewrite list_lookup_alter_ne.
Qed.
Lemma prv_alter_prev bs i w : (i < length bs)%nat -> forall j, prv (alter (set_b_prev w) i bs) j = upd (prv bs) i w j.
Proof.
  intros Hi j. unfold prv, upd. case_decide as E; subst.
  - rewrite list_lookup_alter_eq. by destruct (lookup_lt_is_Some_2 bs j Hi) as [x ->].
  - by rewrite list_lookup_alter_ne.
Qed.
Lemma nxt_alter_same bs i g : (forall x, b_next (g x) = b_next x) -> forall j, nxt (alter g i bs) j = nxt bs j.
Proof.
  intros Hg j. unfold nxt. destruct (decide (i = j)) as [->|].
  - rewrite list_lookup_alter_eq. destruct (bs !! j); simpl; [apply Hg|done].
  - by rewrite list_lookup_alter_ne.
Qed.
Lemma prv_alter_same bs i g : (forall x, b_prev (g x) = b_prev x) -> forall j, prv (alter g i bs) j = prv bs j.
Proof.
  intros Hg j. unfold prv. destruct (decide (i = j)) as [->|].
  - rewrite list_lookup_alter_eq. destruct (bs !! j); simpl; [apply Hg|done].
  - by rewrite list_lookup_alter_ne.
Qed.

Lemma circle_ext nx pv nx' pv' h l :
  (forall j, nx' j = nx j) -> (forall j, pv' j = pv j) -> circle nx pv h l -> circle nx' pv' h l.
Proof.
  intros Hn Hp (H1 & H2 & H3). split_and!; [done| |]; by eapply path_ext; [|done]; intros.
Qed.

(** The buffers other than the list head keep their members when only links
    change. *)
Definition same_but_links (x y : buf) : Prop :=
  b_valid y = b_valid x /\ b_disk y = b_disk x /\ b_dev y = b_dev x /\ b_blockno y = b_blockno x /\
  b_lock y = b_lock x /\ b_refcnt y = b_refcnt x /\ b_data y = b_data x.

Lemma buf_ok_same me v i x y : same_but_links x y -> buf_ok me v i x -> buf_ok me v i y.
Proof. intros (A & B & C & D & E & G & I). unfold buf_ok. by rewrite A, C, D, E, G, I. Qed.

Lemma bi_lookup me f v i : bio_inv me f v -> (i <= nbuf)%nat -> exists x, bufs f !! i = Some x.
Proof. intros Hv Hi. apply lookup_lt_is_Some_2. rewrite (bi_len me f v Hv). lia. Qed.

Lemma bi_lru_elem me f v i : bio_inv me f v -> i ∈ v_lru v <-> (i < nbuf)%nat.
Proof. intros Hv. rewrite (bi_lru me f v Hv), elem_of_seq. lia. Qed.

Lemma bi_next me f v x : bio_inv me f v -> bufs f !! nbuf = Some x ->
  path (nxt (bufs f)) nbuf (v_lru v) nbuf /\ b_next x = nxt (bufs f) nbuf /\ b_prev x = prv (bufs f) nbuf.
Proof.
  intros Hv Hx. destruct (bi_circle me f v Hv) as (_ & Hp & _). unfold nxt, prv. by rewrite Hx.
Qed.

(** ** The loops of [bget] *)

Definition matches (dev b : Z) (x : buf) : Prop := b_dev x = dev /\ b_blockno x = b.

Lemma bget_find_wp fuel s a l dev b (Q : option nat -> kernel -> Prop) :
  path (nxt (bufs (pfs s))) a l nbuf -> (length l < fuel)%nat -> nbuf ∉ l ->
  (forall j, j ∈ l -> exists x, bufs (pfs s) !! j = Some x) ->
  (forall j x, j ∈ l -> bufs (pfs s) !! j = Some x -> matches dev b x -> Q (Some j) s) ->
  ((forall j x, j ∈ l -> bufs (pfs s) !! j = Some x -> ~ matches dev b x) -> Q None s) ->
  wp (bget_find fuel (nxt (bufs (pfs s)) a) dev b) s Q.
Proof.
  revert a l. induction fuel as [|fuel IH]; intros a l Hp Hf Hnb Hl HS HN; [lia|].
  cbn [bget_find]. rewrite (path_head _ _ _ _ Hp). destruct l as [|x l]; cbn [path] in Hp.
  - rewrite Nat.eqb_refl. apply wp_ret, HN. intros j y Hj. by apply elem_of_nil in Hj.
  - apply not_elem_of_cons in Hnb as [Hx Hnb]. rewrite (proj2 (Nat.eqb_neq x nbuf)) by done.
    destruct Hp as [_ Hp]. destruct (Hl x) as [y Hy]; [left|]. wp_step.
    apply (getb_wp s x y); [done|].
    destruct (Z.eqb_spec (b_dev y) dev) as [Ed|Ed]; cbn [andb].
    1: destruct (Z.eqb_spec (b_blockno y) b) as [Eb|Eb].
    + apply wp_ret. eapply HS; [left|done|done].
    + replace (b_next y) with (nxt (bufs (pfs s)) x) by (unfold nxt; by rewrite Hy).
      apply (IH x l Hp); [simpl in Hf; lia|done|set_solver| |].
      * intros j z Hj. apply HS. by right.
      * intros Hall. apply HN. intros j z [->|Hj]%elem_of_cons Hz; [|by apply (Hall j z)].
        rewrite Hy in Hz. injection Hz as <-. by intros [_ ?].
    + replace (b_next y) with (nxt (bufs (pfs s)) x) by (unfold nxt; by rewrite Hy).
      apply (IH x l Hp); [simpl in Hf; lia|done|set_solver| |].
      * intros j z Hj. apply HS. by right.
      * intros Hall. apply HN. intros j z [->|Hj]%elem_of_cons Hz; [|by apply (Hall j z)].
        rewrite Hy in Hz. injection Hz as <-. by intros [? _].
Qed.

(** [bget_lru] gives the first unreferenced buffer of the list it walks. *)
Lemma bget_lru_wp fuel s a l (Q : option nat -> kernel -> Prop) :
  path (prv (bufs (pfs s))) a l nbuf -> (length l < fuel)%nat -> nbuf ∉ l ->
  (forall j, j ∈ l -> exists x, bufs (pfs s) !! j = Some x) ->
  (forall l1 j l2 x, l = l1 ++ j :: l2 -> bufs (pfs s) !! j = Some x -> b_refcnt x = 0 ->
     (forall k y, k ∈ l1 -> bufs (pfs s) !! k = Some y -> b_refcnt y <> 0) -> Q (Some j) s) ->
  ((forall j x, j ∈ l -> bufs (pfs s) !! j = Some x -> b_refcnt x <> 0) -> Q None s) ->
  wp (bget_lru fuel (prv (bufs (pfs s)) a)) s Q.
Proof.
  revert a l. induction fuel as [|fuel IH]; intros a l Hp Hf Hnb Hl HS HN; [lia|].
  cbn [bget_lru]. rewrite (path_head _ _ _ _ Hp). destruct l as [|x l]; cbn [path] in Hp.
  - rewrite Nat.eqb_refl. apply wp_ret, HN. intros j y Hj. by apply elem_of_nil in Hj.
  - apply not_elem_of_cons in Hnb as [Hx Hnb]. rewrite (proj2 (Nat.eqb_neq x nbuf)) by done.
    destruct Hp as [_ Hp]. destruct (Hl x) as [y Hy]; [left|]. wp_step.
    apply (getb_wp s x y); [done|]. destruct (Z.eqb_spec (b_refcnt y) 0) as [Er|Er].
    + apply wp_ret. apply (HS [] x l y); [done|done|done|]. intros k z Hk. by apply elem_of_nil in Hk.
    + replace (b_prev y) with (prv (bufs (pfs s)) x) by (unfold prv; by rewrite Hy).
      apply (IH x l Hp); [simpl in Hf; lia|done|set_solver| |].
      * intros l1 j l2 z -> Hz Hr Hall. apply (HS (x :: l1) j l2 z); [done|done|done|].
        intros k w [->|Hk]%elem_of_cons Hw; [congruence|by eapply Hall].
      * intros Hall. apply HN. intros j z [->|Hj]%elem_of_cons Hz; [congruence|by eapply Hall].
Qed.

(** ** Changing one buffer *)

Lemma buf_lock_ok f j : (j < length (bufs f))%nat -> SlOk (buf_lock j) f.
Proof.
  intros Hj. destruct (lookup_lt_is_Some_2 _ _ Hj) as [x Hx]. split; cbn [buf_lock sl_get sl_put].
  - rewrite Hx. eauto.
  - intros l l'. cbn [bufs set_bufs]. by rewrite !list_lookup_alter_eq, Hx.
  - intros l. cbn [bufs set_bufs]. by rewrite list_lookup_alter_eq, Hx.
  - intros l l'. rewrite set_bufs_alter. done.
Qed.

(** The invariant after an assignment to buffer [i] that keeps its links. *)
Lemma bio_inv_alter me f f' v v' i g x :
  bio_inv me f v -> (i < nbuf)%nat -> bufs f !! i = Some x -> bufs f' = alter g i (bufs f) ->
  (forall y, b_next (g y) = b_next y) -> (forall y, b_prev (g y) = b_prev y) ->
  v_lru v' = v_lru v ->
  buf_ok me v' i (g x) ->
  (forall j y, j <> i -> (j < nbuf)%nat -> bufs f !! j = Some y -> buf_ok me v' j y) ->
  (forall j y, b_dev (g x) = ROOTDEV -> j <> i -> (j < nbuf)%nat -> bufs f !! j = Some y ->
     b_dev y = ROOTDEV -> b_blockno y <> b_blockno (g x)) ->
  (forall b, b ∉ v_dirty v' -> disk_read (dsk f') b = v_data v' b) ->
  (forall b, b ∈ v_pins v' -> cached f' b) ->
  (forall j b, v_held v' !! j = Some b -> (j < nbuf)%nat) ->
  (forall b, b ∈ v_dirty v' -> b ∈ v_pins v' \/ exists j, v_held v' !! j = Some b) ->
  (forall b, length (v_data v' b) = bsize) ->
  bio_inv me f' v'.
Proof.
  intros Hv Hi Hx Hb Hn Hp Hlru Hok Hoth Huniq Hdisk Hpins Hheld Hdirty Hsize. split; try done.
  - rewrite Hb, length_alter. apply Hv.
  - rewrite Hlru. apply Hv.
  - rewrite Hlru, Hb. eapply circle_ext; [| |apply Hv]; intros j.
    + by apply nxt_alter_same.
    + by apply prv_alter_same.
  - intros j y Hj Hy. rewrite Hb in Hy. destruct (decide (j = i)) as [->|Hne].
    + rewrite list_lookup_alter_eq, Hx in Hy. simpl in Hy. injection Hy as <-. done.
    + rewrite list_lookup_alter_ne in Hy by done. by apply Hoth.
  - intros j k y z Hj Hk Hy Hz Hdy Hdz Hbl. rewrite Hb in Hy, Hz.
    destruct (decide (j = i)) as [->|Hji]; destruct (decide (k = i)) as [->|Hki]; try done;
      rewrite ?list_lookup_alter_eq, ?Hx in Hy; rewrite ?list_lookup_alter_eq, ?Hx in Hz;
      rewrite ?list_lookup_alter_ne in Hy by done; rewrite ?list_lookup_alter_ne in Hz by done.
    + simpl in Hy. injection Hy as <-. by destruct (Huniq k z Hdy Hki Hk Hz Hdz).
    + simpl in Hz. injection Hz as <-. by destruct (Huniq j y Hdz Hji Hj Hy Hdy).
    + by apply (bi_uniq me f v Hv j k y z).
Qed.

Lemma cached_alter f f' i g x b :
  bufs f !! i = Some x -> bufs f' = alter g i (bufs f) ->
  b_dev (g x) = b_dev x -> b_blockno (g x) = b_blockno x -> cached f b -> cached f' b.
Proof.
  intros Hx Hb Hd Hn (j & y & Hj & Hy & Hdy & Hby). destruct (decide (j = i)) as [->|Hne].
  - exists i, (g x). rewrite Hx in Hy. injection Hy as <-. rewrite Hb, list_lookup_alter_eq, Hx.
    rewrite Hd, Hn. done.
  - exists j, y. rewrite Hb, list_lookup_alter_ne; done.
Qed.

(** The view after [bread] and before [brelse]. *)
Definition hold (j : nat) (b : Z) (v : bview) : bview :=
  BView (v_data v) (v_pins v) (<[j := b]> (v_held v)) (v_dirty v) (v_lru v).

Lemma buf_ok_hold_ne me v i b j y : j <> i -> buf_ok me v j y -> buf_ok me (hold i b v) j y.
Proof.
  intros Hne. unfold buf_ok, brefs. cbn [hold v_held v_pins v_data]. by rewrite lookup_insert_ne.
Qed.

(** A referenced buffer is held or pinned. *)
Lemma referenced_cases me f v i x :
  bio_inv me f v -> (i < nbuf)%nat -> bufs f !! i = Some x -> b_refcnt x <> 0 ->
  i ∈ dom (v_held v) \/ (b_dev x = ROOTDEV /\ b_blockno x ∈ v_pins v).
Proof.
  intros Hv Hi Hx Hn. destruct (bi_buf me f v Hv i x Hi Hx) as [_ [[_ Hr]|(Hd & _ & _ & Hr)]]; [done|].
  unfold brefs in Hr. destruct (bool_decide_reflect (is_Some (v_held v !! i))) as [Hh|Hh].
  { left. by apply elem_of_dom. }
  destruct (bool_decide_reflect (b_blockno x ∈ v_pins v)) as [Hp|Hp]; [by right|]. by destruct Hn.
Qed.

Lemma length_filter_split {A} (P : A -> Prop) `{forall x, Decision (P x)} (l : list A) :
  (length (filter P l) + length (filter (fun x => ~ P x) l) = length l)%nat.
Proof.
  induction l as [|x l IH]; [done|]. destruct (decide (P x)).
  - rewrite filter_cons_True, filter_cons_False by tauto. simpl. lia.
  - rewrite filter_cons_False, filter_cons_True by tauto. simpl. lia.
Qed.

(** The pinned buffers that are not held are at most as many as the pins. *)
Lemma pinned_bound me f v l :
  bio_inv me f v -> NoDup l ->
  (forall i, i ∈ l -> (i < nbuf)%nat /\ exists x, bufs f !! i = Some x /\ b_dev x = ROOTDEV /\
     b_blockno x ∈ v_pins v) ->
  (length l <= size (v_pins v))%nat.
Proof.
  intros Hv Hnd Hl. pose (blk := fun i => match bufs f !! i with Some x => b_blockno x | None => 0 end).
  rewrite <- (length_fmap blk l), <- (size_list_to_set (C := gset Z) (blk <$> l)).
  - apply subseteq_size. intros b Hb. apply elem_of_list_to_set, list_elem_of_fmap in Hb as (i & -> & Hi).
    destruct (Hl i Hi) as (_ & x & Hx & _ & Hp). unfold blk. by rewrite Hx.
  - apply NoDup_fmap_2_strong; [|done]. intros i j Hi Hj.
    destruct (Hl i Hi) as (Hi' & x & Hx & Hdx & _). destruct (Hl j Hj) as (Hj' & y & Hy & Hdy & _).
    unfold blk. rewrite Hx, Hy. intros E. by apply (bi_uniq me f v Hv i j x y).
Qed.

(** One of the buffers is free when fewer than [nbuf] are held or pinned. *)
Lemma bio_free me f v :
  bio_inv me f v -> (size (v_held v) + size (v_pins v) < nbuf)%nat ->
  exists i x, (i < nbuf)%nat /\ bufs f !! i = Some x /\ b_refcnt x = 0.
Proof.
  intros Hv Hsz. pose (free := fun i => match bufs f !! i with Some x => b_refcnt x =? 0 | None => false end).
  destruct (decide (Exists (fun i => free i = true) (seq 0 nbuf))) as [He|Hn].
  { apply Exists_exists in He as (i & Hi & Hf). apply elem_of_seq in Hi. unfold free in Hf.
    destruct (bufs f !! i) as [x|] eqn:Hx; [|done]. exists i, x. apply Z.eqb_eq in Hf.
    split_and!; [lia|done|done]. }
  exfalso. rewrite <- Forall_Exists_neg, Forall_forall in Hn.
  assert (H1 : (length (filter (fun i => i ∈ dom (v_held v)) (seq 0 nbuf)) <= size (v_held v))%nat).
  { rewrite <- (size_dom (D := gset nat)), <- (size_list_to_set (C := gset nat)) by apply NoDup_filter, NoDup_seq.
    apply subseteq_size. intros i Hi. apply elem_of_list_to_set, list_elem_of_filter in Hi. tauto. }
  assert (H2 : (length (filter (fun i => i ∉ dom (v_held v)) (seq 0 nbuf)) <= size (v_pins v))%nat).
  { eapply pinned_bound; [done|apply NoDup_filter, NoDup_seq|]. intros i Hi.
    apply list_elem_of_filter in Hi as [Hi1 Hi]. specialize (Hn i Hi). apply elem_of_seq in Hi.
    destruct (bi_lookup me f v i Hv) as [x Hx]; [lia|]. split; [lia|]. exists x. split; [done|].
    unfold free in Hn. rewrite Hx in Hn. apply not_true_is_false, Z.eqb_neq in Hn.
    destruct (referenced_cases me f v i x) as [?|[? ?]]; [done|lia|done|done|done|done]. }
  pose proof (length_filter_split (fun i => i ∈ dom (v_held v)) (seq 0 nbuf)) as H3.
  rewrite length_seq in H3. lia.
Qed.

(** ** bread *)

(** A process at work on buffers, holding the spin locks [ls]. *)
Definition bio_at ls (i : nat) s (me : Z) v : Prop :=
  kready ls i s /\ (BcacheLock ∉ ls) /\ (forall a, SleepSpin a ∉ ls) /\ (length ls < 7)%nat /\
  cur_pid i s = me /\ bio_inv me (pfs s) v.

(** Only buffers have changed. *)
Definition bstep (i : nat) s s' : Prop := kframe i s s' /\ pfs s' = set_bufs (bufs (pfs s')) (pfs s).

Lemma bio_at_step ls i s s' me v v' :
  bio_at ls i s me v -> kframe i s s' -> bio_inv me (pfs s') v' -> bio_at ls i s' me v'.
Proof.
  intros (Hr & H1 & H2 & H3 & H4 & _) Hk Hv. split_and!; try done; [by eapply kready_frame|].
  by rewrite (cur_pid_frame i s).
Qed.

(** The contents of a view matter pointwise. *)
Lemma bio_inv_ext me f L L' P D h l :
  (forall b, L b = L' b) -> bio_inv me f (BView L P h D l) -> bio_inv me f (BView L' P h D l).
Proof.
  intros E [A1 A2 A3 A4 A5 A6 A7 A8 A9 A10]. split; try done.
  - intros i x Hi Hx. pose proof (A4 i x Hi Hx) as Hok. unfold buf_ok, brefs in *.
    cbn [v_data v_pins v_held] in *. by rewrite <- E.
  - intros b Hb. cbn [v_data] in *. rewrite <- E. by apply A6.
  - intros b. cbn [v_data] in *. rewrite <- E. apply A10.
Qed.

Lemma bio_at_ext ls i s me L L' P D h l :
  (forall b, L b = L' b) -> bio_at ls i s me (BView L P h D l) -> bio_at ls i s me (BView L' P h D l).
Proof.
  intros E (A1 & A2 & A3 & A4 & A5 & A6). split_and!; try done. by eapply bio_inv_ext.
Qed.

Lemma bget_tail_wp ls i s s1 me v j g x (Q : nat -> kernel -> Prop) :
  bio_at ls i s me v -> inside BcacheLock i s s1 ->
  pfs s1 = set_bufs (alter g j (bufs (pfs s))) (pfs s) -> bufs (pfs s) !! j = Some x ->
  sl_locked (b_lock (g x)) = 0 ->
  (forall s2, kframe i s s2 ->
     pfs s2 = set_bufs (alter (fun y => set_b_lock (SleepLock 1 me) (g y)) j (bufs (pfs s))) (pfs s) ->
     Q j s2) ->
  wp (bind (inlk (release BcacheLock)) (fun _ => bind (acquiresleep (buf_lock j)) (fun _ => ret j))) s1 Q.
Proof.
  intros (Hr & Hl1 & Hl2 & Hlen & Hpid & Hv) Hin E1 Hx Hlk HQ. wp_step.
  eapply (k_rel ls i s); [done|done|done|]. intros s2 Hk2 E2. wp_step.
  assert (Hlenb : (j < length (bufs (pfs s2)))%nat).
  { rewrite E2, E1. cbn [bufs set_bufs]. rewrite length_alter. by apply lookup_lt_Some in Hx. }
  eapply (acquiresleep_wp ls i s2 (buf_lock j)).
  - by eapply kready_frame.
  - done.
  - lia.
  - by apply buf_lock_ok.
  - cbn [buf_lock sl_get]. rewrite E2, E1. cbn [bufs set_bufs]. by rewrite list_lookup_alter_eq, Hx.
  - done.
  - intros s3 Hk3 E3. apply wp_ret, HQ; [by eapply kframe_trans|].
    rewrite E3, (cur_pid_frame i s s2 Hk2), Hpid. cbn [buf_lock sl_put]. rewrite E2, E1.
    by rewrite set_bufs_alter.
Qed.

(** Which buffer [bget] takes: the one that caches the block, or the least
    recently used one without references. *)
Definition bget_choice f v b j : Prop :=
  (exists x, bufs f !! j = Some x /\ matches ROOTDEV b x) \/
  (~ cached f b /\ exists l1 l2, v_lru v = l1 ++ j :: l2 /\
     (forall x, bufs f !! j = Some x -> b_refcnt x = 0) /\
     (forall k y, k ∈ l2 -> bufs f !! k = Some y -> b_refcnt y <> 0)).

(** What [bget] makes of the buffer it takes. *)
Definition bget_buf (me b : Z) (hit : bool) (x : buf) : buf :=
  if hit then set_b_lock (SleepLock 1 me) (set_b_refcnt (u32 (b_refcnt x + 1)) x)
  else set_b_lock (SleepLock 1 me) (set_b_refcnt 1 (set_b_valid 0 (set_b_blockno b (set_b_dev ROOTDEV x)))).

(** The invariant as the loops of [bget] see it. *)
Lemma bio_walk me f v :
  bio_inv me f v -> exists h, bufs f !! nbuf = Some h /\
  b_next h = nxt (bufs f) nbuf /\ b_prev h = prv (bufs f) nbuf /\
  path (nxt (bufs f)) nbuf (v_lru v) nbuf /\ path (prv (bufs f)) nbuf (reverse (v_lru v)) nbuf /\
  (nbuf ∉ v_lru v) /\ (length (v_lru v) < S nbuf)%nat /\
  (forall j, j ∈ v_lru v -> exists x, bufs f !! j = Some x).
Proof.
  intros Hv. destruct (bi_lookup me f v nbuf Hv) as [h Hh]; [lia|]. exists h.
  destruct (bi_next me f v h Hv Hh) as (Hpath & Hnx & Hpv).
  pose proof (bi_circle me f v Hv) as (Hnd & _ & Hpathr). apply NoDup_cons in Hnd as [Hnb Hnd].
  split_and!; try done.
  - rewrite (bi_lru me _ v Hv), length_seq. lia.
  - intros j Hj. apply (bi_lookup me _ v); [done|]. apply (bi_lru_elem me _ v j Hv) in Hj. lia.
Qed.

Lemma bget_recycle_wp ls i s s1 me v b (Q : nat -> kernel -> Prop) :
  bio_at ls i s me v -> inside BcacheLock i s s1 -> pfs s1 = pfs s ->
  (size (v_held v) + size (v_pins v) < nbuf)%nat -> ~ cached (pfs s) b ->
  (forall j x s2, (j < nbuf)%nat -> bufs (pfs s) !! j = Some x -> bget_choice (pfs s) v b j ->
     v_held v !! j = None -> kframe i s s2 -> b_refcnt x = 0 ->
     pfs s2 = set_bufs (alter (bget_buf me b false) j (bufs (pfs s))) (pfs s) -> Q j s2) ->
  wp (bget_recycle ROOTDEV b) s1 Q.
Proof.
  intros Hat Hin E1 Hsz Hnc HQ. pose proof Hat as (Hr & _ & _ & _ & _ & Hv).
  destruct (bio_walk me (pfs s) v Hv) as (h & Hh & _ & Hpv & _ & Hpath & Hnb & Hll & Hlook).
  unfold bget_recycle. wp_step. apply (getb_wp _ nbuf h); [by rewrite E1|]. wp_step. rewrite Hpv, <- E1.
  apply (bget_lru_wp _ s1 nbuf (reverse (v_lru v))); rewrite ?E1.
  - done.
  - by rewrite length_reverse.
  - by rewrite elem_of_reverse.
  - intros j. rewrite elem_of_reverse. apply Hlook.
  - intros l1 j l2 x Hsplit Hx Hr0 Hall.
    assert (Hsplit' : v_lru v = reverse l2 ++ j :: reverse l1).
    { rewrite <- (reverse_involutive (v_lru v)), Hsplit, reverse_app, reverse_cons, <- app_assoc. done. }
    assert (Hj : (j < nbuf)%nat) by (apply (bi_lru_elem me _ v j Hv); rewrite Hsplit'; set_solver).
    destruct (bi_buf me _ v Hv j x Hj Hx) as [Hb Hc].
    assert (Hnone : v_held v !! j = None).
    { destruct (v_held v !! j) as [b'|] eqn:E; [|done]. destruct Hb as (Hd & _ & _).
      destruct Hc as [[Hd0 _]|(_ & _ & _ & Hrc)]; [rewrite Hd in Hd0; done|].
      unfold brefs in Hrc. rewrite E, bool_decide_eq_true_2 in Hrc by eauto.
      unfold b2z in Hrc. destruct (bool_decide _) in Hrc; lia. }
    wp_step. apply (updb_wp _ j x); [by rewrite E1|]. cbn [pfs set_pfs]. rewrite E1.
    do 3 (wp_step; eapply updb_wp;
      [cbn [pfs set_pfs bufs set_bufs]; by rewrite list_lookup_alter_eq, Hx|];
      cbn [pfs set_pfs]; rewrite set_bufs_alter).
    eapply (bget_tail_wp ls i s _ me v j
      (fun x => set_b_refcnt 1 (set_b_valid 0 (set_b_blockno b (set_b_dev ROOTDEV x)))) x); [done| |done|done| |].
    + eapply inside_frame; [done|done|]. exact (kframe_pfs i s1 _).
    + rewrite Hnone in Hb. simpl. by rewrite Hb.
    + intros s2 Hk2 E2. apply (HQ j x s2); [done|done| |done|done|done|by rewrite E2].
      right. split; [done|]. exists (reverse l2), (reverse l1). split_and!; [done| |].
      * intros y Hy. rewrite Hx in Hy. by injection Hy as <-.
      * intros k y. rewrite elem_of_reverse. apply Hall.
  - intros Hall. exfalso. destruct (bio_free me (pfs s) v Hv Hsz) as (j & x & Hj & Hx & Hr0).
    apply (Hall j x); [|done|done]. rewrite elem_of_reverse. by apply (bi_lru_elem me _ v j Hv).
Qed.

Lemma bget_wp ls i s me v b (Q : nat -> kernel -> Prop) :
  bio_at ls i s me v -> (forall j, v_held v !! j <> Some b) ->
  (cached (pfs s) b \/ (size (v_held v) + size (v_pins v) < nbuf)%nat) ->
  (forall j x (hit : bool) s2, (j < nbuf)%nat -> bufs (pfs s) !! j = Some x ->
     bget_choice (pfs s) v b j -> v_held v !! j = None -> kframe i s s2 ->
     (if hit then matches ROOTDEV b x else (~ cached (pfs s) b /\ b_refcnt x = 0)) ->
     pfs s2 = set_bufs (alter (bget_buf me b hit) j (bufs (pfs s))) (pfs s) -> Q j s2) ->
  wp (bget ROOTDEV b) s Q.
Proof.
  intros Hat Hnh Hsz HQ. pose proof Hat as (Hr & Hl1 & Hl2 & Hlen & Hpid & Hv). unfold bget. wp_step.
  apply (k_acq ls i); [done|done|lia|done|]. intros s1 Hin Hr1 E1.
  destruct (bio_walk me (pfs s) v Hv) as (h & Hh & Hnx & _ & Hpath & _ & Hnb & Hll & Hlook).
  wp_step. apply (getb_wp _ nbuf h); [by rewrite E1|]. wp_step. rewrite Hnx, <- E1.
  apply (bget_find_wp _ s1 nbuf (v_lru v)); rewrite ?E1; [done|done|done|done| |].
  - intros j x Hj Hx Hm. apply (bi_lru_elem me _ v j Hv) in Hj.
    destruct (bi_buf me _ v Hv j x Hj Hx) as [Hb _].
    assert (Hnone : v_held v !! j = None).
    { destruct (v_held v !! j) as [b'|] eqn:E; [|done]. destruct (Hnh j).
      destruct Hm as [_ <-]. destruct Hb as (_ & -> & _). done. }
    wp_step. apply (getb_wp _ j x); [by rewrite E1|]. wp_step. apply (updb_wp _ j x); [by rewrite E1|].
    eapply (bget_tail_wp ls i s _ me v j (set_b_refcnt (u32 (b_refcnt x + 1))) x); [done| | |done| |].
    + eapply inside_frame; [done|done|apply kframe_pfs].
    + cbn [pfs set_pfs]. by rewrite E1.
    + rewrite Hnone in Hb. simpl. by rewrite Hb.
    + intros s2 Hk2 E2. apply (HQ j x true s2); [done|done|left; eauto|done|done|done|].
      rewrite E2. f_equal. apply list_alter_ext; [|done]. intros y. rewrite Hx. by intros [= <-].
  - intros Hno. assert (Hnc : ~ cached (pfs s) b).
    { intros (j & x & Hj & Hx & Hd & Hb). apply (Hno j x); [by apply (bi_lru_elem me _ v j Hv)|done|done]. }
    destruct Hsz as [?|Hsz]; [done|]. apply (bget_recycle_wp ls i s s1 me v b); try done.
    intros j x s2 Hj Hx Hch Hn Hk Hr0 E2. by apply (HQ j x false s2).
Qed.

(** The view after a block has been locked. *)
Lemma hold_hit me f v j b x :
  bio_inv me f v -> (j < nbuf)%nat -> bufs f !! j = Some x -> v_held v !! j = None -> matches ROOTDEV b x ->
  bio_inv me (set_bufs (alter (bget_buf me b true) j (bufs f)) f) (hold j b v).
Proof.
  intros Hv Hj Hx Hn [Hd Hb]. destruct (bi_buf me f v Hv j x Hj Hx) as [Hlk Hc].
  destruct Hc as [[Hd0 _]|(_ & Hval & Hdata & Hrc)]; [rewrite Hd in Hd0; done|].
  eapply (bio_inv_alter me f _ v (hold j b v) j _ x); try done.
  - unfold buf_ok, brefs, bget_buf. cbn [hold v_held v_pins v_data b_lock b_dev b_blockno b_refcnt b_valid
      b_data set_b_lock set_b_refcnt]. rewrite lookup_insert_eq. split; [done|]. right. split_and!; try done.
    rewrite Hrc. unfold brefs. rewrite Hn, (bool_decide_eq_false_2 (is_Some None)) by (by intros [? ?]).
    rewrite (bool_decide_eq_true_2 (is_Some (Some b))) by eauto. unfold b2z. by destruct (bool_decide _).
  - intros k y Hk Hk' Hy. apply buf_ok_hold_ne; [done|]. by apply (bi_buf me f v Hv).
  - intros k y _ Hk Hk' Hy Hdy E. apply Hk. apply (bi_uniq me f v Hv k j y x); done.
  - intros b' Hb'. by apply (bi_disk me f v Hv).
  - intros b' Hb'. eapply (cached_alter f _ j); [done|done|done|done|]. by apply (bi_pins me f v Hv).
  - intros k b'. cbn [hold v_held]. destruct (decide (j = k)) as [<-|Hne]; [done|].
    rewrite lookup_insert_ne by done. apply (bi_held me f v Hv).
  - intros b' Hb'. destruct (bi_dirty me f v Hv b' Hb') as [?|[k Hk]]; [by left|]. right. exists k.
    cbn [hold v_held]. rewrite lookup_insert_ne; [done|]. intros <-. congruence.
  - apply (bi_size me f v Hv).
Qed.

(** A buffer without references is neither held nor pinned. *)
Lemma unreferenced me f v j x :
  bio_inv me f v -> (j < nbuf)%nat -> bufs f !! j = Some x -> b_refcnt x = 0 ->
  b_dev x = ROOTDEV -> b_blockno x ∉ v_pins v.
Proof.
  intros Hv Hj Hx Hr Hd Hp. destruct (bi_buf me f v Hv j x Hj Hx) as [_ [[Hd0 _]|(_ & _ & _ & Hrc)]].
  { rewrite Hd in Hd0. done. }
  unfold brefs in Hrc. rewrite (bool_decide_eq_true_2 (b_blockno x ∈ v_pins v)) in Hrc by done.
  unfold b2z in Hrc. destruct (bool_decide _) in Hrc; lia.
Qed.

(** The buffer of a missing block once [bread] has read it. *)
Definition bread_buf (me b : Z) (d : list Z) (x : buf) : buf :=
  set_b_valid 1 (set_b_data d (bget_buf me b false x)).

Lemma hold_miss me f v j b x :
  bio_inv me f v -> (j < nbuf)%nat -> bufs f !! j = Some x -> v_held v !! j = None ->
  ~ cached f b -> b_refcnt x = 0 ->
  bio_inv me (set_bufs (alter (bread_buf me b (disk_read (dsk f) b)) j (bufs f)) f) (hold j b v).
Proof.
  intros Hv Hj Hx Hn Hnc Hr. assert (Hnp : b ∉ v_pins v) by (intros Hp; by apply Hnc, (bi_pins me f v Hv)).
  assert (Hnd : b ∉ v_dirty v).
  { intros Hd. destruct (bi_dirty me f v Hv b Hd) as [?|[k Hk]]; [done|]. apply Hnc.
    pose proof (bi_held me f v Hv k b Hk) as Hkn.
    destruct (bi_lookup me f v k Hv) as [y Hy]; [lia|]. destruct (bi_buf me f v Hv k y Hkn Hy) as [Hb _].
    rewrite Hk in Hb. exists k, y. tauto. }
  eapply (bio_inv_alter me f _ v (hold j b v) j _ x); try done.
  - unfold buf_ok, brefs, bread_buf, bget_buf. cbn [hold v_held v_pins v_data b_lock b_dev b_blockno b_refcnt
      b_valid b_data set_b_lock set_b_refcnt set_b_valid set_b_data set_b_blockno set_b_dev].
    rewrite lookup_insert_eq. split; [done|]. right. split_and!; try done.
    + by apply (bi_disk me f v Hv).
    + rewrite (bool_decide_eq_true_2 (is_Some (Some b))) by eauto. by rewrite bool_decide_eq_false_2.
  - intros k y Hk Hk' Hy. apply buf_ok_hold_ne; [done|]. by apply (bi_buf me f v Hv).
  - intros k y _ Hk Hk' Hy Hdy E. apply Hnc. by exists k, y.
  - intros b' Hb'. by apply (bi_disk me f v Hv).
  - intros b' Hb'. destruct (bi_pins me f v Hv b' Hb') as (k & y & Hk & Hy & Hdy & Hby).
    exists k, y. split_and!; try done. cbn [bufs set_bufs]. rewrite list_lookup_alter_ne; [done|].
    intros <-. rewrite Hx in Hy. injection Hy as <-. subst b'. by eapply unreferenced.
  - intros k b'. cbn [hold v_held]. destruct (decide (j = k)) as [<-|Hne]; [done|].
    rewrite lookup_insert_ne by done. apply (bi_held me f v Hv).
  - intros b' Hb'. destruct (bi_dirty me f v Hv b' Hb') as [?|[k Hk]]; [by left|]. right. exists k.
    cbn [hold v_held]. rewrite lookup_insert_ne; [done|]. intros <-. congruence.
  - apply (bi_size me f v Hv).
Qed.

Lemma bread_wp ls i s me v b (Q : nat -> kernel -> Prop) :
  bio_at ls i s me v -> (forall j, v_held v !! j <> Some b) ->
  (cached (pfs s) b \/ (size (v_held v) + size (v_pins v) < nbuf)%nat) ->
  (forall j s2, v_held v !! j = None -> bget_choice (pfs s) v b j -> bstep i s s2 ->
     bio_at ls i s2 me (hold j b v) -> Q j s2) ->
  wp (bread ROOTDEV b) s Q.
Proof.
  intros Hat Hnh Hsz HQ. pose proof Hat as (_ & _ & _ & _ & _ & Hv). unfold bread. wp_step.
  apply (bget_wp ls i s me v b); [done|done|done|]. intros j x hit s1 Hj Hx Hch Hn Hk1 Hhit E1.
  assert (Hx1 : bufs (pfs s1) !! j = Some (bget_buf me b hit x)).
  { rewrite E1. cbn [bufs set_bufs]. by rewrite list_lookup_alter_eq, Hx. }
  wp_step. apply (getb_wp s1 j _ _ Hx1). destruct hit.
  - destruct (bi_buf me _ v Hv j x Hj Hx) as [_ [[Hd0 _]|(_ & Hval & _ & _)]].
    { destruct Hhit as [Hd _]. rewrite Hd in Hd0. done. }
    cbn [bget_buf set_b_lock set_b_refcnt b_valid]. rewrite Hval. cbn [Z.eqb]. do 3 wp_step.
    apply HQ; [done|done| |].
    + split; [done|]. rewrite E1. done.
    + eapply bio_at_step; [done|done|]. rewrite E1. by apply (hold_hit me _ v j b x).
  - destruct Hhit as [Hnc Hr]. cbn [bget_buf set_b_lock set_b_refcnt set_b_valid b_valid Z.eqb]. do 2 wp_step.
    unfold disk_rw. wp_step. apply (getb_wp s1 j _ _ Hx1). wp_step. apply iogets_wp.
    apply (updb_wp s1 j _ _ _ Hx1). eapply updb_wp.
    { cbn [pfs set_pfs bufs set_bufs]. by rewrite list_lookup_alter_eq, Hx1. }
    wp_step. cbn [pfs set_pfs]. rewrite set_bufs_alter, E1, set_bufs_alter. cbn [dsk set_bufs b_blockno
      bget_buf set_b_lock set_b_refcnt set_b_valid set_b_blockno].
    match goal with |- Q _ ?s' => assert (Hk : kframe i s s') end.
    { eapply kframe_trans; [exact Hk1|]. exact (kframe_pfs i s1 _). }
    apply HQ; [done|done|done|]. eapply bio_at_step; [done|done|]. by apply (hold_miss me _ v j b x).
Qed.

(** ** The holder of a buffer *)

Lemma held_buf me f v j b :
  bio_inv me f v -> v_held v !! j = Some b ->
  (j < nbuf)%nat /\ exists x, bufs f !! j = Some x /\ b_dev x = ROOTDEV /\ b_blockno x = b /\
    b_lock x = SleepLock 1 me /\ b_valid x = 1 /\ b_data x = v_data v b /\ b_refcnt x = brefs v j b.
Proof.
  intros Hv Hh. pose proof (bi_held me f v Hv j b Hh) as Hj. split; [done|].
  destruct (bi_lookup me f v j Hv) as [x Hx]; [lia|]. exists x.
  destruct (bi_buf me f v Hv j x Hj Hx) as [Hb Hc]. rewrite Hh in Hb. destruct Hb as (Hd & <- & Hl).
  destruct Hc as [[Hd0 _]|(_ & Hval & Hdata & Hr)]; [rewrite Hd in Hd0; done|]. done.
Qed.

Lemma buf_data_wp ls i s me v j b (Q : list Z -> kernel -> Prop) :
  bio_at ls i s me v -> v_held v !! j = Some b -> Q (v_data v b) s -> wp (buf_data j) s Q.
Proof.
  intros (_ & _ & _ & _ & _ & Hv) Hh HQ.
  destruct (held_buf me (pfs s) v j b Hv Hh) as (_ & x & Hx & _ & _ & _ & _ & Hd & _).
  unfold buf_data. wp_step. apply (getb_wp s j x); [done|]. apply wp_ret. by rewrite Hd.
Qed.

(** The view after the contents of block [b] have been changed in the cache. *)
Definition touch (b : Z) (d : list Z) (v : bview) : bview :=
  BView (block_upd (v_data v) b d) (v_pins v) (v_held v) ({[b]} ∪ v_dirty v) (v_lru v).

Lemma block_upd_eq L b d : block_upd L b d b = d.
Proof. unfold block_upd. by rewrite decide_True. Qed.
Lemma block_upd_ne L b d b' : b <> b' -> block_upd L b d b' = L b'.
Proof. intros. unfold block_upd. by rewrite decide_False. Qed.

Lemma set_buf_data_wp ls i s me v j b d (Q : unit -> kernel -> Prop) :
  bio_at ls i s me v -> v_held v !! j = Some b -> length d = bsize ->
  (forall s2, bstep i s s2 -> bio_at ls i s2 me (touch b d v) -> Q tt s2) ->
  wp (set_buf_data j d) s Q.
Proof.
  intros Hat Hh Hlen HQ. pose proof Hat as (_ & _ & _ & _ & _ & Hv).
  destruct (held_buf me (pfs s) v j b Hv Hh) as (Hj & x & Hx & Hdv & Hbn & Hlk & Hval & Hd & Hr).
  unfold set_buf_data. apply (updb_wp s j x); [done|].
  assert (Hk := kframe_pfs i s (set_bufs (alter (set_b_data d) j (bufs (pfs s))) (pfs s))).
  apply HQ; [done|]. eapply bio_at_step; [done|done|]. cbn [pfs set_pfs].
  assert (Hoth : forall k y, k <> j -> (k < nbuf)%nat -> bufs (pfs s) !! k = Some y -> b_dev y = ROOTDEV -> b_blockno y <> b).
  { intros k y Hk1 Hk2 Hy Hdy E. apply Hk1. apply (bi_uniq me _ v Hv k j y x); try done. congruence. }
  eapply (bio_inv_alter me (pfs s) _ v (touch b d v) j _ x); try done.
  - unfold buf_ok, brefs. cbn [touch v_held v_pins v_data b_lock b_dev b_blockno b_refcnt b_valid b_data set_b_data].
    rewrite Hh, Hbn. split; [done|]. right. split_and!; try done.
    + by rewrite block_upd_eq.
    + by rewrite Hr; unfold brefs; rewrite Hh.
  - intros k y Hk1 Hk2 Hy. pose proof (bi_buf me _ v Hv k y Hk2 Hy) as Hok. unfold buf_ok, brefs in *.
    cbn [touch v_held v_pins v_data] in *. destruct Hok as [H1 [H2|(H2 & H3 & H4 & H5)]]; [tauto|].
    split; [done|]. right. split_and!; try done. rewrite block_upd_ne; [done|]. intros E.
    by apply (Hoth k y).
  - intros k y _ Hk1 Hk2 Hy Hdy. cbn [set_b_data b_blockno]. rewrite Hbn. by apply (Hoth k y).
  - intros b' Hb'. cbn [touch v_dirty v_data] in *. rewrite block_upd_ne by set_solver.
    apply (bi_disk me _ v Hv). set_solver.
  - intros b' Hb'. eapply (cached_alter (pfs s) _ j); [done|done|done|done|]. by apply (bi_pins me _ v Hv).
  - apply (bi_held me _ v Hv).
  - intros b' [->%elem_of_singleton|Hb']%elem_of_union; [right; eauto|]. by apply (bi_dirty me _ v Hv).
  - intros b'. cbn [touch v_data]. unfold block_upd. case_decide; [done|]. apply (bi_size me _ v Hv).
Qed.

(** ** bwrite *)

(** The view after block [b] has been written to the disk. *)
Definition written (b : Z) (v : bview) : bview :=
  BView (v_data v) (v_pins v) (v_held v) (v_dirty v ∖ {[b]}) (v_lru v).

Lemma disk_read_write dk b d b' :
  disk_read (disk_write b d dk) b' = if decide (b = b') then d else disk_read dk b'.
Proof.
  unfold disk_read, disk_write. cbn [dk_writes dk_base last_write].
  destruct (Z.eqb_spec b b'); case_decide; done.
Qed.

Lemma bwrite_wp ls i s me v j b (Q : unit -> kernel -> Prop) :
  bio_at ls i s me v -> v_held v !! j = Some b ->
  (forall s2, kframe i s s2 -> pfs s2 = set_dsk (disk_write b (v_data v b) (dsk (pfs s))) (pfs s) ->
     bio_at ls i s2 me (written b v) -> Q tt s2) ->
  wp (bwrite j) s Q.
Proof.
  intros Hat Hh HQ. pose proof Hat as (Hr & Hl1 & Hl2 & Hlen & Hpid & Hv).
  destruct (held_buf me (pfs s) v j b Hv Hh) as (Hj & x & Hx & Hdv & Hbn & Hlk & Hval & Hd & Hrc).
  unfold bwrite. wp_step. eapply (holdingsleep_wp ls i s (buf_lock j)); [done|done|lia| |].
  { cbn [buf_lock sl_get]. by rewrite Hx. }
  intros s1 Hk1 E1. rewrite Hlk. cbn [sl_locked sl_pid ctrue Z.eqb negb andb]. rewrite Hpid, Z.eqb_refl.
  cbn [negb]. unfold disk_rw. wp_step. apply (getb_wp s1 j x); [by rewrite E1|]. apply iomod_wp.
  rewrite Hbn, Hd, E1.
  match goal with |- Q _ ?s' => assert (Hk : kframe i s s') end.
  { eapply kframe_trans; [exact Hk1|apply kframe_pfs]. }
  apply HQ; [done|done|]. eapply bio_at_step; [done|done|]. cbn [pfs set_pfs].
  destruct Hv as [A1 A2 A3 A4 A5 A6 A7 A8 A9 A10]. split; try done.
  - intros b' Hb'. cbn [dsk set_dsk]. rewrite disk_read_write. case_decide as E; [by subst|].
    apply A6. cbn [written v_dirty] in Hb'. set_solver.
  - intros b' Hb'. apply A9. cbn [written v_dirty] in Hb'. set_solver.
Qed.

(** ** brelse *)

Lemma getb_links_wp s k (Q : buf -> kernel -> Prop) :
  (k < length (bufs (pfs s)))%nat ->
  (forall x, b_next x = nxt (bufs (pfs s)) k -> b_prev x = prv (bufs (pfs s)) k -> Q x s) ->
  wp (getb k) s Q.
Proof.
  intros Hk HQ. destruct (lookup_lt_is_Some_2 _ _ Hk) as [x Hx]. apply (getb_wp s k x); [done|].
  apply HQ; unfold nxt, prv; by rewrite Hx.
Qed.

Lemma updb_lt_wp s k g (Q : unit -> kernel -> Prop) :
  (k < length (bufs (pfs s)))%nat ->
  Q tt (set_pfs (set_bufs (alter g k (bufs (pfs s))) (pfs s)) s) -> wp (updb k g) s Q.
Proof. intros Hk. destruct (lookup_lt_is_Some_2 _ _ Hk) as [x Hx]. by apply (updb_wp s k x). Qed.

(** Two arrays of buffers that differ in links only. *)
Definition links_only bs bs' : Prop :=
  length bs' = length bs /\
  forall k x, bs !! k = Some x -> exists y, bs' !! k = Some y /\ same_but_links x y.

Lemma links_only_alter bs k g :
  (forall x, same_but_links x (g x)) -> links_only bs (alter g k bs).
Proof.
  intros Hg. split; [apply length_alter|]. intros j x Hx. destruct (decide (k = j)) as [->|].
  - rewrite list_lookup_alter_eq, Hx. eauto.
  - rewrite list_lookup_alter_ne, Hx by done. exists x. split; [done|]. repeat split.
Qed.

Lemma links_only_trans bs1 bs2 bs3 : links_only bs1 bs2 -> links_only bs2 bs3 -> links_only bs1 bs3.
Proof.
  intros [L1 H1] [L2 H2]. split; [congruence|]. intros k x Hx.
  destruct (H1 k x Hx) as (y & Hy & A1 & A2 & A3 & A4 & A5 & A6 & A7).
  destruct (H2 k y Hy) as (z & Hz & B1 & B2 & B3 & B4 & B5 & B6 & B7). exists z.
  split; [done|]. unfold same_but_links. split_and!; congruence.
Qed.

Lemma links_next k w bs : links_only bs (alter (set_b_next w) k bs).
Proof. by apply links_only_alter. Qed.
Lemma links_prev k w bs : links_only bs (alter (set_b_prev w) k bs).
Proof. by apply links_only_alter. Qed.

Lemma circle_bounds nx pv h l1 b l2 n :
  circle nx pv h (l1 ++ b :: l2) -> (forall k, k ∈ h :: l1 ++ b :: l2 -> (k < n)%nat) ->
  (nx b < n)%nat /\ (pv b < n)%nat /\ nx b <> b /\ pv b <> b /\ b <> h.
Proof.
  intros Hc Hn. rewrite (circle_next _ _ _ _ _ _ Hc), (circle_prev _ _ _ _ _ _ Hc).
  destruct Hc as (Hnd & _). pose proof (lastof_in h (reverse l2)) as H1. pose proof (lastof_in h l1) as H2.
  rewrite elem_of_cons, elem_of_reverse in H1. rewrite elem_of_cons in H2.
  apply NoDup_cons in Hnd as [Hh Hnd]. apply NoDup_app in Hnd as (_ & Hd & Hnd). apply NoDup_cons in Hnd as [Hb _].
  split_and!; [apply Hn; set_solver|apply Hn; set_solver| | |set_solver].
  - intros E. rewrite E in H1. destruct H1; set_solver.
  - intros E. rewrite E in H2. destruct H2; set_solver.
Qed.

Lemma unlink_buf_wp s l1 b l2 (Q : unit -> kernel -> Prop) :
  circle (nxt (bufs (pfs s))) (prv (bufs (pfs s))) nbuf (l1 ++ b :: l2) ->
  (forall k, k ∈ nbuf :: l1 ++ b :: l2 -> (k < length (bufs (pfs s)))%nat) ->
  (forall bs', links_only (bufs (pfs s)) bs' -> circle (nxt bs') (prv bs') nbuf (l1 ++ l2) ->
     Q tt (set_pfs (set_bufs bs' (pfs s)) s)) ->
  wp (unlink_buf b) s Q.
Proof.
  intros Hc Hlt HQ. destruct (circle_bounds _ _ _ _ _ _ _ Hc Hlt) as (Bn & Bp & Nn & Np & Nh).
  assert (Bb : (b < length (bufs (pfs s)))%nat) by (apply Hlt; set_solver).
  set (bs := bufs (pfs s)) in *. unfold unlink_buf.
  wp_step. apply getb_links_wp; [done|]. intros x -> ->. wp_step. apply updb_lt_wp; [done|].
  fold bs. set (bs1 := alter (set_b_prev (prv bs b)) (nxt bs b) bs).
  assert (L1 : length bs1 = length bs) by apply length_alter.
  assert (N1 : forall j, nxt bs1 j = nxt bs j) by (apply nxt_alter_same; done).
  assert (P1 : forall j, prv bs1 j = upd (prv bs) (nxt bs b) (prv bs b) j) by (by apply prv_alter_prev).
  wp_step. apply getb_links_wp; [cbn [pfs set_pfs bufs set_bufs]; by rewrite L1|]. intros x1 -> ->.
  cbn [pfs set_pfs bufs set_bufs]. rewrite P1, upd_ne, N1 by done.
  apply updb_lt_wp; cbn [pfs set_pfs bufs set_bufs]; [by rewrite L1|]. apply HQ.
  - eapply links_only_trans; [apply links_prev|apply links_next].
  - eapply circle_ext; [| |exact (circle_unlink _ _ _ _ _ _ Hc)]; intros j.
    + rewrite nxt_alter_next by lia. unfold upd. case_decide; [done|apply N1].
    + rewrite prv_alter_same by done. apply P1.
Qed.

Lemma push_front_wp s l b (Q : unit -> kernel -> Prop) :
  circle (nxt (bufs (pfs s))) (prv (bufs (pfs s))) nbuf l -> b ∉ nbuf :: l ->
  (forall k, k ∈ nbuf :: b :: l -> (k < length (bufs (pfs s)))%nat) ->
  (forall bs', links_only (bufs (pfs s)) bs' -> circle (nxt bs') (prv bs') nbuf (b :: l) ->
     Q tt (set_pfs (set_bufs bs' (pfs s)) s)) ->
  wp (push_front b) s Q.
Proof.
  intros Hc Hb Hlt HQ.
  assert (Bb : (b < length (bufs (pfs s)))%nat) by (apply Hlt; set_solver).
  assert (Bh : (nbuf < length (bufs (pfs s)))%nat) by (apply Hlt; set_solver).
  set (bs := bufs (pfs s)) in *. unfold push_front.
  assert (Bn : (nxt bs nbuf < length bs)%nat).
  { apply Hlt. destruct Hc as (_ & Hp & _). rewrite (path_head _ _ _ _ Hp). destruct l; set_solver. }
  pose proof (circle_push _ _ _ _ b Hc Hb) as Hc2. apply not_elem_of_cons in Hb as [Nb _].
  wp_step. apply getb_links_wp; [done|]. intros h -> _. wp_step. apply updb_lt_wp; [done|].
  wp_step. apply updb_lt_wp; cbn [pfs set_pfs bufs set_bufs]; fold bs; [by rewrite length_alter|].
  set (n := nxt bs nbuf) in *. set (bs2 := alter (set_b_prev nbuf) b (alter (set_b_next n) b bs)).
  assert (L2 : length bs2 = length bs) by (unfold bs2; by rewrite !length_alter).
  assert (N2 : forall j, nxt bs2 j = upd (nxt bs) b n j).
  { intros j. unfold bs2. by rewrite nxt_alter_same, nxt_alter_next. }
  assert (P2 : forall j, prv bs2 j = upd (prv bs) b nbuf j).
  { intros j. unfold bs2. rewrite prv_alter_prev by (by rewrite length_alter). unfold upd.
    case_decide; [done|]. by apply prv_alter_same. }
  wp_step. apply getb_links_wp; [cbn [pfs set_pfs bufs set_bufs]; by rewrite L2|]. intros h2 -> _.
  cbn [pfs set_pfs bufs set_bufs]. rewrite N2, upd_ne by done. fold n.
  wp_step. apply updb_lt_wp; cbn [pfs set_pfs bufs set_bufs]; [by rewrite L2|].
  apply updb_lt_wp; cbn [pfs set_pfs bufs set_bufs]; [by rewrite length_alter, L2|]. apply HQ.
  - unfold bs2. eapply links_only_trans; [apply (links_next b n)|].
    eapply links_only_trans; [apply links_prev|]. eapply links_only_trans; [apply links_prev|apply links_next].
  - eapply circle_ext; [| |exact Hc2]; intros j.
    + rewrite nxt_alter_next by (by rewrite length_alter, L2). unfold upd at 1 2.
      case_decide; [done|]. by rewrite nxt_alter_same, N2.
    + rewrite prv_alter_same, prv_alter_prev by (done || by rewrite L2). unfold upd at 1 2.
      case_decide; [done|]. by rewrite P2.
Qed.

Definition set_lru (l : list nat) (v : bview) : bview :=
  BView (v_data v) (v_pins v) (v_held v) (v_dirty v) l.

Lemma bio_inv_links me f v bs' l :
  bio_inv me f v -> links_only (bufs f) bs' -> circle (nxt bs') (prv bs') nbuf l -> l ≡ₚ v_lru v ->
  bio_inv me (set_bufs bs' f) (set_lru l v).
Proof.
  intros Hv [Hlen Hl] Hc Hp.
  assert (Hback : forall k y, bs' !! k = Some y -> exists x, bufs f !! k = Some x /\ same_but_links x y).
  { intros k y Hy. destruct (lookup_lt_is_Some_2 (bufs f) k) as [x Hx].
    { rewrite <- Hlen. by apply lookup_lt_Some in Hy. }
    exists x. split; [done|]. destruct (Hl k x Hx) as (y' & Hy' & ?). congruence. }
  destruct Hv as [A1 A2 A3 A4 A5 A6 A7 A8 A9 A10]. split; try done.
  - cbn [bufs set_bufs]. congruence.
  - cbn [set_lru v_lru]. by rewrite Hp.
  - intros i y Hi Hy. destruct (Hback i y Hy) as (x & Hx & Hs). eapply buf_ok_same; [done|].
    exact (A4 i x Hi Hx).
  - intros i j y z Hi Hj Hy Hz Hdy Hdz Hb. destruct (Hback i y Hy) as (x & Hx & _ & _ & E1 & E2 & _).
    destruct (Hback j z Hz) as (w & Hw & _ & _ & E3 & E4 & _). apply (A5 i j x w); congruence.
  - intros b Hb. destruct (A7 b Hb) as (i & x & Hi & Hx & Hd & Hbn).
    destruct (Hl i x Hx) as (y & Hy & _ & _ & E1 & E2 & _). exists i, y. split_and!; try done; congruence.
Qed.

(** The view after [brelse], the position in the list apart. *)
Definition unhold (j : nat) (v : bview) : bview :=
  BView (v_data v) (v_pins v) (delete j (v_held v)) (v_dirty v) (v_lru v).
Definition front (j : nat) (l : list nat) : list nat := j :: filter (fun k => k <> j) l.
Definition unlock (j : nat) (b : Z) (v : bview) : bview :=
  set_lru (if decide (b ∈ v_pins v) then v_lru v else front j (v_lru v)) (unhold j v).

Lemma unhold_inv me f v j b x r :
  bio_inv me f v -> v_held v !! j = Some b -> (b ∈ v_dirty v -> b ∈ v_pins v) -> bufs f !! j = Some x ->
  r = b2z (bool_decide (b ∈ v_pins v)) ->
  bio_inv me (set_bufs (alter (fun y => set_b_refcnt r (set_b_lock (SleepLock 0 0) y)) j (bufs f)) f) (unhold j v).
Proof.
  intros Hv Hh Hdp Hx Hr. destruct (held_buf me f v j b Hv Hh) as (Hj & x' & Hx' & Hdv & Hbn & _ & Hval & Hd & _).
  rewrite Hx in Hx'. injection Hx' as <-.
  eapply (bio_inv_alter me f _ v (unhold j v) j _ x); try done.
  - unfold buf_ok, brefs. cbn [unhold v_held v_pins v_data b_lock b_dev b_blockno b_refcnt b_valid b_data
      set_b_lock set_b_refcnt]. rewrite lookup_delete_eq. split; [done|]. right.
    rewrite Hbn. by split_and!.
  - intros k y Hk1 Hk2 Hy. pose proof (bi_buf me _ v Hv k y Hk2 Hy) as Hok. unfold buf_ok, brefs in *.
    cbn [unhold v_held v_pins v_data]. by rewrite lookup_delete_ne by done.
  - intros k y _ Hk1 Hk2 Hy Hdy E. apply Hk1. by apply (bi_uniq me _ v Hv k j y x).
  - intros b' Hb'. by apply (bi_disk me _ v Hv).
  - intros b' Hb'. eapply (cached_alter f _ j); [done|done|done|done|]. by apply (bi_pins me _ v Hv).
  - intros k b'. cbn [unhold v_held]. intros [_ ?]%lookup_delete_Some. by eapply (bi_held me _ v Hv).
  - intros b' Hb'. cbn [unhold v_held v_pins v_dirty] in *. destruct (bi_dirty me _ v Hv b' Hb') as [?|[k Hk]]; [by left|].
    destruct (decide (k = j)) as [->|Hne].
    + left. rewrite Hh in Hk. injection Hk as <-. auto.
    + right. exists k. by rewrite lookup_delete_ne.
  - apply (bi_size me _ v Hv).
Qed.

Lemma filter_others (l : list nat) j : j ∉ l -> filter (fun k => k <> j) l = l.
Proof.
  induction l as [|x l IH]; [done|]. intros [Hx Hl]%not_elem_of_cons.
  rewrite filter_cons_True by done. by rewrite IH.
Qed.

Lemma filter_split (l1 l2 : list nat) j :
  NoDup (l1 ++ j :: l2) -> filter (fun k => k <> j) (l1 ++ j :: l2) = l1 ++ l2.
Proof.
  intros Hnd. apply NoDup_app in Hnd as (_ & Hd & Hnd). apply NoDup_cons in Hnd as [Hj _].
  rewrite filter_app, filter_cons_False by tauto. f_equal; apply filter_others; set_solver.
Qed.

Lemma to_front_wp me i s v j (Q : unit -> kernel -> Prop) :
  bio_inv me (pfs s) v -> (j < nbuf)%nat ->
  (forall s2, bstep i s s2 -> bio_inv me (pfs s2) (set_lru (front j (v_lru v)) v) -> Q tt s2) ->
  wp (bind (unlink_buf j) (fun _ => push_front j)) s Q.
Proof.
  intros Hv Hj HQ. assert (Hin : j ∈ v_lru v) by (by apply (bi_lru_elem me _ v j Hv)).
  apply list_elem_of_split in Hin as (l1 & l2 & Hl). pose proof (bi_circle me _ v Hv) as Hc.
  rewrite Hl in Hc. assert (Hlt : forall k, k ∈ nbuf :: l1 ++ j :: l2 -> (k < length (bufs (pfs s)))%nat).
  { intros k. rewrite <- Hl, (bi_len me _ v Hv). intros [->|Hk]%elem_of_cons; [lia|].
    apply (bi_lru_elem me _ v k Hv) in Hk. lia. }
  pose proof Hc as (Hnd & _). apply NoDup_cons in Hnd as [Hnb Hnd].
  assert (Hf : front j (v_lru v) = j :: l1 ++ l2) by (unfold front; by rewrite Hl, filter_split).
  wp_step. apply (unlink_buf_wp s l1 j l2 _ Hc Hlt). intros bs1 Hlk1 Hc1.
  apply (push_front_wp _ (l1 ++ l2)); [done| | |].
  - apply NoDup_app in Hnd as (_ & Hd & Hnd). apply NoDup_cons in Hnd as [? _]. set_solver.
  - intros k Hk. cbn [pfs set_pfs bufs set_bufs]. destruct Hlk1 as [-> _]. apply Hlt. set_solver.
  - intros bs2 Hlk2 Hc2. cbn [pfs set_pfs bufs set_bufs] in *. apply HQ.
    + split; [exact (kframe_pfs i s _)|done].
    + rewrite Hf. cbn [pfs set_pfs]. change (set_bufs bs2 (set_bufs bs1 (pfs s))) with (set_bufs bs2 (pfs s)).
      apply bio_inv_links; [done|by eapply links_only_trans|done|]. rewrite Hl. by rewrite Permutation_middle.
Qed.

Lemma brelse_wp ls i s me v j b (Q : unit -> kernel -> Prop) :
  bio_at ls i s me v -> v_held v !! j = Some b -> (b ∈ v_dirty v -> b ∈ v_pins v) ->
  (forall s2, bstep i s s2 -> bio_at ls i s2 me (unlock j b v) -> Q tt s2) ->
  wp (brelse j) s Q.
Proof.
  intros Hat Hh Hdp HQ. pose proof Hat as (Hr & Hl1 & Hl2 & Hlen & Hpid & Hv).
  destruct (held_buf me (pfs s) v j b Hv Hh) as (Hj & x & Hx & Hdv & Hbn & Hlk & Hval & Hd & Hrc).
  assert (Hjl : (j < length (bufs (pfs s)))%nat) by (by apply lookup_lt_Some in Hx).
  unfold brelse. wp_step. eapply (holdingsleep_wp ls i s (buf_lock j)); [done|done|lia| |].
  { cbn [buf_lock sl_get]. by rewrite Hx. }
  intros s1 Hk1 E1. rewrite Hlk. cbn [sl_locked sl_pid ctrue Z.eqb negb andb]. rewrite Hpid, Z.eqb_refl.
  cbn [negb]. wp_step. eapply (releasesleep_wp ls i s1); [by eapply kready_frame|done|lia| |].
  { apply buf_lock_ok. by rewrite E1. }
  intros s2 Hk2 E2. cbn [buf_lock sl_put] in E2. rewrite E1 in E2.
  assert (Hk02 : kframe i s s2) by (by eapply kframe_trans).
  assert (Hr2 : kready ls i s2) by (by eapply kready_frame).
  wp_step. apply (k_acq ls i); [done|done|lia|done|]. intros s3 Hin3 Hr3 E3. rewrite E2 in E3.
  assert (Hx3 : bufs (pfs s3) !! j = Some (set_b_lock (SleepLock 0 0) x)).
  { rewrite E3. cbn [bufs set_bufs]. by rewrite list_lookup_alter_eq, Hx. }
  wp_step. apply (getb_wp s3 j _ _ Hx3). cbn [b_refcnt set_b_lock]. wp_step. apply (updb_wp s3 j _ _ _ Hx3).
  assert (Hrr : u32 (b_refcnt x - 1) = b2z (bool_decide (b ∈ v_pins v))).
  { rewrite Hrc. unfold brefs. rewrite Hh, (bool_decide_eq_true_2 (is_Some (Some b))) by eauto.
    by destruct (bool_decide (b ∈ v_pins v)). }
  rewrite E3, set_bufs_alter, Hrr.
  pose proof (unhold_inv me (pfs s) v j b x _ Hv Hh Hdp Hx eq_refl) as Hv4.
  match type of Hv4 with bio_inv _ ?f _ => set (f4 := f) in * end.
  assert (Hin4 : inside BcacheLock i s2 (set_pfs f4 s3)).
  { eapply inside_frame; [done|done|apply kframe_pfs]. }
  wp_step. unfold unlock in HQ.
  destruct (decide (b ∈ v_pins v)) as [Hp|Hp].
  - rewrite (bool_decide_eq_true_2 (b ∈ v_pins v)) by done. cbn [b2z Z.eqb]. wp_step.
    eapply (k_rel ls i s2); [done|done|done|]. intros s5 Hk5 E5. cbn [pfs set_pfs] in E5.
    assert (Hk05 : kframe i s s5) by (by eapply kframe_trans).
    apply HQ; [split; [done|by rewrite E5]|]. eapply bio_at_step; [done|done|]. rewrite E5. exact Hv4.
  - rewrite (bool_decide_eq_false_2 (b ∈ v_pins v)) by done. cbn [b2z Z.eqb].
    apply (to_front_wp me i _ (unhold j v) j); [done|done|].
    intros s5 [Hk5 E5] Hv5. cbn [pfs set_pfs] in E5. 
    eapply (k_rel ls i s2); [done|done|by eapply inside_frame|]. intros s6 Hk6 E6.
    assert (Hk06 : kframe i s s6) by (by eapply kframe_trans).
    apply HQ; [split; [done|by rewrite E6, E5]|]. eapply bio_at_step; [done|done|]. by rewrite E6.
Qed.

(** ** bpin and bunpin *)

Definition set_pins (p : gset Z) (v : bview) : bview :=
  BView (v_data v) p (v_held v) (v_dirty v) (v_lru v).

(** A change of the pins of a held block. *)
Lemma pins_inv me f v p j b x :
  bio_inv me f v -> v_held v !! j = Some b -> bufs f !! j = Some x ->
  (forall b', b' <> b -> b' ∈ p <-> b' ∈ v_pins v) ->
  bio_inv me (set_bufs (alter (set_b_refcnt (1 + b2z (bool_decide (b ∈ p)))) j (bufs f)) f) (set_pins p v).
Proof.
  intros Hv Hh Hx Hp. destruct (held_buf me f v j b Hv Hh) as (Hj & x' & Hx' & Hdv & Hbn & Hlk & Hval & Hd & _).
  rewrite Hx in Hx'. injection Hx' as <-.
  assert (Hoth : forall k y, k <> j -> (k < nbuf)%nat -> bufs f !! k = Some y -> b_dev y = ROOTDEV -> b_blockno y <> b).
  { intros k y Hk1 Hk2 Hy Hdy E. apply Hk1. apply (bi_uniq me _ v Hv k j y x); try done. congruence. }
  eapply (bio_inv_alter me f _ v (set_pins p v) j _ x); try done.
  - unfold buf_ok, brefs. cbn [set_pins v_held v_pins v_data b_lock b_dev b_blockno b_refcnt b_valid b_data
      set_b_refcnt]. rewrite Hh, Hbn. split; [done|]. right. split_and!; try done.
  - intros k y Hk1 Hk2 Hy. pose proof (bi_buf me _ v Hv k y Hk2 Hy) as Hok. unfold buf_ok, brefs in *.
    cbn [set_pins v_held v_pins v_data]. destruct Hok as [H1 [H2|(H2 & H3 & H4 & H5)]]; [tauto|].
    split; [done|]. right. split_and!; try done. rewrite H5. do 2 f_equal. apply bool_decide_ext.
    symmetry. apply Hp. by apply (Hoth k y).
  - intros k y _ Hk1 Hk2 Hy Hdy. cbn [set_b_refcnt b_blockno]. rewrite Hbn. by apply (Hoth k y).
  - intros b' Hb'. by apply (bi_disk me _ v Hv).
  - intros b' Hb'. eapply (cached_alter f _ j); [done|done|done|done|].
    destruct (decide (b' = b)) as [->|Hne]; [by exists j, x|]. apply (bi_pins me _ v Hv). by apply Hp.
  - apply (bi_held me _ v Hv).
  - intros b' Hb'. destruct (decide (b' = b)) as [->|Hne]; [right; eauto|].
    destruct (bi_dirty me _ v Hv b' Hb') as [?|?]; [|by right]. left. by apply Hp.
  - apply (bi_size me _ v Hv).
Qed.

(** The common body of [bpin] and [bunpin]. *)
Lemma repin_wp ls i s me v j b d p (Q : unit -> kernel -> Prop) :
  bio_at ls i s me v -> v_held v !! j = Some b ->
  (forall b', b' <> b -> b' ∈ p <-> b' ∈ v_pins v) ->
  b2z (bool_decide (b ∈ p)) = b2z (bool_decide (b ∈ v_pins v)) + d ->
  (forall s2, bstep i s s2 -> bio_at ls i s2 me (set_pins p v) -> Q tt s2) ->
  wp (bind (inlk (acquire BcacheLock)) (fun _ => bind (getb j) (fun x =>
      bind (updb j (set_b_refcnt (u32 (b_refcnt x + d)))) (fun _ => inlk (release BcacheLock))))) s Q.
Proof.
  intros Hat Hh Hp Hd HQ. pose proof Hat as (Hr & Hl1 & Hl2 & Hlen & Hpid & Hv).
  destruct (held_buf me (pfs s) v j b Hv Hh) as (Hj & x & Hx & _ & _ & _ & _ & _ & Hrc).
  wp_step. apply (k_acq ls i); [done|done|lia|done|]. intros s1 Hin1 Hr1 E1. wp_step.
  apply (getb_wp s1 j x); [by rewrite E1|]. wp_step. apply (updb_wp s1 j x); [by rewrite E1|].
  assert (Hrr : u32 (b_refcnt x + d) = 1 + b2z (bool_decide (b ∈ p))).
  { rewrite Hrc, Hd. unfold brefs. rewrite Hh, (bool_decide_eq_true_2 (is_Some (Some b))) by eauto.
    cbn [b2z]. rewrite u32_small; [lia|]. revert Hd.
    destruct (bool_decide (b ∈ v_pins v)), (bool_decide (b ∈ p)); cbn [b2z]; lia. }
  rewrite Hrr, E1. eapply (k_rel ls i s); [done|done| |].
  { eapply inside_frame; [done|done|apply kframe_pfs]. }
  intros s2 Hk2 E2. cbn [pfs set_pfs] in E2. apply HQ; [split; [done|by rewrite E2]|].
  eapply bio_at_step; [done|done|]. rewrite E2. by apply (pins_inv me _ v p j b x).
Qed.

Lemma bpin_wp ls i s me v j b (Q : unit -> kernel -> Prop) :
  bio_at ls i s me v -> v_held v !! j = Some b -> b ∉ v_pins v ->
  (forall s2, bstep i s s2 -> bio_at ls i s2 me (set_pins ({[b]} ∪ v_pins v) v) -> Q tt s2) ->
  wp (bpin j) s Q.
Proof.
  intros Hat Hh Hp HQ. apply (repin_wp ls i s me v j b 1 ({[b]} ∪ v_pins v)); try done; [set_solver|].
  rewrite bool_decide_eq_true_2 by set_solver. by rewrite bool_decide_eq_false_2.
Qed.

Lemma bunpin_wp ls i s me v j b (Q : unit -> kernel -> Prop) :
  bio_at ls i s me v -> v_held v !! j = Some b -> b ∈ v_pins v ->
  (forall s2, bstep i s s2 -> bio_at ls i s2 me (set_pins (v_pins v ∖ {[b]}) v) -> Q tt s2) ->
  wp (bunpin j) s Q.
Proof.
  intros Hat Hh Hp HQ. apply (repin_wp ls i s me v j b (-1) (v_pins v ∖ {[b]})); try done; [set_solver|].
  rewrite (bool_decide_eq_false_2 (b ∈ v_pins v ∖ {[b]})) by set_solver. by rewrite bool_decide_eq_true_2.
Qed.

End Spec.

(** ** Computing views *)

Section Views.
Context (L : Z -> list Z) (P D : gset Z) (h : gmap nat Z) (l : list nat).

Lemma hold_view j b : hold j b (BView L P h D l) = BView L P (<[j := b]> h) D l.
Proof. done. Qed.
Lemma unhold_view j : unhold j (BView L P h D l) = BView L P (delete j h) D l.
Proof. done. Qed.
Lemma touch_view b d : touch b d (BView L P h D l) = BView (block_upd L b d) P h ({[b]} ∪ D) l.
Proof. done. Qed.
Lemma written_view b : written b (BView L P h D l) = BView L P h (D ∖ {[b]}) l.
Proof. done. Qed.
Lemma set_lru_view l' : set_lru l' (BView L P h D l) = BView L P h D l'.
Proof. done. Qed.
Lemma set_pins_view P' : set_pins P' (BView L P h D l) = BView L P' h D l.
Proof. done. Qed.
Lemma unlock_view j b : exists l', unlock j b (BView L P h D l) = BView L P (delete j h) D l'.
Proof. by eexists. Qed.
End Views.

#[export] Hint Rewrite hold_view unhold_view touch_view written_view set_lru_view set_pins_view : bview.

(** Compute a view that is built from a constructor. *)
Ltac view_simpl :=
  repeat (autorewrite with bview;
          match goal with
          | |- context [unlock ?j ?b (BView ?L ?P ?h ?D ?l)] =>
              let l' := fresh "l" in destruct (unlock_view L P D h l j b) as [l' ->]
          end);
  autorewrite with bview.

(** * Initialisation of the buffer cache

    [binit] links the buffers of a zeroed cache; the view it establishes is
    the disk itself, with nothing held, pinned or changed. *)

Definition buf0 : buf := Buf 0 0 0 0 (SleepLock 0 0) 0 0 0 (replicate bsize 0).

(** A buffer that nothing but [binit] has touched. *)
Definition fresh (x : buf) : Prop := b_dev x = 0 /\ b_refcnt x = 0 /\ b_lock x = SleepLock 0 0.

(** The view of an empty cache. *)
Definition clean (L : Z -> list Z) (l : list nat) : bview := BView L ∅ ∅ ∅ l.

Section Init.
Context `{Linker}.
Implicit Types (s : kernel).

(** Everything but the buffers and the spin locks is the same. *)
Definition init_frame s s' : Prop :=
  pk s' = pk s /\ procs s' = procs s /\ initproc s' = initproc s /\ nextpid s' = nextpid s /\
  ticks s' = ticks s /\ cpus (plk s') = cpus (plk s) /\ hart (plk s') = hart (plk s) /\ sie (plk s') = sie (plk s) /\
  (forall l, locks (plk s') l = locks (plk s) l \/ locks (plk s') l = Spinlock false None) /\
  pfs s' = set_bufs (bufs (pfs s')) (pfs s).

Lemma init_frame_refl s : init_frame s s.
Proof. repeat split; try done; [auto|]. by destruct (pfs s). Qed.

Lemma init_frame_trans s1 s2 s3 : init_frame s1 s2 -> init_frame s2 s3 -> init_frame s1 s3.
Proof.
  intros (A1 & A2 & A3 & A4 & A5 & A6 & A7 & A8 & A9 & A10) (B1 & B2 & B3 & B4 & B5 & B6 & B7 & B8 & B9 & B10).
  unfold init_frame. split_and!; try congruence.
  - intros l. destruct (B9 l) as [->|?]; [apply A9|by right].
  - rewrite B10, A10 at 1. done.
Qed.

Lemma init_frame_bufs s bs : init_frame s (set_pfs (set_bufs bs (pfs s)) s).
Proof. repeat split; auto. Qed.

Lemma initlock_wp s l (Q : unit -> kernel -> Prop) :
  (forall s2, init_frame s s2 -> pfs s2 = pfs s -> Q tt s2) -> wp (inlk (initlock l)) s Q.
Proof.
  intros HQ. unfold inlk, initlock. do 2 wp_step. apply HQ; [|done]. unfold init_frame.
  cbn [pk procs initproc nextpid ticks plk pfs set_plk cpus hart sie locks set_locks].
  split_and!; try done; [|by destruct (pfs s)]. intros l'. unfold upd_lock. case_decide; auto.
Qed.

Lemma initsleeplock_wp s j x (Q : unit -> kernel -> Prop) :
  bufs (pfs s) !! j = Some x ->
  (forall s2, init_frame s s2 ->
     pfs s2 = set_bufs (alter (set_b_lock (SleepLock 0 0)) j (bufs (pfs s))) (pfs s) -> Q tt s2) ->
  wp (initsleeplock (buf_lock j)) s Q.
Proof.
  intros Hx HQ. unfold initsleeplock. wp_step. apply initlock_wp. intros s1 F1 E1.
  pose proof (buf_lock_ok (pfs s1) j) as Hok. rewrite E1 in Hok.
  specialize (Hok (lookup_lt_Some _ _ _ Hx)). wp_step. eapply putsl_wp.
  { rewrite E1. cbn [buf_lock sl_get]. by rewrite Hx. }
  rewrite E1. eapply putsl_wp; [apply sl_get_put1|]. cbn [pfs set_pfs]. rewrite sl_put_put.
  apply HQ; [|done]. eapply init_frame_trans; [exact F1|].
  pose proof (init_frame_bufs s1 (alter (set_b_lock (SleepLock 0 0)) j (bufs (pfs s)))) as F2. by rewrite E1 in F2.
Qed.

(** One turn of the loop of [binit]. *)
Lemma binit_step_wp s l b m (Q : unit -> kernel -> Prop) :
  circle (nxt (bufs (pfs s))) (prv (bufs (pfs s))) nbuf l -> b ∉ nbuf :: l ->
  (forall k, k ∈ nbuf :: b :: l -> (k < length (bufs (pfs s)))%nat) ->
  (forall s2, init_frame s s2 -> length (bufs (pfs s2)) = length (bufs (pfs s)) ->
     circle (nxt (bufs (pfs s2))) (prv (bufs (pfs s2))) nbuf (b :: l) ->
     (forall k x, bufs (pfs s) !! k = Some x -> exists y, bufs (pfs s2) !! k = Some y /\
        b_dev y = b_dev x /\ b_refcnt y = b_refcnt x /\
        b_lock y = (if decide (b = k) then SleepLock 0 0 else b_lock x)) ->
     wp (binit_loop m) s2 Q) ->
  wp (binit_loop (b :: m)) s Q.
Proof.
  intros Hc Hb Hlt HQ.
  assert (Bb : (b < length (bufs (pfs s)))%nat) by (apply Hlt; set_solver).
  assert (Bh : (nbuf < length (bufs (pfs s)))%nat) by (apply Hlt; set_solver).
  assert (Bn : (nxt (bufs (pfs s)) nbuf < length (bufs (pfs s)))%nat).
  { apply Hlt. destruct Hc as (_ & Hp & _). rewrite (path_head _ _ _ _ Hp). destruct l; set_solver. }
  pose proof (circle_push _ _ _ _ b Hc Hb) as Hc2. apply not_elem_of_cons in Hb as [Nb _].
  set (bs := bufs (pfs s)) in *. set (n := nxt bs nbuf) in *. cbn [binit_loop].
  wp_step. apply getb_links_wp; [done|]. intros h -> _. wp_step. apply updb_lt_wp; [done|].
  wp_step. apply updb_lt_wp; cbn [pfs set_pfs bufs set_bufs]; fold bs n; [by rewrite length_alter|].
  set (bs2 := alter (set_b_prev nbuf) b (alter (set_b_next n) b bs)).
  assert (L2 : length bs2 = length bs) by (unfold bs2; by rewrite !length_alter).
  assert (N2 : forall j, nxt bs2 j = upd (nxt bs) b n j).
  { intros j. unfold bs2. by rewrite nxt_alter_same, nxt_alter_next. }
  assert (P2 : forall j, prv bs2 j = upd (prv bs) b nbuf j).
  { intros j. unfold bs2. rewrite prv_alter_prev by (by rewrite length_alter). unfold upd.
    case_decide; [done|]. by apply prv_alter_same. }
  destruct (lookup_lt_is_Some_2 bs2 b) as [x2 Hx2]; [by rewrite L2|].
  wp_step. eapply initsleeplock_wp; [exact Hx2|]. cbn [pfs set_pfs bufs set_bufs]. intros s3 F3 E3.
  set (bs3 := alter (set_b_lock (SleepLock 0 0)) b bs2) in *.
  assert (L3 : length bs3 = length bs) by (unfold bs3; by rewrite length_alter).
  assert (E3' : bufs (pfs s3) = bs3) by (by rewrite E3).
  wp_step. apply getb_links_wp; [by rewrite E3', L3|]. intros h2 -> _. rewrite E3'.
  replace (nxt bs3 nbuf) with n by (unfold bs3; rewrite nxt_alter_same, N2, upd_ne; done).
  wp_step. apply updb_lt_wp; [by rewrite E3', L3|]. rewrite E3'.
  wp_step. apply updb_lt_wp; cbn [pfs set_pfs bufs set_bufs]; [by rewrite length_alter, L3|].
  apply HQ; cbn [pfs set_pfs bufs set_bufs].
  - eapply init_frame_trans; [apply (init_frame_bufs s bs2)|]. eapply init_frame_trans; [exact F3|].
    exact (init_frame_bufs s3 _).
  - by rewrite !length_alter, L3.
  - eapply circle_ext; [| |exact Hc2]; intros j.
    + rewrite nxt_alter_next by (by rewrite length_alter, L3). unfold upd at 1 2. case_decide; [done|].
      unfold bs3. by rewrite !nxt_alter_same, N2.
    + rewrite prv_alter_same, prv_alter_prev by (done || by rewrite L3). unfold upd at 1 2.
      case_decide; [done|]. unfold bs3. by rewrite prv_alter_same, P2.
  - intros k x Hx.
    assert (K1 : links_only bs bs2) by (eapply links_only_trans; [apply links_next|apply links_prev]).
    destruct K1 as [_ K1]. destruct (K1 k x Hx) as (y & Hy & _ & _ & A1 & _ & A2 & A3 & _).
    assert (Hz : bs3 !! k = Some (if decide (b = k) then set_b_lock (SleepLock 0 0) y else y)).
    { unfold bs3. case_decide as E; [subst k; by rewrite list_lookup_alter_eq, Hy|].
      by rewrite list_lookup_alter_ne. }
    assert (K2 : links_only bs3 (alter (set_b_next b) nbuf (alter (set_b_prev b) n bs3)))
      by (eapply links_only_trans; [apply links_prev|apply links_next]).
    destruct K2 as [_ K2]. destruct (K2 k _ Hz) as (w & Hw & _ & _ & B1 & _ & B2 & B3 & _).
    exists w. split; [done|]. rewrite B1, B2, B3. case_decide; cbn [b_dev b_refcnt b_lock set_b_lock]; done.
Qed.

Lemma binit_loop_wp m k s (Q : unit -> kernel -> Prop) :
  (k + m = nbuf)%nat -> length (bufs (pfs s)) = S nbuf ->
  circle (nxt (bufs (pfs s))) (prv (bufs (pfs s))) nbuf (reverse (seq 0 k)) ->
  (forall j x, (j < nbuf)%nat -> bufs (pfs s) !! j = Some x -> b_dev x = 0 /\ b_refcnt x = 0 /\
     ((j < k)%nat -> b_lock x = SleepLock 0 0)) ->
  (forall s2, init_frame s s2 -> length (bufs (pfs s2)) = S nbuf ->
     circle (nxt (bufs (pfs s2))) (prv (bufs (pfs s2))) nbuf (reverse (seq 0 nbuf)) ->
     (forall j x, (j < nbuf)%nat -> bufs (pfs s2) !! j = Some x -> fresh x) -> Q tt s2) ->
  wp (binit_loop (seq k m)) s Q.
Proof.
  revert k s. induction m as [|m IH]; intros k s Hkm Hlen Hc Hb HQ; cbn [seq binit_loop].
  { replace k with nbuf in * by lia. apply wp_ret, HQ; [apply init_frame_refl|done|done|].
    intros j x Hj Hx. destruct (Hb j x Hj Hx) as (? & ? & Hl). split_and!; auto. }
  apply (binit_step_wp s (reverse (seq 0 k))); [done| | |].
  - rewrite not_elem_of_cons, elem_of_reverse, elem_of_seq. lia.
  - intros j. rewrite !elem_of_cons, elem_of_reverse, elem_of_seq, Hlen. lia.
  - intros s2 F2 L2 C2 B2. apply (IH (S k)); [lia|congruence| | |].
    + by rewrite seq_S, reverse_app.
    + intros j y Hj Hy. destruct (lookup_lt_is_Some_2 (bufs (pfs s)) j) as [x Hx]; [lia|].
      destruct (B2 j x Hx) as (y' & Hy' & E1 & E2 & E3). rewrite Hy in Hy'. injection Hy' as <-.
      destruct (Hb j x Hj Hx) as (? & ? & Hl). split_and!; try congruence. intros Hjk. rewrite E3.
      case_decide; [done|]. apply Hl. lia.
    + intros s3 F3. apply HQ. by eapply init_frame_trans.
Qed.

(** [binit] on the zeroed memory of a kernel that starts. *)
Lemma binit_wp s me (Q : unit -> kernel -> Prop) :
  bufs (pfs s) = replicate (S nbuf) buf0 -> (forall b, length (disk_read (dsk (pfs s)) b) = bsize) ->
  (forall s2, init_frame s s2 ->
     bio_inv me (pfs s2) (clean (disk_read (dsk (pfs s))) (reverse (seq 0 nbuf))) -> Q tt s2) ->
  wp binit s Q.
Proof.
  intros Hb Hsz HQ. unfold binit. wp_step. apply initlock_wp. intros s1 F1 E1. rewrite <- E1 in Hb.
  assert (Hh : bufs (pfs s1) !! nbuf = Some buf0) by (by rewrite Hb, lookup_replicate_2 by lia).
  wp_step. eapply updb_wp; [done|]. wp_step. eapply updb_wp.
  { cbn [pfs set_pfs bufs set_bufs]. by rewrite list_lookup_alter_eq, Hh. }
  cbn [pfs set_pfs]. rewrite set_bufs_alter. apply binit_loop_wp; cbn [pfs set_pfs bufs set_bufs].
  - done.
  - by rewrite length_alter, Hb, length_replicate.
  - rewrite Hb. unfold circle. split; [apply NoDup_cons; split; [set_solver|constructor]|done].
  - intros j x Hj. rewrite Hb, list_lookup_alter_ne by lia. intros [-> _]%lookup_replicate. done.
  - intros s2 F2 L2 C2 B2. assert (Fa : init_frame s s2).
    { eapply init_frame_trans; [exact F1|]. eapply init_frame_trans; [|exact F2]. exact (init_frame_bufs s1 _). }
    apply HQ; [done|]. assert (Ed : dsk (pfs s2) = dsk (pfs s)).
    { destruct Fa as (_ & _ & _ & _ & _ & _ & _ & _ & _ & ->). done. }
    split; cbn [clean v_data v_pins v_held v_dirty v_lru]; try done.
    + by rewrite reverse_Permutation.
    + intros j x Hj Hx. destruct (B2 j x Hj Hx) as (? & ? & ?). split; [done|]. by left.
    + intros i j x y Hi Hj Hx Hy Hd. destruct (B2 i x Hi Hx) as (Hd0 & _). rewrite Hd in Hd0. done.
    + intros b _. by rewrite Ed.
Qed.

End Init.
