(* ===== verification/Bytes.v ===== *)
(** * Little-endian data in a block

    Reading and writing integers of [n] bytes at an offset of a list of
    bytes, as the code does through pointers into [bp->data]. *)

From S2P Require Import Prelude.

Definition byte_at (d : list Z) (o : nat) : Z := default 0 (d !! o).

Fixpoint get_le (n : nat) (d : list Z) (o : nat) : Z :=
  match n with
  | O => 0
  | S n => byte_at d o + 256 * get_le n d (S o)
  end.

Fixpoint put_le (n : nat) (d : list Z) (o : nat) (v : Z) : list Z :=
  match n with
  | O => d
  | S n => put_le n (<[o := u8 v]> d) (S o) (v / 256)
  end.

(** Every element is a byte. *)
Definition bytes_ok (d : list Z) : Prop := Forall (fun b => 0 <= b < 256) d.

Lemma length_put_le n d o v : length (put_le n d o v) = length d.
Proof.
  revert d o v. induction n as [|n IH]; intros d o v; cbn [put_le]; [done|].
  by rewrite IH, length_insert.
Qed.

Lemma lookup_put_le n d o v j :
  (o + n <= length d)%nat ->
  put_le n d o v !! j =
  if decide (o <= j < o + n)%nat then Some (u8 (v / 256 ^ Z.of_nat (j - o))) else d !! j.
Proof.
  revert d o v. induction n as [|n IH]; intros d o v Hlen; cbn [put_le].
  { case_decide; [lia|done]. }
  rewrite IH by (rewrite length_insert; lia). repeat case_decide; try lia; try done.
  - f_equal. replace (j - o)%nat with (S (j - S o)) by lia.
    rewrite Nat2Z.inj_succ, Z.pow_succ_r by lia. by rewrite Z.div_div by lia.
  - replace j with o by lia. rewrite list_lookup_insert_eq by lia. rewrite Nat.sub_diag. simpl.
    by rewrite Z.div_1_r.
  - rewrite list_lookup_insert_ne by lia. done.
Qed.

Lemma get_le_ext n d d' o o' :
  (forall k, (k < n)%nat -> byte_at d (o + k) = byte_at d' (o' + k)) -> get_le n d o = get_le n d' o'.
Proof.
  revert o o'. induction n as [|n IH]; intros o o' He; cbn [get_le]; [done|].
  pose proof (He 0%nat ltac:(lia)) as H0. rewrite !Nat.add_0_r in H0. rewrite H0.
  do 2 f_equal. apply IH. intros k Hk. specialize (He (S k)). rewrite !Nat.add_succ_r in He. apply He. lia.
Qed.

Lemma get_put_ne n m d o o' v :
  (o + n <= length d)%nat -> (o' + m <= o \/ o + n <= o')%nat -> get_le m (put_le n d o v) o' = get_le m d o'.
Proof.
  intros Hlen Hd. apply get_le_ext. intros k Hk. unfold byte_at. rewrite lookup_put_le by done.
  case_decide; [lia|done].
Qed.

Lemma get_put_eq n d o v : (o + n <= length d)%nat -> get_le n (put_le n d o v) o = v mod 256 ^ Z.of_nat n.
Proof.
  revert d o v. induction n as [|n IH]; intros d o v Hlen; [by rewrite Z.mod_1_r|].
  cbn [get_le]. replace (byte_at (put_le (S n) d o v) o) with (u8 v).
  2: { unfold byte_at. rewrite lookup_put_le by done. rewrite decide_True by lia.
       rewrite Nat.sub_diag. simpl. by rewrite Z.div_1_r. }
  cbn [put_le]. rewrite IH by (rewrite length_insert; lia).
  rewrite Nat2Z.inj_succ, Z.pow_succ_r by lia. rewrite Z.rem_mul_r by lia. unfold u8. change (2 ^ 8) with 256. lia.
Qed.

Lemma get_le_range n d o : bytes_ok d -> 0 <= get_le n d o < 256 ^ Z.of_nat n.
Proof.
  intros Hb. revert o. induction n as [|n IH]; intros o; cbn [get_le]; [simpl; lia|].
  rewrite Nat2Z.inj_succ, Z.pow_succ_r by lia. specialize (IH (S o)).
  assert (0 <= byte_at d o < 256).
  { unfold byte_at. destruct (d !! o) as [b|] eqn:E; simpl; [|lia].
    unfold bytes_ok in Hb. rewrite Forall_lookup in Hb. by apply (Hb o). }
  lia.
Qed.

Lemma bytes_ok_put n d o v : bytes_ok d -> bytes_ok (put_le n d o v).
Proof.
  revert d o v. induction n as [|n IH]; intros d o v Hb; cbn [put_le]; [done|]. apply IH.
  unfold bytes_ok. apply Forall_insert; [done|apply u8_range].
Qed.

(** A sequence of integers of [w] bytes. *)
Fixpoint put_les (w : nat) (d : list Z) (o : nat) (vs : list Z) : list Z :=
  match vs with
  | [] => d
  | v :: vs => put_les w (put_le w d o v) (o + w) vs
  end.
Definition get_les (w : nat) (d : list Z) (o n : nat) : list Z :=
  (fun k => get_le w d (o + w * k)) <$> seq 0 n.

Lemma length_put_les w d o vs : length (put_les w d o vs) = length d.
Proof. revert d o. induction vs as [|v vs IH]; intros d o; simpl; [done|]. by rewrite IH, length_put_le. Qed.

Lemma get_put_les_ne w m d o o' vs :
  (o + w * length vs <= length d)%nat -> (o' + m <= o \/ o + w * length vs <= o')%nat ->
  get_le m (put_les w d o vs) o' = get_le m d o'.
Proof.
  revert d o. induction vs as [|v vs IH]; intros d o Hlen Hd; cbn [put_les length] in *; [done|].
  rewrite IH, get_put_ne; rewrite ?length_put_le; lia || done.
Qed.

Lemma get_put_les_eq w d o vs k v :
  (o + w * length vs <= length d)%nat -> vs !! k = Some v ->
  get_le w (put_les w d o vs) (o + w * k) = v mod 256 ^ Z.of_nat w.
Proof.
  revert d o k. induction vs as [|x vs IH]; intros d o k Hlen Hk; [done|].
  cbn [put_les length] in *. destruct k as [|k]; simpl in Hk.
  - injection Hk as ->. rewrite Nat.mul_0_r, Nat.add_0_r.
    rewrite get_put_les_ne by (rewrite ?length_put_le; lia). rewrite get_put_eq; [done|lia].
  - replace (o + w * S k)%nat with (o + w + w * k)%nat by lia. apply IH; [|done].
    rewrite length_put_le. lia.
Qed.

Lemma bytes_ok_puts w d o vs : bytes_ok d -> bytes_ok (put_les w d o vs).
Proof. revert d o. induction vs as [|v vs IH]; intros d o Hb; simpl; [done|]. by apply IH, bytes_ok_put. Qed.

(** ** A block with a part replaced *)

Definition splice (d : list Z) (o : nat) (bs : list Z) : list Z := take o d ++ bs ++ drop (o + length bs) d.

Lemma length_splice d o bs : (o + length bs <= length d)%nat -> length (splice d o bs) = length d.
Proof. intros Hl. unfold splice. rewrite !length_app, length_take, length_drop. lia. Qed.

Lemma byte_at_splice d o bs p : (o + length bs <= length d)%nat ->
  byte_at (splice d o bs) p = if decide (o <= p < o + length bs)%nat then byte_at bs (p - o) else byte_at d p.
Proof.
  intros Hl. unfold splice, byte_at. rewrite lookup_app. destruct (take o d !! p) as [b|] eqn:E.
  { apply lookup_take_Some in E as [E Hp]. rewrite decide_False by lia. by rewrite E. }
  apply lookup_take_None in E as [E|E].
  { apply lookup_ge_None_1 in E. rewrite decide_False by lia. rewrite length_take, Nat.min_l, lookup_app_r, lookup_drop by lia.
    rewrite lookup_ge_None_2 by lia. by rewrite lookup_ge_None_2 by lia. }
  rewrite length_take, Nat.min_l by lia. case_decide as Hd.
  - by rewrite lookup_app_l by lia.
  - rewrite lookup_app_r, lookup_drop by lia. do 2 f_equal. lia.
Qed.

Lemma bytes_ok_splice d o bs : bytes_ok d -> bytes_ok bs -> bytes_ok (splice d o bs).
Proof. intros Hd Hb. unfold splice. apply Forall_app_2; [by apply Forall_take|]. apply Forall_app_2; [done|by apply Forall_drop]. Qed.
