(* ===== verification/Log.v ===== *)
(** * The log

    [kernel/log.c].  Writes go to the buffer cache, are recorded in the
    in-memory header and pinned; [commit] copies them to the log on disk,
    writes the header, installs them at home and clears the header.  A routine
    that would wait for log space or for a commit ends in [EBlock]. *)

From S2P Require Import Prelude Riscv Mem Spinlock Proc IoState SleepLock Bio Bytes.

Section Log.
Context `{Linker}.
Local Open Scope kernel_scope.

Definition glog {A} (f : log -> A) : K A := iogets (fun s => f (lg s)).
Definition ulog (f : log -> log) : K unit := iomod (fun s => set_lg (f (lg s)) s).

(** log.lh.block[i] *)
Definition get_block (i : nat) : K Z :=
  o <- glog (fun g => lh_block g !! i) ;;
  match o with Some b => ret b | None => ub "log.lh.block[]" end.
Definition set_block (i : nat) (b : Z) : K unit :=
  get_block i ;; ulog (fun g => set_lh_block (<[i := b]> (lh_block g)) g).

(** One turn of the loop of [install_trans]. *)
Definition install_one (recovering : bool) (tail : nat) : K unit :=
  dev <- glog lg_dev ;;
  start <- glog lg_start ;;
  lbuf <- bread (u32 dev) (u32 (start + Z.of_nat tail + 1)) ;;
  b <- get_block tail ;;
  dbuf <- bread (u32 dev) (u32 b) ;;
  d <- buf_data lbuf ;;
  set_buf_data dbuf d ;;
  bwrite dbuf ;;
  (when negb recovering then bunpin dbuf) ;;
  brelse lbuf ;;
  brelse dbuf.
Fixpoint install_loop (recovering : bool) (tails : list nat) : K unit :=
  match tails with
  | [] => ret tt
  | tail :: tails => install_one recovering tail ;; install_loop recovering tails
  end.
Definition install_trans (recovering : bool) : K unit :=
  n <- glog lh_n ;; install_loop recovering (seq 0 (Z.to_nat n)).

(** The header block: [n] at offset 0, [block[i]] at offset 4 + 4i. *)
Fixpoint read_head_loop (d : list Z) (ixs : list nat) : K unit :=
  match ixs with
  | [] => ret tt
  | i :: ixs => set_block i (i32 (get_le 4 d (4 + 4 * i))) ;; read_head_loop d ixs
  end.
Definition read_head : K unit :=
  dev <- glog lg_dev ;;
  start <- glog lg_start ;;
  b <- bread (u32 dev) (u32 start) ;;
  d <- buf_data b ;;
  ulog (set_lh_n (i32 (get_le 4 d 0))) ;;
  n <- glog lh_n ;;
  read_head_loop d (seq 0 (Z.to_nat n)) ;;
  brelse b.

Fixpoint write_head_loop (b : nat) (ixs : list nat) : K unit :=
  match ixs with
  | [] => ret tt
  | i :: ixs =>
      v <- get_block i ;;
      d <- buf_data b ;;
      set_buf_data b (put_le 4 d (4 + 4 * i) v) ;;
      write_head_loop b ixs
  end.
Definition write_head : K unit :=
  dev <- glog lg_dev ;;
  start <- glog lg_start ;;
  b <- bread (u32 dev) (u32 start) ;;
  n <- glog lh_n ;;
  d <- buf_data b ;;
  set_buf_data b (put_le 4 d 0 n) ;;
  write_head_loop b (seq 0 (Z.to_nat n)) ;;
  bwrite b ;;
  brelse b.

Definition recover_from_log : K unit :=
  read_head ;;
  install_trans true ;;
  ulog (set_lh_n 0) ;;
  write_head.

(** sizeof(struct logheader) *)
Definition SIZEOF_LOGHEADER : Z := 4 + 4 * LOGSIZE.

Definition initlog (dev : Z) (sb : superblock) : K unit :=
  if BSIZE <=? SIZEOF_LOGHEADER then panic "initlog: too big logheader"
  else
    inlk (initlock LogLock) ;;
    ulog (set_lg_start (i32 (sb_logstart sb))) ;;
    ulog (set_lg_size (i32 (sb_nlog sb))) ;;
    ulog (set_lg_dev dev) ;;
    recover_from_log.

Definition begin_op : K unit :=
  inlk (acquire LogLock) ;;
  c <- glog committing ;;
  if ctrue c then fail (EBlock "begin_op: committing")
  else
    n <- glog lh_n ;;
    o <- glog outstanding ;;
    if LOGSIZE <? n + (o + 1) * MAXOPBLOCKS then fail (EBlock "begin_op: log space")
    else
      ulog (set_outstanding (i32 (o + 1))) ;;
      inlk (release LogLock).

(** One turn of the loop of [write_log]. *)
Definition write_log_one (tail : nat) : K unit :=
  dev <- glog lg_dev ;;
  start <- glog lg_start ;;
  to <- bread (u32 dev) (u32 (start + Z.of_nat tail + 1)) ;;
  b <- get_block tail ;;
  from <- bread (u32 dev) (u32 b) ;;
  d <- buf_data from ;;
  set_buf_data to d ;;
  bwrite to ;;
  brelse from ;;
  brelse to.
Fixpoint write_log_loop (tails : list nat) : K unit :=
  match tails with
  | [] => ret tt
  | tail :: tails => write_log_one tail ;; write_log_loop tails
  end.
Definition write_log : K unit :=
  n <- glog lh_n ;; write_log_loop (seq 0 (Z.to_nat n)).

Definition commit : K unit :=
  n <- glog lh_n ;;
  when 0 <? n then
    write_log ;;
    write_head ;;
    install_trans false ;;
    ulog (set_lh_n 0) ;;
    write_head.

Definition end_op : K unit :=
  inlk (acquire LogLock) ;;
  o <- glog outstanding ;;
  ulog (set_outstanding (i32 (o - 1))) ;;
  c <- glog committing ;;
  if ctrue c then panic "log.committing"
  else
    o <- glog outstanding ;;
    do_commit <- (if o =? 0 then ulog (set_committing 1) ;; ret true
                  else wakeup log_addr ;; ret false) ;;
    inlk (release LogLock) ;;
    when do_commit then
      commit ;;
      inlk (acquire LogLock) ;;
      ulog (set_committing 0) ;;
      wakeup log_addr ;;
      inlk (release LogLock).

(** The search of [log_write] for an earlier write of the block. *)
Fixpoint absorb (ixs : list nat) (blockno : Z) (last : nat) : K nat :=
  match ixs with
  | [] => ret last
  | i :: ixs =>
      b <- get_block i ;;
      if u32 b =? blockno then ret i else absorb ixs blockno last
  end.

(** The end of [log_write]: record the block at index [i] of the header. *)
Definition log_record (b i : nat) (blockno n : Z) : K unit :=
  set_block i (i32 blockno) ;;
  (when Z.of_nat i =? n then
     bpin b ;;
     ulog (set_lh_n (i32 (n + 1)))) ;;
  inlk (release LogLock).

Definition log_write (b : nat) : K unit :=
  inlk (acquire LogLock) ;;
  n <- glog lh_n ;;
  size <- glog lg_size ;;
  if (LOGSIZE <=? n) || (size - 1 <=? n) then panic "too big a transaction"
  else
    o <- glog outstanding ;;
    if o <? 1 then panic "log_write outside of trans"
    else
      x <- getb b ;;
      i <- absorb (seq 0 (Z.to_nat n)) (b_blockno x) (Z.to_nat n) ;;
      log_record b i (b_blockno x) n.

End Log.
