(* ===== verification/LogDisk.v ===== *)
(** * What a disk with a log means

    Sequences of block writes, the header block, and the contents that
    recovery will give a disk.  A crash keeps some number of the writes that
    a routine issues, so the lemmas speak of every prefix of them. *)

From S2P Require Import Prelude Riscv IoState BioSpec Bytes.

(** The log area on disk: the header and at most 29 blocks. *)
Definition in_log (start b : Z) : Prop := start <= b < start + LOGSIZE.

#[export] Instance in_log_dec start b : Decision (in_log start b).
Proof. unfold in_log. apply _. Defined.

(** ** Sequences of writes, the earliest first *)

Abbreviation blocks := (Z -> list Z).
Abbreviation bwrites := (list (Z * list Z)).

Definition apply_write (D : blocks) (w : Z * list Z) : blocks := block_upd D w.1 w.2.
Definition apply_writes (D : blocks) (ws : bwrites) : blocks := foldl apply_write D ws.

Definition disk_writes (ws : bwrites) (dk : disk) : disk := Disk (dk_base dk) (reverse ws ++ dk_writes dk).

(** ** The header block *)

Definition put_head (d : list Z) (blks : list Z) : list Z :=
  put_les 4 (put_le 4 d 0 (Z.of_nat (length blks))) 4 blks.
Definition head_n (d : list Z) : Z := i32 (get_le 4 d 0).
Definition head_of (d : list Z) : list Z :=
  (fun k => i32 (get_le 4 d (4 + 4 * k))) <$> seq 0 (Z.to_nat (head_n d)).

Definition home (start b : Z) : Prop := 0 <= b < 2 ^ 31 /\ ~ in_log start b.

(** A header block that a commit can have written. *)
Definition head_ok (start : Z) (d : list Z) : Prop :=
  length d = bsize /\ 0 <= head_n d < LOGSIZE /\ Forall (home start) (head_of d).

(** ** The writes of a commit and of a recovery *)

Definition log_copies (start : Z) (L : blocks) (blks : list Z) : bwrites :=
  imap (fun k b => (start + Z.of_nat k + 1, L b)) blks.
Definition log_installs (start : Z) (L : blocks) (blks : list Z) : bwrites :=
  imap (fun k b => (b, L (start + Z.of_nat k + 1))) blks.
Definition home_writes (L : blocks) (blks : list Z) : bwrites := (fun b => (b, L b)) <$> blks.

Definition commit_writes (start : Z) (L : blocks) (blks : list Z) : bwrites :=
  log_copies start L blks ++ [(start, put_head (L start) blks)] ++ home_writes L blks ++
  [(start, put_head (put_head (L start) blks) [])].
Definition recover_writes (start : Z) (D : blocks) : bwrites :=
  log_installs start D (head_of (D start)) ++ [(start, put_head (D start) [])].

(** The contents of the disk once recovery has run. *)
Definition meaning (start : Z) (D : blocks) : blocks :=
  apply_writes D (log_installs start D (head_of (D start))).

(** ** Lemmas *)

Lemma apply_writes_app D ws ws' : apply_writes D (ws ++ ws') = apply_writes (apply_writes D ws) ws'.
Proof. apply foldl_app. Qed.

Lemma apply_writes_last D ws b :
  apply_writes D ws b = default (D b) (last_write (reverse ws) b).
Proof.
  induction ws as [|[b' d] ws IH] using rev_ind; [done|].
  rewrite apply_writes_app, reverse_app. simpl. unfold apply_write, block_upd. cbn [fst snd].
  destruct (Z.eqb_spec b' b); case_decide; done.
Qed.

Lemma apply_writes_out D ws b : b ∉ ws.*1 -> apply_writes D ws b = D b.
Proof.
  induction ws as [|[b' d] ws IH] using rev_ind; [done|]. rewrite fmap_app, apply_writes_app.
  intros [Hw Hb]%not_elem_of_app. simpl. unfold apply_write. cbn [fst snd].
  rewrite block_upd_ne; [by apply IH|]. simpl in Hb. set_solver.
Qed.

(** Whether a block is written does not depend on what it held before. *)
Lemma apply_writes_in D D' ws b : b ∈ ws.*1 -> apply_writes D ws b = apply_writes D' ws b.
Proof.
  induction ws as [|[b' d] ws IH] using rev_ind; [set_solver|]. rewrite fmap_app, !apply_writes_app.
  simpl. unfold apply_write, block_upd. cbn [fst snd]. intros Hb. case_decide; [done|]. apply IH.
  apply elem_of_app in Hb as [?|Hb]; [done|]. set_solver.
Qed.

Lemma apply_writes_again D ws k b :
  apply_writes (apply_writes D (take k ws)) ws b = apply_writes D ws b.
Proof.
  destruct (decide (b ∈ ws.*1)) as [Hin|Hout]; [by apply apply_writes_in|].
  rewrite !apply_writes_out; try done. rewrite fmap_take. intros Hin. apply Hout.
  apply list_elem_of_lookup in Hin as [j Hj]. apply lookup_take_Some in Hj as [Hj _].
  by eapply list_elem_of_lookup_2.
Qed.

Lemma apply_writes_home D L blks b :
  apply_writes D (home_writes L blks) b = if decide (b ∈ blks) then L b else D b.
Proof.
  induction blks as [|x blks IH] using rev_ind; [done|]. unfold home_writes in *.
  rewrite fmap_app, apply_writes_app. simpl. unfold apply_write, block_upd. cbn [fst snd].
  destruct (decide (x = b)) as [->|E]; [by rewrite (decide_True (P := b ∈ blks ++ [b])) by set_solver|]. rewrite IH.
  destruct (decide (b ∈ blks)); destruct (decide (b ∈ blks ++ [x])); try done; set_solver.
Qed.

Lemma apply_writes_ext D D' ws : (forall b, D b = D' b) -> forall b, apply_writes D ws b = apply_writes D' ws b.
Proof. intros HD b. rewrite !apply_writes_last. by rewrite HD. Qed.

Lemma last_write_app ws ws' b :
  last_write (ws ++ ws') b = match last_write ws b with Some d => Some d | None => last_write ws' b end.
Proof. induction ws as [|[b' d] ws IH]; simpl; [done|]. by destruct (b' =? b). Qed.

Lemma disk_read_writes ws dk b : disk_read (disk_writes ws dk) b = apply_writes (disk_read dk) ws b.
Proof.
  rewrite apply_writes_last. unfold disk_read, disk_writes. cbn [dk_base dk_writes].
  rewrite last_write_app. by destruct (last_write (reverse ws) b).
Qed.

Lemma disk_writes_app ws ws' dk : disk_writes ws' (disk_writes ws dk) = disk_writes (ws ++ ws') dk.
Proof. unfold disk_writes. cbn [dk_base dk_writes]. by rewrite reverse_app, app_assoc. Qed.

Lemma disk_writes_one b d dk : disk_write b d dk = disk_writes [(b, d)] dk.
Proof. done. Qed.

(** The header. *)

Lemma length_put_head d blks : length (put_head d blks) = length d.
Proof. unfold put_head. by rewrite length_put_les, length_put_le. Qed.

Lemma head_n_put d blks :
  length d = bsize -> (length blks <= logsize)%nat -> head_n (put_head d blks) = Z.of_nat (length blks).
Proof.
  intros Hd Hl. unfold head_n, put_head, logsize, bsize in *.
  rewrite get_put_les_ne by (rewrite ?length_put_le; lia). rewrite get_put_eq by lia.
  change (256 ^ Z.of_nat 4) with (2 ^ 32). rewrite Z.mod_small by lia. apply i32_small. lia.
Qed.

Lemma head_of_put start d blks :
  length d = bsize -> (length blks <= logsize)%nat -> Forall (home start) blks -> head_of (put_head d blks) = blks.
Proof.
  intros Hd Hl Hh. unfold head_of. rewrite head_n_put, Nat2Z.id by done. apply list_eq. intros k.
  rewrite list_lookup_fmap. destruct (blks !! k) as [b|] eqn:Hk.
  - pose proof (lookup_lt_Some _ _ _ Hk) as Hkl. rewrite lookup_seq_lt by done. cbn [fmap option_fmap option_map]. f_equal.
    change (0 + k)%nat with k.
    unfold put_head. unfold logsize, bsize in *.
    rewrite (get_put_les_eq 4 _ 4 blks k b) by (rewrite ?length_put_le; done || lia).
    rewrite Forall_lookup in Hh. destruct (Hh k b Hk) as [Hr _].
    change (256 ^ Z.of_nat 4) with (2 ^ 32). rewrite Z.mod_small by lia. apply i32_small. lia.
  - apply lookup_ge_None_1 in Hk. by rewrite lookup_seq_ge.
Qed.

Lemma head_of_cleared d : length d = bsize -> head_of (put_head d []) = [].
Proof. intros Hd. apply (head_of_put 0); [done|simpl; lia|constructor]. Qed.

Lemma head_ok_len start d : head_ok start d -> (length (head_of d) < logsize)%nat.
Proof.
  intros (_ & Hn & _). unfold head_of. rewrite length_fmap, length_seq. unfold LOGSIZE, MAXOPBLOCKS, logsize in *. lia.
Qed.

(** ** Prefixes of a recovery *)

Lemma log_installs_fst start D blks : (log_installs start D blks).*1 = blks.
Proof.
  unfold log_installs. apply list_eq. intros k. rewrite list_lookup_fmap, list_lookup_imap.
  by destruct (blks !! k).
Qed.

Lemma log_copies_fst start L blks b :
  (length blks < logsize)%nat -> b ∈ (log_copies start L blks).*1 -> in_log start b /\ b <> start.
Proof.
  intros Hl. rewrite list_elem_of_lookup. intros [k Hk]. unfold log_copies in Hk.
  rewrite list_lookup_fmap, list_lookup_imap in Hk. destruct (blks !! k) as [x|] eqn:E; [|done].
  simpl in Hk. injection Hk as <-. apply lookup_lt_Some in E.
  unfold in_log, LOGSIZE, MAXOPBLOCKS, logsize in *. lia.
Qed.

Lemma log_installs_ext start D D' blks :
  (length blks < logsize)%nat -> (forall b, in_log start b -> b <> start -> D b = D' b) ->
  log_installs start D blks = log_installs start D' blks.
Proof.
  intros Hl HD. unfold log_installs. apply list_eq. intros k. rewrite !list_lookup_imap.
  destruct (blks !! k) as [b|] eqn:E; [|done]. simpl. do 2 f_equal. apply lookup_lt_Some in E.
  apply HD; unfold in_log, LOGSIZE, MAXOPBLOCKS, logsize in *; lia.
Qed.

Lemma take_fst_elem {A B} k (ws : list (A * B)) x : x ∈ (take k ws).*1 -> x ∈ ws.*1.
Proof.
  rewrite fmap_take. intros [j Hj]%list_elem_of_lookup. apply lookup_take_Some in Hj as [Hj _].
  by eapply list_elem_of_lookup_2.
Qed.

Lemma meaning_ext start D D' b : (forall b, D b = D' b) -> meaning start D b = meaning start D' b.
Proof.
  intros E. unfold meaning, log_installs. rewrite (E start).
  replace (imap (fun k b => (b, D' (start + Z.of_nat k + 1))) (head_of (D' start)))
    with (imap (fun k b => (b, D (start + Z.of_nat k + 1))) (head_of (D' start))).
  - by apply apply_writes_ext.
  - apply imap_ext. intros k x _. by rewrite E.
Qed.

(** A disk whose header is empty means what it holds. *)
Lemma meaning_empty start D b : head_of (D start) = [] -> meaning start D b = D b.
Proof. intros Hh. unfold meaning. by rewrite Hh. Qed.

Lemma home_not_in_log start blks b : Forall (home start) blks -> b ∈ blks -> ~ in_log start b.
Proof. rewrite Forall_forall. intros Hh Hb. by apply Hh. Qed.

Lemma start_in_log start : in_log start start.
Proof. unfold in_log, LOGSIZE, MAXOPBLOCKS. lia. Qed.

(** Every prefix of the writes of a recovery leaves the meaning unchanged. *)
Lemma recover_prefix start D k b :
  head_ok start (D start) -> ~ in_log start b ->
  meaning start (apply_writes D (take k (recover_writes start D))) b = meaning start D b.
Proof.
  intros Hok Hb. pose proof (head_ok_len _ _ Hok) as Hlen. destruct Hok as (Hd & _ & Hh).
  unfold recover_writes. set (hs := head_of (D start)) in *. set (ins := log_installs start D hs).
  assert (Hfst : ins.*1 = hs) by apply log_installs_fst.
  assert (Hout : forall k b', in_log start b' -> apply_writes D (take k ins) b' = D b').
  { intros k' b' Hin. apply apply_writes_out. intros Hx%take_fst_elem. rewrite Hfst in Hx.
    by apply (home_not_in_log start hs b'). }
  destruct (decide (k <= length ins)%nat) as [Hk|Hk].
  - rewrite take_app_le by done. unfold meaning. rewrite (Hout k start) by apply start_in_log. fold hs ins.
    rewrite (log_installs_ext start _ D hs) by (done || (intros; by apply Hout)). apply apply_writes_again.
  - rewrite take_ge by (rewrite length_app; simpl; lia).
    rewrite apply_writes_app. rewrite meaning_empty.
    + simpl. unfold apply_write. cbn [fst snd]. rewrite block_upd_ne; [done|]. intros <-. by apply Hb, start_in_log.
    + simpl. unfold apply_write. cbn [fst snd]. rewrite block_upd_eq. by apply head_of_cleared.
Qed.

(** After all of them the disk is what it means. *)
Lemma recover_all start D b :
  head_ok start (D start) -> ~ in_log start b ->
  apply_writes D (recover_writes start D) b = meaning start D b /\
  head_of (apply_writes D (recover_writes start D) start) = [].
Proof.
  intros Hok Hb. destruct Hok as (Hd & _ & Hh). unfold recover_writes. rewrite apply_writes_app. simpl.
  unfold apply_write. cbn [fst snd]. rewrite block_upd_eq, block_upd_ne; [|intros <-; by apply Hb, start_in_log].
  split; [done|]. by apply head_of_cleared.
Qed.

(** ** Prefixes of a commit *)

Section Commit.
Context (start : Z) (D L : blocks) (blks : list Z).
Hypothesis Hhome : Forall (home start) blks.
Hypothesis Hlen : (length blks < logsize)%nat.
Hypothesis Hempty : head_of (D start) = [].
Hypothesis Hsize : length (L start) = bsize.
Hypothesis Hsame : forall b, b ∉ blks -> ~ in_log start b -> D b = L b.

Let copies := log_copies start L blks.

Lemma copies_before k b :
  ~ in_log start b -> meaning start (apply_writes D (take k copies)) b = D b.
Proof.
  intros Hb. rewrite meaning_empty.
  - apply apply_writes_out. intros Hx%take_fst_elem. apply Hb. by apply log_copies_fst in Hx as [? _].
  - rewrite apply_writes_out; [done|]. intros Hx%take_fst_elem. by apply log_copies_fst in Hx as [_ ?].
Qed.

(** The disk once the header has been written. *)
Let D1 := apply_writes D (copies ++ [(start, put_head (L start) blks)]).

Lemma committed_start : D1 start = put_head (L start) blks.
Proof. unfold D1. rewrite apply_writes_app. simpl. unfold apply_write. cbn [fst snd]. apply block_upd_eq. Qed.

Lemma committed_log k b : blks !! k = Some b -> D1 (start + Z.of_nat k + 1) = L b.
Proof.
  intros Hk. unfold D1. rewrite apply_writes_app. simpl. unfold apply_write. cbn [fst snd].
  rewrite block_upd_ne by lia. unfold copies, log_copies. clear -Hk.
  induction blks as [|x l IH] using rev_ind; [done|]. rewrite imap_app, apply_writes_app. simpl.
  unfold apply_write. cbn [fst snd]. destruct (decide (k = length l)) as [->|Hne].
  - rewrite lookup_app_r, Nat.sub_diag in Hk by lia. simpl in Hk. injection Hk as ->.
    rewrite Nat.add_0_r. apply block_upd_eq.
  - assert (k < length (l ++ [x]))%nat by (by apply lookup_lt_Some in Hk).
    rewrite length_app in *. simpl in *. rewrite lookup_app_l in Hk by lia.
    rewrite block_upd_ne by lia. by apply IH.
Qed.

Lemma committed_home b : ~ in_log start b -> b ∉ blks -> D1 b = L b.
Proof.
  intros Hb Hn. unfold D1. rewrite apply_writes_app. simpl. unfold apply_write. cbn [fst snd].
  rewrite block_upd_ne by (intros <-; by apply Hb, start_in_log). rewrite apply_writes_out; [by apply Hsame|].
  intros Hx. apply log_copies_fst in Hx as [? _]; done.
Qed.

(** While the blocks are installed, the disk means the new contents. *)
Lemma installs_after k b :
  ~ in_log start b -> meaning start (apply_writes D1 (take k (home_writes L blks))) b = L b.
Proof.
  intros Hb. assert (Hfst : (home_writes L blks).*1 = blks)
    by (unfold home_writes; rewrite <- list_fmap_compose; apply list_fmap_id).
  assert (Hout : forall b', in_log start b' -> apply_writes D1 (take k (home_writes L blks)) b' = D1 b').
  { intros b' Hin. apply apply_writes_out. intros Hx%take_fst_elem. rewrite Hfst in Hx.
    by apply (home_not_in_log start blks b'). }
  unfold meaning. rewrite Hout by apply start_in_log.
  rewrite committed_start, (head_of_put start) by (done || lia).
  replace (log_installs start (apply_writes D1 (take k (home_writes L blks))) blks) with (home_writes L blks).
  - rewrite apply_writes_again, apply_writes_home. case_decide; [done|]. by apply committed_home.
  - unfold home_writes at 1, log_installs. apply list_eq. intros j. rewrite list_lookup_fmap, list_lookup_imap.
    destruct (blks !! j) as [x|] eqn:E; [|done]. simpl. do 2 f_equal. rewrite Hout.
    + symmetry. by apply committed_log.
    + apply lookup_lt_Some in E. unfold in_log, LOGSIZE, MAXOPBLOCKS, logsize in *. lia.
Qed.

Lemma commit_all b :
  ~ in_log start b -> apply_writes D (commit_writes start L blks) b = L b /\
  head_of (apply_writes D (commit_writes start L blks) start) = [].
Proof.
  intros Hb. unfold commit_writes. rewrite app_assoc, apply_writes_app. fold copies D1.
  rewrite apply_writes_app. simpl. unfold apply_write. cbn [fst snd]. rewrite block_upd_eq.
  rewrite block_upd_ne by (intros <-; by apply Hb, start_in_log). split.
  - rewrite apply_writes_home. case_decide; [done|]. by apply committed_home.
  - apply head_of_cleared. by rewrite length_put_head.
Qed.

(** Every prefix of the writes of a commit means the old or the new
    contents: the new ones from the write of the header on. *)
Lemma commit_prefix k b :
  ~ in_log start b ->
  meaning start (apply_writes D (take k (commit_writes start L blks))) b =
  if decide (k <= length blks)%nat then D b else L b.
Proof.
  intros Hb. assert (Hcl : length copies = length blks) by apply length_imap.
  assert (Hhl : length (home_writes L blks) = length blks) by apply length_fmap.
  case_decide as Hk.
  - unfold commit_writes. fold copies. rewrite take_app_le by lia. by apply copies_before.
  - destruct (decide (k <= length blks + 1 + length blks)%nat) as [Hk2|Hk2].
    + unfold commit_writes. fold copies. rewrite app_assoc, take_app_ge by (rewrite length_app; simpl; lia).
      rewrite apply_writes_app. fold D1. rewrite take_app_le by (rewrite length_app; simpl; lia).
      by apply installs_after.
    + rewrite take_ge by (unfold commit_writes; fold copies; rewrite !length_app; simpl; lia).
      destruct (commit_all b Hb) as [E1 E2]. rewrite meaning_empty; done.
Qed.

End Commit.
