(* ===== verification/LogSpec.v ===== *)
(** * The log as an atomic update of the disk

    The effect of the routines of [Log] on the view of the buffer cache and on
    the sequence of disk writes, and what a disk means to the recovery that
    runs when the kernel starts. *)

From S2P Require Import Prelude Riscv Mem Spinlock Proc ProcSpec IoState SleepLock Bio BioSpec Bytes Log LogDisk.

(** ** The state of the log *)

(** The in-memory header records the home locations [blks]. *)
Record log_at (g : log) (start : Z) (blks : list Z) : Prop := LogAt {
  la_dev : lg_dev g = ROOTDEV;
  la_start : lg_start g = start;
  la_range : 0 <= start < 2 ^ 31 - 64;
  la_n : lh_n g = Z.of_nat (length blks);
  la_len : length (lh_block g) = logsize;
  la_blks : take (length blks) (lh_block g) = blks;
  la_home : Forall (home start) blks;
  la_max : (length blks < logsize)%nat;
}.

(** A view with nothing locked. *)
Definition rest_view (L : Z -> list Z) (P D : gset Z) (l : list nat) : bview := BView L P ∅ D l.

Section Spec.
Context `{Linker}.
Implicit Types (s : kernel) (f : iost) (v : bview) (ls : list lockid).

(** Only the cache and the disk have changed. *)
Definition lstep (i : nat) s s' : Prop :=
  kframe i s s' /\ pfs s' = set_bufs (bufs (pfs s')) (set_dsk (dsk (pfs s')) (pfs s)).

Lemma lstep_refl i s : lstep i s s.
Proof. split; [apply kframe_refl|]. by destruct (pfs s). Qed.

Lemma lstep_trans i s1 s2 s3 : lstep i s1 s2 -> lstep i s2 s3 -> lstep i s1 s3.
Proof. intros [A B] [C D]. split; [by eapply kframe_trans|]. rewrite D, B. done. Qed.

Lemma lstep_bstep i s1 s2 : bstep i s1 s2 -> lstep i s1 s2 /\ dsk (pfs s2) = dsk (pfs s1).
Proof. intros [A B]. split; [split; [done|]|]; rewrite B; by destruct (pfs s1). Qed.

Lemma lstep_dsk i s1 s2 d : kframe i s1 s2 -> pfs s2 = set_dsk d (pfs s1) -> lstep i s1 s2 /\ dsk (pfs s2) = d.
Proof. intros A B. split; [split; [done|]|]; rewrite B; by destruct (pfs s1). Qed.

Lemma lstep_lg i s1 s2 : lstep i s1 s2 -> lg (pfs s2) = lg (pfs s1).
Proof. intros [_ ->]. done. Qed.

Lemma bio_at_view ls i s me v v' : bio_at ls i s me v -> v = v' -> bio_at ls i s me v'.
Proof. by intros ? <-. Qed.

Lemma glog_wp {A} (f : log -> A) s (Q : A -> kernel -> Prop) : Q (f (lg (pfs s))) s -> wp (glog f) s Q.
Proof. intros HQ. unfold glog. by apply iogets_wp. Qed.

Lemma get_block_wp s k b (Q : Z -> kernel -> Prop) :
  lh_block (lg (pfs s)) !! k = Some b -> Q b s -> wp (get_block k) s Q.
Proof. intros Hb HQ. unfold get_block. wp_step. apply glog_wp. rewrite Hb. by apply wp_ret. Qed.

Lemma la_lookup g start blks k b : log_at g start blks -> blks !! k = Some b -> lh_block g !! k = Some b.
Proof.
  intros Hg Hk. rewrite <- (la_blks g start blks Hg) in Hk. apply lookup_take_Some in Hk. tauto.
Qed.

Lemma la_block g start blks k b :
  log_at g start blks -> blks !! k = Some b ->
  u32 b = b /\ u32 (start + Z.of_nat k + 1) = start + Z.of_nat k + 1 /\ (k < length blks)%nat /\
  in_log start (start + Z.of_nat k + 1) /\ ~ in_log start b /\ u32 (lg_dev g) = ROOTDEV.
Proof.
  intros Hg Hk. pose proof (la_home g start blks Hg) as Hh. rewrite Forall_lookup in Hh.
  destruct (Hh k b Hk) as [Hr Hn]. apply lookup_lt_Some in Hk. pose proof (la_max g start blks Hg).
  pose proof (la_range g start blks Hg). rewrite (la_dev g start blks Hg). unfold logsize, in_log, LOGSIZE, MAXOPBLOCKS in *.
  rewrite !u32_small by lia. split_and!; try done; lia.
Qed.

(** ** write_log *)

Lemma held_pair (j1 j2 : nat) (b1 b2 : Z) :
  j1 <> j2 -> delete j1 (delete j2 (<[j2 := b2]> (<[j1 := b1]> (∅ : gmap nat Z)))) = ∅.
Proof.
  intros Hj. apply map_empty. intros k. rewrite !lookup_delete, !lookup_insert, lookup_empty.
  by repeat case_decide.
Qed.

Lemma copy_view L P D l j1 j2 lb b d :
  j1 <> j2 -> lb ∉ D -> exists l2,
  unlock j1 lb (unlock j2 b (written lb (touch lb d (hold j2 b (hold j1 lb (rest_view L P D l))))))
  = rest_view (block_upd L lb d) P D l2.
Proof.
  intros Hj HD. unfold rest_view. view_simpl. rewrite held_pair by done. eexists. f_equal. set_solver.
Qed.

Lemma write_log_one_wp ls i s me L P D l start blks k b (Q : unit -> kernel -> Prop) :
  bio_at ls i s me (rest_view L P D l) -> log_at (lg (pfs s)) start blks -> blks !! k = Some b ->
  b ∈ P -> (size P < nbuf)%nat -> D ⊆ P -> (forall b', b' ∈ P -> ~ in_log start b') ->
  (forall s2 l2, lstep i s s2 ->
     dsk (pfs s2) = disk_write (start + Z.of_nat k + 1) (L b) (dsk (pfs s)) ->
     bio_at ls i s2 me (rest_view (block_upd L (start + Z.of_nat k + 1) (L b)) P D l2) -> Q tt s2) ->
  wp (write_log_one k) s Q.
Proof.
  intros Hat Hg Hk HbP HP HDP Hlog HQ.
  destruct (la_block _ _ _ _ _ Hg Hk) as (Eb & El & Hkl & Hin & Hni & Ed).
  set (lb := start + Z.of_nat k + 1) in *. unfold write_log_one.
  wp_step. apply glog_wp. wp_step. apply glog_wp. rewrite Ed, (la_start _ _ _ Hg). fold lb. rewrite El.
  wp_step. eapply (bread_wp ls i s me _ lb); [exact Hat|done|right; cbn [rest_view v_held v_pins]; rewrite map_size_empty; lia|].
  intros j1 s1 Hn1 _ St1 Hat1. destruct (lstep_bstep _ _ _ St1) as [Ls1 Dk1].
  wp_step. eapply get_block_wp; [rewrite (lstep_lg _ _ _ Ls1); by eapply la_lookup|]. rewrite Eb.
  wp_step. eapply (bread_wp ls i s1 me _ b); [exact Hat1| | |].
  { intros j. cbn [hold v_held rest_view]. destruct (decide (j1 = j)) as [<-|]; rewrite ?lookup_insert_eq, ?lookup_insert_ne by done.
    - intros [= E]. by rewrite E in Hin.
    - by rewrite lookup_empty. }
  { left. destruct Hat1 as (_ & _ & _ & _ & _ & Hv1). by apply (bi_pins _ _ _ Hv1). }
  intros j2 s2 Hn2 _ St2 Hat2. destruct (lstep_bstep _ _ _ St2) as [Ls2 Dk2].
  cbn [hold v_held rest_view] in Hn2.
  assert (Hj : j1 <> j2) by (intros ->; by rewrite lookup_insert_eq in Hn2).
  assert (Hl1 : v_held (hold j2 b (hold j1 lb (rest_view L P D l))) !! j1 = Some lb)
    by (cbn [hold v_held]; by rewrite lookup_insert_ne, lookup_insert_eq).
  assert (Hl2 : v_held (hold j2 b (hold j1 lb (rest_view L P D l))) !! j2 = Some b)
    by (cbn [hold v_held]; by rewrite lookup_insert_eq).
  wp_step. eapply buf_data_wp; [exact Hat2|exact Hl2|]. cbn [hold v_data rest_view].
  wp_step. eapply set_buf_data_wp; [exact Hat2|exact Hl1| |].
  { destruct Hat2 as (_ & _ & _ & _ & _ & Hv2). apply (bi_size _ _ _ Hv2). }
  intros s3 St3 Hat3. destruct (lstep_bstep _ _ _ St3) as [Ls3 Dk3].
  wp_step. eapply bwrite_wp; [exact Hat3|exact Hl1|]. intros s4 Kf4 E4 Hat4.
  destruct (lstep_dsk _ _ _ _ Kf4 E4) as [Ls4 Dk4]. cbn [touch v_data] in Dk4. rewrite block_upd_eq in Dk4.
  assert (HbD : lb ∉ D) by (intros HD; eapply (Hlog lb); [by apply HDP|done]).
  wp_step. eapply brelse_wp; [exact Hat4|exact Hl2| |].
  { intros _. exact HbP. }
  intros s5 St5 Hat5. destruct (lstep_bstep _ _ _ St5) as [Ls5 Dk5].
  eapply brelse_wp; [exact Hat5| | |].
  { cbn [unlock set_lru unhold v_held]. rewrite lookup_delete_ne by done. exact Hl1. }
  { cbn. set_solver. }
  intros s6 St6 Hat6. destruct (lstep_bstep _ _ _ St6) as [Ls6 Dk6].
  destruct (copy_view L P D l j1 j2 lb b (L b) Hj HbD) as [l2 El2].
  apply (HQ s6 l2).
  - do 5 (eapply lstep_trans; [eassumption|]). done.
  - congruence.
  - exact (bio_at_view _ _ _ _ _ _ Hat6 El2).
Qed.

(** [write_log] copies the logged blocks to the log area, in order. *)
Lemma log_copies_lookup start L blks k b :
  blks !! k = Some b -> log_copies start L blks !! k = Some (start + Z.of_nat k + 1, L b).
Proof. intros Hk. unfold log_copies. by rewrite list_lookup_imap, Hk. Qed.

Lemma write_log_loop_wp ls i me L P D start blks m k s l (Q : unit -> kernel -> Prop) :
  (k + m = length blks)%nat ->
  bio_at ls i s me (rest_view (apply_writes L (take k (log_copies start L blks))) P D l) ->
  log_at (lg (pfs s)) start blks ->
  (forall b, b ∈ blks -> b ∈ P) -> (size P < nbuf)%nat -> D ⊆ P -> (forall b, b ∈ P -> ~ in_log start b) ->
  (forall s2 l2, lstep i s s2 ->
     dsk (pfs s2) = disk_writes (drop k (log_copies start L blks)) (dsk (pfs s)) ->
     bio_at ls i s2 me (rest_view (apply_writes L (log_copies start L blks)) P D l2) -> Q tt s2) ->
  wp (write_log_loop (seq k m)) s Q.
Proof.
  set (ws := log_copies start L blks). assert (Hws : length ws = length blks) by apply length_imap.
  revert k s l. induction m as [|m IH]; intros k s l Hkm Hat Hg HP Hsz HDP Hlog HQ; cbn [seq write_log_loop].
  { rewrite take_ge in Hat by lia. apply wp_ret, (HQ s l); [apply lstep_refl| |done].
    rewrite drop_ge by lia. by destruct (dsk (pfs s)). }
  destruct (lookup_lt_is_Some_2 blks k) as [b Hb]; [lia|].
  destruct (la_block _ _ _ _ _ Hg Hb) as (_ & _ & _ & Hin & Hni & _).
  assert (HLb : apply_writes L (take k ws) b = L b).
  { apply apply_writes_out. intros Hx%take_fst_elem.
    apply log_copies_fst in Hx as [? _]; [done|]. apply (la_max _ _ _ Hg). }
  pose proof (log_copies_lookup start L blks k b Hb) as Hw. fold ws in Hw.
  wp_step. eapply (write_log_one_wp ls i s me _ P D l); [exact Hat|done|done| |done|done|done|].
  { apply HP. by eapply list_elem_of_lookup_2. }
  rewrite HLb. intros s2 l2 Ls2 Dk2 Hat2. apply (IH (S k) s2 l2); [lia| | |done|done|done|done|].
  - rewrite (take_S_r _ _ _ Hw), apply_writes_app. exact Hat2.
  - by rewrite (lstep_lg _ _ _ Ls2).
  - intros s3 l3 Ls3 Dk3 Hat3. apply (HQ s3 l3); [by eapply lstep_trans| |done].
    rewrite Dk3, Dk2, disk_writes_one, disk_writes_app. by rewrite (drop_S _ _ _ Hw).
Qed.

(** ** write_head *)

Lemma hold1_view L P D l j b d :
  b ∉ D -> exists l2, unlock j b (written b (touch b d (hold j b (rest_view L P D l))))
  = rest_view (block_upd L b d) P D l2.
Proof.
  intros HD. unfold rest_view. view_simpl. eexists. rewrite delete_insert_eq, delete_empty. f_equal. set_solver.
Qed.

Lemma touch_twice ls i s me L P D h l b d d' :
  bio_at ls i s me (touch b d' (touch b d (BView L P h D l))) -> bio_at ls i s me (touch b d' (BView L P h D l)).
Proof.
  rewrite !touch_view. intros Hat. replace ({[b]} ∪ D) with ({[b]} ∪ ({[b]} ∪ D)) by set_solver.
  eapply bio_at_ext; [|exact Hat]. intros b'. unfold block_upd. by case_decide.
Qed.

(** The loop over the block numbers. *)
Lemma write_head_loop_wp ls i me L P D l start blks j m k s d (Q : unit -> kernel -> Prop) :
  (k + m = length blks)%nat -> log_at (lg (pfs s)) start blks -> length d = bsize ->
  bio_at ls i s me (touch start d (hold j start (rest_view L P D l))) ->
  (forall s2, bstep i s s2 ->
     bio_at ls i s2 me (touch start (put_les 4 d (4 + 4 * k) (drop k blks)) (hold j start (rest_view L P D l))) ->
     Q tt s2) ->
  wp (write_head_loop j (seq k m)) s Q.
Proof.
  revert k s d. induction m as [|m IH]; intros k s d Hkm Hg Hd Hat HQ; cbn [seq write_head_loop].
  { rewrite drop_ge in HQ by lia. apply wp_ret, HQ; [|done]. split; [apply kframe_refl|]. by destruct (pfs s). }
  destruct (lookup_lt_is_Some_2 blks k) as [b Hb]; [lia|]. wp_step.
  eapply get_block_wp; [by eapply la_lookup|]. wp_step. eapply buf_data_wp; [exact Hat|by apply lookup_insert_eq|].
  cbn [touch v_data]. rewrite block_upd_eq. wp_step.
  eapply set_buf_data_wp; [exact Hat|by apply lookup_insert_eq|by rewrite length_put_le|].
  intros s2 St2 Hat2. destruct (lstep_bstep _ _ _ St2) as [Ls2 _].
  apply (IH (S k) s2 (put_le 4 d (4 + 4 * k) b)); [lia| |by rewrite length_put_le| |].
  - by rewrite (lstep_lg _ _ _ Ls2).
  - by eapply touch_twice.
  - intros s3 St3 Hat3. apply HQ; [|].
    + destruct St2 as [K2 E2], St3 as [K3 E3]. split; [by eapply kframe_trans|]. rewrite E3, E2. done.
    + rewrite (drop_S _ _ _ Hb). cbn [put_les].
      replace (4 + 4 * k + 4)%nat with (4 + 4 * S k)%nat by lia. exact Hat3.
Qed.

Lemma write_head_wp ls i s me L P D l start blks (Q : unit -> kernel -> Prop) :
  bio_at ls i s me (rest_view L P D l) -> log_at (lg (pfs s)) start blks -> (size P < nbuf)%nat ->
  start ∉ D ->
  (forall s2 l2, lstep i s s2 ->
     dsk (pfs s2) = disk_write start (put_head (L start) blks) (dsk (pfs s)) ->
     bio_at ls i s2 me (rest_view (block_upd L start (put_head (L start) blks)) P D l2) -> Q tt s2) ->
  wp write_head s Q.
Proof.
  intros Hat Hg HP HD HQ. unfold write_head. wp_step. apply glog_wp. wp_step. apply glog_wp.
  rewrite (la_dev _ _ _ Hg), (la_start _ _ _ Hg). pose proof (la_range _ _ _ Hg).
  change (u32 ROOTDEV) with ROOTDEV. rewrite (u32_small start) by lia.
  wp_step. eapply (bread_wp ls i s me _ start); [exact Hat|done|right; cbn [rest_view v_held v_pins]; rewrite map_size_empty; lia|].
  intros j s1 Hn1 _ St1 Hat1. destruct (lstep_bstep _ _ _ St1) as [Ls1 Dk1].
  assert (Hg1 : log_at (lg (pfs s1)) start blks) by (by rewrite (lstep_lg _ _ _ Ls1)).
  wp_step. apply glog_wp. rewrite (la_n _ _ _ Hg1), Nat2Z.id.
  wp_step. eapply buf_data_wp; [exact Hat1|by apply lookup_insert_eq|]. cbn [hold v_data rest_view].
  assert (Hd : length (L start) = bsize).
  { destruct Hat1 as (_ & _ & _ & _ & _ & Hv1). apply (bi_size _ _ _ Hv1). }
  wp_step. eapply set_buf_data_wp; [exact Hat1|by apply lookup_insert_eq|by rewrite length_put_le|].
  intros s2 St2 Hat2. destruct (lstep_bstep _ _ _ St2) as [Ls2 Dk2].
  wp_step. eapply (write_head_loop_wp ls i me L P D l start blks j _ 0 s2); [done| | |exact Hat2|].
  { by rewrite (lstep_lg _ _ _ Ls2). } { by rewrite length_put_le. }
  intros s3 St3 Hat3. destruct (lstep_bstep _ _ _ St3) as [Ls3 Dk3]. rewrite drop_0 in Hat3.
  change (put_les 4 _ (4 + 4 * 0) blks) with (put_head (L start) blks) in Hat3.
  wp_step. eapply bwrite_wp; [exact Hat3|by apply lookup_insert_eq|]. intros s4 Kf4 E4 Hat4.
  destruct (lstep_dsk _ _ _ _ Kf4 E4) as [Ls4 Dk4]. cbn [touch v_data] in Dk4. rewrite block_upd_eq in Dk4.
  eapply brelse_wp; [exact Hat4|by apply lookup_insert_eq|cbn; set_solver|].
  intros s5 St5 Hat5. destruct (lstep_bstep _ _ _ St5) as [Ls5 Dk5].
  destruct (hold1_view L P D l j start (put_head (L start) blks) HD) as [l2 El2]. apply (HQ s5 l2).
  - do 4 (eapply lstep_trans; [eassumption|]). done.
  - congruence.
  - exact (bio_at_view _ _ _ _ _ _ Hat5 El2).
Qed.

(** ** install_trans *)

Lemma install_view L P P' D l j1 j2 lb b d :
  j1 <> j2 -> exists l2,
  unlock j2 b (unlock j1 lb (set_pins P' (written b (touch b d (hold j2 b (hold j1 lb (rest_view L P D l)))))))
  = rest_view (block_upd L b d) P' (D ∖ {[b]}) l2.
Proof.
  intros Hj. unfold rest_view. view_simpl. rewrite delete_delete, held_pair by done. eexists. f_equal. set_solver.
Qed.

Definition pins_after (recovering : bool) (P : gset Z) (b : Z) : gset Z :=
  if recovering then P else P ∖ {[b]}.

Lemma install_one_wp ls i s me L P D l start blks k b (r : bool) (Q : unit -> kernel -> Prop) :
  bio_at ls i s me (rest_view L P D l) -> log_at (lg (pfs s)) start blks -> blks !! k = Some b ->
  (size P < nbuf)%nat -> (if r then (S (size P) < nbuf)%nat else b ∈ P) ->
  D ⊆ P -> (forall b', b' ∈ P -> ~ in_log start b') ->
  (forall s2 l2, lstep i s s2 ->
     dsk (pfs s2) = disk_write b (L (start + Z.of_nat k + 1)) (dsk (pfs s)) ->
     bio_at ls i s2 me (rest_view (block_upd L b (L (start + Z.of_nat k + 1))) (pins_after r P b) (D ∖ {[b]}) l2) ->
     Q tt s2) ->
  wp (install_one r k) s Q.
Proof.
  intros Hat Hg Hk HP Hr HDP Hlog HQ.
  destruct (la_block _ _ _ _ _ Hg Hk) as (Eb & El & Hkl & Hin & Hni & Ed).
  set (lb := start + Z.of_nat k + 1) in *. unfold install_one.
  wp_step. apply glog_wp. wp_step. apply glog_wp. rewrite Ed, (la_start _ _ _ Hg). fold lb. rewrite El.
  wp_step. eapply (bread_wp ls i s me _ lb); [exact Hat|done|right; cbn [rest_view v_held v_pins]; rewrite map_size_empty; lia|].
  intros j1 s1 Hn1 _ St1 Hat1. destruct (lstep_bstep _ _ _ St1) as [Ls1 Dk1].
  wp_step. eapply get_block_wp; [rewrite (lstep_lg _ _ _ Ls1); by eapply la_lookup|]. rewrite Eb.
  assert (Hne : lb <> b) by (intros E; by rewrite E in Hin).
  wp_step. eapply (bread_wp ls i s1 me _ b); [exact Hat1| | |].
  { intros j. cbn [hold v_held rest_view]. rewrite lookup_insert. case_decide; [congruence|by rewrite lookup_empty]. }
  { destruct r; [right|left].
    - cbn [hold v_held v_pins rest_view]. rewrite map_size_insert_None, map_size_empty by done. lia.
    - destruct Hat1 as (_ & _ & _ & _ & _ & Hv1). by apply (bi_pins _ _ _ Hv1). }
  intros j2 s2 Hn2 _ St2 Hat2. destruct (lstep_bstep _ _ _ St2) as [Ls2 Dk2].
  cbn [hold v_held rest_view] in Hn2.
  assert (Hj : j1 <> j2) by (intros ->; by rewrite lookup_insert_eq in Hn2).
  assert (Hl1 : v_held (hold j2 b (hold j1 lb (rest_view L P D l))) !! j1 = Some lb)
    by (cbn [hold v_held]; by rewrite lookup_insert_ne, lookup_insert_eq).
  assert (Hl2 : v_held (hold j2 b (hold j1 lb (rest_view L P D l))) !! j2 = Some b)
    by (cbn [hold v_held]; by rewrite lookup_insert_eq).
  wp_step. eapply buf_data_wp; [exact Hat2|exact Hl1|]. cbn [hold v_data rest_view].
  wp_step. eapply set_buf_data_wp; [exact Hat2|exact Hl2| |].
  { destruct Hat2 as (_ & _ & _ & _ & _ & Hv2). apply (bi_size _ _ _ Hv2). }
  intros s3 St3 Hat3. destruct (lstep_bstep _ _ _ St3) as [Ls3 Dk3].
  wp_step. eapply bwrite_wp; [exact Hat3|exact Hl2|]. intros s4 Kf4 E4 Hat4.
  destruct (lstep_dsk _ _ _ _ Kf4 E4) as [Ls4 Dk4]. cbn [touch v_data] in Dk4. rewrite block_upd_eq in Dk4.
  assert (HbD : lb ∉ D) by (intros HD; eapply (Hlog lb); [by apply HDP|done]).
  wp_step. apply (wp_mono _ _ (fun _ s5 => bstep i s4 s5 /\ bio_at ls i s5 me
    (set_pins (pins_after r P b) (written b (touch b (L lb) (hold j2 b (hold j1 lb (rest_view L P D l)))))))).
  { destruct r; cbn [negb pins_after].
    - apply wp_ret. split; [split; [apply kframe_refl|by destruct (pfs s4)]|]. exact Hat4.
    - eapply bunpin_wp; [exact Hat4|exact Hl2|exact Hr|]. done. }
  intros [] s5 [St5 Hat5]. destruct (lstep_bstep _ _ _ St5) as [Ls5 Dk5].
  wp_step. eapply brelse_wp; [exact Hat5|exact Hl1|cbn; set_solver|].
  intros s6 St6 Hat6. destruct (lstep_bstep _ _ _ St6) as [Ls6 Dk6].
  eapply (brelse_wp ls i s6 me _ j2 b); [exact Hat6| |cbn; set_solver|].
  { cbn [unlock set_lru unhold v_held]. rewrite lookup_delete_ne by done. exact Hl2. }
  intros s7 St7 Hat7. destruct (lstep_bstep _ _ _ St7) as [Ls7 Dk7].
  destruct (install_view L P (pins_after r P b) D l j1 j2 lb b (L lb) Hj) as [l2 El2]. apply (HQ s7 l2).
  - do 6 (eapply lstep_trans; [eassumption|]). done.
  - congruence.
  - exact (bio_at_view _ _ _ _ _ _ Hat7 El2).
Qed.

Lemma log_installs_lookup start L blks k b :
  blks !! k = Some b -> log_installs start L blks !! k = Some (b, L (start + Z.of_nat k + 1)).
Proof. intros Hk. unfold log_installs. by rewrite list_lookup_imap, Hk. Qed.

(** The pins once the blocks [bs] are installed. *)
Definition pins_left (r : bool) (P : gset Z) (bs : list Z) : gset Z :=
  if r then P else P ∖ list_to_set bs.

Lemma pins_left_step r P bs b : pins_after r (pins_left r P bs) b = pins_left r P (bs ++ [b]).
Proof. destruct r; [done|]. cbn. rewrite list_to_set_app_L. set_solver. Qed.

Lemma install_loop_wp ls i me r L P D start blks m k s l (Q : unit -> kernel -> Prop) :
  (k + m = length blks)%nat -> NoDup blks ->
  bio_at ls i s me (rest_view (apply_writes L (take k (log_installs start L blks)))
    (pins_left r P (take k blks)) (D ∖ list_to_set (take k blks)) l) ->
  log_at (lg (pfs s)) start blks ->
  (if r then (S (size P) < nbuf)%nat else (size P < nbuf)%nat /\ (forall b, b ∈ blks -> b ∈ P)) ->
  D ⊆ P -> (forall b, b ∈ P -> ~ in_log start b) ->
  (forall s2 l2, lstep i s s2 ->
     dsk (pfs s2) = disk_writes (drop k (log_installs start L blks)) (dsk (pfs s)) ->
     bio_at ls i s2 me (rest_view (apply_writes L (log_installs start L blks))
       (pins_left r P blks) (D ∖ list_to_set blks) l2) -> Q tt s2) ->
  wp (install_loop r (seq k m)) s Q.
Proof.
  set (ws := log_installs start L blks). assert (Hws : length ws = length blks) by apply length_imap.
  intros Hkm Hnd Hat Hg HP HDP Hlog HQ. revert k s l Hkm Hat Hg HQ.
  assert (Hsub : forall bs, pins_left r P bs ⊆ P) by (intros bs; destruct r; cbn; set_solver).
  induction m as [|m IH]; intros k s l Hkm Hat Hg HQ; cbn [seq install_loop].
  { rewrite !take_ge in Hat by lia. apply wp_ret, (HQ s l); [apply lstep_refl| |done].
    rewrite drop_ge by lia. by destruct (dsk (pfs s)). }
  destruct (lookup_lt_is_Some_2 blks k) as [b Hb]; [lia|].
  destruct (la_block _ _ _ _ _ Hg Hb) as (_ & _ & _ & Hin & Hni & _).
  assert (HLb : apply_writes L (take k ws) (start + Z.of_nat k + 1) = L (start + Z.of_nat k + 1)).
  { apply apply_writes_out. intros Hx%take_fst_elem. unfold ws in Hx. rewrite log_installs_fst in Hx.
    by apply (home_not_in_log start blks _ (la_home _ _ _ Hg) Hx). }
  pose proof (log_installs_lookup start L blks k b Hb) as Hw. fold ws in Hw.
  assert (Hbt : b ∉ take k blks).
  { intros [j Hj]%list_elem_of_lookup. apply lookup_take_Some in Hj as [Hj Hjk].
    pose proof (NoDup_lookup _ _ _ _ Hnd Hj Hb). lia. }
  assert (Hsz : (size (pins_left r P (take k blks)) <= size P)%nat) by (apply subseteq_size, Hsub).
  wp_step. eapply (install_one_wp ls i s me _ _ _ l start blks k b r); [exact Hat|done|done| | | |set_solver|].
  { destruct r; lia. }
  { destruct r; [lia|]. cbn. rewrite elem_of_difference, elem_of_list_to_set. split; [|done].
    apply HP. by eapply list_elem_of_lookup_2. }
  { destruct r; cbn; set_solver. }
  rewrite HLb, pins_left_step, <- (take_S_r _ _ _ Hb). intros s2 l2 Ls2 Dk2 Hat2.
  apply (IH (S k) s2 l2); [lia| | |].
  - rewrite (take_S_r _ _ _ Hw), apply_writes_app. rewrite (take_S_r _ _ _ Hb) at 2.
    rewrite list_to_set_app_L. eapply bio_at_view; [exact Hat2|]. unfold rest_view. f_equal. set_solver.
  - by rewrite (lstep_lg _ _ _ Ls2).
  - intros s3 l3 Ls3 Dk3 Hat3. apply (HQ s3 l3); [by eapply lstep_trans| |done].
    rewrite Dk3, Dk2, disk_writes_one, disk_writes_app. by rewrite (drop_S _ _ _ Hw).
Qed.

(** ** commit *)

(** Only the cache, the disk and the log have changed. *)
Definition gstep (i : nat) s s' : Prop :=
  kframe i s s' /\
  pfs s' = set_bufs (bufs (pfs s')) (set_dsk (dsk (pfs s')) (set_lg (lg (pfs s')) (pfs s))).

Lemma gstep_trans i s1 s2 s3 : gstep i s1 s2 -> gstep i s2 s3 -> gstep i s1 s3.
Proof. intros [A B] [C D]. split; [by eapply kframe_trans|]. rewrite D, B. done. Qed.

Lemma gstep_lstep i s1 s2 : lstep i s1 s2 -> gstep i s1 s2.
Proof. intros [A B]. split; [done|]. rewrite B. by destruct (pfs s1). Qed.

Lemma ulog_wp s g (Q : unit -> kernel -> Prop) :
  Q tt (set_pfs (set_lg (g (lg (pfs s))) (pfs s)) s) -> wp (ulog g) s Q.
Proof. intros HQ. unfold ulog. by apply iomod_wp. Qed.

Lemma gstep_ulog i s g : gstep i s (set_pfs (set_lg g (pfs s)) s).
Proof. split; [apply kframe_pfs|]. by destruct (pfs s). Qed.

(** The invariant on the cache does not look at the log. *)
Lemma bio_inv_lg me f g v : bio_inv me f v -> bio_inv me (set_lg g f) v.
Proof. by intros [A1 A2 A3 A4 A5 A6 A7 A8 A9 A10]. Qed.

Lemma bio_at_ulog ls i s me v g : bio_at ls i s me v -> bio_at ls i (set_pfs (set_lg g (pfs s)) s) me v.
Proof.
  intros Hat. eapply bio_at_step; [exact Hat|apply kframe_pfs|]. apply bio_inv_lg. apply Hat.
Qed.

Lemma log_at_clear g start blks : log_at g start blks -> log_at (set_lh_n 0 g) start [].
Proof. intros [A1 A2 A3 A4 A5 A6 A7 A8]. split; try done. unfold logsize. simpl. lia. Qed.

Lemma copies_out start L blks b :
  (length blks < logsize)%nat -> ~ in_log start b \/ b = start ->
  apply_writes L (log_copies start L blks) b = L b.
Proof.
  intros Hl Hb. apply apply_writes_out. intros Hx. apply log_copies_fst in Hx as [? ?]; [|done]. tauto.
Qed.

(** The installs of a commit copy the new contents. *)
Lemma installs_home start L blks :
  (length blks < logsize)%nat -> length (L start) = bsize ->
  log_installs start (apply_writes L (log_copies start L blks ++ [(start, put_head (L start) blks)])) blks
  = home_writes L blks.
Proof.
  intros Hl Hs. unfold log_installs, home_writes. apply list_eq. intros k.
  rewrite list_lookup_fmap, list_lookup_imap. destruct (blks !! k) as [b|] eqn:E; [|done].
  simpl. do 2 f_equal. by apply (committed_log start L L blks).
Qed.

Lemma commit_wp ls i s me L P D l start blks (Q : unit -> kernel -> Prop) :
  bio_at ls i s me (rest_view L P D l) -> log_at (lg (pfs s)) start blks -> NoDup blks -> blks <> [] ->
  P = list_to_set blks -> D ⊆ P ->
  (forall s2 l2, gstep i s s2 -> lg (pfs s2) = set_lh_n 0 (lg (pfs s)) ->
     dsk (pfs s2) = disk_writes (commit_writes start L blks) (dsk (pfs s)) ->
     bio_at ls i s2 me (rest_view (apply_writes L (commit_writes start L blks)) ∅ ∅ l2) -> Q tt s2) ->
  wp commit s Q.
Proof.
  intros Hat Hg Hnd Hne HP HDP HQ. pose proof (la_max _ _ _ Hg) as Hmax.
  assert (HPlog : forall b, b ∈ P -> ~ in_log start b).
  { intros b Hb. subst P. apply elem_of_list_to_set in Hb. by eapply home_not_in_log; [apply (la_home _ _ _ Hg)|]. }
  assert (HPsz : (size P < nbuf)%nat).
  { subst P. rewrite size_list_to_set by done. unfold nbuf, logsize in *. lia. }
  assert (Hstart : start ∉ D) by (intros Hs; by eapply (HPlog start); [apply HDP|apply start_in_log]).
  assert (Hsize : length (L start) = bsize) by (apply (bi_size me (pfs s) (rest_view L P D l)); apply Hat).
  unfold commit. wp_step. apply glog_wp. rewrite (la_n _ _ _ Hg), (proj2 (Z.ltb_lt _ _)) by (destruct blks; simpl in *; lia || done).
  wp_step. unfold write_log. wp_step. apply glog_wp. rewrite (la_n _ _ _ Hg), Nat2Z.id.
  eapply (write_log_loop_wp ls i me L P D start blks _ 0 s l); [done|exact Hat|done| |done|done|done|].
  { intros b Hb. subst P. by apply elem_of_list_to_set. }
  intros s1 l1 Ls1 Dk1 Hat1. rewrite drop_0 in Dk1.
  assert (Hg1 : log_at (lg (pfs s1)) start blks) by (by rewrite (lstep_lg _ _ _ Ls1)).
  wp_step. eapply (write_head_wp ls i s1 me _ P D l1 start blks); [exact Hat1|done|done|done|].
  rewrite copies_out by auto. intros s2 l2 Ls2 Dk2 Hat2.
  assert (Hg2 : log_at (lg (pfs s2)) start blks) by (by rewrite (lstep_lg _ _ _ Ls2)).
  set (L2 := apply_writes L (log_copies start L blks ++ [(start, put_head (L start) blks)])).
  assert (EL2 : block_upd (apply_writes L (log_copies start L blks)) start (put_head (L start) blks) = L2)
    by (unfold L2; by rewrite apply_writes_app).
  rewrite EL2 in Hat2. wp_step. unfold install_trans. wp_step. apply glog_wp. rewrite (la_n _ _ _ Hg2), Nat2Z.id.
  eapply (install_loop_wp ls i me false L2 P D start blks _ 0 s2 l2); [done|done| |done| |done|done|].
  { rewrite !take_0. cbn [pins_left]. rewrite list_to_set_nil, !difference_empty_L. exact Hat2. }
  { split; [done|]. intros b Hb. subst P. by apply elem_of_list_to_set. }
  assert (Hins : log_installs start L2 blks = home_writes L blks) by (by apply installs_home).
  rewrite drop_0, Hins. intros s3 l3 Ls3 Dk3 Hat3. cbn [pins_left] in Hat3.
  replace (P ∖ list_to_set blks) with (∅ : gset Z) in Hat3 by (subst P; set_solver).
  replace (D ∖ list_to_set blks) with (∅ : gset Z) in Hat3 by (subst P; set_solver).
  assert (Hg3 : log_at (lg (pfs s3)) start blks) by (by rewrite (lstep_lg _ _ _ Ls3)).
  wp_step. apply ulog_wp. set (s4 := set_pfs _ s3).
  assert (Hg4 : log_at (lg (pfs s4)) start []) by (by apply log_at_clear with blks).
  eapply (write_head_wp ls i s4 me _ ∅ ∅ l3 start []).
  { apply bio_at_ulog. exact Hat3. } { done. } { rewrite size_empty. unfold nbuf. lia. } { set_solver. }
  intros s5 l5 Ls5 Dk5 Hat5.
  assert (EL3 : apply_writes L2 (home_writes L blks) start = put_head (L start) blks).
  { rewrite apply_writes_home, decide_False.
    - apply (committed_start start L L blks).
    - intros Hs. eapply home_not_in_log; [apply (la_home _ _ _ Hg)|exact Hs|apply start_in_log]. }
  rewrite EL3 in Dk5, Hat5. apply (HQ s5 l5).
  - eapply gstep_trans; [by apply gstep_lstep|]. eapply gstep_trans; [by apply gstep_lstep|].
    eapply gstep_trans; [by apply gstep_lstep|]. eapply gstep_trans; [apply gstep_ulog|by apply gstep_lstep].
  - rewrite (lstep_lg _ _ _ Ls5). cbn [s4 lg pfs set_pfs set_lg].
    by rewrite (lstep_lg _ _ _ Ls3), (lstep_lg _ _ _ Ls2), (lstep_lg _ _ _ Ls1).
  - rewrite Dk5. cbn [s4 dsk pfs set_pfs set_lg]. rewrite Dk3, Dk2, Dk1, !disk_writes_one, !disk_writes_app.
    done.
  - unfold commit_writes. rewrite app_assoc, (apply_writes_app L _ (home_writes L blks ++ _)).
    rewrite (apply_writes_app _ (home_writes L blks)). exact Hat5.
Qed.

End Spec.
