(* ===== verification/LogRecover.v ===== *)
(** * Recovery, and operations on the log

    [recover_from_log] gives a disk the contents it means; [begin_op],
    [log_write] and [end_op] as seen by the file system: [in_tx] is a process
    inside an operation, with [n] blocks logged and room for more. *)

From S2P Require Import Prelude Riscv Mem Spinlock Proc ProcSpec IoState SleepLock Bio BioSpec Bytes.
From S2P Require Import Log LogDisk LogSpec.

Section Recover.
Context `{Linker}.
Implicit Types (s : kernel) (ls : list lockid).

(** ** read_head *)

Lemma read_head_loop_wp d m k s (Q : unit -> kernel -> Prop) :
  length (lh_block (lg (pfs s))) = logsize -> (k + m <= logsize)%nat ->
  (forall bl, length bl = logsize ->
     (forall j, bl !! j = if decide (k <= j < k + m)%nat then Some (i32 (get_le 4 d (4 + 4 * j)))
                          else lh_block (lg (pfs s)) !! j) ->
     Q tt (set_pfs (set_lg (set_lh_block bl (lg (pfs s))) (pfs s)) s)) ->
  wp (read_head_loop d (seq k m)) s Q.
Proof.
  revert k s. induction m as [|m IH]; intros k s Hlen Hkm HQ; cbn [seq read_head_loop].
  { apply wp_ret. specialize (HQ (lh_block (lg (pfs s))) Hlen). destruct s as [? ? ? ? ? ? f].
    destruct f as [? ? [] ? ? ? ? ? ? ? ?]. apply HQ. intros j. case_decide; [lia|done]. }
  destruct (lookup_lt_is_Some_2 (lh_block (lg (pfs s))) k) as [b Hb]; [lia|].
  wp_step. unfold set_block. wp_step. eapply get_block_wp; [exact Hb|]. apply ulog_wp.
  apply IH; cbn [lg pfs set_pfs set_lg lh_block set_lh_block].
  - by rewrite length_insert.
  - lia.
  - intros bl Hbl Hlk. apply (HQ bl Hbl). intros j. rewrite Hlk.
    destruct (decide (k = j)) as [->|Hne].
    + rewrite list_lookup_insert_eq by lia. repeat case_decide; try lia; done.
    + rewrite list_lookup_insert_ne by done. repeat case_decide; try lia; done.
Qed.

Lemma read_head_wp ls i s me L P D l start (Q : unit -> kernel -> Prop) :
  bio_at ls i s me (rest_view L P D l) -> lg_dev (lg (pfs s)) = ROOTDEV -> lg_start (lg (pfs s)) = start ->
  0 <= start < 2 ^ 31 - 64 -> length (lh_block (lg (pfs s))) = logsize -> head_ok start (L start) ->
  (size P < nbuf)%nat -> start ∉ D ->
  (forall s2 l2, gstep i s s2 -> dsk (pfs s2) = dsk (pfs s) -> log_at (lg (pfs s2)) start (head_of (L start)) ->
     bio_at ls i s2 me (rest_view L P D l2) -> Q tt s2) ->
  wp read_head s Q.
Proof.
  intros Hat Hdev Hstart Hrange Hlen Hok HP HD HQ. unfold read_head. wp_step. apply glog_wp. wp_step. apply glog_wp.
  rewrite Hdev, Hstart. change (u32 ROOTDEV) with ROOTDEV. rewrite (u32_small start) by lia.
  wp_step. eapply (bread_wp ls i s me _ start); [exact Hat|done|right; cbn [rest_view v_held v_pins]; rewrite map_size_empty; lia|].
  intros j s1 Hn1 _ St1 Hat1. destruct (lstep_bstep _ _ _ St1) as [Ls1 Dk1].
  assert (Eg1 : lg (pfs s1) = lg (pfs s)) by (apply (lstep_lg _ _ _ Ls1)).
  wp_step. eapply buf_data_wp; [exact Hat1|by apply lookup_insert_eq|]. cbn [hold v_data rest_view].
  fold (head_n (L start)). wp_step. apply ulog_wp. set (s2 := set_pfs _ s1).
  wp_step. apply glog_wp. cbn [s2 lg pfs set_pfs set_lg lh_n set_lh_n].
  pose proof (head_ok_len _ _ Hok) as Hhl. destruct Hok as (Hd & Hn & Hh).
  assert (Hnl : length (head_of (L start)) = Z.to_nat (head_n (L start)))
    by (unfold head_of; by rewrite length_fmap, length_seq).
  wp_step. apply read_head_loop_wp; cbn [s2 lg pfs set_pfs set_lg lh_block set_lh_n].
  { by rewrite Eg1. } { lia. }
  intros bl Hbl Hlk. set (s3 := set_pfs _ s2).
  assert (Hat3 : bio_at ls i s3 me (hold j start (rest_view L P D l))).
  { apply (bio_at_ulog ls i s2), (bio_at_ulog ls i s1), Hat1. }
  eapply brelse_wp; [exact Hat3|by apply lookup_insert_eq|cbn; set_solver|].
  intros s4 St4 Hat4. destruct (lstep_bstep _ _ _ St4) as [Ls4 Dk4].
  destruct (unlock_view L P D (<[j := start]> ∅) l j start) as [l2 El2].
  rewrite delete_insert_eq, delete_empty in El2. apply (HQ s4 l2).
  - eapply gstep_trans; [by apply gstep_lstep|]. eapply gstep_trans; [apply (gstep_ulog i s1)|].
    eapply gstep_trans; [apply (gstep_ulog i s2)|by apply gstep_lstep].
  - by rewrite Dk4.
  - rewrite (lstep_lg _ _ _ Ls4). cbn [s3 s2 lg pfs set_pfs set_lg]. rewrite Eg1.
    split; cbn [lg_dev lg_start lh_n lh_block set_lh_block set_lh_n]; try done; [lia|].
    rewrite Hnl. apply list_eq. intros q. rewrite lookup_take. unfold head_of at 1.
    rewrite list_lookup_fmap. case_decide as Hq.
    + rewrite Hlk, decide_True by lia. by rewrite lookup_seq_lt by done.
    + by rewrite lookup_seq_ge by lia.
  - exact (bio_at_view _ _ _ _ _ _ Hat4 El2).
Qed.

(** [recover_from_log] on a clean cache. *)
Lemma recover_wp ls i s me D l start (Q : unit -> kernel -> Prop) :
  bio_at ls i s me (rest_view D ∅ ∅ l) -> lg_dev (lg (pfs s)) = ROOTDEV -> lg_start (lg (pfs s)) = start ->
  0 <= start < 2 ^ 31 - 64 -> length (lh_block (lg (pfs s))) = logsize -> head_ok start (D start) ->
  NoDup (head_of (D start)) ->
  (forall s2 l2, gstep i s s2 -> dsk (pfs s2) = disk_writes (recover_writes start D) (dsk (pfs s)) ->
     log_at (lg (pfs s2)) start [] ->
     bio_at ls i s2 me (rest_view (apply_writes D (recover_writes start D)) ∅ ∅ l2) -> Q tt s2) ->
  wp recover_from_log s Q.
Proof.
  intros Hat Hdev Hstart Hrange Hlen Hok Hnd HQ. unfold recover_from_log. wp_step.
  assert (H0 : (size (∅ : gset Z) < nbuf)%nat) by (rewrite size_empty; unfold nbuf; lia).
  eapply (read_head_wp ls i s me D ∅ ∅ l start); [exact Hat|done|done|done|done|done|done|set_solver|].
  intros s1 l1 Gs1 Dk1 Hg1 Hat1. wp_step. unfold install_trans. wp_step. apply glog_wp.
  rewrite (la_n _ _ _ Hg1), Nat2Z.id.
  eapply (install_loop_wp ls i me true D ∅ ∅ start (head_of (D start)) _ 0 s1 l1); [done|done| |done| |done|set_solver|].
  { rewrite !take_0, list_to_set_nil, difference_empty_L. exact Hat1. }
  { rewrite size_empty. unfold nbuf. lia. }
  intros s2 l2 Ls2 Dk2 Hat2. rewrite drop_0 in Dk2. cbn [pins_left] in Hat2.
  replace (∅ ∖ list_to_set (head_of (D start))) with (∅ : gset Z) in Hat2 by set_solver.
  assert (Hg2 : log_at (lg (pfs s2)) start (head_of (D start))) by (by rewrite (lstep_lg _ _ _ Ls2)).
  wp_step. apply ulog_wp. set (s3 := set_pfs _ s2).
  assert (Hg3 : log_at (lg (pfs s3)) start []) by (by apply log_at_clear with (head_of (D start))).
  eapply (write_head_wp ls i s3 me _ ∅ ∅ l2 start []); [by apply bio_at_ulog|done|done|set_solver|].
  intros s4 l4 Ls4 Dk4 Hat4.
  assert (ED : apply_writes D (log_installs start D (head_of (D start))) start = D start).
  { apply apply_writes_out. rewrite log_installs_fst. intros Hs. destruct Hok as (_ & _ & Hh).
    eapply home_not_in_log; [exact Hh|exact Hs|apply start_in_log]. }
  rewrite ED in Dk4, Hat4. apply (HQ s4 l4).
  - eapply gstep_trans; [exact Gs1|]. eapply gstep_trans; [by apply gstep_lstep|].
    eapply gstep_trans; [apply (gstep_ulog i s2)|by apply gstep_lstep].
  - rewrite Dk4. cbn [s3 dsk pfs set_pfs set_lg]. by rewrite Dk2, Dk1, disk_writes_one, disk_writes_app.
  - by rewrite (lstep_lg _ _ _ Ls4).
  - unfold recover_writes. rewrite apply_writes_app. exact Hat4.
Qed.

(** ** Inside an operation *)

(** The blocks [blks] are logged and pinned; [n] operations are outstanding. *)
Record in_tx ls i s me v (start : Z) (blks : list Z) (n : Z) : Prop := InTx {
  tx_at : bio_at ls i s me v;
  tx_log : log_at (lg (pfs s)) start blks;
  tx_nodup : NoDup blks;
  tx_pins : v_pins v = list_to_set blks;
  tx_out : outstanding (lg (pfs s)) = n;
  tx_outrange : 0 <= n <= 3;
  tx_committing : committing (lg (pfs s)) = 0;
  tx_size : lg_size (lg (pfs s)) = LOGSIZE;
  tx_free : LogLock ∉ ls;
}.

(** Log [b]: at most one entry per block. *)
Definition logged (blks : list Z) (b : Z) : list Z := if decide (b ∈ blks) then blks else blks ++ [b].

Lemma absorb_wp ixs b last s (Q : nat -> kernel -> Prop) :
  (forall k, k ∈ ixs -> exists x, lh_block (lg (pfs s)) !! k = Some x) ->
  (forall k x, k ∈ ixs -> lh_block (lg (pfs s)) !! k = Some x -> u32 x = b -> Q k s) ->
  ((forall k x, k ∈ ixs -> lh_block (lg (pfs s)) !! k = Some x -> u32 x <> b) -> Q last s) ->
  wp (absorb ixs b last) s Q.
Proof.
  induction ixs as [|k ixs IH]; intros Hin HS HN; cbn [absorb].
  { apply wp_ret, HN. intros k x Hk. by apply elem_of_nil in Hk. }
  destruct (Hin k) as [x Hx]; [left|]. wp_step. apply (get_block_wp s k x); [done|].
  destruct (Z.eqb_spec (u32 x) b) as [E|E].
  - apply wp_ret. apply (HS k x); [left|done|done].
  - apply IH.
    + intros j Hj. apply Hin. by right.
    + intros j y Hj. apply HS. by right.
    + intros Hall. apply HN. intros j y [->|Hj]%elem_of_cons Hy; [congruence|by apply (Hall j y)].
Qed.

Lemma set_lg_twice f g g' : set_lg g (set_lg g' f) = set_lg g f.
Proof. done. Qed.

Lemma take_insert_snoc (l : list Z) n b blks :
  take n l = blks -> (n < length l)%nat -> n = length blks -> take (S n) (<[n := b]> l) = blks ++ [b].
Proof.
  intros Ht Hl Hn. erewrite take_S_r by (by apply list_lookup_insert_eq). by rewrite take_insert_ge by lia; rewrite Ht.
Qed.

Lemma insert_same_block g start blks k b :
  log_at g start blks -> blks !! k = Some b -> set_lh_block (<[k := b]> (lh_block g)) g = g.
Proof.
  intros Hg Hk. rewrite list_insert_id by (by eapply la_lookup). by destruct g.
Qed.

Lemma log_at_add g start blks b :
  log_at g start blks -> home start b -> (S (length blks) < logsize)%nat ->
  log_at (set_lh_n (Z.of_nat (length blks) + 1) (set_lh_block (<[length blks := b]> (lh_block g)) g)) start (blks ++ [b]).
Proof.
  intros Hg Hh Hl. destruct Hg as [A1 A2 A3 A4 A5 A6 A7 A8].
  split; cbn [lg_dev lg_start lh_n lh_block set_lh_n set_lh_block]; try done.
  - rewrite length_app. simpl. lia.
  - by rewrite length_insert.
  - rewrite length_app. simpl. replace (length blks + 1)%nat with (S (length blks)) by lia.
    apply take_insert_snoc; [done|lia|done].
  - apply Forall_app. split; [done|]. by constructor.
  - rewrite length_app. simpl. lia.
Qed.

(** Taking the lock of the log. *)
Lemma bio_at_inside ls i s s1 me v :
  bio_at ls i s me v -> (length ls < 6)%nat -> kready (LogLock :: ls) i s1 -> inside LogLock i s s1 ->
  pfs s1 = pfs s -> bio_at (LogLock :: ls) i s1 me v.
Proof.
  intros (A1 & A2 & A3 & A4 & A5 & A6) Hl Hr [_ (_ & Ep & _)] E. split_and!; try done.
  - by rewrite not_elem_of_cons.
  - intros a. by rewrite not_elem_of_cons.
  - simpl. lia.
  - unfold cur_pid in *. by rewrite Ep.
  - by rewrite E.
Qed.

Lemma logged_set blks b : {[b]} ∪ list_to_set blks = (list_to_set (logged blks b) : gset Z).
Proof. unfold logged. case_decide; [set_solver|]. rewrite list_to_set_app_L. set_solver. Qed.

Lemma logged_nodup blks b : NoDup blks -> NoDup (logged blks b).
Proof.
  intros Hnd. unfold logged. case_decide; [done|]. apply NoDup_app. split_and!; [done|set_solver|].
  apply NoDup_singleton.
Qed.

(** The end of [log_write]: the lock is given back. *)
Lemma log_unlock_wp ls i s s1 me v v' start blks blks' n (Q : unit -> kernel -> Prop) :
  in_tx ls i s me v start blks n -> inside LogLock i s s1 ->
  pfs s1 = set_bufs (bufs (pfs s1)) (set_lg (lg (pfs s1)) (pfs s)) ->
  bio_inv me (pfs s1) v' -> log_at (lg (pfs s1)) start blks' -> NoDup blks' -> v_pins v' = list_to_set blks' ->
  outstanding (lg (pfs s1)) = n -> committing (lg (pfs s1)) = 0 -> lg_size (lg (pfs s1)) = LOGSIZE ->
  (forall s2, gstep i s s2 -> dsk (pfs s2) = dsk (pfs s) -> in_tx ls i s2 me v' start blks' n -> Q tt s2) ->
  wp (inlk (release LogLock)) s1 Q.
Proof.
  intros Htx Hin E1 Hv Hg Hnd Hp Ho Hc Hsz HQ. pose proof (tx_at _ _ _ _ _ _ _ _ Htx) as Hat.
  eapply (k_rel ls i s); [apply Hat|apply (tx_free _ _ _ _ _ _ _ _ Htx)|done|]. intros s2 Hk2 E2. apply HQ.
  - split; [done|]. rewrite E2, E1. by destruct (pfs s).
  - rewrite E2, E1. done.
  - split; rewrite ?E2; try done; try apply Htx. eapply bio_at_step; [done|done|]. by rewrite E2.
Qed.

(** [log_record] at an index that holds the block already. *)
Lemma log_absorbed_wp ls i s s1 me v start blks n j b k (Q : unit -> kernel -> Prop) :
  in_tx ls i s me v start blks n -> inside LogLock i s s1 -> pfs s1 = pfs s -> i32 b = b -> blks !! k = Some b ->
  (forall s2, gstep i s s2 -> dsk (pfs s2) = dsk (pfs s) ->
     in_tx ls i s2 me (set_pins (list_to_set (logged blks b)) v) start (logged blks b) n -> Q tt s2) ->
  wp (log_record j k b (Z.of_nat (length blks))) s1 Q.
Proof.
  intros Htx Hin1 E1 Eb Hk HQ. pose proof Htx as [Hat Hg Hnd Hp Ho Hor Hc Hsz Hfr].
  pose proof (la_lookup _ _ _ _ _ Hg Hk) as Hy. pose proof (lookup_lt_Some _ _ _ Hk) as Hkl.
  unfold log_record. wp_step. unfold set_block. wp_step. eapply get_block_wp; [rewrite E1; exact Hy|]. apply ulog_wp.
  rewrite E1, Eb, (insert_same_block _ _ _ _ _ Hg Hk), (proj2 (Z.eqb_neq _ _)) by lia. do 2 wp_step.
  eapply (log_unlock_wp ls i s _ me v (set_pins (list_to_set (logged blks b)) v) start blks (logged blks b) n);
    [exact Htx| | | | |by apply logged_nodup|done|done|done|done|exact HQ].
  - eapply inside_frame; [apply Hat|done|apply kframe_pfs].
  - cbn [pfs set_pfs]. by destruct (pfs s).
  - cbn [pfs set_pfs]. rewrite <- logged_set, <- Hp. apply bio_inv_lg.
    replace ({[b]} ∪ v_pins v) with (v_pins v).
    + destruct v. apply Hat.
    + rewrite Hp. apply list_elem_of_lookup_2 in Hk. set_solver.
  - unfold logged. rewrite decide_True; [done|]. by eapply list_elem_of_lookup_2.
Qed.

(** [log_record] at the end of the header. *)
Lemma log_added_wp ls i s s1 me v start blks n j b (Q : unit -> kernel -> Prop) :
  in_tx ls i s me v start blks n -> (length ls < 6)%nat -> inside LogLock i s s1 -> kready (LogLock :: ls) i s1 ->
  pfs s1 = pfs s -> home start b -> b ∉ blks -> v_held v !! j = Some b -> (S (length blks) < logsize)%nat ->
  (forall s2, gstep i s s2 -> dsk (pfs s2) = dsk (pfs s) ->
     in_tx ls i s2 me (set_pins (list_to_set (logged blks b)) v) start (logged blks b) n -> Q tt s2) ->
  wp (log_record j (length blks) b (Z.of_nat (length blks))) s1 Q.
Proof.
  intros Htx Hls Hin1 Hr1 E1 Hhome Hout Hh Hroom HQ. pose proof Htx as [Hat Hg Hnd Hp Ho Hor Hc Hsz Hfr].
  pose proof (bio_at_inside ls i s s1 me v Hat Hls Hr1 Hin1 E1) as Hat1.
  assert (Eb : i32 b = b) by (apply i32_small; destruct Hhome; lia).
  destruct (lookup_lt_is_Some_2 (lh_block (lg (pfs s))) (length blks)) as [y Hy]; [rewrite (la_len _ _ _ Hg); lia|].
  unfold log_record. wp_step. unfold set_block. wp_step. eapply get_block_wp; [rewrite E1; exact Hy|]. apply ulog_wp.
  rewrite E1, Eb, Z.eqb_refl. do 2 wp_step.
  set (g1 := set_lh_block (<[length blks := b]> (lh_block (lg (pfs s)))) (lg (pfs s))). set (s2 := set_pfs _ s1).
  assert (Hat2 : bio_at (LogLock :: ls) i s2 me v).
  { pose proof (bio_at_ulog (LogLock :: ls) i s1 me v g1 Hat1) as Hx2. rewrite E1 in Hx2. exact Hx2. }
  eapply bpin_wp; [exact Hat2|exact Hh|rewrite Hp; by rewrite elem_of_list_to_set|].
  intros s3 [K3 E3] Hat3. apply ulog_wp.
  assert (El : logged blks b = blks ++ [b]) by (unfold logged; by rewrite decide_False).
  assert (Eg3 : lg (pfs s3) = g1) by (by rewrite E3).
  rewrite Eg3, i32_small by (unfold logsize in *; lia).
  eapply (log_unlock_wp ls i s _ me v (set_pins (list_to_set (logged blks b)) v) start blks (logged blks b) n);
    [exact Htx| | | | |by apply logged_nodup|done|done|done|done|exact HQ].
  - eapply inside_frame; [apply Hat|done|]. eapply kframe_trans; [apply (kframe_pfs i s1)|].
    eapply kframe_trans; [exact K3|apply kframe_pfs].
  - cbn [pfs set_pfs]. rewrite E3. cbn [s2 pfs set_pfs]. by destruct (pfs s).
  - cbn [pfs set_pfs]. rewrite <- logged_set, <- Hp. apply bio_inv_lg. apply Hat3.
  - cbn [pfs set_pfs]. rewrite El. by apply log_at_add.
Qed.

Lemma log_write_wp ls i s me v start blks n j b (Q : unit -> kernel -> Prop) :
  in_tx ls i s me v start blks n -> (length ls < 6)%nat -> 1 <= n ->
  v_held v !! j = Some b -> home start b -> (S (length blks) < logsize)%nat ->
  (forall s2, gstep i s s2 -> dsk (pfs s2) = dsk (pfs s) ->
     in_tx ls i s2 me (set_pins (list_to_set (logged blks b)) v) start (logged blks b) n -> Q tt s2) ->
  wp (log_write j) s Q.
Proof.
  intros Htx Hls Hn Hh Hhome Hroom HQ. pose proof Htx as [Hat Hg Hnd Hp Ho Hor Hc Hsz Hfr].
  unfold log_write. wp_step. eapply (k_acq ls i); [apply Hat|done|lia|done|]. intros s1 Hin1 Hr1 E1.
  pose proof (bio_at_inside ls i s s1 me v Hat Hls Hr1 Hin1 E1) as Hat1.
  assert (Hv1 : bio_inv me (pfs s1) v) by apply Hat1.
  wp_step. apply glog_wp. wp_step. apply glog_wp. rewrite E1, Hsz, (la_n _ _ _ Hg).
  rewrite (proj2 (Z.leb_gt _ _)) by (unfold LOGSIZE, MAXOPBLOCKS, logsize in *; lia).
  rewrite (proj2 (Z.leb_gt (LOGSIZE - 1) _)) by (unfold LOGSIZE, MAXOPBLOCKS, logsize in *; lia). cbn [orb].
  wp_step. apply glog_wp. rewrite E1, Ho, (proj2 (Z.ltb_ge _ _)) by lia.
  destruct (held_buf me (pfs s1) v j b Hv1 Hh) as (_ & x & Hx & _ & Hbn & _).
  wp_step. apply (getb_wp s1 j x); [done|]. rewrite Hbn, Nat2Z.id. wp_step. apply absorb_wp.
  - intros k [_ Hk]%elem_of_seq. apply lookup_lt_is_Some_2. rewrite E1, (la_len _ _ _ Hg). unfold logsize in *. lia.
  - intros k y [_ Hk]%elem_of_seq Hy Ey. rewrite E1 in Hy.
    destruct (lookup_lt_is_Some_2 blks k) as [b' Hb']; [lia|].
    destruct (la_block _ _ _ _ _ Hg Hb') as (Eb' & _). pose proof (la_lookup _ _ _ _ _ Hg Hb') as Hy'.
    rewrite Hy in Hy'. injection Hy' as ->. rewrite Eb' in Ey. subst b'.
    eapply log_absorbed_wp; try done. apply i32_small. destruct Hhome; lia.
  - intros Hno. eapply log_added_wp; try done. intros [k Hk]%list_elem_of_lookup.
    pose proof (lookup_lt_Some _ _ _ Hk). destruct (la_block _ _ _ _ _ Hg Hk) as (Eb' & _).
    apply (Hno k b); [apply elem_of_seq; lia| |done]. rewrite E1. by eapply la_lookup.
Qed.

(** ** begin_op and end_op *)

Lemma log_at_same g g' start blks :
  lg_dev g' = lg_dev g -> lg_start g' = lg_start g -> lh_n g' = lh_n g -> lh_block g' = lh_block g ->
  log_at g start blks -> log_at g' start blks.
Proof. intros E1 E2 E3 E4 [A1 A2 A3 A4 A5 A6 A7 A8]. split; congruence. Qed.

Lemma begin_op_wp ls i s me v start blks n (Q : unit -> kernel -> Prop) :
  in_tx ls i s me v start blks n -> (length ls < 6)%nat ->
  Z.of_nat (length blks) + (n + 1) * MAXOPBLOCKS <= LOGSIZE ->
  (forall s2, gstep i s s2 -> dsk (pfs s2) = dsk (pfs s) -> in_tx ls i s2 me v start blks (n + 1) -> Q tt s2) ->
  wp begin_op s Q.
Proof.
  intros Htx Hls Hroom HQ. pose proof Htx as [Hat Hg Hnd Hp Ho Hor Hc Hsz Hfr].
  unfold begin_op. wp_step. eapply (k_acq ls i); [apply Hat|done|lia|done|]. intros s1 Hin1 Hr1 E1.
  wp_step. apply glog_wp. rewrite E1, Hc. cbn [ctrue Z.eqb negb].
  wp_step. apply glog_wp. wp_step. apply glog_wp. rewrite E1, Ho, (la_n _ _ _ Hg), (proj2 (Z.ltb_ge _ _)) by lia.
  wp_step. apply ulog_wp. rewrite E1. unfold LOGSIZE, MAXOPBLOCKS in *.
  eapply (k_rel ls i s); [apply Hat|done| |].
  { eapply inside_frame; [apply Hat|done|apply kframe_pfs]. }
  intros s2 Hk2 E2. cbn [pfs set_pfs] in E2. apply HQ.
  - split; [done|]. rewrite E2. by destruct (pfs s).
  - by rewrite E2.
  - split; rewrite ?E2; try done.
    + eapply bio_at_step; [done|done|]. rewrite E2. apply bio_inv_lg. apply Hat.
    + by eapply log_at_same; [| | | |exact Hg].
    + cbn. apply i32_small. lia.
    + lia.
Qed.

(** [end_op] while other operations are outstanding. *)
Lemma end_op_wp ls i s me v start blks n (Q : unit -> kernel -> Prop) :
  in_tx ls i s me v start blks n -> (length ls < 6)%nat -> 1 < n ->
  (forall s2, gstep i s s2 -> dsk (pfs s2) = dsk (pfs s) -> in_tx ls i s2 me v start blks (n - 1) -> Q tt s2) ->
  wp end_op s Q.
Proof.
  intros Htx Hls Hn HQ. pose proof Htx as [Hat Hg Hnd Hp Ho Hor Hc Hsz Hfr].
  unfold end_op. wp_step. eapply (k_acq ls i); [apply Hat|done|lia|done|]. intros s1 Hin1 Hr1 E1.
  wp_step. apply glog_wp. wp_step. apply ulog_wp. rewrite E1, Ho, i32_small by lia. set (s2 := set_pfs _ s1).
  assert (K2 : kframe i s1 s2) by apply kframe_pfs.
  wp_step. apply glog_wp. cbn [s2 lg pfs set_pfs set_lg committing set_outstanding]. rewrite Hc. cbn [ctrue Z.eqb negb].
  wp_step. apply glog_wp. cbn [s2 lg pfs set_pfs set_lg outstanding set_outstanding].
  rewrite (proj2 (Z.eqb_neq _ _)) by lia. do 2 wp_step.
  eapply k_wakeup; [by eapply kready_frame|]. intros s3 K3 E3. do 2 wp_step.
  eapply (k_rel ls i s); [apply Hat|done| |].
  { eapply inside_frame; [apply Hat|done|exact (kframe_trans i s1 s2 s3 K2 K3)]. }
  intros s4 K4 E4. rewrite E3 in E4. cbn [s2 pfs set_pfs] in E4. wp_step. apply HQ.
  - split; [done|]. rewrite E4. by destruct (pfs s).
  - by rewrite E4.
  - split; rewrite ?E4; try done; [|by eapply log_at_same; [| | | |exact Hg]|lia].
    eapply bio_at_step; [done|done|]. rewrite E4. apply bio_inv_lg. apply Hat.
Qed.

(** The writes of the [end_op] that ends the last operation. *)
Definition end_writes (start : Z) (L : blocks) (blks : list Z) : bwrites :=
  if decide (blks = []) then [] else commit_writes start L blks.

(** [commit], also when nothing was logged. *)
Lemma commit_any_wp ls i s me L P D l start blks (Q : unit -> kernel -> Prop) :
  bio_at ls i s me (rest_view L P D l) -> log_at (lg (pfs s)) start blks -> NoDup blks ->
  P = list_to_set blks ->
  (forall s2 l2, gstep i s s2 -> lg (pfs s2) = set_lh_n 0 (lg (pfs s)) ->
     dsk (pfs s2) = disk_writes (end_writes start L blks) (dsk (pfs s)) ->
     bio_at ls i s2 me (rest_view (apply_writes L (end_writes start L blks)) ∅ ∅ l2) -> Q tt s2) ->
  wp commit s Q.
Proof.
  intros Hat Hg Hnd HP HQ. assert (HDP : D ⊆ P).
  { intros b Hb. assert (Hv : bio_inv me (pfs s) (rest_view L P D l)) by apply Hat.
    destruct (bi_dirty _ _ _ Hv b Hb) as [?|[k Hk]]; [done|]. cbn in Hk. by rewrite lookup_empty in Hk. }
  unfold end_writes in HQ. destruct (decide (blks = [])) as [->|Hne]; [|by eapply commit_wp].
  unfold commit. wp_step. apply glog_wp. rewrite (la_n _ _ _ Hg). apply wp_ret. subst P.
  assert (D = ∅) as -> by set_solver. apply (HQ s l).
  - split; [apply kframe_refl|]. by destruct (pfs s).
  - pose proof (la_n _ _ _ Hg) as Hn. simpl in Hn. destruct (lg (pfs s)); simpl in *. by subst.
  - by destruct (dsk (pfs s)).
  - exact Hat.
Qed.

(** The last [end_op] commits. *)
Lemma end_op_last_wp ls i s me L P D l start blks (Q : unit -> kernel -> Prop) :
  in_tx ls i s me (rest_view L P D l) start blks 1 -> (length ls < 6)%nat ->
  (forall s2 l2, gstep i s s2 ->
     dsk (pfs s2) = disk_writes (end_writes start L blks) (dsk (pfs s)) ->
     in_tx ls i s2 me (rest_view (apply_writes L (end_writes start L blks)) ∅ ∅ l2) start [] 0 -> Q tt s2) ->
  wp end_op s Q.
Proof.
  intros Htx Hls HQ. pose proof Htx as [Hat Hg Hnd Hp Ho Hor Hc Hsz Hfr].
  unfold end_op. wp_step. eapply (k_acq ls i); [apply Hat|done|lia|done|]. intros s1 Hin1 Hr1 E1.
  wp_step. apply glog_wp. wp_step. apply ulog_wp. rewrite E1, Ho. change (i32 (1 - 1)) with 0. set (s2 := set_pfs _ s1).
  wp_step. apply glog_wp. cbn [s2 lg pfs set_pfs set_lg committing set_outstanding]. rewrite Hc. cbn [ctrue Z.eqb negb].
  wp_step. apply glog_wp. cbn [s2 lg pfs set_pfs set_lg outstanding set_outstanding Z.eqb]. do 2 wp_step.
  apply ulog_wp. set (s3 := set_pfs _ s2). do 2 wp_step.
  eapply (k_rel ls i s); [apply Hat|done| |].
  { eapply inside_frame; [apply Hat|done|]. eapply kframe_trans; [apply (kframe_pfs i s1)|apply (kframe_pfs i s2)]. }
  intros s4 K4 E4. cbn [s3 s2 pfs set_pfs] in E4.
  assert (Hat4 : bio_at ls i s4 me (rest_view L P D l)).
  { eapply bio_at_step; [done|done|]. rewrite E4. apply bio_inv_lg, bio_inv_lg. apply Hat. }
  wp_step. eapply (commit_any_wp ls i s4 me L P D l start blks); [exact Hat4| |done|done|].
  { rewrite E4. by eapply log_at_same; [| | | |exact Hg]. }
  intros s5 l5 [K5 E5] Eg5 Dk5 Hat5. wp_step. eapply (k_acq ls i s5); [apply Hat5|done|lia|done|].
  intros s6 Hin6 Hr6 E6. wp_step. apply ulog_wp. rewrite E6. wp_step.
  eapply k_wakeup; [eapply kready_frame; [exact Hr6|apply kframe_pfs]|]. intros s7 K7 E7. cbn [pfs set_pfs] in E7.
  eapply (k_rel ls i s5); [apply Hat5|done| |].
  { eapply inside_frame; [apply Hat5|done|]. eapply kframe_trans; [apply kframe_pfs|done]. }
  intros s8 K8 E8. rewrite E7 in E8. rewrite Eg5, E4 in E8.
  apply (HQ s8 l5).
  - split; [by do 2 (eapply kframe_trans; [eassumption|])|]. rewrite E8, E5, E4. by destruct (pfs s).
  - rewrite E8. cbn [dsk set_lg]. rewrite Dk5, E4. done.
  - split; rewrite ?E8; try done.
    + eapply bio_at_step; [exact Hat5|exact K8|]. rewrite E8. apply bio_inv_lg. apply Hat5.
    + eapply log_at_same; [| | | |eapply log_at_clear, Hg]; done.
    + apply NoDup_nil_2.
Qed.

End Recover.
