(* ===== verification/LogExample.v ===== *)
(** * A concrete buffer cache and log

    The cache as [binit] leaves it, on a disk whose log starts at block 2, and
    the same cache inside an operation that has changed and logged block 50. *)

From S2P Require Import Prelude Riscv Mem Spinlock Proc ProcSpec MemExample ProcExample IoState SleepLock.
From S2P Require Import Bio BioSpec Bytes Log LogDisk LogSpec LogRecover.

Definition zero_block : list Z := replicate bsize 0.
Definition ex_next (i : nat) : nat := match i with O => nbuf | S i => i end.
Definition ex_prev (i : nat) : nat := if (i =? nbuf)%nat then O else S i.
Definition ex_buf (i : nat) : buf := Buf 0 0 0 0 (SleepLock 0 0) 0 (ex_prev i) (ex_next i) zero_block.
Definition ex_bufs : list buf := ex_buf <$> seq 0 (S nbuf).
Definition ex_lru : list nat := reverse (seq 0 nbuf).

Definition ex_dsk : disk := Disk (fun _ => zero_block) [].
Definition ex_lg : log := Log 2 30 0 0 ROOTDEV 0 (replicate logsize 0).
(** The disk's queue is empty. *)
Definition ex_vdk : vdisk :=
  VDisk (replicate 8 (VirtqDesc DNull 0 0 0)) 0 (replicate 8 0) 0 (replicate 8 0) (replicate 8 1) 0
    (replicate 8 (VInfo None 0)) (replicate 8 (BlkReq 0 0 0)) [] [] 0.
Definition ex_io : iost :=
  IoSt ex_bufs ex_dsk ex_lg (Superblock 0 0 0 0 0 0 0 0) [] []
    (Console [] 0 0 0) (Uart [] 0 0 [] 0 [] []) 0 1 (replicate 10 false) ex_vdk.

Definition ex_kernel (io : iost) : kernel :=
  PSt ex_state ex_procs (Some 0%nat) 5 0 (ex_lk (Some 1%nat)) io.

(** Block 50 cached in buffer 0, changed, logged and pinned. *)
Definition ex_new : list Z := replicate bsize 7.
Definition ex_dirty_buf : buf := Buf 1 0 ROOTDEV 50 (SleepLock 0 0) 1 (ex_prev 0) (ex_next 0) ex_new.
Definition ex_tx_io : iost :=
  set_lg (Log 2 30 1 0 ROOTDEV 1 (<[0%nat := 50]> (replicate logsize 0)))
    (set_bufs (<[0%nat := ex_dirty_buf]> ex_bufs) ex_io).
Definition ex_tx_data : Z -> list Z := block_upd (fun _ => zero_block) 50 ex_new.

(** Block 50 cached in buffer 0 and locked by the running process. *)
Definition ex_held_buf : buf := Buf 1 0 ROOTDEV 50 (SleepLock 1 2) 1 (ex_prev 0) (ex_next 0) zero_block.
Definition ex_held_io : iost := set_bufs (<[0%nat := ex_held_buf]> ex_bufs) ex_io.
Definition ex_held_view : bview := hold 0 50 (rest_view (fun _ => zero_block) ∅ ∅ ex_lru).

(** The same inside an operation. *)
Definition ex_write_io : iost := set_lg (set_outstanding 1 ex_lg) ex_held_io.

(** A transaction of three operations that has logged 29 blocks, block
    [100 + i] in buffer [i]. *)
Definition ex_full_blks : list Z := (fun i => 100 + Z.of_nat i) <$> seq 0 29.
Definition ex_full_buf (i : nat) : buf :=
  if (i <? 29)%nat
  then Buf 1 0 ROOTDEV (100 + Z.of_nat i) (SleepLock 0 0) 1 (ex_prev i) (ex_next i) zero_block
  else ex_buf i.
Definition ex_full_io : iost :=
  set_lg (Log 2 30 3 0 ROOTDEV 29 (ex_full_blks ++ [0])) (set_bufs (ex_full_buf <$> seq 0 (S nbuf)) ex_io).
Definition ex_full_view : bview := rest_view (fun _ => zero_block) (list_to_set ex_full_blks) ∅ ex_lru.

Lemma ex_kready io : kready [] 1 (ex_kernel io).
Proof.
  split_and!; [apply ex_runs|simpl; lia|done|constructor|done|].
  exists ex_runner. reflexivity.
Qed.

Lemma ex_at io me v : me = 2 -> bio_inv me io v -> bio_at [] 1 (ex_kernel io) me v.
Proof.
  intros -> Hv. split_and!; [apply ex_kready|apply not_elem_of_nil| |simpl; lia|done|done].
  intros a. apply not_elem_of_nil.
Qed.

Lemma ex_buf_lookup i x : ex_bufs !! i = Some x -> (i < S nbuf)%nat /\ x = ex_buf i.
Proof.
  unfold ex_bufs. rewrite list_lookup_fmap. intros (j & Hj & ->)%fmap_Some. apply lookup_seq in Hj as [-> ?].
  done.
Qed.

Lemma ex_circle bs :
  (forall i, nxt bs i = nxt ex_bufs i) -> (forall i, prv bs i = prv ex_bufs i) -> circle (nxt bs) (prv bs) nbuf ex_lru.
Proof.
  intros Hn Hp. eapply circle_ext; [exact Hn|exact Hp|]. split.
  - apply (bool_decide_unpack (NoDup (nbuf :: ex_lru))). vm_compute. exact I.
  - vm_compute. repeat split.
Qed.

Lemma ex_lru_perm : ex_lru ≡ₚ seq 0 nbuf.
Proof. apply reverse_Permutation. Qed.

(** The cache after [binit]. *)
Lemma ex_io_inv me : bio_inv me ex_io (rest_view (fun _ => zero_block) ∅ ∅ ex_lru).
Proof.
  split; cbn [bufs ex_io dsk rest_view v_data v_pins v_held v_dirty v_lru]; try done.
  - apply ex_lru_perm.
  - by apply ex_circle.
  - intros i x Hi [_ ->]%ex_buf_lookup. split; [done|]. by left.
  - intros i j x y _ _ [_ ->]%ex_buf_lookup _ Hd. done.
Qed.

Lemma ex_tx_lookup i x :
  bufs ex_tx_io !! i = Some x -> (i = O /\ x = ex_dirty_buf) \/ (i <> O /\ x = ex_buf i).
Proof.
  cbn [bufs ex_tx_io set_lg set_bufs]. destruct i as [|i].
  - intros [= <-]. by left.
  - rewrite list_lookup_insert_ne by done. intros [_ ->]%ex_buf_lookup. by right.
Qed.

Lemma ex_tx_inv me : bio_inv me ex_tx_io (rest_view ex_tx_data {[50]} {[50]} ex_lru).
Proof.
  split; cbn [rest_view v_data v_pins v_held v_dirty v_lru]; try done.
  - apply ex_lru_perm.
  - apply ex_circle; intros i; unfold nxt, prv; cbn [bufs ex_tx_io set_lg set_bufs]; by destruct i.
  - intros i x Hi [[-> ->]|[Hne ->]]%ex_tx_lookup.
    + split; [done|]. right. split_and!; [done|done|done|]. by vm_compute.
    + split; [done|]. by left.
  - intros i j x y _ _ [[-> ->]|[Hne ->]]%ex_tx_lookup; [|done].
    intros [[-> ->]|[Hne ->]]%ex_tx_lookup; done.
  - intros b Hb. unfold ex_tx_data. rewrite block_upd_ne; [done|]. set_solver.
  - intros b Hb. apply elem_of_singleton in Hb as ->. exists O, ex_dirty_buf. split_and!; try done. unfold nbuf. lia.
  - intros b Hb. by left.
  - intros b. unfold ex_tx_data, block_upd. by case_decide.
Qed.

Lemma ex_tx : in_tx [] 1 (ex_kernel ex_tx_io) 2 (rest_view ex_tx_data {[50]} {[50]} ex_lru) 2 [50] 1.
Proof.
  split; try done.
  - by apply ex_at; [|apply ex_tx_inv].
  - split; try done.
    + constructor; [|constructor]. unfold home, in_log, LOGSIZE, MAXOPBLOCKS. lia.
    + simpl. unfold logsize. lia.
  - apply NoDup_singleton.
  - cbn [rest_view v_pins]. set_solver.
Qed.

Lemma ex_held_lookup i x :
  bufs ex_held_io !! i = Some x -> (i = O /\ x = ex_held_buf) \/ (i <> O /\ x = ex_buf i).
Proof.
  cbn [bufs ex_held_io set_bufs]. destruct i as [|i].
  - intros [= <-]. by left.
  - rewrite list_lookup_insert_ne by done. intros [_ ->]%ex_buf_lookup. by right.
Qed.

Lemma ex_held_inv : bio_inv 2 ex_held_io ex_held_view.
Proof.
  split; cbn [ex_held_view hold rest_view v_data v_pins v_held v_dirty v_lru]; try done.
  - apply ex_lru_perm.
  - apply ex_circle; intros i; unfold nxt, prv; cbn [bufs ex_held_io set_bufs]; by destruct i.
  - intros i x Hi [[-> ->]|[Hne ->]]%ex_held_lookup.
    + split; [done|]. right. split_and!; done.
    + split; [|by left]. cbn [ex_held_view hold rest_view v_held]. by rewrite lookup_insert_ne.
  - intros i j x y _ _ [[-> ->]|[Hne ->]]%ex_held_lookup; [|done].
    intros [[-> ->]|[Hne ->]]%ex_held_lookup; done.
  - intros i b [[<- _]|[_ Hb]]%lookup_insert_Some; [unfold nbuf; lia|]. by rewrite lookup_empty in Hb.
Qed.

(** A clean cache on any disk with blocks of the right size. *)
Lemma ex_crashed_inv me dk :
  (forall b, length (disk_read dk b) = bsize) ->
  bio_inv me (set_dsk dk ex_io) (rest_view (disk_read dk) ∅ ∅ ex_lru).
Proof.
  intros Hs. destruct (ex_io_inv me) as [A1 A2 A3 A4 A5 A6 A7 A8 A9 A10]. split; try done.
  intros i x Hi Hx. destruct (A4 i x Hi Hx) as [H1 [H2|[Hd _]]]; [by split; [|left]|].
  by apply ex_buf_lookup in Hx as [_ ->].
Qed.

Lemma ex_commit_size k b :
  length (apply_writes (disk_read ex_dsk) (take k (commit_writes 2 ex_tx_data [50])) b) = bsize.
Proof.
  rewrite apply_writes_last. destruct (last_write _ b) as [d|] eqn:E; [|done]. simpl.
  assert (Hall : Forall (fun w => length w.2 = bsize) (commit_writes 2 ex_tx_data [50]))
    by (apply (bool_decide_unpack (Forall (fun w => length w.2 = bsize) (commit_writes 2 ex_tx_data [50]))); vm_compute; exact I).
  assert (Hlw : forall ws b' d', last_write ws b' = Some d' -> (b', d') ∈ ws).
  { intros ws b' d'. induction ws as [|[c e] ws IH]; [done|]. cbn [last_write].
    destruct (Z.eqb_spec c b') as [->|]; [intros [= ->]; left|intros ?; right; auto]. }
  apply Hlw in E. rewrite elem_of_reverse in E. rewrite Forall_forall in Hall. apply (Hall (b, d)).
  apply list_elem_of_lookup in E as [j Hj]. apply lookup_take_Some in Hj as [Hj _]. by eapply list_elem_of_lookup_2.
Qed.

Lemma ex_write_tx : in_tx [] 1 (ex_kernel ex_write_io) 2 ex_held_view 2 [] 1.
Proof.
  split; try done.
  - apply ex_at; [done|]. apply bio_inv_lg, ex_held_inv.
  - split; try done; try (by constructor); simpl; unfold logsize; lia.
  - apply NoDup_nil_2.
  - apply not_elem_of_nil.
Qed.

Lemma ex_full_lookup i x :
  bufs ex_full_io !! i = Some x -> (i < S nbuf)%nat /\ x = ex_full_buf i.
Proof.
  cbn [bufs ex_full_io set_lg set_bufs]. rewrite list_lookup_fmap. intros (j & Hj & ->)%fmap_Some.
  apply lookup_seq in Hj as [-> ?]. done.
Qed.

Lemma ex_full_inv : bio_inv 2 ex_full_io ex_full_view.
Proof.
  split; cbn [ex_full_view rest_view v_data v_pins v_held v_dirty v_lru]; try done.
  - apply ex_lru_perm.
  - apply ex_circle; intros i; unfold nxt, prv, ex_bufs; cbn [bufs ex_full_io set_lg set_bufs];
      rewrite !list_lookup_fmap; destruct (seq 0 (S nbuf) !! i); simpl; [|done| |done];
      unfold ex_full_buf; by destruct (_ <? _)%nat.
  - intros i x Hi [_ ->]%ex_full_lookup. unfold ex_full_buf. destruct (Nat.ltb_spec i 29) as [Hl|Hl].
    + split; [done|]. right. split_and!; try done. unfold brefs. cbn [b_refcnt b_blockno v_held v_pins ex_full_view rest_view].
      rewrite (bool_decide_eq_true_2 (100 + Z.of_nat i ∈ _)); [done|]. apply elem_of_list_to_set, list_elem_of_fmap.
      exists i. split; [done|]. apply elem_of_seq. lia.
    + split; [done|]. by left.
  - intros i j x y Hi Hj [_ ->]%ex_full_lookup [_ ->]%ex_full_lookup. unfold ex_full_buf.
    destruct (Nat.ltb_spec i 29), (Nat.ltb_spec j 29); cbn [b_dev b_blockno ex_buf]; try done. lia.
  - intros b Hb. apply elem_of_list_to_set, list_elem_of_fmap in Hb as (i & -> & Hi). apply elem_of_seq in Hi.
    exists i, (ex_full_buf i). split; [unfold nbuf; lia|]. split.
    + cbn [bufs ex_full_io set_lg set_bufs]. rewrite list_lookup_fmap, lookup_seq_lt by (unfold nbuf; lia). done.
    + unfold ex_full_buf. by rewrite (proj2 (Nat.ltb_lt _ _)) by lia.
Qed.

Lemma ex_full_tx : in_tx [] 1 (ex_kernel ex_full_io) 2 ex_full_view 2 ex_full_blks 3.
Proof.
  split; try done.
  - apply ex_at; [done|apply ex_full_inv].
  - split; try done; [|simpl; unfold logsize; lia]. apply Forall_forall. intros b Hb.
    apply list_elem_of_fmap in Hb as (i & -> & Hi). apply elem_of_seq in Hi.
    unfold home, in_log, LOGSIZE, MAXOPBLOCKS. lia.
  - apply (bool_decide_unpack (NoDup ex_full_blks)). vm_compute. exact I.
  - apply not_elem_of_nil.
Qed.
