(* ===== verification/LogTheorems.v ===== *)
(** * Properties of the buffer cache and of the log

    The theorems on [bio.c] and [log.c], each with an instance on the cache of
    [LogExample]. *)

From S2P Require Import Prelude Riscv Mem Spinlock Proc ProcSpec MemExample ProcExample IoState SleepLock.
From S2P Require Import Bio BioSpec Bytes Log LogDisk LogSpec LogRecover LogExample.

(** A kernel that starts on the disk [dk]: the cache is empty, and the log
    has been located by [initlog]. *)
Definition rebooted (i : nat) (s : kernel) (me : Z) (dk : disk) (start : Z) : Prop :=
  (exists l, bio_at [] i s me (rest_view (disk_read dk) ∅ ∅ l)) /\ dsk (pfs s) = dk /\
  lg_dev (lg (pfs s)) = ROOTDEV /\ lg_start (lg (pfs s)) = start /\ 0 <= start < 2 ^ 31 - 64 /\
  length (lh_block (lg (pfs s))) = logsize.

Section Crash.
Context `{Linker}.

Lemma head_ok_empty start d : length d = bsize -> head_n d = 0 -> head_ok start d.
Proof.
  intros Hd Hn. unfold head_ok, head_of. rewrite Hn. unfold LOGSIZE, MAXOPBLOCKS.
  split_and!; [done|lia|lia|constructor].
Qed.

Lemma head_ok_put start d blks :
  length d = bsize -> (length blks < logsize)%nat -> Forall (home start) blks ->
  head_ok start (put_head d blks) /\ head_of (put_head d blks) = blks.
Proof.
  intros Hd Hl Hh. assert (Hp : head_of (put_head d blks) = blks) by (apply (head_of_put start); [done|lia|done]).
  split; [|done]. unfold head_ok. rewrite Hp, length_put_head, head_n_put by (done || lia).
  unfold LOGSIZE, MAXOPBLOCKS, logsize in *. split_and!; [done|lia|lia|done].
Qed.

(** Recovery makes a rebooted disk what it means. *)
Lemma recover_rebooted i s me dk start (D : blocks) (Q : unit -> kernel -> Prop) :
  rebooted i s me dk start -> (forall b, disk_read dk b = D b) -> head_ok start (D start) -> NoDup (head_of (D start)) ->
  (forall s2, dsk (pfs s2) = disk_writes (recover_writes start (disk_read dk)) dk ->
     (forall b, ~ in_log start b -> disk_read (dsk (pfs s2)) b = meaning start D b) -> Q tt s2) ->
  wp recover_from_log s Q.
Proof.
  intros ([l Hat] & Hdk & Hdev & Hst & Hr & Hlen) HD Hok Hnd HQ. rewrite <- HD in Hok, Hnd.
  eapply (recover_wp [] i s me (disk_read dk) l start); try done.
  intros s2 l2 Gs Dk Hg Hat2. rewrite Hdk in Dk. apply HQ; [done|]. intros b Hb.
  rewrite Dk, disk_read_writes, <- (meaning_ext start (disk_read dk) D b HD). by apply recover_all.
Qed.

(** The header of the disk after a prefix of the writes of a commit. *)
Lemma commit_prefix_head start D L blks k :
  Forall (home start) blks -> (length blks < logsize)%nat -> length (L start) = bsize ->
  head_ok start (D start) -> head_of (D start) = [] ->
  head_ok start (apply_writes D (take k (commit_writes start L blks)) start) /\
  (head_of (apply_writes D (take k (commit_writes start L blks)) start) = [] \/
   head_of (apply_writes D (take k (commit_writes start L blks)) start) = blks).
Proof.
  intros Hh Hl Hs Hok He.
  assert (Hcl : length (log_copies start L blks) = length blks) by apply length_imap.
  assert (Hhl : length (home_writes L blks) = length blks) by apply length_fmap.
  destruct (decide (k <= length blks)%nat) as [Hk|Hk].
  { unfold commit_writes. rewrite take_app_le by lia. rewrite apply_writes_out; [by split; [|left]|].
    intros Hx%take_fst_elem. by apply log_copies_fst in Hx as [_ ?]. }
  destruct (decide (k <= length blks + 1 + length blks)%nat) as [Hk2|Hk2].
  - unfold commit_writes. rewrite app_assoc, take_app_ge by (rewrite length_app; simpl; lia).
    rewrite apply_writes_app, take_app_le by (rewrite length_app; simpl; lia). rewrite apply_writes_out.
    + rewrite committed_start. destruct (head_ok_put start (L start) blks) as [H1 H2]; [done|done|done|].
      by split; [|right].
    + intros Hx%take_fst_elem. unfold home_writes in Hx. rewrite <- list_fmap_compose in Hx.
      rewrite list_fmap_id in Hx. eapply home_not_in_log; [exact Hh|exact Hx|apply start_in_log].
  - rewrite take_ge by (unfold commit_writes; rewrite !length_app; simpl; lia).
    unfold commit_writes. rewrite !apply_writes_app. simpl. unfold apply_write at 1 3 5. cbn [fst snd].
    rewrite block_upd_eq. destruct (head_ok_put start (put_head (L start) blks) []) as [H1 H2].
    { by rewrite length_put_head. } { simpl. unfold logsize. lia. } { constructor. }
    by split; [|left].
Qed.

(** Every prefix of the writes of the last [end_op] leaves a disk that
    recovery turns into the old or the new contents. *)
Lemma end_prefix start D L blks k :
  Forall (home start) blks -> (length blks < logsize)%nat -> NoDup blks -> length (L start) = bsize ->
  head_ok start (D start) -> head_of (D start) = [] ->
  (forall b, b ∉ blks -> ~ in_log start b -> D b = L b) ->
  let Dk := apply_writes D (take k (end_writes start L blks)) in
  head_ok start (Dk start) /\ NoDup (head_of (Dk start)) /\
  ((forall b, ~ in_log start b -> meaning start Dk b = D b) \/
   (forall b, ~ in_log start b -> meaning start Dk b = L b)).
Proof.
  intros Hh Hl Hnd Hs Hok He Hsame. cbn zeta. unfold end_writes. destruct (decide (blks = [])) as [->|Hne].
  - rewrite take_nil. split_and!; [done| |].
    + cbn. rewrite He. apply NoDup_nil_2.
    + left. intros b _. by apply meaning_empty.
  - destruct (commit_prefix_head start D L blks k) as [Hok' Hcases]; try done.
    split_and!; [done|destruct Hcases as [->| ->]; [apply NoDup_nil_2|done]|].
    pose proof (commit_prefix start D L blks Hh Hl He Hs Hsame k) as Hp.
    destruct (decide (k <= length blks)%nat); [by left|by right].
Qed.

(** The state of the disk in a transaction. *)
Lemma tx_disk ls i s me L P D l start blks n :
  in_tx ls i s me (rest_view L P D l) start blks n ->
  (forall b, b ∉ blks -> disk_read (dsk (pfs s)) b = L b) /\ disk_read (dsk (pfs s)) start = L start /\
  (forall b, length (L b) = bsize).
Proof.
  intros [Hat Hg Hnd Hp _ _ _ _ _]. cbn [rest_view v_pins] in Hp.
  assert (Hv : bio_inv me (pfs s) (rest_view L P D l)) by apply Hat.
  assert (HDP : forall b, b ∉ blks -> b ∉ D).
  { intros b Hn Hb. destruct (bi_dirty _ _ _ Hv b Hb) as [Hbp|[k Hk]].
    - cbn in Hbp. rewrite Hp in Hbp. by apply elem_of_list_to_set in Hbp.
    - cbn in Hk. by rewrite lookup_empty in Hk. }
  split_and!; [intros b Hb; by apply (bi_disk _ _ _ Hv), HDP| |apply (bi_size _ _ _ Hv)].
  apply (bi_disk _ _ _ Hv), HDP. intros Hs.
  eapply home_not_in_log; [apply (la_home _ _ _ Hg)|exact Hs|apply start_in_log].
Qed.

(** The same for recovery: a disk after a prefix of its writes. *)
Lemma recover_prefix_head start D k :
  head_ok start (D start) -> NoDup (head_of (D start)) ->
  let Dk := apply_writes D (take k (recover_writes start D)) in
  head_ok start (Dk start) /\ NoDup (head_of (Dk start)).
Proof.
  intros Hok Hnd. pose proof Hok as (Hd & _ & Hh). cbn zeta. unfold recover_writes.
  set (ins := log_installs start D (head_of (D start))).
  destruct (decide (k <= length ins)%nat) as [Hk|Hk].
  - rewrite take_app_le by done. rewrite apply_writes_out; [done|]. intros Hx%take_fst_elem.
    unfold ins in Hx. rewrite log_installs_fst in Hx.
    eapply home_not_in_log; [exact Hh|exact Hx|apply start_in_log].
  - rewrite take_ge by (rewrite length_app; simpl; lia). rewrite apply_writes_app. simpl.
    unfold apply_write at 1 2. cbn [fst snd]. rewrite block_upd_eq.
    destruct (head_ok_put start (D start) []) as [H1 ->]; [done|simpl; unfold logsize; lia|constructor|].
    split; [done|apply NoDup_nil_2].
Qed.

End Crash.

(** ** The buffer cache *)

(** [bread] of a block that no one has locked returns a locked buffer
    whose data is the current contents of the block: the buffer that caches
    the block, or else the least recently used buffer without references,
    into which the block is read.  It changes only buffers, leaves the
    contents of every block as they were and gives back every spin lock. *)
Theorem bread_spec `{Linker} ls i s me v b :
  bio_at ls i s me v -> (forall j, v_held v !! j <> Some b) ->
  (size (v_held v) + size (v_pins v) < nbuf)%nat ->
  wp (bread ROOTDEV b) s (fun j s2 =>
    bget_choice (pfs s) v b j /\ bstep i s s2 /\ bio_at ls i s2 me (hold j b v) /\
    exists x, bufs (pfs s2) !! j = Some x /\ b_blockno x = b /\ b_data x = v_data v b /\
      b_lock x = SleepLock 1 me).
Proof.
  intros Hat Hh Hsz. eapply bread_wp; [done|done|by right|]. intros j s2 Hn Hch Hst Hat2.
  assert (Hv2 : bio_inv me (pfs s2) (hold j b v)) by apply Hat2.
  destruct (held_buf me (pfs s2) (hold j b v) j b Hv2) as (_ & x & Hx & _ & Hb & Hl & _ & Hd & _);
    [by apply lookup_insert_eq|]. split_and!; try done. by exists x.
Qed.


(** [brelse] of a locked buffer whose changes, if any, are pinned
    unlocks it and, when nothing else refers to it, makes it the most recently
    used one; the list stays a circle through all buffers and no block
    changes.  A process that does not hold the buffer's lock panics. *)
Theorem brelse_spec `{Linker} ls i s me v j b :
  bio_at ls i s me v -> v_held v !! j = Some b -> (b ∈ v_dirty v -> b ∈ v_pins v) ->
  wp (brelse j) s (fun _ s2 => bstep i s s2 /\ bio_at ls i s2 me (unlock j b v)) /\
  (forall k x, v_held v !! k = None -> bufs (pfs s) !! k = Some x -> (k < nbuf)%nat ->
     brelse k s = Fail (EPanic "brelse")).
Proof.
  intros Hat Hh Hd. split; [by eapply brelse_wp|]. intros k x Hk Hx Hlt.
  pose proof Hat as (Hr & Hl1 & Hl2 & Hlen & Hpid & Hv). unfold brelse. apply bind_fail_r.
  eapply (holdingsleep_wp ls i s (buf_lock k)); [done|done|lia| |].
  - cbn [buf_lock sl_get]. by rewrite Hx.
  - intros s2 Hk2 E2. destruct (bi_buf me _ v Hv k x Hlt Hx) as [Hb _]. rewrite Hk in Hb. by rewrite Hb.
Qed.


(** [binit] on zeroed buffers establishes the cache invariant: all
    buffers form one circular list, none is locked, referenced or changed,
    and every block reads as it is on the disk. *)
Theorem binit_spec `{Linker} s me :
  bufs (pfs s) = replicate (S nbuf) buf0 -> (forall b, length (disk_read (dsk (pfs s)) b) = bsize) ->
  wp binit s (fun _ s2 => init_frame s s2 /\
    bio_inv me (pfs s2) (rest_view (disk_read (dsk (pfs s))) ∅ ∅ (reverse (seq 0 nbuf)))).
Proof. intros Hb Hd. eapply binit_wp; [done|done|]. done. Qed.


(** ** The log *)

(** C1: crash safety of a transaction.  The [end_op] that ends the last
    outstanding operation leaves the disk with the new contents of every block
    outside the log.  If the machine stops after any number of the disk writes
    it issues, then recovery at the next start leaves every block outside the
    log with its old contents or every one with its new contents. *)
Theorem commit_crash_atomic `{Linker} i s me L P D l start blks :
  in_tx [] i s me (rest_view L P D l) start blks 1 -> head_n (disk_read (dsk (pfs s)) start) = 0 ->
  wp end_op s (fun _ s1 => exists ws, dsk (pfs s1) = disk_writes ws (dsk (pfs s)) /\
    (forall b, ~ in_log start b -> disk_read (dsk (pfs s1)) b = L b) /\
    forall k i' s' me', rebooted i' s' me' (disk_writes (take k ws) (dsk (pfs s))) start ->
      wp recover_from_log s' (fun _ s2 =>
        (forall b, ~ in_log start b -> disk_read (dsk (pfs s2)) b = disk_read (dsk (pfs s)) b) \/
        (forall b, ~ in_log start b -> disk_read (dsk (pfs s2)) b = L b))).
Proof.
  intros Htx Hn. destruct (tx_disk _ _ _ _ _ _ _ _ _ _ _ Htx) as (Hout & Hs0 & Hsize).
  pose proof Htx as [_ Hg Hnd _ _ _ _ _ _].
  pose proof (la_home _ _ _ Hg) as Hhome. pose proof (la_max _ _ _ Hg) as Hmax.
  set (D0 := disk_read (dsk (pfs s))) in *.
  assert (He : head_of (D0 start) = []) by (unfold head_of; by rewrite Hn).
  assert (Hok : head_ok start (D0 start)) by (apply head_ok_empty; [by rewrite Hs0|done]).
  eapply end_op_last_wp; [exact Htx|simpl; lia|]. intros s1 l1 Gs1 Dk1 Htx1.
  exists (end_writes start L blks). split_and!; [done| |].
  - intros b Hb. destruct (tx_disk _ _ _ _ _ _ _ _ _ _ _ Htx1) as (Hout1 & _).
    rewrite Hout1 by apply not_elem_of_nil. unfold end_writes. case_decide; [done|].
    by apply (commit_all start L L blks).
  - intros k i' s' me' Hrb. destruct (end_prefix start D0 L blks k) as (Hok' & Hnd' & Hm); try done.
    { intros b Hb _. by apply Hout. }
    eapply recover_rebooted; [exact Hrb|apply disk_read_writes|exact Hok'|exact Hnd'|].
    intros s2 _ Hs2. destruct Hm as [Hm|Hm]; [left|right]; intros b Hb; by rewrite Hs2, Hm.
Qed.

Lemma commit_crash_atomic_witness :
  wp end_op (ex_kernel ex_tx_io) (fun _ s1 => exists ws, dsk (pfs s1) = disk_writes ws ex_dsk /\
    (forall b, ~ in_log 2 b -> disk_read (dsk (pfs s1)) b = ex_tx_data b) /\
    forall k i' s' me', rebooted i' s' me' (disk_writes (take k ws) ex_dsk) 2 ->
      wp recover_from_log s' (fun _ s2 =>
        (forall b, ~ in_log 2 b -> disk_read (dsk (pfs s2)) b = disk_read ex_dsk b) \/
        (forall b, ~ in_log 2 b -> disk_read (dsk (pfs s2)) b = ex_tx_data b))).
Proof.
  apply (commit_crash_atomic 1 (ex_kernel ex_tx_io) 2 ex_tx_data {[50]} {[50]} ex_lru 2 [50]).
  - exact ex_tx.
  - vm_compute. reflexivity.
Defined.

(** C16: recovery can itself be interrupted.  If the machine stops after any
    number of the disk writes of [recover_from_log], then running it again at
    the next start ends with the same contents of every block outside the log
    as the uninterrupted recovery. *)
Theorem recovery_restartable `{Linker} i s me dk start :
  rebooted i s me dk start -> head_ok start (disk_read dk start) -> NoDup (head_of (disk_read dk start)) ->
  wp recover_from_log s (fun _ s1 => exists ws, dsk (pfs s1) = disk_writes ws dk /\
    head_n (disk_read (dsk (pfs s1)) start) = 0 /\
    forall k i' s' me', rebooted i' s' me' (disk_writes (take k ws) dk) start ->
      wp recover_from_log s' (fun _ s2 =>
        forall b, ~ in_log start b -> disk_read (dsk (pfs s2)) b = disk_read (dsk (pfs s1)) b)).
Proof.
  intros Hrb Hok Hnd. eapply recover_rebooted; [exact Hrb|done|exact Hok|exact Hnd|]. intros s1 Dk1 Hs1.
  exists (recover_writes start (disk_read dk)). split_and!; [done| |].
  - rewrite Dk1, disk_read_writes. unfold recover_writes. rewrite apply_writes_app. simpl.
    unfold apply_write at 1. cbn [fst snd]. rewrite block_upd_eq. destruct Hok as (Hd & _ & _).
    rewrite head_n_put; [done|done|simpl; lia].
  - intros k i' s' me' Hrb'. destruct (recover_prefix_head start (disk_read dk) k Hok Hnd) as [Hok' Hnd'].
    eapply recover_rebooted; [exact Hrb'|apply disk_read_writes|exact Hok'|exact Hnd'|].
    intros s2 _ Hs2 b Hb. rewrite Hs2, Hs1 by done. by apply recover_prefix.
Qed.

Lemma recovery_restartable_witness :
  let dk := disk_writes (take 2 (commit_writes 2 ex_tx_data [50])) ex_dsk in
  head_of (disk_read dk 2) = [50] /\
  wp recover_from_log (ex_kernel (set_dsk dk ex_io)) (fun _ s1 => exists ws, dsk (pfs s1) = disk_writes ws dk /\
    head_n (disk_read (dsk (pfs s1)) 2) = 0 /\
    forall k i' s' me', rebooted i' s' me' (disk_writes (take k ws) dk) 2 ->
      wp recover_from_log s' (fun _ s2 =>
        forall b, ~ in_log 2 b -> disk_read (dsk (pfs s2)) b = disk_read (dsk (pfs s1)) b)).
Proof.
  intros dk. assert (Hh : head_of (disk_read dk 2) = [50]) by (vm_compute; reflexivity).
  split; [exact Hh|]. apply (recovery_restartable 1 (ex_kernel (set_dsk dk ex_io)) 2 dk 2).
  - split_and!; try done. exists ex_lru. apply ex_at; [done|apply ex_crashed_inv]. intros b.
    unfold dk. rewrite disk_read_writes. apply ex_commit_size.
  - split_and!.
    + vm_compute. reflexivity.
    + vm_compute. congruence.
    + vm_compute. reflexivity.
    + rewrite Hh. constructor; [|constructor]. unfold home, in_log, LOGSIZE, MAXOPBLOCKS. lia.
  - rewrite Hh. apply NoDup_singleton.
Defined.

(** [log_write] of a locked block inside an operation records the block
    in the header, once however often it is written (absorption), and pins its
    buffer until the commit; the contents of no block change. *)
Theorem log_write_spec `{Linker} ls i s me v start blks n j b :
  in_tx ls i s me v start blks n -> (length ls < 6)%nat -> 1 <= n ->
  v_held v !! j = Some b -> home start b -> (S (length blks) < logsize)%nat ->
  wp (log_write j) s (fun _ s2 => gstep i s s2 /\ dsk (pfs s2) = dsk (pfs s) /\
    in_tx ls i s2 me (set_pins (list_to_set (logged blks b)) v) start (logged blks b) n).
Proof. intros. eapply log_write_wp; try done. Qed.


(** [begin_op] admits an operation exactly when the logged blocks and a
    reservation of [MAXOPBLOCKS] blocks for every outstanding operation, the
    new one included, fit into [LOGSIZE]; otherwise it waits. *)
Theorem begin_op_spec `{Linker} ls i s me v start blks n :
  in_tx ls i s me v start blks n -> (length ls < 6)%nat ->
  if decide (Z.of_nat (length blks) + (n + 1) * MAXOPBLOCKS <= LOGSIZE)
  then wp begin_op s (fun _ s2 => gstep i s s2 /\ dsk (pfs s2) = dsk (pfs s) /\
         in_tx ls i s2 me v start blks (n + 1))
  else begin_op s = Fail (EBlock "begin_op: log space").
Proof.
  intros Htx Hls. case_decide as Hroom; [by eapply begin_op_wp|]. unfold begin_op.
  pose proof Htx as [Hat Hg Hnd Hp Ho Hor Hc Hsz Hfr]. apply bind_fail_r.
  eapply (k_acq ls i); [apply Hat|done|lia|done|]. intros s1 Hin1 Hr1 E1.
  apply bind_fail_r, glog_wp. rewrite E1, Hc. cbn [ctrue Z.eqb negb].
  apply bind_fail_r, glog_wp, bind_fail_r, glog_wp. rewrite E1, Ho, (la_n _ _ _ Hg), (proj2 (Z.ltb_lt _ _)) by lia.
  done.
Qed.


(** The log holds one block less than [begin_op] reserves: once 29 blocks
    are logged every [log_write] panics, also one of a block that is logged
    already, although the reservations of [begin_op] add up to 30. *)
Theorem log_full_panics `{Linker} ls i s me v start blks n j :
  in_tx ls i s me v start blks n -> (length ls < 6)%nat -> S (length blks) = logsize ->
  log_write j s = Fail (EPanic "too big a transaction").
Proof.
  intros Htx Hls Hfull. pose proof Htx as [Hat Hg Hnd Hp Ho Hor Hc Hsz Hfr]. unfold log_write. apply bind_fail_r.
  eapply (k_acq ls i); [apply Hat|done|lia|done|]. intros s1 Hin1 Hr1 E1.
  apply bind_fail_r, glog_wp, bind_fail_r, glog_wp. rewrite E1, Hsz, (la_n _ _ _ Hg).
  rewrite (proj2 (Z.leb_le (LOGSIZE - 1) _)) by (unfold LOGSIZE, MAXOPBLOCKS, logsize in *; lia).
  by rewrite orb_true_r.
Qed.

