(* ===== verification/Ring.v ===== *)
(** * Circular buffers

    The serial port, the console and pipes keep a queue in an array of [N]
    elements and two counters that only grow and wrap around at their width.
    Counter [x] stands for element [x mod N]; since [N] divides the modulus of
    the counters, wrapping a counter does not change its element. *)

From S2P Require Import Prelude.

(** The [n] elements from counter [r] on; [f] reads the array. *)
Definition ring (N : Z) (f : Z -> Z) (r : Z) (n : nat) : list Z :=
  (fun k => f ((r + Z.of_nat k) mod N)) <$> seq 0 n.

(** Reading an array that is a list. *)
Definition at_ix (buf : list Z) (x : Z) : Z := default 0 (buf !! Z.to_nat x).

(** Elements between two counters of modulus [W]. *)
Definition ring_len (W w r : Z) : Z := (w - r) mod W.

Section Ring.
Context (N : Z) (HN : 0 < N).
Implicit Types (f : Z -> Z) (r : Z) (n : nat).

Lemma length_ring f r n : length (ring N f r n) = n.
Proof using. unfold ring. by rewrite length_fmap, length_seq. Qed.

Lemma ring_app f r a b : ring N f r (a + b) = ring N f r a ++ ring N f (r + Z.of_nat a) b.
Proof using.
  unfold ring. rewrite seq_app, fmap_app. f_equal. rewrite Nat.add_0_l, <- (Nat.add_0_r a) at 1.
  rewrite <- fmap_add_seq, <- list_fmap_compose. apply list_fmap_ext. intros k x _. unfold compose.
  f_equal. f_equal. lia.
Qed.

Lemma ring_cons f r n : ring N f r (S n) = f (r mod N) :: ring N f (r + 1) n.
Proof using.
  change (S n) with (1 + n)%nat. rewrite ring_app. unfold ring at 1. simpl. by rewrite Z.add_0_r.
Qed.

Lemma ring_snoc f r n : ring N f r (S n) = ring N f r n ++ [f ((r + Z.of_nat n) mod N)].
Proof using.
  rewrite <- (Nat.add_1_r n), ring_app. f_equal. unfold ring. simpl. by rewrite Z.add_0_r.
Qed.

(** A counter that wraps keeps its element. *)
Lemma mod_wrap W x : (N | W) -> 0 < W -> (x mod W) mod N = x mod N.
Proof using HN. intros [q ->] HW. apply Z.mod_mod_divide. by exists q. Qed.

Lemma ring_wrap W f r n : (N | W) -> 0 < W -> ring N f (r mod W) n = ring N f r n.
Proof using HN.
  intros HNW HW. unfold ring. apply list_fmap_ext. intros k x _. f_equal.
  rewrite <- (Z.add_mod_idemp_l (r mod W)), mod_wrap, Z.add_mod_idemp_l by (done || lia). done.
Qed.

(** Different elements for counters less than [N] apart. *)
Lemma ring_inj r a b : 0 <= a < N -> 0 <= b < N -> (r + a) mod N = (r + b) mod N -> a = b.
Proof using HN.
  intros Ha Hb E. assert (E' : ((r + a) - (r + b)) mod N = 0) by (by rewrite Zminus_mod, E, Z.sub_diag, Z.mod_0_l by lia).
  replace (r + a - (r + b)) with (a - b) in E' by lia.
  apply Z.mod_divide in E' as [q Hq]; [|lia]. assert (q = 0) by nia. lia.
Qed.

(** Storing at the end of the queue. *)
Lemma ring_ext f g r n :
  (forall k, (k < n)%nat -> f ((r + Z.of_nat k) mod N) = g ((r + Z.of_nat k) mod N)) -> ring N f r n = ring N g r n.
Proof using.
  intros E. unfold ring. apply list_fmap_ext. intros k x Hk. apply lookup_seq in Hk as [-> Hk]. by apply E.
Qed.

Lemma ring_store f g r n c :
  Z.of_nat n < N -> g ((r + Z.of_nat n) mod N) = c ->
  (forall x, 0 <= x < N -> x <> (r + Z.of_nat n) mod N -> g x = f x) -> ring N g r (S n) = ring N f r n ++ [c].
Proof using HN.
  intros Hn Hc Hg. rewrite ring_snoc, Hc. f_equal. apply ring_ext. intros k Hk.
  apply Hg; [by apply Z.mod_pos_bound|]. intros E. apply ring_inj in E; lia.
Qed.

(** The same when the array is a list. *)
Lemma ring_insert buf r n c :
  Z.of_nat n < N -> length buf = Z.to_nat N ->
  ring N (at_ix (<[Z.to_nat ((r + Z.of_nat n) mod N) := c]> buf)) r (S n) = ring N (at_ix buf) r n ++ [c].
Proof using HN.
  intros Hn Hl. pose proof (Z.mod_pos_bound (r + Z.of_nat n) N HN). apply ring_store; unfold at_ix; [done| |].
  - by rewrite list_lookup_insert_eq by lia.
  - intros x Hx Hne. by rewrite list_lookup_insert_ne by lia.
Qed.

End Ring.

Section Len.
Context (W : Z) (HW : 0 < W).

Lemma ring_len_range w r : 0 <= ring_len W w r < W.
Proof using HW. apply Z.mod_pos_bound. lia. Qed.

(** The writer's counter from the reader's. *)
Lemma ring_end N w r : 0 < N -> (N | W) -> (r + ring_len W w r) mod N = w mod N.
Proof using HW.
  intros HN [q ->]. unfold ring_len.
  rewrite <- (mod_wrap N HN (q * N) (r + _)), Z.add_mod_idemp_r by (lia || by exists q).
  replace (r + (w - r)) with w by lia. apply mod_wrap; [done|by exists q|done].
Qed.

Lemma ring_len_push w r : ring_len W w r < W - 1 -> ring_len W ((w + 1) mod W) r = ring_len W w r + 1.
Proof using HW.
  intros Hlt. pose proof (ring_len_range w r). unfold ring_len in *.
  rewrite Zminus_mod_idemp_l. replace (w + 1 - r) with ((w - r) + 1) by lia.
  rewrite <- Z.add_mod_idemp_l by lia. apply Z.mod_small. lia.
Qed.

Lemma ring_len_pop w r : 0 < ring_len W w r -> ring_len W w ((r + 1) mod W) = ring_len W w r - 1.
Proof using HW.
  intros Hlt. pose proof (ring_len_range w r). unfold ring_len in *.
  rewrite Zminus_mod_idemp_r. replace (w - (r + 1)) with ((w - r) - 1) by lia.
  rewrite <- Zminus_mod_idemp_l. apply Z.mod_small. lia.
Qed.

Lemma ring_len_unpush w r : 0 < ring_len W w r -> ring_len W ((w - 1) mod W) r = ring_len W w r - 1.
Proof using HW.
  intros Hlt. pose proof (ring_len_range w r). unfold ring_len in *.
  rewrite Zminus_mod_idemp_l. replace (w - 1 - r) with ((w - r) - 1) by lia.
  rewrite <- Zminus_mod_idemp_l. apply Z.mod_small. lia.
Qed.

Lemma ring_len_self x : ring_len W x x = 0.
Proof using. clear HW. unfold ring_len. by rewrite Z.sub_diag, Zmod_0_l. Qed.

Lemma ring_len_0 w r : 0 <= w < W -> 0 <= r < W -> ring_len W w r = 0 <-> w = r.
Proof using HW.
  intros Hw Hr. unfold ring_len. split.
  - intros E. apply Z.mod_divide in E as [q Hq]; [|lia]. assert (q = 0) by nia. lia.
  - intros ->. by rewrite Z.sub_diag, Z.mod_0_l by lia.
Qed.

(** The test for a full buffer. *)
Lemma ring_len_full w r k :
  0 <= w < W -> 0 <= k < W -> ring_len W w r = k <-> w = (r + k) mod W.
Proof using HW.
  intros Hw Hk. unfold ring_len. split.
  - intros <-. rewrite Z.add_mod_idemp_r by lia. replace (r + (w - r)) with w by lia. by rewrite Z.mod_small.
  - intros ->. rewrite Zminus_mod_idemp_l. replace (r + k - r) with k by lia. by apply Z.mod_small.
Qed.

End Len.
