(* ===== verification/DevSpec.v ===== *)
(** * Specifications of the serial port and of formatted output

    What the routines of [Uart] and [Printf] send, as a function of the device
    state and of the arguments. *)

From S2P Require Import Prelude Riscv Mem Spinlock Proc ProcSpec IoState SleepLock Uart Printf.
From S2P Require Import Ring.

(** ** Output as a list of bytes *)

(** The uart after [bs] have been sent by polling, one after the other. *)
Definition sent_sync (bs : list Z) (u : uart) : uart :=
  foldl (fun u b => set_u_sent (u8 b :: u_sent u) (set_u_room (pred (max 1 (u_room u))) u)) u bs.

Definition int_chars (xx base : Z) : list Z :=
  if xx <? 0 then 45 :: reverse (int_digits 32 (u32 (- xx)) base)
  else reverse (int_digits 32 (u32 xx) base).

Fixpoint ptr_chars (n : nat) (x : Z) : list Z :=
  match n with
  | O => []
  | S n => default 0 (digits !! Z.to_nat (Z.shiftr x 60)) :: ptr_chars n (u64 (Z.shiftl x 4))
  end.

(** The output of [printf], if every conversion finds its argument. *)
Fixpoint printf_chars (fmt : list Z) (ap : list parg) : option (list Z) :=
  match fmt with
  | [] => Some []
  | c :: fmt =>
      if negb (c =? 37) then (c ::.) <$> printf_chars fmt ap
      else
        match fmt with
        | [] => Some []
        | c :: fmt =>
            if c =? 100 then
              match ap with PInt v :: ap => app (int_chars v 10) <$> printf_chars fmt ap | _ => None end
            else if c =? 120 then
              match ap with PInt v :: ap => app (int_chars v 16) <$> printf_chars fmt ap | _ => None end
            else if c =? 112 then
              match ap with
              | PPtr v :: ap => app (48 :: 120 :: ptr_chars 16 v) <$> printf_chars fmt ap
              | _ => None
              end
            else if c =? 115 then
              match ap with
              | PStr s :: ap => app (default (str "(null)") s) <$> printf_chars fmt ap
              | _ => None
              end
            else if c =? 37 then (37 ::.) <$> printf_chars fmt ap
            else (fun l => 37 :: c :: l) <$> printf_chars fmt ap
        end
  end.

Lemma sent_sync_app bs bs' u : sent_sync (bs ++ bs') u = sent_sync bs' (sent_sync bs u).
Proof. apply foldl_app. Qed.

Lemma sent_sync_sent bs u : u_sent (sent_sync bs u) = reverse (u8 <$> bs) ++ u_sent u.
Proof.
  revert u. induction bs as [|b bs IH]; intros u; [done|].
  change (sent_sync (b :: bs) u) with (sent_sync bs (sent_sync [b] u)). rewrite IH.
  cbn [sent_sync foldl u_sent set_u_sent set_u_room fmap list_fmap]. by rewrite reverse_cons, <- app_assoc.
Qed.

Section Spec.
Context `{Linker}.
Implicit Types (s : kernel) (ls : list lockid).

(** ** Interrupts off and on again *)

Definition pushed_lk (k : lkst) : lkst :=
  LkSt (alter (pushed (sie k)) (hart k) (cpus k)) (hart k) false (locks k).

Lemma pop_pushed k c : cpus k !! hart k = Some c -> hart_ok k -> wp pop_off (pushed_lk k) (fun _ => lk_same k).
Proof.
  intros Hc (c0 & Hc0 & Hn0 & Hoff). rewrite Hc in Hc0. injection Hc0 as <-.
  apply (pop_off_wp _ (pushed (sie k) c)); unfold pushed_lk; cbn [cpus hart sie locks].
  { by rewrite list_lookup_alter_eq, Hc. } { simpl. lia. } { done. }
  unfold lk_same. cbn [cpus hart sie locks pushed noff intena]. split_and!; try done.
  - destruct (Z.eqb_spec (noff c) 0) as [E|E].
    + by rewrite (proj2 (Z.eqb_eq _ _)) by lia.
    + rewrite (proj2 (Z.eqb_neq _ _)) by lia. symmetry. apply Hoff. lia.
  - intros i Hi. by rewrite !list_lookup_alter_ne by done.
  - intros c0. rewrite Hc. intros [= <-]. rewrite !list_lookup_alter_eq, Hc. simpl.
    eexists. split; [done|]. simpl. split_and!; [done|lia|].
    intros Hpos. by rewrite (proj2 (Z.eqb_neq _ _)) by lia.
Qed.

Lemma guart_wp {A} (f : uart -> A) s (Q : A -> kernel -> Prop) : Q (f (urt (pfs s))) s -> wp (guart f) s Q.
Proof. intros HQ. unfold guart. by apply iogets_wp. Qed.

Lemma uuart_wp s g (Q : unit -> kernel -> Prop) :
  Q tt (set_pfs (set_urt (g (urt (pfs s))) (pfs s)) s) -> wp (uuart g) s Q.
Proof. intros HQ. unfold uuart. by apply iomod_wp. Qed.

(** ** Output *)

(** [s'] is [s] after [bs] were sent: only the transmitter and the
    bookkeeping of interrupts differ. *)
Definition sends (bs : list Z) s s' : Prop :=
  exists k, lk_same (plk s) k /\ s' = set_pfs (set_urt (sent_sync bs (urt (pfs s))) (pfs s)) (set_plk k s).

Lemma set_urt_id f : set_urt (urt f) f = f.
Proof. by destruct f. Qed.

Lemma sends_nil s : sends [] s s.
Proof. exists (plk s). split; [apply lk_same_refl|]. cbn [sent_sync foldl]. rewrite set_urt_id. by destruct s. Qed.

Lemma sends_app bs bs' s1 s2 s3 : sends bs s1 s2 -> sends bs' s2 s3 -> sends (bs ++ bs') s1 s3.
Proof.
  intros (k & A & ->) (k' & C & ->). exists k'. split; [by eapply lk_same_trans|]. by rewrite sent_sync_app.
Qed.

Lemma sends_frame i bs s s' : sends bs s s' -> kframe i s s'.
Proof. intros (k & A & ->). eapply kframe_trans; [by apply kframe_plk|apply kframe_pfs]. Qed.

Lemma sends_pfs bs s s' : sends bs s s' -> pfs s' = set_urt (sent_sync bs (urt (pfs s))) (pfs s).
Proof. by intros (k & A & ->). Qed.

Lemma sends_ready ls i bs s s' : sends bs s s' -> kready ls i s -> panicked (pfs s) = 0 ->
  kready ls i s' /\ panicked (pfs s') = 0.
Proof.
  intros S Hr Hp. split; [by eapply kready_frame; [|eapply sends_frame]|]. by rewrite (sends_pfs _ _ _ S).
Qed.

Lemma uartputc_sync_wp ls i s c (Q : unit -> kernel -> Prop) :
  kready ls i s -> panicked (pfs s) = 0 -> (forall s2, sends [c] s s2 -> Q tt s2) -> wp (uartputc_sync c) s Q.
Proof.
  intros Hr Hp HQ. pose proof (kready_hart _ _ _ Hr) as Hh. destruct (Hh) as (c0 & Hc0 & Hn & Hoff).
  unfold uartputc_sync. wp_step. unfold inlk. wp_step. apply (push_off_wp _ c0); [done|lia|].
  fold (pushed_lk (plk s)). wp_step. apply iogets_wp. cbn [pfs set_plk]. rewrite Hp. cbn [ctrue Z.eqb negb].
  wp_step. apply uuart_wp. wp_step. apply uuart_wp. apply wp_zoom. cbn [plk set_pfs set_plk].
  eapply wp_mono; [by eapply pop_pushed|]. intros [] k Hk. apply HQ. by exists k.
Qed.

(** [m] sends exactly [bs] and leaves the rest of the kernel alone. *)
Definition emits (ls : list lockid) (i : nat) (bs : list Z) (m : K unit) : Prop :=
  forall s (Q : unit -> kernel -> Prop), kready ls i s -> panicked (pfs s) = 0 ->
    (forall s2, sends bs s s2 -> Q tt s2) -> wp m s Q.

Lemma emits_nil ls i : emits ls i [] (ret tt).
Proof. intros s Q _ _ HQ. apply wp_ret, HQ, sends_nil. Qed.

Lemma emits_bind ls i bs bs' m m' :
  emits ls i bs m -> emits ls i bs' m' -> emits ls i (bs ++ bs') (bind m (fun _ => m')).
Proof.
  intros Hm Hm' s Q Hr Hp HQ. apply wp_bind, Hm; [done|done|]. intros s1 S1.
  destruct (sends_ready ls i bs s s1 S1 Hr Hp). apply Hm'; [done|done|]. intros s2 S2.
  by apply HQ, (sends_app bs bs' s s1 s2).
Qed.

Lemma uartputc_sync_emits ls i c : emits ls i [c] (uartputc_sync c).
Proof. intros s Q Hr Hp HQ. by eapply uartputc_sync_wp. Qed.

Definition chars_ok (cs : list Z) : Prop := Forall (fun c => 0 <= c < 256) cs.

Lemma consputc_emits ls i c : 0 <= c < 256 -> emits ls i [c] (consputc c).
Proof.
  intros Hc. unfold consputc. rewrite (proj2 (Z.eqb_neq c BACKSPACE)) by (unfold BACKSPACE; lia).
  apply uartputc_sync_emits.
Qed.

Lemma backspace_emits ls i : emits ls i [8; 32; 8] (consputc BACKSPACE).
Proof.
  unfold consputc. rewrite Z.eqb_refl.
  apply (emits_bind _ _ [8]), (emits_bind _ _ [32]); apply uartputc_sync_emits.
Qed.

Lemma putchars_emits ls i cs : chars_ok cs -> emits ls i cs (putchars cs).
Proof.
  induction 1 as [|c cs Hc _ IH]; cbn [putchars]; [apply emits_nil|].
  apply (emits_bind _ _ [c]); [by apply consputc_emits|done].
Qed.

(** ** Critical sections that change nothing but the locks *)

Lemma acq_only ls i s l (Q : unit -> kernel -> Prop) :
  kready ls i s -> l ∉ ls -> (length ls < 8)%nat -> match l with ProcLock _ => False | _ => True end ->
  (forall k, acquired l (plk s) k -> kready (l :: ls) i (set_plk k s) -> Q tt (set_plk k s)) ->
  wp (inlk (acquire l)) s Q.
Proof.
  intros Hr Hni Hlen Hl HQ. apply acq_wp; [by eapply kready_hart|by apply Hr|]. intros k Hk. apply HQ; [done|].
  eapply kready_inside; [done..|]. split; [done|]. repeat split; try done. apply woke_only_refl.
Qed.

Lemma acquired_frame ls i s l k k' :
  kready ls i s -> acquired l (plk s) k -> lk_same k k' -> acquired l (plk s) k'.
Proof.
  intros Hr Ha Hs. destruct (kready_hart _ _ _ Hr) as (c & Hc & Hn & _). eapply acquired_same; [done|lia|done|done].
Qed.

Lemma rel_only ls i s l s' (Q : unit -> kernel -> Prop) :
  kready ls i s -> l ∉ ls -> acquired l (plk s) (plk s') ->
  (forall k, lk_same (plk s) k -> Q tt (set_plk k s')) -> wp (inlk (release l)) s' Q.
Proof. intros Hr Hni Ha HQ. apply (rel_wp _ (plk s)); [done|by eapply kready_hart|by apply Hr|done]. Qed.

(** ** Digits *)

Lemma digit_range k : (k < 16)%nat -> exists d, digits !! k = Some d /\ 0 <= d < 256.
Proof.
  intros Hk. destruct (digits !! k) as [d|] eqn:E.
  - exists d. split; [done|]. assert (Hall : Forall (fun c => 0 <= c < 256) digits) by (apply (bool_decide_unpack (Forall _ _)); vm_compute; exact I).
    rewrite Forall_lookup in Hall. by apply (Hall k).
  - apply lookup_ge_None_1 in E. change (length digits) with 16%nat in E. lia.
Qed.

Lemma int_digits_ok fuel x base : 2 <= base <= 16 -> chars_ok (int_digits fuel x base).
Proof.
  intros Hb. revert x. induction fuel as [|fuel IH]; intros x; cbn [int_digits]; [constructor|].
  constructor.
  - pose proof (Z.mod_pos_bound x base). destruct (digit_range (Z.to_nat (x mod base))) as (d & -> & Hd); [lia|done].
  - destruct (x / base =? 0); [constructor|apply IH].
Qed.

(** [x] has at most [k] digits when it is below [base ^ k]. *)
Lemma int_digits_length fuel x base k :
  2 <= base -> 0 <= x < base ^ Z.of_nat k -> (0 < k)%nat -> (length (int_digits fuel x base) <= k)%nat.
Proof.
  intros Hb. revert x k. induction fuel as [|fuel IH]; intros x k Hx Hk; cbn [int_digits]; [simpl; lia|].
  simpl. destruct (Z.eqb_spec (x / base) 0) as [E|E]; [simpl; lia|]. destruct k as [|[|k]]; [lia| |].
  - change (Z.of_nat 1) with 1 in Hx. rewrite Z.pow_1_r in Hx. rewrite Z.div_small in E by lia. done.
  - apply le_n_S, IH; [|lia]. rewrite Nat2Z.inj_succ, Z.pow_succ_r in Hx by lia. split.
    + apply Z.div_pos; lia.
    + apply Z.div_lt_upper_bound; lia.
Qed.

Lemma int_digits_short x base : base = 10 \/ base = 16 -> (length (int_digits 32 (u32 x) base) <= 10)%nat.
Proof.
  intros Hb. pose proof (u32_range x). apply int_digits_length; [lia| |lia].
  destruct Hb as [-> | ->]; change (Z.of_nat 10) with 10; lia.
Qed.

Lemma printint_emits ls i xx base : base = 10 \/ base = 16 -> emits ls i (int_chars xx base) (printint xx base true).
Proof.
  intros Hb. unfold printint, int_chars. cbn [andb].
  assert (Hlen : forall x, (length (int_digits 32 (u32 x) base) <= 10)%nat) by (intros; by apply int_digits_short).
  assert (Hok : forall x, chars_ok (int_digits 32 x base)) by (intros x; apply int_digits_ok; lia).
  destruct (xx <? 0).
  - rewrite (proj2 (Nat.ltb_ge _ _)) by (rewrite length_app; cbn [length]; specialize (Hlen (- xx)); lia).
    rewrite reverse_app. apply putchars_emits. constructor; [lia|]. apply Forall_reverse, Hok.
  - rewrite (proj2 (Nat.ltb_ge _ _)) by (specialize (Hlen xx); lia).
    apply putchars_emits, Forall_reverse, Hok.
Qed.

Lemma top_digit x : 0 <= x < 2 ^ 64 ->
  exists d, digits !! Z.to_nat (Z.shiftr x 60) = Some d /\ 0 <= d < 256.
Proof.
  intros Hx. apply digit_range. rewrite Z.shiftr_div_pow2 by lia.
  assert (x / 2 ^ 60 < 16) by (apply Z.div_lt_upper_bound; lia).
  pose proof (Z.div_pos x (2 ^ 60)). lia.
Qed.

Lemma printptr_loop_emits ls i n x : 0 <= x < 2 ^ 64 -> emits ls i (ptr_chars n x) (printptr_loop n x).
Proof.
  revert x. induction n as [|n IH]; intros x Hx; cbn [printptr_loop ptr_chars]; [apply emits_nil|].
  destruct (top_digit x Hx) as (d & -> & Hd). simpl default.
  apply (emits_bind _ _ [d]); [by apply consputc_emits|apply IH, u64_range].
Qed.

Lemma printptr_emits ls i x : 0 <= x < 2 ^ 64 -> emits ls i (48 :: 120 :: ptr_chars 16 x) (printptr x).
Proof.
  intros Hx. apply (emits_bind _ _ [48]); [apply consputc_emits; lia|].
  apply (emits_bind _ _ [120]); [apply consputc_emits; lia|by apply printptr_loop_emits].
Qed.

(** An argument as C can pass it: a pointer of 64 bits, a string of bytes. *)
Definition parg_ok (a : parg) : Prop :=
  match a with
  | PInt _ => True
  | PPtr v => 0 <= v < 2 ^ 64
  | PStr s => chars_ok (default [] s)
  end.

Lemma parg_str_ok o : chars_ok (default [] o) -> chars_ok (default (str "(null)") o).
Proof. destruct o; [done|]. intros _. apply (bool_decide_unpack (Forall _ _)). vm_compute. exact I. Qed.

Lemma printf_loop_emits ls i n fmt ap out :
  (length fmt <= n)%nat -> chars_ok fmt -> Forall parg_ok ap ->
  printf_chars fmt ap = Some out -> emits ls i out (printf_loop fmt ap).
Proof.
  revert fmt ap out. induction n as [|n IH]; intros [|c fmt] ap out Hn Hf Ha Ho; try (simpl in Hn; lia);
    cbn [printf_loop printf_chars] in *; try (injection Ho as <-; apply emits_nil).
  apply Forall_cons in Hf as [Hc Hf].
  destruct (negb (c =? 37)).
  { apply fmap_Some in Ho as (o & Ho & ->). apply (emits_bind _ _ [c]); [by apply consputc_emits|].
    apply IH; [simpl in Hn; lia|done..]. }
  destruct fmt as [|c' fmt]; [injection Ho as <-; apply emits_nil|]. apply Forall_cons in Hf as [Hc' Hf].
  assert (Hrest : forall ap o, Forall parg_ok ap -> printf_chars fmt ap = Some o -> emits ls i o (printf_loop fmt ap))
    by (intros; apply IH; [simpl in Hn; lia|done..]).
  assert (Harg : forall a ap', ap = a :: ap' -> parg_ok a /\ Forall parg_ok ap') by (by intros ? ? ->; apply Forall_cons).
  repeat case_match; try discriminate; try (destruct (Harg _ _ eq_refl) as [Hv Hap]);
    apply fmap_Some in Ho as (o & Ho & ->).
  - apply emits_bind; [apply printint_emits; tauto|auto].
  - apply emits_bind; [apply printint_emits; tauto|auto].
  - apply emits_bind; [by apply printptr_emits|auto].
  - apply emits_bind; [by apply putchars_emits, parg_str_ok|auto].
  - apply (emits_bind _ _ [37]); [apply consputc_emits; lia|auto].
  - apply (emits_bind _ _ [37]); [apply consputc_emits; lia|].
    apply (emits_bind _ _ [c']); [by apply consputc_emits|auto].
Qed.

Lemma printf_emits ls i fmt ap out :
  chars_ok fmt -> Forall parg_ok ap -> printf_chars fmt ap = Some out ->
  (length ls < 8)%nat -> PrLock ∉ ls -> emits ls i out (printf fmt ap).
Proof.
  intros Hf Ha Ho Hlen Hnot s Q Hr Hp HQ. unfold printf. wp_step. apply iogets_wp.
  destruct (ctrue (pr_locking (pfs s))).
  - wp_step. eapply (acq_only ls i s PrLock); [done..|]. intros k1 A1 R1. wp_step.
    eapply (printf_loop_emits (PrLock :: ls) i (length fmt)); [done..|]. intros s2 (k2 & K2 & ->).
    eapply (rel_only ls i s PrLock); [done|done|by eapply acquired_frame|]. intros k3 K3. apply HQ. exists k3. by split.
  - wp_step. apply wp_ret. wp_step. eapply (printf_loop_emits ls i (length fmt)); [done..|].
    intros s1 S1. apply wp_ret. by apply HQ.
Qed.

End Spec.

(** ** Reading numbers back *)

Definition digit_val (d : Z) : Z := if d <=? 57 then d - 48 else d - 87.
Definition read_digits (base : Z) (ds : list Z) : Z := foldl (fun v d => v * base + digit_val d) 0 ds.
Definition read_int (base : Z) (cs : list Z) : Z :=
  match cs with
  | c :: ds => if c =? 45 then - read_digits base ds else read_digits base cs
  | [] => 0
  end.

Lemma digit_val_ok k : (k < 16)%nat -> exists d, digits !! k = Some d /\ digit_val d = Z.of_nat k /\ 48 <= d.
Proof. intros Hk. do 16 (destruct k as [|k]; [eexists; split; [reflexivity|by vm_compute]|]). lia. Qed.

Lemma read_digits_snoc base ds d : read_digits base (ds ++ [d]) = read_digits base ds * base + digit_val d.
Proof. unfold read_digits. by rewrite foldl_app. Qed.

Lemma int_digits_read fuel x base :
  2 <= base <= 16 -> 0 <= x < base ^ Z.of_nat fuel -> read_digits base (reverse (int_digits fuel x base)) = x.
Proof.
  intros Hb. revert x. induction fuel as [|fuel IH]; intros x Hx.
  { change (base ^ Z.of_nat 0) with 1 in Hx. assert (x = 0) by lia. by subst. }
  rewrite Nat2Z.inj_succ, Z.pow_succ_r in Hx by lia.
  cbn [int_digits]. rewrite reverse_cons, read_digits_snoc.
  pose proof (Z.mod_pos_bound x base). destruct (digit_val_ok (Z.to_nat (x mod base))) as (d & -> & Hd & _); [lia|].
  simpl default. rewrite Hd, Z2Nat.id by lia. pose proof (Z.div_mod x base).
  destruct (Z.eqb_spec (x / base) 0) as [E|E]; [cbn; lia|]. rewrite IH; [lia|].
  split; [apply Z.div_pos; lia|apply Z.div_lt_upper_bound; lia].
Qed.

Lemma int_digits_head fuel x base : 2 <= base <= 16 -> Forall (fun d => 48 <= d) (int_digits fuel x base).
Proof.
  intros Hb. revert x. induction fuel as [|fuel IH]; intros x; cbn [int_digits]; constructor.
  - pose proof (Z.mod_pos_bound x base). destruct (digit_val_ok (Z.to_nat (x mod base))) as (d & -> & _ & Hd); [lia|done].
  - destruct (x / base =? 0); [constructor|apply IH].
Qed.

Lemma int_chars_read xx base :
  base = 10 \/ base = 16 -> - 2 ^ 31 <= xx < 2 ^ 31 -> read_int base (int_chars xx base) = xx.
Proof.
  intros Hb Hx. assert (Hpow : 2 ^ 32 <= base ^ Z.of_nat 32) by (destruct Hb as [-> | ->]; vm_compute; congruence).
  unfold int_chars. destruct (Z.ltb_spec xx 0).
  - cbn [read_int Z.eqb Pos.eqb]. rewrite u32_small, int_digits_read by lia. lia.
  - rewrite u32_small by lia. pose proof (int_digits_read 32 xx base ltac:(lia) ltac:(lia)) as E.
    assert (Hh : Forall (fun d => 48 <= d) (reverse (int_digits 32 xx base))) by (apply Forall_reverse, int_digits_head; lia).
    destruct (reverse (int_digits 32 xx base)) as [|c ds]; [by rewrite <- E|].
    apply Forall_cons in Hh as [Hc _]. cbn [read_int]. by rewrite (proj2 (Z.eqb_neq c 45)) by lia.
Qed.

Lemma chars_u8 cs : chars_ok cs -> u8 <$> cs = cs.
Proof. induction 1 as [|c cs Hc _ IH]; [done|]. cbn. by rewrite IH, u8_small. Qed.

Lemma int_chars_ok xx base : 2 <= base <= 16 -> chars_ok (int_chars xx base).
Proof.
  intros Hb. unfold int_chars. destruct (xx <? 0); [constructor; [lia|]|]; apply Forall_reverse, int_digits_ok; lia.
Qed.

Lemma int_chars_length xx base : base = 10 \/ base = 16 -> (length (int_chars xx base) <= 11)%nat.
Proof.
  intros Hb. unfold int_chars. pose proof (int_digits_short xx base Hb). pose proof (int_digits_short (- xx) base Hb).
  destruct (xx <? 0); cbn [length]; rewrite length_reverse; lia.
Qed.

(** * The transmit queue of the serial port

    The circular buffer of [uart.c] is a queue: [uartputc] appends a byte,
    [uartstart] moves bytes from its front to the device. *)

Definition uart_inv (u : uart) : Prop :=
  length (tx_buf u) = uart_tx_buf_size /\ Forall (fun c => 0 <= c < 256) (tx_buf u) /\
  0 <= tx_w u < 2 ^ 64 /\ 0 <= tx_r u < 2 ^ 64 /\ ring_len (2 ^ 64) (tx_w u) (tx_r u) <= UART_TX_BUF_SIZE.

(** Bytes that wait in the buffer, oldest first. *)
Definition pending (u : uart) : list Z :=
  ring UART_TX_BUF_SIZE (at_ix (tx_buf u)) (tx_r u)
    (Z.to_nat (ring_len (2 ^ 64) (tx_w u) (tx_r u))).

(** Everything sent or to be sent, in order. *)
Definition stream (u : uart) : list Z := reverse (u_sent u) ++ pending u.

(** [n] bytes went from the buffer to the device. *)
Definition drained (n : nat) (u u' : uart) : Prop :=
  uart_inv u' /\ pending u' = drop n (pending u) /\ u_sent u' = reverse (take n (pending u)) ++ u_sent u /\
  u_room u' = (u_room u - n)%nat /\ u_rx u' = u_rx u /\ u_conf u' = u_conf u.

Lemma tx_size : 0 < UART_TX_BUF_SIZE. Proof. done. Qed.
Lemma tx_div : (UART_TX_BUF_SIZE | 2 ^ 64). Proof. by exists (2 ^ 59). Qed.

Lemma pending_bytes u c : uart_inv u -> c ∈ pending u -> 0 <= c < 256.
Proof.
  intros (Hl & Hb & _) Hc. unfold pending, ring in Hc. apply list_elem_of_fmap in Hc as (k & -> & _).
  unfold at_ix. destruct (tx_buf u !! _) as [c|] eqn:E; [|simpl; lia]. simpl. rewrite Forall_lookup in Hb. eauto.
Qed.

Lemma pending_nil u : uart_inv u -> tx_w u = tx_r u <-> pending u = [].
Proof.
  intros (_ & _ & Hw & Hr & _). rewrite <- (ring_len_0 (2 ^ 64)) by done.
  pose proof (ring_len_range (2 ^ 64) ltac:(lia) (tx_w u) (tx_r u)). split.
  - intros E. unfold pending. by rewrite E.
  - intros E. apply (f_equal length) in E. unfold pending in E. rewrite length_ring in E. simpl in E. lia.
Qed.

Lemma pending_length u : uart_inv u -> length (pending u) = Z.to_nat (ring_len (2 ^ 64) (tx_w u) (tx_r u)).
Proof. intros _. apply length_ring. Qed.

(** Taking the byte at [tx_r]. *)
Lemma pending_pop u : uart_inv u -> tx_w u <> tx_r u ->
  exists c, tx_buf u !! Z.to_nat (tx_r u mod UART_TX_BUF_SIZE) = Some c /\ 0 <= c < 256 /\
    pending u = c :: pending (set_tx_r (u64 (tx_r u + 1)) u) /\ uart_inv (set_tx_r (u64 (tx_r u + 1)) u).
Proof.
  intros Hi Hne. pose proof Hi as (Hl & Hb & Hw & Hr & Hlen).
  pose proof (Z.mod_pos_bound (tx_r u) UART_TX_BUF_SIZE tx_size) as Hm.
  destruct (lookup_lt_is_Some_2 (tx_buf u) (Z.to_nat (tx_r u mod UART_TX_BUF_SIZE))) as [c Hc].
  { rewrite Hl. unfold UART_TX_BUF_SIZE, uart_tx_buf_size in *. lia. }
  pose proof (ring_len_range (2 ^ 64) ltac:(lia) (tx_w u) (tx_r u)).
  assert (Hpos : 0 < ring_len (2 ^ 64) (tx_w u) (tx_r u)).
  { destruct (Z.eq_dec (ring_len (2 ^ 64) (tx_w u) (tx_r u)) 0) as [E|E]; [|lia]. by apply ring_len_0 in E. }
  pose proof (ring_len_pop (2 ^ 64) ltac:(lia) (tx_w u) (tx_r u) Hpos) as Hpop.
  exists c. split_and!; [done|by rewrite Forall_lookup in Hb; eapply Hb..| |].
  - unfold pending. cbn [tx_buf tx_w tx_r set_tx_r]. unfold u64. rewrite Hpop.
    replace (Z.to_nat (ring_len (2 ^ 64) (tx_w u) (tx_r u)))
      with (S (Z.to_nat (ring_len (2 ^ 64) (tx_w u) (tx_r u) - 1))) by lia.
    rewrite ring_cons, ring_wrap by (apply tx_div || done). unfold at_ix at 1. by rewrite Hc.
  - unfold uart_inv. cbn [tx_buf tx_w tx_r set_tx_r]. unfold u64. rewrite Hpop.
    split_and!; try done; try lia; apply Z.mod_pos_bound; lia.
Qed.

(** Storing a byte at [tx_w]. *)
Definition tx_push (c : Z) (u : uart) : uart :=
  set_tx_w (u64 (tx_w u + 1)) (set_tx_buf (<[Z.to_nat (tx_w u mod UART_TX_BUF_SIZE) := u8 c]> (tx_buf u)) u).

Lemma pending_push u c : uart_inv u -> (length (pending u) < uart_tx_buf_size)%nat ->
  pending (tx_push c u) = pending u ++ [u8 c] /\ uart_inv (tx_push c u).
Proof.
  intros Hi Hlt. pose proof Hi as (Hl & Hb & Hw & Hr & Hlen). rewrite pending_length in Hlt by done.
  pose proof (ring_len_range (2 ^ 64) ltac:(lia) (tx_w u) (tx_r u)) as Hrg.
  assert (Hlt' : ring_len (2 ^ 64) (tx_w u) (tx_r u) < UART_TX_BUF_SIZE) by (unfold uart_tx_buf_size, UART_TX_BUF_SIZE in *; lia).
  pose proof (ring_len_push (2 ^ 64) ltac:(lia) (tx_w u) (tx_r u) ltac:(unfold UART_TX_BUF_SIZE in *; lia)) as Hpush.
  pose proof (Z.mod_pos_bound (tx_w u) UART_TX_BUF_SIZE tx_size) as Hm.
  assert (Hend := ring_end (2 ^ 64) ltac:(lia) UART_TX_BUF_SIZE (tx_w u) (tx_r u) tx_size tx_div).
  split.
  - unfold pending. cbn [tx_buf tx_w tx_r tx_push set_tx_w set_tx_buf]. unfold u64. rewrite Hpush.
    replace (Z.to_nat (ring_len (2 ^ 64) (tx_w u) (tx_r u) + 1))
      with (S (Z.to_nat (ring_len (2 ^ 64) (tx_w u) (tx_r u)))) by lia.
    rewrite <- Hend, <- (Z2Nat.id (ring_len (2 ^ 64) (tx_w u) (tx_r u))) at 1 by lia.
    apply (ring_insert _ tx_size); [lia|done].
  - unfold uart_inv. cbn [tx_buf tx_w tx_r tx_push set_tx_w set_tx_buf]. unfold u64. rewrite Hpush, length_insert.
    split_and!; try done; try lia; try (apply Z.mod_pos_bound; lia).
    apply Forall_insert; [done|apply u8_range].
Qed.

(** ** The operations *)

Section Spec.
Context `{Linker}.
Implicit Types (s : kernel) (ls : list lockid).

Lemma uartstart_loop_wp ls i fuel s (Q : unit -> kernel -> Prop) :
  kready ls i s -> uart_inv (urt (pfs s)) -> (length (pending (urt (pfs s))) < fuel)%nat ->
  (forall s2 u, kframe i s s2 -> pfs s2 = set_urt u (pfs s) ->
     drained (min (u_room (urt (pfs s))) (length (pending (urt (pfs s))))) (urt (pfs s)) u -> Q tt s2) ->
  wp (uartstart_loop fuel) s Q.
Proof.
  revert s. induction fuel as [|fuel IH]; intros s Hr Hi Hf HQ; [lia|]. cbn [uartstart_loop].
  set (u := urt (pfs s)) in *. wp_step. apply guart_wp. wp_step. apply guart_wp. fold u.
  assert (Hstop : min (u_room u) (length (pending u)) = 0%nat -> Q tt s).
  { intros E. apply (HQ s u); [apply kframe_refl|by unfold u; rewrite set_urt_id|]. rewrite E.
    unfold drained. by rewrite drop_0, take_0, Nat.sub_0_r. }
  destruct (Z.eqb_spec (tx_w u) (tx_r u)) as [E|E].
  { apply wp_ret, Hstop. apply pending_nil in E; [|done]. rewrite E. simpl. lia. }
  wp_step. apply guart_wp. fold u. destruct (Nat.eqb_spec (u_room u) 0) as [Er|Er]; cbn [negb].
  { apply wp_ret, Hstop. rewrite Er. done. }
  destruct (pending_pop u Hi E) as (c & Hc & Hcb & Hp & Hi'). set (u1 := set_tx_r (u64 (tx_r u + 1)) u) in *.
  wp_step. apply guart_wp. fold u. rewrite Hc. wp_step. apply wp_ret. wp_step. apply uuart_wp. wp_step.
  eapply (k_wakeup ls i). { by eapply kready_frame, kframe_pfs. }
  intros s1 K1 E1. wp_step. apply uuart_wp. rewrite E1. cbn [pfs set_pfs urt set_urt]. fold u u1.
  set (u2 := set_u_sent _ _). assert (Hu2 : pending u2 = pending u1 /\ uart_inv u2) by done.
  destruct Hu2 as [Hp2 Hi2].
  assert (K2 : kframe i s (set_pfs (set_urt u2 (set_urt u1 (pfs s))) s1)).
  { eapply kframe_trans, kframe_pfs. by eapply kframe_trans; [apply kframe_pfs|]. }
  apply IH; cbn [pfs set_pfs urt set_urt]; [by eapply kready_frame|done| |].
  { rewrite Hp2. rewrite Hp in Hf. simpl in Hf. lia. }
  intros s3 u3 K3 E3 (D1 & D2 & D3 & D4 & D5 & D6). apply (HQ s3 u3); [by eapply kframe_trans|by rewrite E3|].
  rewrite Hp2 in *. unfold drained. rewrite Hp. replace (min (u_room u) (length (c :: pending u1)))
    with (S (min (u_room u2) (length (pending u1)))) by (simpl; lia).
  split_and!; try done.
  - rewrite D3. cbn [take u_sent u2 set_u_sent]. rewrite reverse_cons, <- app_assoc. by rewrite u8_small.
  - rewrite D4. simpl. lia.
Qed.

Lemma uartstart_wp ls i s (Q : unit -> kernel -> Prop) :
  kready ls i s -> uart_inv (urt (pfs s)) ->
  (forall s2 u, kframe i s s2 -> pfs s2 = set_urt u (pfs s) ->
     drained (min (u_room (urt (pfs s))) (length (pending (urt (pfs s))))) (urt (pfs s)) u -> Q tt s2) ->
  wp uartstart s Q.
Proof.
  intros Hr Hi HQ. apply (uartstart_loop_wp ls i); [done|done| |done].
  rewrite pending_length by done. destruct Hi as (_ & _ & _ & _ & Hl).
  unfold UART_TX_BUF_SIZE, uart_tx_buf_size in *. lia.
Qed.

(** [uartputc] in a queue with room. *)
Lemma uartputc_wp ls i s c (Q : unit -> kernel -> Prop) :
  kready ls i s -> UartLock ∉ ls -> (length ls < 8)%nat -> panicked (pfs s) = 0 -> uart_inv (urt (pfs s)) ->
  (length (pending (urt (pfs s))) < uart_tx_buf_size)%nat ->
  (forall s2 u, kframe i s s2 -> pfs s2 = set_urt u (pfs s) ->
     drained (min (u_room (urt (pfs s))) (S (length (pending (urt (pfs s)))))) (tx_push c (urt (pfs s))) u -> Q tt s2) ->
  wp (uartputc c) s Q.
Proof.
  intros Hr Hni Hlen Hp Hi Hlt HQ. destruct (pending_push _ c Hi Hlt) as [Hpend Hi1].
  unfold uartputc. wp_step. eapply (k_acq ls i s UartLock); [done..|]. intros s1 I1 R1 E1.
  wp_step. apply iogets_wp. rewrite E1, Hp. cbn [ctrue Z.eqb negb]. wp_step. apply guart_wp. wp_step. apply guart_wp.
  rewrite E1. set (u := urt (pfs s)) in *.
  assert (Hnf : tx_w u <> u64 (tx_r u + UART_TX_BUF_SIZE)).
  { pose proof Hi as (_ & _ & Hw & _). rewrite pending_length in Hlt by done.
    intros E. unfold u64 in E. apply ring_len_full in E; [|done|done|done].
    rewrite E in Hlt. unfold UART_TX_BUF_SIZE, uart_tx_buf_size in Hlt. lia. }
  rewrite (proj2 (Z.eqb_neq _ _) Hnf). wp_step. apply uuart_wp. wp_step. apply uuart_wp.
  rewrite E1. cbn [pfs set_pfs urt set_urt]. fold u.
  wp_step. eapply (uartstart_wp (UartLock :: ls) i); cbn [pfs set_pfs urt set_urt].
  { eapply kready_frame, kframe_trans, kframe_pfs; [done|apply kframe_pfs]. } { done. }
  intros s2 u2 K2 E2 D2. eapply (k_rel ls i s s2); [done|done| |].
  { eapply inside_frame; [done|done|]. eapply kframe_trans, K2. eapply kframe_trans; apply kframe_pfs. }
  intros s3 K3 E3. apply (HQ s3 u2); [done|by rewrite E3, E2|].
  replace (S (length (pending u))) with (length (pending (tx_push c u))) by (rewrite Hpend, length_app; simpl; lia).
  exact D2.
Qed.

(** In a full queue it waits. *)
Lemma uartputc_full ls i s c :
  kready ls i s -> UartLock ∉ ls -> (length ls < 8)%nat -> panicked (pfs s) = 0 -> uart_inv (urt (pfs s)) ->
  length (pending (urt (pfs s))) = uart_tx_buf_size -> uartputc c s = Fail (EBlock "uartputc").
Proof.
  intros Hr Hni Hlen Hp Hi Hfull. unfold uartputc. apply bind_fail_r.
  eapply (k_acq ls i s UartLock); [done..|]. intros s1 I1 R1 E1.
  apply bind_fail_r, iogets_wp. rewrite E1, Hp. cbn [ctrue Z.eqb negb].
  apply bind_fail_r, guart_wp. apply bind_fail_r, guart_wp. rewrite E1. set (u := urt (pfs s)) in *.
  rewrite (proj2 (Z.eqb_eq (tx_w u) (u64 (tx_r u + UART_TX_BUF_SIZE)))); [done|].
  rewrite pending_length in Hfull by done. apply (ring_len_full (2 ^ 64)); [done|apply Hi|done|].
  pose proof (ring_len_range (2 ^ 64) ltac:(lia) (tx_w u) (tx_r u)).
  unfold UART_TX_BUF_SIZE, uart_tx_buf_size in *. lia.
Qed.

End Spec.
