(* ===== verification/ConsoleSpec.v ===== *)
(** * The line discipline of the console

    Seen from outside, the console holds two lists: the bytes a reader can
    take, and the line that is being typed and can still be edited. *)

From S2P Require Import Prelude Riscv Mem CString Kalloc Spinlock Proc ProcSpec IoState SleepLock.
From S2P Require Import Uart Printf Console Ring DevSpec.
From S2P Require Import Vm PageTable VmSpec UserCopy UserMem.

Definition W32 : Z := 2 ^ 32.

Definition unread (c : console) : list Z :=
  ring INPUT_BUF_SIZE (at_ix (c_buf c)) (c_r c) (Z.to_nat (ring_len W32 (c_w c) (c_r c))).
Definition editing (c : console) : list Z :=
  ring INPUT_BUF_SIZE (at_ix (c_buf c)) (c_w c) (Z.to_nat (ring_len W32 (c_e c) (c_w c))).

(** The counters are ordered and at most a buffer apart. *)
Record cons_wf (c : console) : Prop := {
  cw_buf : length (c_buf c) = input_buf_size;
  cw_bytes : chars_ok (c_buf c);
  cw_r : 0 <= c_r c < W32;
  cw_w : 0 <= c_w c < W32;
  cw_e : 0 <= c_e c < W32;
  cw_split : ring_len W32 (c_e c) (c_r c) = ring_len W32 (c_w c) (c_r c) + ring_len W32 (c_e c) (c_w c);
  cw_full : ring_len W32 (c_e c) (c_r c) <= INPUT_BUF_SIZE;
}.

(** The line being edited holds no newline: that would have ended it. *)
Definition cons_inv (c : console) : Prop := cons_wf c /\ NL ∉ editing c.

(** What a character does to the two lists. *)
Definition line_step (st : list Z * list Z) (c : Z) : list Z * list Z :=
  let '(com, ed) := st in
  if c =? C_P then (com, ed)
  else if c =? C_U then (com, [])
  else if (c =? C_H) || (c =? 0x7f) then (com, removelast ed)
  else if (c =? 0) || (input_buf_size <=? length com + length ed)%nat then (com, ed)
  else
    let c := if c =? CR then NL else c in
    let ed := ed ++ [c] in
    if (c =? NL) || (c =? C_D) || (length com + length ed =? input_buf_size)%nat then (com ++ ed, [])
    else (com, ed).

(** What it makes the terminal show. *)
Definition rubout : list Z := [8; 32; 8].
Definition line_echo (st : list Z * list Z) (c : Z) : list Z :=
  let '(com, ed) := st in
  if c =? C_U then mjoin (replicate (length ed) rubout)
  else if (c =? C_H) || (c =? 0x7f) then if decide (ed = []) then [] else rubout
  else if (c =? 0) || (input_buf_size <=? length com + length ed)%nat then []
  else [if c =? CR then NL else c].

Lemma in_size : 0 < INPUT_BUF_SIZE. Proof. done. Qed.
Lemma w32_pos : 0 < W32. Proof. done. Qed.
Lemma in_div : (INPUT_BUF_SIZE | W32). Proof. by exists (2 ^ 25). Qed.

(** ** The buffer as one queue *)

Definition whole (c : console) : list Z :=
  ring INPUT_BUF_SIZE (at_ix (c_buf c)) (c_r c) (Z.to_nat (ring_len W32 (c_e c) (c_r c))).

Lemma lens_range c : 0 <= ring_len W32 (c_w c) (c_r c) /\ 0 <= ring_len W32 (c_e c) (c_w c) /\
  0 <= ring_len W32 (c_e c) (c_r c).
Proof.
  pose proof (ring_len_range W32 w32_pos (c_w c) (c_r c)). pose proof (ring_len_range W32 w32_pos (c_e c) (c_w c)).
  pose proof (ring_len_range W32 w32_pos (c_e c) (c_r c)). lia.
Qed.

Lemma length_unread c : length (unread c) = Z.to_nat (ring_len W32 (c_w c) (c_r c)).
Proof. apply length_ring. Qed.

Lemma length_editing c : length (editing c) = Z.to_nat (ring_len W32 (c_e c) (c_w c)).
Proof. apply length_ring. Qed.

(** A queue may start at any counter with the same element. *)
Lemma ring_start f r r' n : r mod INPUT_BUF_SIZE = r' mod INPUT_BUF_SIZE ->
  ring INPUT_BUF_SIZE f r n = ring INPUT_BUF_SIZE f r' n.
Proof.
  intros E. unfold ring. apply list_fmap_ext. intros k x _. f_equal.
  rewrite <- (Z.add_mod_idemp_l r), <- (Z.add_mod_idemp_l r'), E by done. done.
Qed.

Lemma whole_split c : cons_wf c -> whole c = unread c ++ editing c.
Proof.
  intros Hc. unfold whole. destruct (lens_range c) as (A & B & _). rewrite (cw_split c Hc), Z2Nat.inj_add, ring_app by done.
  f_equal. rewrite Z2Nat.id by done. apply ring_start, ring_end; [done..|apply in_div].
Qed.

Lemma queue_length c : cons_wf c ->
  Z.of_nat (length (unread c) + length (editing c)) = ring_len W32 (c_e c) (c_r c).
Proof. intros Hc. rewrite length_unread, length_editing, (cw_split c Hc). destruct (lens_range c). lia. Qed.

(** ** Changes of the buffer *)

Definition push_char (b : Z) (c : console) : console :=
  set_c_e (u32 (c_e c + 1)) (set_c_buf (<[cons_ix (c_e c) := b]> (c_buf c)) c).

Lemma push_char_ok b c : cons_wf c -> 0 <= b < 256 -> (length (unread c) + length (editing c) < input_buf_size)%nat ->
  cons_wf (push_char b c) /\ unread (push_char b c) = unread c /\ editing (push_char b c) = editing c ++ [b].
Proof.
  intros Hc Hb Hlt. pose proof (queue_length c Hc) as Hq. pose proof (lens_range c) as (A & B & C).
  assert (Hlt' : ring_len W32 (c_e c) (c_r c) < INPUT_BUF_SIZE) by (unfold INPUT_BUF_SIZE, input_buf_size in *; lia).
  pose proof (cw_split c Hc) as Hs.
  pose proof (ring_len_push W32 w32_pos (c_e c) (c_r c) ltac:(unfold INPUT_BUF_SIZE, W32 in *; lia)) as P1.
  pose proof (ring_len_push W32 w32_pos (c_e c) (c_w c) ltac:(unfold INPUT_BUF_SIZE, W32 in *; lia)) as P2.
  assert (Hwf : cons_wf (push_char b c)).
  { destruct Hc. constructor; cbn [c_buf c_r c_w c_e push_char set_c_e set_c_buf]; try done.
    - by rewrite length_insert.
    - by apply Forall_insert.
    - apply u32_range.
    - change u32 with (fun z => z mod W32). cbv beta. rewrite P1, P2. lia.
    - change u32 with (fun z => z mod W32). cbv beta. rewrite P1. lia. }
  assert (Hw : whole (push_char b c) = whole c ++ [b]).
  { unfold whole. cbn [c_buf c_r c_w c_e push_char set_c_e set_c_buf].
    change u32 with (fun z => z mod W32). cbv beta. rewrite P1, Z2Nat.inj_add, Nat.add_1_r by lia.
    unfold cons_ix. rewrite <- (ring_end W32 w32_pos INPUT_BUF_SIZE (c_e c) (c_r c) in_size in_div).
    rewrite <- (Z2Nat.id (ring_len W32 (c_e c) (c_r c))) at 1 by lia.
    apply (ring_insert _ in_size); [lia|]. by rewrite (cw_buf c Hc). }
  rewrite !whole_split, <- app_assoc in Hw by done. apply app_inj_1 in Hw as [Hu He].
  - done.
  - rewrite !length_unread. done.
Qed.

Definition commit_line (c : console) : console := set_c_w (c_e c) c.

Lemma commit_line_ok c : cons_wf c ->
  cons_inv (commit_line c) /\ unread (commit_line c) = unread c ++ editing c /\ editing (commit_line c) = [].
Proof.
  intros Hc. assert (He : editing (commit_line c) = []).
  { unfold editing. cbn [c_buf c_r c_w c_e commit_line set_c_w]. by rewrite ring_len_self. }
  split_and!; [split|..]; [|by rewrite He; apply not_elem_of_nil|by rewrite <- whole_split|done].
  destruct Hc. constructor; cbn [c_buf c_r c_w c_e commit_line set_c_w]; try done.
  rewrite ring_len_self. lia.
Qed.

Definition erase_char (c : console) : console := set_c_e (u32 (c_e c - 1)) c.

Lemma erase_char_ok c : cons_wf c -> c_e c <> c_w c ->
  cons_wf (erase_char c) /\ unread (erase_char c) = unread c /\
  exists b, c_buf c !! cons_ix (u32 (c_e c - 1)) = Some b /\ editing c = editing (erase_char c) ++ [b].
Proof.
  intros Hc Hne. pose proof (lens_range c) as (A & B & C). pose proof (cw_split c Hc) as Hs.
  assert (Hpos : 0 < ring_len W32 (c_e c) (c_w c)).
  { destruct (Z.eq_dec (ring_len W32 (c_e c) (c_w c)) 0) as [E|E]; [|lia].
    apply ring_len_0 in E; [done|apply w32_pos|apply Hc..]. }
  pose proof (ring_len_unpush W32 w32_pos (c_e c) (c_w c) Hpos) as P1.
  pose proof (ring_len_unpush W32 w32_pos (c_e c) (c_r c) ltac:(lia)) as P2.
  split_and!.
  - destruct Hc. constructor; cbn [c_buf c_r c_w c_e erase_char set_c_e]; try done.
    + apply u32_range.
    + change u32 with (fun z => z mod W32). cbv beta. rewrite P1, P2. lia.
    + change u32 with (fun z => z mod W32). cbv beta. rewrite P2. lia.
  - done.
  - pose proof (Z.mod_pos_bound (u32 (c_e c - 1)) INPUT_BUF_SIZE in_size) as Hm.
    destruct (lookup_lt_is_Some_2 (c_buf c) (cons_ix (u32 (c_e c - 1)))) as [b Hb].
    { rewrite (cw_buf c Hc). unfold cons_ix, INPUT_BUF_SIZE, input_buf_size in *. lia. }
    exists b. split; [done|]. unfold editing. cbn [c_buf c_r c_w c_e erase_char set_c_e].
    change u32 with (fun z => z mod W32) in *. cbv beta in *. rewrite P1.
    replace (Z.to_nat (ring_len W32 (c_e c) (c_w c))) with (S (Z.to_nat (ring_len W32 (c_e c) (c_w c) - 1))) by lia.
    rewrite ring_snoc. f_equal. f_equal. rewrite <- P1, Z2Nat.id by lia.
    rewrite (ring_end W32 w32_pos INPUT_BUF_SIZE) by (apply in_size || apply in_div).
    unfold at_ix. unfold cons_ix in Hb. by rewrite Hb.
Qed.

Definition pop_char (c : console) : console := set_c_r (u32 (c_r c + 1)) c.

Lemma pop_char_ok c : cons_wf c -> c_r c <> c_w c ->
  cons_wf (pop_char c) /\ editing (pop_char c) = editing c /\
  exists b, c_buf c !! cons_ix (c_r c) = Some b /\ 0 <= b < 256 /\ unread c = b :: unread (pop_char c).
Proof.
  intros Hc Hne. pose proof (lens_range c) as (A & B & C). pose proof (cw_split c Hc) as Hs.
  assert (Hpos : 0 < ring_len W32 (c_w c) (c_r c)).
  { destruct (Z.eq_dec (ring_len W32 (c_w c) (c_r c)) 0) as [E|E]; [|lia].
    apply ring_len_0 in E; [done|apply w32_pos|apply Hc..]. }
  pose proof (ring_len_pop W32 w32_pos (c_w c) (c_r c) Hpos) as P1.
  pose proof (ring_len_pop W32 w32_pos (c_e c) (c_r c) ltac:(lia)) as P2.
  split_and!.
  - destruct Hc. constructor; cbn [c_buf c_r c_w c_e pop_char set_c_r]; try done.
    + apply u32_range.
    + change u32 with (fun z => z mod W32). cbv beta. rewrite P1, P2. lia.
    + change u32 with (fun z => z mod W32). cbv beta. rewrite P2. lia.
  - done.
  - pose proof (Z.mod_pos_bound (c_r c) INPUT_BUF_SIZE in_size) as Hm.
    destruct (lookup_lt_is_Some_2 (c_buf c) (cons_ix (c_r c))) as [b Hb].
    { rewrite (cw_buf c Hc). unfold cons_ix, INPUT_BUF_SIZE, input_buf_size in *. lia. }
    exists b. split; [done|]. split.
    { pose proof (cw_bytes c Hc) as Hall. unfold chars_ok in Hall. rewrite Forall_lookup in Hall. by eapply Hall. }
    unfold unread. cbn [c_buf c_r c_w c_e pop_char set_c_r].
    change u32 with (fun z => z mod W32) in *. cbv beta in *. rewrite P1.
    replace (Z.to_nat (ring_len W32 (c_w c) (c_r c))) with (S (Z.to_nat (ring_len W32 (c_w c) (c_r c) - 1))) by lia.
    rewrite ring_cons, (ring_wrap _ in_size W32) by (apply in_div || apply w32_pos).
    unfold at_ix at 1. unfold cons_ix in Hb. by rewrite Hb.
Qed.

(** ** procdump *)

Section Spec.
Context `{Linker}.
Implicit Types (s : kernel) (ls : list lockid).

Definition proc_name s (i : nat) : option (list Z) :=
  (fun n => bytes (Z.to_nat n) (phys (pk s)) (paddr i + OFF_name)) <$>
    strlen 16 (phys (pk s)) (paddr i + OFF_name).

(** The name of every process in use is terminated. *)
Definition names_ok s : Prop :=
  forall i p, procs s !! i = Some p -> state p <> UNUSED -> is_Some (proc_name s i).

Definition proc_line (p : proc) (name : list Z) : list Z :=
  int_chars (pid p) 10 ++ 32 :: state_name (state p) ++ 32 :: name ++ [NL].

(** The listing: a line for every slot in use. *)
Definition listing s : list Z :=
  NL :: mjoin (imap (fun i p => if decide (state p = UNUSED) then [] else proc_line p (default [] (proc_name s i))) (procs s)).

Lemma bytes_chars n m a : chars_ok (bytes n m a).
Proof. revert a. induction n as [|n IH]; intros a; constructor; [apply rd_range|apply IH]. Qed.

Lemma state_name_ok st : chars_ok (state_name st).
Proof. destruct st; apply (bool_decide_unpack (Forall _ _)); vm_compute; exact I. Qed.

Lemma proc_line_emits ls i p name : (length ls < 8)%nat -> PrLock ∉ ls -> chars_ok name ->
  emits ls i (proc_line p name)
    (bind (printf (str "%d %s %s") [PInt (pid p); PStr (Some (state_name (state p))); PStr (Some name)])
       (fun _ => printf [NL] [])).
Proof.
  intros Hl Hni Hn.
  replace (proc_line p name) with ((int_chars (pid p) 10 ++ [32] ++ state_name (state p) ++ [32] ++ name ++ []) ++ [NL])
    by (unfold proc_line; rewrite app_nil_r; by rewrite <- !app_assoc).
  apply emits_bind; apply printf_emits; try done.
  - apply (bool_decide_unpack (Forall _ _)). vm_compute. exact I.
  - repeat constructor; [apply state_name_ok|done].
  - apply (bool_decide_unpack (Forall _ _)). vm_compute. exact I.
Qed.

Lemma procdump_loop_wp ls i ps j s s0 (Q : unit -> kernel -> Prop) :
  (length ls < 8)%nat -> PrLock ∉ ls -> names_ok s0 ->
  procs s = procs s0 -> pk s = pk s0 -> kready ls i s -> panicked (pfs s) = 0 ->
  drop j (procs s0) = ps -> (j <= length (procs s0))%nat ->
  (forall s2, sends (mjoin (imap (fun k p => if decide (state p = UNUSED) then []
       else proc_line p (default [] (proc_name s0 (j + k)%nat))) ps)) s s2 -> Q tt s2) ->
  wp (procdump_loop (seq j (length ps))) s Q.
Proof.
  intros Hl Hni Hnames. revert j s. induction ps as [|p ps IH]; intros j s Hps Hpk Hr Hp Hd Hj HQ.
  { apply wp_ret, HQ, sends_nil. }
  assert (Hp0 : procs s0 !! j = Some p) by (rewrite <- (Nat.add_0_r j), <- lookup_drop, Hd; done).
  assert (Hd' : drop (S j) (procs s0) = ps) by (rewrite <- Nat.add_1_r, <- drop_drop, Hd; done).
  assert (Hj' : (S j <= length (procs s0))%nat) by (apply lookup_lt_Some in Hp0; lia).
  cbn [length seq procdump_loop]. wp_step. apply (getp_wp _ j p); [by rewrite Hps|].
  rewrite imap_cons in HQ. cbn [mjoin list_join] in HQ. rewrite Nat.add_0_r in HQ.
  assert (Hext : imap (compose (fun k p => if decide (state p = UNUSED) then []
       else proc_line p (default [] (proc_name s0 (j + k)%nat))) S) ps =
     imap (fun k p => if decide (state p = UNUSED) then []
       else proc_line p (default [] (proc_name s0 (S j + k)%nat))) ps).
  { apply imap_ext. intros k x _. unfold compose. by rewrite Nat.add_succ_r. }
  rewrite Hext in HQ. clear Hext.
  destruct (decide (state p = UNUSED)) as [E|E].
  { apply IH; [done..|]. intros s2 S2. by apply HQ. }
  destruct (Hnames j p Hp0 E) as [name Hname]. rewrite Hname in HQ. simpl default in HQ.
  pose proof Hname as Hn. unfold proc_name in Hn. rewrite <- Hpk in Hn.
  apply fmap_Some in Hn as (n & Hn & ->). set (name := bytes _ _ _) in *.
  wp_step. wp_step. rewrite Hn. wp_step. apply wp_ret. wp_step. wp_step. fold name.
  apply wp_group. wp_step. eapply (proc_line_emits ls i p name); [done|done|apply bytes_chars|done|done|].
  intros s1 S1. destruct (sends_ready ls i _ _ _ S1 Hr Hp) as [R1 P1]. destruct (S1) as (k1 & _ & ->).
  apply IH; [done..|]. intros s2 S2. apply HQ. by eapply sends_app.
Qed.

Lemma procdump_wp ls i s (Q : unit -> kernel -> Prop) :
  (length ls < 8)%nat -> PrLock ∉ ls -> names_ok s -> kready ls i s -> panicked (pfs s) = 0 ->
  (forall s2, sends (listing s) s s2 -> Q tt s2) -> wp procdump s Q.
Proof.
  intros Hl Hni Hn Hr Hp HQ. unfold procdump. wp_step.
  eapply (printf_emits ls i [NL] [] [NL]); [apply (bool_decide_unpack (Forall _ _)); vm_compute; exact I|done..|].
  intros s1 S1. destruct (sends_ready ls i _ _ _ S1 Hr Hp) as [R1 P1]. destruct (S1) as (k1 & _ & E1).
  assert (Hlen : length (procs s) = nproc) by apply Hr. rewrite <- Hlen.
  eapply (procdump_loop_wp ls i (procs s) 0 s1 s); [done..|by rewrite E1|by rewrite E1|done|done|done|lia|].
  intros s2 S2. apply HQ. unfold listing. by apply (sends_app [NL] _ s s1 s2).
Qed.

(** ** Input *)

(** [s2] is [s] with console [k] and with [out] shown. *)
Definition cons_step (i : nat) s (k : console) (out : list Z) s2 : Prop :=
  kframe i s s2 /\ pfs s2 = set_cons k (set_urt (sent_sync out (urt (pfs s))) (pfs s)).

Lemma cons_step_trans i s1 k1 o1 s2 k2 o2 s3 :
  cons_step i s1 k1 o1 s2 -> cons_step i s2 k2 o2 s3 -> cons_step i s1 k2 (o1 ++ o2) s3.
Proof.
  intros [A B] [C D]. split; [by eapply kframe_trans|]. rewrite D, B, sent_sync_app. done.
Qed.

Lemma cons_step_sends i s o s2 : sends o s s2 -> cons_step i s (cons (pfs s)) o s2.
Proof. intros S. split; [by eapply sends_frame|]. rewrite (sends_pfs _ _ _ S). by destruct (pfs s). Qed.

Lemma cons_step_set i s k : cons_step i s k [] (set_pfs (set_cons k (pfs s)) s).
Proof. split; [apply kframe_pfs|]. cbn [sent_sync foldl pfs set_pfs]. by destruct (pfs s). Qed.

Lemma cons_step_refl i s : cons_step i s (cons (pfs s)) [] s.
Proof. apply cons_step_sends, sends_nil. Qed.

Lemma cons_step_ready ls i s k o s2 : cons_step i s k o s2 -> kready ls i s -> panicked (pfs s) = 0 ->
  kready ls i s2 /\ panicked (pfs s2) = 0 /\ cons (pfs s2) = k.
Proof. intros [A B] Hr Hp. split; [by eapply kready_frame|]. by rewrite B. Qed.

Lemma gcons_wp {A} (f : console -> A) s (Q : A -> kernel -> Prop) : Q (f (cons (pfs s))) s -> wp (gcons f) s Q.
Proof. intros HQ. unfold gcons. by apply iogets_wp. Qed.

Lemma ucons_wp s g (Q : unit -> kernel -> Prop) :
  Q tt (set_pfs (set_cons (g (cons (pfs s))) (pfs s)) s) -> wp (ucons g) s Q.
Proof. intros HQ. unfold ucons. by apply iomod_wp. Qed.

Lemma editing_nil c : cons_wf c -> c_e c = c_w c <-> editing c = [].
Proof.
  intros Hc. rewrite <- (ring_len_0 W32) by (apply w32_pos || apply Hc). pose proof (lens_range c) as (_ & B & _). split.
  - intros E. apply length_zero_iff_nil. rewrite length_editing, E. done.
  - intros E. apply (f_equal length) in E. rewrite length_editing in E. simpl in E. lia.
Qed.

(** The erasing step shared by backspace and control-U. *)
Lemma erase_wp ls i s (Q : unit -> kernel -> Prop) :
  kready ls i s -> panicked (pfs s) = 0 ->
  (forall s2, cons_step i s (erase_char (cons (pfs s))) rubout s2 -> Q tt s2) ->
  wp (bind (ucons (set_c_e (u32 (c_e (cons (pfs s)) - 1)))) (fun _ => consputc BACKSPACE)) s Q.
Proof.
  intros Hr Hp HQ. wp_step. apply ucons_wp. set (s1 := set_pfs _ s).
  pose proof (cons_step_set i s (erase_char (cons (pfs s)))) as S1. fold s1 in S1.
  destruct (cons_step_ready ls i _ _ _ _ S1 Hr Hp) as (R1 & P1 & C1).
  eapply (backspace_emits ls i); [done|done|]. intros s2 S2. apply HQ.
  apply (cons_step_trans i s _ [] s1 _ rubout s2 S1), cons_step_sends, S2.
Qed.

Lemma kill_line_wp ls i fuel s (Q : unit -> kernel -> Prop) :
  kready ls i s -> panicked (pfs s) = 0 -> cons_inv (cons (pfs s)) ->
  (length (editing (cons (pfs s))) < fuel)%nat ->
  (forall s2 k, cons_step i s k (mjoin (replicate (length (editing (cons (pfs s)))) rubout)) s2 ->
     cons_inv k -> unread k = unread (cons (pfs s)) -> editing k = [] -> Q tt s2) ->
  wp (kill_line fuel) s Q.
Proof.
  revert s. induction fuel as [|fuel IH]; intros s Hr Hp [Hw Hnl] Hf HQ; [lia|]. cbn [kill_line].
  wp_step. apply gcons_wp. wp_step. apply gcons_wp. set (k := cons (pfs s)) in *.
  destruct (Z.eqb_spec (c_e k) (c_w k)) as [E|E].
  { apply editing_nil in E; [|done]. apply wp_ret. rewrite E in HQ.
    apply (HQ s k); [apply cons_step_refl|split; [done|rewrite E; apply not_elem_of_nil]|done|done]. }
  destruct (erase_char_ok k Hw E) as (Hw' & Hu & b & Hb & Hed).
  wp_step. unfold cons_at. wp_step. apply gcons_wp. fold k. rewrite Hb. apply wp_ret.
  assert (Hbn : b <> NL /\ NL ∉ editing (erase_char k)) by (rewrite Hed in Hnl; set_solver).
  destruct Hbn as [Hbn Hnl']. rewrite (proj2 (Z.eqb_neq _ _) Hbn). apply wp_group. wp_step.
  eapply (erase_wp ls i); [done|done|]. intros s1 S1. fold k in S1.
  destruct (cons_step_ready ls i _ _ _ _ S1 Hr Hp) as (R1 & P1 & C1).
  apply IH; [done|done|by rewrite C1|rewrite C1; rewrite Hed, length_app in Hf; simpl in Hf; lia|].
  rewrite C1. intros s2 k2 S2 I2 U2 E2. apply (HQ s2 k2); [|done|congruence|done].
  rewrite Hed, length_app, Nat.add_1_r. cbn [replicate mjoin list_join]. by eapply cons_step_trans.
Qed.

(** The character is stored, and ends the line if it is a newline, an end of
    file or the last that fits. *)
Definition line_ends (b : Z) (k : console) : bool :=
  (b =? NL) || (b =? C_D) || (ring_len W32 (c_e (push_char b k)) (c_r k) =? INPUT_BUF_SIZE).
Definition store_char (b : Z) (k : console) : console :=
  if line_ends b k then commit_line (push_char b k) else push_char b k.

Lemma store_char_ok b k : cons_inv k -> 0 <= b < 256 -> (length (unread k) + length (editing k) < input_buf_size)%nat ->
  cons_inv (store_char b k) /\
  (unread (store_char b k), editing (store_char b k)) =
    (if (b =? NL) || (b =? C_D) || (length (unread k) + length (editing k ++ [b]) =? input_buf_size)%nat
     then (unread k ++ editing k ++ [b], []) else (unread k, editing k ++ [b])).
Proof.
  intros [Hw Hnl] Hb Hlt. destruct (push_char_ok b k Hw Hb Hlt) as (Hw1 & Hu & He).
  pose proof (queue_length _ Hw1) as Hq. rewrite Hu, He in Hq.
  assert (Hends : line_ends b k =
    (b =? NL) || (b =? C_D) || (length (unread k) + length (editing k ++ [b]) =? input_buf_size)%nat).
  { unfold line_ends. f_equal. change (c_r k) with (c_r (push_char b k)). rewrite <- Hq.
    destruct (Nat.eqb_spec (length (unread k) + length (editing k ++ [b])) input_buf_size) as [E|E].
    - rewrite E. done.
    - apply Z.eqb_neq. unfold INPUT_BUF_SIZE, input_buf_size in *. lia. }
  unfold store_char. rewrite <- Hends. destruct (line_ends b k) eqn:El.
  - destruct (commit_line_ok _ Hw1) as (I & U & E). split; [done|]. by rewrite U, E, Hu, He.
  - split; [|by rewrite Hu, He]. split; [done|]. rewrite He. apply orb_false_iff in El as [El _].
    apply orb_false_iff in El as [El _]. apply Z.eqb_neq in El. set_solver.
Qed.

Lemma store_wp ls i s c (Q : unit -> kernel -> Prop) :
  kready ls i s -> panicked (pfs s) = 0 -> 0 <= c < 256 -> cons_wf (cons (pfs s)) ->
  (forall s2, cons_step i s (store_char c (cons (pfs s))) [c] s2 -> Q tt s2) ->
  wp (consputc c ;;
      ucons (fun k => set_c_buf (<[cons_ix (c_e (cons (pfs s))) := u8 c]> (c_buf k)) k) ;;
      ucons (set_c_e (u32 (c_e (cons (pfs s)) + 1))) ;;
      when (c =? NL) || (c =? C_D) || (u32 (u32 (c_e (cons (pfs s)) + 1) - c_r (cons (pfs s))) =? INPUT_BUF_SIZE) then
        (ucons (set_c_w (u32 (c_e (cons (pfs s)) + 1))) ;;
         wakeup (cons_addr + 152)))%K s Q.
Proof.
  intros Hr Hp Hc Hw HQ. set (k := cons (pfs s)) in *. wp_step.
  eapply (consputc_emits ls i); [done|done|done|]. intros s1 S1%(cons_step_sends i). fold k in S1.
  destruct (cons_step_ready ls i _ _ _ _ S1 Hr Hp) as (R1 & P1 & C1).
  wp_step. apply ucons_wp. wp_step. apply ucons_wp. rewrite C1. cbn [pfs set_pfs cons set_cons].
  set (s2 := set_pfs _ _).
  assert (S2 : cons_step i s (push_char c k) [c] s2).
  { unfold push_char. rewrite <- (u8_small c) at 1 by done.
    apply (cons_step_trans i s k [c] s1 _ [] s2 S1).
    pose proof (cons_step_trans i s1 _ [] _ _ [] _
      (cons_step_set i s1 (set_c_buf (<[cons_ix (c_e k) := u8 c]> (c_buf k)) k))
      (cons_step_set i _ (set_c_e (u32 (c_e k + 1)) (set_c_buf (<[cons_ix (c_e k) := u8 c]> (c_buf k)) k)))) as S.
    exact S. }
  destruct (cons_step_ready ls i _ _ _ _ S2 Hr Hp) as (R2 & P2 & C2).
  unfold store_char in HQ. change (u32 (u32 (c_e k + 1) - c_r k)) with (ring_len W32 (c_e (push_char c k)) (c_r k)).
  fold (line_ends c k). destruct (line_ends c k); [|by apply wp_ret, HQ].
  wp_step. apply ucons_wp. rewrite C2. change (set_c_w (u32 (c_e k + 1)) (push_char c k)) with (commit_line (push_char c k)).
  pose proof (cons_step_set i s2 (commit_line (push_char c k))) as S3.
  destruct (cons_step_ready ls i _ _ _ _ S3 R2 P2) as (R3 & P3 & C3).
  eapply (k_wakeup ls i); [done|]. intros s4 K4 E4. apply HQ.
  destruct (cons_step_trans i _ _ _ _ _ _ _ S2 S3) as [A B]. split; [by eapply kframe_trans|by rewrite E4].
Qed.

Definition lines (k : console) : list Z * list Z := (unread k, editing k).

(** What the terminal shows when [c] is typed. *)
Definition shown s (c : Z) : list Z :=
  if c =? C_P then listing s else line_echo (lines (cons (pfs s))) c.

Lemma queue_room k : cons_wf k ->
  (u32 (c_e k - c_r k) <? INPUT_BUF_SIZE) = negb (input_buf_size <=? length (unread k) + length (editing k))%nat.
Proof.
  intros Hk. change (u32 (c_e k - c_r k)) with (ring_len W32 (c_e k) (c_r k)). rewrite <- (queue_length k Hk).
  destruct (Nat.leb_spec input_buf_size (length (unread k) + length (editing k))) as [E|E]; cbn [negb];
    [apply Z.ltb_ge|apply Z.ltb_lt]; unfold INPUT_BUF_SIZE, input_buf_size in *; lia.
Qed.

Lemma intr_body_wp ls i s c (Q : unit -> kernel -> Prop) :
  kready ls i s -> PrLock ∉ ls -> (length ls < 8)%nat -> panicked (pfs s) = 0 -> cons_inv (cons (pfs s)) ->
  0 <= c < 256 -> (c = C_P -> names_ok s) ->
  (forall s2 k, cons_step i s k (shown s c) s2 -> cons_inv k ->
     lines k = line_step (lines (cons (pfs s))) c -> Q tt s2) ->
  wp (intr_body c) s Q.
Proof.
  intros Hr Hni Hlen Hp Hi Hc Hnm HQ. pose proof Hi as [Hw Hnl]. unfold intr_body, shown, line_step, line_echo, lines in *.
  set (k := cons (pfs s)) in *. destruct (c =? C_P) eqn:Ep.
  { apply Z.eqb_eq in Ep. apply (procdump_wp ls i); [done|done|by apply Hnm|done|done|]. intros s2 S2.
    by apply (HQ s2 k); [apply cons_step_sends|..]. }
  destruct (c =? C_U).
  { apply (kill_line_wp ls i); [done|done|done| |].
    - pose proof (queue_length k Hw) as Hq. pose proof (cw_full k Hw). fold k.
      unfold INPUT_BUF_SIZE, input_buf_size in *. lia.
    - intros s2 k2 S2 I2 U2 E2. apply (HQ s2 k2); [done|done|]. by rewrite U2, E2. }
  destruct ((c =? C_H) || (c =? 0x7f)).
  { wp_step. apply gcons_wp. wp_step. apply gcons_wp. fold k. destruct (Z.eqb_spec (c_e k) (c_w k)) as [E|E]; cbn [negb].
    - apply wp_ret. pose proof (proj1 (editing_nil k Hw) E) as En. rewrite En in *. cbn [decide decide_rel] in HQ.
      apply (HQ s k); [apply cons_step_refl|done|by rewrite En].
    - destruct (erase_char_ok k Hw E) as (Hw' & Hu & b & Hb & Hed).
      rewrite decide_False in HQ by (rewrite Hed; by destruct (editing (erase_char k))).
      apply (erase_wp ls i); [done|done|]. intros s2 S2. apply (HQ s2 (erase_char k)); [done| |].
      + split; [done|]. rewrite Hed in Hnl. set_solver.
      + rewrite Hu, Hed, removelast_last. done. }
  wp_step. apply gcons_wp. wp_step. apply gcons_wp. fold k. rewrite queue_room by done.
  destruct (Z.eqb_spec c 0) as [E0|E0]; cbn [negb andb orb] in *.
  { apply wp_ret, (HQ s k); [apply cons_step_refl|done|done]. }
  destruct (Nat.leb_spec input_buf_size (length (unread k) + length (editing k))) as [Ef|Ef]; cbn [negb].
  { apply wp_ret, (HQ s k); [apply cons_step_refl|done|done]. }
  cbv zeta in *. set (b := if c =? CR then NL else c) in *.
  assert (Hb : 0 <= b < 256) by (unfold b; destruct (c =? CR); [done|lia]).
  apply (store_wp ls i); [done|done|done|done|]. intros s2 S2. destruct (store_char_ok b k Hi Hb Ef) as [I2 L2].
  by apply (HQ s2 (store_char b k)).
Qed.

Lemma consoleintr_wp ls i s c (Q : unit -> kernel -> Prop) :
  kready ls i s -> ConsLock ∉ ls -> PrLock ∉ ls -> (length ls < 7)%nat -> panicked (pfs s) = 0 ->
  cons_inv (cons (pfs s)) -> 0 <= c < 256 -> (c = C_P -> names_ok s) ->
  (forall s2 k, cons_step i s k (shown s c) s2 -> cons_inv k ->
     lines k = line_step (lines (cons (pfs s))) c -> Q tt s2) ->
  wp (consoleintr c) s Q.
Proof.
  intros Hr Hnc Hnp Hlen Hp Hi Hc Hnm HQ. unfold consoleintr. wp_step.
  eapply (acq_only ls i s ConsLock); [done|done|lia|done|]. intros k1 A1 R1. wp_step.
  eapply (intr_body_wp (ConsLock :: ls) i); [done|set_solver|simpl; lia|done|done|done|done|].
  intros s2 k [K2 E2] I2 L2. eapply (k_rel ls i s s2); [done|done| |].
  - eapply inside_frame; [done| |done]. split; [done|]. repeat split; try done. apply woke_only_refl.
  - intros s3 K3 E3. apply (HQ s3 k); [|done|done]. split; [done|]. by rewrite E3, E2.
Qed.

(** ** The interrupt handler *)

(** What is shown for a sequence of characters without control-P. *)
Fixpoint echoes (st : list Z * list Z) (rx : list Z) : list Z :=
  match rx with
  | [] => []
  | c :: rx => line_echo st c ++ echoes (line_step st c) rx
  end.

Lemma names_ok_frame i s s2 : kframe i s s2 -> names_ok s -> names_ok s2.
Proof.
  intros [_ ([Hl Hw] & _ & Hk & _)] Hn j p2 Hp2 Hu. unfold proc_name. rewrite Hk.
  destruct (lookup_lt_is_Some_2 (procs s) j) as [p Hp]. { rewrite <- Hl. by eapply lookup_lt_Some. }
  destruct (Hw j p Hp) as (p' & Hp' & Hcase). rewrite Hp2 in Hp'. injection Hp' as <-.
  apply (Hn j p Hp). destruct Hcase as [-> | (v & E & _)]; [done|]. by rewrite E.
Qed.

(** Sending by polling leaves the queue alone. *)
Lemma sent_sync_queue bs u : tx_buf (sent_sync bs u) = tx_buf u /\ tx_w (sent_sync bs u) = tx_w u /\
  tx_r (sent_sync bs u) = tx_r u /\ u_rx (sent_sync bs u) = u_rx u.
Proof.
  revert u. induction bs as [|b bs IH]; intros u; [done|].
  change (sent_sync (b :: bs) u) with (sent_sync bs (sent_sync [b] u)).
  destruct (IH (sent_sync [b] u)) as (-> & -> & -> & ->). done.
Qed.

Lemma sent_sync_rx bs rx u : sent_sync bs (set_u_rx rx u) = set_u_rx rx (sent_sync bs u).
Proof.
  revert u. induction bs as [|b bs IH]; intros u; [done|].
  change (sent_sync (b :: bs) ?x) with (sent_sync bs (sent_sync [b] x)).
  rewrite <- IH. done.
Qed.

Lemma sent_sync_pending bs u : pending (sent_sync bs u) = pending u.
Proof. unfold pending. by destruct (sent_sync_queue bs u) as (-> & -> & -> & _). Qed.

Lemma sent_sync_inv bs u : uart_inv u -> uart_inv (sent_sync bs u).
Proof. unfold uart_inv. by destruct (sent_sync_queue bs u) as (-> & -> & -> & _). Qed.

Lemma uartintr_loop_wp ls i rx fuel s (Q : unit -> kernel -> Prop) :
  kready ls i s -> ConsLock ∉ ls -> PrLock ∉ ls -> (length ls < 7)%nat -> panicked (pfs s) = 0 ->
  cons_inv (cons (pfs s)) -> u_rx (urt (pfs s)) = rx -> chars_ok rx -> (length rx < fuel)%nat ->
  (C_P ∈ rx -> names_ok s) ->
  (forall s2 k out, kframe i s s2 -> cons_inv k -> lines k = foldl line_step (lines (cons (pfs s))) rx ->
     pfs s2 = set_cons k (set_urt (set_u_rx [] (sent_sync out (urt (pfs s)))) (pfs s)) ->
     (C_P ∉ rx -> out = echoes (lines (cons (pfs s))) rx) -> Q tt s2) ->
  wp (uartintr_loop fuel) s Q.
Proof.
  revert fuel s. induction rx as [|c rx IH]; intros [|fuel] s Hr Hnc Hnp Hlen Hp Hi Hrx Hok Hf Hnm HQ;
    try (simpl in Hf; lia); cbn [uartintr_loop]; wp_step; unfold uartgetc; wp_step; apply guart_wp; rewrite Hrx.
  { apply wp_ret. apply (HQ s (cons (pfs s)) []); [apply kframe_refl|done|done| |done].
    cbn [sent_sync foldl]. rewrite <- Hrx. destruct (pfs s) as [? ? ? ? ? ? ? u]. by destruct u. }
  apply Forall_cons in Hok as [Hc Hok]. wp_step. apply uuart_wp. apply wp_ret.
  rewrite (proj2 (Z.eqb_neq c (-1))) by lia. set (s1 := set_pfs _ s).
  assert (K1 : kframe i s s1) by apply kframe_pfs. wp_step.
  eapply (consoleintr_wp ls i); [by eapply kready_frame|done|done|done|done|done|done| |].
  { intros ->. eapply names_ok_frame; [done|]. apply Hnm. set_solver. }
  intros s2 k [K2 E2] I2 L2. assert (K12 : kframe i s s2) by exact (kframe_trans _ _ _ _ K1 K2).
  apply (IH fuel); rewrite ?E2; cbn [pfs cons panicked urt set_cons set_urt]; try done.
  - by eapply kready_frame.
  - by destruct (sent_sync_queue (shown s1 c) (urt (pfs s1))) as (_ & _ & _ & ->).
  - simpl in Hf. lia.
  - intros Hin. eapply names_ok_frame; [done|]. apply Hnm. set_solver.
  - intros s3 k3 out K3 I3 L3 E3 O3. apply (HQ s3 k3 (shown s1 c ++ out)); [by eapply kframe_trans|done| | |].
    + rewrite L3, L2. done.
    + rewrite E3, sent_sync_app. unfold s1. cbn [pfs set_pfs urt set_urt set_cons].
      rewrite !sent_sync_rx. done.
    + intros [Hne Hni]%not_elem_of_cons. rewrite (O3 Hni), L2. unfold shown.
      by rewrite (proj2 (Z.eqb_neq c C_P)) by congruence.
Qed.

Lemma uartintr_wp ls i s (Q : unit -> kernel -> Prop) :
  kready ls i s -> ConsLock ∉ ls -> PrLock ∉ ls -> UartLock ∉ ls -> (length ls < 7)%nat -> panicked (pfs s) = 0 ->
  cons_inv (cons (pfs s)) -> uart_inv (urt (pfs s)) -> chars_ok (u_rx (urt (pfs s))) ->
  (C_P ∈ u_rx (urt (pfs s)) -> names_ok s) ->
  (forall s2 k u out n, kframe i s s2 -> pfs s2 = set_cons k (set_urt u (pfs s)) ->
     cons_inv k -> lines k = foldl line_step (lines (cons (pfs s))) (u_rx (urt (pfs s))) ->
     drained n (set_u_rx [] (sent_sync out (urt (pfs s)))) u ->
     (C_P ∉ u_rx (urt (pfs s)) -> out = echoes (lines (cons (pfs s))) (u_rx (urt (pfs s)))) -> Q tt s2) ->
  wp uartintr s Q.
Proof.
  intros Hr Hnc Hnp Hnu Hlen Hp Hi Hu Hok Hnm HQ. unfold uartintr. wp_step. apply guart_wp. wp_step.
  eapply (uartintr_loop_wp ls i); [done..|lia|done|]. intros s1 k out K1 I1 L1 E1 O1.
  assert (R1 : kready ls i s1) by (by eapply kready_frame). wp_step.
  eapply (k_acq ls i s1 UartLock); [done|done|lia|done|]. intros s2 I2 R2 E2.
  assert (Hu2 : uart_inv (urt (pfs s2))) by (rewrite E2, E1; by apply (sent_sync_inv out)).
  wp_step. eapply (uartstart_wp (UartLock :: ls) i); [done|done|]. intros s3 u K3 E3 D3.
  eapply (k_rel ls i s1); [done|done|by eapply inside_frame|]. intros s4 K4 E4.
  rewrite E2, E1 in D3. cbn [urt set_cons set_urt] in D3.
  eapply (HQ s4 k u out); [by eapply kframe_trans| |done|done|exact D3|done]. by rewrite E4, E3, E2, E1.
Qed.

End Spec.

(** * Reading from the console

    [consoleread] gives its caller the next line, or as much of it as fits,
    and leaves the rest. *)

(** The bytes delivered to a reader that wants [n], and what remains; [None]
    when it has to wait for more. An end of file that follows other bytes
    stays, so that the next read returns 0. *)
Fixpoint read_line (n target : nat) (l : list Z) : option (list Z * list Z) :=
  match n with
  | O => Some ([], l)
  | S n' =>
      match l with
      | [] => None
      | c :: l' =>
          if c =? C_D then Some ([], if (n <? target)%nat then l else l')
          else if c =? NL then Some ([c], l')
          else prod_map (List.cons c) id <$> read_line n' target l'
      end
  end.

Lemma read_line_length n target l t r : read_line n target l = Some (t, r) -> (length t <= n)%nat.
Proof.
  revert l t r. induction n as [|n IH]; intros l t r E; cbn [read_line] in E; [by injection E as <- _|].
  destruct l as [|c l]; [done|]. destruct (c =? C_D); [injection E as <- _; simpl; lia|].
  destruct (c =? NL); [injection E as <- _; simpl; lia|].
  apply fmap_Some in E as ([t' r'] & E & Ep). injection Ep as -> ->. apply IH in E. simpl. lia.
Qed.

Section Read.
Context `{LinkerOk}.
Implicit Types (s : kernel) (ls : list lockid).

Lemma unread_nil c : cons_wf c -> c_r c = c_w c -> unread c = [].
Proof. intros Hc E. apply length_zero_iff_nil. rewrite length_unread, E, ring_len_self. done. Qed.

(** Giving one byte to the user. *)
Lemma give_byte_wp ls i s L fr A dst c (Q : Z -> kernel -> Prop) :
  kready ls i s -> user_at i s L fr A -> 0 <= dst -> user_mapped A dst -> 0 <= c < 256 ->
  (forall s2, uframe i s s2 -> pfs s2 = pfs s -> user_at i s2 L fr A ->
     user_wrote A (phys (pk s)) (phys (pk s2)) dst [c] -> Q 0 s2) ->
  wp (phys_wr (fun m => wr m klocal c) ;; either_copyout true dst klocal 1)%K s Q.
Proof.
  intros Hr Hua Hd Hm Hc HQ. pose proof klocal_layout as [Hkl _]. wp_step. apply phys_wr_wp. set (s1 := set_pk _ s).
  assert (Hsame : forall a, a <> klocal -> rd (phys (pk s1)) a = rd (phys (pk s)) a).
  { intros a Ha. apply rd_wr_ne. done. }
  assert (Hua1 : user_at i s1 L fr A).
  { eapply (user_at_kernel_write i s _ L fr A klocal 1); [done|by right|done|]. intros x Hx. apply Hsame. lia. }
  eapply (either_copyout_user ls i s1 L fr A); [by eapply kready_uframe, uframe_pk|done|by right|done|lia|].
  intros s2 k r U2 E2 Hua2 [Hk Hres] Hw Hout. destruct Hres as [[-> ->]|(-> & Hlt & Hun)].
  - apply HQ; [by eapply uframe_trans; [apply uframe_pk|]|done|done|].
    change (Z.to_nat 1) with 1%nat in Hw. cbn [bytes] in Hw. unfold s1 in Hw at 2.
    cbn [phys pk set_pk set_phys] in Hw. rewrite rd_wr_eq, u8_small in Hw by done.
    destruct Hw as [W F]. split; [done|]. intros a Ha Hne. rewrite F by done. apply Hsame. lia.
  - assert (k = 0) as -> by lia. by rewrite Z.add_0_r in Hun.
Qed.

Lemma consoleread_loop_wp ls i target n s L fr A dst t rest (Q : option Z -> kernel -> Prop) :
  kready ls i s -> cons_inv (cons (pfs s)) -> user_at i s L fr A ->
  0 <= dst -> dst + Z.of_nat n < 2 ^ 64 ->
  read_line n target (unread (cons (pfs s))) = Some (t, rest) ->
  (forall k, (k < length t)%nat -> user_mapped A (dst + Z.of_nat k)) ->
  (forall s2 k, uframe i s s2 -> pfs s2 = set_cons k (pfs s) -> user_at i s2 L fr A -> cons_inv k ->
     unread k = rest -> editing k = editing (cons (pfs s)) ->
     user_wrote A (phys (pk s)) (phys (pk s2)) dst t -> Q (Some (Z.of_nat n - Z.of_nat (length t))) s2) ->
  wp (consoleread_loop n (Z.of_nat target) true dst) s Q.
Proof.
  revert s dst t. induction n as [|n IH]; intros s dst t Hr [Hw Hnl] Hua Hd Hdn Hread Hmap HQ.
  { cbn [read_line] in Hread. injection Hread as <- <-. apply wp_ret.
    apply (HQ s (cons (pfs s))); [apply uframe_refl|by destruct (pfs s)|done|done|done|done|by apply user_wrote_nil]. }
  cbn [consoleread_loop]. wp_step. apply gcons_wp. wp_step. apply gcons_wp. set (k := cons (pfs s)) in *.
  destruct (Z.eqb_spec (c_r k) (c_w k)) as [E|E].
  { rewrite (unread_nil k Hw E) in Hread. done. }
  destruct (pop_char_ok k Hw E) as (Hw1 & He1 & b & Hb & Hbr & Hun). rewrite Hun in Hread. cbn [read_line] in Hread.
  wp_step. unfold cons_at. wp_step. apply gcons_wp. fold k. rewrite Hb. apply wp_ret. wp_step. apply ucons_wp.
  fold k. change (set_c_r (u32 (c_r k + 1)) k) with (pop_char k). set (s1 := set_pfs _ s).
  assert (Hnl1 : cons_inv (pop_char k)) by (split; [done|by rewrite He1]).
  destruct (b =? C_D) eqn:Ed.
  { injection Hread as <- <-. cbn [length] in HQ. rewrite Nat2Z.inj_0, Z.sub_0_r in HQ. wp_step.
    assert (Eb : (Z.of_nat (S n) <? Z.of_nat target) = (S n <? target)%nat)
      by (destruct (Nat.ltb_spec (S n) target); [apply Z.ltb_lt|apply Z.ltb_ge]; lia).
    rewrite Eb. destruct (S n <? target)%nat.
    - apply ucons_wp. apply wp_ret.
      apply (HQ _ k); [eapply uframe_trans; apply uframe_pfs| |by do 2 apply user_at_pfs|done|by rewrite Hun|done|by apply user_wrote_nil].
      cbn [pfs set_pfs cons set_cons s1]. unfold k. by destruct (pfs s) as [? ? ? ? ? ? []].
    - apply wp_ret. apply wp_ret.
      apply (HQ s1 (pop_char k)); [apply uframe_pfs|done|by apply user_at_pfs|done|done|done|by apply user_wrote_nil]. }
  assert (Ht : exists t', t = b :: t') by
    (destruct (b =? NL); [by injection Hread as <- _; eexists|];
     apply fmap_Some in Hread as ([t' r'] & _ & Ep); injection Ep as -> _; by eexists).
  destruct Ht as [t' ->]. apply wp_group. wp_step.
  eapply (give_byte_wp ls i s1 L fr A); [by eapply kready_uframe, uframe_pfs|by apply user_at_pfs|done| |done|].
  { specialize (Hmap 0%nat). rewrite Z.add_0_r in Hmap. apply Hmap. simpl. lia. }
  intros s2 U2 E2 Hua2 W2. assert (U02 : uframe i s s2) by (eapply uframe_trans; [apply uframe_pfs|done]).
  cbn [Z.eqb]. destruct (b =? NL).
  { injection Hread as <- <-. apply wp_ret.
    replace (Z.of_nat n) with (Z.of_nat (S n) - Z.of_nat (length [b])) by (simpl length; lia).
    apply (HQ s2 (pop_char k)); [done|by rewrite E2|done|done|done|done|done]. }
  apply fmap_Some in Hread as ([t2 r2] & Hread & Ep). injection Ep as -> ->.
  rewrite u64_small by lia.
  assert (C2 : cons (pfs s2) = pop_char k) by (by rewrite E2).
  apply (IH s2 (dst + 1) t2); rewrite ?C2; [by eapply kready_uframe|done|done|lia|lia|done| |].
  { intros j Hj. specialize (Hmap (S j)). replace (dst + 1 + Z.of_nat j) with (dst + Z.of_nat (S j)) by lia.
    apply Hmap. simpl. lia. }
  intros s3 k3 U3 E3 Hua3 I3 R3 E3' W3.
  replace (Z.of_nat n - Z.of_nat (length t2)) with (Z.of_nat (S n) - Z.of_nat (length (b :: t2))) by (simpl length; lia).
  apply (HQ s3 k3); [by eapply uframe_trans|by rewrite E3, E2|done|done|done|by rewrite E3'|].
  eapply (user_wrote_app L fr A _ _ _ dst [b] t2); [apply Hua|done|exact W2|exact W3].
Qed.

Lemma consoleread_wp ls i s L fr A dst n t rest (Q : Z -> kernel -> Prop) :
  kready ls i s -> ConsLock ∉ ls -> (length ls < 8)%nat -> cons_inv (cons (pfs s)) -> user_at i s L fr A ->
  0 <= n < 2 ^ 31 -> 0 <= dst -> dst + n < 2 ^ 64 ->
  read_line (Z.to_nat n) (Z.to_nat n) (unread (cons (pfs s))) = Some (t, rest) ->
  (forall k, (k < length t)%nat -> user_mapped A (dst + Z.of_nat k)) ->
  (forall s2 k, uframe i s s2 -> pfs s2 = set_cons k (pfs s) -> user_at i s2 L fr A -> cons_inv k ->
     unread k = rest -> editing k = editing (cons (pfs s)) ->
     user_wrote A (phys (pk s)) (phys (pk s2)) dst t -> Q (Z.of_nat (length t)) s2) ->
  wp (consoleread true dst n) s Q.
Proof.
  intros Hr Hnc Hlen Hi Hua Hn Hd Hdn Hread Hmap HQ. pose proof (read_line_length _ _ _ _ _ Hread) as Hlt.
  unfold consoleread. wp_step. eapply (acq_only ls i s ConsLock); [done..|]. intros k1 A1 R1. wp_step.
  assert (En : u32 n = Z.of_nat (Z.to_nat n)) by (rewrite u32_small; lia). rewrite En.
  eapply (consoleread_loop_wp (ConsLock :: ls) i _ _ _ L fr A dst t rest); [done|done|done|done|lia|done|done|].
  intros s2 k U2 E2 Hua2 I2 R2 Ed2 W2. wp_step.
  eapply (rel_only ls i s ConsLock); [done|done|eapply acquired_frame; [done|done|apply U2]|]. intros k3 L3.
  apply wp_ret. rewrite (proj2 (Z.ltb_ge n 0)) by lia.
  replace (n - (Z.of_nat (Z.to_nat n) - Z.of_nat (length t))) with (Z.of_nat (length t)) by lia.
  apply (HQ _ k); [by eapply uframe_locks|done|done|done|done|done|done].
Qed.

End Read.
