(* ===== verification/DevTheorems.v ===== *)
(** * Devices: the theorems

    The serial port as a queue, formatted output, the console's line
    discipline and reading from the console. *)

From S2P Require Import Prelude Riscv Mem CString Kalloc Vm PageTable VmSpec UserCopy Spinlock Proc ProcSpec MemExample.
From S2P Require Import ProcExample IoState SleepLock LogExample UserMem.
From S2P Require Import Uart Printf Console Ring DevSpec ConsoleSpec.

(** A kernel with a line in the console and bytes in the serial port. *)
Definition ex_cons : console :=
  Console (str "ls" ++ [NL] ++ str "ec" ++ replicate 123 0) 0 3 5.
Definition ex_uart : uart :=
  Uart (str "ab" ++ replicate 30 0) (2 ^ 64 - 30) (2 ^ 64 - 32) (str "h" ++ [127; 111; 13]) 1 [] [].
Definition ex_dev : kernel := ex_kernel (set_urt ex_uart (set_cons ex_cons ex_io)).

Lemma ex_user_at io : user_at 1 (ex_kernel io) ex_L ex_fr ex_A.
Proof. split; [|apply ex_user_ok]. exists ex_runner. split; [reflexivity|apply ex_space]. Qed.

(** The transmit buffer is a queue. With room in it, [uartputc] appends
    the byte to the stream of bytes sent or to be sent and starts the
    transmitter, which takes as many bytes from the front as the device
    accepts; in a full buffer it waits. The counters may wrap around. *)
Theorem uartputc_spec `{Linker} ls i s c :
  kready ls i s -> UartLock ∉ ls -> (length ls < 8)%nat -> panicked (pfs s) = 0 -> uart_inv (urt (pfs s)) ->
  let u := urt (pfs s) in
  ((length (pending u) < uart_tx_buf_size)%nat ->
    wp (uartputc c) s (fun _ s2 => kframe i s s2 /\ exists u2, pfs s2 = set_urt u2 (pfs s) /\ uart_inv u2 /\
      stream u2 = stream u ++ [u8 c] /\
      length (pending u2) = (S (length (pending u)) - u_room u)%nat)) /\
  ((uart_tx_buf_size <= length (pending u))%nat -> uartputc c s = Fail (EBlock "uartputc")).
Proof.
  intros Hr Hni Hlen Hp Hi u. split; intros Hlt.
  - eapply (uartputc_wp ls i); [done..|]. intros s2 u2 K2 E2 (I2 & P2 & S2 & _). split; [done|].
    exists u2. split_and!; [done|done| |].
    + destruct (pending_push u c Hi Hlt) as [Hpd _]. unfold stream. fold u in S2, P2.
      rewrite S2, P2, reverse_app, reverse_involutive, <- app_assoc, take_drop, Hpd. by rewrite app_assoc.
    + destruct (pending_push u c Hi Hlt) as [Hpd _]. fold u in P2. rewrite P2, Hpd, length_drop, length_app. simpl. lia.
  - eapply (uartputc_full ls i); [done..|]. rewrite pending_length in * by done. destruct Hi as (_ & _ & _ & _ & Hl).
    fold u in Hl |- *. unfold UART_TX_BUF_SIZE, uart_tx_buf_size in *. lia.
Qed.

Lemma ex_uart_inv : uart_inv ex_uart.
Proof.
  split; [done|]. split; [apply (bool_decide_unpack (Forall _ _)); vm_compute; exact I|].
  split_and!; vm_compute; congruence.
Qed.

Lemma ex_cons_inv : cons_inv ex_cons.
Proof.
  split; [|apply (bool_decide_unpack (NL ∉ editing ex_cons)); vm_compute; exact I].
  constructor; try (vm_compute; by (repeat split)); try (vm_compute; congruence).
  apply (bool_decide_unpack (Forall _ _)). vm_compute. exact I.
Qed.


(** [printf] of an integer can be read back. For every 32-bit value and
    base 10 or 16 the characters that [printf] sends for %d or %x, followed
    by a terminating character, denote that value; nothing else changes. *)
Theorem printf_int_roundtrip `{Linker} ls i s v (hex : bool) :
  kready ls i s -> PrLock ∉ ls -> (length ls < 8)%nat -> panicked (pfs s) = 0 -> - 2 ^ 31 <= v < 2 ^ 31 ->
  wp (printf (str (if hex then "%x" else "%d") ++ [NL]) [PInt v]) s (fun _ s2 =>
    kframe i s s2 /\ exists cs, u_sent (urt (pfs s2)) = NL :: reverse cs ++ u_sent (urt (pfs s)) /\
      read_int (if hex then 16 else 10) cs = v /\ (length cs <= 11)%nat).
Proof.
  intros Hr Hni Hlen Hp Hv. set (base := if hex then 16 else 10).
  assert (Hb : base = 10 \/ base = 16) by (unfold base; destruct hex; auto).
  assert (Hout : printf_chars (str (if hex then "%x" else "%d") ++ [NL]) [PInt v] = Some (int_chars v base ++ [NL]))
    by (by destruct hex).
  eapply (printf_emits ls i); [|by repeat constructor|exact Hout|done..|].
  { destruct hex; apply (bool_decide_unpack (Forall _ _)); vm_compute; exact I. }
  intros s2 S2. split; [by eapply sends_frame|]. exists (int_chars v base).
  assert (Hok : chars_ok (int_chars v base)) by (apply int_chars_ok; lia).
  split_and!; [|by apply int_chars_read|by apply int_chars_length].
  rewrite (sends_pfs _ _ _ S2). cbn [urt set_urt]. rewrite sent_sync_sent, fmap_app, reverse_app.
  rewrite (chars_u8 _ Hok). done.
Qed.


(** C27: the interrupt handler implements the line discipline. Characters
    that have arrived are taken one after the other: control-U clears the
    line, backspace and delete remove its last character, a newline (or
    carriage return), an end of file or a full buffer hands the line to the
    readers, a character that does not fit is dropped. Each is echoed as the
    specification says, and the transmit queue is passed on to the device. *)
Theorem uartintr_spec `{Linker} ls i s :
  kready ls i s -> ConsLock ∉ ls -> PrLock ∉ ls -> UartLock ∉ ls -> (length ls < 7)%nat -> panicked (pfs s) = 0 ->
  cons_inv (cons (pfs s)) -> uart_inv (urt (pfs s)) -> chars_ok (u_rx (urt (pfs s))) ->
  C_P ∉ u_rx (urt (pfs s)) ->
  let rx := u_rx (urt (pfs s)) in
  let st := lines (cons (pfs s)) in
  wp uartintr s (fun _ s2 => kframe i s s2 /\ exists k u n,
    pfs s2 = set_cons k (set_urt u (pfs s)) /\ cons_inv k /\ lines k = foldl line_step st rx /\
    drained n (set_u_rx [] (sent_sync (echoes st rx) (urt (pfs s)))) u).
Proof.
  intros Hr Hnc Hnp Hnu Hlen Hp Hi Hu Hok Hncp rx st.
  eapply (uartintr_wp ls i); [done..|]. intros s2 k u out n K2 E2 I2 L2 D2 O2. split; [done|].
  exists k, u, n. rewrite (O2 Hncp) in D2. done.
Qed.

Lemma uartintr_spec_witness :
  wp uartintr ex_dev (fun _ s2 => kframe 1 ex_dev s2 /\ exists k u n,
    pfs s2 = set_cons k (set_urt u (pfs ex_dev)) /\ cons_inv k /\ lines k = (str "ls" ++ [NL] ++ str "eco" ++ [NL], []) /\
    drained n (set_u_rx [] (sent_sync (str "h" ++ [8; 32; 8; 111; NL]) ex_uart)) u).
Proof.
  apply (uartintr_spec [] 1 ex_dev).
  - apply ex_kready.
  - apply not_elem_of_nil.
  - apply not_elem_of_nil.
  - apply not_elem_of_nil.
  - simpl. lia.
  - reflexivity.
  - exact ex_cons_inv.
  - exact ex_uart_inv.
  - apply (bool_decide_unpack (Forall _ _)). vm_compute. exact I.
  - apply (bool_decide_unpack (C_P ∉ u_rx ex_uart)). vm_compute. exact I.
Defined.

(** [consoleread] delivers the next line. When a line (or as many bytes
    as the caller wants) is waiting and its destination is mapped, exactly
    these bytes are stored in the caller's memory, their number is returned
    and the rest stays in the console; an end of file after other bytes stays
    too, so that the next read returns 0. *)
Theorem consoleread_spec `{LinkerOk} ls i s L fr A dst n t rest :
  kready ls i s -> ConsLock ∉ ls -> (length ls < 8)%nat -> cons_inv (cons (pfs s)) -> user_at i s L fr A ->
  0 <= n < 2 ^ 31 -> 0 <= dst -> dst + n < 2 ^ 64 ->
  read_line (Z.to_nat n) (Z.to_nat n) (unread (cons (pfs s))) = Some (t, rest) ->
  (forall k, (k < length t)%nat -> user_mapped A (dst + Z.of_nat k)) ->
  wp (consoleread true dst n) s (fun r s2 => r = Z.of_nat (length t) /\ uframe i s s2 /\
    user_at i s2 L fr A /\ user_wrote A (phys (pk s)) (phys (pk s2)) dst t /\
    exists k, pfs s2 = set_cons k (pfs s) /\ cons_inv k /\ lines k = (rest, editing (cons (pfs s)))).
Proof.
  intros. eapply (consoleread_wp ls i); [done..|]. intros s2 k U2 E2 A2 I2 R2 D2 W2. split_and!; try done.
  exists k. unfold lines. by rewrite R2, D2.
Qed.

