(* ===== verification/Fs.v ===== *)
(** * The file system: blocks and inodes

    The first three layers of [kernel/fs.c]: the superblock, the block
    allocator, and inodes with their contents.  A pointer to an entry of the
    inode table is its index; a null pointer is [None].  The data of a buffer
    is copied to and from user memory through the buffer's place in kernel
    memory. *)

From S2P Require Import Prelude Riscv Mem CString Kalloc Spinlock Proc IoState SleepLock Bio Bytes Log Uart Printf.

(** ** fs.h, stat.h *)

Definition ROOTINO : Z := 1.
Definition FSMAGIC : Z := 0x10203040.
Definition NDIRECT : Z := 12.
Definition ndirect : nat := 12.
Definition NINDIRECT : Z := BSIZE / 4.
Definition nindirect : nat := 256.
Definition MAXFILE : Z := NDIRECT + NINDIRECT.
Definition SIZEOF_DINODE : nat := 64.
Definition IPB : Z := BSIZE / 64.
Definition IBLOCK (i : Z) (s : superblock) : Z := u32 (i / IPB + sb_inodestart s).
Definition BPB : Z := BSIZE * 8.
Definition BBLOCK (b : Z) (s : superblock) : Z := u32 (b / BPB + sb_bmapstart s).
Definition DIRSIZ : nat := 14.
Definition T_DIR : Z := 1.
Definition T_FILE : Z := 2.
Definition T_DEVICE : Z := 3.

(** The superblock at the start of block 1. *)
Definition sb_decode (d : list Z) : superblock :=
  Superblock (get_le 4 d 0) (get_le 4 d 4) (get_le 4 d 8) (get_le 4 d 12)
    (get_le 4 d 16) (get_le 4 d 20) (get_le 4 d 24) (get_le 4 d 28).

(** A struct dinode, and where the one of inode [inum] is in its block. *)
Record dinode := DInode {
  d_type : Z; d_major : Z; d_minor : Z; d_nlink : Z; d_size : Z; d_addrs : list Z;
}.
Definition dinode_off (inum : Z) : nat := (SIZEOF_DINODE * Z.to_nat (inum mod IPB))%nat.
Definition dinode_get (d : list Z) (o : nat) : dinode :=
  DInode (i16 (get_le 2 d o)) (i16 (get_le 2 d (o + 2))) (i16 (get_le 2 d (o + 4))) (i16 (get_le 2 d (o + 6)))
    (get_le 4 d (o + 8)) (get_les 4 d (o + 12) (S ndirect)).
Definition dinode_put (d : list Z) (o : nat) (x : dinode) : list Z :=
  let d := put_le 2 d o (d_type x) in
  let d := put_le 2 d (o + 2) (d_major x) in
  let d := put_le 2 d (o + 4) (d_minor x) in
  let d := put_le 2 d (o + 6) (d_nlink x) in
  let d := put_le 4 d (o + 8) (d_size x) in
  put_les 4 d (o + 12) (d_addrs x).

(** The members of an in-memory inode that are on disk too. *)
Definition dinode_of (x : inode) : dinode :=
  DInode (i_type x) (i_major x) (i_minor x) (i_nlink x) (i_size x) (i_addrs x).
Definition with_dinode (dx : dinode) (x : inode) : inode :=
  set_i_addrs (d_addrs dx) (set_i_size (d_size dx) (set_i_nlink (d_nlink dx) (set_i_minor (d_minor dx)
    (set_i_major (d_major dx) (set_i_type (d_type dx) x))))).

(** The scan of a bitmap block for a clear bit. *)
Definition bit_mask (bi : Z) : Z := Z.shiftl 1 (bi mod 8).
Definition bit_byte (bi : Z) : nat := Z.to_nat (bi / 8).
Fixpoint scan_bits (n : nat) (d : list Z) (b bi size : Z) : option Z :=
  match n with
  | O => None
  | S n =>
      if b + bi <? size then
        if Z.land (byte_at d (bit_byte bi)) (bit_mask bi) =? 0 then Some bi
        else scan_bits n d b (bi + 1) size
      else None
  end.
Definition set_bit (d : list Z) (bi : Z) : list Z :=
  <[bit_byte bi := u8 (Z.lor (byte_at d (bit_byte bi)) (bit_mask bi))]> d.
Definition clear_bit (d : list Z) (bi : Z) : list Z :=
  <[bit_byte bi := u8 (Z.land (byte_at d (bit_byte bi)) (Z.lnot (bit_mask bi)))]> d.

Section Fs.
Context `{Linker}.
Local Open Scope kernel_scope.

Definition gsb {A} (f : superblock -> A) : K A := iogets (fun s => f (sb s)).

Definition readsb (dev : Z) : K superblock :=
  bp <- bread (u32 dev) 1 ;;
  d <- buf_data bp ;;
  brelse bp ;;
  ret (sb_decode d).

Definition fsinit (dev : Z) : K unit :=
  s <- readsb dev ;;
  iomod (set_sb s) ;;
  if negb (sb_magic s =? FSMAGIC) then panic "invalid file system"
  else initlog dev s.

Definition bzero (dev bno : Z) : K unit :=
  bp <- bread (u32 dev) (u32 bno) ;;
  set_buf_data bp (replicate bsize 0) ;;
  log_write bp ;;
  brelse bp.

(** ** Blocks *)

(** The outer loop turns once per bitmap block. *)
Fixpoint balloc_loop (fuel : nat) (dev b : Z) : K Z :=
  match fuel with
  | O => fail EFuel
  | S fuel =>
      s <- gsb id ;;
      if negb (b <? sb_size s) then
        printf (str "balloc: out of blocks" ++ [10]) [] ;; ret 0
      else
        bp <- bread dev (BBLOCK b s) ;;
        d <- buf_data bp ;;
        match scan_bits (Z.to_nat BPB) d b 0 (sb_size s) with
        | Some bi =>
            set_buf_data bp (set_bit d bi) ;;
            log_write bp ;;
            brelse bp ;;
            bzero dev (b + bi) ;;
            ret (b + bi)
        | None => brelse bp ;; balloc_loop fuel dev (b + BPB)
        end
  end.
Definition balloc (dev : Z) : K Z :=
  size <- gsb sb_size ;; balloc_loop (S (Z.to_nat (size / BPB + 1))) dev 0.

Definition bfree (dev b : Z) : K unit :=
  s <- gsb id ;;
  bp <- bread (u32 dev) (BBLOCK b s) ;;
  d <- buf_data bp ;;
  let bi := b mod BPB in
  if Z.land (byte_at d (bit_byte bi)) (bit_mask bi) =? 0 then panic "freeing free block"
  else
    set_buf_data bp (clear_bit d bi) ;;
    log_write bp ;;
    brelse bp.

(** ** The inode table *)

Definition geti (i : nat) : K inode :=
  o <- iogets (fun s => itable s !! i) ;;
  match o with Some x => ret x | None => ub "itable.inode[]" end.
Definition updi (i : nat) (f : inode -> inode) : K unit :=
  geti i ;; iomod (fun s => set_itable (alter f i (itable s)) s).

Definition inode_addr (i : nat) : Z := itable_addr + 24 + Z.of_nat i * SIZEOF_INODE.
Definition inode_lock (i : nat) : slref :=
  SlRef (fun s => i_lock <$> itable s !! i)
        (fun l s => set_itable (alter (set_i_lock l) i (itable s)) s)
        (inode_addr i + 16).

(** A use of a pointer that may be null. *)
Definition inode_deref (ip : option nat) : K nat :=
  match ip with Some i => ret i | None => ub "null inode" end.

Fixpoint iinit_loop (is_ : list nat) : K unit :=
  match is_ with
  | [] => ret tt
  | i :: is_ => initsleeplock (inode_lock i) ;; iinit_loop is_
  end.
Definition iinit : K unit :=
  inlk (initlock ItableLock) ;; iinit_loop (seq 0 ninode).

Fixpoint iget_loop (is_ : list nat) (dev inum : Z) (empty : option nat) : K (nat + option nat) :=
  match is_ with
  | [] => ret (inr empty)
  | i :: is_ =>
      x <- geti i ;;
      if (0 <? i_ref x) && (i_dev x =? dev) && (i_inum x =? inum) then ret (inl i)
      else
        iget_loop is_ dev inum
          (match empty with None => if i_ref x =? 0 then Some i else None | Some e => Some e end)
  end.
Definition iget (dev inum : Z) : K nat :=
  inlk (acquire ItableLock) ;;
  r <- iget_loop (seq 0 ninode) dev inum None ;;
  match r with
  | inl i =>
      updi i (fun x => set_i_ref (i32 (i_ref x + 1)) x) ;;
      inlk (release ItableLock) ;;
      ret i
  | inr None => panic "iget: no inodes"
  | inr (Some i) =>
      updi i (set_i_dev dev) ;;
      updi i (set_i_inum inum) ;;
      updi i (set_i_ref 1) ;;
      updi i (set_i_valid 0) ;;
      inlk (release ItableLock) ;;
      ret i
  end.

Definition idup (i : nat) : K nat :=
  inlk (acquire ItableLock) ;;
  updi i (fun x => set_i_ref (i32 (i_ref x + 1)) x) ;;
  inlk (release ItableLock) ;;
  ret i.

(** [dip] points to the dinode at [dinode_off inum] of the buffer. *)
Fixpoint ialloc_loop (fuel : nat) (dev inum type : Z) : K (option nat) :=
  match fuel with
  | O => fail EFuel
  | S fuel =>
      s <- gsb id ;;
      if negb (inum <? sb_ninodes s) then
        printf (str "ialloc: no inodes" ++ [10]) [] ;; ret None
      else
        bp <- bread dev (IBLOCK inum s) ;;
        d <- buf_data bp ;;
        let o := dinode_off inum in
        if d_type (dinode_get d o) =? 0 then
          set_buf_data bp (put_le 2 (dinode_put d o (DInode 0 0 0 0 0 (replicate (S ndirect) 0))) o type) ;;
          log_write bp ;;
          brelse bp ;;
          i <- iget dev inum ;;
          ret (Some i)
        else brelse bp ;; ialloc_loop fuel dev (inum + 1) type
  end.
Definition ialloc (dev type : Z) : K (option nat) :=
  n <- gsb sb_ninodes ;; ialloc_loop (S (Z.to_nat n)) dev 1 type.

Definition iupdate (i : nat) : K unit :=
  x <- geti i ;;
  s <- gsb id ;;
  bp <- bread (i_dev x) (IBLOCK (i_inum x) s) ;;
  d <- buf_data bp ;;
  x <- geti i ;;
  set_buf_data bp (dinode_put d (dinode_off (i_inum x)) (dinode_of x)) ;;
  log_write bp ;;
  brelse bp.

(** Read the inode from its block. *)
Definition iload (i : nat) (x : inode) : K unit :=
  s <- gsb id ;;
  bp <- bread (i_dev x) (IBLOCK (i_inum x) s) ;;
  d <- buf_data bp ;;
  updi i (with_dinode (dinode_get d (dinode_off (i_inum x)))) ;;
  brelse bp ;;
  updi i (set_i_valid 1) ;;
  x <- geti i ;;
  when i_type x =? 0 then panic "ilock: no type".

Definition ilock (ip : option nat) : K unit :=
  match ip with
  | None => panic "ilock"
  | Some i =>
      x <- geti i ;;
      if i_ref x <? 1 then panic "ilock"
      else
        acquiresleep (inode_lock i) ;;
        x <- geti i ;;
        when i_valid x =? 0 then iload i x
  end.

Definition iunlock (ip : option nat) : K unit :=
  match ip with
  | None => panic "iunlock"
  | Some i =>
      h <- holdingsleep (inode_lock i) ;;
      if negb (h : bool) then panic "iunlock"
      else
        x <- geti i ;;
        if i_ref x <? 1 then panic "iunlock"
        else releasesleep (inode_lock i)
  end.

(** ** Contents *)

(** ip->addrs[k] *)
Definition get_addr (i k : nat) : K Z :=
  x <- geti i ;;
  match i_addrs x !! k with Some a => ret a | None => ub "ip->addrs[]" end.
Definition set_addr (i k : nat) (a : Z) : K unit :=
  get_addr i k ;; updi i (fun x => set_i_addrs (<[k := a]> (i_addrs x)) x).

(** The address in slot [k], allocated if it is 0. *)
Definition addr_or_alloc (i k : nat) : K Z :=
  addr <- get_addr i k ;;
  if addr =? 0 then
    x <- geti i ;;
    addr <- balloc (i_dev x) ;;
    if addr =? 0 then ret 0 else set_addr i k addr ;; ret addr
  else ret addr.

Definition bmap (i : nat) (bn : Z) : K Z :=
  if bn <? NDIRECT then addr_or_alloc i (Z.to_nat bn)
  else if bn - NDIRECT <? NINDIRECT then
    let k := Z.to_nat (bn - NDIRECT) in
    ind <- addr_or_alloc i ndirect ;;
    if ind =? 0 then ret 0
    else
      x <- geti i ;;
      bp <- bread (i_dev x) ind ;;
      d <- buf_data bp ;;
      let addr := get_le 4 d (4 * k) in
      addr <- (if addr =? 0 then
                 addr <- balloc (i_dev x) ;;
                 (when negb (addr =? 0) then
                    d <- buf_data bp ;;
                    set_buf_data bp (put_le 4 d (4 * k) addr) ;;
                    log_write bp) ;;
                 ret addr
               else ret addr) ;;
      brelse bp ;;
      ret addr
  else panic "bmap: out of range".

Fixpoint itrunc_direct (ks : list nat) (i : nat) : K unit :=
  match ks with
  | [] => ret tt
  | k :: ks =>
      a <- get_addr i k ;;
      (when negb (a =? 0) then
         x <- geti i ;;
         bfree (i_dev x) a ;;
         set_addr i k 0) ;;
      itrunc_direct ks i
  end.
Fixpoint itrunc_indirect (js : list nat) (i bp : nat) : K unit :=
  match js with
  | [] => ret tt
  | j :: js =>
      d <- buf_data bp ;;
      let a := get_le 4 d (4 * j) in
      (when negb (a =? 0) then
         x <- geti i ;;
         bfree (i_dev x) a) ;;
      itrunc_indirect js i bp
  end.
Definition itrunc (i : nat) : K unit :=
  itrunc_direct (seq 0 ndirect) i ;;
  a <- get_addr i ndirect ;;
  (when negb (a =? 0) then
     x <- geti i ;;
     bp <- bread (i_dev x) a ;;
     itrunc_indirect (seq 0 nindirect) i bp ;;
     brelse bp ;;
     bfree (i_dev x) a ;;
     set_addr i ndirect 0) ;;
  updi i (set_i_size 0) ;;
  iupdate i.

Definition iput (i : nat) : K unit :=
  inlk (acquire ItableLock) ;;
  x <- geti i ;;
  (when (i_ref x =? 1) && ctrue (i_valid x) && (i_nlink x =? 0) then
     acquiresleep (inode_lock i) ;;
     inlk (release ItableLock) ;;
     itrunc i ;;
     updi i (set_i_type 0) ;;
     iupdate i ;;
     updi i (set_i_valid 0) ;;
     releasesleep (inode_lock i) ;;
     inlk (acquire ItableLock)) ;;
  updi i (fun x => set_i_ref (i32 (i_ref x - 1)) x) ;;
  inlk (release ItableLock).

Definition iunlockput (i : nat) : K unit := iunlock (Some i) ;; iput i.

(** struct stat at [p]: dev 0, ino 4, type 8, nlink 10, size 16. *)
Definition stati (i : nat) (p : Z) : K unit :=
  x <- geti i ;;
  phys_wr (fun m => st 8 (st 2 (st 2 (st 4 (st 4 m p (i_dev x)) (p + 4) (i_inum x))
                      (p + 8) (i_type x)) (p + 10) (i_nlink x)) (p + 16) (i_size x)).

(** *** Reading and writing *)

(** bp->data + o *)
Definition data_addr (bp : nat) (o : Z) : Z := buf_addr bp + 88 + o.
(** Let kernel memory hold the [m] bytes at offset [o] of the buffer, and
    take them back from there. *)
Definition data_out (bp : nat) (o m : Z) : K unit :=
  d <- buf_data bp ;;
  phys_wr (fun mm => wr_bytes mm (data_addr bp o) (take (Z.to_nat m) (drop (Z.to_nat o) d))).
Definition data_in (bp : nat) (o m : Z) : K unit :=
  d <- buf_data bp ;;
  bs <- gets (fun s => bytes (Z.to_nat m) (phys (pk s)) (data_addr bp o)) ;;
  set_buf_data bp (take (Z.to_nat o) d ++ bs ++ drop (Z.to_nat (o + m)) d).

Fixpoint readi_loop (fuel : nat) (i : nat) (user_dst : bool) (dst off tot n : Z) : K Z :=
  match fuel with
  | O => fail EFuel
  | S fuel =>
      if tot <? n then
        addr <- bmap i (off / BSIZE) ;;
        if addr =? 0 then ret (i32 tot)
        else
          x <- geti i ;;
          bp <- bread (i_dev x) addr ;;
          let m := Z.min (n - tot) (BSIZE - off mod BSIZE) in
          data_out bp (off mod BSIZE) m ;;
          e <- either_copyout user_dst dst (data_addr bp (off mod BSIZE)) m ;;
          brelse bp ;;
          if e =? -1 then ret (-1)
          else readi_loop fuel i user_dst (u64 (dst + m)) (u32 (off + m)) (tot + m) n
      else ret (i32 tot)
  end.
(** One turn per block touched. *)
Definition chunks (n : Z) : nat := S (S (S (Z.to_nat (n / BSIZE)))).
Definition readi (i : nat) (user_dst : bool) (dst off n : Z) : K Z :=
  x <- geti i ;;
  if (i_size x <? off) || (u32 (off + n) <? off) then ret 0
  else
    let n := if i_size x <? u32 (off + n) then i_size x - off else n in
    readi_loop (chunks n) i user_dst dst off 0 n.

(** The result is [tot] and the final [off]. *)
Fixpoint writei_loop (fuel : nat) (i : nat) (user_src : bool) (src off tot n : Z) : K (Z * Z) :=
  match fuel with
  | O => fail EFuel
  | S fuel =>
      if tot <? n then
        addr <- bmap i (off / BSIZE) ;;
        if addr =? 0 then ret (tot, off)
        else
          x <- geti i ;;
          bp <- bread (i_dev x) addr ;;
          let m := Z.min (n - tot) (BSIZE - off mod BSIZE) in
          data_out bp (off mod BSIZE) m ;;
          e <- either_copyin (data_addr bp (off mod BSIZE)) user_src src m ;;
          data_in bp (off mod BSIZE) m ;;
          if e =? -1 then brelse bp ;; ret (tot, off)
          else
            log_write bp ;;
            brelse bp ;;
            writei_loop fuel i user_src (u64 (src + m)) (u32 (off + m)) (tot + m) n
      else ret (tot, off)
  end.
Definition writei (i : nat) (user_src : bool) (src off n : Z) : K Z :=
  x <- geti i ;;
  if (i_size x <? off) || (u32 (off + n) <? off) then ret (-1)
  else if MAXFILE * BSIZE <? u32 (off + n) then ret (-1)
  else
    r <- writei_loop (chunks n) i user_src src off 0 n ;;
    let '(tot, off) := r in
    x <- geti i ;;
    (when i_size x <? off then updi i (set_i_size off)) ;;
    iupdate i ;;
    ret (i32 tot).

End Fs.
