(* ===== verification/Dir.v ===== *)
(** * The file system: directories and paths

    The last two layers of [kernel/fs.c].  A path is the list of its bytes
    before the NUL; the name of a path element is a list of at most [DIRSIZ]
    bytes.  The local variable [de] of [dirlookup] and [dirlink] is at
    [klocal]. *)

From S2P Require Import Prelude Riscv Mem CString Kalloc Spinlock Proc IoState SleepLock Bio Bytes Log Uart Printf Fs.

Definition SIZEOF_DIRENT : Z := 16.
Definition SLASH : Z := 47.

(** ** Names *)

(** [strncmp] on the bytes of two names, 0 behind their ends. *)
Fixpoint name_diff (n : nat) (p q : list Z) : Z :=
  match n with
  | O => 0
  | S n =>
      let a := default 0 (head p) in
      let b := default 0 (head q) in
      if ctrue a && (a =? b) then name_diff n (tail p) (tail q) else u8 a - u8 b
  end.
Definition namecmp (s t : list Z) : Z := name_diff DIRSIZ s t.

(** [strncpy] of a name into the 14 bytes of an entry. *)
Fixpoint name_field (n : nat) (s : list Z) : list Z :=
  match n with
  | O => []
  | S n => match s with c :: s => c :: name_field n s | [] => 0 :: name_field n [] end
  end.

(** ** Path elements *)

Fixpoint skip_slashes (path : list Z) : list Z :=
  match path with
  | c :: rest => if c =? SLASH then skip_slashes rest else path
  | [] => []
  end.
(** The bytes up to the next slash, and what follows. *)
Fixpoint split_elem (path : list Z) : list Z * list Z :=
  match path with
  | c :: rest =>
      if c =? SLASH then ([], path) else let '(e, r) := split_elem rest in (c :: e, r)
  | [] => ([], [])
  end.
(** The rest of the path and the name; [None] if there is no element. *)
Definition skipelem (path : list Z) : option (list Z * list Z) :=
  let path := skip_slashes path in
  match path with
  | [] => None
  | _ =>
      let '(e, rest) := split_elem path in
      let name := if (DIRSIZ <=? length e)%nat then take DIRSIZ e else e in
      Some (skip_slashes rest, name)
  end.

Section Dir.
Context `{Linker}.
Local Open Scope kernel_scope.

(** The entry [de] at [klocal]: inum, then the name. *)
Definition de_inum : K Z := gets (fun s => ld 2 (phys (pk s)) klocal).
Definition de_name : K (list Z) := gets (fun s => bytes DIRSIZ (phys (pk s)) (klocal + 2)).
Definition set_de (inum : Z) (name : list Z) : K unit :=
  phys_wr (fun m => wr_bytes (st 2 m klocal (u16 inum)) (klocal + 2) (name_field DIRSIZ name)).

(** The loop over the entries; a match gives the inode and the offset. *)
Fixpoint dirlookup_loop (fuel : nat) (dp : nat) (name : list Z) (off : Z) : K (option (nat * Z)) :=
  match fuel with
  | O => fail EFuel
  | S fuel =>
      x <- geti dp ;;
      if negb (off <? i_size x) then ret None
      else
        r <- readi dp false klocal off SIZEOF_DIRENT ;;
        if negb (r =? SIZEOF_DIRENT) then panic "dirlookup read"
        else
          inum <- de_inum ;;
          if inum =? 0 then dirlookup_loop fuel dp name (u32 (off + SIZEOF_DIRENT))
          else
            t <- de_name ;;
            if namecmp name t =? 0 then
              x <- geti dp ;;
              i <- iget (i_dev x) inum ;;
              ret (Some (i, off))
            else dirlookup_loop fuel dp name (u32 (off + SIZEOF_DIRENT))
  end.
(** One turn per entry. *)
Definition dir_turns (size : Z) : nat := S (Z.to_nat (size / SIZEOF_DIRENT + 1)).
Definition dirlookup (dp : nat) (name : list Z) : K (option (nat * Z)) :=
  x <- geti dp ;;
  if negb (i_type x =? T_DIR) then panic "dirlookup not DIR"
  else dirlookup_loop (dir_turns (i_size x)) dp name 0.

(** The offset of the first empty entry, or the end. *)
Fixpoint dirlink_loop (fuel : nat) (dp : nat) (off : Z) : K Z :=
  match fuel with
  | O => fail EFuel
  | S fuel =>
      x <- geti dp ;;
      if negb (off <? i_size x) then ret off
      else
        r <- readi dp false klocal off SIZEOF_DIRENT ;;
        if negb (r =? SIZEOF_DIRENT) then panic "dirlink read"
        else
          inum <- de_inum ;;
          if inum =? 0 then ret off
          else dirlink_loop fuel dp (u32 (off + SIZEOF_DIRENT))
  end.
Definition dirlink (dp : nat) (name : list Z) (inum : Z) : K Z :=
  found <- dirlookup dp name ;;
  match found with
  | Some (i, _) => iput i ;; ret (-1)
  | None =>
      x <- geti dp ;;
      off <- dirlink_loop (dir_turns (i_size x)) dp 0 ;;
      set_de inum name ;;
      w <- writei dp false klocal off SIZEOF_DIRENT ;;
      if negb (w =? SIZEOF_DIRENT) then ret (-1) else ret 0
  end.

(** A pointer to an entry of the inode table. *)
Definition inode_of_addr (a : Z) : option nat :=
  let k := a - inode_addr 0 in
  if (0 <=? k) && (k mod SIZEOF_INODE =? 0) && (k / SIZEOF_INODE <? NINODE)
  then Some (Z.to_nat (k / SIZEOF_INODE)) else None.
Definition cwd_inode : K nat :=
  r <- myproc ;;
  i <- deref r ;;
  p <- getp i ;;
  inode_deref (inode_of_addr (cwd p)).

(** The result with the name of the last element looked at. *)
Fixpoint namex_loop (fuel : nat) (i : nat) (path name : list Z) (nameiparent : bool) : K (option nat * list Z) :=
  match fuel with
  | O => fail EFuel
  | S fuel =>
      match skipelem path with
      | None =>
          if nameiparent then iput i ;; ret (None, name) else ret (Some i, name)
      | Some (path, name) =>
          ilock (Some i) ;;
          x <- geti i ;;
          if negb (i_type x =? T_DIR) then iunlockput i ;; ret (None, name)
          else if nameiparent && bool_decide (path = []) then iunlock (Some i) ;; ret (Some i, name)
          else
            next <- dirlookup i name ;;
            match next with
            | None => iunlockput i ;; ret (None, name)
            | Some (next, _) => iunlockput i ;; namex_loop fuel next path name nameiparent
            end
      end
  end.
(** Every turn takes an element off the path. *)
Definition namex (path : list Z) (nameiparent : bool) : K (option nat * list Z) :=
  i <- (if default 0 (head path) =? SLASH then iget ROOTDEV ROOTINO
        else c <- cwd_inode ;; idup c) ;;
  namex_loop (S (length path)) i path [] nameiparent.

Definition namei (path : list Z) : K (option nat) :=
  r <- namex path false ;; ret (fst r).
Definition nameiparent (path : list Z) : K (option nat * list Z) := namex path true.

End Dir.
