(* ===== verification/Pipe.v ===== *)
(** * Pipes

    [kernel/pipe.c].  A struct pipe lives in a page of its own, at the
    address [pi]; its lock is [PipeLock pi].  A routine that would sleep ends
    in [EBlock]; the local variable [ch] is at [klocal]. *)

From S2P Require Import Prelude Riscv Mem Kalloc Vm Spinlock Proc IoState SleepLock.

Definition PIPESIZE : Z := 512.
Definition OFF_data : Z := 24.
Definition OFF_nread : Z := 536.
Definition OFF_nwrite : Z := 540.
Definition OFF_readopen : Z := 544.
Definition OFF_writeopen : Z := 548.

Section Pipe.
Context `{Linker}.
Local Open Scope kernel_scope.

(** Members of 4 bytes, and an element of [data]. *)
Definition pget (pi off : Z) : K Z := gets (fun s => ld 4 (phys (pk s)) (pi + off)).
Definition pset (pi off v : Z) : K unit := phys_wr (fun m => st 4 m (pi + off) v).
Definition pdata (pi x : Z) : Z := pi + OFF_data + x mod PIPESIZE.

(** What [pipealloc] does to the new pipe. *)
Definition pipe_init (pi : Z) : K unit :=
  pset pi OFF_readopen 1 ;;
  pset pi OFF_writeopen 1 ;;
  pset pi OFF_nwrite 0 ;;
  pset pi OFF_nread 0 ;;
  inlk (initlock (PipeLock pi)).

Definition pipeclose (pi : Z) (writable : bool) : K unit :=
  inlk (acquire (PipeLock pi)) ;;
  (if writable then
     pset pi OFF_writeopen 0 ;;
     wakeup (pi + OFF_nread)
   else
     pset pi OFF_readopen 0 ;;
     wakeup (pi + OFF_nwrite)) ;;
  ro <- pget pi OFF_readopen ;;
  wo <- pget pi OFF_writeopen ;;
  if (ro =? 0) && (wo =? 0) then
    inlk (release (PipeLock pi)) ;;
    inmem (kfree pi)
  else inlk (release (PipeLock pi)).

(** The result is the number of bytes written, [None] for the return of -1. *)
Fixpoint pipewrite_loop (k : nat) (pr : nat) (pi addr i : Z) : K (option Z) :=
  match k with
  | O => ret (Some i)
  | S k =>
      ro <- pget pi OFF_readopen ;;
      stop <- (if ro =? 0 then ret true else x <- killed pr ;; ret (ctrue x)) ;;
      if (stop : bool) then
        inlk (release (PipeLock pi)) ;; ret None
      else
        w <- pget pi OFF_nwrite ;;
        r <- pget pi OFF_nread ;;
        if w =? u32 (r + PIPESIZE) then
          wakeup (pi + OFF_nread) ;;
          fail (EBlock "pipewrite")
        else
          p <- getp pr ;;
          e <- inmem (copyin (pagetable p) klocal (u64 (addr + i)) 1) ;;
          if e =? -1 then ret (Some i)
          else
            ch <- gets (fun s => rd (phys (pk s)) klocal) ;;
            pset pi OFF_nwrite (u32 (w + 1)) ;;
            phys_wr (fun m => wr m (pdata pi w) ch) ;;
            pipewrite_loop k pr pi addr (i + 1)
  end.
Definition pipewrite (pi addr n : Z) : K Z :=
  me <- myproc ;;
  pr <- deref me ;;
  inlk (acquire (PipeLock pi)) ;;
  o <- pipewrite_loop (Z.to_nat n) pr pi addr 0 ;;
  match o with
  | None => ret (-1)
  | Some i =>
      wakeup (pi + OFF_nread) ;;
      inlk (release (PipeLock pi)) ;;
      ret i
  end.

Fixpoint piperead_loop (k : nat) (pr : nat) (pi addr i : Z) : K Z :=
  match k with
  | O => ret i
  | S k =>
      r <- pget pi OFF_nread ;;
      w <- pget pi OFF_nwrite ;;
      if r =? w then ret i
      else
        ch <- gets (fun s => rd (phys (pk s)) (pdata pi r)) ;;
        pset pi OFF_nread (u32 (r + 1)) ;;
        phys_wr (fun m => wr m klocal ch) ;;
        p <- getp pr ;;
        e <- inmem (copyout (pagetable p) (u64 (addr + i)) klocal 1) ;;
        if e =? -1 then ret i
        else piperead_loop k pr pi addr (i + 1)
  end.
Definition piperead (pi addr n : Z) : K Z :=
  me <- myproc ;;
  pr <- deref me ;;
  inlk (acquire (PipeLock pi)) ;;
  r <- pget pi OFF_nread ;;
  w <- pget pi OFF_nwrite ;;
  wo <- pget pi OFF_writeopen ;;
  if (r =? w) && ctrue wo then
    x <- killed pr ;;
    if ctrue x then inlk (release (PipeLock pi)) ;; ret (-1)
    else fail (EBlock "piperead")
  else
    i <- piperead_loop (Z.to_nat n) pr pi addr 0 ;;
    wakeup (pi + OFF_nwrite) ;;
    inlk (release (PipeLock pi)) ;;
    ret i.

End Pipe.
