(* ===== verification/File.v ===== *)
(** * Open files

    [kernel/file.c] and [pipealloc] of [kernel/pipe.c].  A pointer to an
    entry of the file table is its index. *)

From S2P Require Import Prelude Riscv Mem CString Kalloc Vm Spinlock Proc IoState SleepLock Bio Bytes Log.
From S2P Require Import Uart Printf Console Fs Dir Pipe.

Definition SIZEOF_STAT : Z := 24.

Section File.
Context `{Linker}.
Local Open Scope kernel_scope.

Definition getf (f : nat) : K file :=
  o <- iogets (fun s => ftable s !! f) ;;
  match o with Some x => ret x | None => ub "ftable.file[]" end.
Definition updf (f : nat) (g : file -> file) : K unit :=
  getf f ;; iomod (fun s => set_ftable (alter g f (ftable s)) s).

Definition fileinit : K unit := inlk (initlock FtableLock).

(** The first entry without references. *)
Fixpoint filealloc_loop (fs : list nat) : K (option nat) :=
  match fs with
  | [] => ret None
  | f :: fs =>
      x <- getf f ;;
      if f_ref x =? 0 then updf f (set_f_ref 1) ;; ret (Some f)
      else filealloc_loop fs
  end.
Definition filealloc : K (option nat) :=
  inlk (acquire FtableLock) ;;
  r <- filealloc_loop (seq 0 nfile) ;;
  inlk (release FtableLock) ;;
  ret r.

Definition filedup (f : nat) : K nat :=
  inlk (acquire FtableLock) ;;
  x <- getf f ;;
  if f_ref x <? 1 then panic "filedup"
  else
    updf f (fun x => set_f_ref (i32 (f_ref x + 1)) x) ;;
    inlk (release FtableLock) ;;
    ret f.

Definition fileclose (f : nat) : K unit :=
  inlk (acquire FtableLock) ;;
  x <- getf f ;;
  if f_ref x <? 1 then panic "fileclose"
  else
    updf f (fun x => set_f_ref (f_ref x - 1) x) ;;
    if 0 <? f_ref x - 1 then inlk (release FtableLock)
    else
      ff <- getf f ;;
      updf f (set_f_ref 0) ;;
      updf f (set_f_type FD_NONE) ;;
      inlk (release FtableLock) ;;
      match f_type ff with
      | FD_PIPE => pipeclose (f_pipe ff) (ctrue (f_writable ff))
      | FD_INODE | FD_DEVICE =>
          begin_op ;;
          iput (f_ip ff) ;;
          end_op
      | FD_NONE => ret tt
      end.

(** copyout(myproc()->pagetable, addr, src, len) *)
Definition copyout_cur (addr src len : Z) : K Z :=
  me <- myproc ;;
  i <- deref me ;;
  p <- getp i ;;
  inmem (copyout (pagetable p) addr src len).

(** The local variable [st] is at [klocal]. *)
Definition filestat (f : nat) (addr : Z) : K Z :=
  x <- getf f ;;
  match f_type x with
  | FD_INODE | FD_DEVICE =>
      ilock (Some (f_ip x)) ;;
      stati (f_ip x) klocal ;;
      iunlock (Some (f_ip x)) ;;
      e <- copyout_cur addr klocal SIZEOF_STAT ;;
      if e <? 0 then ret (-1) else ret 0
  | _ => ret (-1)
  end.

(** devsw[major] has functions: they are the console's. *)
Definition dev_there (major : Z) : K bool :=
  if (major <? 0) || (NDEV <=? major) then ret false
  else iogets (fun s => default false (devsw s !! Z.to_nat major)).

Definition fileread (f : nat) (addr n : Z) : K Z :=
  x <- getf f ;;
  if f_readable x =? 0 then ret (-1)
  else
    match f_type x with
    | FD_PIPE => piperead (f_pipe x) addr n
    | FD_DEVICE =>
        there <- dev_there (f_major x) ;;
        if negb (there : bool) then ret (-1) else consoleread true addr n
    | FD_INODE =>
        ilock (Some (f_ip x)) ;;
        x <- getf f ;;
        r <- readi (f_ip x) true addr (f_off x) (u32 n) ;;
        (when 0 <? r then updf f (fun x => set_f_off (u32 (f_off x + r)) x)) ;;
        iunlock (Some (f_ip x)) ;;
        ret r
    | FD_NONE => panic "fileread"
    end.

(** Each turn is a transaction of its own and writes at most [max] bytes. *)
Definition max_write : Z := ((MAXOPBLOCKS - 1 - 1 - 2) / 2) * BSIZE.
Fixpoint filewrite_loop (fuel : nat) (f : nat) (addr i n : Z) : K Z :=
  match fuel with
  | O => fail EFuel
  | S fuel =>
      if i <? n then
        let n1 := if max_write <? n - i then max_write else n - i in
        begin_op ;;
        x <- getf f ;;
        ilock (Some (f_ip x)) ;;
        x <- getf f ;;
        r <- writei (f_ip x) true (u64 (addr + i)) (f_off x) (u32 n1) ;;
        (when 0 <? r then updf f (fun x => set_f_off (u32 (f_off x + r)) x)) ;;
        iunlock (Some (f_ip x)) ;;
        end_op ;;
        if negb (r =? n1) then ret i else filewrite_loop fuel f addr (i + r) n
      else ret i
  end.
Definition filewrite (f : nat) (addr n : Z) : K Z :=
  x <- getf f ;;
  if f_writable x =? 0 then ret (-1)
  else
    match f_type x with
    | FD_PIPE => pipewrite (f_pipe x) addr n
    | FD_DEVICE =>
        there <- dev_there (f_major x) ;;
        if negb (there : bool) then ret (-1) else consolewrite true addr n
    | FD_INODE =>
        i <- filewrite_loop (S (S (Z.to_nat (n / max_write)))) f addr 0 n ;;
        ret (if i =? n then n else -1)
    | FD_NONE => panic "filewrite"
    end.

(** ** pipealloc *)

Definition pipe_end (f : nat) (readable writable pi : Z) : K unit :=
  updf f (set_f_type FD_PIPE) ;;
  updf f (set_f_readable readable) ;;
  updf f (set_f_writable writable) ;;
  updf f (set_f_pipe pi).
(** The two ends of a new pipe, or [None] for the return of -1. *)
Definition pipealloc : K (option (nat * nat)) :=
  f0 <- filealloc ;;
  match f0 with
  | None => ret None
  | Some f0 =>
      f1 <- filealloc ;;
      match f1 with
      | None => fileclose f0 ;; ret None
      | Some f1 =>
          pi <- inmem kalloc ;;
          if pi =? 0 then fileclose f0 ;; fileclose f1 ;; ret None
          else
            pipe_init pi ;;
            pipe_end f0 1 0 pi ;;
            pipe_end f1 0 1 pi ;;
            ret (Some (f0, f1))
      end
  end.

End File.
