(* ===== verification/Syscall.v ===== *)
(** * System calls: arguments and processes

    [kernel/syscall.c] up to the table of handlers, and [kernel/sysproc.c].
    Local variables whose address is passed on are at [klocal]. *)

From S2P Require Import Prelude Riscv Mem CString Kalloc Vm Spinlock Proc.

Definition TF_a1 : Z := 120.
Definition TF_a7 : Z := 168.

Section Syscall.
Context {F : Type} `{FileOps F} `{Linker}.
Local Open Scope kernel_scope.
Abbreviation P := (M (pst F)).

Definition curproc : P (nat * proc) :=
  r <- myproc ;; i <- deref r ;; p <- getp i ;; ret (i, p).

(** The word is stored at [ip]. *)
Definition fetchaddr (addr ip : Z) : P Z :=
  c <- curproc ;;
  let p := snd c in
  if (sz p <=? addr) || (sz p <? u64 (addr + 8)) then ret (-1)
  else
    e <- inmem (copyin (pagetable p) ip addr 8) ;;
    if negb (e =? 0) then ret (-1) else ret 0.

Definition fetchstr (addr buf max : Z) : P Z :=
  c <- curproc ;;
  e <- inmem (copyinstr (pagetable (snd c)) buf addr max) ;;
  if e <? 0 then ret (-1)
  else
    n <- gets (fun s => strlen (Z.to_nat max) (phys (pk s)) buf) ;;
    match n with Some n => ret n | None => ub "fetchstr: buf" end.

Definition argraw (n : nat) : P Z :=
  c <- curproc ;;
  if (n <? 6)%nat
  then gets (fun s => load64 (phys (pk s)) (trapframe (snd c) + TF_a0 + 8 * Z.of_nat n))
  else panic "argraw".
Definition argint (n : nat) : P Z := v <- argraw n ;; ret (i32 v).
Definition argaddr (n : nat) : P Z := argraw n.
Definition argstr (n : nat) (buf max : Z) : P Z :=
  addr <- argaddr n ;; fetchstr addr buf max.

(** ** sysproc.c *)

(** The array [buff]; the result of [argstr] is not used. *)
Definition sys_exit : P bool :=
  n <- argint 0 ;;
  argstr 1 klocal 32 ;;
  exit n klocal.

Definition sys_getpid : P Z := c <- curproc ;; ret (pid (snd c)).
Definition sys_fork : P Z := fork.
Definition sys_wait : P (option Z) :=
  p <- argaddr 0 ;;
  argstr 1 klocal 32 ;;
  wait p klocal.

Definition sys_sbrk : P Z :=
  n <- argint 0 ;;
  c <- curproc ;;
  let addr := sz (snd c) in
  r <- growproc n ;;
  if r <? 0 then ret (-1) else ret addr.

(** [n] is converted to unsigned in the comparison. *)
Definition sys_sleep : P Z :=
  n <- argint 0 ;;
  inlk (acquire TicksLock) ;;
  ticks0 <- gets ticks ;;
  t <- gets ticks ;;
  if u32 (t - ticks0) <? u32 n then
    c <- curproc ;;
    k <- killed (fst c) ;;
    if ctrue k then inlk (release TicksLock) ;; ret (-1)
    else fail (EBlock "sys_sleep")
  else inlk (release TicksLock) ;; ret 0.

Definition sys_kill : P Z := pd <- argint 0 ;; kill pd.

Definition sys_uptime : P Z :=
  inlk (acquire TicksLock) ;;
  xticks <- gets ticks ;;
  inlk (release TicksLock) ;;
  ret xticks.

Definition sys_memsize : P Z := c <- curproc ;; ret (sz (snd c)).

(** The two calls of sysfile.c for priorities; [&] of the two tests. *)
Definition sys_set_ps_priority (n : Z) : P Z :=
  if (1 <=? n) && (n <=? 10) then
    c <- curproc ;; updp (fst c) (with_ps_priority n) ;; ret 0
  else ret (-1).
Definition sys_set_cfs_priority (n : Z) : P Z :=
  if (0 <=? n) && (n <=? 2) then
    c <- curproc ;; updp (fst c) (with_cfs_priority n) ;; ret 0
  else ret (-1).

End Syscall.
