(* ===== verification/Sysfile.v ===== *)
(** * File system calls

    [kernel/sysfile.c].  The arrays for paths and the other local variables
    whose address is passed on have places of their own at [klocal]. *)

From S2P Require Import Prelude Riscv Mem CString Kalloc Vm Spinlock Proc IoState SleepLock Bio Bytes Log.
From S2P Require Import Riscv Uart Printf Console Fs Dir Pipe File Syscall.

Section Sysfile.
Context `{Linker}.
Local Open Scope kernel_scope.

(** Local variables. *)
Definition loc_path : Z := klocal + 128.
Definition loc_new : Z := klocal + 256.
Definition loc_word : Z := klocal + 384.

(** The string that [argstr] has put at [buf]. *)
Definition path_at (buf len : Z) : K (list Z) := gets (fun s => bytes (Z.to_nat len) (phys (pk s)) buf).

(** ** Descriptors *)

Definition file_addr (f : nat) : Z := ftable_addr + 24 + Z.of_nat f * SIZEOF_FILE.
Definition file_of_addr (a : Z) : option nat :=
  let k := a - file_addr 0 in
  if (0 <=? k) && (k mod SIZEOF_FILE =? 0) && (k / SIZEOF_FILE <? NFILE)
  then Some (Z.to_nat (k / SIZEOF_FILE)) else None.

Definition get_ofile (fd : nat) : K Z :=
  c <- curproc ;;
  match ofile (snd c) !! fd with Some f => ret f | None => ub "ofile[]" end.
Definition set_ofile (fd : nat) (f : Z) : K unit :=
  c <- curproc ;; updp (fst c) (fun p => with_ofile (<[fd := f]> (ofile p)) p).

(** The descriptor and the file; [None] for the return of -1. *)
Definition argfd (n : nat) : K (option (nat * nat)) :=
  fd <- argint n ;;
  if (fd <? 0) || (NOFILE <=? fd) then ret None
  else
    a <- get_ofile (Z.to_nat fd) ;;
    if a =? 0 then ret None
    else
      match file_of_addr a with
      | Some f => ret (Some (Z.to_nat fd, f))
      | None => ub "ofile[fd]"
      end.

Fixpoint fdalloc_loop (fds : list nat) (f : nat) : K Z :=
  match fds with
  | [] => ret (-1)
  | fd :: fds =>
      a <- get_ofile fd ;;
      if a =? 0 then set_ofile fd (file_addr f) ;; ret (Z.of_nat fd)
      else fdalloc_loop fds f
  end.
Definition fdalloc (f : nat) : K Z := fdalloc_loop (seq 0 (Z.to_nat NOFILE)) f.

Definition sys_dup : K Z :=
  a <- argfd 0 ;;
  match a with
  | None => ret (-1)
  | Some (_, f) =>
      fd <- fdalloc f ;;
      if fd <? 0 then ret (-1) else filedup f ;; ret fd
  end.

Definition sys_read : K Z :=
  p <- argaddr 1 ;;
  n <- argint 2 ;;
  a <- argfd 0 ;;
  match a with None => ret (-1) | Some (_, f) => fileread f p n end.

Definition sys_write : K Z :=
  p <- argaddr 1 ;;
  n <- argint 2 ;;
  a <- argfd 0 ;;
  match a with None => ret (-1) | Some (_, f) => filewrite f p n end.

Definition sys_close : K Z :=
  a <- argfd 0 ;;
  match a with
  | None => ret (-1)
  | Some (fd, f) => set_ofile fd 0 ;; fileclose f ;; ret 0
  end.

Definition sys_fstat : K Z :=
  p <- argaddr 1 ;;
  a <- argfd 0 ;;
  match a with None => ret (-1) | Some (_, f) => filestat f p end.

(** ** Links *)

(** The label [bad] of [sys_link]. *)
Definition link_bad (i : nat) : K Z :=
  ilock (Some i) ;;
  updi i (fun x => set_i_nlink (i16 (i_nlink x - 1)) x) ;;
  iupdate i ;;
  iunlockput i ;;
  end_op ;;
  ret (-1).
Definition sys_link : K Z :=
  n0 <- argstr 0 loc_path MAXPATH ;;
  if n0 <? 0 then ret (-1)
  else
    n1 <- argstr 1 loc_new MAXPATH ;;
    if n1 <? 0 then ret (-1)
    else
      old <- path_at loc_path n0 ;;
      new <- path_at loc_new n1 ;;
      begin_op ;;
      ip <- namei old ;;
      match ip with
      | None => end_op ;; ret (-1)
      | Some i =>
          ilock (Some i) ;;
          x <- geti i ;;
          if i_type x =? T_DIR then iunlockput i ;; end_op ;; ret (-1)
          else
            updi i (fun x => set_i_nlink (i16 (i_nlink x + 1)) x) ;;
            iupdate i ;;
            iunlock (Some i) ;;
            r <- nameiparent new ;;
            match r with
            | (None, _) => link_bad i
            | (Some dp, name) =>
                ilock (Some dp) ;;
                d <- geti dp ;;
                x <- geti i ;;
                e <- (if negb (i_dev d =? i_dev x) then ret (-1) else dirlink dp name (i_inum x)) ;;
                if e <? 0 then iunlockput dp ;; link_bad i
                else
                  iunlockput dp ;;
                  iput i ;;
                  end_op ;;
                  ret 0
            end
      end.

Fixpoint isdirempty_loop (fuel : nat) (dp : nat) (off : Z) : K bool :=
  match fuel with
  | O => fail EFuel
  | S fuel =>
      x <- geti dp ;;
      if negb (off <? i_size x) then ret true
      else
        r <- readi dp false klocal off SIZEOF_DIRENT ;;
        if negb (r =? SIZEOF_DIRENT) then panic "isdirempty: readi"
        else
          inum <- de_inum ;;
          if negb (inum =? 0) then ret false
          else isdirempty_loop fuel dp (u32 (off + SIZEOF_DIRENT))
  end.
Definition isdirempty (dp : nat) : K bool :=
  x <- geti dp ;; isdirempty_loop (dir_turns (i_size x)) dp (2 * SIZEOF_DIRENT).

(** The label [bad] of [sys_unlink]. *)
Definition unlink_bad (dp : nat) : K Z := iunlockput dp ;; end_op ;; ret (-1).
(** Both inodes are locked: take the entry at [off] away. *)
Definition unlink_entry (dp i : nat) (off : Z) : K Z :=
  phys_wr (fun m => memset m klocal 0 SIZEOF_DIRENT) ;;
  w <- writei dp false klocal off SIZEOF_DIRENT ;;
  if negb (w =? SIZEOF_DIRENT) then panic "unlink: writei"
  else
    x <- geti i ;;
    (when i_type x =? T_DIR then
       updi dp (fun d => set_i_nlink (i16 (i_nlink d - 1)) d) ;;
       iupdate dp) ;;
    iunlockput dp ;;
    updi i (fun x => set_i_nlink (i16 (i_nlink x - 1)) x) ;;
    iupdate i ;;
    iunlockput i ;;
    end_op ;;
    ret 0.
Definition sys_unlink : K Z :=
  n0 <- argstr 0 loc_path MAXPATH ;;
  if n0 <? 0 then ret (-1)
  else
    path <- path_at loc_path n0 ;;
    begin_op ;;
    r <- nameiparent path ;;
    match r with
    | (None, _) => end_op ;; ret (-1)
    | (Some dp, name) =>
        ilock (Some dp) ;;
        if (namecmp name (str ".") =? 0) || (namecmp name (str "..") =? 0) then unlink_bad dp
        else
          found <- dirlookup dp name ;;
          match found with
          | None => unlink_bad dp
          | Some (i, off) =>
              ilock (Some i) ;;
              x <- geti i ;;
              if i_nlink x <? 1 then panic "unlink: nlink < 1"
              else
                full <- (if i_type x =? T_DIR then e <- isdirempty i ;; ret (negb e) else ret false) ;;
                if (full : bool) then iunlockput i ;; unlink_bad dp
                else unlink_entry dp i off
          end
    end.

(** ** create *)

(** The label [fail] of [create]. *)
Definition create_fail (i dp : nat) : K (option nat) :=
  updi i (set_i_nlink 0) ;;
  iupdate i ;;
  iunlockput i ;;
  iunlockput dp ;;
  ret None.
(** The part after the new inode is locked. *)
Definition create_new (dp i : nat) (name : list Z) (type major minor : Z) : K (option nat) :=
  updi i (set_i_major major) ;;
  updi i (set_i_minor minor) ;;
  updi i (set_i_nlink 1) ;;
  iupdate i ;;
  x <- geti i ;;
  d <- geti dp ;;
  bad <- (if type =? T_DIR then
            e1 <- dirlink i (str ".") (i_inum x) ;;
            if e1 <? 0 then ret true
            else e2 <- dirlink i (str "..") (i_inum d) ;; ret (e2 <? 0)
          else ret false) ;;
  if (bad : bool) then create_fail i dp
  else
    e <- dirlink dp name (i_inum x) ;;
    if e <? 0 then create_fail i dp
    else
      (when type =? T_DIR then
         updi dp (fun d => set_i_nlink (i16 (i_nlink d + 1)) d) ;;
         iupdate dp) ;;
      iunlockput dp ;;
      ret (Some i).
Definition create (path : list Z) (type major minor : Z) : K (option nat) :=
  r <- nameiparent path ;;
  match r with
  | (None, _) => ret None
  | (Some dp, name) =>
      ilock (Some dp) ;;
      found <- dirlookup dp name ;;
      match found with
      | Some (i, _) =>
          iunlockput dp ;;
          ilock (Some i) ;;
          x <- geti i ;;
          if (type =? T_FILE) && ((i_type x =? T_FILE) || (i_type x =? T_DEVICE)) then ret (Some i)
          else iunlockput i ;; ret None
      | None =>
          d <- geti dp ;;
          o <- ialloc (i_dev d) type ;;
          match o with
          | None => iunlockput dp ;; ret None
          | Some i => ilock (Some i) ;; create_new dp i name type major minor
          end
      end
  end.

(** ** open *)

(** Give up with the inode locked. *)
Definition open_bad (i : nat) : K Z := iunlockput i ;; end_op ;; ret (-1).
(** The inode is locked: make a file for it. *)
Definition open_file (i : nat) (omode : Z) : K Z :=
  f <- filealloc ;;
  match f with
  | None => open_bad i
  | Some f =>
      fd <- fdalloc f ;;
      if fd <? 0 then fileclose f ;; open_bad i
      else
        x <- geti i ;;
        (if i_type x =? T_DEVICE then
           updf f (set_f_type FD_DEVICE) ;;
           updf f (set_f_major (i_major x))
         else
           updf f (set_f_type FD_INODE) ;;
           updf f (set_f_off 0)) ;;
        updf f (set_f_ip i) ;;
        updf f (set_f_readable (if Z.land omode O_WRONLY =? 0 then 1 else 0)) ;;
        updf f (set_f_writable
          (if negb (Z.land omode O_WRONLY =? 0) || negb (Z.land omode O_RDWR =? 0) then 1 else 0)) ;;
        (when negb (Z.land omode O_TRUNC =? 0) && (i_type x =? T_FILE) then itrunc i) ;;
        iunlock (Some i) ;;
        end_op ;;
        ret fd
  end.
(** Find or create the inode; it is locked. *)
Definition open_inode (path : list Z) (omode : Z) : K (option nat) :=
  if negb (Z.land omode O_CREATE =? 0) then
    ip <- create path T_FILE 0 0 ;;
    match ip with
    | None => end_op ;; ret None
    | Some i => ret (Some i)
    end
  else
    ip <- namei path ;;
    match ip with
    | None => end_op ;; ret None
    | Some i =>
        ilock (Some i) ;;
        x <- geti i ;;
        if (i_type x =? T_DIR) && negb (omode =? O_RDONLY)
        then iunlockput i ;; end_op ;; ret None
        else ret (Some i)
    end.
Definition sys_open : K Z :=
  omode <- argint 1 ;;
  n <- argstr 0 loc_path MAXPATH ;;
  if n <? 0 then ret (-1)
  else
    path <- path_at loc_path n ;;
    begin_op ;;
    ip <- open_inode path omode ;;
    match ip with
    | None => ret (-1)
    | Some i =>
        x <- geti i ;;
        if (i_type x =? T_DEVICE) && ((i_major x <? 0) || (NDEV <=? i_major x)) then open_bad i
        else open_file i omode
    end.

Definition sys_mkdir : K Z :=
  begin_op ;;
  n <- argstr 0 loc_path MAXPATH ;;
  if n <? 0 then end_op ;; ret (-1)
  else
    path <- path_at loc_path n ;;
    ip <- create path T_DIR 0 0 ;;
    match ip with
    | None => end_op ;; ret (-1)
    | Some i => iunlockput i ;; end_op ;; ret 0
    end.

Definition sys_mknod : K Z :=
  begin_op ;;
  major <- argint 1 ;;
  minor <- argint 2 ;;
  n <- argstr 0 loc_path MAXPATH ;;
  if n <? 0 then end_op ;; ret (-1)
  else
    path <- path_at loc_path n ;;
    ip <- create path T_DEVICE (i16 major) (i16 minor) ;;
    match ip with
    | None => end_op ;; ret (-1)
    | Some i => iunlockput i ;; end_op ;; ret 0
    end.

Definition sys_chdir : K Z :=
  begin_op ;;
  n <- argstr 0 loc_path MAXPATH ;;
  if n <? 0 then end_op ;; ret (-1)
  else
    path <- path_at loc_path n ;;
    ip <- namei path ;;
    match ip with
    | None => end_op ;; ret (-1)
    | Some i =>
        ilock (Some i) ;;
        x <- geti i ;;
        if negb (i_type x =? T_DIR) then iunlockput i ;; end_op ;; ret (-1)
        else
          iunlock (Some i) ;;
          old <- cwd_inode ;;
          iput old ;;
          end_op ;;
          c <- curproc ;;
          updp (fst c) (with_cwd (inode_addr i)) ;;
          ret 0
    end.

(** ** pipe *)

Definition pipe_bad (rf wf : nat) : K Z := fileclose rf ;; fileclose wf ;; ret (-1).
(** copyout of the int [v] from a local variable. *)
Definition put_int (addr v : Z) : K Z :=
  phys_wr (fun m => store32 m loc_word v) ;; copyout_cur addr loc_word 4.
Definition sys_pipe : K Z :=
  fdarray <- argaddr 0 ;;
  o <- pipealloc ;;
  match o with
  | None => ret (-1)
  | Some (rf, wf) =>
      fd0 <- fdalloc rf ;;
      if fd0 <? 0 then pipe_bad rf wf
      else
        fd1 <- fdalloc wf ;;
        if fd1 <? 0 then set_ofile (Z.to_nat fd0) 0 ;; pipe_bad rf wf
        else
          e0 <- put_int fdarray fd0 ;;
          e <- (if e0 <? 0 then ret e0 else put_int (u64 (fdarray + 4)) fd1) ;;
          if e <? 0 then
            set_ofile (Z.to_nat fd0) 0 ;;
            set_ofile (Z.to_nat fd1) 0 ;;
            pipe_bad rf wf
          else ret 0
  end.

End Sysfile.
