(* ===== verification/Exec.v ===== *)
(** * Executing a program

    [kernel/exec.c] and [sys_exec] of [kernel/sysfile.c].  The local
    variables [elf], [ph] and [ustack] have places of their own at [klocal];
    [argv] is the list of the pointers before the null pointer. *)

From S2P Require Import Prelude Riscv Mem CString Kalloc Vm Spinlock Proc IoState SleepLock Bio Bytes Log.
From S2P Require Import Uart Printf Console Fs Dir Pipe File Syscall Sysfile.

(** ** elf.h *)

Definition ELF_MAGIC : Z := 0x464C457F.
Definition SIZEOF_ELFHDR : Z := 64.
Definition SIZEOF_PROGHDR : Z := 56.
Definition ELF_PROG_LOAD : Z := 1.

Definition flags2perm (flags : Z) : Z :=
  let perm := if Z.land flags 0x1 =? 0 then 0 else PTE_X in
  if Z.land flags 0x2 =? 0 then perm else Z.lor perm PTE_W.

(** The last element of a path, as the loop over [path] finds it. *)
Fixpoint last_elem (path last : list Z) : list Z :=
  match path with
  | [] => last
  | c :: path => last_elem path (if c =? SLASH then path else last)
  end.

(** Words of 8 bytes from [a] on. *)
Fixpoint st_words (m : mem) (a : Z) (ws : list Z) : mem :=
  match ws with
  | [] => m
  | w :: ws => st_words (store64 m a w) (a + 8) ws
  end.

Section Exec.
Context `{Linker}.
Local Open Scope kernel_scope.

Definition loc_elf : Z := klocal.
Definition loc_ph : Z := klocal + 64.
Definition loc_ustack : Z := klocal + 512.

(** A member of [w] bytes at [off] of a local variable. *)
Definition local (w : nat) (a off : Z) : K Z := gets (fun s => ld w (phys (pk s)) (a + off)).

(** One turn per page; false for the return of -1. *)
Fixpoint loadseg_loop (fuel : nat) (pagetable va : Z) (ip : nat) (offset sz i : Z) : K bool :=
  match fuel with
  | O => fail EFuel
  | S fuel =>
      if i <? sz then
        pa <- inmem (walkaddr pagetable (u64 (va + i))) ;;
        if pa =? 0 then panic "loadseg: address should exist"
        else
          let n := if sz - i <? PGSIZE then sz - i else PGSIZE in
          r <- readi ip false pa (u32 (offset + i)) n ;;
          if negb (r =? n) then ret false
          else loadseg_loop fuel pagetable va ip offset sz (i + PGSIZE)
      else ret true
  end.
Definition loadseg (pagetable va : Z) (ip : nat) (offset sz : Z) : K bool :=
  loadseg_loop (S (S (Z.to_nat (sz / PGSIZE)))) pagetable va ip offset sz 0.

(** One program header: the new size, or the size so far when it is bad. *)
Definition load_one (pagetable : Z) (ip : nat) (off sz : Z) : K (Z + Z) :=
  r <- readi ip false loc_ph (u32 off) SIZEOF_PROGHDR ;;
  if negb (r =? SIZEOF_PROGHDR) then ret (inr sz)
  else
    type <- local 4 loc_ph 0 ;;
    if negb (type =? ELF_PROG_LOAD) then ret (inl sz)
    else
      flags <- local 4 loc_ph 4 ;;
      poff <- local 8 loc_ph 8 ;;
      vaddr <- local 8 loc_ph 16 ;;
      filesz <- local 8 loc_ph 32 ;;
      memsz <- local 8 loc_ph 40 ;;
      if memsz <? filesz then ret (inr sz)
      else if u64 (vaddr + memsz) <? vaddr then ret (inr sz)
      else if negb (vaddr mod PGSIZE =? 0) then ret (inr sz)
      else
        sz1 <- inmem (uvmalloc pagetable sz (u64 (vaddr + memsz)) (flags2perm flags)) ;;
        if sz1 =? 0 then ret (inr sz)
        else
          ok <- loadseg pagetable vaddr ip (u32 poff) (u32 filesz) ;;
          if negb (ok : bool) then ret (inr sz1) else ret (inl sz1).
Fixpoint load_loop (k : nat) (pagetable : Z) (ip : nat) (off sz : Z) : K (Z + Z) :=
  match k with
  | O => ret (inl sz)
  | S k =>
      r <- load_one pagetable ip off sz ;;
      match r with
      | inr sz => ret (inr sz)
      | inl sz => load_loop k pagetable ip (i32 (off + SIZEOF_PROGHDR)) sz
      end
  end.

(** Push the argument strings: the stack pointer and the pointers pushed, in
    reverse; [None] for the jump to [bad]. *)
Fixpoint push_args (argv : list Z) (argc : nat) (pagetable stackbase sp : Z) (ustack : list Z)
    : K (option (Z * list Z)) :=
  match argv with
  | [] => ret (Some (sp, ustack))
  | a :: argv =>
      if MAXARG <=? Z.of_nat argc then ret None
      else
        n <- gets (fun s => strlen (Z.to_nat PGSIZE) (phys (pk s)) a) ;;
        len <- (match n with Some n => ret n | None => ub "argv[]" end) ;;
        let sp := u64 (sp - (len + 1)) in
        let sp := sp - sp mod 16 in
        if sp <? stackbase then ret None
        else
          e <- inmem (copyout pagetable sp a (len + 1)) ;;
          if e <? 0 then ret None
          else push_args argv (S argc) pagetable stackbase sp (sp :: ustack)
  end.

(** The label [bad]. *)
Definition exec_bad (pagetable sz : Z) (ip : option nat) : K Z :=
  (when negb (pagetable =? 0) then inmem (proc_freepagetable pagetable sz)) ;;
  (match ip with
   | Some i => iunlockput i ;; end_op
   | None => ret tt
   end) ;;
  ret (-1).

(** Commit to the new image. *)
Definition exec_commit (path : list Z) (pagetable sz sp entry argc oldsz : Z) : K Z :=
  c <- curproc ;;
  let '(i, p) := c in
  phys_wr (fun m => store64 m (trapframe p + TF_a1) sp) ;;
  phys_wr (fun m => wr_bytes m (paddr i + OFF_name) (take 15 (last_elem path path) ++ [0])) ;;
  let oldpagetable := Proc.pagetable p in
  updp i (with_pagetable pagetable) ;;
  updp i (with_sz sz) ;;
  phys_wr (fun m => store64 m (trapframe p + TF_epc) entry) ;;
  phys_wr (fun m => store64 m (trapframe p + TF_sp) sp) ;;
  inmem (proc_freepagetable oldpagetable oldsz) ;;
  ret argc.

(** The stack of the new program; the image is loaded and [ip] released. *)
Definition exec_stack (path argv : list Z) (pagetable sz entry : Z) : K Z :=
  c <- curproc ;;
  let oldsz := Proc.sz (snd c) in
  let sz := PGROUNDUP sz in
  sz1 <- inmem (uvmalloc pagetable sz (u64 (sz + 2 * PGSIZE)) PTE_W) ;;
  if sz1 =? 0 then exec_bad pagetable sz None
  else
    let sz := sz1 in
    inmem (uvmclear pagetable (u64 (sz - 2 * PGSIZE))) ;;
    let stackbase := u64 (sz - PGSIZE) in
    o <- push_args argv 0 pagetable stackbase sz [] ;;
    match o with
    | None => exec_bad pagetable sz None
    | Some (sp, ustack) =>
        let argc := Z.of_nat (length ustack) in
        phys_wr (fun m => st_words m loc_ustack (reverse ustack ++ [0])) ;;
        let sp := u64 (sp - (argc + 1) * 8) in
        let sp := sp - sp mod 16 in
        if sp <? stackbase then exec_bad pagetable sz None
        else
          e <- inmem (copyout pagetable sp loc_ustack ((argc + 1) * 8)) ;;
          if e <? 0 then exec_bad pagetable sz None
          else exec_commit path pagetable sz sp entry argc oldsz
    end.

Definition exec (path argv : list Z) : K Z :=
  c <- curproc ;;
  begin_op ;;
  o <- namei path ;;
  match o with
  | None => end_op ;; ret (-1)
  | Some ip =>
      ilock (Some ip) ;;
      r <- readi ip false loc_elf 0 SIZEOF_ELFHDR ;;
      if negb (r =? SIZEOF_ELFHDR) then exec_bad 0 0 (Some ip)
      else
        magic <- local 4 loc_elf 0 ;;
        if negb (magic =? ELF_MAGIC) then exec_bad 0 0 (Some ip)
        else
          pagetable <- inmem (proc_pagetable (trapframe (snd c))) ;;
          if pagetable =? 0 then exec_bad 0 0 (Some ip)
          else
            entry <- local 8 loc_elf 24 ;;
            phoff <- local 8 loc_elf 32 ;;
            phnum <- local 2 loc_elf 56 ;;
            l <- load_loop (Z.to_nat phnum) pagetable ip (i32 phoff) 0 ;;
            match l with
            | inr sz => exec_bad pagetable sz (Some ip)
            | inl sz =>
                iunlockput ip ;;
                end_op ;;
                exec_stack path argv pagetable sz entry
            end
  end.

(** ** sys_exec *)

(** kfree of the pages of [argv]. *)
Fixpoint free_args (argv : list Z) : K unit :=
  match argv with
  | [] => ret tt
  | a :: argv => inmem (kfree a) ;; free_args argv
  end.

(** The pages with the arguments from [i] on; false for the jump to [bad],
    with the pages allocated so far. *)
Fixpoint fetch_args (k : nat) (uargv : Z) (i : nat) (argv : list Z) : K (bool * list Z) :=
  match k with
  | O => ret (false, argv)
  | S k =>
      e <- fetchaddr (u64 (uargv + 8 * Z.of_nat i)) loc_word ;;
      if e <? 0 then ret (false, argv)
      else
        uarg <- local 8 loc_word 0 ;;
        if uarg =? 0 then ret (true, argv)
        else
          a <- inmem kalloc ;;
          if a =? 0 then ret (false, argv)
          else
            n <- fetchstr uarg a PGSIZE ;;
            if n <? 0 then ret (false, argv ++ [a])
            else fetch_args k uargv (S i) (argv ++ [a])
  end.

Definition sys_exec : K Z :=
  uargv <- argaddr 1 ;;
  n <- argstr 0 loc_path MAXPATH ;;
  if n <? 0 then ret (-1)
  else
    path <- path_at loc_path n ;;
    r <- fetch_args (Z.to_nat MAXARG) uargv 0 [] ;;
    let '(ok, argv) := r in
    if (ok : bool) then
      res <- exec path argv ;;
      free_args argv ;;
      ret res
    else free_args argv ;; ret (-1).

End Exec.
