(* ===== verification/Dispatch.v ===== *)
(** * System calls: the dispatcher

    The table of handlers and [syscall] of [kernel/syscall.c], with the
    numbers of [kernel/syscall.h].  The processes of [Proc] use the files of
    [File] and the inodes of [Fs] through the interface [FileOps]: a pointer
    to a file or to an inode is decoded to an index of the table. *)

From S2P Require Import Prelude Riscv Mem CString Kalloc Vm Spinlock Proc IoState SleepLock Bio Bytes Log.
From S2P Require Import Uart Printf Console Fs Dir Pipe File Syscall Sysfile Exec.

Section Files.
Context `{Linker}.
Local Open Scope kernel_scope.

Definition file_ptr (a : Z) : K nat :=
  match file_of_addr a with Some f => ret f | None => ub "struct file" end.
Definition inode_ptr (a : Z) : K nat :=
  match inode_of_addr a with Some i => ret i | None => ub "struct inode" end.

#[export] Instance kernel_files : FileOps iost := {|
  fo_filedup a := f <- file_ptr a ;; f <- filedup f ;; ret (file_addr f);
  fo_fileclose a := f <- file_ptr a ;; fileclose f;
  fo_idup a := i <- inode_ptr a ;; i <- idup i ;; ret (inode_addr i);
  fo_iput a := i <- inode_ptr a ;; iput i;
  fo_begin_op := begin_op;
  fo_end_op := end_op;
  fo_namei_root := r <- namei [47] ;; ret (from_option inode_addr 0 r);
|}.

End Files.

(** ** Numbers *)

Definition SYS_fork : Z := 1.
Definition SYS_exit : Z := 2.
Definition SYS_wait : Z := 3.
Definition SYS_pipe : Z := 4.
Definition SYS_read : Z := 5.
Definition SYS_kill : Z := 6.
Definition SYS_exec : Z := 7.
Definition SYS_fstat : Z := 8.
Definition SYS_chdir : Z := 9.
Definition SYS_dup : Z := 10.
Definition SYS_getpid : Z := 11.
Definition SYS_sbrk : Z := 12.
Definition SYS_sleep : Z := 13.
Definition SYS_uptime : Z := 14.
Definition SYS_open : Z := 15.
Definition SYS_write : Z := 16.
Definition SYS_mknod : Z := 17.
Definition SYS_unlink : Z := 18.
Definition SYS_link : Z := 19.
Definition SYS_mkdir : Z := 20.
Definition SYS_close : Z := 21.
Definition SYS_memsize : Z := 22.
Definition SYS_set_ps_priority : Z := 23.
Definition SYS_set_cfs_priority : Z := 24.

(** How a handler ends: with a value, in the scheduler after [exit], or
    asleep in [wait]. *)
Inductive sysret := SysRet (v : Z) | SysExit (intena : bool) | SysSleep.

Section Dispatch.
Context `{Linker}.
Local Open Scope kernel_scope.

Definition returns (c : K Z) : K sysret := v <- c ;; ret (SysRet v).
Definition exits (c : K bool) : K sysret := e <- c ;; ret (SysExit e).
Definition may_sleep (c : K (option Z)) : K sysret :=
  r <- c ;; ret (match r with Some v => SysRet v | None => SysSleep end).

(** The array [syscalls], with its holes. *)
Definition syscalls : list (option (K sysret)) := [
  None;
  Some (returns sys_fork);
  Some (exits sys_exit);
  Some (may_sleep sys_wait);
  Some (returns sys_pipe);
  Some (returns sys_read);
  Some (returns sys_kill);
  Some (returns sys_exec);
  Some (returns sys_fstat);
  Some (returns sys_chdir);
  Some (returns sys_dup);
  Some (returns sys_getpid);
  Some (returns sys_sbrk);
  Some (returns sys_sleep);
  Some (returns sys_uptime);
  Some (returns sys_open);
  Some (returns sys_write);
  Some (returns sys_mknod);
  Some (returns sys_unlink);
  Some (returns sys_link);
  Some (returns sys_mkdir);
  Some (returns sys_close);
  Some (returns sys_memsize) ].
Definition NELEM_syscalls : Z := Z.of_nat (length syscalls).

Definition handler (num : Z) : option (K sysret) :=
  if (0 <? num) && (num <? NELEM_syscalls) then default None (syscalls !! Z.to_nat num) else None.

(** p->name, for the message *)
Definition proc_name (i : nat) : K (list Z) :=
  n <- gets (fun s => strlen 16 (phys (pk s)) (paddr i + OFF_name)) ;;
  len <- (match n with Some n => ret n | None => ub "p->name" end) ;;
  gets (fun s => bytes (Z.to_nat len) (phys (pk s)) (paddr i + OFF_name)).

(** p->trapframe->a0 = v *)
Definition set_a0 (i : nat) (v : Z) : K unit :=
  p <- getp i ;; phys_wr (fun m => store64 m (trapframe p + TF_a0) (u64 v)).

Definition syscall : K sysret :=
  c <- curproc ;;
  let i := fst c in
  num <- gets (fun s => i32 (load64 (phys (pk s)) (trapframe (snd c) + TF_a7))) ;;
  match handler num with
  | Some h =>
      r <- h ;;
      match r with
      | SysRet v => set_a0 i v ;; ret r
      | _ => ret r
      end
  | None =>
      name <- proc_name i ;;
      printf (str "%d %s: unknown sys call %d" ++ [10]) [PInt (pid (snd c)); PStr (Some name); PInt num] ;;
      set_a0 i (-1) ;;
      ret (SysRet (-1))
  end.

End Dispatch.
