(* ===== verification/FsSpec.v ===== *)
(** * Blocks and the log as the file system uses them

    [tx_state] describes a process inside a transaction: the contents of all
    blocks, the blocks logged so far and the buffers it has locked.  The
    specifications of the buffer cache and of the log take this form here;
    the block allocator is specified on top of them. *)

From S2P Require Import Prelude Riscv Mem Spinlock Proc ProcSpec IoState SleepLock Bio BioSpec Bytes Log LogDisk LogSpec LogRecover.
From S2P Require Import Uart Printf DevSpec Fs.

Section Tx.
Context `{Linker}.
Implicit Types (s : kernel) (ls : list lockid) (L : Z -> list Z) (h : gmap nat Z).

(** Process [i] with pid [me] runs inside one of [n] operations of the
    current transaction, whose log starts at [start]: [L] are the contents of
    the blocks, [blks] the blocks logged and [h] the buffers locked. *)
Definition tx_state ls i s (me start n : Z) L (blks : list Z) h : Prop :=
  exists D l, D ⊆ list_to_set blks /\ (length ls < 6)%nat /\ 1 <= n /\
    in_tx ls i s me (BView L (list_to_set blks) h D l) start blks n.

(** Only the buffer cache and the log's header changed, and a message may
    have been printed. *)
Definition fstep (i : nat) s s2 : Prop :=
  kframe i s s2 /\ pfs s2 = set_bufs (bufs (pfs s2)) (set_lg (lg (pfs s2)) (set_urt (urt (pfs s2)) (pfs s))).

Lemma fstep_refl i s : fstep i s s.
Proof. split; [apply kframe_refl|]. by destruct (pfs s). Qed.

Lemma fstep_trans i s1 s2 s3 : fstep i s1 s2 -> fstep i s2 s3 -> fstep i s1 s3.
Proof. intros [A B] [C D]. split; [by eapply kframe_trans|]. rewrite D, B. done. Qed.

Lemma fstep_bstep i s s2 : bstep i s s2 -> fstep i s s2.
Proof. intros [A B]. split; [done|]. rewrite B. by destruct (pfs s). Qed.

Lemma fstep_gstep i s s2 : gstep i s s2 -> dsk (pfs s2) = dsk (pfs s) -> fstep i s s2.
Proof. intros [A B] E. split; [done|]. rewrite E in B. rewrite B. by destruct (pfs s). Qed.

Lemma fstep_sends i bs s s2 : sends bs s s2 -> fstep i s s2.
Proof. intros S. split; [by eapply sends_frame|]. rewrite (sends_pfs _ _ _ S). by destruct (pfs s). Qed.

Lemma fstep_same i s s2 : fstep i s s2 ->
  sb (pfs s2) = sb (pfs s) /\ itable (pfs s2) = itable (pfs s) /\ panicked (pfs s2) = panicked (pfs s) /\
  dsk (pfs s2) = dsk (pfs s) /\ ftable (pfs s2) = ftable (pfs s).
Proof. intros [_ B]. rewrite B. done. Qed.

Lemma bstep_in_tx ls i s s2 me v v' start blks n :
  in_tx ls i s me v start blks n -> bstep i s s2 -> bio_at ls i s2 me v' -> v_pins v' = v_pins v ->
  in_tx ls i s2 me v' start blks n.
Proof.
  intros [Hat Hg Hnd Hp Ho Hor Hc Hsz Hfr] [K B] Hat' Hpins. assert (E : lg (pfs s2) = lg (pfs s)) by (by rewrite B).
  split; rewrite ?E; try done. congruence.
Qed.

Lemma tx_ready ls i s me start n L blks h : tx_state ls i s me start n L blks h -> kready ls i s.
Proof. intros (D & l & _ & _ & _ & [Hat _ _ _ _ _ _ _ _]). apply Hat. Qed.

(** ** Buffers *)

Lemma tx_bread ls i s me start n L blks h b (Q : nat -> kernel -> Prop) :
  tx_state ls i s me start n L blks h -> (forall j, h !! j <> Some b) -> (size h + length blks < nbuf)%nat ->
  (forall j s2, h !! j = None -> fstep i s s2 -> tx_state ls i s2 me start n L blks (<[j := b]> h) -> Q j s2) ->
  wp (bread ROOTDEV b) s Q.
Proof.
  intros (D & l & HD & Hls & Hn & Htx) Hnh Hsz HQ.
  eapply (bread_wp ls i s me _ b); [eapply tx_at, Htx|done| |].
  { right. cbn [v_held v_pins]. rewrite size_list_to_set by apply Htx. lia. }
  intros j s2 Hj _ Hb Hat2. apply HQ; [done|by apply fstep_bstep|].
  rewrite hold_view in Hat2. exists D, l. split_and!; try done. by eapply bstep_in_tx.
Qed.

Lemma tx_data ls i s me start n L blks h j b (Q : list Z -> kernel -> Prop) :
  tx_state ls i s me start n L blks h -> h !! j = Some b -> Q (L b) s -> wp (buf_data j) s Q.
Proof. intros (D & l & _ & _ & _ & Htx) Hh HQ. eapply (buf_data_wp ls i s me _ j b); [apply Htx|done|done]. Qed.

Lemma tx_len ls i s me start n L blks h b : tx_state ls i s me start n L blks h -> length (L b) = bsize.
Proof. intros (D & l & _ & _ & _ & [Hat _ _ _ _ _ _ _ _]). apply (bi_size _ _ _ (proj2 (proj2 (proj2 (proj2 (proj2 Hat)))))). Qed.

(** A change to a locked buffer, followed by [log_write]. *)
Lemma tx_log ls i s me start n L blks h j b d (Q : unit -> kernel -> Prop) :
  tx_state ls i s me start n L blks h -> h !! j = Some b -> length d = bsize -> home start b ->
  (S (length blks) < logsize)%nat ->
  (forall s2, fstep i s s2 -> tx_state ls i s2 me start n (block_upd L b d) (logged blks b) h -> Q tt s2) ->
  wp (bind (set_buf_data j d) (fun _ => log_write j)) s Q.
Proof.
  intros (D & l & HD & Hls & Hn & Htx) Hh Hlen Hhome Hroom HQ. wp_step.
  eapply (set_buf_data_wp ls i s me _ j b d); [apply Htx|done|done|]. intros s1 B1 Hat1. rewrite touch_view in Hat1.
  assert (Htx1 : in_tx ls i s1 me (BView (block_upd L b d) (list_to_set blks) h ({[b]} ∪ D) l) start blks n)
    by (by eapply bstep_in_tx).
  eapply (log_write_wp ls i s1 me _ start blks n j b); [done|done|done|done|done|done|].
  intros s2 G2 E2 Htx2. rewrite set_pins_view in Htx2. apply HQ.
  - eapply fstep_trans; [by apply fstep_bstep|by apply fstep_gstep].
  - exists ({[b]} ∪ D), l. split_and!; try done. unfold logged. case_decide; set_solver.
Qed.

Lemma tx_release ls i s me start n L blks h j b (Q : unit -> kernel -> Prop) :
  tx_state ls i s me start n L blks h -> h !! j = Some b ->
  (forall s2, fstep i s s2 -> tx_state ls i s2 me start n L blks (delete j h) -> Q tt s2) ->
  wp (brelse j) s Q.
Proof.
  intros (D & l & HD & Hls & Hn & Htx) Hh HQ.
  eapply (brelse_wp ls i s me _ j b); [apply Htx|done|cbn [v_dirty v_pins]; set_solver|]. intros s2 B2 Hat2.
  destruct (unlock_view L (list_to_set blks) D h l j b) as [l' E]. rewrite E in Hat2.
  apply HQ; [by apply fstep_bstep|]. exists D, l'. split_and!; try done. by eapply bstep_in_tx.
Qed.

(** What does not concern buffers and log may change. *)
Lemma tx_frame ls i s s2 me start n L blks h :
  tx_state ls i s me start n L blks h -> kframe i s s2 ->
  bufs (pfs s2) = bufs (pfs s) -> lg (pfs s2) = lg (pfs s) -> dsk (pfs s2) = dsk (pfs s) ->
  tx_state ls i s2 me start n L blks h.
Proof.
  intros (D & l & HD & Hls & Hn & [Hat Hg Hnd Hp Ho Hor Hc Hsz Hfr]) K Eb El Ed. exists D, l. split_and!; try done.
  split; rewrite ?El; try done. eapply bio_at_step; [done|done|].
  destruct Hat as (_ & _ & _ & _ & _ & [A1 A2 A3 A4 A5 A6 A7 A8 A9 A10]).
  split; rewrite ?Eb, ?Ed; try done. intros b Hb. destruct (A7 b Hb) as (k & x & Hx). exists k, x. by rewrite Eb.
Qed.

Lemma tx_ext ls i s me start n L L' blks h :
  tx_state ls i s me start n L blks h -> (forall b, L b = L' b) -> tx_state ls i s me start n L' blks h.
Proof.
  intros (D & l & HD & Hls & Hn & [Hat Hg Hnd Hp Ho Hor Hc Hsz Hfr]) E. exists D, l. split_and!; try done.
  split; try done. by eapply bio_at_ext.
Qed.

(** The common sequence: change the buffer, log it and release it. *)
Lemma tx_log_release ls i s me start n L blks h j b d (Q : unit -> kernel -> Prop) :
  tx_state ls i s me start n L blks (<[j := b]> h) -> h !! j = None -> length d = bsize -> home start b ->
  (S (length blks) < logsize)%nat ->
  (forall s2, fstep i s s2 -> tx_state ls i s2 me start n (block_upd L b d) (logged blks b) h -> Q tt s2) ->
  wp (set_buf_data j d ;; log_write j ;; brelse j)%K s Q.
Proof.
  intros Htx Hj Hlen Hhome Hroom HQ. apply wp_group. wp_step.
  eapply tx_log; [done|apply lookup_insert_eq|done|done|done|]. intros s1 F1 T1.
  eapply tx_release; [done|apply lookup_insert_eq|]. intros s2 F2 T2. rewrite delete_insert_eq, delete_id in T2 by done.
  apply HQ; [by eapply fstep_trans|done].
Qed.

Lemma tx_log_release_then {B} ls i s me start n L blks h j b d (m : K B) (Q : B -> kernel -> Prop) :
  tx_state ls i s me start n L blks (<[j := b]> h) -> h !! j = None -> length d = bsize -> home start b ->
  (S (length blks) < logsize)%nat ->
  (forall s2, fstep i s s2 -> tx_state ls i s2 me start n (block_upd L b d) (logged blks b) h -> wp m s2 Q) ->
  wp (set_buf_data j d ;; log_write j ;; brelse j ;; m)%K s Q.
Proof.
  intros Htx Hj Hlen Hhome Hroom HQ. apply wp_group. wp_step.
  eapply tx_log; [done|apply lookup_insert_eq|done|done|done|]. intros s1 F1 T1. wp_step.
  eapply tx_release; [done|apply lookup_insert_eq|]. intros s2 F2 T2. rewrite delete_insert_eq, delete_id in T2 by done.
  apply HQ; [by eapply fstep_trans|done].
Qed.

Lemma logged_length blks b : (length (logged blks b) <= S (length blks))%nat.
Proof. unfold logged. case_decide; [lia|]. rewrite length_app. simpl. lia. Qed.

End Tx.

(** * The block allocator

    The free map as a set of block numbers: [balloc] takes the least block
    that is free and returns it zeroed, [bfree] gives a block back. *)

(** ** Bits of a block *)

Definition bit_of (d : list Z) (bi : Z) : bool := Z.testbit (byte_at d (bit_byte bi)) (bi mod 8).

Lemma land_mask x bi : (Z.land x (bit_mask bi) =? 0) = negb (Z.testbit x (bi mod 8)).
Proof.
  unfold bit_mask. pose proof (Z.mod_pos_bound bi 8 ltac:(lia)) as Hb. set (k := bi mod 8) in *.
  rewrite Z.shiftl_1_l. destruct (Z.testbit x k) eqn:E; cbn [negb].
  - apply Z.eqb_neq. intros Hz. assert (Hk : Z.testbit (Z.land x (2 ^ k)) k = false) by (by rewrite Hz, Z.testbit_0_l).
    rewrite Z.land_spec, E, Z.pow2_bits_true in Hk by lia. done.
  - apply Z.eqb_eq, Z.bits_inj. intros j. rewrite Z.land_spec, Z.testbit_0_l.
    destruct (Z.eq_dec j k) as [->|Hne]; [by rewrite E|]. rewrite Z.pow2_bits_false by lia. apply andb_false_r.
Qed.

Lemma bit_byte_lt bi : 0 <= bi < BPB -> (bit_byte bi < bsize)%nat.
Proof. unfold bit_byte, BPB, BSIZE, bsize. intros. assert (bi / 8 < 1024) by (apply Z.div_lt_upper_bound; lia). pose proof (Z.div_pos bi 8). lia. Qed.

Lemma bit_byte_inj bi bj : 0 <= bi -> 0 <= bj -> bit_byte bi = bit_byte bj -> bi mod 8 = bj mod 8 -> bi = bj.
Proof.
  unfold bit_byte. intros Hi Hj E1 E2. pose proof (Z.div_pos bi 8). pose proof (Z.div_pos bj 8).
  pose proof (Z.div_mod bi 8). pose proof (Z.div_mod bj 8). lia.
Qed.

(** The bits after one byte is replaced. *)
Lemma bit_of_insert d bi bj v :
  length d = bsize -> 0 <= bi < BPB -> 0 <= bj < BPB ->
  bit_of (<[bit_byte bi := u8 v]> d) bj = if decide (bit_byte bi = bit_byte bj) then Z.testbit v (bj mod 8) else bit_of d bj.
Proof.
  intros Hl Hi Hj. pose proof (bit_byte_lt bi Hi). unfold bit_of, byte_at. case_decide as E.
  - rewrite <- E, list_lookup_insert_eq by lia. simpl. unfold u8. apply (Z.mod_pow2_bits_low v 8).
    apply (Z.mod_pos_bound bj 8). lia.
  - by rewrite list_lookup_insert_ne.
Qed.

Lemma mask_testbit bi bj : Z.testbit (bit_mask bi) (bj mod 8) = bool_decide (bi mod 8 = bj mod 8).
Proof.
  unfold bit_mask. pose proof (Z.mod_pos_bound bi 8). pose proof (Z.mod_pos_bound bj 8).
  rewrite Z.shiftl_1_l, Z.pow2_bits_eqb by lia. destruct (Z.eqb_spec (bi mod 8) (bj mod 8));
    [by rewrite bool_decide_eq_true_2|by rewrite bool_decide_eq_false_2].
Qed.

Lemma bit_of_set d bi bj : length d = bsize -> 0 <= bi < BPB -> 0 <= bj < BPB ->
  bit_of (set_bit d bi) bj = bool_decide (bi = bj) || bit_of d bj.
Proof.
  intros Hl Hi Hj. unfold set_bit. rewrite bit_of_insert by done. case_decide as E.
  - rewrite Z.lor_spec, mask_testbit, orb_comm, E. fold (bit_of d bj). f_equal. apply bool_decide_ext.
    split; [intros; apply bit_byte_inj; lia|by intros ->].
  - rewrite bool_decide_eq_false_2; [done|]. by intros ->.
Qed.

Lemma bit_of_clear d bi bj : length d = bsize -> 0 <= bi < BPB -> 0 <= bj < BPB ->
  bit_of (clear_bit d bi) bj = negb (bool_decide (bi = bj)) && bit_of d bj.
Proof.
  intros Hl Hi Hj. unfold clear_bit. rewrite bit_of_insert by done. pose proof (Z.mod_pos_bound bj 8). case_decide as E.
  - rewrite Z.land_spec, Z.lnot_spec, mask_testbit, andb_comm, E by lia. fold (bit_of d bj). do 2 f_equal.
    apply bool_decide_ext. split; [intros; apply bit_byte_inj; lia|by intros ->].
  - rewrite bool_decide_eq_false_2; [done|]. by intros ->.
Qed.

Lemma scan_bits_spec n d b bi size :
  match scan_bits n d b bi size with
  | Some k => bi <= k < bi + Z.of_nat n /\ b + k < size /\ bit_of d k = false /\
      (forall j, bi <= j < k -> bit_of d j = true)
  | None => forall j, bi <= j < bi + Z.of_nat n -> b + j < size -> bit_of d j = true
  end.
Proof.
  revert bi. induction n as [|n IH]; intros bi; cbn [scan_bits]; [intros; lia|].
  destruct (Z.ltb_spec (b + bi) size) as [Hlt|Hge]; [|intros; lia].
  rewrite land_mask. fold (bit_of d bi). destruct (bit_of d bi) eqn:E; cbn [negb].
  - specialize (IH (bi + 1)). destruct (scan_bits n d b (bi + 1) size) as [k|].
    + destruct IH as (A & B & C & D). split_and!; try done; try lia.
      intros j Hj. destruct (Z.eq_dec j bi) as [->|]; [done|]. apply D. lia.
    + intros j Hj Hs. destruct (Z.eq_dec j bi) as [->|]; [done|]. apply IH; lia.
  - split_and!; try done; lia.
Qed.

(** ** The free map *)

Definition allocated (L : Z -> list Z) (s : superblock) (b : Z) : bool := bit_of (L (BBLOCK b s)) (b mod BPB).

(** The blocks of the free map: not in the log, and in use themselves; so are
    the blocks of the log. *)
Record map_ok (L : Z -> list Z) (s : superblock) (start : Z) : Prop := {
  mo_size : 0 <= sb_size s < 2 ^ 31;
  mo_start : 0 <= sb_bmapstart s /\ sb_bmapstart s + sb_size s / BPB < 2 ^ 31;
  mo_home b : 0 <= b < sb_size s -> home start (BBLOCK b s);
  mo_map b : 0 <= b < sb_size s -> BBLOCK b s < sb_size s -> allocated L s (BBLOCK b s) = true;
  mo_log b : 0 <= b < sb_size s -> in_log start b -> allocated L s b = true;
}.

Lemma BBLOCK_eq L s start b : map_ok L s start -> 0 <= b < sb_size s -> BBLOCK b s = b / BPB + sb_bmapstart s.
Proof.
  intros Hm Hb. unfold BBLOCK. apply u32_small. pose proof (mo_start _ _ _ Hm).
  pose proof (Z.div_pos b BPB ltac:(lia) ltac:(done)). pose proof (Z.div_le_mono b (sb_size s) BPB ltac:(done)). lia.
Qed.

Definition take_block (L : Z -> list Z) (s : superblock) (b : Z) : Z -> list Z :=
  block_upd (block_upd L (BBLOCK b s) (set_bit (L (BBLOCK b s)) (b mod BPB))) b (replicate bsize 0).
Definition give_block (L : Z -> list Z) (s : superblock) (b : Z) : Z -> list Z :=
  block_upd L (BBLOCK b s) (clear_bit (L (BBLOCK b s)) (b mod BPB)).

Lemma BPB_pos : 0 < BPB. Proof. done. Qed.

Lemma mod_BPB b : 0 <= b mod BPB < BPB.
Proof. by apply Z.mod_pos_bound. Qed.

(** Blocks of the same map block differ in their bits. *)
Lemma same_map_block L s start b c : map_ok L s start -> 0 <= b < sb_size s -> 0 <= c < sb_size s ->
  BBLOCK b s = BBLOCK c s -> b mod BPB = c mod BPB -> b = c.
Proof.
  intros Hm Hb Hc E1 E2. rewrite !(BBLOCK_eq L s start) in E1 by done.
  pose proof (Z.div_mod b BPB). pose proof (Z.div_mod c BPB). unfold BPB, BSIZE in *. lia.
Qed.

(** [take_block] marks [b] and nothing else. *)
Lemma allocated_take L s start b c :
  map_ok L s start -> (forall x, length (L x) = bsize) -> 0 <= b < sb_size s -> allocated L s b = false -> 0 <= c < sb_size s ->
  allocated (take_block L s b) s c = bool_decide (b = c) || allocated L s c.
Proof.
  intros Hm Hl Hb Hfree Hc. unfold allocated, take_block.
  assert (Hne : b <> BBLOCK c s).
  { intros E. pose proof (mo_map _ _ _ Hm c Hc ltac:(lia)) as Ha. rewrite <- E in Ha. congruence. }
  rewrite block_upd_ne by done. destruct (decide (BBLOCK b s = BBLOCK c s)) as [E|E].
  - rewrite E, block_upd_eq, bit_of_set by (apply Hl || apply mod_BPB). f_equal. apply bool_decide_ext.
    split; [intros; by eapply same_map_block|by intros ->].
  - rewrite block_upd_ne by done. rewrite bool_decide_eq_false_2; [done|]. by intros ->.
Qed.

Lemma allocated_give L s start b c :
  map_ok L s start -> (forall x, length (L x) = bsize) -> 0 <= b < sb_size s -> 0 <= c < sb_size s ->
  allocated (give_block L s b) s c = negb (bool_decide (b = c)) && allocated L s c.
Proof.
  intros Hm Hl Hb Hc. unfold allocated, give_block. destruct (decide (BBLOCK b s = BBLOCK c s)) as [E|E].
  - rewrite E, block_upd_eq, bit_of_clear by (apply Hl || apply mod_BPB). do 2 f_equal. apply bool_decide_ext.
    split; [intros; by eapply same_map_block|by intros ->].
  - rewrite block_upd_ne by done. rewrite bool_decide_eq_false_2; [done|]. by intros ->.
Qed.

(** ** The operations *)

Section Alloc.
Context `{Linker}.
Implicit Types (s : kernel) (ls : list lockid) (L : Z -> list Z) (h : gmap nat Z).

(** Locked buffers are neither blocks of the map nor free. *)
Definition held_ok L (f : superblock) h : Prop :=
  forall j c, h !! j = Some c -> (forall b, 0 <= b < sb_size f -> c <> BBLOCK b f) /\
    (0 <= c < sb_size f -> allocated L f c = true).

Lemma gsb_wp {A} (f : superblock -> A) s (Q : A -> kernel -> Prop) : Q (f (sb (pfs s))) s -> wp (gsb f) s Q.
Proof. intros HQ. unfold gsb. by apply iogets_wp. Qed.

Lemma bzero_wp ls i s me start n L blks h b (Q : unit -> kernel -> Prop) :
  tx_state ls i s me start n L blks h -> (forall j, h !! j <> Some b) -> (size h + length blks < nbuf)%nat ->
  home start b -> (S (length blks) < logsize)%nat ->
  (forall s2, fstep i s s2 -> tx_state ls i s2 me start n (block_upd L b (replicate bsize 0)) (logged blks b) h -> Q tt s2) ->
  wp (bzero ROOTDEV b) s Q.
Proof.
  intros Htx Hnh Hsz Hh Hroom HQ. unfold bzero. rewrite (u32_small b) by (destruct Hh; lia). wp_step.
  eapply (tx_bread ls i s); [done|done|done|]. intros j s1 Hj F1 T1.
  eapply tx_log_release; [done|done|by rewrite length_replicate|done|done|]. intros s2 F2 T2.
  apply HQ; [by eapply fstep_trans|done].
Qed.

(** No free block below [b]. *)
Definition full_below L (f : superblock) (b : Z) : Prop := forall c, 0 <= c < b -> c < sb_size f -> allocated L f c = true.

Lemma block_in_map L f start k bi :
  map_ok L f start -> 0 <= k -> 0 <= bi < BPB -> k * BPB + bi < sb_size f ->
  BBLOCK (k * BPB + bi) f = BBLOCK (k * BPB) f /\ (k * BPB + bi) mod BPB = bi.
Proof.
  intros Hm Hk Hbi Hlt. unfold BPB, BSIZE in *. rewrite !(BBLOCK_eq L f start) by (done || lia). unfold BPB, BSIZE. split.
  - f_equal. rewrite Z.div_mul by lia. symmetry. apply (Z.div_unique _ _ _ bi); lia.
  - rewrite Z.add_comm, Z.mod_add by lia. apply Z.mod_small. lia.
Qed.

(** What [balloc] returns. *)
Definition balloc_result i s s2 ls me start n L blks h (f : superblock) (r : Z) : Prop :=
  fstep i s s2 /\
  ((r = 0 /\ full_below L f (sb_size f) /\ tx_state ls i s2 me start n L blks h) \/
   (0 <= r < sb_size f /\ allocated L f r = false /\ full_below L f r /\
    tx_state ls i s2 me start n (take_block L f r) (logged (logged blks (BBLOCK r f)) r) h)).

(** The scan of one more block of the map. *)
Lemma full_below_scan L f start k m :
  map_ok L f start -> 0 <= k -> full_below L f (k * BPB) -> 0 <= m <= BPB ->
  (forall j, 0 <= j < m -> k * BPB + j < sb_size f -> bit_of (L (BBLOCK (k * BPB) f)) j = true) ->
  full_below L f (k * BPB + m).
Proof.
  intros Hm Hk Hfull Hmr Hscan c Hc Hcs. destruct (Z.lt_ge_cases c (k * BPB)) as [Hl|Hg]; [apply Hfull; lia|].
  replace c with (k * BPB + (c - k * BPB)) by lia. unfold allocated.
  destruct (block_in_map L f start k (c - k * BPB) Hm Hk ltac:(lia) ltac:(lia)) as [-> ->]. apply Hscan; lia.
Qed.

(** Taking the block [r] whose bit is clear in the locked buffer [j]. *)
Lemma balloc_take_wp ls i me start n L blks h f s j r (Q : Z -> kernel -> Prop) :
  tx_state ls i s me start n L blks (<[j := BBLOCK r f]> h) -> h !! j = None -> map_ok L f start -> held_ok L f h ->
  (S (size h) + length blks < nbuf)%nat -> (S (S (length blks)) < logsize)%nat ->
  0 <= r < sb_size f -> allocated L f r = false ->
  (forall s2, fstep i s s2 ->
     tx_state ls i s2 me start n (take_block L f r) (logged (logged blks (BBLOCK r f)) r) h -> Q r s2) ->
  wp (set_buf_data j (set_bit (L (BBLOCK r f)) (r mod BPB)) ;; log_write j ;; brelse j ;;
      bzero ROOTDEV r ;; ret r)%K s Q.
Proof.
  intros T1 Hj Hm Hh Hsz Hroom Hr Hfree HQ.
  assert (Hhome : home start r).
  { split; [pose proof (mo_size _ _ _ Hm); lia|]. intros Hin. rewrite (mo_log _ _ _ Hm r Hr Hin) in Hfree. done. }
  assert (Hb2 : (length (logged blks (BBLOCK r f)) <= S (length blks))%nat) by apply logged_length.
  eapply tx_log_release_then; [exact T1|done| |by apply (mo_home _ _ _ Hm)|lia|].
  { unfold set_bit. rewrite length_insert. eapply tx_len, T1. }
  intros s2 F2 T2. wp_step. eapply (bzero_wp ls i s2); [exact T2| |lia|done|lia|].
  { intros j' E. destruct (Hh j' _ E) as [_ Ha]. rewrite Ha in Hfree by done. done. }
  intros s3 F3 T3. apply wp_ret, HQ; [by eapply fstep_trans|exact T3].
Qed.

Lemma balloc_loop_wp ls i me start n L blks h f fuel k s (Q : Z -> kernel -> Prop) :
  tx_state ls i s me start n L blks h -> sb (pfs s) = f -> map_ok L f start -> held_ok L f h ->
  (S (size h) + length blks < nbuf)%nat -> (S (S (length blks)) < logsize)%nat ->
  panicked (pfs s) = 0 -> PrLock ∉ ls ->
  0 <= k -> full_below L f (k * BPB) -> sb_size f / BPB + 1 - k < Z.of_nat fuel -> k * BPB < sb_size f + BPB ->
  (forall r s2, balloc_result i s s2 ls me start n L blks h f r -> Q r s2) ->
  wp (balloc_loop fuel ROOTDEV (k * BPB)) s Q.
Proof.
  intros Htx Hsb Hm Hh Hsz Hroom Hp Hpr. revert s k Htx Hsb Hp. induction fuel as [|fuel IH];
    intros s k Htx Hsb Hp Hk Hfull Hf Hkb HQ.
  { exfalso. assert (k <= sb_size f / BPB + 1); [|lia]. assert (k - 1 <= sb_size f / BPB); [|lia].
    apply Z.div_le_lower_bound; unfold BPB, BSIZE in *; lia. }
  assert (Hlen6 : (length ls < 6)%nat) by (by destruct Htx as (? & ? & _ & ? & _)).
  cbn [balloc_loop]. wp_step. apply gsb_wp. rewrite Hsb. unfold id. destruct (Z.ltb_spec (k * BPB) (sb_size f)) as [Hlt|Hge]; cbn [negb].
  2:{ wp_step. eapply (printf_emits ls i _ []); [|done|reflexivity|lia|done|by eapply tx_ready|done|].
      { apply (bool_decide_unpack (Forall _ _)). vm_compute. exact I. }
      intros s2 S2. apply wp_ret, HQ. split; [by eapply fstep_sends|]. left. split; [done|]. split.
      - intros c Hc _. apply Hfull; lia.
      - destruct S2 as (k' & A & ->). eapply tx_frame; [done| |done|done|done].
        eapply kframe_trans; [by apply kframe_plk|apply kframe_pfs]. }
  assert (Hb0 : 0 <= k * BPB < sb_size f) by (unfold BPB, BSIZE in *; lia).
  wp_step. eapply (tx_bread ls i s); [done| |lia|].
  { intros j E. destruct (Hh j _ E) as [Hne _]. by apply (Hne (k * BPB)). }
  intros j s1 Hj F1 T1. destruct (fstep_same _ _ _ F1) as (E1 & _ & P1 & _).
  wp_step. eapply tx_data; [exact T1|apply lookup_insert_eq|].
  pose proof (scan_bits_spec (Z.to_nat BPB) (L (BBLOCK (k * BPB) f)) (k * BPB) 0 (sb_size f)) as Hscan.
  rewrite Z2Nat.id in Hscan by done. destruct (scan_bits _ _ _ _ _) as [bi|].
  - destruct Hscan as (Hbi & Hbs & Hclear & Hbelow). destruct (block_in_map L f start k bi Hm Hk ltac:(lia) Hbs) as [EB EM].
    set (r := k * BPB + bi) in *.
    assert (Hr : 0 <= r < sb_size f) by lia.
    assert (Hfree : allocated L f r = false) by (unfold allocated; by rewrite EB, EM).
    rewrite <- EB in T1 |- *. rewrite <- EM.
    eapply (balloc_take_wp ls i me start n L blks h f); try done. intros s2 F2 T2. apply HQ.
    split; [by eapply fstep_trans|]. right. split; [done|]. split; [done|]. split; [|done].
    apply (full_below_scan L f start); [done|done|done|lia|]. intros. apply Hbelow. lia.
  - wp_step. eapply tx_release; [exact T1|apply lookup_insert_eq|]. intros s2 F2 T2.
    rewrite delete_insert_eq, delete_id in T2 by done. destruct (fstep_same _ _ _ F2) as (E2 & _ & P2 & _).
    replace (k * BPB + BPB) with ((k + 1) * BPB) by lia.
    apply IH; [done|congruence|congruence|lia| |lia|lia|].
    + replace ((k + 1) * BPB) with (k * BPB + BPB) by lia.
      apply (full_below_scan L f start); [done|done|done|unfold BPB, BSIZE; lia|]. intros. by apply Hscan.
    + intros r s3 [F3 R3]. apply HQ. split; [by eapply fstep_trans; [|eapply fstep_trans]|done].
Qed.

Lemma balloc_wp ls i me start n L blks h f s (Q : Z -> kernel -> Prop) :
  tx_state ls i s me start n L blks h -> sb (pfs s) = f -> map_ok L f start -> held_ok L f h ->
  (S (size h) + length blks < nbuf)%nat -> (S (S (length blks)) < logsize)%nat ->
  panicked (pfs s) = 0 -> PrLock ∉ ls ->
  (forall r s2, balloc_result i s s2 ls me start n L blks h f r -> Q r s2) ->
  wp (balloc ROOTDEV) s Q.
Proof.
  intros Htx Hsb Hm Hh Hsz Hroom Hp Hpr HQ. unfold balloc. wp_step. apply gsb_wp. rewrite Hsb.
  pose proof (mo_size _ _ _ Hm). pose proof (Z.div_pos (sb_size f) BPB ltac:(lia) BPB_pos).
  eapply (balloc_loop_wp ls i me start n L blks h f _ 0 s); try done; [|lia|].
  - intros c Hc. lia.
  - unfold BPB, BSIZE. lia.
Qed.

(** [bfree] of a block in use; of a free block it panics. *)
Lemma bfree_wp ls i me start n L blks h f s b (Q : unit -> kernel -> Prop) :
  tx_state ls i s me start n L blks h -> sb (pfs s) = f -> map_ok L f start -> held_ok L f h ->
  (S (size h) + length blks < nbuf)%nat -> (S (length blks) < logsize)%nat ->
  0 <= b < sb_size f -> allocated L f b = true ->
  (forall s2, fstep i s s2 -> tx_state ls i s2 me start n (give_block L f b) (logged blks (BBLOCK b f)) h -> Q tt s2) ->
  wp (bfree ROOTDEV b) s Q.
Proof.
  intros Htx Hsb Hm Hh Hsz Hroom Hb Ha HQ. unfold bfree. wp_step. apply gsb_wp. rewrite Hsb. unfold id. wp_step.
  eapply (tx_bread ls i s); [done| |lia|]. { intros j E. destruct (Hh j _ E) as [Hne _]. by apply (Hne b). }
  intros j s1 Hj F1 T1. wp_step. eapply tx_data; [exact T1|apply lookup_insert_eq|]. cbv zeta.
  rewrite land_mask. fold (bit_of (L (BBLOCK b f)) (b mod BPB)). fold (allocated L f b). rewrite Ha. cbn [negb].
  eapply tx_log_release; [exact T1|done| |by apply (mo_home _ _ _ Hm)|done|].
  { unfold clear_bit. rewrite length_insert. eapply tx_len, T1. }
  intros s2 F2 T2. apply HQ; [by eapply fstep_trans|done].
Qed.

Lemma bfree_free ls i me start n L blks h f s b :
  tx_state ls i s me start n L blks h -> sb (pfs s) = f -> map_ok L f start -> held_ok L f h ->
  (S (size h) + length blks < nbuf)%nat -> 0 <= b < sb_size f -> allocated L f b = false ->
  bfree ROOTDEV b s = Fail (EPanic "freeing free block").
Proof.
  intros Htx Hsb Hm Hh Hsz Hb Ha. unfold bfree. apply bind_fail_r, gsb_wp. rewrite Hsb. unfold id. apply bind_fail_r.
  eapply (tx_bread ls i s); [done| |lia|]. { intros j E. destruct (Hh j _ E) as [Hne _]. by apply (Hne b). }
  intros j s1 Hj F1 T1. apply bind_fail_r. eapply tx_data; [exact T1|apply lookup_insert_eq|]. cbv zeta.
  rewrite land_mask. fold (bit_of (L (BBLOCK b f)) (b mod BPB)). fold (allocated L f b). by rewrite Ha.
Qed.

End Alloc.
