(* ===== verification/InodeSpec.v ===== *)
(** * Inodes in memory and on disk

    The layout of an inode in its block, the inode table with its reference
    counts, and locking: what [iupdate] stores is what [ilock] reads back. *)

From S2P Require Import Prelude Riscv Mem Spinlock Proc ProcSpec IoState SleepLock Bio BioSpec Bytes Log LogDisk LogSpec LogRecover.
From S2P Require Import Uart Printf DevSpec Fs FsSpec.

(** ** The layout on disk *)

(** Members within the range of their types. *)
Definition short_ok (v : Z) : Prop := - 2 ^ 15 <= v < 2 ^ 15.
Record dinode_ok (x : dinode) : Prop := {
  do_type : short_ok (d_type x);
  do_major : short_ok (d_major x);
  do_minor : short_ok (d_minor x);
  do_nlink : short_ok (d_nlink x);
  do_size : 0 <= d_size x < 2 ^ 32;
  do_len : length (d_addrs x) = S ndirect;
  do_addrs : Forall (fun a => 0 <= a < 2 ^ 32) (d_addrs x);
}.

Lemma i16_mod v : short_ok v -> i16 (v mod 2 ^ 16) = v.
Proof.
  unfold short_ok, i16. intros Hv. destruct (Z.le_gt_cases 0 v).
  - rewrite (Z.mod_small v) by lia. rewrite Z.mod_small; lia.
  - assert (E : v mod 2 ^ 16 = v + 2 ^ 16) by (symmetry; apply (Z.mod_unique_pos _ _ (-1)); lia).
    rewrite E. replace (v + 2 ^ 16 + 2 ^ 15) with (v + 2 ^ 15 + 1 * 2 ^ 16) by lia. rewrite Z.mod_add, Z.mod_small; lia.
Qed.

Lemma get_les_put d o vs : (o + 4 * length vs <= length d)%nat -> Forall (fun a => 0 <= a < 2 ^ 32) vs ->
  get_les 4 (put_les 4 d o vs) o (length vs) = vs.
Proof.
  intros Hl Hvs. apply list_eq. intros k. unfold get_les. rewrite list_lookup_fmap.
  destruct (vs !! k) as [v|] eqn:E.
  - pose proof (lookup_lt_Some _ _ _ E). rewrite lookup_seq_lt by done.
    cbn [fmap option_fmap option_map]. f_equal. change (0 + k)%nat with k. rewrite (get_put_les_eq 4 d o vs k v) by done. rewrite Forall_lookup in Hvs.
    apply Z.mod_small. by apply (Hvs k).
  - apply lookup_ge_None_1 in E. by rewrite lookup_seq_ge.
Qed.

Lemma length_dinode_put d o x : length (dinode_put d o x) = length d.
Proof. unfold dinode_put. by rewrite length_put_les, !length_put_le. Qed.

(** Reading back what was stored. *)
Lemma dinode_get_put d o x :
  (o + SIZEOF_DINODE <= length d)%nat -> dinode_ok x -> dinode_get (dinode_put d o x) o = x.
Proof.
  intros Hl []. destruct x as [ty ma mi nl sz ads]. simpl in *. unfold SIZEOF_DINODE, ndirect in *.
  unfold dinode_get, dinode_put. cbn [d_type d_major d_minor d_nlink d_size d_addrs].
  assert (Hlen : forall n d o v, length (put_le n d o v) = length d) by (intros; apply length_put_le).
  f_equal.
  1-4: repeat (rewrite ?get_put_les_ne by (rewrite ?Hlen; lia); rewrite ?get_put_ne by (rewrite ?Hlen; lia));
    rewrite get_put_eq by (rewrite ?Hlen; lia); by apply i16_mod.
  - rewrite get_put_les_ne by (rewrite ?Hlen; lia). rewrite get_put_eq by (rewrite ?Hlen; lia). by apply Z.mod_small.
  - change (S ndirect) with 13%nat. rewrite <- do_len0. apply get_les_put; [rewrite ?Hlen; lia|done].
Qed.

(** The other inodes of the block are not touched. *)
Lemma dinode_get_put_ne d o o' x :
  (o + SIZEOF_DINODE <= length d)%nat -> length (d_addrs x) = S ndirect ->
  (o' + SIZEOF_DINODE <= o \/ o + SIZEOF_DINODE <= o')%nat -> dinode_get (dinode_put d o x) o' = dinode_get d o'.
Proof.
  intros Hl Ha Hd. unfold SIZEOF_DINODE, ndirect in *. unfold dinode_get, dinode_put, get_les.
  assert (Hlen : forall n d o v, length (put_le n d o v) = length d) by (intros; apply length_put_le).
  assert (Hne : forall n p, (o' <= p)%nat -> (p + n <= o' + 64)%nat ->
    get_le n (dinode_put d o x) p = get_le n d p).
  { intros n p H1 H2. unfold dinode_put. rewrite get_put_les_ne by (rewrite ?Hlen, ?Ha; lia).
    by rewrite !get_put_ne by (rewrite ?Hlen; lia). }
  unfold dinode_put in Hne. cbv zeta in *. rewrite !Hne by lia. f_equal.
  apply list_fmap_ext. intros k y Hk. apply lookup_seq in Hk as [-> Hk]. unfold ndirect in Hk. apply Hne; lia.
Qed.

Lemma dinode_off_bound inum : (dinode_off inum + SIZEOF_DINODE <= bsize)%nat.
Proof.
  unfold dinode_off, SIZEOF_DINODE, bsize. pose proof (Z.mod_pos_bound inum IPB ltac:(done)).
  unfold IPB, BSIZE in *. change (1024 / 64) with 16 in *. lia.
Qed.

Lemma with_dinode_of x dx : length (d_addrs dx) = S ndirect -> dinode_of (with_dinode dx x) = dx.
Proof. by destruct x, dx. Qed.

(** ** The table *)

Lemma list_alter_id' {A} (l : list A) k : alter id k l = l.
Proof. revert k. induction l as [|x l IH]; intros [|k]; simpl; [done..|]. f_equal. apply IH. Qed.

Lemma alter_insert_at {A} (g : A -> A) (k : nat) (l : list A) x : l !! k = Some x -> alter g k l = <[k := g x]> l.
Proof. intros Hx. rewrite list_insert_alter. apply list_alter_ext; [|done]. intros y. rewrite Hx. by intros [= <-]. Qed.

(** The entry for an inode, and an entry not in use. *)
Definition entry_for (dev inum : Z) (x : inode) : Prop := 0 < i_ref x /\ i_dev x = dev /\ i_inum x = inum.
#[export] Instance entry_for_dec dev inum x : Decision (entry_for dev inum x).
Proof. unfold entry_for. apply _. Defined.
Definition find_entry (dev inum : Z) (tab : list inode) : option nat := fst <$> list_find (entry_for dev inum) tab.
Definition find_empty (tab : list inode) : option nat := fst <$> list_find (fun x => i_ref x = 0) tab.

(** At most one entry per inode; reference counts stay far from overflow. *)
Record itab_ok (tab : list inode) : Prop := {
  it_len : length tab = ninode;
  it_ref k x : tab !! k = Some x -> 0 <= i_ref x < 2 ^ 31 - 1;
  it_uniq j k x y : tab !! j = Some x -> tab !! k = Some y -> 0 < i_ref x -> 0 < i_ref y ->
    i_dev x = i_dev y -> i_inum x = i_inum y -> j = k;
}.

Definition ref_up (x : inode) : inode := set_i_ref (i_ref x + 1) x.
Definition fresh_entry (dev inum : Z) (x : inode) : inode :=
  set_i_valid 0 (set_i_ref 1 (set_i_inum inum (set_i_dev dev x))).

(** What [iget] does: a reference to the entry that is there, or the first
    empty entry made into one. *)
Definition iget_tab (dev inum : Z) (tab : list inode) : option (nat * list inode) :=
  match find_entry dev inum tab with
  | Some k => Some (k, alter ref_up k tab)
  | None => (fun k => (k, alter (fresh_entry dev inum) k tab)) <$> find_empty tab
  end.

Lemma list_find_app_None {A} (P : A -> Prop) `{forall x, Decision (P x)} (l1 l2 : list A) :
  list_find P l1 = None -> list_find P (l1 ++ l2) = prod_map (Nat.add (length l1)) id <$> list_find P l2.
Proof.
  intros E. induction l1 as [|x l1 IH]; simpl in *.
  - destruct (list_find P l2) as [[]|]; done.
  - destruct (decide (P x)); [done|]. destruct (list_find P l1) as [[]|]; [done|]. rewrite IH by done.
    destruct (list_find P l2) as [[]|]; done.
Qed.

Lemma find_entry_drop dev inum tab k x :
  tab !! k = Some x -> list_find (entry_for dev inum) (take k tab) = None -> entry_for dev inum x ->
  find_entry dev inum tab = Some k.
Proof.
  intros Hk Hn Hx. unfold find_entry. rewrite <- (take_drop_middle tab k x Hk), list_find_app_None by done.
  cbn [list_find]. rewrite decide_True by done. simpl. f_equal. rewrite length_take.
  apply lookup_lt_Some in Hk. lia.
Qed.

Section Table.
Context `{Linker}.
Implicit Types (s : kernel) (ls : list lockid).

Lemma geti_wp s k x (Q : inode -> kernel -> Prop) : itable (pfs s) !! k = Some x -> Q x s -> wp (geti k) s Q.
Proof. intros Hx HQ. unfold geti. wp_step. apply iogets_wp. rewrite Hx. by apply wp_ret. Qed.

Lemma updi_wp s k x f (Q : unit -> kernel -> Prop) : itable (pfs s) !! k = Some x ->
  Q tt (set_pfs (set_itable (alter f k (itable (pfs s))) (pfs s)) s) -> wp (updi k f) s Q.
Proof. intros Hx HQ. unfold updi. wp_step. apply (geti_wp s k x); [done|]. by apply iomod_wp. Qed.

Lemma iget_loop_wp dev inum m k e s (Q : nat + option nat -> kernel -> Prop) :
  (k + m = length (itable (pfs s)))%nat ->
  list_find (entry_for dev inum) (take k (itable (pfs s))) = None -> e = find_empty (take k (itable (pfs s))) ->
  (match find_entry dev inum (itable (pfs s)) with Some j => Q (inl j) s | None => Q (inr (find_empty (itable (pfs s)))) s end) ->
  wp (iget_loop (seq k m) dev inum e) s Q.
Proof.
  set (tab := itable (pfs s)). revert k e. induction m as [|m IH]; intros k e Hlen Hn He HQ.
  { rewrite Nat.add_0_r in Hlen. rewrite take_ge in Hn, He by lia. apply wp_ret.
    unfold find_entry in HQ. by rewrite Hn, <- He in HQ. }
  destruct (lookup_lt_is_Some_2 tab k) as [x Hx]; [lia|]. cbn [seq iget_loop]. wp_step. apply (geti_wp s k x); [done|].
  destruct (decide (entry_for dev inum x)) as [Hm|Hm].
  - destruct (Hm) as (H1 & H2 & H3). rewrite (proj2 (Z.ltb_lt _ _) H1), (proj2 (Z.eqb_eq _ _) H2), (proj2 (Z.eqb_eq _ _) H3).
    apply wp_ret. by rewrite (find_entry_drop dev inum tab k x) in HQ.
  - assert (E : (0 <? i_ref x) && (i_dev x =? dev) && (i_inum x =? inum) = false).
    { apply not_true_iff_false. rewrite !andb_true_iff, Z.ltb_lt, !Z.eqb_eq. intros [[? ?] ?]. by apply Hm. }
    rewrite E. apply IH; [lia| | |done].
    + rewrite (take_S_r _ _ _ Hx), list_find_app_None by done. cbn [list_find]. by rewrite decide_False.
    + rewrite (take_S_r _ _ _ Hx). unfold find_empty in *. rewrite He.
      destruct (list_find (fun x => i_ref x = 0) (take k tab)) as [[j y]|] eqn:Ef.
      * by rewrite (list_find_app_l _ _ _ _ _ Ef).
      * rewrite (list_find_app_None (fun x => i_ref x = 0)) by done. cbn [list_find]. destruct (Z.eqb_spec (i_ref x) 0) as [Er|Er].
        -- rewrite decide_True by done. simpl. f_equal. rewrite length_take. lia.
        -- by rewrite decide_False.
Qed.

(** The inode table became [tab]; otherwise as [fstep]. *)
Definition istep (i : nat) s (tab : list inode) s2 : Prop :=
  kframe i s s2 /\
  pfs s2 = set_bufs (bufs (pfs s2)) (set_lg (lg (pfs s2)) (set_urt (urt (pfs s2)) (set_itable tab (pfs s)))).

Lemma istep_trans i s1 t1 s2 t2 s3 : istep i s1 t1 s2 -> istep i s2 t2 s3 -> istep i s1 t2 s3.
Proof. intros [A B] [C D]. split; [by eapply kframe_trans|]. rewrite D, B. done. Qed.

Lemma istep_fstep i s s2 : fstep i s s2 -> istep i s (itable (pfs s)) s2.
Proof. intros [A B]. split; [done|]. rewrite B. by destruct (pfs s). Qed.

Lemma istep_set i s s2 tab : kframe i s s2 -> pfs s2 = set_itable tab (pfs s) -> istep i s tab s2.
Proof. intros A B. split; [done|]. rewrite B. by destruct (pfs s). Qed.

Lemma istep_same i s tab s2 : istep i s tab s2 ->
  itable (pfs s2) = tab /\ sb (pfs s2) = sb (pfs s) /\ panicked (pfs s2) = panicked (pfs s) /\
  dsk (pfs s2) = dsk (pfs s) /\ ftable (pfs s2) = ftable (pfs s).
Proof. intros [_ B]. rewrite B. done. Qed.

(** A change of the table does not concern a transaction. *)
Lemma tx_set_itable ls i s s2 tab me start n L blks h :
  tx_state ls i s me start n L blks h -> kframe i s s2 -> pfs s2 = set_itable tab (pfs s) ->
  tx_state ls i s2 me start n L blks h.
Proof. intros Htx K E. eapply tx_frame; [done|done|by rewrite E..]. Qed.

Lemma iget_wp ls i s dev inum k tab (Q : nat -> kernel -> Prop) :
  kready ls i s -> ItableLock ∉ ls -> (length ls < 8)%nat -> itab_ok (itable (pfs s)) ->
  iget_tab dev inum (itable (pfs s)) = Some (k, tab) ->
  (forall s2, kframe i s s2 -> pfs s2 = set_itable tab (pfs s) -> Q k s2) -> wp (iget dev inum) s Q.
Proof.
  intros Hr Hni Hlen Hit Hg HQ. unfold iget. wp_step. eapply (k_acq ls i s ItableLock); [done..|]. intros s1 I1 R1 E1.
  wp_step. apply (iget_loop_wp dev inum ninode 0); rewrite E1; [by rewrite (it_len _ Hit)|done|done|].
  unfold iget_tab in Hg. destruct (find_entry dev inum (itable (pfs s))) as [j|] eqn:Ef.
  - injection Hg as <- <-. unfold find_entry in Ef. apply fmap_Some in Ef as ([j' x] & Ef & ->).
    apply list_find_Some in Ef as (Hx & Hm & _). cbn [fst] in *. wp_step. apply (updi_wp _ j' x); [by rewrite E1|].
    wp_step. eapply (k_rel ls i s); [done|done|by eapply inside_frame, kframe_pfs|]. intros s2 K2 E2. apply wp_ret.
    apply HQ; [done|]. rewrite E2. cbn [pfs set_pfs]. rewrite E1. f_equal. apply list_alter_ext; [|done].
    intros y Hy. rewrite Hx in Hy. injection Hy as <-. unfold ref_up. rewrite i32_small; [done|].
    pose proof (it_ref _ Hit _ _ Hx). lia.
  - destruct (find_empty (itable (pfs s))) as [j|] eqn:Ee; [|done]. injection Hg as <- <-.
    unfold find_empty in Ee. apply fmap_Some in Ee as ([j' x] & Ee & ->). apply list_find_Some in Ee as (Hx & _ & _).
    cbn [fst] in *. do 4 (wp_step; eapply updi_wp; [cbn [pfs set_pfs itable set_itable]; rewrite ?list_lookup_alter_eq, ?E1, Hx; reflexivity|]).
    wp_step. cbn [pfs set_pfs itable set_itable].
    eapply (k_rel ls i s); [done|done|eapply inside_frame; [done|done|repeat (eapply kframe_trans; [|apply kframe_pfs]); apply kframe_refl]|].
    intros s2 K2 E2. apply wp_ret, HQ; [done|]. rewrite E2. cbn [pfs set_pfs]. rewrite E1, !list_alter_alter_eq. done.
Qed.

(** A table full of other inodes. *)
Lemma iget_full ls i s dev inum :
  kready ls i s -> ItableLock ∉ ls -> (length ls < 8)%nat -> itab_ok (itable (pfs s)) ->
  iget_tab dev inum (itable (pfs s)) = None -> iget dev inum s = Fail (EPanic "iget: no inodes").
Proof.
  intros Hr Hni Hlen Hit Hg. unfold iget. apply bind_fail_r. eapply (k_acq ls i s ItableLock); [done..|]. intros s1 I1 R1 E1.
  apply bind_fail_r, (iget_loop_wp dev inum ninode 0); rewrite E1; [by rewrite (it_len _ Hit)|done|done|].
  unfold iget_tab in Hg. destruct (find_entry _ _ _); [done|]. by destruct (find_empty _).
Qed.

(** A reference to an inode that has links, or that others refer to, is
    dropped. *)
Lemma iput_wp ls i s k x (Q : unit -> kernel -> Prop) :
  kready ls i s -> ItableLock ∉ ls -> (length ls < 8)%nat -> itab_ok (itable (pfs s)) ->
  itable (pfs s) !! k = Some x -> (1 < i_ref x \/ i_valid x = 0 \/ i_nlink x <> 0) -> 0 < i_ref x ->
  (forall s2, kframe i s s2 -> pfs s2 = set_itable (alter (fun x => set_i_ref (i_ref x - 1) x) k (itable (pfs s))) (pfs s) -> Q tt s2) ->
  wp (iput k) s Q.
Proof.
  intros Hr Hni Hlen Hit Hx Hkeep Hpos HQ. unfold iput. wp_step. eapply (k_acq ls i s ItableLock); [done..|]. intros s1 I1 R1 E1.
  wp_step. apply (geti_wp _ k x); [by rewrite E1|].
  assert (Ec : (i_ref x =? 1) && ctrue (i_valid x) && (i_nlink x =? 0) = false).
  { apply not_true_iff_false. rewrite !andb_true_iff, !Z.eqb_eq. unfold ctrue. rewrite negb_true_iff, Z.eqb_neq. lia. }
  rewrite Ec. wp_step. apply wp_ret. wp_step. apply (updi_wp _ k x); [by rewrite E1|].
  eapply (k_rel ls i s); [done|done|by eapply inside_frame, kframe_pfs|]. intros s2 K2 E2. apply HQ; [done|].
  rewrite E2. cbn [pfs set_pfs]. rewrite E1. f_equal. apply list_alter_ext; [|done].
  intros y Hy. rewrite Hx in Hy. injection Hy as <-. rewrite i32_small; [done|]. pose proof (it_ref _ Hit _ _ Hx). lia.
Qed.

(** ** Locking *)

Lemma inode_lock_ok f k : (k < length (itable f))%nat -> SlOk (inode_lock k) f.
Proof.
  intros Hk. destruct (lookup_lt_is_Some_2 _ _ Hk) as [x Hx]. split; cbn [inode_lock sl_get sl_put].
  - rewrite Hx. eauto.
  - intros l l'. cbn [itable set_itable]. by rewrite !list_lookup_alter_eq, Hx.
  - intros l. cbn [itable set_itable]. by rewrite list_lookup_alter_eq, Hx.
  - intros l l'. cbn [itable set_itable]. rewrite list_alter_alter_eq. done.
Qed.

Lemma tx_slots ls i s me start n L blks h : tx_state ls i s me start n L blks h ->
  (forall a, SleepSpin a ∉ ls) /\ (length ls < 6)%nat /\ cur_pid i s = me.
Proof. intros (D & l & _ & Hls & _ & [(_ & _ & Hs & _ & Hp & _) _ _ _ _ _ _ _ _]). done. Qed.

Lemma tx_updi ls i s me start n L blks h k x f (Q : unit -> kernel -> Prop) :
  tx_state ls i s me start n L blks h -> itable (pfs s) !! k = Some x ->
  (forall s2, istep i s (alter f k (itable (pfs s))) s2 -> tx_state ls i s2 me start n L blks h -> Q tt s2) ->
  wp (updi k f) s Q.
Proof.
  intros Htx Hx HQ. apply (updi_wp s k x); [done|]. set (s2 := set_pfs _ s). assert (K2 : kframe i s s2) by apply kframe_pfs.
  apply HQ; [by apply istep_set|by eapply tx_set_itable].
Qed.

(** The inode as it is on disk. *)
Definition on_disk (L : Z -> list Z) (f : superblock) (inum : Z) : dinode := dinode_get (L (IBLOCK inum f)) (dinode_off inum).

(** An entry with what was read from disk. *)
Definition loaded (L : Z -> list Z) (f : superblock) (x : inode) : inode :=
  set_i_valid 1 (with_dinode (on_disk L f (i_inum x)) x).

Lemma iload_wp ls i s me start n L blks h k x (Q : unit -> kernel -> Prop) :
  tx_state ls i s me start n L blks h -> itable (pfs s) !! k = Some x -> i_dev x = ROOTDEV ->
  (forall j, h !! j <> Some (IBLOCK (i_inum x) (sb (pfs s)))) -> (size h + length blks < nbuf)%nat ->
  d_type (on_disk L (sb (pfs s)) (i_inum x)) <> 0 ->
  (forall s2, istep i s (alter (loaded L (sb (pfs s))) k (itable (pfs s))) s2 ->
     tx_state ls i s2 me start n L blks h -> Q tt s2) ->
  wp (iload k x) s Q.
Proof.
  intros Htx Hx Hdev Hnh Hsz Hty HQ. set (f := sb (pfs s)) in *. unfold iload. wp_step. apply gsb_wp. fold f. unfold id.
  rewrite Hdev. wp_step. eapply (tx_bread ls i s); [done|done|done|]. intros j s2 Hj F2%istep_fstep T2.
  destruct (istep_same _ _ _ _ F2) as (I2 & _). wp_step. eapply tx_data; [exact T2|apply lookup_insert_eq|].
  fold (on_disk L f (i_inum x)). wp_step. eapply tx_updi; [exact T2|by rewrite I2|]. intros s3 F3 T3. rewrite I2 in F3.
  destruct (istep_same _ _ _ _ F3) as (I3 & _). wp_step.
  eapply tx_release; [exact T3|apply lookup_insert_eq|]. intros s4 F4%istep_fstep T4.
  rewrite delete_insert_eq, delete_id in T4 by done. destruct (istep_same _ _ _ _ F4) as (I4 & _).
  assert (Hx4 : itable (pfs s4) !! k = Some (with_dinode (on_disk L f (i_inum x)) x)) by (by rewrite I4, I3, list_lookup_alter_eq, Hx).
  wp_step. eapply tx_updi; [exact T4|exact Hx4|]. intros s5 F5 T5. rewrite I4, I3, list_alter_alter_eq in F5.
  destruct (istep_same _ _ _ _ F5) as (I5 & _).
  wp_step. eapply geti_wp; [by rewrite I5, list_lookup_alter_eq, Hx|]. unfold compose.
  cbn [i_type set_i_valid with_dinode set_i_addrs set_i_size set_i_nlink set_i_minor set_i_major set_i_type].
  rewrite (proj2 (Z.eqb_neq _ _) Hty). apply wp_ret, HQ; [|done].
  replace (alter (loaded L f) k (itable (pfs s)))
    with (alter (compose (set_i_valid 1) (with_dinode (on_disk L f (i_inum x)))) k (itable (pfs s))).
  - eapply istep_trans; [exact F2|]. eapply istep_trans; [exact F3|]. by eapply istep_trans.
  - apply list_alter_ext; [|done]. intros y Hy. rewrite Hx in Hy. by injection Hy as <-.
Qed.

(** The entry as [ilock] leaves it. *)
Definition locked_entry (me : Z) (L : Z -> list Z) (f : superblock) (x : inode) : inode :=
  let x' := set_i_lock (SleepLock 1 me) x in if i_valid x =? 0 then loaded L f x' else x'.

(** A free entry, read from a block that is not locked if need be. *)
Definition lockable (L : Z -> list Z) (f : superblock) (blks : list Z) (h : gmap nat Z) (x : inode) : Prop :=
  1 <= i_ref x /\ i_dev x = ROOTDEV /\ i_lock x = SleepLock 0 0 /\
  (i_valid x = 0 -> (forall j, h !! j <> Some (IBLOCK (i_inum x) f)) /\ (size h + length blks < nbuf)%nat /\
     d_type (on_disk L f (i_inum x)) <> 0).

Lemma ilock_wp ls i s me start n L blks h k x (Q : unit -> kernel -> Prop) :
  tx_state ls i s me start n L blks h -> itable (pfs s) !! k = Some x -> lockable L (sb (pfs s)) blks h x ->
  (forall s2, istep i s (alter (locked_entry me L (sb (pfs s))) k (itable (pfs s))) s2 ->
     tx_state ls i s2 me start n L blks h -> Q tt s2) ->
  wp (ilock (Some k)) s Q.
Proof.
  intros Htx Hx (Href & Hdev & Hlk & Hload) HQ. destruct (tx_slots _ _ _ _ _ _ _ _ _ Htx) as (Hsl & Hls & Hpid).
  unfold ilock. wp_step. apply (geti_wp s k x); [done|]. rewrite (proj2 (Z.ltb_ge _ _)) by lia. wp_step.
  eapply (acquiresleep_wp ls i s (inode_lock k)); [by eapply tx_ready|apply Hsl|lia| | | |].
  { apply inode_lock_ok. by eapply lookup_lt_Some. } { cbn [inode_lock sl_get]. by rewrite Hx. } { by rewrite Hlk. }
  rewrite Hpid. cbn [inode_lock sl_put]. intros s1 K1 E1.
  pose proof (istep_set _ _ _ _ K1 E1) as S1. pose proof (tx_set_itable _ _ _ _ _ _ _ _ _ _ _ Htx K1 E1) as T1.
  destruct (istep_same _ _ _ _ S1) as (I1 & B1 & _). set (y := set_i_lock (SleepLock 1 me) x).
  assert (Hx1 : itable (pfs s1) !! k = Some y) by (by rewrite I1, list_lookup_alter_eq, Hx).
  assert (Hend : forall g, g y = locked_entry me L (sb (pfs s)) x ->
    alter g k (itable (pfs s1)) = alter (locked_entry me L (sb (pfs s))) k (itable (pfs s))).
  { intros g Hg. rewrite I1, list_alter_alter_eq. apply list_alter_ext; [|done].
    intros z Hz. rewrite Hx in Hz. by injection Hz as <-. }
  wp_step. apply (geti_wp s1 k y _ Hx1). change (i_valid y) with (i_valid x).
  destruct (i_valid x =? 0) eqn:Ev.
  - destruct (Hload (proj1 (Z.eqb_eq _ _) Ev)) as (Hnh & Hsz & Hty). eapply (iload_wp ls i s1); [done|done|done|by rewrite B1|done|by rewrite B1|].
    rewrite B1. intros s2 S2 T2. apply HQ; [|done].
    rewrite Hend in S2 by (unfold locked_entry; by rewrite Ev). by eapply istep_trans.
  - apply wp_ret, HQ; [|done]. rewrite <- (Hend id), list_alter_id', I1 by (unfold locked_entry; by rewrite Ev). done.
Qed.

Lemma iunlock_wp ls i s me start n L blks h k x (Q : unit -> kernel -> Prop) :
  tx_state ls i s me start n L blks h -> itable (pfs s) !! k = Some x -> 1 <= i_ref x -> i_lock x = SleepLock 1 me ->
  (forall s2, istep i s (alter (set_i_lock (SleepLock 0 0)) k (itable (pfs s))) s2 ->
     tx_state ls i s2 me start n L blks h -> Q tt s2) ->
  wp (iunlock (Some k)) s Q.
Proof.
  intros Htx Hx Href Hlk HQ. destruct (tx_slots _ _ _ _ _ _ _ _ _ Htx) as (Hsl & Hls & Hpid).
  unfold iunlock. wp_step. eapply (holdingsleep_wp ls i s (inode_lock k)); [by eapply tx_ready|apply Hsl|lia| |].
  { cbn [inode_lock sl_get]. by rewrite Hx. }
  intros s1 K1 E1. rewrite Hlk, Hpid. cbn [sl_locked sl_pid ctrue Z.eqb negb andb]. rewrite Z.eqb_refl. cbn [negb].
  wp_step. apply (geti_wp s1 k x); [by rewrite E1|]. rewrite (proj2 (Z.ltb_ge _ _)) by lia.
  eapply (releasesleep_wp ls i s1 (inode_lock k)); [eapply kready_frame; [by eapply tx_ready|done]|apply Hsl|lia| |].
  { apply inode_lock_ok. rewrite E1. by eapply lookup_lt_Some. }
  intros s2 K2 E2. cbn [inode_lock sl_put] in E2. rewrite E1 in E2.
  assert (K : kframe i s s2) by (by eapply kframe_trans). apply HQ; [by apply istep_set|by eapply tx_set_itable].
Qed.

(** [iupdate] stores the entry in its block and leaves the other inodes of
    the block as they are. *)
Definition stored (L : Z -> list Z) (f : superblock) (x : inode) : Z -> list Z :=
  block_upd L (IBLOCK (i_inum x) f) (dinode_put (L (IBLOCK (i_inum x) f)) (dinode_off (i_inum x)) (dinode_of x)).

Lemma iupdate_wp ls i s me start n L blks h k x (Q : unit -> kernel -> Prop) :
  tx_state ls i s me start n L blks h -> itable (pfs s) !! k = Some x -> i_dev x = ROOTDEV ->
  (forall j, h !! j <> Some (IBLOCK (i_inum x) (sb (pfs s)))) -> (size h + length blks < nbuf)%nat ->
  home start (IBLOCK (i_inum x) (sb (pfs s))) -> (S (length blks) < logsize)%nat ->
  (forall s2, fstep i s s2 -> tx_state ls i s2 me start n (stored L (sb (pfs s)) x)
     (logged blks (IBLOCK (i_inum x) (sb (pfs s)))) h -> Q tt s2) ->
  wp (iupdate k) s Q.
Proof.
  intros Htx Hx Hdev Hnh Hsz Hhome Hroom HQ. unfold iupdate. wp_step. apply (geti_wp s k x); [done|].
  wp_step. apply gsb_wp. unfold id. rewrite Hdev. wp_step. eapply (tx_bread ls i s); [done|done|done|]. intros j s1 Hj F1 T1.
  destruct (fstep_same _ _ _ F1) as (_ & I1 & _). wp_step. eapply tx_data; [exact T1|apply lookup_insert_eq|].
  wp_step. apply (geti_wp s1 k x); [by rewrite I1|].
  eapply tx_log_release; [exact T1|done| |done|done|]. { rewrite length_dinode_put. by eapply tx_len. }
  intros s2 F2 T2. apply HQ; [by eapply fstep_trans|done].
Qed.

Lemma on_disk_stored L f x : (forall b, length (L b) = bsize) -> dinode_ok (dinode_of x) ->
  on_disk (stored L f x) f (i_inum x) = dinode_of x.
Proof.
  intros Hl Hok. unfold on_disk, stored. rewrite block_upd_eq. apply dinode_get_put; [|done].
  rewrite Hl. apply dinode_off_bound.
Qed.

End Table.
