(* ===== verification/ReadSpec.v ===== *)
(** * Reading files

    The contents of a file as a list of bytes, and [readi]: it delivers these
    bytes to a destination, which is the memory of the process or the memory
    of the kernel.  Both kinds of destination implement the interface
    [Sink]. *)

From S2P Require Import Prelude Riscv Mem CString Kalloc Vm PageTable VmSpec UserCopy Spinlock Proc ProcSpec IoState SleepLock.
From S2P Require Import UserMem Bio BioSpec Bytes Log LogDisk LogSpec LogRecover.
From S2P Require Import Uart Printf DevSpec Fs FsSpec InodeSpec.

(** ** Contents *)

(** The block with the [k]th part of the file. *)
Definition file_block (L : Z -> list Z) (x : inode) (bn : Z) : Z :=
  if bn <? NDIRECT then default 0 (i_addrs x !! Z.to_nat bn)
  else get_le 4 (L (default 0 (i_addrs x !! ndirect))) (4 * Z.to_nat (bn - NDIRECT)).
Definition file_byte (L : Z -> list Z) (x : inode) (o : Z) : Z :=
  byte_at (L (file_block L x (o / BSIZE))) (Z.to_nat (o mod BSIZE)).
Definition file_bytes (L : Z -> list Z) (x : inode) (off : Z) (n : nat) : list Z :=
  (fun k => file_byte L x (off + Z.of_nat k)) <$> seq 0 n.

(** Every block below the size is there, and neither these blocks nor the
    indirect block are among the locked ones. *)
Record file_ok (L : Z -> list Z) (x : inode) (h : gmap nat Z) : Prop := {
  fo_len : length (i_addrs x) = S ndirect;
  fo_dev : i_dev x = ROOTDEV;
  fo_size : 0 <= i_size x <= MAXFILE * BSIZE;
  fo_block bn : 0 <= bn -> bn * BSIZE < i_size x ->
    file_block L x bn <> 0 /\ (forall j, h !! j <> Some (file_block L x bn)) /\ bytes_ok (L (file_block L x bn));
  fo_indirect a : NDIRECT * BSIZE < i_size x -> i_addrs x !! ndirect = Some a -> a <> 0 /\ forall j, h !! j <> Some a;
}.

Lemma length_file_bytes L x off n : length (file_bytes L x off n) = n.
Proof. unfold file_bytes. by rewrite length_fmap, length_seq. Qed.

Lemma file_bytes_app L x off a b : file_bytes L x off (a + b) = file_bytes L x off a ++ file_bytes L x (off + Z.of_nat a) b.
Proof.
  unfold file_bytes. rewrite seq_app, fmap_app. f_equal. rewrite Nat.add_0_l, <- (Nat.add_0_r a) at 1.
  rewrite <- fmap_add_seq, <- list_fmap_compose. apply list_fmap_ext. intros k y _. unfold compose. f_equal. lia.
Qed.

(** A part of one block. *)
Lemma file_bytes_block L x off m : 0 <= off -> off mod BSIZE + Z.of_nat m <= BSIZE ->
  length (L (file_block L x (off / BSIZE))) = bsize ->
  file_bytes L x off m = take m (drop (Z.to_nat (off mod BSIZE)) (L (file_block L x (off / BSIZE)))).
Proof.
  intros Hoff Hm Hl. unfold BSIZE, bsize in *. pose proof (Z.mod_pos_bound off 1024). pose proof (Z.div_mod off 1024).
  apply list_eq. intros k. destruct (decide (k < m)%nat) as [Hk|Hk].
  - rewrite lookup_take_lt, lookup_drop by done. unfold file_bytes. rewrite list_lookup_fmap, lookup_seq_lt by done.
    cbn [fmap option_fmap option_map]. unfold file_byte, BSIZE.
    assert (Ed : (off + Z.of_nat (0 + k)) / 1024 = off / 1024) by (symmetry; apply (Z.div_unique _ _ _ (off mod 1024 + Z.of_nat k)); lia).
    assert (Em : (off + Z.of_nat (0 + k)) mod 1024 = off mod 1024 + Z.of_nat k) by (symmetry; apply (Z.mod_unique _ _ (off / 1024)); lia).
    rewrite Ed, Em, Z2Nat.inj_add, Nat2Z.id by lia. unfold byte_at.
    destruct (lookup_lt_is_Some_2 (L (file_block L x (off / 1024))) (Z.to_nat (off mod 1024) + k)) as [b ->]; [lia|done].
  - rewrite lookup_ge_None_2 by (rewrite length_file_bytes; lia). symmetry. apply lookup_ge_None_2. rewrite length_take. lia.
Qed.

(** ** bmap of a block that is there *)

Section Bmap.
Context `{Linker}.
Implicit Types (s : kernel) (ls : list lockid) (L : Z -> list Z) (h : gmap nat Z).

Lemma get_addr_wp s k x m a (Q : Z -> kernel -> Prop) :
  itable (pfs s) !! k = Some x -> i_addrs x !! m = Some a -> Q a s -> wp (get_addr k m) s Q.
Proof. intros Hx Ha HQ. unfold get_addr. wp_step. apply (geti_wp s k x); [done|]. rewrite Ha. by apply wp_ret. Qed.

Lemma bmap_there_wp ls i s me start n L blks h k x bn (Q : Z -> kernel -> Prop) :
  tx_state ls i s me start n L blks h -> itable (pfs s) !! k = Some x -> file_ok L x h ->
  (size h + length blks < nbuf)%nat -> 0 <= bn -> bn * BSIZE < i_size x ->
  (forall s2, fstep i s s2 -> tx_state ls i s2 me start n L blks h -> Q (file_block L x bn) s2) ->
  wp (bmap k bn) s Q.
Proof.
  intros Htx Hx Hfo Hsz Hbn Hlt HQ. destruct (fo_block _ _ _ Hfo bn Hbn Hlt) as (Hnz & _ & _).
  pose proof (fo_size _ _ _ Hfo) as Hsize. pose proof (fo_len _ _ _ Hfo) as Hlen.
  unfold bmap. unfold file_block in Hnz, HQ. destruct (Z.ltb_spec bn NDIRECT) as [Hd|Hd].
  - destruct (lookup_lt_is_Some_2 (i_addrs x) (Z.to_nat bn)) as [a Ha]; [unfold NDIRECT, ndirect in *; lia|].
    rewrite Ha in Hnz, HQ. simpl default in *. unfold addr_or_alloc. wp_step. apply (get_addr_wp s k x _ a); [done|done|].
    rewrite (proj2 (Z.eqb_neq _ _) Hnz). apply wp_ret, HQ; [apply fstep_refl|done].
  - rewrite (proj2 (Z.ltb_lt (bn - NDIRECT) NINDIRECT)) by (unfold MAXFILE, BSIZE in *; lia).
    destruct (lookup_lt_is_Some_2 (i_addrs x) ndirect) as [a Ha]; [lia|].
    destruct (fo_indirect _ _ _ Hfo a) as [Hanz Hah]; [unfold NDIRECT, BSIZE in *; lia|done|].
    rewrite Ha in Hnz, HQ. simpl default in *. unfold addr_or_alloc. wp_step. wp_step. apply (get_addr_wp s k x _ a); [done|done|].
    rewrite (proj2 (Z.eqb_neq _ _) Hanz). apply wp_ret. rewrite (proj2 (Z.eqb_neq _ _) Hanz).
    wp_step. apply (geti_wp s k x); [done|]. rewrite (fo_dev _ _ _ Hfo). wp_step.
    eapply (tx_bread ls i s); [done|done|done|]. intros j s1 Hj F1 T1. wp_step.
    eapply tx_data; [exact T1|apply lookup_insert_eq|]. cbv zeta. rewrite (proj2 (Z.eqb_neq _ _) Hnz).
    wp_step. apply wp_ret. wp_step. eapply tx_release; [exact T1|apply lookup_insert_eq|]. intros s2 F2 T2.
    rewrite delete_insert_eq, delete_id in T2 by done. apply wp_ret, HQ; [by eapply fstep_trans|done].
Qed.

(** Memory does not concern a transaction. *)
Lemma tx_uframe ls i s s2 me start n L blks h :
  tx_state ls i s me start n L blks h -> uframe i s s2 -> pfs s2 = pfs s -> tx_state ls i s2 me start n L blks h.
Proof.
  intros Htx U E. eapply (tx_frame ls i (set_pk (pk s2) s)); [|exact U|by rewrite E..].
  destruct Htx as (D & l & A & B & C & [Hat Hg Hnd Hp Ho Hor Hc Hsz Hfr]). exists D, l. split_and!; try done; by split.
Qed.

Lemma tx_held_lt ls i s me start n L blks h j b : tx_state ls i s me start n L blks h -> h !! j = Some b -> (j < nbuf)%nat.
Proof. intros (D & l & _ & _ & _ & [Hat _ _ _ _ _ _ _ _]) Hj. eapply (bi_held _ _ _ (proj2 (proj2 (proj2 (proj2 (proj2 Hat)))))), Hj. Qed.

End Bmap.

(** ** Destinations *)

Section Sinks.
Context `{LinkerOk}.
Implicit Types (s : kernel) (ls : list lockid) (L : Z -> list Z) (h : gmap nat Z).

(** The memory of the buffer cache. *)
Definition in_cache (a : Z) : Prop := bcache_addr <= a < bcache_addr + 24 + (NBUF + 1) * SIZEOF_BUF.

(** A destination of [either_copyout] that accepts bytes from the cache:
    [dst_ok] are the ranges it has, [wrote] what a transfer does to memory. *)
Class Sink (i : nat) (user : bool) (ok : kernel -> Prop) (wrote : mem -> mem -> Z -> list Z -> Prop)
    (dst_ok : Z -> Z -> Prop) : Prop := {
  sink_frame s s2 : ok s -> kframe i s s2 -> ok s2;
  sink_cache s k : ok s -> freelist k = freelist (pk s) ->
    (forall a, ~ in_cache a -> rd (phys k) a = rd (phys (pk s)) a) -> ok (set_pk k s);
  sink_nil m m' dst : (forall a, ~ in_cache a -> rd m' a = rd m a) -> wrote m m' dst [];
  sink_app m m1 m2 dst bs bs' : dst_ok dst (Z.of_nat (length bs + length bs')) ->
    wrote m m1 dst bs -> wrote m1 m2 (dst + Z.of_nat (length bs)) bs' -> wrote m m2 dst (bs ++ bs');
  sink_sub dst n k : dst_ok dst n -> 0 <= k <= n -> dst_ok dst k /\ dst_ok (dst + k) (n - k);
  sink_range dst n : dst_ok dst n -> 0 <= dst /\ dst + n < 2 ^ 64;
  sink_copy ls s dst src m (Q : Z -> kernel -> Prop) :
    kready ls i s -> ok s -> 0 < m <= BSIZE -> (forall a, src <= a < src + m -> in_cache a) -> dst_ok dst m ->
    (forall s2, uframe i s s2 -> pfs s2 = pfs s -> ok s2 ->
       wrote (phys (pk s)) (phys (pk s2)) dst (bytes (Z.to_nat m) (phys (pk s)) src) -> Q 0 s2) ->
    wp (either_copyout user dst src m) s Q;
}.

Lemma in_cache_kernel src m : 0 < m -> (forall a, src <= a < src + m -> in_cache a) -> kernel_buf src m.
Proof.
  intros Hm Hin. left. pose proof bcache_layout as [_ Hl]. destruct (Hin (src + m - 1)) as [_ Hx]; [lia|]. lia.
Qed.

Lemma in_cache_page a : in_cache a -> ~ kend <= a < PHYSTOP.
Proof. unfold in_cache. pose proof bcache_layout. lia. Qed.

(** The memory of the process. *)
Definition user_dst (A : aspace) (dst n : Z) : Prop :=
  0 <= dst /\ dst + n < 2 ^ 64 /\ forall k, 0 <= k < n -> user_mapped A (dst + k).

#[export] Instance user_sink i (pt : labels) fr A (Hu : user_ok pt fr A) :
  Sink i true (fun s => user_at i s pt fr A) (user_wrote A) (user_dst A).
Proof.
  split.
  - intros. by eapply user_at_kframe.
  - intros s k Hua Hf Hsame. pose proof bcache_layout as [_ Hl].
    apply (user_at_kernel_write i s k pt fr A bcache_addr (24 + (NBUF + 1) * SIZEOF_BUF)); [done|left; lia|done|].
    intros x Hx. apply Hsame. unfold in_cache. lia.
  - intros m m' dst Hsame. apply user_wrote_nil. intros a Ha. apply Hsame. intros Hc. by apply in_cache_page in Hc.
  - intros m m1 m2 dst bs bs' [Hd _] W1 W2. by eapply user_wrote_app.
  - intros dst n k (A1 & A2 & A3) Hk. split; (split; [lia|]; split; [lia|]); intros j Hj.
    + apply A3. lia.
    + rewrite <- Z.add_assoc. apply A3. lia.
  - intros dst n (A1 & A2 & _). done.
  - intros ls s dst src m Q Hr Hua Hm Hin (Hd1 & Hd2 & Hd3) HQ.
    eapply (either_copyout_user ls i s pt fr A); [done|done|apply in_cache_kernel; [lia|done]|done|lia|].
    intros s2 k r U2 E2 Hua2 [Hk Hres] W2 _. destruct Hres as [[-> ->]|(-> & Hlt & Hun)]; [by apply HQ|].
    destruct Hun. apply Hd3. lia.
Qed.

(** The memory of the kernel above its static data: pages and the stack. *)
Definition kernel_dst (dst n : Z) : Prop := kend <= dst /\ 0 <= dst /\ dst + n < 2 ^ 64.
Definition kernel_wrote (m m' : mem) (dst : Z) (bs : list Z) : Prop :=
  (forall k b, bs !! k = Some b -> rd m' (dst + Z.of_nat k) = b) /\
  (forall a, ~ in_cache a -> ~ dst <= a < dst + Z.of_nat (length bs) -> rd m' a = rd m a).

Lemma kernel_not_cache dst n a : kernel_dst dst n -> dst <= a -> ~ in_cache a.
Proof. intros [Hd _] Ha. unfold in_cache. pose proof bcache_layout. lia. Qed.

#[export] Instance kernel_sink i : Sink i false (fun _ => True) kernel_wrote kernel_dst.
Proof.
  split; try done.
  - intros m m' dst Hsame. split; [done|]. intros a Ha _. by apply Hsame.
  - intros m m1 m2 dst bs bs' Hd [W1 F1] [W2 F2]. split.
    + intros k b Hk. destruct (decide (k < length bs)%nat) as [Hlt|Hge].
      * rewrite lookup_app_l in Hk by done. rewrite F2; [by apply W1| |lia].
        eapply kernel_not_cache; [done|lia].
      * rewrite lookup_app_r in Hk by lia. rewrite <- (W2 _ _ Hk). f_equal. lia.
    + intros a Hc Ha. rewrite length_app in Ha. rewrite F2, F1; [done|done|lia|done|lia].
  - intros dst n k (A1 & A2 & A3) Hk. unfold kernel_dst. lia.
  - intros dst n (_ & A & B). done.
  - intros ls s dst src m Q Hr _ Hm Hin Hd HQ. unfold either_copyout. wp_step.
    eapply myproc_wp; [apply Hr|]. intros l Hl. wp_step. apply phys_wr_wp. apply wp_ret. apply HQ; [|done|done|].
    + split; [done|]. repeat split; try done. apply woke_only_refl.
    + cbn [pk set_pk set_plk phys set_phys]. unfold BSIZE in Hm.
      pose proof (memmove_copied (phys (pk s)) dst src m ltac:(lia)) as Hc. split.
      * intros k b Hk. pose proof (lookup_lt_Some _ _ _ Hk) as Hlt. rewrite length_bytes in Hlt.
        rewrite lookup_bytes in Hk by done. injection Hk as <-. rewrite Hc, decide_True by lia. f_equal. lia.
      * intros a _ Ha. rewrite length_bytes in Ha. rewrite Hc, decide_False by lia. done.
Qed.

End Sinks.

(** ** readi *)

Section Read.
Context `{LinkerOk} (i : nat) (user : bool) (ok : kernel -> Prop) (wrote : mem -> mem -> Z -> list Z -> Prop)
  (dst_ok : Z -> Z -> Prop) `{!Sink i user ok wrote dst_ok}.
Implicit Types (s : kernel) (ls : list lockid) (L : Z -> list Z) (h : gmap nat Z).

(** Memory, the buffer cache and the log's header changed. *)
Definition rstep s s2 : Prop :=
  uframe i s s2 /\ pfs s2 = set_bufs (bufs (pfs s2)) (set_lg (lg (pfs s2)) (set_urt (urt (pfs s2)) (pfs s))).

Lemma rstep_refl s : rstep s s.
Proof. split; [apply uframe_refl|]. by destruct (pfs s). Qed.

Lemma rstep_trans s1 s2 s3 : rstep s1 s2 -> rstep s2 s3 -> rstep s1 s3.
Proof. intros [A B] [C D]. split; [by eapply uframe_trans|]. rewrite D, B. done. Qed.

Lemma rstep_fstep s s2 : fstep i s s2 -> rstep s s2.
Proof. intros [A B]. split; [by apply uframe_kframe|done]. Qed.

Lemma rstep_mem s s2 : uframe i s s2 -> pfs s2 = pfs s -> rstep s s2.
Proof. intros A B. split; [done|]. rewrite B. by destruct (pfs s). Qed.

Lemma rstep_same s s2 : rstep s s2 -> itable (pfs s2) = itable (pfs s) /\ sb (pfs s2) = sb (pfs s) /\
  panicked (pfs s2) = panicked (pfs s).
Proof. intros [_ B]. rewrite B. done. Qed.

Lemma fstep_pk s s2 : fstep i s s2 -> pk s2 = pk s.
Proof. intros [[_ (_ & _ & E & _)] _]. done. Qed.

(** The place of a buffer's data. *)
Lemma data_in_cache bp o m a : (bp < nbuf)%nat -> 0 <= o -> o + m <= BSIZE ->
  data_addr bp o <= a < data_addr bp o + m -> in_cache a.
Proof. unfold data_addr, buf_addr, in_cache, nbuf, BSIZE, SIZEOF_BUF, NBUF, MAXOPBLOCKS. lia. Qed.

Lemma data_out_wp ls s me start n L blks h j b o m (Q : unit -> kernel -> Prop) :
  tx_state ls i s me start n L blks h -> h !! j = Some b -> bytes_ok (L b) -> 0 <= o -> 0 <= m -> o + m <= BSIZE ->
  (forall k, freelist k = freelist (pk s) -> (forall a, ~ in_cache a -> rd (phys k) a = rd (phys (pk s)) a) ->
     bytes (Z.to_nat m) (phys k) (data_addr j o) = take (Z.to_nat m) (drop (Z.to_nat o) (L b)) ->
     tx_state ls i (set_pk k s) me start n L blks h -> Q tt (set_pk k s)) ->
  wp (data_out j o m) s Q.
Proof.
  intros Htx Hj Hb Ho Hm Hom HQ. pose proof (tx_held_lt _ _ _ _ _ _ _ _ _ _ _ Htx Hj) as Hlt.
  pose proof (tx_len _ _ _ _ _ _ _ _ _ b Htx) as Hlen. set (bs := take (Z.to_nat m) (drop (Z.to_nat o) (L b))).
  assert (Hbl : length bs = Z.to_nat m) by (unfold bs; rewrite length_take, length_drop, Hlen; unfold BSIZE, bsize in *; lia).
  unfold data_out. wp_step. eapply tx_data; [exact Htx|done|]. apply phys_wr_wp. fold bs. apply HQ; cbn [phys freelist set_phys].
  - done.
  - intros a Ha. rewrite rd_wr_bytes, decide_False; [done|]. intros Hin. apply Ha. eapply (data_in_cache j o m); [done|done|done|lia].
  - fold bs. apply list_eq. intros k. destruct (decide (k < Z.to_nat m)%nat) as [Hk|Hk].
    + rewrite lookup_bytes, rd_wr_bytes, decide_True by lia.
      replace (Z.to_nat (data_addr j o + Z.of_nat k - data_addr j o)) with k by lia.
      destruct (lookup_lt_is_Some_2 bs k) as [c Hc]; [lia|]. rewrite Hc. simpl. f_equal. apply u8_small.
      assert (Hall : bytes_ok bs) by (by apply Forall_take, Forall_drop). unfold bytes_ok in Hall. rewrite Forall_lookup in Hall. eauto.
    + rewrite !lookup_ge_None_2; [done|lia|rewrite length_bytes; lia].
  - eapply tx_uframe; [done|apply uframe_pk|done].
Qed.

(** One turn: [m] bytes from offset [o] of block [b]. *)
Lemma read_chunk_wp {B} ls me start nop L blks h s b o m dst (cont : Z -> K B) (Q : B -> kernel -> Prop) :
  tx_state ls i s me start nop L blks h -> ok s -> (size h + length blks < nbuf)%nat ->
  (forall j, h !! j <> Some b) -> bytes_ok (L b) -> 0 <= o -> 0 < m -> o + m <= BSIZE -> dst_ok dst m ->
  (forall s2, rstep s s2 -> tx_state ls i s2 me start nop L blks h -> ok s2 ->
     wrote (phys (pk s)) (phys (pk s2)) dst (take (Z.to_nat m) (drop (Z.to_nat o) (L b))) -> wp (cont 0) s2 Q) ->
  wp (bp <- bread ROOTDEV b ;; data_out bp o m ;;
      e <- either_copyout user dst (data_addr bp o) m ;; brelse bp ;; cont e)%K s Q.
Proof.
  intros Htx Hok Hsz Hnh Hbytes Ho Hm Hom Hdst HQ. wp_step.
  eapply (tx_bread ls i s); [done|done|done|]. intros j s2 Hj F2 T2. pose proof (fstep_pk _ _ F2) as P2.
  assert (Hok2 : ok s2) by (eapply sink_frame; [exact Hok|apply F2]).
  wp_step. eapply (data_out_wp ls s2); [exact T2|apply lookup_insert_eq|done|done|lia|done|]. rewrite P2.
  intros km Hkf Hksame Hkb T3. set (s3 := set_pk km s2) in *.
  assert (Hok3 : ok s3) by (apply sink_cache; [done|by rewrite P2|by rewrite P2]).
  wp_step. eapply (sink_copy ls s3); [by eapply tx_ready|done|lia| |done|].
  { intros a Ha. eapply (data_in_cache j o m); [by eapply tx_held_lt; [|apply lookup_insert_eq]|done|done|done]. }
  intros s4 U4 E4 Hok4 W4. assert (T4 := tx_uframe _ _ _ _ _ _ _ _ _ _ T3 U4 E4).
  wp_step. eapply tx_release; [exact T4|apply lookup_insert_eq|]. intros s5 F5 T5.
  rewrite delete_insert_eq, delete_id in T5 by done. apply HQ; [|done|by eapply sink_frame; [|apply F5]|].
  - eapply rstep_trans; [by apply rstep_fstep|]. eapply rstep_trans; [|by apply rstep_fstep].
    apply rstep_mem; [|done]. eapply uframe_trans; [apply uframe_pk|done].
  - rewrite (fstep_pk _ _ F5). change (phys (pk s3)) with (phys km) in W4. rewrite Hkb in W4.
    set (bs := take _ _) in *. assert (Hl : length bs = Z.to_nat m) by (rewrite <- Hkb; apply length_bytes).
    apply (sink_app (phys (pk s)) (phys km) _ dst [] bs); [|by apply sink_nil|by rewrite Z.add_0_r].
    rewrite Hl. cbn [length Nat.add]. by rewrite Z2Nat.id by lia.
Qed.

(** The number of blocks a range touches. *)
Definition blocks_left (off len : Z) : Z := if decide (0 < len) then (off + len - 1) / BSIZE - off / BSIZE + 1 else 0.

Lemma blocks_left_step off len m : 0 <= off -> 0 < len -> m = Z.min len (BSIZE - off mod BSIZE) ->
  blocks_left (off + m) (len - m) = blocks_left off len - 1.
Proof.
  intros Hoff Hlen ->. unfold blocks_left, BSIZE. rewrite (decide_True (P := 0 < len)) by done.
  pose proof (Z.mod_pos_bound off 1024). pose proof (Z.div_mod off 1024). case_decide as Hc.
  - rewrite Z.min_r in * by lia. replace (off + (1024 - off mod 1024)) with ((off / 1024 + 1) * 1024) by lia.
    rewrite Z.div_mul by lia. replace ((off / 1024 + 1) * 1024 + (len - (1024 - off mod 1024)) - 1) with (off + len - 1) by lia. lia.
  - assert (Hle : len <= 1024 - off mod 1024) by lia.
    assert (E : (off + len - 1) / 1024 = off / 1024) by (symmetry; apply (Z.div_unique _ _ _ (off mod 1024 + len - 1)); lia). lia.
Qed.

(** The fuel of the loops is enough. *)
Lemma chunks_enough off n : 0 <= off -> 0 <= n -> blocks_left off n < Z.of_nat (chunks n).
Proof.
  intros Hoff Hn. unfold blocks_left, chunks, BSIZE. case_decide; [|lia].
  assert ((off + n - 1) / 1024 <= off / 1024 + n / 1024 + 1); [|lia].
  pose proof (Z.div_mod off 1024). pose proof (Z.div_mod n 1024). pose proof (Z.mod_pos_bound off 1024).
  pose proof (Z.mod_pos_bound n 1024). apply Z.lt_succ_r, Z.div_lt_upper_bound; lia.
Qed.

Lemma readi_loop_wp ls me start nop L blks h k x fuel s dst off tot n (Q : Z -> kernel -> Prop) :
  tx_state ls i s me start nop L blks h -> itable (pfs s) !! k = Some x -> file_ok L x h -> ok s ->
  (size h + length blks < nbuf)%nat ->
  0 <= off -> 0 <= tot <= n -> n < 2 ^ 31 -> off + (n - tot) <= i_size x -> dst_ok dst (n - tot) ->
  blocks_left off (n - tot) < Z.of_nat fuel ->
  (forall s2, rstep s s2 -> tx_state ls i s2 me start nop L blks h -> ok s2 ->
     wrote (phys (pk s)) (phys (pk s2)) dst (file_bytes L x off (Z.to_nat (n - tot))) -> Q n s2) ->
  wp (readi_loop fuel k user dst off tot n) s Q.
Proof.
  intros Htx Hx Hfo Hok Hsz. revert s dst off tot Htx Hx Hok.
  induction fuel as [|fuel IH]; intros s dst off tot Htx Hx Hok Hoff Htot Hn Hend Hdst Hfuel HQ; cbn [readi_loop].
  { unfold blocks_left in Hfuel. case_decide; [|lia]. pose proof (Z.div_le_mono off (off + (n - tot) - 1) BSIZE ltac:(done)). lia. }
  destruct (Z.ltb_spec tot n) as [Hlt|Hge].
  2:{ assert (tot = n) as -> by lia. apply wp_ret. rewrite i32_small by lia. rewrite Z.sub_diag in HQ.
      apply HQ; [apply rstep_refl|done|done|]. by apply sink_nil. }
  pose proof (fo_size _ _ _ Hfo) as Hsize. assert (Hb0 : 0 <= off / BSIZE) by (by apply Z.div_pos).
  pose proof (Z.mod_pos_bound off BSIZE ltac:(done)) as Hmod. pose proof (Z.div_mod off BSIZE ltac:(done)) as Hdm.
  destruct (fo_block _ _ _ Hfo _ Hb0 ltac:(lia)) as (Hnz & Hnh & Hbytes).
  wp_step. eapply (bmap_there_wp ls i s); [done|done|done|done|done|lia|]. intros s1 F1 T1. pose proof (rstep_fstep _ _ F1) as R1.
  rewrite (proj2 (Z.eqb_neq _ _) Hnz). destruct (fstep_same _ _ _ F1) as (_ & I1 & _).
  wp_step. apply (geti_wp s1 k x); [by rewrite I1|]. rewrite (fo_dev _ _ _ Hfo). cbv zeta.
  set (m := Z.min (n - tot) (BSIZE - off mod BSIZE)). assert (Hm : 0 < m /\ off mod BSIZE + m <= BSIZE /\ m <= n - tot) by lia.
  destruct (sink_sub dst (n - tot) m Hdst ltac:(lia)) as [Hd1 Hd2]. pose proof (sink_range dst (n - tot) Hdst) as Hdr.
  eapply (read_chunk_wp ls me start nop L blks h s1 _ (off mod BSIZE) m dst); [done| |done|done|done|lia|lia|lia|done|].
  { eapply sink_frame; [exact Hok|apply F1]. }
  intros s2 R2 T2 Hok2 W2. cbn [Z.eqb]. destruct (rstep_same _ _ R2) as (I2 & _).
  rewrite u64_small by lia. rewrite u32_small by (unfold MAXFILE, NDIRECT, NINDIRECT, BSIZE in *; change (1024 / 4) with 256 in *; lia).
  rewrite (fstep_pk _ _ F1) in W2.
  assert (El : n - (tot + m) = n - tot - m) by lia.
  apply IH; rewrite ?El; [done|by rewrite I2, I1|done|lia|lia|done|lia|done| |].
  { rewrite blocks_left_step; [lia|done|lia|done]. }
  intros s3 R3 T3 Hok3 W3. apply HQ; [by eapply rstep_trans; [|eapply rstep_trans]|done|done|].
  replace (Z.to_nat (n - tot)) with (Z.to_nat m + Z.to_nat (n - tot - m))%nat by lia.
  rewrite file_bytes_app, Z2Nat.id by lia. eapply sink_app.
  - rewrite !length_file_bytes. replace (Z.of_nat _) with (n - tot) by lia. done.
  - rewrite file_bytes_block; [exact W2|done|lia|by eapply tx_len].
  - by rewrite length_file_bytes, Z2Nat.id by lia.
Qed.

Lemma readi_wp ls me start nop L blks h k x s dst off n (Q : Z -> kernel -> Prop) :
  tx_state ls i s me start nop L blks h -> itable (pfs s) !! k = Some x -> file_ok L x h -> ok s ->
  (size h + length blks < nbuf)%nat -> 0 <= off < 2 ^ 32 -> 0 <= n < 2 ^ 31 ->
  (let len := if i_size x <? off then 0 else Z.min n (i_size x - off) in
   dst_ok dst len /\
   forall s2, rstep s s2 -> tx_state ls i s2 me start nop L blks h -> ok s2 ->
     wrote (phys (pk s)) (phys (pk s2)) dst (file_bytes L x off (Z.to_nat len)) -> Q len s2) ->
  wp (readi k user dst off n) s Q.
Proof.
  cbv zeta. intros Htx Hx Hfo Hok Hsz Hoff Hn [Hd HQ]. pose proof (fo_size _ _ _ Hfo) as Hsize.
  unfold MAXFILE, NDIRECT, NINDIRECT, BSIZE in Hsize. change (1024 / 4) with 256 in Hsize.
  unfold readi. wp_step. apply (geti_wp s k x); [done|]. destruct (Z.ltb_spec (i_size x) off) as [Hgt|Hle]; cbn [orb].
  { apply wp_ret, HQ; [apply rstep_refl|done|done|by apply sink_nil]. }
  rewrite (u32_small (off + n)) by lia. rewrite (proj2 (Z.ltb_ge (off + n) off)) by lia.
  set (len := Z.min n (i_size x - off)) in *.
  assert (El : (if i_size x <? off + n then i_size x - off else n) = len).
  { destruct (Z.ltb_spec (i_size x) (off + n)); unfold len; lia. }
  rewrite El. eapply (readi_loop_wp ls me start nop L blks h k x); [done|done|done|done|done|lia|lia|lia|lia|by rewrite Z.sub_0_r| |].
  - rewrite Z.sub_0_r. apply chunks_enough; lia.
  - rewrite Z.sub_0_r. done.
Qed.

End Read.
