(* ===== verification/FileMap.v ===== *)
(** * The block map of a file

    The blocks that belong to a file, directly or through its indirect block,
    and the steps by which a write changes them: taking a free block for a
    slot that is empty, and replacing the contents of a block. *)

From S2P Require Import Prelude Riscv Mem Spinlock Proc ProcSpec IoState SleepLock Bio BioSpec Bytes Log LogDisk LogSpec LogRecover.
From S2P Require Import Uart Printf DevSpec Fs FsSpec InodeSpec ReadSpec.

(** ** The layout of the disk *)

(** The log, the inodes, the free map and then the data. *)
Definition data_start (f : superblock) : Z := sb_bmapstart f + sb_size f / BPB + 1.
Definition data_block (f : superblock) (a : Z) : Prop := data_start f <= a < sb_size f.

Record layout (L : Z -> list Z) (f : superblock) (start : Z) : Prop := {
  ly_map : map_ok L f start;
  ly_meta b : 0 <= b < data_start f -> b < sb_size f -> allocated L f b = true;
  ly_log : 0 <= start /\ start + LOGSIZE <= sb_inodestart f <= sb_bmapstart f;
  ly_inode inum : 0 <= inum < sb_ninodes f -> sb_inodestart f <= IBLOCK inum f < sb_bmapstart f;
  ly_ninodes : sb_ninodes f < 2 ^ 32;
}.

(** No free block is left. *)
Definition disk_full (L : Z -> list Z) (f : superblock) : Prop := full_below L f (sb_size f).

(** ** The blocks of a file *)

Definition ind (x : inode) : Z := default 0 (i_addrs x !! ndirect).
Definition mblock (L : Z -> list Z) (x : inode) (bn : Z) : Z :=
  if bn <? NDIRECT then default 0 (i_addrs x !! Z.to_nat bn)
  else if ind x =? 0 then 0 else get_le 4 (L (ind x)) (4 * Z.to_nat (bn - NDIRECT)).
Definition mbyte (L : Z -> list Z) (x : inode) (o : Z) : Z :=
  byte_at (L (mblock L x (o / BSIZE))) (Z.to_nat (o mod BSIZE)).

Definition in_file (L : Z -> list Z) (x : inode) (a : Z) : Prop :=
  a <> 0 /\ (a = ind x \/ exists bn, 0 <= bn < MAXFILE /\ mblock L x bn = a).

(** The blocks of a file are data blocks in use, no two slots share one, and
    there are no holes below the size. *)
Record file_wf (L : Z -> list Z) (f : superblock) (x : inode) : Prop := {
  fw_len : length (i_addrs x) = S ndirect;
  fw_dev : i_dev x = ROOTDEV;
  fw_size : 0 <= i_size x <= MAXFILE * BSIZE;
  fw_there bn : 0 <= bn -> bn * BSIZE < i_size x -> mblock L x bn <> 0;
  fw_data a : in_file L x a -> data_block f a /\ allocated L f a = true /\ bytes_ok (L a);
  fw_inj b c : 0 <= b < MAXFILE -> 0 <= c < MAXFILE -> mblock L x b <> 0 -> mblock L x b = mblock L x c -> b = c;
  fw_ind b : 0 <= b < MAXFILE -> mblock L x b <> 0 -> mblock L x b <> ind x;
}.

(** The file [x] of [L] has become [x2] of [L2]: it has kept its blocks and may
    have taken free ones; no other block that is in use has changed, except
    for the free map, where exactly the blocks taken are marked. *)
Record fext (f : superblock) (L : Z -> list Z) (x : inode) (L2 : Z -> list Z) (x2 : inode) : Prop := {
  fe_same : x2 = set_i_addrs (i_addrs x2) x;
  fe_block bn : 0 <= bn < MAXFILE -> mblock L x bn <> 0 -> mblock L2 x2 bn = mblock L x bn;
  fe_ind : ind x <> 0 -> ind x2 = ind x;
  fe_new a : in_file L2 x2 a -> in_file L x a \/ allocated L f a = false;
  fe_alloc a : 0 <= a < sb_size f -> (allocated L2 f a = true <-> allocated L f a = true \/ in_file L2 x2 a);
  fe_other a : (forall b, 0 <= b < sb_size f -> a <> BBLOCK b f) -> ~ in_file L2 x2 a -> L2 a = L a;
}.

(** ** Facts on the layout *)

Lemma layout_start L f start : layout L f start -> 0 < data_start f.
Proof.
  intros H. pose proof (mo_start _ _ _ (ly_map _ _ _ H)). pose proof (mo_size _ _ _ (ly_map _ _ _ H)).
  pose proof (Z.div_pos (sb_size f) BPB ltac:(lia) BPB_pos). unfold data_start. lia.
Qed.

Lemma data_not_map L f start a b : layout L f start -> data_block f a -> 0 <= b < sb_size f -> a <> BBLOCK b f.
Proof.
  intros H [Ha _] Hb ->. rewrite (BBLOCK_eq L f start) in Ha by (apply H || done). unfold data_start in Ha.
  pose proof (Z.div_le_mono b (sb_size f) BPB ltac:(done)). lia.
Qed.

Lemma data_not_inode L f start a inum : layout L f start -> data_block f a -> 0 <= inum < sb_ninodes f -> a <> IBLOCK inum f.
Proof.
  intros H [Ha _] Hi ->. pose proof (ly_inode _ _ _ H _ Hi). pose proof (mo_start _ _ _ (ly_map _ _ _ H)).
  pose proof (mo_size _ _ _ (ly_map _ _ _ H)). pose proof (Z.div_pos (sb_size f) BPB ltac:(lia) BPB_pos). unfold data_start in Ha. lia.
Qed.

Lemma inode_not_map L f start inum b : layout L f start -> 0 <= inum < sb_ninodes f -> 0 <= b < sb_size f -> IBLOCK inum f <> BBLOCK b f.
Proof.
  intros H Hi Hb. rewrite (BBLOCK_eq L f start) by (apply H || done). pose proof (ly_inode _ _ _ H _ Hi).
  pose proof (Z.div_pos b BPB ltac:(lia) BPB_pos). lia.
Qed.

Lemma data_home L f start a : layout L f start -> data_block f a -> home start a.
Proof.
  intros H [Ha Hs]. pose proof (mo_start _ _ _ (ly_map _ _ _ H)). pose proof (mo_size _ _ _ (ly_map _ _ _ H)).
  pose proof (layout_start _ _ _ H). split; [lia|]. intros [_ Hl]. pose proof (ly_log _ _ _ H).
  pose proof (Z.div_pos (sb_size f) BPB ltac:(lia) BPB_pos). unfold data_start in *. lia.
Qed.

Lemma inode_home L f start inum : layout L f start -> 0 <= inum < sb_ninodes f -> home start (IBLOCK inum f).
Proof.
  intros H Hi. pose proof (ly_inode _ _ _ H _ Hi). pose proof (ly_log _ _ _ H). pose proof (mo_start _ _ _ (ly_map _ _ _ H)).
  pose proof (mo_size _ _ _ (ly_map _ _ _ H)). pose proof (Z.div_pos (sb_size f) BPB ltac:(lia) BPB_pos).
  unfold home, in_log, LOGSIZE, MAXOPBLOCKS in *. lia.
Qed.

(** A block that is free is a data block. *)
Lemma free_data L f start r : layout L f start -> 0 <= r < sb_size f -> allocated L f r = false -> data_block f r.
Proof.
  intros H Hr Hf. split; [|lia]. destruct (Z.lt_ge_cases r (data_start f)) as [Hl|]; [|lia].
  rewrite (ly_meta _ _ _ H r) in Hf by lia. done.
Qed.

Lemma layout_mono L L2 f start : layout L f start ->
  (forall a, 0 <= a < sb_size f -> allocated L f a = true -> allocated L2 f a = true) -> layout L2 f start.
Proof.
  intros [[A1 A2 A3 A4 A5] B C D E] Hm. split; [split; auto| |done|done|done].
  - intros b Hb Hlt. apply Hm; [|by apply A4]. pose proof (u32_range (b / BPB + sb_bmapstart f)). unfold BBLOCK in *. lia.
  - intros b Hb Hlt. apply Hm; [lia|]. by apply B.
Qed.

(** Contents change in blocks that are not part of the map. *)
Lemma allocated_upd L f b d c : b <> BBLOCK c f -> allocated (block_upd L b d) f c = allocated L f c.
Proof. intros Hne. unfold allocated. by rewrite block_upd_ne. Qed.

(** ** Taking a block *)

Section Take.
Context (L : Z -> list Z) (f : superblock) (start : Z) (x : inode) (r : Z).
Hypothesis Hly : layout L f start.
Hypothesis Hlen : forall b, length (L b) = bsize.
Hypothesis Hwf : file_wf L f x.
Hypothesis Hr : 0 <= r < sb_size f.
Hypothesis Hfree : allocated L f r = false.

Lemma taken_data : data_block f r.
Proof. by eapply free_data. Qed.

Lemma taken_new a : in_file L x a -> a <> r.
Proof. intros Ha ->. destruct (fw_data _ _ _ Hwf _ Ha) as (_ & E & _). congruence. Qed.

Lemma taken_pos : r <> 0.
Proof. pose proof taken_data as [A _]. pose proof (layout_start _ _ _ Hly). lia. Qed.

Lemma take_zero : take_block L f r r = replicate bsize 0.
Proof. unfold take_block. by rewrite block_upd_eq. Qed.

Lemma take_other a : a <> r -> (forall b, 0 <= b < sb_size f -> a <> BBLOCK b f) -> take_block L f r a = L a.
Proof. intros Hne Hm. unfold take_block. rewrite !block_upd_ne; [done|by apply not_eq_sym, Hm|done]. Qed.

Lemma take_file a : in_file L x a -> take_block L f r a = L a.
Proof.
  intros Ha. apply take_other; [by apply taken_new|]. intros b Hb. destruct (fw_data _ _ _ Hwf _ Ha) as (Hd & _). by eapply data_not_map.
Qed.

Lemma take_alloc c : 0 <= c < sb_size f -> allocated (take_block L f r) f c = bool_decide (r = c) || allocated L f c.
Proof. intros Hc. eapply allocated_take; [apply Hly|done|done|done|done]. Qed.

(** The empty slot [bn0] becomes [r]; the indirect block is as before. *)
Record slot_taken (L2 : Z -> list Z) (x2 : inode) (bn0 : Z) : Prop := {
  sk_slot : 0 <= bn0 < MAXFILE /\ mblock L x bn0 = 0;
  sk_same : x2 = set_i_addrs (i_addrs x2) x /\ length (i_addrs x2) = S ndirect /\ ind x2 = ind x;
  sk_block bn : 0 <= bn < MAXFILE -> mblock L2 x2 bn = if decide (bn = bn0) then r else mblock L x bn;
  sk_alloc c : 0 <= c < sb_size f -> allocated L2 f c = bool_decide (r = c) || allocated L f c;
  sk_bytes : bytes_ok (L2 r) /\ (ind x <> 0 -> bytes_ok (L2 (ind x)));
  sk_other a : a <> r -> (ind x <> 0 -> a <> ind x) -> (forall b, 0 <= b < sb_size f -> a <> BBLOCK b f) -> L2 a = L a;
}.

Lemma slot_taken_in L2 x2 bn0 a : slot_taken L2 x2 bn0 -> in_file L2 x2 a <-> in_file L x a \/ a = r.
Proof.
  intros [[Hb0 Hz] (_ & _ & Hi2) Hmb _ _ _]. unfold in_file. rewrite Hi2. split.
  - intros [Ha [E|(bn & Hbn & E)]]; [left; auto|]. rewrite Hmb in E by done. case_decide; [by right|]. left. split; [done|]. right. by exists bn.
  - intros [[Ha [E|(bn & Hbn & E)]]| ->].
    + auto.
    + split; [done|]. right. exists bn. split; [done|]. rewrite Hmb by done. rewrite decide_False; [done|]. intros ->. congruence.
    + split; [apply taken_pos|]. right. exists bn0. split; [done|]. rewrite Hmb by done. by rewrite decide_True.
Qed.

Lemma slot_taken_wf L2 x2 bn0 : slot_taken L2 x2 bn0 -> file_wf L2 f x2.
Proof.
  intros Hsk. pose proof (fun a => slot_taken_in L2 x2 bn0 a Hsk) as Hin. destruct Hsk as [[Hb0 Hz] (Hx2 & Hl2 & Hi2) Hmb Hall [Hbr Hbi] Hsame].
  pose proof taken_pos as Hrp. pose proof taken_data as Hrd.
  assert (Hslot : forall bn, 0 <= bn < MAXFILE -> mblock L x bn <> 0 -> mblock L x bn <> r).
  { intros bn Hbn Hnz. apply taken_new. split; [done|]. right. by exists bn. }
  split.
  - done.
  - rewrite Hx2. apply Hwf.
  - rewrite Hx2. apply Hwf.
  - intros bn Hbn Hlt. rewrite Hx2 in Hlt. change (i_size (set_i_addrs _ x)) with (i_size x) in Hlt.
    pose proof (fw_size _ _ _ Hwf). rewrite Hmb by (unfold BSIZE in *; lia). case_decide; [done|]. by apply (fw_there _ _ _ Hwf).
  - intros a [Ha| ->]%Hin; [|rewrite Hall, bool_decide_eq_true_2 by done; done].
    destruct (fw_data _ _ _ Hwf a Ha) as (A & B & C). split; [done|]. pose proof (layout_start _ _ _ Hly). destruct (A).
    rewrite Hall, B, orb_true_r by lia. split; [done|].
    destruct (decide (a = ind x)) as [->|Hne]; [apply Hbi, Ha|]. rewrite Hsame; [done|by apply taken_new|done|]. intros b Hb. by eapply data_not_map.
  - intros b c Hb Hc. rewrite !Hmb by done. repeat case_decide; intros Hnz E; subst; try done.
    + destruct (Hslot c Hc); congruence.
    + by destruct (Hslot b Hb Hnz).
    + by apply (fw_inj _ _ _ Hwf).
  - intros b Hb. rewrite Hmb, Hi2 by done. case_decide; intros Hnz; [|by apply (fw_ind _ _ _ Hwf)].
    intros E. apply (taken_new r); [|done]. split; [done|by left].
Qed.

Lemma slot_taken_ext L2 x2 bn0 : slot_taken L2 x2 bn0 -> fext f L x L2 x2.
Proof.
  intros Hsk. pose proof (fun a => slot_taken_in L2 x2 bn0 a Hsk) as Hin. destruct Hsk as [[Hb0 Hz] (Hx2 & Hl2 & Hi2) Hmb Hall [Hbr Hbi] Hsame].
  split.
  - done.
  - intros bn Hbn Hnz. rewrite Hmb by done. rewrite decide_False; [done|]. intros ->. done.
  - done.
  - intros a [Ha| ->]%Hin; auto.
  - intros a Ha. rewrite Hall, Hin by done. destruct (bool_decide_reflect (r = a)) as [->|Hne]; simpl; [naive_solver|].
    split; [auto|]. intros [?|[Hf| ->]]; [done| |done]. by apply (fw_data _ _ _ Hwf).
  - intros a Hm Hn. apply Hsame; [|intros Hi|done]; intros ->; apply Hn, Hin; [auto|]. left. split; auto.
Qed.

(** A direct slot. *)
Lemma take_direct bn : 0 <= bn < NDIRECT -> mblock L x bn = 0 ->
  slot_taken (take_block L f r) (set_i_addrs (<[Z.to_nat bn := r]> (i_addrs x)) x) bn.
Proof.
  intros Hbn Hz. pose proof (fw_len _ _ _ Hwf) as Hl. unfold NDIRECT, ndirect in *.
  assert (Hi : ind (set_i_addrs (<[Z.to_nat bn := r]> (i_addrs x)) x) = ind x).
  { unfold ind. cbn [i_addrs set_i_addrs]. rewrite list_lookup_insert_ne by (unfold ndirect; lia). done. }
  split.
  - split; [|done]. change MAXFILE with 268. lia.
  - split; [done|]. split; [|done]. cbn [i_addrs set_i_addrs]. by rewrite length_insert.
  - intros bn' Hbn'. unfold mblock. rewrite Hi. cbn [i_addrs set_i_addrs]. unfold NDIRECT. destruct (Z.ltb_spec bn' 12) as [Hlt|Hge].
    + case_decide as E; [subst bn'; by rewrite list_lookup_insert_eq by lia|]. rewrite list_lookup_insert_ne by lia. done.
    + rewrite decide_False by lia. destruct (Z.eqb_spec (ind x) 0) as [|Hnz]; [done|]. rewrite take_file; [done|]. split; auto.
  - apply take_alloc.
  - split; [rewrite take_zero; apply Forall_replicate; lia|]. intros Hnz. assert (Hf : in_file L x (ind x)) by (split; auto).
    rewrite take_file by done. by apply (fw_data _ _ _ Hwf).
  - intros b Hb _ Hm. by apply take_other.
Qed.

(** A slot of the indirect block. *)
Lemma take_indirect bn : NDIRECT <= bn < MAXFILE -> ind x <> 0 -> mblock L x bn = 0 ->
  let k := (4 * Z.to_nat (bn - NDIRECT))%nat in
  slot_taken (block_upd (take_block L f r) (ind x) (put_le 4 (L (ind x)) k r)) x bn.
Proof.
  intros Hbn Hnz Hz k. pose proof (mo_size _ _ _ (ly_map _ _ _ Hly)) as Hsz. change MAXFILE with 268 in *. unfold NDIRECT in *.
  assert (Hf : in_file L x (ind x)) by (split; auto). destruct (fw_data _ _ _ Hwf _ Hf) as (Hd & _ & Hb).
  assert (Hk : (k + 4 <= bsize)%nat) by (unfold k, bsize; lia).
  split.
  - split; [|done]. change MAXFILE with 268. lia.
  - split; [by destruct x|]. split; [apply Hwf|done].
  - intros bn' Hbn'. change MAXFILE with 268 in Hbn'. unfold mblock, NDIRECT in *. destruct (Z.ltb_spec bn' 12) as [Hlt|Hge].
    { rewrite decide_False by lia. done. }
    rewrite (proj2 (Z.eqb_neq _ _) Hnz) in *. rewrite block_upd_eq. case_decide as E.
    + subst bn'. fold k. rewrite get_put_eq by (rewrite Hlen; done). apply Z.mod_small. change (256 ^ Z.of_nat 4) with (2 ^ 32). lia.
    + rewrite get_put_ne; [done|by rewrite Hlen|]. unfold k. lia.
  - intros c Hc. rewrite allocated_upd; [by apply take_alloc|]. by eapply data_not_map.
  - split.
    + rewrite block_upd_ne by (by apply taken_new). rewrite take_zero. apply Forall_replicate. lia.
    + intros _. rewrite block_upd_eq. by apply bytes_ok_put.
  - intros b Hbr Hbi Hm. rewrite block_upd_ne by (by apply not_eq_sym, Hbi). by apply take_other.
Qed.

(** The indirect block itself; it is empty. *)
Lemma take_ind_block : ind x = 0 ->
  let x2 := set_i_addrs (<[ndirect := r]> (i_addrs x)) x in
  ind x2 = r /\ forall bn, 0 <= bn < MAXFILE -> mblock (take_block L f r) x2 bn = mblock L x bn.
Proof.
  intros Hz x2. pose proof (fw_len _ _ _ Hwf) as Hl. pose proof taken_pos as Hrp. unfold ndirect in *.
  assert (Hi : ind x2 = r) by (unfold ind, x2; cbn [i_addrs set_i_addrs]; by rewrite list_lookup_insert_eq by (unfold ndirect; lia)).
  split; [done|]. intros bn Hbn. change MAXFILE with 268 in Hbn. unfold mblock. rewrite Hi, Hz, (proj2 (Z.eqb_neq r 0) Hrp). unfold NDIRECT.
  destruct (Z.ltb_spec bn 12) as [Hlt|Hge]; [unfold x2; cbn [i_addrs set_i_addrs]; by rewrite list_lookup_insert_ne by (unfold ndirect; lia)|].
  cbn [Z.eqb]. rewrite take_zero. rewrite (get_le_ext 4 _ [] _ 0); [done|]. intros k Hk. unfold byte_at.
  rewrite lookup_replicate_2 by (unfold bsize; lia). done.
Qed.

Lemma take_ind_wf : ind x = 0 ->
  let L2 := take_block L f r in let x2 := set_i_addrs (<[ndirect := r]> (i_addrs x)) x in file_wf L2 f x2 /\ fext f L x L2 x2.
Proof.
  intros Hz L2 x2. destruct (take_ind_block Hz) as [Hi Hmb]. fold x2 L2 in Hi, Hmb. pose proof taken_pos as Hrp. pose proof taken_data as Hrd.
  assert (Hin : forall a, in_file L2 x2 a <-> in_file L x a \/ a = r).
  { intros a. unfold in_file. rewrite Hi, Hz. split.
    - intros [Ha [E|(bn & Hbn & E)]]; [auto|]. rewrite Hmb in E by done. left. split; [done|]. right. by exists bn.
    - intros [[Ha [E|(bn & Hbn & E)]]| ->]; [done| |auto]. split; [done|]. right. exists bn. by rewrite Hmb. }
  pose proof (layout_start _ _ _ Hly) as Hds. split; split.
  - unfold x2. cbn [i_addrs set_i_addrs]. rewrite length_insert. apply Hwf.
  - apply Hwf.
  - apply Hwf.
  - intros bn Hbn Hlt. pose proof (fw_size _ _ _ Hwf). change (i_size x2) with (i_size x) in Hlt.
    rewrite Hmb by (unfold BSIZE in *; lia). by apply (fw_there _ _ _ Hwf).
  - intros a [Ha| ->]%Hin.
    + destruct (fw_data _ _ _ Hwf a Ha) as (A & B & C). destruct (A). unfold L2. rewrite take_alloc, B, orb_true_r, take_file by (done || lia). done.
    + unfold L2. rewrite take_alloc, bool_decide_eq_true_2, take_zero by done. split; [done|]. split; [done|]. apply Forall_replicate. lia.
  - intros b c Hb Hc. rewrite !Hmb by done. by apply (fw_inj _ _ _ Hwf).
  - intros b Hb. rewrite Hmb, Hi by done. intros Hnz. apply taken_new. split; [done|]. right. by exists b.
  - done.
  - intros bn Hbn _. by apply Hmb.
  - done.
  - intros a [Ha| ->]%Hin; auto.
  - intros a Ha. unfold L2. rewrite take_alloc by done. fold L2. rewrite Hin. destruct (bool_decide_reflect (r = a)) as [->|Hne]; simpl; [naive_solver|].
    split; [auto|]. intros [?|[Hf| ->]]; [done| |done]. by apply (fw_data _ _ _ Hwf).
  - intros a Hm Hn. apply take_other; [|done]. intros ->. apply Hn, Hin. auto.
Qed.

End Take.

(** ** Replacing the contents of a block *)

Lemma write_block L f start x bn d :
  layout L f start -> file_wf L f x -> 0 <= bn < MAXFILE -> mblock L x bn <> 0 -> bytes_ok d ->
  let L2 := block_upd L (mblock L x bn) d in
  layout L2 f start /\ file_wf L2 f x /\ fext f L x L2 x /\ forall b, 0 <= b < MAXFILE -> mblock L2 x b = mblock L x b.
Proof.
  intros Hly Hwf Hbn Hnz Hd L2. assert (Hf : in_file L x (mblock L x bn)) by (split; [done|]; right; by exists bn).
  destruct (fw_data _ _ _ Hwf _ Hf) as (Hdata & _ & _).
  assert (Hall : forall c, 0 <= c < sb_size f -> allocated L2 f c = allocated L f c).
  { intros c Hc. apply allocated_upd. by eapply data_not_map. }
  assert (Hmb : forall b, 0 <= b < MAXFILE -> mblock L2 x b = mblock L x b).
  { intros b Hb. unfold mblock. destruct (b <? NDIRECT); [done|]. destruct (ind x =? 0); [done|]. unfold L2.
    rewrite block_upd_ne; [done|]. by apply (fw_ind _ _ _ Hwf). }
  assert (Hin : forall a, in_file L2 x a <-> in_file L x a).
  { intros a. unfold in_file. split; intros [Ha [E|(b & Hb & E)]]; auto; (split; [done|]); right; exists b; [rewrite Hmb in E|rewrite Hmb]; done. }
  split; [eapply layout_mono; [done|]; intros a Ha E; by rewrite Hall|]. split_and!; [split; try apply Hwf|split|done].
  - intros b Hb Hlt. pose proof (fw_size _ _ _ Hwf). rewrite Hmb by (unfold BSIZE in *; lia). by apply (fw_there _ _ _ Hwf).
  - intros a Ha%Hin. destruct (fw_data _ _ _ Hwf _ Ha) as (A & B & C). pose proof (layout_start _ _ _ Hly). destruct (A).
    rewrite Hall by lia. split; [done|]. split; [done|]. unfold L2, block_upd. by case_decide.
  - intros b c Hb Hc. rewrite !Hmb by done. by apply (fw_inj _ _ _ Hwf).
  - intros b Hb. rewrite Hmb by done. by apply (fw_ind _ _ _ Hwf).
  - by destruct x.
  - intros b Hb _. by apply Hmb.
  - done.
  - intros a Ha%Hin. by left.
  - intros a Ha. rewrite Hall, Hin by done. split; [auto|]. intros [?|Hfa]; [done|]. by apply (fw_data _ _ _ Hwf).
  - intros a _ Hn. unfold L2. apply block_upd_ne. intros <-. apply Hn, Hin, Hf.
Qed.

(** ** Composition *)

Lemma fext_refl f L x : (forall a, in_file L x a -> 0 <= a < sb_size f -> allocated L f a = true) -> fext f L x L x.
Proof. intros Ha. split; try done; [by destruct x|by left|]. intros a Hr. split; [auto|]. intros [?|?]; auto. Qed.

Lemma fext_in f L x L2 x2 a : fext f L x L2 x2 -> in_file L x a -> in_file L2 x2 a.
Proof.
  intros E [Ha [->|(bn & Hbn & <-)]]; (split; [done|]).
  - left. by rewrite (fe_ind _ _ _ _ _ E).
  - right. exists bn. split; [done|]. by apply (fe_block _ _ _ _ _ E).
Qed.

Lemma fext_trans f L1 x1 L2 x2 L3 x3 :
  (forall a, in_file L3 x3 a -> 0 <= a < sb_size f) -> fext f L1 x1 L2 x2 -> fext f L2 x2 L3 x3 -> fext f L1 x1 L3 x3.
Proof.
  intros Hr E1 E2. split.
  - rewrite (fe_same _ _ _ _ _ E2), (fe_same _ _ _ _ _ E1). done.
  - intros bn Hbn Hnz. rewrite (fe_block _ _ _ _ _ E2), (fe_block _ _ _ _ _ E1) by (rewrite ?(fe_block _ _ _ _ _ E1) by done; done). done.
  - intros Hnz. rewrite (fe_ind _ _ _ _ _ E2), (fe_ind _ _ _ _ _ E1) by (rewrite ?(fe_ind _ _ _ _ _ E1) by done; done). done.
  - intros a Ha. destruct (fe_new _ _ _ _ _ E2 a Ha) as [Ha2|Hn]; [by apply (fe_new _ _ _ _ _ E1)|]. right.
    apply not_true_is_false. intros Ht. pose proof (proj2 (fe_alloc _ _ _ _ _ E1 a (Hr _ Ha)) (or_introl Ht)). congruence.
  - intros a Ha. rewrite (fe_alloc _ _ _ _ _ E2), (fe_alloc _ _ _ _ _ E1) by done.
    split; [intros [[?|?]|?]; auto; right; by eapply fext_in|intros [?|?]; auto].
  - intros a Hm Hn. rewrite (fe_other _ _ _ _ _ E2), (fe_other _ _ _ _ _ E1); [done|done| |done|done].
    intros Hi. apply Hn. by eapply fext_in.
Qed.

Lemma wf_range L f start x a : layout L f start -> file_wf L f x -> in_file L x a -> 0 <= a < sb_size f.
Proof. intros Hly Hwf Ha. destruct (fw_data _ _ _ Hwf a Ha) as ([? ?] & _). pose proof (layout_start _ _ _ Hly). lia. Qed.

Lemma wf_refl L f x : file_wf L f x -> fext f L x L x.
Proof. intros Hwf. apply fext_refl. intros a Ha _. by apply (fw_data _ _ _ Hwf). Qed.

Lemma slot_range o : 0 <= o < MAXFILE * BSIZE -> 0 <= o / BSIZE < MAXFILE.
Proof. intros Ho. split; [apply Z.div_pos; [lia|done]|]. apply Z.div_lt_upper_bound; [done|]. lia. Qed.

(** The block that [readi] reads is that of the slot. *)
Lemma file_block_mblock L x bn : mblock L x bn <> 0 -> file_block L x bn = mblock L x bn.
Proof. unfold file_block, mblock, ind. destruct (bn <? NDIRECT); [done|]. by destruct (_ =? 0). Qed.

Lemma file_byte_mbyte L f x o : file_wf L f x -> 0 <= o < i_size x -> file_byte L x o = mbyte L x o.
Proof.
  intros Hwf Ho. unfold file_byte, mbyte. rewrite file_block_mblock; [done|]. apply (fw_there _ _ _ Hwf); [by apply Z.div_pos; [lia|done]|].
  pose proof (Z.mul_div_le o BSIZE ltac:(done)). lia.
Qed.

Lemma wf_file_ok L f x : file_wf L f x -> file_ok L x ∅.
Proof.
  intros Hwf. split; try apply Hwf.
  - intros bn Hbn Hlt. pose proof (fw_there _ _ _ Hwf bn Hbn Hlt) as Hnz. rewrite file_block_mblock by done. split; [done|].
    split; [intros j; by rewrite lookup_empty|]. apply (fw_data _ _ _ Hwf). split; [done|]. right. exists bn. split; [|done].
    pose proof (fw_size _ _ _ Hwf). unfold BSIZE in *. lia.
  - intros a Hlt Ha. split; [|intros j; by rewrite lookup_empty]. pose proof (fw_there _ _ _ Hwf NDIRECT ltac:(done) Hlt) as Hnz.
    unfold mblock in Hnz. cbn [NDIRECT Z.ltb Z.compare] in Hnz. unfold ind in Hnz. rewrite Ha in Hnz. simpl in Hnz.
    intros ->. done.
Qed.

(** The addresses of a file fit the inode on disk. *)
Lemma wf_dinode_ok L f start x : layout L f start -> file_wf L f x -> short_ok (i_type x) -> short_ok (i_major x) -> short_ok (i_minor x) ->
  short_ok (i_nlink x) -> dinode_ok (dinode_of x).
Proof.
  intros Hly Hwf H1 H2 H3 H4. pose proof (fw_len _ _ _ Hwf) as Hl. pose proof (fw_size _ _ _ Hwf) as Hs.
  split; try done; cbn [dinode_of d_size d_addrs].
  - unfold MAXFILE, NDIRECT, NINDIRECT, BSIZE in Hs. change (1024 / 4) with 256 in Hs. lia.
  - apply Forall_lookup. intros j a Ha. destruct (decide (a = 0)) as [->|Hnz]; [lia|]. pose proof (mo_size _ _ _ (ly_map _ _ _ Hly)).
    assert (Hin : in_file L x a); [|pose proof (wf_range _ _ _ _ _ Hly Hwf Hin); lia]. split; [done|]. pose proof (lookup_lt_Some _ _ _ Ha) as Hj.
    unfold ndirect in *. destruct (decide (j = 12%nat)) as [->|Hne]; [left; unfold ind; change ndirect with 12%nat; by rewrite Ha|].
    right. exists (Z.of_nat j). change MAXFILE with 268. split; [lia|]. unfold mblock, NDIRECT. rewrite (proj2 (Z.ltb_lt _ _)) by lia. by rewrite Nat2Z.id, Ha.
Qed.

(** Inodes of the same block have different places in it. *)
Lemma inode_place L f start m n : layout L f start -> 0 <= m < sb_ninodes f -> 0 <= n < sb_ninodes f -> m <> n -> IBLOCK m f = IBLOCK n f ->
  (dinode_off m + SIZEOF_DINODE <= dinode_off n \/ dinode_off n + SIZEOF_DINODE <= dinode_off m)%nat.
Proof.
  intros Hly Hm Hn Hne E. pose proof (ly_ninodes _ _ _ Hly). unfold IBLOCK in E. change IPB with 16 in E.
  assert (Ediv : m / 16 = n / 16).
  { pose proof (Z.div_pos m 16). pose proof (Z.div_pos n 16). pose proof (Z.div_lt_upper_bound m 16 (2 ^ 28)). pose proof (Z.div_lt_upper_bound n 16 (2 ^ 28)).
    unfold u32 in E. pose proof (Z.div_mod (m / 16 + sb_inodestart f) (2 ^ 32)). pose proof (Z.div_mod (n / 16 + sb_inodestart f) (2 ^ 32)). lia. }
  pose proof (Z.div_mod m 16). pose proof (Z.div_mod n 16). pose proof (Z.mod_pos_bound m 16). pose proof (Z.mod_pos_bound n 16).
  unfold dinode_off, SIZEOF_DINODE. change IPB with 16. lia.
Qed.

(** ** The blocks a write logs *)

Definition map_blocks (f : superblock) : list Z :=
  (fun k => sb_bmapstart f + Z.of_nat k) <$> seq 0 (Z.to_nat (sb_size f / BPB + 1)).

(** What was logged since [blks0]: blocks of the free map, the indirect block
    and the blocks of the file from slot [lo] to slot [hi]. *)
Definition logs_only (f : superblock) (L : Z -> list Z) (x : inode) (lo hi : Z) (blks0 blks : list Z) : Prop :=
  forall a, a ∈ blks -> a ∈ blks0 \/ a ∈ map_blocks f \/ a = ind x /\ a <> 0 \/
    exists bn, 0 <= bn < MAXFILE /\ lo <= bn < hi /\ mblock L x bn = a /\ a <> 0.

Lemma in_map_blocks L f start b : map_ok L f start -> 0 <= b < sb_size f -> BBLOCK b f ∈ map_blocks f.
Proof.
  intros Hm Hb. rewrite (BBLOCK_eq L f start) by done. pose proof (Z.div_pos b BPB ltac:(lia) BPB_pos).
  pose proof (Z.div_le_mono b (sb_size f) BPB ltac:(done)). apply list_elem_of_fmap. exists (Z.to_nat (b / BPB)).
  split; [lia|]. apply elem_of_seq. lia.
Qed.

Lemma logs_only_length f L x lo hi blks0 blks : NoDup blks -> lo <= hi -> logs_only f L x lo hi blks0 blks ->
  (length blks <= length blks0 + length (map_blocks f) + 1 + Z.to_nat (hi - lo))%nat.
Proof.
  intros Hnd Hlo Ho. set (U := blks0 ++ map_blocks f ++ [ind x] ++ ((fun k => mblock L x (lo + Z.of_nat k)) <$> seq 0 (Z.to_nat (hi - lo)))).
  assert (Hsub : blks ⊆+ U).
  { apply NoDup_submseteq; [done|]. intros a Ha. unfold U. rewrite !elem_of_app, list_elem_of_singleton, list_elem_of_fmap.
    destruct (Ho a Ha) as [?|[?|[[? _]|(bn & _ & Hbn & <- & _)]]]; auto. do 3 right. exists (Z.to_nat (bn - lo)).
    split; [f_equal; lia|]. apply elem_of_seq. lia. }
  apply submseteq_length in Hsub. unfold U in Hsub. rewrite !length_app, length_fmap, length_seq in Hsub. simpl in Hsub. lia.
Qed.

Lemma logs_only_refl f L x lo hi blks : logs_only f L x lo hi blks blks.
Proof. intros a Ha. by left. Qed.

Lemma logs_only_ext f L x L2 x2 lo hi lo2 hi2 blks0 blks :
  fext f L x L2 x2 -> lo2 <= lo -> hi <= hi2 -> logs_only f L x lo hi blks0 blks -> logs_only f L2 x2 lo2 hi2 blks0 blks.
Proof.
  intros E Hlo Hhi Ho a Ha. destruct (Ho a Ha) as [?|[?|[[-> Hz]|(bn & Hbn & Hr & <- & Hz)]]]; auto.
  - do 2 right. left. by rewrite (fe_ind _ _ _ _ _ E).
  - do 3 right. exists bn. split; [done|]. split; [lia|]. split; [|done]. by apply (fe_block _ _ _ _ _ E).
Qed.

Lemma logs_only_logged f L x lo hi blks0 blks b : logs_only f L x lo hi blks0 blks ->
  b ∈ map_blocks f \/ b = ind x /\ b <> 0 \/ (exists bn, 0 <= bn < MAXFILE /\ lo <= bn < hi /\ mblock L x bn = b /\ b <> 0) ->
  logs_only f L x lo hi blks0 (logged blks b).
Proof.
  intros Ho Hb a. unfold logged. case_decide; [apply Ho|]. rewrite elem_of_app, list_elem_of_singleton. intros [Ha| ->]; [by apply Ho|auto].
Qed.
