(* ===== verification/DirSpec.v ===== *)
(** * Directories and paths

    A directory as a list of entries: [dirlookup] finds the first entry with
    the name.  A path as the list of its elements: [skipelem] takes them off
    one by one. *)

From S2P Require Import Prelude Riscv Mem CString Kalloc Vm PageTable VmSpec UserCopy Spinlock Proc ProcSpec IoState SleepLock.
From S2P Require Import UserMem Bio BioSpec Bytes Log LogDisk LogSpec LogRecover.
From S2P Require Import Uart Printf DevSpec Fs Dir FsSpec InodeSpec ReadSpec.

(** ** Names *)

(** The bytes before the NUL, at most [n]. *)
Fixpoint cname (n : nat) (l : list Z) : list Z :=
  match n, l with
  | S n, c :: l => if c =? 0 then [] else c :: cname n l
  | _, _ => []
  end.

(** [namecmp] is 0 exactly on equal names. *)
Lemma name_diff_eq n p q : bytes_ok p -> bytes_ok q -> name_diff n p q = 0 <-> cname n p = cname n q.
Proof.
  revert p q. induction n as [|n IH]; intros p q Hp Hq; [done|].
  assert (Hhd : forall l, bytes_ok l -> 0 <= default 0 (head l) < 256 /\ bytes_ok (tail l) /\
    cname (S n) l = if default 0 (head l) =? 0 then [] else default 0 (head l) :: cname n (tail l)).
  { intros [|c l] Hl; [split; [simpl; lia|done]|]. apply Forall_cons in Hl as [Hc Hl]. done. }
  destruct (Hhd p Hp) as (Ra & Ta & ->), (Hhd q Hq) as (Rb & Tb & ->). cbn [name_diff].
  set (a := default 0 (head p)) in *. set (b := default 0 (head q)) in *. unfold ctrue.
  destruct (Z.eqb_spec a 0) as [Ea|Ea]; cbn [negb andb].
  - rewrite !u8_small by done. destruct (Z.eqb_spec b 0) as [Eb|Eb].
    + split; [done|lia].
    + split; [lia|done].
  - destruct (Z.eqb_spec a b) as [Eab|Eab].
    + rewrite <- Eab, (proj2 (Z.eqb_neq _ _) Ea), (IH _ _ Ta Tb). split; [by intros ->|congruence].
    + rewrite !u8_small by done. split; [lia|]. destruct (b =? 0); congruence.
Qed.

Lemma namecmp_eq p q : bytes_ok p -> bytes_ok q -> namecmp p q = 0 <-> cname DIRSIZ p = cname DIRSIZ q.
Proof. apply name_diff_eq. Qed.

(** ** Paths *)

(** The elements of a path, each cut off after [DIRSIZ] bytes. *)
Fixpoint elems_of (cur : list Z) (path : list Z) : list (list Z) :=
  let emit := if decide (cur = []) then [] else [take DIRSIZ (reverse cur)] in
  match path with
  | [] => emit
  | c :: path => if c =? SLASH then emit ++ elems_of [] path else elems_of (c :: cur) path
  end.
Definition path_elems (path : list Z) : list (list Z) := elems_of [] path.

Lemma skip_slashes_elems path : path_elems (skip_slashes path) = path_elems path.
Proof.
  induction path as [|c path IH]; [done|]. cbn [skip_slashes]. destruct (c =? SLASH) eqn:E; [|done].
  rewrite IH. unfold path_elems. cbn [elems_of]. by rewrite E.
Qed.

Lemma skip_slashes_head path : match skip_slashes path with c :: _ => c <> SLASH | [] => True end.
Proof. induction path as [|c path IH]; [done|]. cbn [skip_slashes]. by destruct (Z.eqb_spec c SLASH). Qed.

Lemma split_elem_elems path cur e r :
  split_elem path = (e, r) -> cur <> [] \/ e <> [] -> elems_of cur path = take DIRSIZ (reverse cur ++ e) :: path_elems r.
Proof.
  revert cur e. induction path as [|c path IH]; intros cur e Hs Hne; cbn [split_elem elems_of] in *.
  - injection Hs as <- <-. rewrite app_nil_r. destruct Hne; [|done]. by rewrite decide_False.
  - destruct (c =? SLASH) eqn:E.
    + injection Hs as <- <-. rewrite app_nil_r. destruct Hne; [|done]. rewrite decide_False by done.
      unfold path_elems. cbn [elems_of]. rewrite E. done.
    + destruct (split_elem path) as [e' r'] eqn:Es. injection Hs as <- <-.
      rewrite (IH (c :: cur) e' eq_refl) by (by left). rewrite reverse_cons, <- app_assoc. done.
Qed.

Lemma split_elem_app path : let '(e, r) := split_elem path in path = e ++ r.
Proof.
  induction path as [|c path IH]; [done|]. cbn [split_elem]. destruct (c =? SLASH); [done|].
  destruct (split_elem path) as [e r]. by rewrite IH.
Qed.

Lemma skip_slashes_length path : (length (skip_slashes path) <= length path)%nat.
Proof. induction path as [|c path IH]; [done|]. cbn [skip_slashes]. destruct (c =? SLASH); simpl; lia. Qed.

(** [skipelem] takes the first element off, and the path gets shorter. *)
Lemma skipelem_elems path :
  match skipelem path with
  | None => path_elems path = []
  | Some (rest, name) => path_elems path = name :: path_elems rest /\ (length rest < length path)%nat /\
      match rest with c :: _ => c <> SLASH | [] => True end
  end.
Proof.
  unfold skipelem. rewrite <- (skip_slashes_elems path). pose proof (skip_slashes_head path) as Hh.
  pose proof (skip_slashes_length path) as Hl. destruct (skip_slashes path) as [|c p]; [done|].
  destruct (split_elem (c :: p)) as [e r] eqn:Es. pose proof (split_elem_app (c :: p)) as Happ. rewrite Es in Happ.
  assert (He : e <> []).
  { cbn [split_elem] in Es. rewrite (proj2 (Z.eqb_neq _ _) Hh) in Es. destruct (split_elem p). injection Es as <- _. done. }
  assert (Hname : (if (DIRSIZ <=? length e)%nat then take DIRSIZ e else e) = take DIRSIZ e).
  { destruct (Nat.leb_spec DIRSIZ (length e)); [done|]. by rewrite take_ge by lia. }
  rewrite Hname. split_and!.
  - rewrite skip_slashes_elems. unfold path_elems at 1. by rewrite (split_elem_elems _ [] e r Es) by (by right).
  - apply (f_equal length) in Happ. rewrite length_app in Happ. pose proof (skip_slashes_length r).
    destruct e; [done|]. simpl in *. lia.
  - apply skip_slashes_head.
Qed.

(** ** Directories *)

(** Entry [k]: the inode number and the 14 bytes of the name. *)
Definition dirent_inum (L : Z -> list Z) (x : inode) (k : nat) : Z := get_le 2 (file_bytes L x (16 * Z.of_nat k) 16) 0.
Definition dirent_name (L : Z -> list Z) (x : inode) (k : nat) : list Z := drop 2 (file_bytes L x (16 * Z.of_nat k) 16).
Definition dir_len (x : inode) : nat := Z.to_nat (i_size x / 16).

(** Entry [k] is in use and has the name. *)
Definition entry_is (L : Z -> list Z) (x : inode) (name : list Z) (k : nat) : Prop :=
  dirent_inum L x k <> 0 /\ cname DIRSIZ name = cname DIRSIZ (dirent_name L x k).

(** The first entry with the name. *)
Definition dir_find (L : Z -> list Z) (x : inode) (name : list Z) (k : nat) : Prop :=
  (k < dir_len x)%nat /\ entry_is L x name k /\ forall j, (j < k)%nat -> ~ entry_is L x name j.

Lemma ld_bytes n m a k o : (o + n <= k)%nat -> ld n m (a + Z.of_nat o) = get_le n (bytes k m a) o.
Proof.
  revert o. induction n as [|n IH]; intros o Hn; [done|]. cbn [ld get_le]. rewrite <- IH by lia.
  unfold byte_at. rewrite lookup_bytes by lia. simpl default. do 2 f_equal. f_equal. lia.
Qed.

Section Dirs.
Context `{LinkerOk}.
Implicit Types (s : kernel) (ls : list lockid) (L : Z -> list Z) (h : gmap nat Z).

(** Memory, the buffer cache and the log's header changed, and the inode
    table became [tab]. *)
Definition dstep (i : nat) s (tab : list inode) s2 : Prop :=
  uframe i s s2 /\
  pfs s2 = set_bufs (bufs (pfs s2)) (set_lg (lg (pfs s2)) (set_urt (urt (pfs s2)) (set_itable tab (pfs s)))).

Lemma dstep_rstep i s s2 : rstep i s s2 -> dstep i s (itable (pfs s)) s2.
Proof. intros [A B]. split; [done|]. rewrite B. by destruct (pfs s). Qed.

Lemma dstep_trans i s1 t1 s2 t2 s3 : dstep i s1 t1 s2 -> dstep i s2 t2 s3 -> dstep i s1 t2 s3.
Proof. intros [A B] [C D]. split; [by eapply uframe_trans|]. rewrite D, B. done. Qed.

Lemma dstep_set i s s2 tab : kframe i s s2 -> pfs s2 = set_itable tab (pfs s) -> dstep i s tab s2.
Proof. intros A B. split; [by apply uframe_kframe|]. rewrite B. by destruct (pfs s). Qed.

Lemma klocal_dst n : 0 <= n <= 1024 -> kernel_dst klocal n.
Proof.
  pose proof klocal_layout as Hk. pose proof kern_layout. rewrite MAXVA_eq in Hk. unfold kernel_dst, PHYSTOP, KERNBASE in *. lia.
Qed.

(** Reading an entry into [de]. *)
Lemma read_dirent_wp {B} i ls me start nop L blks h dp x s k (cont : Z -> K B) (Q : B -> kernel -> Prop) :
  tx_state ls i s me start nop L blks h -> itable (pfs s) !! dp = Some x -> file_ok L x h ->
  (size h + length blks < nbuf)%nat -> (k < dir_len x)%nat ->
  (forall s2, rstep i s s2 -> tx_state ls i s2 me start nop L blks h ->
     bytes 16 (phys (pk s2)) klocal = file_bytes L x (16 * Z.of_nat k) 16 -> wp (cont SIZEOF_DIRENT) s2 Q) ->
  wp (bind (readi dp false klocal (16 * Z.of_nat k) SIZEOF_DIRENT) cont) s Q.
Proof.
  intros Htx Hx Hfo Hsz Hk HQ. pose proof (fo_size _ _ _ Hfo) as Hsize. unfold dir_len in Hk.
  pose proof (Z.div_mod (i_size x) 16). pose proof (Z.mod_pos_bound (i_size x) 16).
  unfold MAXFILE, NDIRECT, NINDIRECT, BSIZE in Hsize. change (1024 / 4) with 256 in Hsize. wp_step.
  eapply (readi_wp i false (fun _ => True) kernel_wrote kernel_dst ls me start nop L blks h dp x);
    [done|done|done|done|done|lia|done|]. cbv zeta.
  rewrite (proj2 (Z.ltb_ge _ _)) by lia. unfold SIZEOF_DIRENT. rewrite Z.min_l by lia. change (Z.to_nat 16) with 16%nat.
  split; [apply klocal_dst; lia|]. intros s2 R2 T2 _ [W2 _]. apply HQ; [done|done|].
  apply list_eq. intros j. destruct (decide (j < 16)%nat) as [Hj|Hj].
  - rewrite lookup_bytes by done. destruct (lookup_lt_is_Some_2 (file_bytes L x (16 * Z.of_nat k) 16) j) as [b Hb];
      [by rewrite length_file_bytes|]. rewrite Hb. f_equal. by apply W2.
  - rewrite !lookup_ge_None_2; [done|rewrite length_file_bytes; lia|rewrite length_bytes; lia].
Qed.

Lemma file_bytes_ok L x h off n : file_ok L x h -> 0 <= off -> off + Z.of_nat n <= i_size x -> bytes_ok (file_bytes L x off n).
Proof.
  intros Hfo Hoff Hend. apply Forall_fmap, Forall_seq. intros k Hk. unfold compose, file_byte, byte_at. simpl in Hk.
  destruct (fo_block _ _ _ Hfo ((off + Z.of_nat k) / BSIZE)) as (_ & _ & Hb).
  { apply Z.div_pos; [lia|done]. }
  { pose proof (Z.div_mod (off + Z.of_nat k) BSIZE ltac:(done)). pose proof (Z.mod_pos_bound (off + Z.of_nat k) BSIZE ltac:(done)). lia. }
  destruct (_ !! _) as [b|] eqn:E; simpl; [|lia]. unfold bytes_ok in Hb. rewrite Forall_lookup in Hb. by eapply Hb.
Qed.

Lemma dirlookup_loop_wp i ls me start nop L blks h dp x name fuel k s (Q : option (nat * Z) -> kernel -> Prop) :
  tx_state ls i s me start nop L blks h -> ItableLock ∉ ls -> itab_ok (itable (pfs s)) ->
  itable (pfs s) !! dp = Some x -> file_ok L x h -> i_size x mod 16 = 0 -> bytes_ok name ->
  (size h + length blks < nbuf)%nat -> (k <= dir_len x)%nat -> (dir_len x - k < fuel)%nat ->
  (forall j, (j < k)%nat -> ~ entry_is L x name j) ->
  (forall s2, rstep i s s2 -> tx_state ls i s2 me start nop L blks h ->
     (forall j, (j < dir_len x)%nat -> ~ entry_is L x name j) -> Q None s2) ->
  (forall s2 m e tab, dstep i s tab s2 -> tx_state ls i s2 me start nop L blks h -> dir_find L x name m ->
     iget_tab ROOTDEV (dirent_inum L x m) (itable (pfs s)) = Some (e, tab) -> Q (Some (e, 16 * Z.of_nat m)) s2) ->
  (forall m, dir_find L x name m -> is_Some (iget_tab ROOTDEV (dirent_inum L x m) (itable (pfs s)))) ->
  wp (dirlookup_loop fuel dp name (16 * Z.of_nat k)) s Q.
Proof.
  intros Htx Hni Hit Hx Hfo Hmod Hname Hsz. revert k s Htx Hit Hx. induction fuel as [|fuel IH];
    intros k s Htx Hit Hx Hk Hf Hno HN HS Hroom; [lia|].
  pose proof (fo_size _ _ _ Hfo) as Hsize. assert (Hdl : i_size x = 16 * Z.of_nat (dir_len x)).
  { unfold dir_len. pose proof (Z.div_mod (i_size x) 16). pose proof (Z.div_pos (i_size x) 16). lia. }
  unfold MAXFILE, NDIRECT, NINDIRECT, BSIZE in Hsize. change (1024 / 4) with 256 in Hsize.
  cbn [dirlookup_loop]. wp_step. apply (geti_wp s dp x); [done|].
  destruct (Z.ltb_spec (16 * Z.of_nat k) (i_size x)) as [Hlt|Hge]; cbn [negb].
  2:{ apply wp_ret, HN; [apply rstep_refl|done|]. intros j Hj. apply Hno. lia. }
  eapply (read_dirent_wp i ls me start nop L blks h dp x); [done|done|done|done|lia|]. intros s1 R1 T1 B1.
  rewrite Z.eqb_refl. cbn [negb]. destruct (rstep_same _ _ _ R1) as (I1 & _).
  assert (Hinum : ld 2 (phys (pk s1)) klocal = dirent_inum L x k).
  { unfold dirent_inum. rewrite <- B1, <- (ld_bytes 2 _ klocal 16 0) by lia. by rewrite Z.add_0_r. }
  assert (Hnm : bytes DIRSIZ (phys (pk s1)) (klocal + 2) = dirent_name L x k).
  { unfold dirent_name. rewrite <- B1. change 16%nat with (2 + DIRSIZ)%nat. rewrite bytes_app, drop_app_length'; [done|].
    by rewrite length_bytes. }
  assert (Hnext : ~ entry_is L x name k -> wp (dirlookup_loop fuel dp name (u32 (16 * Z.of_nat k + SIZEOF_DIRENT))) s1 Q).
  { intros Hne. unfold SIZEOF_DIRENT. rewrite u32_small by lia.
    replace (16 * Z.of_nat k + 16) with (16 * Z.of_nat (S k)) by lia.
    apply IH; rewrite ?I1; [done|done|done|lia|lia| | | |done].
    - intros j Hj. destruct (decide (j = k)) as [->|]; [done|]. apply Hno. lia.
    - intros s2 R2. apply HN. by eapply rstep_trans.
    - intros s2 m e tab D2. apply HS. eapply dstep_trans; [by apply dstep_rstep|done]. }
  wp_step. unfold de_inum. wp_step. rewrite Hinum. destruct (Z.eqb_spec (dirent_inum L x k) 0) as [E0|E0].
  { apply Hnext. by intros [? _]. }
  wp_step. unfold de_name. wp_step. rewrite Hnm.
  assert (Hok2 : bytes_ok (dirent_name L x k)) by (apply Forall_drop; eapply file_bytes_ok; [done|lia|lia]).
  destruct (Z.eqb_spec (namecmp name (dirent_name L x k)) 0) as [En|En].
  2:{ apply Hnext. intros [_ Hc]. apply En. by apply namecmp_eq. }
  apply namecmp_eq in En; [|done|done]. assert (Hfind : dir_find L x name k) by (split_and!; [lia|done|done]).
  destruct (Hroom k Hfind) as [[e tab] Hg]. wp_step. apply (geti_wp s1 dp x); [by rewrite I1|].
  rewrite (fo_dev _ _ _ Hfo). wp_step. destruct (tx_slots _ _ _ _ _ _ _ _ _ T1) as (_ & Hls & _).
  eapply (iget_wp ls i s1 _ _ e tab); [by eapply tx_ready|done|lia|by rewrite I1|by rewrite I1|].
  intros s2 K2 E2. apply wp_ret. eapply HS; [|by eapply tx_set_itable|done|done].
  eapply dstep_trans; [by apply dstep_rstep|by apply dstep_set].
Qed.

(** Where the first entry with the name is found, its inode is referenced;
    without one the answer is none. *)
Lemma dirlookup_wp i ls me start nop L blks h dp x name s (Q : option (nat * Z) -> kernel -> Prop) :
  tx_state ls i s me start nop L blks h -> ItableLock ∉ ls -> itab_ok (itable (pfs s)) ->
  itable (pfs s) !! dp = Some x -> i_type x = T_DIR -> file_ok L x h -> i_size x mod 16 = 0 -> bytes_ok name ->
  (size h + length blks < nbuf)%nat ->
  (forall m, dir_find L x name m -> is_Some (iget_tab ROOTDEV (dirent_inum L x m) (itable (pfs s)))) ->
  (forall s2, rstep i s s2 -> tx_state ls i s2 me start nop L blks h ->
     (forall j, (j < dir_len x)%nat -> ~ entry_is L x name j) -> Q None s2) ->
  (forall s2 m e tab, dstep i s tab s2 -> tx_state ls i s2 me start nop L blks h -> dir_find L x name m ->
     iget_tab ROOTDEV (dirent_inum L x m) (itable (pfs s)) = Some (e, tab) -> Q (Some (e, 16 * Z.of_nat m)) s2) ->
  wp (dirlookup dp name) s Q.
Proof.
  intros Htx Hni Hit Hx Ht Hfo Hmod Hname Hsz Hroom HN HS. unfold dirlookup. wp_step. apply (geti_wp s dp x); [done|].
  rewrite Ht. change (T_DIR =? T_DIR) with true. cbn [negb]. change 0 with (16 * Z.of_nat 0).
  eapply dirlookup_loop_wp; [done|done|done|done|done|done|done|done|lia| |lia|done|done|done].
  pose proof (fo_size _ _ _ Hfo). unfold dir_turns, dir_len, SIZEOF_DIRENT. pose proof (Z.div_pos (i_size x) 16). lia.
Qed.

End Dirs.
