(* ===== verification/NameSpec.v ===== *)
(** * References to inodes and the resolution of paths

    How many references the table holds to each inode, and [namex]: it leads
    to the inode that the elements of the path name, one directory after the
    other, and gives back every other reference it took on the way. *)

From S2P Require Import Prelude Riscv Mem CString Kalloc Vm PageTable VmSpec UserCopy Spinlock Proc ProcSpec IoState SleepLock.
From S2P Require Import UserMem Bio BioSpec Bytes Log LogDisk LogSpec LogRecover.
From S2P Require Import Uart Printf DevSpec Fs Dir FsSpec InodeSpec ReadSpec DirSpec.

(** ** Counting references *)

Definition refs (tab : list inode) (dev inum : Z) : Z :=
  match list_find (entry_for dev inum) tab with Some (_, x) => i_ref x | None => 0 end.

(** Entries not in use. *)
Definition free_entries (tab : list inode) : nat := length (filter (fun x => i_ref x = 0) tab).

Definition one (P : Prop) `{Decision P} : Z := if decide P then 1 else 0.

Lemma one_range P `{Decision P} : 0 <= one P <= 1.
Proof. unfold one. case_decide; lia. Qed.

Lemma free_alter tab k x f : tab !! k = Some x ->
  Z.of_nat (free_entries (alter f k tab)) + one (i_ref x = 0) = Z.of_nat (free_entries tab) + one (i_ref (f x) = 0).
Proof.
  unfold free_entries. revert k. induction tab as [|y tab IH]; intros [|k] Hk; [done|done| |].
  - injection Hk as ->. simpl alter. rewrite !filter_cons. unfold one. repeat case_decide; simpl length; lia.
  - specialize (IH k Hk). simpl alter. rewrite !filter_cons. destruct (decide (i_ref y = 0)); simpl length; change (list_alter f k tab) with (alter f k tab); lia.
Qed.

Lemma free_find tab : (0 < free_entries tab)%nat -> is_Some (find_empty tab).
Proof.
  unfold free_entries, find_empty. intros Hf. destruct (list_find _ tab) as [[k x]|] eqn:E; [eauto|].
  apply list_find_None in E. assert (En : filter (fun x => i_ref x = 0) tab = []); [|rewrite En in Hf; simpl in Hf; lia].
  clear Hf. induction E as [|y l Hy _ IH]; [done|]. by rewrite filter_cons_False.
Qed.

Section Refs.
Implicit Types (tab : list inode).

Lemma refs_entry tab k x : itab_ok tab -> tab !! k = Some x -> 0 < i_ref x -> refs tab (i_dev x) (i_inum x) = i_ref x.
Proof.
  intros Hit Hk Hp. unfold refs. destruct (list_find _ tab) as [[j y]|] eqn:E.
  - apply list_find_Some in E as (Hj & (H1 & H2 & H3) & _). assert (j = k) as -> by (by eapply it_uniq).
    congruence.
  - apply list_find_None in E. rewrite Forall_lookup in E. exfalso. by apply (E k x Hk).
Qed.

Lemma refs_pos tab dev inum : 0 < refs tab dev inum ->
  exists k x, tab !! k = Some x /\ entry_for dev inum x /\ i_ref x = refs tab dev inum.
Proof.
  unfold refs. destruct (list_find _ tab) as [[k x]|] eqn:E; [|lia]. intros _.
  apply list_find_Some in E as (Hk & Hx & _). eauto.
Qed.

Lemma refs_nonneg tab dev inum : 0 <= refs tab dev inum.
Proof. unfold refs. destruct (list_find _ tab) as [[k x]|] eqn:E; [|lia]. apply list_find_Some in E as (_ & [Hx _] & _). lia. Qed.

(** The count from the entries. *)
Lemma refs_eq tab dev inum r :
  itab_ok tab -> 0 <= r ->
  (forall k x, tab !! k = Some x -> entry_for dev inum x -> i_ref x = r) ->
  (0 < r -> exists k x, tab !! k = Some x /\ entry_for dev inum x) -> refs tab dev inum = r.
Proof.
  intros Hit Hr Hall Hex. unfold refs. destruct (list_find _ tab) as [[k x]|] eqn:E.
  - apply list_find_Some in E as (Hk & Hx & _). by eapply Hall.
  - apply list_find_None in E. rewrite Forall_lookup in E. destruct (decide (0 < r)) as [Hp|]; [|lia].
    destruct (Hex Hp) as (k & x & Hk & Hx). exfalso. by apply (E k x Hk).
Qed.

(** Changing entry [k] from [x] to [f x]: an entry in use keeps its inode, and
    no other entry has it. *)
Section Alter.
Context (tab : list inode) (k : nat) (x : inode) (f : inode -> inode).
Hypothesis Hit : itab_ok tab.
Hypothesis Hk : tab !! k = Some x.
Hypothesis Hr : 0 <= i_ref (f x) < 2 ^ 31 - 1.
Hypothesis Hid : 0 < i_ref x -> i_dev (f x) = i_dev x /\ i_inum (f x) = i_inum x.
Hypothesis Huniq : forall j z, j <> k -> tab !! j = Some z -> 0 < i_ref z -> ~ (i_dev z = i_dev (f x) /\ i_inum z = i_inum (f x)).

Lemma lookup_alter_cases j z : alter f k tab !! j = Some z -> (j = k /\ z = f x) \/ (j <> k /\ tab !! j = Some z).
Proof using Hk.
  destruct (decide (j = k)) as [->|Hne].
  - rewrite list_lookup_alter_eq, Hk. intros [= <-]. by left.
  - rewrite list_lookup_alter_ne by done. by right.
Qed.

Lemma itab_alter : itab_ok (alter f k tab).
Proof using All.
  split.
  - rewrite length_alter. by apply it_len.
  - intros j z [[-> ->]|[_ Hj]]%lookup_alter_cases; [done|]. by eapply it_ref.
  - intros j1 j2 z1 z2 [[-> ->]|[N1 H1]]%lookup_alter_cases [[-> ->]|[N2 H2]]%lookup_alter_cases R1 R2 E1 E2; [done| | |].
    + exfalso. by eapply Huniq.
    + exfalso. by eapply Huniq.
    + by eapply it_uniq.
Qed.

Lemma refs_alter dev inum : refs (alter f k tab) dev inum =
  if decide (i_dev (f x) = dev /\ i_inum (f x) = inum) then i_ref (f x) else refs tab dev inum.
Proof using All.
  case_decide as Hd; apply refs_eq; try apply itab_alter.
  - lia.
  - intros j z [[-> ->]|[Hne Hj]]%lookup_alter_cases (R & E1 & E2); [done|]. exfalso.
    eapply (Huniq j z); [done|done|done|]. destruct Hd. split; congruence.
  - intros Hp. exists k, (f x). split; [by rewrite list_lookup_alter_eq, Hk|]. by split.
  - apply refs_nonneg.
  - intros j z [[-> ->]|[Hne Hj]]%lookup_alter_cases (R & E1 & E2); [by destruct Hd|].
    rewrite <- E1, <- E2. symmetry. by eapply refs_entry.
  - intros Hp. destruct (refs_pos _ _ _ Hp) as (j & z & Hj & Hz & _). exists j, z. split; [|done].
    rewrite list_lookup_alter_ne; [done|]. intros ->. rewrite Hk in Hj. injection Hj as ->.
    destruct Hz as (R & E1 & E2). destruct (Hid R) as [E3 E4]. apply Hd. split; congruence.
Qed.

End Alter.

(** A change of the count of an entry in use. *)
Lemma alter_used tab k x f : itab_ok tab -> tab !! k = Some x -> 0 < i_ref x ->
  0 <= i_ref (f x) < 2 ^ 31 - 1 -> i_dev (f x) = i_dev x -> i_inum (f x) = i_inum x ->
  itab_ok (alter f k tab) /\ forall dev inum, refs (alter f k tab) dev inum =
    if decide (i_dev x = dev /\ i_inum x = inum) then i_ref (f x) else refs tab dev inum.
Proof.
  intros Hit Hk Hp Hr E1 E2. assert (Hu : forall j z, j <> k -> tab !! j = Some z -> 0 < i_ref z ->
    ~ (i_dev z = i_dev (f x) /\ i_inum z = i_inum (f x))).
  { intros j z Hne Hj Hz [? ?]. apply Hne. eapply it_uniq; [done|exact Hj|exact Hk|done|done|congruence|congruence]. }
  split; [by eapply itab_alter|]. intros dev inum. rewrite (refs_alter tab k x) by done. by rewrite E1, E2.
Qed.

(** [iget] adds one reference to its inode. *)
Lemma iget_tab_refs tab dev inum k tab2 : itab_ok tab -> iget_tab dev inum tab = Some (k, tab2) ->
  refs tab dev inum < 2 ^ 31 - 2 ->
  itab_ok tab2 /\ (exists y, tab2 !! k = Some y /\ entry_for dev inum y) /\ (forall j, j <> k -> tab2 !! j = tab !! j) /\
  forall d n, refs tab2 d n = refs tab d n + one (dev = d /\ inum = n).
Proof.
  intros Hit Hg Hmax. unfold iget_tab, find_entry in Hg. destruct (list_find (entry_for dev inum) tab) as [[j x]|] eqn:Ef.
  - injection Hg as <- <-. cbn [fst]. assert (Er : refs tab dev inum = i_ref x) by (unfold refs; by rewrite Ef).
    apply list_find_Some in Ef as (Hj & (Hp & <- & <-) & _). rewrite Er in Hmax.
    destruct (alter_used tab j x ref_up Hit Hj Hp) as [Ho Hrf]; [simpl; lia|done|done|]. split_and!; [done| | |].
    + exists (ref_up x). rewrite list_lookup_alter_eq, Hj. split; [done|]. split; [simpl; lia|done].
    + intros j' Hne. by rewrite list_lookup_alter_ne.
    + intros d n. rewrite Hrf. unfold one. case_decide as Hd; [|lia]. destruct Hd as [<- <-]. rewrite Er. done.
  - cbn [fmap option_fmap option_map] in Hg. unfold find_empty in Hg.
    destruct (list_find (fun x => i_ref x = 0) tab) as [[j x]|] eqn:Ee; [|done].
    injection Hg as <- <-. apply list_find_Some in Ee as (Hj & Hz & _).
    assert (Hu : forall j' z, j' <> j -> tab !! j' = Some z -> 0 < i_ref z ->
      ~ (i_dev z = i_dev (fresh_entry dev inum x) /\ i_inum z = i_inum (fresh_entry dev inum x))).
    { intros j' z _ Hj' Hpz Hid. apply list_find_None in Ef. rewrite Forall_lookup in Ef. by apply (Ef j' z Hj'). }
    assert (E0 : refs tab dev inum = 0) by (unfold refs; by rewrite Ef). split_and!.
    + eapply itab_alter; [done|done|done|lia|done].
    + exists (fresh_entry dev inum x). rewrite list_lookup_alter_eq, Hj. done.
    + intros j' Hne. by rewrite list_lookup_alter_ne.
    + intros d n. rewrite (refs_alter tab j x) by (done || lia). cbn [fresh_entry i_dev i_inum i_ref set_i_valid set_i_ref set_i_inum set_i_dev].
      unfold one. case_decide as Hd; [|lia]. destruct Hd as [<- <-]. rewrite E0. done.
Qed.

Lemma iget_tab_room tab dev inum : (0 < free_entries tab)%nat -> is_Some (iget_tab dev inum tab).
Proof. intros Hf. unfold iget_tab. destruct (find_entry _ _ _); [eauto|]. destruct (free_find tab Hf) as [j ->]. eauto. Qed.

End Refs.

(** ** Directories as maps, paths as walks *)

(** Inode [inum] as it is on disk. *)
Definition inode_on (L : Z -> list Z) (f : superblock) (inum : Z) : inode :=
  with_dinode (on_disk L f inum) (Inode ROOTDEV inum 1 (SleepLock 0 0) 1 0 0 0 0 0 []).

#[export] Instance entry_is_dec L x name k : Decision (entry_is L x name k).
Proof. unfold entry_is. apply _. Defined.

(** The inode number behind a name. *)
Definition dir_lookup (L : Z -> list Z) (f : superblock) (d : Z) (name : list Z) : option Z :=
  let x := inode_on L f d in
  (fun kv => dirent_inum L x (snd kv)) <$> list_find (entry_is L x name) (seq 0 (dir_len x)).

(** Following the elements of a path from directory [d] on: to the last one,
    or, for the parent, to the one before. *)
Fixpoint walk (L : Z -> list Z) (f : superblock) (parent : bool) (d : Z) (es : list (list Z)) : option Z :=
  match es with
  | [] => if parent then None else Some d
  | e :: es' =>
      if negb (d_type (on_disk L f d) =? T_DIR) then None
      else if parent && bool_decide (es' = []) then Some d
      else match dir_lookup L f d e with Some n => walk L f parent n es' | None => None end
  end.

(** A consistent set of inodes: allocated and linked; the entries of the
    directories among them lead to inodes of the set. *)
Record tree_ok (L : Z -> list Z) (f : superblock) (P : Z -> Prop) : Prop := {
  tr_type d : P d -> d_type (on_disk L f d) <> 0 /\ d_nlink (on_disk L f d) <> 0;
  tr_dir d : P d -> d_type (on_disk L f d) = T_DIR ->
    file_ok L (inode_on L f d) ∅ /\ d_size (on_disk L f d) mod 16 = 0;
  tr_entry d k : P d -> d_type (on_disk L f d) = T_DIR -> (k < dir_len (inode_on L f d))%nat ->
    dirent_inum L (inode_on L f d) k <> 0 -> P (dirent_inum L (inode_on L f d) k);
}.

(** An unlocked entry; in use, it is for a block of the disk, and up to date. *)
Definition coherent (L : Z -> list Z) (f : superblock) (x : inode) : Prop :=
  0 < i_ref x -> i_dev x = ROOTDEV /\ (i_valid x <> 0 -> dinode_of x = on_disk L f (i_inum x)).
Definition idle (L : Z -> list Z) (f : superblock) (x : inode) : Prop := i_lock x = SleepLock 0 0 /\ coherent L f x.

(** The same contents. *)
Lemma file_same L x y : i_addrs x = i_addrs y -> forall off n, file_bytes L x off n = file_bytes L y off n.
Proof.
  intros E off n. unfold file_bytes, file_byte. apply list_fmap_ext. intros k z _.
  assert (Eb : forall bn, file_block L x bn = file_block L y bn) by (intros; unfold file_block; by rewrite E). by rewrite Eb.
Qed.

Lemma entry_is_same L x y name k : i_addrs x = i_addrs y -> entry_is L x name k <-> entry_is L y name k.
Proof. intros E. unfold entry_is, dirent_inum, dirent_name. by rewrite !(file_same L x y E). Qed.

Lemma file_ok_same L x y h : i_addrs x = i_addrs y -> i_dev x = i_dev y -> i_size x = i_size y -> file_ok L y h -> file_ok L x h.
Proof.
  intros E1 E2 E3 [A1 A2 A3 A4 A5]. split; rewrite ?E1, ?E2, ?E3; try done.
  intros bn Hbn Hlt. unfold file_block in *. rewrite E1. by apply A4.
Qed.

Lemma disk_members L f d x : dinode_of x = on_disk L f d ->
  i_addrs x = i_addrs (inode_on L f d) /\ i_size x = i_size (inode_on L f d) /\
  i_type x = d_type (on_disk L f d) /\ i_nlink x = d_nlink (on_disk L f d).
Proof. intros E. unfold inode_on. rewrite <- E. by destruct x. Qed.

Lemma dir_find_lookup L f d x name m : dinode_of x = on_disk L f d -> dir_find L x name m ->
  dir_lookup L f d name = Some (dirent_inum L x m).
Proof.
  intros Ed (Hm & He & Hno). destruct (disk_members _ _ _ _ Ed) as (Ea & Es & _).
  unfold dir_len in Hm. rewrite Es in Hm.
  assert (Hf : list_find (entry_is L (inode_on L f d) name) (seq 0 (dir_len (inode_on L f d))) = Some (m, m)).
  { apply list_find_Some. split; [by apply lookup_seq_lt|]. split; [by rewrite <- (entry_is_same L x)|].
    intros j y Hj Hlt. apply lookup_seq in Hj as [-> Hj]. rewrite <- (entry_is_same L x) by done. by apply Hno. }
  unfold dir_lookup. rewrite Hf. cbn [fmap option_fmap option_map snd]. f_equal. unfold dirent_inum. by rewrite (file_same L x (inode_on L f d)).
Qed.

Lemma dir_none_lookup L f d x name : dinode_of x = on_disk L f d ->
  (forall j, (j < dir_len x)%nat -> ~ entry_is L x name j) -> dir_lookup L f d name = None.
Proof.
  intros Ed Hno. destruct (disk_members _ _ _ _ Ed) as (Ea & Es & _).
  unfold dir_len in Hno. rewrite Es in Hno.
  assert (Hf : list_find (entry_is L (inode_on L f d) name) (seq 0 (dir_len (inode_on L f d))) = None).
  { apply list_find_None, Forall_forall. intros j Hj%elem_of_seq. rewrite <- (entry_is_same L x) by done. apply Hno. unfold dir_len in Hj. lia. }
  unfold dir_lookup. by rewrite Hf.
Qed.

(** ** Steps of the table *)

(** What [iget] changed. *)
Lemma iget_tab_at tab dev inum e tab2 : iget_tab dev inum tab = Some (e, tab2) ->
  exists z, tab !! e = Some z /\
    ((entry_for dev inum z /\ tab2 = alter ref_up e tab) \/
     (i_ref z = 0 /\ tab2 = alter (fresh_entry dev inum) e tab)).
Proof.
  unfold iget_tab, find_entry, find_empty. intros Hg. destruct (list_find (entry_for dev inum) tab) as [[j x]|] eqn:Ef.
  - injection Hg as <- <-. apply list_find_Some in Ef as (Hj & Hx & _). exists x. auto.
  - cbn [fmap option_fmap option_map] in Hg. destruct (list_find (fun x => i_ref x = 0) tab) as [[j x]|] eqn:Ee; [|done].
    injection Hg as <- <-. apply list_find_Some in Ee as (Hj & Hx & _). exists x. auto.
Qed.

(** Unlocking and dropping a reference. *)
Definition put_entry (x : inode) : inode := set_i_ref (i_ref x - 1) (set_i_lock (SleepLock 0 0) x).

Lemma put_refs tab k x : itab_ok tab -> tab !! k = Some x -> 0 < i_ref x ->
  itab_ok (alter put_entry k tab) /\
  forall dev inum, refs (alter put_entry k tab) dev inum = refs tab dev inum - one (i_dev x = dev /\ i_inum x = inum).
Proof.
  intros Hit Hk Hp. pose proof (it_ref _ Hit _ _ Hk). destruct (alter_used tab k x put_entry Hit Hk Hp) as [Ho Hr]; [simpl; lia|done|done|].
  split; [done|]. intros dev inum. rewrite Hr. unfold one. case_decide as Hd; [|lia]. destruct Hd as [<- <-].
  by rewrite (refs_entry tab k x).
Qed.

(** ** The table during a walk *)

Section Walk.
Context (L : Z -> list Z) (f : superblock) (R : Z -> Z -> Z) (me : Z).
Implicit Types (tab : list inode).

(** One reference too many for inode [d], held by entry [k]. *)
Record tab_at tab (k : nat) (d : Z) (x : inode) : Prop := {
  ta_ok : itab_ok tab;
  ta_idle j y : tab !! j = Some y -> idle L f y;
  ta_entry : tab !! k = Some x;
  ta_for : entry_for ROOTDEV d x;
  ta_room : 2 <= Z.of_nat (free_entries tab) + one (i_ref x = 1);
  ta_refs dev m : refs tab dev m = R dev m + one (ROOTDEV = dev /\ d = m);
}.

(** The same with the entry locked and read. *)
Record tab_locked tab (k : nat) (d : Z) (x : inode) : Prop := {
  tl_ok : itab_ok tab;
  tl_idle j y : j <> k -> tab !! j = Some y -> idle L f y;
  tl_entry : tab !! k = Some x;
  tl_for : entry_for ROOTDEV d x;
  tl_lock : i_lock x = SleepLock 1 me;
  tl_disk : dinode_of x = on_disk L f d;
  tl_room : 2 <= Z.of_nat (free_entries tab) + one (i_ref x = 1);
  tl_refs dev m : refs tab dev m = R dev m + one (ROOTDEV = dev /\ d = m);
}.

(** No reference of one's own. *)
Record tab_none tab : Prop := {
  tn_ok : itab_ok tab;
  tn_idle j y : tab !! j = Some y -> idle L f y;
  tn_refs dev m : refs tab dev m = R dev m;
}.

Lemma dinode_of_loaded x : dinode_of (loaded L f x) = on_disk L f (i_inum x).
Proof. unfold loaded. generalize (on_disk L f (i_inum x)). intros dx. by destruct x, dx. Qed.

Lemma alter_same_ref tab k x g : itab_ok tab -> tab !! k = Some x -> 0 < i_ref x ->
  i_ref (g x) = i_ref x -> i_dev (g x) = i_dev x -> i_inum (g x) = i_inum x ->
  itab_ok (alter g k tab) /\ (forall dev m, refs (alter g k tab) dev m = refs tab dev m) /\
  free_entries (alter g k tab) = free_entries tab.
Proof.
  intros Hit Hk Hp E1 E2 E3. pose proof (it_ref _ Hit _ _ Hk). destruct (alter_used tab k x g) as [Ho Hr]; try done; [lia|].
  split_and!; [done| |].
  - intros dev m. rewrite Hr. case_decide as Hd; [|done]. destruct Hd as [<- <-]. by rewrite E1, (refs_entry tab k x).
  - pose proof (free_alter tab k x g Hk) as Hf. rewrite E1 in Hf. lia.
Qed.

Lemma lock_tab tab k d x : tab_at tab k d x ->
  tab_locked (alter (locked_entry me L f) k tab) k d (locked_entry me L f x).
Proof.
  intros [Hit Hid Hk (Hp & Hdev & Hin) Hroom Hrefs]. destruct (Hid k x Hk) as [_ Hco]. destruct (Hco Hp) as [_ Hdk].
  assert (Em : i_ref (locked_entry me L f x) = i_ref x /\ i_dev (locked_entry me L f x) = i_dev x /\
    i_inum (locked_entry me L f x) = i_inum x /\ i_lock (locked_entry me L f x) = SleepLock 1 me /\
    dinode_of (locked_entry me L f x) = on_disk L f d).
  { unfold locked_entry. destruct (Z.eqb_spec (i_valid x) 0) as [E|E].
    - split_and!; [done|done|done|done|]. rewrite dinode_of_loaded. cbn [i_inum set_i_lock]. by rewrite Hin.
    - split_and!; try done. rewrite <- Hin. by apply Hdk. }
  destruct Em as (E1 & E2 & E3 & E4 & E5).
  destruct (alter_same_ref tab k x (locked_entry me L f) Hit Hk Hp E1 E2 E3) as (Ho & Hr & Hf). split; try done.
  - intros j y Hne. rewrite list_lookup_alter_ne by done. by apply Hid.
  - by rewrite list_lookup_alter_eq, Hk.
  - split; [lia|]. split; congruence.
  - by rewrite E1, Hf.
  - intros dev m. by rewrite Hr.
Qed.

Lemma unlock_tab tab k d x : tab_locked tab k d x ->
  tab_at (alter (set_i_lock (SleepLock 0 0)) k tab) k d (set_i_lock (SleepLock 0 0) x).
Proof.
  intros [Hit Hid Hk Hfor Hlk Hdk Hroom Hrefs]. pose proof Hfor as (Hp & Hdev & Hin).
  destruct (alter_same_ref tab k x (set_i_lock (SleepLock 0 0)) Hit Hk Hp eq_refl eq_refl eq_refl) as (Ho & Hr & Hf). split; try done.
  - intros j y [[-> ->]|[Hne Hj]]%(lookup_alter_cases tab k x _ Hk); [|by eapply Hid].
    split; [done|]. intros _. split; [done|]. intros _. change (dinode_of x = on_disk L f (i_inum x)). by rewrite Hin.
  - by rewrite list_lookup_alter_eq, Hk.
  - by rewrite Hf.
  - intros dev m. by rewrite Hr.
Qed.

Lemma put_tab tab k d x : tab_locked tab k d x -> tab_none (alter put_entry k tab).
Proof.
  intros [Hit Hid Hk (Hp & Hdev & Hin) Hlk Hdk Hroom Hrefs]. destruct (put_refs tab k x Hit Hk Hp) as [Ho Hr]. split; [done| |].
  - intros j y [[-> ->]|[Hne Hj]]%(lookup_alter_cases tab k x _ Hk); [|by eapply Hid].
    split; [done|]. intros _. split; [done|]. intros _. change (dinode_of x = on_disk L f (i_inum x)). by rewrite Hin.
  - intros dev m. rewrite Hr, Hrefs, Hdev, Hin. lia.
Qed.

Lemma put_tab_at tab k d x : tab_at tab k d x -> tab_none (alter (fun x => set_i_ref (i_ref x - 1) x) k tab).
Proof.
  intros [Hit Hid Hk (Hp & Hdev & Hin) Hroom Hrefs]. destruct (Hid k x Hk) as [Hlk Hco].
  assert (Ea : alter (fun x => set_i_ref (i_ref x - 1) x) k tab = alter put_entry k tab).
  { apply list_alter_ext; [|done]. intros y Hy. rewrite Hk in Hy. injection Hy as <-. unfold put_entry. rewrite <- Hlk. by destruct x. }
  rewrite Ea. destruct (put_refs tab k x Hit Hk Hp) as [Ho Hr]. split; [done| |].
  - intros j y [[-> ->]|[Hne Hj]]%(lookup_alter_cases tab k x _ Hk); [|by eapply Hid].
    split; [done|]. intros _. split; [done|]. intros Hv. by apply (Hco Hp).
  - intros dev m. rewrite Hr, Hrefs, Hdev, Hin. lia.
Qed.

(** On to another inode: its entry gains a reference, the one before is
    unlocked and given back. *)
Lemma next_tab_ne tab k d x n e z g : tab_locked tab k d x -> e <> k -> tab !! e = Some z ->
  i_ref (g z) = i_ref z + 1 -> entry_for ROOTDEV n (g z) -> idle L f (g z) -> itab_ok (alter g e tab) ->
  (forall dev m, refs (alter g e tab) dev m = refs tab dev m + one (ROOTDEV = dev /\ n = m)) ->
  tab_at (alter put_entry k (alter g e tab)) e n (g z).
Proof.
  intros [Hit Hid Hk (Hp & Hdev & Hin) Hlk Hdk Hroom Hrefs] Hne He Eg Hfor Hidle Hit2 Hr2.
  assert (Hk2 : alter g e tab !! k = Some x) by (by rewrite list_lookup_alter_ne).
  destruct (put_refs _ k x Hit2 Hk2 Hp) as [Ho Hr]. split; try done.
  - intros j y [[-> ->]|[N1 Hj]]%(lookup_alter_cases _ k x _ Hk2).
    + split; [done|]. intros _. split; [done|]. intros _. change (dinode_of x = on_disk L f (i_inum x)). by rewrite Hin.
    + apply (lookup_alter_cases tab e z g He) in Hj as [[-> ->]|[N2 Hj]]; [done|by eapply Hid].
  - rewrite list_lookup_alter_ne, list_lookup_alter_eq, He by done. done.
  - pose proof (free_alter _ k x put_entry Hk2) as F1. pose proof (free_alter tab e z g He) as F2.
    change (i_ref (put_entry x)) with (i_ref x - 1) in F1. pose proof (it_ref _ Hit _ _ He).
    unfold one in *. rewrite Eg in *. repeat case_decide; lia.
  - intros dev m. rewrite Hr, Hr2, Hrefs, Hdev, Hin. lia.
Qed.

Lemma next_tab tab k d x n e tab2 : tab_locked tab k d x -> iget_tab ROOTDEV n tab = Some (e, tab2) ->
  (forall dev m, R dev m < 2 ^ 31 - 3) ->
  itab_ok tab2 /\ (exists y, tab2 !! k = Some y /\ 0 < i_ref y /\ i_lock y = SleepLock 1 me /\ i_nlink y = i_nlink x) /\
  exists z, tab_at (alter put_entry k tab2) e n z.
Proof.
  intros Hl Hg HR. pose proof Hl as [Hit Hid Hk (Hp & Hdev & Hin) Hlk Hdk Hroom Hrefs].
  destruct (iget_tab_refs tab ROOTDEV n e tab2 Hit Hg) as (Hit2 & _ & Hsame & Hr2).
  { rewrite Hrefs. specialize (HR ROOTDEV n). pose proof (one_range (ROOTDEV = ROOTDEV /\ d = n)). lia. }
  split; [done|]. destruct (iget_tab_at _ _ _ _ _ Hg) as (z & He & Hz). destruct (decide (e = k)) as [->|Hne].
  - rewrite Hk in He. injection He as <-. destruct Hz as [[(_ & _ & Hn) ->]|[Hz _]]; [|lia]. split.
    + exists (ref_up x). rewrite list_lookup_alter_eq, Hk. split; [done|]. split; [simpl; lia|done].
    + exists (set_i_lock (SleepLock 0 0) x). rewrite list_alter_alter_eq.
      rewrite (list_alter_ext _ (set_i_lock (SleepLock 0 0)) _ tab); [|intros y Hy|done].
      * rewrite <- Hn, Hin. by apply unlock_tab.
      * unfold compose, put_entry, ref_up. cbn [i_ref set_i_ref set_i_lock]. rewrite Z.add_simpl_r. by destruct y.
  - split; [exists x; by rewrite Hsame|]. destruct (Hid e z Hne He) as [Zl Zc].
    destruct Hz as [[(Zp & Zd & Zn) ->]|[Zr ->]]; eexists; eapply (next_tab_ne tab k d x n e z); try done.
    + split; [simpl; lia|done].
    + split; [done|]. intros _. apply Zc. done.
    + simpl. lia.
Qed.

End Walk.

Section Names.
Context `{LinkerOk}.
Implicit Types (s : kernel) (ls : list lockid) (L : Z -> list Z).

Lemma dstep_istep i s tab s2 : istep i s tab s2 -> dstep i s tab s2.
Proof. intros [A B]. split; [by apply uframe_kframe|done]. Qed.

Lemma dstep_same i s tab s2 : dstep i s tab s2 ->
  itable (pfs s2) = tab /\ sb (pfs s2) = sb (pfs s) /\ panicked (pfs s2) = panicked (pfs s).
Proof. intros [_ B]. rewrite B. done. Qed.

Lemma iunlockput_wp ls i s me start n L blks h k x (Q : unit -> kernel -> Prop) :
  tx_state ls i s me start n L blks h -> ItableLock ∉ ls -> itab_ok (itable (pfs s)) ->
  itable (pfs s) !! k = Some x -> 0 < i_ref x -> i_lock x = SleepLock 1 me ->
  (1 < i_ref x \/ i_valid x = 0 \/ i_nlink x <> 0) ->
  (forall s2, istep i s (alter put_entry k (itable (pfs s))) s2 -> tx_state ls i s2 me start n L blks h -> Q tt s2) ->
  wp (iunlockput k) s Q.
Proof.
  intros Htx Hni Hit Hk Hp Hlk Hkeep HQ. pose proof (it_ref _ Hit _ _ Hk) as Hr. unfold iunlockput. wp_step.
  eapply (iunlock_wp ls i s); [done|done|lia|done|]. intros s1 S1 T1. destruct (istep_same _ _ _ _ S1) as (I1 & _).
  destruct (alter_used _ k x (set_i_lock (SleepLock 0 0)) Hit Hk Hp Hr eq_refl eq_refl) as [Ho1 _].
  destruct (tx_slots _ _ _ _ _ _ _ _ _ T1) as (_ & Hls & _).
  eapply (iput_wp ls i s1 k); [by eapply tx_ready|done|lia|by rewrite I1|by rewrite I1, list_lookup_alter_eq, Hk|done|done|].
  intros s2 K2 E2. apply HQ; [|by eapply tx_set_itable]. pose proof (istep_set _ _ _ _ K2 E2) as S2.
  rewrite I1, list_alter_alter_eq in S2. eapply istep_trans; [exact S1|exact S2].
Qed.

(** ** namex *)

Lemma skip_slashes_ok path : bytes_ok path -> bytes_ok (skip_slashes path).
Proof.
  induction path as [|c path IH]; [done|]. cbn [skip_slashes]. destruct (c =? SLASH); [|done].
  intros [_ Hp]%Forall_cons. by apply IH.
Qed.

Lemma skipelem_ok path rest name : bytes_ok path -> skipelem path = Some (rest, name) -> bytes_ok rest /\ bytes_ok name.
Proof.
  unfold skipelem. intros Hp%skip_slashes_ok. destruct (skip_slashes path) as [|c p]; [done|].
  destruct (split_elem (c :: p)) as [e r] eqn:Es. pose proof (split_elem_app (c :: p)) as Happ. rewrite Es in Happ.
  rewrite Happ in Hp. apply Forall_app in Hp as [He Hr]. destruct (DIRSIZ <=? length e)%nat; intros [= <- <-];
    (split; [by apply skip_slashes_ok|]); [by apply Forall_take|done].
Qed.

Section Loop.
Context (ls : list lockid) (i : nat) (me start n : Z) (L : Z -> list Z) (blks : list Z).
Context (f : superblock) (P : Z -> Prop) (R : Z -> Z -> Z).
Hypothesis Hni : ItableLock ∉ ls.
Hypothesis Htree : tree_ok L f P.
Hypothesis HR : forall dev m, R dev m < 2 ^ 31 - 3.
Hypothesis Hblks : (length blks < nbuf)%nat.

(** The outcome of following [es] from [d]: the inode at the end, with one
    more reference than before, or no inode and the references as before. *)
Definition walked s (np : bool) (d : Z) (es : list (list Z)) (name : list Z) (r : option nat * list Z) s2 : Prop :=
  exists tab, dstep i s tab s2 /\ tx_state ls i s2 me start n L blks ∅ /\
    match walk L f np d es with
    | Some m => P m /\ exists k x, r = (Some k, default name (last es)) /\ tab_at L f R tab k m x
    | None => r.1 = None /\ tab_none L f R tab
    end.

Lemma keep_entry x d : P d -> dinode_of x = on_disk L f d -> i_nlink x <> 0.
Proof. intros Hd E. destruct (disk_members _ _ _ _ E) as (_ & _ & _ & ->). by apply (tr_type _ _ _ Htree d). Qed.

(** Giving back the entry that is locked, at the end of a walk. *)
Lemma walk_stop s1 s k d x np e es name r (Q : option nat * list Z -> kernel -> Prop) :
  dstep i s (itable (pfs s1)) s1 -> tx_state ls i s1 me start n L blks ∅ ->
  tab_locked L f R me (itable (pfs s1)) k d x -> P d -> walk L f np d (e :: es) = None -> r.1 = None ->
  (forall r s2, walked s np d (e :: es) name r s2 -> Q r s2) -> wp (iunlockput k ;; ret r)%K s1 Q.
Proof.
  intros D1 T1 Tl Hd Hw Hr HQ. pose proof Tl as [Hit _ Hk (Hp & _ & _) Hlk Hdk _ _]. wp_step.
  eapply iunlockput_wp; [exact T1|done|done|exact Hk|done|done|right; right; by eapply keep_entry|].
  intros s2 S2 T2. apply wp_ret, HQ. exists (alter put_entry k (itable (pfs s1))). split_and!; [|done|].
  - eapply dstep_trans; [exact D1|]. by apply dstep_istep.
  - rewrite Hw. split; [done|]. by eapply put_tab.
Qed.

Lemma lock_walk s k d x (Q : unit -> kernel -> Prop) :
  tx_state ls i s me start n L blks ∅ -> sb (pfs s) = f -> tab_at L f R (itable (pfs s)) k d x -> P d ->
  (forall s1 y, dstep i s (itable (pfs s1)) s1 -> tx_state ls i s1 me start n L blks ∅ -> sb (pfs s1) = f ->
     tab_locked L f R me (itable (pfs s1)) k d y -> Q tt s1) -> wp (ilock (Some k)) s Q.
Proof.
  intros Htx Hsb Tat Hd HQ. pose proof Tat as [Hit Hid Hk (Hp & Hdev & Hin) _ _].
  eapply (ilock_wp ls i s me start n L blks ∅ k x); [done|done| |].
  - split; [lia|]. split; [done|]. split; [by apply (Hid k)|]. intros _. split; [intros j; by rewrite lookup_empty|].
    split; [by rewrite map_size_empty|]. rewrite Hin, Hsb. by apply (tr_type _ _ _ Htree d).
  - intros s1 S1 T1. destruct (istep_same _ _ _ _ S1) as (I1 & B1 & _). rewrite Hsb in *.
    apply (HQ s1 (locked_entry me L f x)); [rewrite I1; by apply dstep_istep|done|by rewrite B1|rewrite I1; by apply lock_tab].
Qed.

Lemma walked_trans s s1 np d es name r s2 :
  dstep i s (itable (pfs s1)) s1 -> walked s1 np d es name r s2 -> walked s np d es name r s2.
Proof. intros D1 (tab & D2 & Hw). exists tab. split; [by eapply dstep_trans|done]. Qed.

(** The next directory: its entry is found, and the current one given back. *)
Lemma next_walk s1 k d x e (Q : option (nat * Z) -> kernel -> Prop) :
  tx_state ls i s1 me start n L blks ∅ -> tab_locked L f R me (itable (pfs s1)) k d x -> sb (pfs s1) = f -> P d ->
  d_type (on_disk L f d) = T_DIR -> bytes_ok e ->
  (forall s2, dir_lookup L f d e = None -> dstep i s1 (itable (pfs s2)) s2 -> tx_state ls i s2 me start n L blks ∅ ->
     tab_locked L f R me (itable (pfs s2)) k d x -> Q None s2) ->
  (forall s2 j off m, dir_lookup L f d e = Some m -> P m -> dstep i s1 (itable (pfs s2)) s2 ->
     tx_state ls i s2 me start n L blks ∅ -> iget_tab ROOTDEV m (itable (pfs s1)) = Some (j, itable (pfs s2)) ->
     Q (Some (j, off)) s2) ->
  wp (dirlookup k e) s1 Q.
Proof.
  intros T1 Tl Hsb Hd Hty He HN HS. pose proof Tl as [Hit _ Hk (Hp & Hdev & Hin) Hlk Hdk Hroom _].
  destruct (disk_members _ _ _ _ Hdk) as (Ea & Es & Et & _). destruct (tr_dir _ _ _ Htree d Hd Hty) as [Hfo Hmod].
  eapply (dirlookup_wp i ls me start n L blks ∅ k x); [done|done|done|done|congruence| | |done| | | |].
  - eapply file_ok_same; [done|done|done|done].
  - by rewrite Es.
  - by rewrite map_size_empty.
  - intros m _. apply iget_tab_room. pose proof (one_range (i_ref x = 1)). lia.
  - intros s2 R2 T2 Hno. pose proof (dstep_rstep _ _ _ R2) as D2. destruct (dstep_same _ _ _ _ D2) as (I2 & _).
    apply HN; rewrite ?I2; [by eapply dir_none_lookup|done|done|done].
  - intros s2 m j tab D2 T2 Hf Hg. destruct (dstep_same _ _ _ _ D2) as (I2 & _).
    pose proof Hf as (Hm & Hent & _). unfold dir_len in Hm. rewrite Es in Hm.
    eapply HS; rewrite ?I2; [by eapply dir_find_lookup| |done|done|done].
    assert (En : dirent_inum L x m = dirent_inum L (inode_on L f d) m) by (unfold dirent_inum; by rewrite (file_same L x (inode_on L f d))).
    rewrite En. apply (tr_entry _ _ _ Htree d m Hd Hty Hm). rewrite <- En. apply Hent.
Qed.

(** At the end of the path. *)
Lemma walk_end s k d x (np : bool) name (Q : option nat * list Z -> kernel -> Prop) :
  tx_state ls i s me start n L blks ∅ -> tab_at L f R (itable (pfs s)) k d x -> P d ->
  (forall r s2, walked s np d [] name r s2 -> Q r s2) ->
  wp (if np then iput k ;; ret (None, name) else ret (Some k, name))%K s Q.
Proof.
  intros Htx Tat Hd HQ. destruct np; cycle 1.
  - apply wp_ret, HQ. exists (itable (pfs s)). split_and!; [apply dstep_rstep, rstep_refl|done|]. cbn [walk]. eauto.
  - pose proof Tat as [Hit Hid Hk (Hp & Hdev & Hin) _ _]. destruct (tx_slots _ _ _ _ _ _ _ _ _ Htx) as (_ & Hls & _). wp_step.
    eapply (iput_wp ls i s k x); [by eapply tx_ready|done|lia|done|done| |done|].
    { destruct (Z.eq_dec (i_valid x) 0) as [|Hv]; [auto|]. right. right. destruct (Hid k x Hk) as [_ Hco].
      apply (keep_entry x d Hd). rewrite <- Hin. by apply (Hco Hp). }
    intros s2 K2 E2. apply wp_ret, HQ. eexists. split_and!; [by apply dstep_set|by eapply tx_set_itable|].
    cbn [walk]. split; [done|]. by eapply put_tab_at.
Qed.

Lemma elems_of_cur cur path : cur <> [] -> elems_of cur path <> [].
Proof.
  revert cur. induction path as [|c path IH]; intros cur Hc; cbn [elems_of].
  - by rewrite decide_False.
  - destruct (c =? SLASH); [by rewrite decide_False|]. by apply IH.
Qed.

Lemma no_elems rest : match rest with c :: _ => c <> SLASH | [] => True end ->
  bool_decide (rest = []) = bool_decide (path_elems rest = []).
Proof.
  intros Hh. destruct rest as [|c rest]; [done|]. rewrite !bool_decide_eq_false_2; [done| |done].
  unfold path_elems. cbn [elems_of]. rewrite (proj2 (Z.eqb_neq _ _) Hh). by apply elems_of_cur.
Qed.

Lemma namex_loop_wp fuel path name np k d x s (Q : option nat * list Z -> kernel -> Prop) :
  tx_state ls i s me start n L blks ∅ -> sb (pfs s) = f -> tab_at L f R (itable (pfs s)) k d x -> P d ->
  bytes_ok path -> (length path < fuel)%nat ->
  (forall r s2, walked s np d (path_elems path) name r s2 -> Q r s2) -> wp (namex_loop fuel k path name np) s Q.
Proof.
  revert path name k d x s. induction fuel as [|fuel IH]; intros path name k d x s Htx Hsb Tat Hd Hpath Hfuel HQ; [lia|].
  cbn [namex_loop]. pose proof (skipelem_elems path) as Hes. destruct (skipelem path) as [[rest e]|] eqn:Esk; cycle 1.
  { rewrite Hes in HQ. by eapply (walk_end s k d x np name). }
  destruct Hes as (Hes & Hlen & Hhead). destruct (skipelem_ok path rest e Hpath Esk) as [Hrest He]. rewrite Hes in HQ.
  wp_step. eapply (lock_walk s k d x); [done|done|done|done|]. intros s1 y D1 T1 B1 Tl.
  pose proof Tl as [_ _ Hk (Hp & Hdev & Hin) _ Hdk _ _]. destruct (disk_members _ _ _ _ Hdk) as (_ & _ & Et & _).
  wp_step. eapply geti_wp; [exact Hk|]. rewrite Et. destruct (Z.eqb_spec (d_type (on_disk L f d)) T_DIR) as [Ety|Ety]; cbn [negb].
  2:{ eapply walk_stop; [exact D1|done|exact Tl|done| |done|exact HQ]. cbn [walk]. by rewrite (proj2 (Z.eqb_neq _ _)). }
  assert (Hw : walk L f np d (e :: path_elems rest) =
    if np && bool_decide (path_elems rest = []) then Some d
    else match dir_lookup L f d e with Some m => walk L f np m (path_elems rest) | None => None end).
  { cbn [walk]. by rewrite Ety. }
  rewrite (no_elems rest Hhead). destruct (np && bool_decide (path_elems rest = [])) eqn:Enp.
  - wp_step. eapply (iunlock_wp ls i s1); [done|exact Hk|lia|apply Tl|]. intros s2 S2 T2. apply wp_ret, HQ.
    eexists. split_and!; [eapply dstep_trans; [exact D1|by apply dstep_istep]|done|]. rewrite Hw. split; [done|].
    exists k, (set_i_lock (SleepLock 0 0) y). apply andb_true_iff in Enp as [_ En%bool_decide_eq_true]. rewrite En.
    split; [done|]. by eapply (unlock_tab L f R me).
  - wp_step. eapply next_walk; [exact T1|exact Tl|done|done|done|done| |].
    + intros s2 Hno D2 T2 Tl2. eapply walk_stop; [eapply dstep_trans; [exact D1|exact D2]|done|exact Tl2|done|by rewrite Hw, Hno|done|exact HQ].
    + intros s2 j off m Hdl Hm D2 T2 Hg. destruct (next_tab L f R me _ k d y m j _ Tl Hg HR) as (Hit2 & (z & Hz & Hpz & Hlz & Hnz) & w & Tat2).
      wp_step. eapply iunlockput_wp; [exact T2|done|done|exact Hz|done|done| |].
      { right. right. rewrite Hnz. by apply (keep_entry y d). }
      intros s3 S3 T3. destruct (istep_same _ _ _ _ S3) as (I3 & B3 & _). destruct (dstep_same _ _ _ _ D2) as (_ & B2 & _).
      eapply (IH rest e j m w s3); [done|congruence|by rewrite I3|done|done|lia|].
      intros r s4 W4. apply HQ. eapply walked_trans; [exact D1|]. eapply walked_trans; [exact D2|].
      eapply walked_trans; [rewrite I3; by apply dstep_istep|]. destruct W4 as (tab & D4 & T4 & Hres). exists tab. split_and!; [done|done|].
      rewrite Hw, Hdl. destruct (walk L f np m (path_elems rest)); [|done]. destruct Hres as (Hp' & k' & x' & -> & Ht').
      split; [done|]. exists k', x'. split; [|done]. rewrite last_cons. by destruct (last (path_elems rest)).
Qed.

(** The table with one more reference to inode [d]. *)
Lemma start_tab tab k d z g : tab_none L f R tab -> (2 <= free_entries tab)%nat -> tab !! k = Some z ->
  i_ref (g z) = i_ref z + 1 -> entry_for ROOTDEV d (g z) -> idle L f (g z) -> itab_ok (alter g k tab) ->
  (forall dev m, refs (alter g k tab) dev m = refs tab dev m + one (ROOTDEV = dev /\ d = m)) ->
  tab_at L f R (alter g k tab) k d (g z).
Proof.
  intros [Hit Hid Hrefs] Hfree Hk Eg Hfor Hidle Hit2 Hr2. split; try done.
  - intros j y [[-> ->]|[N1 Hj]]%(lookup_alter_cases _ k z _ Hk); [done|by eapply Hid].
  - by rewrite list_lookup_alter_eq, Hk.
  - pose proof (free_alter tab k z g Hk) as F. pose proof (it_ref _ Hit _ _ Hk). rewrite Eg in *. unfold one in *. repeat case_decide; lia.
  - intros dev m. by rewrite Hr2, Hrefs.
Qed.

Lemma iget_start tab d e tab2 : tab_none L f R tab -> (2 <= free_entries tab)%nat -> iget_tab ROOTDEV d tab = Some (e, tab2) ->
  exists x, tab_at L f R tab2 e d x.
Proof.
  intros Tn Hfree Hg. pose proof Tn as [Hit Hid Hrefs].
  destruct (iget_tab_refs tab ROOTDEV d e tab2 Hit Hg) as (Hit2 & _ & _ & Hr2); [rewrite Hrefs; specialize (HR ROOTDEV d); lia|].
  destruct (iget_tab_at _ _ _ _ _ Hg) as (z & He & Hz). destruct (Hid e z He) as [Zl Zc].
  destruct Hz as [[(Zp & Zd & Zn) ->]|[Zr ->]]; eexists; eapply (start_tab tab e d z); try done.
  - split; [simpl; lia|done].
  - split; [done|]. intros _. apply Zc. done.
  - simpl. lia.
Qed.

Lemma idup_start tab d k x : tab_none L f R tab -> (2 <= free_entries tab)%nat -> tab !! k = Some x -> entry_for ROOTDEV d x ->
  tab_at L f R (alter ref_up k tab) k d (ref_up x).
Proof.
  intros Tn Hfree Hk (Hp & Hdev & Hin). pose proof Tn as [Hit Hid Hrefs]. destruct (Hid k x Hk) as [Zl Zc].
  assert (Hr : refs tab ROOTDEV d = i_ref x) by (rewrite <- Hdev, <- Hin; by eapply refs_entry).
  rewrite Hrefs in Hr. specialize (HR ROOTDEV d).
  destruct (alter_used tab k x ref_up Hit Hk Hp) as [Ho Hrf]; [simpl; lia|done|done|].
  apply start_tab; try done.
  - split; [simpl; lia|done].
  - split; [done|]. intros _. by apply Zc.
  - intros dev m. rewrite Hrf. unfold one. rewrite Hdev, Hin. case_decide as Hd; [|lia]. destruct Hd as [<- <-].
    cbn [ref_up i_ref set_i_ref]. rewrite Hrefs. lia.
Qed.

(** Where the walk starts: at the root, or in the current directory. *)
Definition starts_at s (path : list Z) (d : Z) : Prop :=
  if default 0 (head path) =? SLASH then d = ROOTINO
  else exists p k x, procs s !! i = Some p /\ inode_of_addr (cwd p) = Some k /\ itable (pfs s) !! k = Some x /\ entry_for ROOTDEV d x.

Lemma idup_wp s k x (Q : nat -> kernel -> Prop) :
  kready ls i s -> (length ls < 8)%nat -> itable (pfs s) !! k = Some x -> 0 <= i_ref x < 2 ^ 31 - 1 ->
  (forall s2, kframe i s s2 -> pfs s2 = set_itable (alter ref_up k (itable (pfs s))) (pfs s) -> Q k s2) -> wp (idup k) s Q.
Proof.
  intros Hr Hlen Hx Href HQ. unfold idup. wp_step. eapply (k_acq ls i s ItableLock); [done..|]. intros s1 I1 R1 E1.
  wp_step. apply (updi_wp _ k x); [by rewrite E1|]. wp_step.
  eapply (k_rel ls i s); [done|done|by eapply inside_frame, kframe_pfs|]. intros s2 K2 E2. apply wp_ret, HQ; [done|].
  rewrite E2. cbn [pfs set_pfs]. rewrite E1. f_equal. apply list_alter_ext; [|done].
  intros y Hy. rewrite Hx in Hy. injection Hy as <-. unfold ref_up. by rewrite i32_small by lia.
Qed.

Lemma namex_wp s path np d (Q : option nat * list Z -> kernel -> Prop) :
  tx_state ls i s me start n L blks ∅ -> sb (pfs s) = f -> tab_none L f R (itable (pfs s)) ->
  (2 <= free_entries (itable (pfs s)))%nat -> starts_at s path d -> P d -> bytes_ok path ->
  (forall r s2, walked s np d (path_elems path) [] r s2 -> Q r s2) -> wp (namex path np) s Q.
Proof.
  intros Htx Hsb Tn Hfree Hst Hd Hpath HQ. pose proof Tn as [Hit Hid _]. destruct (tx_slots _ _ _ _ _ _ _ _ _ Htx) as (_ & Hls & _).
  assert (Hgo : forall s1 k x tab, kframe i s s1 -> pfs s1 = set_itable tab (pfs s) -> tab_at L f R tab k d x ->
    wp (namex_loop (S (length path)) k path [] np) s1 Q).
  { intros s1 k x tab K1 E1 Tat. assert (I1 : itable (pfs s1) = tab) by (by rewrite E1).
    eapply namex_loop_wp; [by eapply tx_set_itable|by rewrite E1|rewrite I1; exact Tat|done|done|lia|].
    intros r s2 W2. apply HQ. eapply walked_trans; [|exact W2]. rewrite I1. by apply dstep_set. }
  unfold namex. wp_step. unfold starts_at in Hst. destruct (default 0 (head path) =? SLASH).
  - subst d. destruct (iget_tab_room (itable (pfs s)) ROOTDEV ROOTINO) as [[e tab] Hg]; [lia|].
    destruct (iget_start _ _ _ _ Tn Hfree Hg) as [x Tat].
    eapply (iget_wp ls i s); [by eapply tx_ready|done|lia|done|exact Hg|]. intros s1 K1 E1. by eapply Hgo.
  - destruct Hst as (p & k & x & Hp & Hcwd & Hk & Hfor). pose proof (tx_ready _ _ _ _ _ _ _ _ _ Htx) as Hr.
    wp_step. unfold cwd_inode. wp_step. eapply myproc_wp; [apply Hr|]. intros l Hl. wp_step. apply wp_ret. wp_step.
    apply (getp_wp _ i p); [done|]. rewrite Hcwd. apply wp_ret. pose proof (kframe_plk i s l Hl) as K0.
    eapply (idup_wp (set_plk l s) k x); [by eapply kready_frame|lia|done|by eapply it_ref|]. intros s1 K1 E1.
    eapply (Hgo s1); [by eapply kframe_trans|exact E1|by apply idup_start].
Qed.

End Loop.

End Names.
