(* ===== verification/BmapSpec.v ===== *)
(** * Mapping the blocks of a file

    [bmap] while a file is written: it returns the block of a slot and takes a
    free block if the slot is empty, the indirect block included; 0 means that
    no block is free. *)

From S2P Require Import Prelude Riscv Mem CString Kalloc Vm PageTable VmSpec UserCopy Spinlock Proc ProcSpec IoState SleepLock.
From S2P Require Import UserMem Bio BioSpec Bytes Log LogDisk LogSpec LogRecover.
From S2P Require Import Uart Printf DevSpec Fs FsSpec InodeSpec ReadSpec FileMap DirSpec NameSpec.

Section Bmap.
Context `{LinkerOk} (ls : list lockid) (i : nat) (me start nop : Z) (f : superblock) (k : nat).
Context (blks0 : list Z) (lo hi : Z).
Implicit Types (s : kernel) (L : Z -> list Z) (h : gmap nat Z).
Hypothesis Hpr : PrLock ∉ ls.
Hypothesis Hlohi : lo <= hi.
Hypothesis Hroom : (length blks0 + length (map_blocks f) + Z.to_nat (hi - lo) + 4 < logsize)%nat.

(** The locked inode [x] in entry [k], of which the slots from [lo] to [hi] are
    being written. *)
Record wstate s L (blks : list Z) (x : inode) h : Prop := {
  ws_tx : tx_state ls i s me start nop L blks h;
  ws_sb : sb (pfs s) = f;
  ws_panicked : panicked (pfs s) = 0;
  ws_entry : itable (pfs s) !! k = Some x;
  ws_layout : layout L f start;
  ws_file : file_wf L f x;
  ws_logs : logs_only f L x lo hi blks0 blks;
}.

Lemma ws_room s L blks x h : wstate s L blks x h -> (length blks + 3 < logsize)%nat.
Proof.
  intros Hw. pose proof (logs_only_length f L x lo hi blks0 blks) as Hl.
  destruct (ws_tx _ _ _ _ _ Hw) as (D & l & _ & _ & _ & Htx). specialize (Hl (tx_nodup _ _ _ _ _ _ _ _ Htx) Hlohi (ws_logs _ _ _ _ _ Hw)). lia.
Qed.

Lemma ws_len s L blks x h b : wstate s L blks x h -> length (L b) = bsize.
Proof. intros Hw. eapply tx_len, Hw. Qed.

(** A step on the buffer cache only. *)
Lemma ws_fstep s s2 L blks x h h2 :
  wstate s L blks x h -> fstep i s s2 -> tx_state ls i s2 me start nop L blks h2 -> wstate s2 L blks x h2.
Proof.
  intros [T B P E Y F G] Hs T2. destruct (fstep_same _ _ _ Hs) as (B2 & I2 & P2 & _). by split; rewrite ?B2, ?I2, ?P2.
Qed.

(** A step that allocates and changes the entry. *)
Lemma ws_step s s2 L L2 blks blks2 x x2 h h2 :
  wstate s L blks x h -> istep i s (<[k := x2]> (itable (pfs s))) s2 -> tx_state ls i s2 me start nop L2 blks2 h2 ->
  file_wf L2 f x2 -> fext f L x L2 x2 -> logs_only f L2 x2 lo hi blks0 blks2 -> wstate s2 L2 blks2 x2 h2.
Proof.
  intros [T B P E Y F G] Hs T2 F2 X2 G2. destruct (istep_same _ _ _ _ Hs) as (I2 & B2 & P2 & _). split; rewrite ?B2, ?P2, ?I2; try done.
  - rewrite list_lookup_insert_eq; [done|]. by eapply lookup_lt_Some.
  - eapply layout_mono; [done|]. intros a Ha Hal. apply (fe_alloc _ _ _ _ _ X2); auto.
Qed.

(** The blocks of the file have the same contents. *)
Definition kept L (x : inode) (L2 : Z -> list Z) : Prop := forall bn, 0 <= bn < MAXFILE -> mblock L x bn <> 0 -> L2 (mblock L x bn) = L (mblock L x bn).

Lemma kept_refl L x : kept L x L.
Proof. done. Qed.

Lemma kept_take L x r : layout L f start -> file_wf L f x -> 0 <= r < sb_size f -> allocated L f r = false -> kept L x (take_block L f r).
Proof. intros Hly Hwf Hr Hf bn Hbn Hnz. eapply take_file; [done|done|done|done|]. split; [done|]. right. by exists bn. Qed.

(** What [bmap] and its parts do: *)
Definition mapped s L x h (r : Z) s2 (P : (Z -> list Z) -> inode -> Z) : Prop :=
  exists L2 blks2 x2, istep i s (<[k := x2]> (itable (pfs s))) s2 /\ wstate s2 L2 blks2 x2 h /\ fext f L x L2 x2 /\ kept L x L2 /\
    r = P L2 x2 /\ (r = 0 -> disk_full L2 f).

Lemma mapped_same s L blks x h P : wstate s L blks x h -> P L x <> 0 -> mapped s L x h (P L x) s P.
Proof.
  intros Hw Hnz. exists L, blks, x. split_and!; try done.
  - rewrite list_insert_id by apply Hw. apply istep_fstep, fstep_refl.
  - apply wf_refl, Hw.
Qed.

(** [balloc] with no locked buffer in the way. *)
Lemma balloc_ws {B} s L blks x h (c : Z -> K B) (Q : B -> kernel -> Prop) :
  wstate s L blks x h -> (S (size h) + length blks < nbuf)%nat -> held_ok L f h ->
  (forall s2, disk_full L f -> fstep i s s2 -> wstate s2 L blks x h -> wp (c 0) s2 Q) ->
  (forall s2 r, 0 <= r < sb_size f -> allocated L f r = false -> r <> 0 -> fstep i s s2 ->
     tx_state ls i s2 me start nop (take_block L f r) (logged (logged blks (BBLOCK r f)) r) h -> wp (c r) s2 Q) ->
  wp (bind (balloc ROOTDEV) c) s Q.
Proof.
  intros Hw Hsz Hh HQ0 HQ1. pose proof (ws_room _ _ _ _ _ Hw) as Hrm. wp_step.
  eapply (balloc_wp ls i me start nop L blks h f s); [apply Hw|apply Hw|apply Hw|done|done|lia|apply Hw|done|].
  intros r s2 [F2 [(-> & Hfull & T2)|(Hr & Hfree & _ & T2)]].
  - apply HQ0; [done|done|]. by eapply ws_fstep.
  - apply HQ1; try done. eapply taken_pos; [apply Hw|done|done].
Qed.

(** The address in slot [m] of the inode, taken from the free blocks if it is 0. *)
Lemma addr_or_alloc_ws s L blks x m P (Q : Z -> kernel -> Prop) :
  wstate s L blks x ∅ -> i_addrs x !! m = Some (P L x) ->
  (forall r, 0 <= r < sb_size f -> allocated L f r = false -> P L x = 0 ->
     let L2 := take_block L f r in let x2 := set_i_addrs (<[m := r]> (i_addrs x)) x in
     file_wf L2 f x2 /\ fext f L x L2 x2 /\ P L2 x2 = r /\ logs_only f L2 x2 lo hi blks0 (logged (logged blks (BBLOCK r f)) r)) ->
  (forall r s2, mapped s L x ∅ r s2 P -> Q r s2) -> wp (addr_or_alloc k m) s Q.
Proof.
  intros Hw Ha Hstep HQ. pose proof (ws_room _ _ _ _ _ Hw) as Hrm. unfold addr_or_alloc. wp_step.
  apply (get_addr_wp s k x m (P L x)); [apply Hw|done|]. destruct (Z.eqb_spec (P L x) 0) as [Hz|Hnz].
  2:{ by apply wp_ret, HQ, (mapped_same s L blks). }
  wp_step. apply (geti_wp s k x); [apply Hw|]. rewrite (fw_dev _ _ _ (ws_file _ _ _ _ _ Hw)).
  apply (balloc_ws s L blks x ∅); [done|rewrite map_size_empty; unfold nbuf, logsize in *; lia|intros j c Hj; by rewrite lookup_empty in Hj| |].
  - intros s2 Hfull F2 W2. cbn [Z.eqb]. apply wp_ret, HQ. exists L, blks, x. split_and!; try done.
    + rewrite list_insert_id by apply Hw. by apply istep_fstep.
    + apply wf_refl, Hw.
  - intros s2 r Hr Hfree Hnz F2 T2. rewrite (proj2 (Z.eqb_neq _ _) Hnz). destruct (Hstep r Hr Hfree Hz) as (Hwf2 & X2 & HP & G2).
    destruct (fstep_same _ _ _ F2) as (_ & I2 & _). assert (Hx2 : itable (pfs s2) !! k = Some x) by (rewrite I2; apply Hw).
    wp_step. unfold set_addr. wp_step. apply (get_addr_wp s2 k x m (P L x)); [done|done|].
    eapply tx_updi; [exact T2|exact Hx2|]. intros s3 S3 T3. rewrite I2 in S3. apply wp_ret, HQ. set (x2 := set_i_addrs _ x) in *.
    assert (S3' : istep i s (<[k := x2]> (itable (pfs s))) s3).
    { eapply istep_trans; [by apply istep_fstep|]. by rewrite (alter_insert_at _ k _ x) in S3 by apply Hw. }
    exists (take_block L f r), (logged (logged blks (BBLOCK r f)) r), x2. split_and!; try done.
    + by eapply ws_step.
    + apply kept_take; try done; apply Hw.
Qed.

(** What a slot that was taken means for the log. *)
Lemma logs_taken L x r L2 x2 bn blks : layout L f start -> 0 <= r < sb_size f -> allocated L f r = false ->
  fext f L x L2 x2 -> logs_only f L x lo hi blks0 blks ->
  r = ind x2 \/ (0 <= bn < MAXFILE /\ lo <= bn < hi /\ mblock L2 x2 bn = r) ->
  logs_only f L2 x2 lo hi blks0 (logged (logged blks (BBLOCK r f)) r).
Proof.
  intros Hly Hr Hfree X2 G Hin. pose proof (taken_pos L f start r Hly Hr Hfree) as Hnz. apply logs_only_logged.
  - apply logs_only_logged; [apply (logs_only_ext f L x L2 x2 lo hi lo hi); [done|lia|lia|done]|]. left. eapply in_map_blocks; [apply Hly|done].
  - right. destruct Hin as [?|?]; [left; auto|right; exists bn; naive_solver].
Qed.

Lemma bmap_direct_ws s L blks x bn (Q : Z -> kernel -> Prop) :
  wstate s L blks x ∅ -> 0 <= bn < NDIRECT -> lo <= bn < hi ->
  (forall r s2, mapped s L x ∅ r s2 (fun L x => mblock L x bn) -> Q r s2) -> wp (addr_or_alloc k (Z.to_nat bn)) s Q.
Proof.
  intros Hw Hbn Hlh HQ. pose proof (fw_len _ _ _ (ws_file _ _ _ _ _ Hw)) as Hl.
  apply (addr_or_alloc_ws s L blks x _ (fun L x => mblock L x bn)); [done| | |done].
  - unfold mblock. rewrite (proj2 (Z.ltb_lt _ _)) by lia.
    destruct (lookup_lt_is_Some_2 (i_addrs x) (Z.to_nat bn)) as [a Ha]; [unfold NDIRECT, ndirect in *; lia|]. by rewrite Ha.
  - intros r Hr Hfree Hz L2 x2. destruct Hw as [T B P E Hly Hwf G].
    assert (Hsk : slot_taken L f x r L2 x2 bn) by (eapply take_direct; try done; intros; by eapply tx_len).
    assert (Hm : 0 <= bn < MAXFILE) by (change MAXFILE with 268; unfold NDIRECT in Hbn; lia).
    assert (Hr2 : mblock L2 x2 bn = r) by (by rewrite (sk_block _ _ _ _ _ _ _ Hsk), decide_True).
    assert (X2 : fext f L x L2 x2) by (by eapply slot_taken_ext).
    split; [by eapply slot_taken_wf|]. split; [done|]. split; [done|].
    apply (logs_taken L x r L2 x2 bn); try done. by right.
Qed.

Lemma ind_ws s L blks x (Q : Z -> kernel -> Prop) :
  wstate s L blks x ∅ -> (forall r s2, mapped s L x ∅ r s2 (fun _ x => ind x) -> Q r s2) -> wp (addr_or_alloc k ndirect) s Q.
Proof.
  intros Hw HQ. pose proof (fw_len _ _ _ (ws_file _ _ _ _ _ Hw)) as Hl.
  apply (addr_or_alloc_ws s L blks x _ (fun _ x => ind x)); [done| | |done].
  - unfold ind. destruct (lookup_lt_is_Some_2 (i_addrs x) ndirect) as [a Ha]; [lia|]. by rewrite Ha.
  - intros r Hr Hfree Hz L2 x2. destruct Hw as [T B P E Hly Hwf G].
    destruct (take_ind_wf L f start x r Hly (fun b => tx_len _ _ _ _ _ _ _ _ _ b T) Hwf Hr Hfree Hz) as [W2 X2].
    destruct (take_ind_block L f start x r Hly Hwf Hr Hfree Hz) as [I2 _]. fold L2 x2 in W2, X2, I2. split; [done|]. split; [done|]. split; [done|].
    apply (logs_taken L x r L2 x2 0); try done. by left.
Qed.

Lemma mapped_trans s L x s1 L1 x1 h r s2 P :
  istep i s (<[k := x1]> (itable (pfs s))) s1 -> fext f L x L1 x1 -> kept L x L1 ->
  mapped s1 L1 x1 h r s2 P -> mapped s L x h r s2 P.
Proof.
  intros S1 X1 K1 (L2 & blks2 & x2 & S2 & W2 & X2 & K2 & Hr & Hf). destruct (istep_same _ _ _ _ S1) as (I1 & _).
  exists L2, blks2, x2. split_and!; try done.
  - eapply istep_trans; [exact S1|]. rewrite I1, list_insert_insert_eq in S2. done.
  - eapply fext_trans; [|done|done]. intros a. eapply (wf_range _ f start); [apply W2|apply W2].
  - intros bn Hbn Hnz. rewrite <- K1 by done. rewrite <- (fe_block _ _ _ _ _ X1) by done. rewrite K2; [done|done|].
    by rewrite (fe_block _ _ _ _ _ X1).
Qed.

(** The slot in the locked indirect block. *)
Lemma indirect_slot_ws s L blks x j bn (Q : Z -> kernel -> Prop) :
  wstate s L blks x {[j := ind x]} -> ind x <> 0 -> NDIRECT <= bn < MAXFILE -> lo <= bn < hi ->
  (forall r s2, mapped s L x {[j := ind x]} r s2 (fun L x => mblock L x bn) -> Q r s2) ->
  let m := Z.to_nat (bn - NDIRECT) in
  wp (if mblock L x bn =? 0 then
        addr <- balloc ROOTDEV ;;
        (when negb (addr =? 0) then
           d <- buf_data j ;; set_buf_data j (put_le 4 d (4 * m) addr) ;; log_write j) ;;
        ret addr
      else ret (mblock L x bn))%K s Q.
Proof.
  intros Hw Hnz Hbn Hlh HQ m. pose proof (ws_room _ _ _ _ _ Hw) as Hrm. destruct (Z.eqb_spec (mblock L x bn) 0) as [Hz|Hmz].
  2:{ apply wp_ret, HQ. by apply (mapped_same s L blks x _ (fun L x => mblock L x bn)). }
  assert (Hf : in_file L x (ind x)) by (split; auto). destruct (fw_data _ _ _ (ws_file _ _ _ _ _ Hw) _ Hf) as (Hdata & Hal & _).
  apply (balloc_ws s L blks x {[j := ind x]}); [done|rewrite map_size_singleton; unfold nbuf, logsize in *; lia| | |].
  { intros j' c [<- <-]%lookup_singleton_Some. split; [|done]. intros b Hb. eapply data_not_map; [apply Hw|done|done]. }
  { intros s2 Hfull F2 W2. cbn [Z.eqb negb]. wp_step. apply wp_ret. apply wp_ret, HQ. exists L, blks, x. split_and!; try done.
    + rewrite list_insert_id by apply Hw. by apply istep_fstep.
    + apply wf_refl, Hw. }
  intros s2 r Hr Hfree Hrz F2 T2. rewrite (proj2 (Z.eqb_neq _ _) Hrz). cbn [negb]. pose proof Hw as [T B Pk E Hly Hwf G].
  pose proof (take_indirect L f start x r Hly (fun b => tx_len _ _ _ _ _ _ _ _ _ b T) Hwf Hr Hfree bn Hbn Hnz Hz) as Hsk. cbv zeta in Hsk. fold m in Hsk.
  wp_step. wp_step. eapply tx_data; [exact T2|apply lookup_singleton_eq|]. rewrite (take_file L f start x r Hly Hwf Hr Hfree _ Hf).
  eapply tx_log; [exact T2|apply lookup_singleton_eq|rewrite length_put_le; by eapply tx_len|by eapply data_home| |].
  { pose proof (logged_length blks (BBLOCK r f)). pose proof (logged_length (logged blks (BBLOCK r f)) r). unfold logsize in *. lia. }
  intros s3 F3 T3. apply wp_ret, HQ. set (L3 := block_upd _ _ _) in *.
  assert (X3 : fext f L x L3 x) by (by eapply slot_taken_ext).
  assert (Hr3 : mblock L3 x bn = r) by (rewrite (sk_block _ _ _ _ _ _ _ Hsk), decide_True by (unfold NDIRECT in Hbn; lia || done); done).
  assert (S3 : istep i s (<[k := x]> (itable (pfs s))) s3) by (rewrite list_insert_id by done; apply istep_fstep; by eapply fstep_trans).
  eexists L3, _, x. split_and!; [done| |done| |by rewrite Hr3|by intros ?].
  - eapply ws_step; [exact Hw|exact S3|exact T3|by eapply slot_taken_wf|done|]. apply logs_only_logged; [|auto].
    apply (logs_taken L x r L3 x bn); try done. right. split; [|done]. unfold NDIRECT in Hbn. lia.
  - intros b Hb Hbz. unfold L3. rewrite block_upd_ne by (by apply not_eq_sym, (fw_ind _ _ _ Hwf)). by apply (kept_take L x r).
Qed.

Lemma bmap_ws s L blks x bn (Q : Z -> kernel -> Prop) :
  wstate s L blks x ∅ -> 0 <= bn < MAXFILE -> lo <= bn < hi ->
  (forall r s2, mapped s L x ∅ r s2 (fun L x => mblock L x bn) -> Q r s2) -> wp (bmap k bn) s Q.
Proof.
  intros Hw Hbn Hlh HQ. unfold bmap. destruct (Z.ltb_spec bn NDIRECT) as [Hd|Hd].
  { eapply bmap_direct_ws; [done|lia|done|done]. }
  rewrite (proj2 (Z.ltb_lt (bn - NDIRECT) NINDIRECT)) by (unfold MAXFILE in Hbn; lia). cbv zeta. wp_step.
  eapply ind_ws; [exact Hw|]. intros a s1 (L1 & blks1 & x1 & S1 & W1 & X1 & K1 & -> & Hf1).
  assert (Hmb : forall L x, mblock L x bn = if ind x =? 0 then 0 else get_le 4 (L (ind x)) (4 * Z.to_nat (bn - NDIRECT))).
  { intros. unfold mblock. by rewrite (proj2 (Z.ltb_ge _ _) Hd). }
  destruct (Z.eqb_spec (ind x1) 0) as [Hz|Hnz].
  { apply wp_ret, HQ. exists L1, blks1, x1. split_and!; try done; [|intros; by apply Hf1]. by rewrite Hmb, Hz. }
  wp_step. apply (geti_wp s1 k x1); [apply W1|]. rewrite (fw_dev _ _ _ (ws_file _ _ _ _ _ W1)). wp_step.
  pose proof (ws_room _ _ _ _ _ W1) as Hrm.
  eapply (tx_bread ls i s1); [apply W1|intros j; by rewrite lookup_empty|rewrite map_size_empty; unfold nbuf, logsize in *; lia|].
  intros j s2 _ F2 T2. rewrite insert_empty in T2. pose proof (ws_fstep _ _ _ _ _ _ _ W1 F2 T2) as W2. wp_step. eapply tx_data; [exact T2|apply lookup_singleton_eq|].
  assert (Eg : get_le 4 (L1 (ind x1)) (4 * Z.to_nat (bn - NDIRECT)) = mblock L1 x1 bn) by (by rewrite Hmb, (proj2 (Z.eqb_neq _ _) Hnz)).
  rewrite Eg. wp_step. eapply indirect_slot_ws; [exact W2|done|lia|done|]. intros r s3 M3. wp_step.
  destruct M3 as (L3 & blks3 & x3 & S3 & W3 & X3 & K3 & Hr3 & Hf3).
  eapply tx_release; [apply W3|apply lookup_singleton_eq|]. intros s4 F4 T4. rewrite delete_singleton_eq in T4. apply wp_ret, HQ.
  destruct (istep_same _ _ _ _ S1) as (I1 & _). destruct (istep_same _ _ _ _ S3) as (I3 & _).
  apply (mapped_trans s L x s2 L1 x1); [|done|done|].
  - eapply istep_trans; [exact S1|]. rewrite <- I1. by apply istep_fstep.
  - exists L3, blks3, x3. split_and!; try done; [|by eapply ws_fstep].
    eapply istep_trans; [exact S3|]. rewrite <- I3. by apply istep_fstep.
Qed.

End Bmap.
