(* ===== verification/WriteSpec.v ===== *)
(** * Writing files

    [writei] replaces a range of the contents of a file, which may reach
    beyond its end.  The source of the bytes is the memory of the process or
    that of the kernel; both implement the interface [Source]. *)

From S2P Require Import Prelude Riscv Mem CString Kalloc Vm PageTable VmSpec UserCopy Spinlock Proc ProcSpec IoState SleepLock.
From S2P Require Import UserMem Bio BioSpec Bytes Log LogDisk LogSpec LogRecover.
From S2P Require Import Uart Printf DevSpec Fs FsSpec InodeSpec ReadSpec FileMap DirSpec NameSpec BmapSpec.

(** ** Sources *)

Section Sources.
Context `{LinkerOk}.
Implicit Types (s : kernel) (ls : list lockid).

(** A source of [either_copyin] into the cache: [src_ok] are the ranges it has
    and [content] the byte it has at an address. *)
Class Source (i : nat) (user : bool) (ok : kernel -> Prop) (src_ok : Z -> Z -> Prop) (content : mem -> Z -> Z) : Prop := {
  src_frame s s2 : ok s -> kframe i s s2 -> ok s2;
  src_cache s k : ok s -> freelist k = freelist (pk s) ->
    (forall a, ~ in_cache a -> rd (phys k) a = rd (phys (pk s)) a) -> ok (set_pk k s);
  src_byte m a : 0 <= content m a < 256;
  src_same m m' src n k : src_ok src n -> 0 <= k < n -> (forall a, ~ in_cache a -> rd m' a = rd m a) ->
    content m' (src + k) = content m (src + k);
  src_sub src n k : src_ok src n -> 0 <= k <= n -> src_ok src k /\ src_ok (src + k) (n - k);
  src_range src n : src_ok src n -> 0 <= src /\ src + n < 2 ^ 64;
  src_copy ls s dst src m (Q : Z -> kernel -> Prop) :
    kready ls i s -> ok s -> 0 < m <= BSIZE -> (forall a, dst <= a < dst + m -> in_cache a) -> src_ok src m ->
    (forall s2, uframe i s s2 -> pfs s2 = pfs s -> ok s2 ->
       (forall k, 0 <= k < m -> rd (phys (pk s2)) (dst + k) = content (phys (pk s)) (src + k)) ->
       (forall a, ~ dst <= a < dst + m -> rd (phys (pk s2)) a = rd (phys (pk s)) a) -> Q 0 s2) ->
    wp (either_copyin dst user src m) s Q;
}.

(** The memory of the process. *)
#[export] Instance user_source i (pt : labels) fr A (Hu : user_ok pt fr A) :
  Source i true (fun s => user_at i s pt fr A) (user_dst A) (fun m a => rd m (upa A a)).
Proof.
  split.
  - intros. by eapply user_at_kframe.
  - intros s k Hua Hf Hsame. pose proof bcache_layout as [_ Hl].
    apply (user_at_kernel_write i s k pt fr A bcache_addr (24 + (NBUF + 1) * SIZEOF_BUF)); [done|left; lia|done|].
    intros x Hx. apply Hsame. unfold in_cache. lia.
  - intros. apply rd_range.
  - intros m m' src n k (Hs & _ & Hm) Hk Hsame. apply Hsame. intros Hc. apply in_cache_page in Hc. apply Hc.
    eapply upa_page; [done|lia|by apply Hm].
  - intros src n k (A1 & A2 & A3) Hk. split; (split; [lia|]; split; [lia|]); intros j Hj.
    + apply A3. lia.
    + rewrite <- Z.add_assoc. apply A3. lia.
  - intros src n (A1 & A2 & _). done.
  - intros ls s dst src m Q Hr Hua Hm Hin (Hs1 & Hs2 & Hs3) HQ.
    eapply (either_copyin_user ls i s pt fr A); [done|done|apply in_cache_kernel; [lia|done]|done|lia|].
    intros s2 k r U2 E2 Hua2 [Hk Hres] [W2 F2]. destruct Hres as [[-> ->]|(-> & Hlt & Hun)]; [|destruct Hun; apply Hs3; lia].
    apply HQ; [done|done|done| |done]. intros j Hj. by apply W2.
Qed.

(** The memory of the kernel above its static data. *)
#[export] Instance kernel_source i : Source i false (fun _ => True) kernel_dst rd.
Proof.
  split; try done.
  - intros. apply rd_range.
  - intros m m' src n k Hs Hk Hsame. apply Hsame. eapply kernel_not_cache; [done|lia].
  - intros src n k (A1 & A2 & A3) Hk. unfold kernel_dst. lia.
  - intros src n (_ & A & B). done.
  - intros ls s dst src m Q Hr _ Hm Hin Hs HQ. unfold either_copyin. wp_step.
    eapply myproc_wp; [apply Hr|]. intros l Hl. wp_step. apply phys_wr_wp. apply wp_ret. unfold BSIZE in Hm.
    pose proof (memmove_copied (phys (pk s)) dst src m ltac:(lia)) as Hc. apply HQ; [|done|done| |].
    + split; [done|]. repeat split; try done. apply woke_only_refl.
    + cbn [pk set_pk set_plk phys set_phys]. intros k Hk. rewrite Hc, decide_True by lia. f_equal. lia.
    + cbn [pk set_pk set_plk phys set_phys]. intros a Ha. by rewrite Hc, decide_False by lia.
Qed.

End Sources.

(** ** writei *)

Section Write.
Context `{LinkerOk} (ls : list lockid) (i : nat) (me start nop : Z) (f : superblock) (k : nat).
Context (user : bool) (ok : kernel -> Prop) (src_ok : Z -> Z -> Prop) (content : mem -> Z -> Z) `{!Source i user ok src_ok content}.
Context (blks0 : list Z) (lo hi : Z).
Implicit Types (s : kernel) (L : Z -> list Z) (h : gmap nat Z).
Hypothesis Hpr : PrLock ∉ ls.
Hypothesis Hlohi : lo <= hi.
Hypothesis Hroom : (length blks0 + length (map_blocks f) + Z.to_nat (hi - lo) + 4 < logsize)%nat.
Notation wstate := (wstate ls i me start nop f k blks0 lo hi).

(** The bytes of the source. *)
Definition source_bytes (m : mem) (src : Z) (n : nat) : list Z := (fun j => content m (src + Z.of_nat j)) <$> seq 0 n.

Lemma source_bytes_ok m src n : bytes_ok (source_bytes m src n).
Proof. apply Forall_fmap, Forall_true. intros j. apply src_byte. Qed.

Lemma length_source_bytes m src n : length (source_bytes m src n) = n.
Proof. unfold source_bytes. by rewrite length_fmap, length_seq. Qed.

(** Memory outside the cache is as it was. *)
Definition mem_same s s2 : Prop := forall a, ~ in_cache a -> rd (phys (pk s2)) a = rd (phys (pk s)) a.

(** What the cache holds after the copy. *)
Lemma copied_bytes s s3 s4 src m a : src_ok src m -> 0 <= m -> mem_same s s3 ->
  (forall j, 0 <= j < m -> rd (phys (pk s4)) (a + j) = content (phys (pk s3)) (src + j)) ->
  bytes (Z.to_nat m) (phys (pk s4)) a = source_bytes (phys (pk s)) src (Z.to_nat m).
Proof.
  intros Hs Hm Hsame Hc. apply list_eq. intros p. destruct (decide (p < Z.to_nat m)%nat) as [Hp|Hp].
  - rewrite lookup_bytes by done. unfold source_bytes. rewrite list_lookup_fmap, lookup_seq_lt by done.
    cbn [fmap option_fmap option_map]. f_equal. rewrite Hc by lia. eapply src_same; [done|lia|done].
  - rewrite !lookup_ge_None_2; [done|rewrite length_source_bytes; lia|rewrite length_bytes; lia].
Qed.

(** One turn: [m] bytes go to offset [o] of the block of slot [bn]. *)
Lemma write_chunk_wp {B} s L blks x bn o m src (bad : nat -> K B) (cont : K B) (Q : B -> kernel -> Prop) :
  wstate s L blks x ∅ -> ok s -> 0 <= bn < MAXFILE -> lo <= bn < hi -> mblock L x bn <> 0 ->
  0 <= o -> 0 < m -> o + m <= BSIZE -> src_ok src m ->
  (forall s2 L2 blks2, rstep i s s2 -> ok s2 -> mem_same s s2 ->
     L2 = block_upd L (mblock L x bn) (splice (L (mblock L x bn)) (Z.to_nat o) (source_bytes (phys (pk s)) src (Z.to_nat m))) ->
     wstate s2 L2 blks2 x ∅ -> fext f L x L2 x -> wp cont s2 Q) ->
  wp (bp <- bread ROOTDEV (mblock L x bn) ;; data_out bp o m ;; e <- either_copyin (data_addr bp o) user src m ;;
      data_in bp o m ;; if e =? -1 then bad bp else log_write bp ;; brelse bp ;; cont)%K s Q.
Proof.
  intros Hw Hok Hbn Hlh Hnz Ho Hm Hom Hsrc HQ. set (b := mblock L x bn) in *. pose proof (ws_room _ _ _ _ _ _ _ _ _ _ Hlohi Hroom _ _ _ _ _ Hw) as Hrm.
  pose proof Hw as [Htx Hsb Hpn Hent Hly Hwf Hlogs]. assert (Hf : in_file L x b) by (split; [done|]; right; by exists bn).
  destruct (fw_data _ _ _ Hwf _ Hf) as (Hdata & _ & Hbytes). pose proof (tx_len _ _ _ _ _ _ _ _ _ b Htx) as Hlen.
  wp_step. eapply (tx_bread ls i s); [done|intros j; by rewrite lookup_empty|rewrite map_size_empty; unfold nbuf, logsize in *; lia|].
  intros j s2 _ F2 T2. rewrite insert_empty in T2. pose proof (fstep_pk _ _ _ F2) as P2.
  assert (Hok2 : ok s2) by (eapply src_frame; [exact Hok|apply F2]).
  wp_step. eapply (data_out_wp i ls s2); [exact T2|apply lookup_singleton_eq|done|done|lia|done|]. rewrite P2.
  intros km Hkf Hksame Hkb T3. set (s3 := set_pk km s2) in *.
  assert (Hok3 : ok s3) by (apply src_cache; [done|by rewrite P2|by rewrite P2]).
  assert (Hcache : forall a, data_addr j o <= a < data_addr j o + m -> in_cache a).
  { intros a Ha. eapply (data_in_cache j o m); [by eapply tx_held_lt; [|apply lookup_singleton_eq]|done|done|done]. }
  wp_step. eapply (src_copy ls s3); [by eapply tx_ready|done|unfold BSIZE in *; lia|done|done|].
  intros s4 U4 E4 Hok4 W4 M4. assert (T4 := tx_uframe _ _ _ _ _ _ _ _ _ _ T3 U4 E4).
  set (bs := source_bytes (phys (pk s)) src (Z.to_nat m)) in *. assert (Hbl : length bs = Z.to_nat m) by apply length_source_bytes.
  assert (Eb : bytes (Z.to_nat m) (phys (pk s4)) (data_addr j o) = bs) by (apply (copied_bytes s s3 s4); [done|lia|exact Hksame|exact W4]).
  unfold data_in. wp_step. wp_step. eapply tx_data; [exact T4|apply lookup_singleton_eq|]. wp_step. wp_step. rewrite Eb.
  assert (Ed : take (Z.to_nat o) (L b) ++ bs ++ drop (Z.to_nat (o + m)) (L b) = splice (L b) (Z.to_nat o) bs).
  { unfold splice. rewrite Hbl. do 3 f_equal. lia. }
  rewrite Ed. apply wp_unbind. cbn [Z.eqb]. apply wp_group. wp_step. set (d := splice _ _ _) in *.
  assert (Hbs : bytes_ok d) by (apply bytes_ok_splice; [done|apply source_bytes_ok]).
  eapply tx_log; [exact T4|apply lookup_singleton_eq|unfold d; rewrite length_splice; [done|rewrite Hbl, Hlen; unfold bsize, BSIZE in *; lia]|by eapply data_home|unfold logsize in *; lia|].
  intros s5 F5 T5. wp_step. eapply tx_release; [exact T5|apply lookup_singleton_eq|]. intros s6 F6 T6. rewrite delete_singleton_eq in T6.
  destruct (write_block L f start x bn d Hly Hwf Hbn Hnz Hbs) as (Hly2 & Hwf2 & X2 & _). fold b in Hly2, Hwf2, X2.
  assert (R6 : rstep i s s6).
  { eapply rstep_trans; [apply rstep_fstep, F2|]. eapply rstep_trans; [|eapply rstep_trans; [apply rstep_fstep, F5|apply rstep_fstep, F6]].
    apply rstep_mem; [eapply uframe_trans; [apply uframe_pk|exact U4]|exact E4]. }
  destruct (rstep_same _ _ _ R6) as (I6 & B6 & P6). pose proof (fstep_pk _ _ _ F6) as K6. pose proof (fstep_pk _ _ _ F5) as K5.
  eapply HQ; [done| | |reflexivity| |done].
  - eapply src_frame; [|apply F6]. eapply src_frame; [exact Hok4|apply F5].
  - intros a Ha. rewrite K6, K5. rewrite M4 by (intros Hin; by apply Ha, Hcache). by apply Hksame.
  - split; rewrite ?I6, ?B6, ?P6; try done. apply logs_only_logged.
    + eapply (logs_only_ext f L x _ x lo hi lo hi); [exact X2|lia|lia|done].
    + right. right. exists bn. split; [done|]. split; [done|]. split; [by rewrite (fe_block _ _ _ _ _ X2)|done].
Qed.

(** [w] bytes of the source are in the file from offset [off] on; the other
    bytes of its blocks are as before. *)
Record wrote_file (m : mem) (src off w : Z) L (x : inode) (L2 : Z -> list Z) (x2 : inode) : Prop := {
  wr_ext : fext f L x L2 x2;
  wr_there o : off <= o < off + w -> mblock L2 x2 (o / BSIZE) <> 0;
  wr_new o : off <= o < off + w -> mbyte L2 x2 o = content m (src + (o - off));
  wr_old o : 0 <= o < MAXFILE * BSIZE -> mblock L x (o / BSIZE) <> 0 -> ~ off <= o < off + w -> mbyte L2 x2 o = mbyte L x o;
}.

Lemma kept_mbyte L x L2 x2 o : fext f L x L2 x2 -> kept L x L2 -> 0 <= o < MAXFILE * BSIZE -> mblock L x (o / BSIZE) <> 0 ->
  mbyte L2 x2 o = mbyte L x o.
Proof. intros X K Ho Hnz. pose proof (slot_range o Ho). unfold mbyte. by rewrite (fe_block _ _ _ _ _ X), K. Qed.

(** The effect of one turn on the bytes of the file. *)
Lemma chunk_mbyte L x off m bs o : file_wf L f x -> length (L (mblock L x (off / BSIZE))) = bsize ->
  0 <= off < MAXFILE * BSIZE -> mblock L x (off / BSIZE) <> 0 -> off mod BSIZE + m <= BSIZE -> length bs = Z.to_nat m -> 0 < m ->
  let b := mblock L x (off / BSIZE) in let L2 := block_upd L b (splice (L b) (Z.to_nat (off mod BSIZE)) bs) in
  (forall bn, 0 <= bn < MAXFILE -> mblock L2 x bn = mblock L x bn) ->
  0 <= o < MAXFILE * BSIZE -> mblock L x (o / BSIZE) <> 0 ->
  mbyte L2 x o = if decide (off <= o < off + m) then byte_at bs (Z.to_nat (o - off)) else mbyte L x o.
Proof.
  intros Hwf Hl Hoff Hnz Hm Hbl Hpos b L2 Hmb Ho Hoz. pose proof (slot_range o Ho) as So. pose proof (slot_range off Hoff) as Soff.
  unfold mbyte. rewrite Hmb by done. unfold L2.
  pose proof (Z.div_mod o BSIZE ltac:(done)) as Do. pose proof (Z.div_mod off BSIZE ltac:(done)) as Doff.
  pose proof (Z.mod_pos_bound o BSIZE ltac:(done)) as Mo. pose proof (Z.mod_pos_bound off BSIZE ltac:(done)) as Moff.
  destruct (decide (o / BSIZE = off / BSIZE)) as [E|E].
  - rewrite E. fold b. rewrite block_upd_eq, byte_at_splice by (fold b in Hl; rewrite Hl, Hbl; unfold bsize, BSIZE in *; lia). rewrite Hbl.
    rewrite E in Do. do 2 case_decide; try lia. f_equal. lia.
  - rewrite block_upd_ne by (intros Eb; apply E, eq_sym; by apply (fw_inj _ _ _ Hwf)). rewrite decide_False; [done|].
    intros [H1 H2]. apply E. symmetry. apply (Z.div_unique_pos _ _ _ (off mod BSIZE + (o - off))); lia.
Qed.

(** Nothing written yet. *)
Lemma wrote_none m src off L x L2 x2 : fext f L x L2 x2 -> kept L x L2 -> wrote_file m src off 0 L x L2 x2.
Proof. intros X K. split; [done|lia|lia|]. intros o Ho Hnz _. by apply kept_mbyte. Qed.

(** A turn followed by the rest. *)
Lemma wrote_step mm mm2 src off m w L x L1 x1 L2 L3 x3 :
  layout L3 f start -> file_wf L1 f x1 -> file_wf L3 f x3 -> (forall b, length (L1 b) = bsize) ->
  fext f L x L1 x1 -> kept L x L1 -> fext f L1 x1 L2 x1 ->
  0 <= off -> off + m + w <= MAXFILE * BSIZE -> mblock L1 x1 (off / BSIZE) <> 0 -> off mod BSIZE + m <= BSIZE -> 0 < m -> 0 <= w ->
  L2 = block_upd L1 (mblock L1 x1 (off / BSIZE)) (splice (L1 (mblock L1 x1 (off / BSIZE))) (Z.to_nat (off mod BSIZE)) (source_bytes mm src (Z.to_nat m))) ->
  (forall o, off + m <= o < off + m + w -> content mm2 (src + (o - off)) = content mm (src + (o - off))) ->
  wrote_file mm2 (src + m) (off + m) w L2 x1 L3 x3 -> wrote_file mm src off (m + w) L x L3 x3.
Proof.
  intros Hly3 Hwf1 Hwf3 Hl1 X1 K1 X2 Hoff Hend Hnz Hm Hpos Hw E2 Hmm [X3 T3 N3 O3].
  assert (Hmb : forall bn, 0 <= bn < MAXFILE -> mblock L2 x1 bn = mblock L1 x1 bn).
  { intros bn Hbn. unfold mblock. rewrite E2. destruct (bn <? NDIRECT); [done|]. destruct (ind x1 =? 0); [done|].
    rewrite block_upd_ne; [done|]. apply (fw_ind _ _ _ Hwf1); [apply slot_range; lia|done]. }
  assert (Hbyte : forall o, 0 <= o < MAXFILE * BSIZE -> mblock L1 x1 (o / BSIZE) <> 0 ->
    mbyte L2 x1 o = if decide (off <= o < off + m) then content mm (src + (o - off)) else mbyte L1 x1 o).
  { intros o Ho Hoz. subst L2. rewrite (chunk_mbyte L1 x1 off m) by (done || lia || apply length_source_bytes). case_decide; [|done].
    unfold byte_at, source_bytes. rewrite list_lookup_fmap, lookup_seq_lt by lia. simpl. do 2 f_equal. lia. }
  assert (Hin : forall o, off <= o < off + m -> o / BSIZE = off / BSIZE).
  { intros o Ho. symmetry. apply (Z.div_unique_pos _ _ _ (off mod BSIZE + (o - off))); pose proof (Z.div_mod off BSIZE ltac:(done)); pose proof (Z.mod_pos_bound off BSIZE ltac:(done)); lia. }
  assert (Hsl : forall o, off <= o < off + m -> mblock L2 x1 (o / BSIZE) <> 0).
  { intros o Ho. rewrite Hin, Hmb by (done || (apply slot_range; lia)). done. }
  split.
  - eapply fext_trans; [|eapply fext_trans; [|exact X1|exact X2]|exact X3].
    + intros a Ha. by eapply wf_range.
    + intros a Ha. eapply wf_range; [exact Hly3|exact Hwf3|]. by eapply fext_in.
  - intros o Ho. destruct (decide (o < off + m)) as [Hlt|Hge]; [|apply T3; lia].
    rewrite (fe_block _ _ _ _ _ X3); [apply Hsl; lia|apply slot_range; lia|apply Hsl; lia].
  - intros o Ho. destruct (decide (o < off + m)) as [Hlt|Hge].
    + rewrite O3, Hbyte, decide_True by (try lia; try (apply Hsl; lia); rewrite Hin by lia; done). done.
    + rewrite N3, <- Hmm by lia. f_equal. lia.
  - intros o Ho Hoz Hno. assert (H1 : mblock L1 x1 (o / BSIZE) <> 0) by (rewrite (fe_block _ _ _ _ _ X1); [done|by apply slot_range|done]).
    rewrite O3, Hbyte, decide_False by (try lia; rewrite ?Hmb by (by apply slot_range); done). by apply kept_mbyte.
Qed.

Lemma mem_same_trans s1 s2 s3 : mem_same s1 s2 -> mem_same s2 s3 -> mem_same s1 s3.
Proof. intros A B a Ha. by rewrite B, A. Qed.

Lemma writei_loop_wp fuel s L blks x src off tot n (Q : Z * Z -> kernel -> Prop) :
  wstate s L blks x ∅ -> ok s -> 0 <= off -> 0 <= tot <= n -> off + (n - tot) <= MAXFILE * BSIZE ->
  lo * BSIZE <= off -> off + (n - tot) <= hi * BSIZE -> src_ok src (n - tot) -> blocks_left off (n - tot) < Z.of_nat fuel ->
  (forall s2 L2 blks2 x2 w, dstep i s (<[k := x2]> (itable (pfs s))) s2 -> ok s2 -> mem_same s s2 -> wstate s2 L2 blks2 x2 ∅ ->
     0 <= w <= n - tot -> wrote_file (phys (pk s)) src off w L x L2 x2 -> (w < n - tot -> disk_full L2 f) -> Q (tot + w, off + w) s2) ->
  wp (writei_loop fuel k user src off tot n) s Q.
Proof.
  revert s L blks x src off tot. induction fuel as [|fuel IH]; intros s L blks x src off tot Hw Hok Hoff Htot Hend Hlo Hhi Hsrc Hfuel HQ; cbn [writei_loop].
  { unfold blocks_left in Hfuel. case_decide; [|lia]. pose proof (Z.div_le_mono off (off + (n - tot) - 1) BSIZE ltac:(done)). lia. }
  destruct (Z.ltb_spec tot n) as [Hlt|Hge].
  2:{ apply wp_ret. specialize (HQ s L blks x 0). rewrite !Z.add_0_r in HQ. apply HQ; try done; [|lia|apply wrote_none; [apply wf_refl, Hw|done]|lia].
      rewrite list_insert_id by apply Hw. apply dstep_rstep, rstep_refl. }
  pose proof (Z.mod_pos_bound off BSIZE ltac:(done)) as Hmod. pose proof (Z.div_mod off BSIZE ltac:(done)) as Hdm.
  assert (Hslot : 0 <= off / BSIZE < MAXFILE) by (apply slot_range; lia).
  assert (Hlh : lo <= off / BSIZE < hi).
  { split; [apply Z.div_le_lower_bound; [done|lia]|apply Z.div_lt_upper_bound; [done|lia]]. }
  wp_step. eapply (bmap_ws ls i me start nop f k blks0 lo hi Hpr Hlohi Hroom); [exact Hw|done|done|].
  intros r s1 (L1 & blks1 & x1 & S1 & W1 & X1 & K1 & -> & Hfull). pose proof (dstep_istep _ _ _ _ S1) as D1. destruct (istep_same _ _ _ _ S1) as (I1 & _).
  assert (Hok1 : ok s1) by (eapply src_frame; [exact Hok|apply S1]).
  assert (M1 : pk s1 = pk s) by (destruct S1 as [[_ (_ & _ & E & _)] _]; done).
  destruct (Z.eqb_spec (mblock L1 x1 (off / BSIZE)) 0) as [Hz|Hnz].
  { apply wp_ret. specialize (HQ s1 L1 blks1 x1 0). rewrite !Z.add_0_r in HQ. apply HQ; try done; [intros a _; by rewrite M1|lia|by apply wrote_none|]. intros _. by apply Hfull. }
  wp_step. apply (geti_wp s1 k x1); [apply W1|]. rewrite (fw_dev _ _ _ (ws_file _ _ _ _ _ _ _ _ _ _ _ _ _ _ _ W1)). cbv zeta.
  set (m := Z.min (n - tot) (BSIZE - off mod BSIZE)). assert (Hm : 0 < m /\ off mod BSIZE + m <= BSIZE /\ m <= n - tot) by lia.
  destruct (src_sub src (n - tot) m Hsrc ltac:(lia)) as [Hs1 Hs2]. pose proof (src_range src (n - tot) Hsrc) as Hsr.
  eapply (write_chunk_wp s1 L1 blks1 x1 (off / BSIZE) (off mod BSIZE) m src); [done..|lia|lia|lia|done|]. rewrite M1.
  intros s2 L2 blks2 R2 Hok2 M2 E2 W2 X2. destruct (rstep_same _ _ _ R2) as (I2 & _). fold m.
  rewrite u64_small by lia. rewrite u32_small by (unfold MAXFILE, NDIRECT, NINDIRECT, BSIZE in *; change (1024 / 4) with 256 in *; lia).
  assert (El : n - (tot + m) = n - tot - m) by lia.
  apply (IH s2 L2 blks2 x1); rewrite ?El; [done|done|lia|lia|lia|lia|lia|done| |].
  { rewrite blocks_left_step; [lia|done|lia|done]. }
  assert (M12 : mem_same s s2) by (intros a Ha; rewrite <- M1; by apply M2).
  intros s3 L3 blks3 x3 w D3 Hok3 M3 W3 Hw3 WF3 Hf3. rewrite <- !Z.add_assoc. apply (HQ s3 L3 blks3 x3 (m + w)).
  - eapply dstep_trans; [exact D1|]. eapply dstep_trans; [by apply dstep_rstep|]. rewrite I2, I1, list_insert_insert_eq in D3. exact D3.
  - done.
  - by eapply mem_same_trans.
  - done.
  - lia.
  - eapply (wrote_step (phys (pk s)) (phys (pk s2)) src off m w L x L1 x1 L2 L3 x3); [apply W3|apply W1|apply W3|..|exact WF3]; try done; try lia.
    + intros b. by eapply ws_len.
    + intros o Ho. eapply src_same; [exact Hsrc|lia|done].
  - intros Hlt3. apply Hf3. lia.
Qed.

End Write.

(** ** The whole call *)

Section Writei.
Context `{LinkerOk} (ls : list lockid) (i : nat) (me start nop : Z) (f : superblock) (k : nat).
Context (user : bool) (ok : kernel -> Prop) (src_ok : Z -> Z -> Prop) (content : mem -> Z -> Z) `{!Source i user ok src_ok content}.
Implicit Types (s : kernel) (L : Z -> list Z).

(** The number of slots that a range touches. *)
Definition span (off n : Z) : nat := Z.to_nat ((off + n) / BSIZE + 1 - off / BSIZE).

(** [r] bytes have been written at [off] into the file [x] of inode number
    [inum], which has become [x2]: *)
Record file_written (m : mem) (src off r : Z) L (x : inode) (L2 : Z -> list Z) (x2 : inode) : Prop := {
  (** the inode differs in size and addresses, and is on disk; *)
  wn_inode : x2 = set_i_size (Z.max (i_size x) (off + r)) (set_i_addrs (i_addrs x2) x);
  wn_disk : on_disk L2 f (i_inum x) = dinode_of x2;
  (** the range has the bytes of the source, the rest its old contents; *)
  wn_bytes o : 0 <= o < i_size x2 ->
    file_byte L2 x2 o = if decide (off <= o < off + r) then content m (src + (o - off)) else file_byte L x o;
  (** no other inode and no block that was in use by another file changed, and
      exactly the blocks that the file took are no longer free. *)
  wn_inodes inum : 0 <= inum < sb_ninodes f -> inum <> i_inum x -> on_disk L2 f inum = on_disk L f inum;
  wn_others a : data_block f a -> allocated L f a = true -> ~ in_file L x a -> L2 a = L a /\ ~ in_file L2 x2 a;
  wn_alloc a : 0 <= a < sb_size f -> (allocated L2 f a = true <-> allocated L f a = true \/ in_file L2 x2 a);
}.

(** The size and the copy on disk do not concern the blocks. *)
Lemma mblock_size L x n bn : mblock L (set_i_size n x) bn = mblock L x bn.
Proof. done. Qed.

Lemma stored_other L x b : IBLOCK (i_inum x) f <> b -> stored L f x b = L b.
Proof. intros Hne. unfold stored. by rewrite block_upd_ne. Qed.

Lemma stored_mblock L x n bn : layout L f start -> file_wf L f x -> 0 <= i_inum x < sb_ninodes f ->
  mblock (stored L f (set_i_size n x)) (set_i_size n x) bn = mblock L x bn.
Proof.
  intros Hly Hwf Hi. rewrite mblock_size. unfold mblock. destruct (bn <? NDIRECT); [done|]. destruct (Z.eqb_spec (ind x) 0) as [|Hnz]; [done|].
  rewrite stored_other; [done|]. apply not_eq_sym. eapply data_not_inode; [done| |done]. apply (fw_data _ _ _ Hwf). split; auto.
Qed.

(** Storing the inode keeps the file and the layout. *)
Lemma stored_wf L x n : layout L f start -> file_wf L f x -> 0 <= i_inum x < sb_ninodes f ->
  0 <= n <= MAXFILE * BSIZE -> (forall bn, 0 <= bn -> bn * BSIZE < n -> mblock L x bn <> 0) ->
  let x2 := set_i_size n x in let L2 := stored L f x2 in
  layout L2 f start /\ file_wf L2 f x2 /\ (forall a, in_file L2 x2 a <-> in_file L x a) /\
  (forall a, 0 <= a < sb_size f -> allocated L2 f a = allocated L f a) /\ (forall a, in_file L x a -> L2 a = L a).
Proof.
  intros Hly Hwf Hi Hn Hthere x2 L2.
  assert (Hmb : forall bn, mblock L2 x2 bn = mblock L x bn) by (intros; by apply stored_mblock).
  assert (Hin : forall a, in_file L2 x2 a <-> in_file L x a) by (intros a; unfold in_file; by setoid_rewrite Hmb).
  assert (Hal : forall a, 0 <= a < sb_size f -> allocated L2 f a = allocated L f a).
  { intros a Ha. apply allocated_upd. by eapply inode_not_map. }
  assert (Hf : forall a, in_file L x a -> L2 a = L a).
  { intros a Ha. apply stored_other, not_eq_sym. eapply data_not_inode; [done| |done]. by apply (fw_data _ _ _ Hwf). }
  split_and!; [|split|done|done|done].
  - eapply layout_mono; [done|]. intros a Ha E. by rewrite Hal.
  - apply Hwf.
  - apply Hwf.
  - done.
  - intros bn Hbn Hlt. rewrite Hmb. by apply Hthere.
  - intros a Ha%Hin. destruct (fw_data _ _ _ Hwf a Ha) as (A & B & C). pose proof (wf_range _ _ _ _ _ Hly Hwf Ha). by rewrite Hal, Hf.
  - intros b c Hb Hc. rewrite !Hmb. by apply (fw_inj _ _ _ Hwf).
  - intros b Hb. rewrite Hmb. by apply (fw_ind _ _ _ Hwf).
Qed.

(** The inode blocks are not touched by the loop. *)
Lemma inode_block_same L x L2 x2 inum : layout L f start -> layout L2 f start -> file_wf L2 f x2 -> fext f L x L2 x2 -> 0 <= inum < sb_ninodes f ->
  L2 (IBLOCK inum f) = L (IBLOCK inum f).
Proof.
  intros Hly Hly2 Hwf2 X Hi. apply (fe_other _ _ _ _ _ X).
  - intros b Hb. by eapply inode_not_map.
  - intros Hin. destruct (fw_data _ _ _ Hwf2 _ Hin) as (Hd & _). by eapply data_not_inode in Hd.
Qed.

Section Written.
Context (m : mem) (src off w : Z) (L : Z -> list Z) (x : inode) (L2 : Z -> list Z) (x2 : inode).
Hypothesis Hly : layout L f start.
Hypothesis Hly2 : layout L2 f start.
Hypothesis Hwf : file_wf L f x.
Hypothesis Hwf2 : file_wf L2 f x2.
Hypothesis Hlen : forall b, length (L2 b) = bsize.
Hypothesis Hdi : dinode_ok (dinode_of x).
Hypothesis Hinum : 0 <= i_inum x < sb_ninodes f.
Hypothesis Hoff : 0 <= off <= i_size x.
Hypothesis Hw : 0 <= w /\ off + w <= MAXFILE * BSIZE.
Hypothesis Hwr : wrote_file f content m src off w L x L2 x2.
Let x3 : inode := set_i_size (Z.max (i_size x) (off + w)) x2.
Let L3 : Z -> list Z := stored L2 f x3.

Lemma written_meta : i_inum x2 = i_inum x /\ i_size x2 = i_size x /\ x3 = set_i_size (Z.max (i_size x) (off + w)) (set_i_addrs (i_addrs x3) x).
Proof. pose proof (fe_same _ _ _ _ _ (wr_ext _ _ _ _ _ _ _ _ _ _ Hwr)) as E. unfold x3. rewrite E. done. Qed.

Lemma written_there bn : 0 <= bn -> bn * BSIZE < Z.max (i_size x) (off + w) -> mblock L2 x2 bn <> 0.
Proof.
  intros Hbn Hlt. pose proof (fw_size _ _ _ Hwf). destruct (decide (bn * BSIZE < i_size x)) as [Hs|Hs].
  - pose proof (fw_there _ _ _ Hwf bn Hbn Hs). rewrite (fe_block _ _ _ _ _ (wr_ext _ _ _ _ _ _ _ _ _ _ Hwr)); [done|unfold BSIZE in *; lia|done].
  - rewrite <- (Z.div_mul bn BSIZE) by done. apply (wr_there _ _ _ _ _ _ _ _ _ _ Hwr). lia.
Qed.

Lemma written_stored : layout L3 f start /\ file_wf L3 f x3 /\ (forall a, in_file L3 x3 a <-> in_file L2 x2 a) /\
  (forall a, 0 <= a < sb_size f -> allocated L3 f a = allocated L2 f a) /\ (forall a, in_file L2 x2 a -> L3 a = L2 a).
Proof.
  destruct written_meta as (E1 & _). apply stored_wf; [done|done|by rewrite E1| |exact written_there]. pose proof (fw_size _ _ _ Hwf). lia.
Qed.

Lemma written_bytes o : 0 <= o < i_size x3 ->
  file_byte L3 x3 o = if decide (off <= o < off + w) then content m (src + (o - off)) else file_byte L x o.
Proof.
  destruct written_stored as (_ & Hwf3 & _ & _ & Hsame). destruct written_meta as (E1 & _). intros Ho. rewrite (file_byte_mbyte L3 f) by done.
  change (i_size x3) with (Z.max (i_size x) (off + w)) in Ho. pose proof (fw_size _ _ _ Hwf) as Hsz.
  assert (Hb0 : 0 <= o / BSIZE) by (apply Z.div_pos; [lia|done]). pose proof (Z.mul_div_le o BSIZE ltac:(done)) as Hle.
  pose proof (written_there (o / BSIZE) Hb0 ltac:(lia)) as Hnz.
  assert (E : mbyte L3 x3 o = mbyte L2 x2 o).
  { unfold mbyte, L3, x3. rewrite stored_mblock by (done || by rewrite E1). fold x3. fold L3. rewrite Hsame; [done|]. split; [done|]. right.
    exists (o / BSIZE). split; [|done]. apply slot_range. lia. }
  rewrite E. case_decide as Hd; [by apply (wr_new _ _ _ _ _ _ _ _ _ _ Hwr)|].
  rewrite (wr_old _ _ _ _ _ _ _ _ _ _ Hwr), <- (file_byte_mbyte L f); [done|done|lia|lia| |done]. apply (fw_there _ _ _ Hwf); lia.
Qed.

Lemma written_file : file_written m src off w L x L3 x3.
Proof.
  destruct written_meta as (E1 & E2 & E3). destruct written_stored as (Hly3 & Hwf3 & Hin & Hal & Hsame).
  pose proof (wr_ext _ _ _ _ _ _ _ _ _ _ Hwr) as X. assert (Hi3 : i_inum x3 = i_inum x) by done.
  split; [done| |exact written_bytes| | |].
  - rewrite <- Hi3. apply on_disk_stored; [done|]. destruct Hdi. eapply wf_dinode_ok; [done|done|..]; rewrite E3; done.
  - intros inum Hn Hne. pose proof (inode_block_same L x L2 x2 inum Hly Hly2 Hwf2 X Hn) as Eb. unfold on_disk, L3, stored. rewrite Hi3.
    destruct (decide (IBLOCK (i_inum x) f = IBLOCK inum f)) as [E|E]; [|by rewrite block_upd_ne, Eb].
    rewrite E, block_upd_eq, dinode_get_put_ne; [by rewrite Eb|rewrite Hlen; apply dinode_off_bound|apply Hwf3|].
    destruct (inode_place L f start (i_inum x) inum); try done; auto.
  - intros a Hd Ha Hn. assert (Hn2 : ~ in_file L2 x2 a).
    { intros Hi. destruct (fe_new _ _ _ _ _ X a Hi); [done|congruence]. }
    split; [|by rewrite Hin]. unfold L3. rewrite stored_other by (rewrite Hi3; by eapply not_eq_sym, data_not_inode).
    apply (fe_other _ _ _ _ _ X); [|done]. intros b Hb. by eapply data_not_map.
  - intros a Ha. rewrite Hal, Hin by done. by apply (fe_alloc _ _ _ _ _ X).
Qed.

End Written.

Lemma full_stored L x : layout L f start -> 0 <= i_inum x < sb_ninodes f -> disk_full L f -> disk_full (stored L f x) f.
Proof. intros Hly Hi Hf c Hc Hlt. unfold stored. rewrite allocated_upd by (eapply inode_not_map; [exact Hly|done|lia]). by apply Hf. Qed.

(** A file that can be written: its inode is locked and up to date. *)
Record writable s L (blks : list Z) (x : inode) : Prop := {
  wl_tx : tx_state ls i s me start nop L blks ∅;
  wl_pr : PrLock ∉ ls;
  wl_sb : sb (pfs s) = f;
  wl_panicked : panicked (pfs s) = 0;
  wl_entry : itable (pfs s) !! k = Some x;
  wl_layout : layout L f start;
  wl_file : file_wf L f x;
  wl_dinode : dinode_ok (dinode_of x);
  wl_inum : 0 <= i_inum x < sb_ninodes f;
}.

(** The store of the inode at the end. *)
Lemma iupdate_end lo hi blks0 s L blks x n (Q : Z -> kernel -> Prop) (r : Z) :
  (length blks + 3 < logsize)%nat -> wstate ls i me start nop f k blks0 lo hi s L blks x ∅ -> 0 <= i_inum x < sb_ninodes f -> i_dev x = ROOTDEV ->
  let x2 := if i_size x <? n then set_i_size n x else x in
  (forall s2, istep i s (<[k := x2]> (itable (pfs s))) s2 -> tx_state ls i s2 me start nop (stored L f x2) (logged blks (IBLOCK (i_inum x) f)) ∅ -> Q r s2) ->
  wp (x <- geti k ;; (when i_size x <? n then updi k (set_i_size n)) ;; iupdate k ;; ret r)%K s Q.
Proof.
  intros Hrm Hws Hi Hdev x2 HQ. pose proof Hws as [Htx Hsb Hpn Hent Hly Hwf Hlogs]. wp_step. apply (geti_wp s k x); [done|].
  assert (Hstep : wp (when i_size x <? n then updi k (set_i_size n))%K s
    (fun _ s1 => istep i s (<[k := x2]> (itable (pfs s))) s1 /\ tx_state ls i s1 me start nop L blks ∅)).
  { unfold x2. destruct (i_size x <? n).
    - eapply tx_updi; [exact Htx|done|]. intros s1 S1 T1. split; [|done]. by rewrite (alter_insert_at _ k _ x) in S1.
    - apply wp_ret. split; [|done]. rewrite list_insert_id by done. apply istep_fstep, fstep_refl. }
  wp_step. eapply wp_mono; [exact Hstep|]. cbv beta. intros _ s1 [S1 T1]. destruct (istep_same _ _ _ _ S1) as (I1 & B1 & _).
  assert (Hx1 : itable (pfs s1) !! k = Some x2) by (rewrite I1, list_lookup_insert_eq; [done|by eapply lookup_lt_Some]).
  assert (Hm : i_inum x2 = i_inum x /\ i_dev x2 = i_dev x) by (unfold x2; by destruct (i_size x <? n)). destruct Hm as [Hm1 Hm2].
  wp_step. eapply (iupdate_wp ls i s1 me start nop L blks ∅ k x2); rewrite ?B1, ?Hsb, ?Hm1; [done|done|by rewrite Hm2|intros j; by rewrite lookup_empty| | | |].
  - rewrite map_size_empty. unfold nbuf, logsize in *. lia.
  - by eapply inode_home.
  - lia.
  - intros s2 F2 T2. apply wp_ret, HQ; [|done]. eapply istep_trans; [exact S1|]. rewrite <- I1. by apply istep_fstep.
Qed.

(** What [writei] leaves. *)
Definition writei_post s L (blks : list Z) (x : inode) (src off n r : Z) s2 : Prop :=
  exists L2 blks2 x2, dstep i s (<[k := x2]> (itable (pfs s))) s2 /\ ok s2 /\ writable s2 L2 blks2 x2 /\
    0 <= r <= n /\ (r < n -> disk_full L2 f) /\ file_written (phys (pk s)) src off r L x L2 x2 /\
    (length blks2 <= length blks + length (map_blocks f) + span off n + 2)%nat.

Lemma writei_wp s L blks x src off n (Q : Z -> kernel -> Prop) :
  writable s L blks x -> ok s -> 0 <= off <= i_size x -> 0 <= n -> off + n <= MAXFILE * BSIZE -> src_ok src n ->
  (length blks + length (map_blocks f) + span off n + 4 < logsize)%nat ->
  (forall r s2, writei_post s L blks x src off n r s2 -> Q r s2) -> wp (writei k user src off n) s Q.
Proof.
  intros Hwl Hok Hoff Hn Hmax Hsrc Hroom HQ. pose proof Hwl as [Htx Hpr Hsb Hpn Hent Hly Hwf Hdi Hinum].
  set (lo := off / BSIZE). set (hi := (off + n) / BSIZE + 1).
  assert (Hlohi : lo <= hi) by (unfold lo, hi; pose proof (Z.div_le_mono off (off + n) BSIZE ltac:(done)); lia).
  assert (Hspan : Z.to_nat (hi - lo) = span off n) by done. rewrite <- Hspan in Hroom.
  assert (Hws : wstate ls i me start nop f k blks lo hi s L blks x ∅) by (split; try done; apply logs_only_refl).
  assert (Hmx : MAXFILE * BSIZE = 274432) by done.
  unfold writei. wp_step. apply (geti_wp s k x); [done|]. rewrite (u32_small (off + n)) by lia.
  rewrite (proj2 (Z.ltb_ge (i_size x) off)), (proj2 (Z.ltb_ge (off + n) off)), (proj2 (Z.ltb_ge (MAXFILE * BSIZE) (off + n))) by lia. cbn [orb].
  wp_step. eapply (writei_loop_wp ls i me start nop f k user ok src_ok content blks lo hi Hpr Hlohi Hroom); rewrite ?Z.sub_0_r; [exact Hws|done|lia|lia|lia| | |done| |].
  { unfold lo. pose proof (Z.mul_div_le off BSIZE ltac:(done)). lia. }
  { unfold hi. pose proof (Z.div_mod (off + n) BSIZE ltac:(done)). pose proof (Z.mod_pos_bound (off + n) BSIZE ltac:(done)). lia. }
  { apply chunks_enough; lia. }
  intros s2 L2 blks2 x2 w D2 Hok2 M2 W2 Hw WF Hfull. rewrite Z.add_0_l.
  destruct (written_meta (phys (pk s)) src off w L x L2 x2 WF) as (E1 & E2 & E3).
  pose proof (ws_room _ _ _ _ _ _ _ _ _ _ Hlohi Hroom _ _ _ _ _ W2) as Hrm. destruct (dstep_same _ _ _ _ D2) as (I2 & B2 & P2).
  eapply (iupdate_end lo hi blks s2 L2 blks2 x2 (off + w)); [done|exact W2|by rewrite E1|apply W2|]. cbv zeta. rewrite E1, E2.
  set (x3 := if i_size x <? off + w then _ else _). assert (Ex3 : x3 = set_i_size (Z.max (i_size x) (off + w)) x2).
  { unfold x3. destruct (Z.ltb_spec (i_size x) (off + w)); [by rewrite Z.max_r by lia|]. rewrite Z.max_l, <- E2 by lia. by destruct x2. }
  rewrite Ex3. clear x3 Ex3. set (x3 := set_i_size (Z.max (i_size x) (off + w)) x2).
  assert (Hlen : forall b, length (L2 b) = bsize) by (intros b; eapply tx_len, W2).
  destruct (written_stored (phys (pk s)) src off w L x L2 x2 ltac:(apply W2) Hwf ltac:(apply W2) Hinum Hoff ltac:(lia) WF) as (Hly3 & Hwf3 & _).
  pose proof (written_file (phys (pk s)) src off w L x L2 x2 Hly ltac:(apply W2) Hwf ltac:(apply W2) Hlen Hdi Hinum Hoff ltac:(lia) WF) as FW.
  fold x3 in Hly3, Hwf3, FW. intros s3 S3 T3. rewrite i32_small by lia. apply HQ. destruct (istep_same _ _ _ _ S3) as (I3 & B3 & P3 & _).
  exists (stored L2 f x3), (logged blks2 (IBLOCK (i_inum x) f)), x3. split; [|split; [|split; [|split; [lia|split; [|split; [exact FW|]]]]]].
  - eapply dstep_trans; [exact D2|]. apply dstep_istep in S3. by rewrite I2, list_insert_insert_eq in S3.
  - eapply src_frame; [exact Hok2|apply S3].
  - split; rewrite ?B3, ?P3, ?B2, ?P2; try done.
    + rewrite I3. rewrite list_lookup_insert_eq; [done|]. rewrite I2, length_insert. by eapply lookup_lt_Some.
    + destruct Hdi. eapply wf_dinode_ok; [exact Hly3|exact Hwf3|..]; unfold x3; rewrite E3; done.
    + change (i_inum x3) with (i_inum x2). lia.
  - intros Hlt. apply full_stored; [apply W2|change (i_inum x3) with (i_inum x2); lia|]. apply Hfull. lia.
  - pose proof (logged_length blks2 (IBLOCK (i_inum x) f)). destruct (ws_tx _ _ _ _ _ _ _ _ _ _ _ _ _ _ _ W2) as (D & l & _ & _ & _ & Htx2).
    pose proof (logs_only_length f L2 x2 lo hi blks blks2 (tx_nodup _ _ _ _ _ _ _ _ Htx2) Hlohi (ws_logs _ _ _ _ _ _ _ _ _ _ _ _ _ _ _ W2)). lia.
Qed.

(** Offsets beyond the end and sizes beyond the maximum are refused. *)
Lemma writei_refused s x src off n : itable (pfs s) !! k = Some x -> 0 <= off -> 0 <= n -> off + n < 2 ^ 32 ->
  i_size x < off \/ MAXFILE * BSIZE < off + n -> writei k user src off n s = Ok (-1) s.
Proof.
  intros Hx Hoff Hn Hsum Hbad. assert (Hw : wp (writei k user src off n) s (fun r s2 => r = -1 /\ s2 = s)).
  { unfold writei. wp_step. apply (geti_wp s k x); [done|]. rewrite (u32_small (off + n)), (proj2 (Z.ltb_ge (off + n) off)), orb_false_r by lia.
    destruct (Z.ltb_spec (i_size x) off); [by apply wp_ret|]. rewrite (proj2 (Z.ltb_lt _ _)) by lia. by apply wp_ret. }
  apply wp_ok in Hw as (r & s2 & -> & -> & ->). done.
Qed.

End Writei.
