(* ===== verification/PipeSpec.v ===== *)
(** * Pipes are queues

    A pipe is a queue of at most [PIPESIZE] bytes between its two counters:
    [pipewrite] appends bytes of the writer's memory, [piperead] takes bytes
    from the front into the reader's memory. *)

From S2P Require Import Prelude Riscv Mem CString Kalloc Vm PageTable VmSpec UserCopy Spinlock Proc ProcSpec ProcExit.
From S2P Require Import IoState SleepLock UserMem Ring DevSpec Pipe.

(** ** The queue in memory *)

Definition nread (m : mem) (pi : Z) : Z := ld 4 m (pi + OFF_nread).
Definition nwrite (m : mem) (pi : Z) : Z := ld 4 m (pi + OFF_nwrite).
Definition readopen (m : mem) (pi : Z) : Z := ld 4 m (pi + OFF_readopen).
Definition writeopen (m : mem) (pi : Z) : Z := ld 4 m (pi + OFF_writeopen).

(** The bytes written and not read. *)
Definition pipe_queue (m : mem) (pi : Z) : list Z :=
  ring PIPESIZE (fun x => rd m (pi + OFF_data + x)) (nread m pi) (Z.to_nat (ring_len (2 ^ 32) (nwrite m pi) (nread m pi))).

Definition pipe_ok (m : mem) (pi : Z) : Prop := ring_len (2 ^ 32) (nwrite m pi) (nread m pi) <= PIPESIZE.

(** The open flags are the same. *)
Definition pipe_flags (m m' : mem) (pi : Z) : Prop :=
  readopen m' pi = readopen m pi /\ writeopen m' pi = writeopen m pi.

Section Mem.
Implicit Types (m : mem) (pi : Z).

Lemma length_pipe_queue m pi : length (pipe_queue m pi) = Z.to_nat (ring_len (2 ^ 32) (nwrite m pi) (nread m pi)).
Proof. apply length_ring. Qed.

Lemma pipe_full m pi : pipe_ok m pi -> (length (pipe_queue m pi) <= 512)%nat.
Proof. unfold pipe_ok, PIPESIZE. rewrite length_pipe_queue. lia. Qed.

Lemma nread_range m pi : 0 <= nread m pi < 2 ^ 32.
Proof. apply (ld_range 4). Qed.
Lemma nwrite_range m pi : 0 <= nwrite m pi < 2 ^ 32.
Proof. apply (ld_range 4). Qed.

(** Only the page of the pipe matters. *)
Lemma pipe_ext m m' pi :
  (forall a, in_page pi a -> rd m' a = rd m a) ->
  nread m' pi = nread m pi /\ nwrite m' pi = nwrite m pi /\ pipe_flags m m' pi /\ pipe_queue m' pi = pipe_queue m pi.
Proof.
  intros E. assert (El : forall o, 0 <= o <= 4092 -> ld 4 m' (pi + o) = ld 4 m (pi + o)).
  { intros o Ho. apply ld_ext. intros x Hx. apply E. unfold in_page, PGSIZE. lia. }
  assert (Er : nread m' pi = nread m pi) by (by apply El).
  assert (Ew : nwrite m' pi = nwrite m pi) by (by apply El).
  split_and!; [done|done|by split; apply El|]. unfold pipe_queue. rewrite Er, Ew. apply ring_ext. intros k Hk. apply E.
  pose proof (Z.mod_pos_bound (nread m pi + Z.of_nat k) PIPESIZE). unfold PIPESIZE, OFF_data, in_page, PGSIZE in *. lia.
Qed.

(** The reader takes the first byte. *)
Lemma pipe_pop m pi :
  nread m pi <> nwrite m pi ->
  let m' := st 4 m (pi + OFF_nread) (u32 (nread m pi + 1)) in
  pipe_queue m pi = rd m (pdata pi (nread m pi)) :: pipe_queue m' pi /\
  (pipe_ok m pi -> pipe_ok m' pi) /\ pipe_flags m m' pi.
Proof.
  intros Hne m'. pose proof (nread_range m pi) as Hr. pose proof (nwrite_range m pi) as Hw.
  assert (Er : nread m' pi = u32 (nread m pi + 1)).
  { unfold nread, m'. rewrite ld_st_eq. apply u32_small, u32_range. }
  assert (Hst : forall o, o + 4 <= OFF_nread \/ OFF_nread + 4 <= o -> ld 4 m' (pi + o) = ld 4 m (pi + o)).
  { intros o Ho. apply ld_st_ne. simpl. lia. }
  assert (Ew : nwrite m' pi = nwrite m pi) by (apply Hst; unfold OFF_nread, OFF_nwrite; lia).
  assert (Hpos : 0 < ring_len (2 ^ 32) (nwrite m pi) (nread m pi)).
  { destruct (Z.eq_dec (ring_len (2 ^ 32) (nwrite m pi) (nread m pi)) 0) as [E|E].
    - apply ring_len_0 in E; [congruence|done|done|done].
    - pose proof (ring_len_range (2 ^ 32) ltac:(done) (nwrite m pi) (nread m pi)). lia. }
  assert (El : ring_len (2 ^ 32) (nwrite m' pi) (nread m' pi) = ring_len (2 ^ 32) (nwrite m pi) (nread m pi) - 1).
  { rewrite Er, Ew. by apply ring_len_pop. }
  split_and!.
  - unfold pipe_queue. rewrite El, Er. replace (Z.to_nat (ring_len _ _ _)) with
      (S (Z.to_nat (ring_len (2 ^ 32) (nwrite m pi) (nread m pi) - 1))) by lia.
    rewrite ring_cons. f_equal. change (u32 ?x) with (x mod 2 ^ 32).
    rewrite (ring_wrap PIPESIZE ltac:(done) (2 ^ 32)) by (done || by exists (2 ^ 23)).
    apply ring_ext. intros k Hk. unfold m'. rewrite rd_st. case_decide as Hd; [|done].
    pose proof (Z.mod_pos_bound (nread m pi + 1 + Z.of_nat k) PIPESIZE ltac:(done)). unfold OFF_nread, OFF_data, PIPESIZE in *. lia.
  - unfold pipe_ok. rewrite El. lia.
  - split; apply Hst; unfold OFF_nread, OFF_readopen, OFF_writeopen; lia.
Qed.

(** The writer appends a byte. *)
Lemma pipe_push m pi c :
  ring_len (2 ^ 32) (nwrite m pi) (nread m pi) < PIPESIZE -> 0 <= c < 256 ->
  let m' := wr (st 4 m (pi + OFF_nwrite) (u32 (nwrite m pi + 1))) (pdata pi (nwrite m pi)) c in
  pipe_queue m' pi = pipe_queue m pi ++ [c] /\ pipe_ok m' pi /\ pipe_flags m m' pi.
Proof.
  intros Hlt Hc m'. pose proof (nwrite_range m pi) as Hw. pose proof (Z.mod_pos_bound (nwrite m pi) PIPESIZE ltac:(done)) as Hmod.
  pose proof (ring_len_range (2 ^ 32) ltac:(done) (nwrite m pi) (nread m pi)) as Hlen.
  assert (Hld : forall o, OFF_nread <= o -> ld 4 m' (pi + o) = ld 4 (st 4 m (pi + OFF_nwrite) (u32 (nwrite m pi + 1))) (pi + o)).
  { intros o Ho. apply ld_ext. intros x Hx. apply rd_wr_ne. unfold pdata, OFF_data, OFF_nread, PIPESIZE in *. lia. }
  assert (Ew : nwrite m' pi = u32 (nwrite m pi + 1)).
  { unfold nwrite at 1. rewrite Hld by (unfold OFF_nread, OFF_nwrite; lia). rewrite ld_st_eq. apply u32_small, u32_range. }
  assert (Hst : forall o, OFF_nread <= o -> o + 4 <= OFF_nwrite \/ OFF_nwrite + 4 <= o -> ld 4 m' (pi + o) = ld 4 m (pi + o)).
  { intros o Ho Hd. rewrite Hld by done. apply ld_st_ne. simpl. lia. }
  assert (Er : nread m' pi = nread m pi) by (apply Hst; unfold OFF_nread, OFF_nwrite; lia).
  assert (El : ring_len (2 ^ 32) (nwrite m' pi) (nread m' pi) = ring_len (2 ^ 32) (nwrite m pi) (nread m pi) + 1).
  { rewrite Er, Ew. apply ring_len_push; unfold PIPESIZE in *; lia. }
  split_and!.
  - unfold pipe_queue. rewrite El, Er, Z2Nat.inj_add, Nat.add_1_r by lia.
    assert (Eend : (nread m pi + Z.of_nat (Z.to_nat (ring_len (2 ^ 32) (nwrite m pi) (nread m pi)))) mod PIPESIZE
        = nwrite m pi mod PIPESIZE).
    { rewrite Z2Nat.id by lia. apply ring_end; [done|done|by exists (2 ^ 23)]. }
    apply (ring_store PIPESIZE); [done|unfold PIPESIZE in *; lia| |]; rewrite ?Eend; unfold m', pdata.
    + rewrite rd_wr_eq. by apply u8_small.
    + intros x Hx Hne. rewrite rd_wr_ne by lia. rewrite rd_st. case_decide; [|done].
      unfold OFF_data, OFF_nwrite, PIPESIZE in *. simpl Z.of_nat in *. lia.
  - unfold pipe_ok. rewrite El. lia.
  - split; apply Hst; unfold OFF_nread, OFF_nwrite, OFF_readopen, OFF_writeopen; lia.
Qed.

End Mem.

(** ** Reading and writing *)

(** A reader that wants [n] bytes of the queue [q] gets [j], and [rest]
    remains; a byte whose copy fails is lost. *)
Definition delivered `{Linker} (A : aspace) (dst : Z) (n : nat) (q : list Z) (j : nat) (rest : list Z) : Prop :=
  (j = (n `min` length q)%nat /\ rest = drop j q) \/
  ((j < n `min` length q)%nat /\ ~ user_mapped A (dst + Z.of_nat j) /\ rest = drop (S j) q).

Section Ops.
Context `{LinkerOk}.
Context (ls : list lockid) (i : nat) (L : labels) (fr : list Z) (A : aspace) (pi : Z).
Implicit Types (s : kernel).

(** The pipe has a page of its own. *)
Definition pipe_page : Prop := page_ok pi /\ buf_ok L fr A pi PGSIZE.

(** The user bytes from [va] became [bs]; outside the pipe's page no other
    byte of a page changed. *)
Definition moved (m m' : mem) (va : Z) (bs : list Z) : Prop :=
  (forall k b, bs !! k = Some b -> user_mapped A (va + Z.of_nat k) /\ rd m' (upa A (va + Z.of_nat k)) = b) /\
  (forall a, kend <= a < PHYSTOP -> ~ in_page pi a -> (forall k, (k < length bs)%nat -> a <> upa A (va + Z.of_nat k)) ->
     rd m' a = rd m a).

Lemma user_at_buf_write s k' a len :
  user_at i s L fr A -> buf_ok L fr A a len -> freelist k' = freelist (pk s) ->
  (forall x, ~ (a <= x < a + len) -> rd (phys k') x = rd (phys (pk s)) x) -> user_at i (set_pk k' s) L fr A.
Proof. intros [(p & Hp & Hs) Hu] Hb Hf Hw. split; [|done]. exists p. split; [done|]. by eapply buf_write_space. Qed.

Lemma klocal_buf s : user_at i s L fr A -> buf_ok L fr A klocal 1.
Proof. intros [(p & Hp & Hs) Hu]. eapply kvar_buf_ok; [done|done|]. right. apply klocal_layout. Qed.

Lemma user_not_pipe va : pipe_page -> 0 <= va -> user_mapped A va -> ~ in_page pi (upa A va).
Proof.
  intros [_ Hb] Hva Hm Hin. apply (Hb (upa A va) Hin) in Hm as Hn; [|done]. by apply Hn, upa_in_page.
Qed.

Lemma klocal_not_pipe : pipe_page -> ~ in_page pi klocal.
Proof. intros [Hp _]. pose proof (page_ok_bounds _ Hp). pose proof klocal_layout. unfold in_page. lia. Qed.

Lemma proc_copyout_wp s dst (Q : Z -> kernel -> Prop) :
  user_at i s L fr A -> 0 <= dst ->
  (forall k r n, user_at i (set_pk k s) L fr A -> copy_result A dst 1 n r ->
     wrote_user A (phys (pk s)) (phys k) dst klocal n -> Q r (set_pk k s)) ->
  wp (p <- getp i ;; inmem (copyout (pagetable p) dst klocal 1))%K s Q.
Proof.
  intros Hua Hd HQ. pose proof (klocal_buf s Hua) as Hb. pose proof Hua as [(p & Hp & Hs) Hu]. wp_step. apply (getp_wp _ i p); [done|].
  unfold inmem. wp_step. eapply wp_mono; [by eapply copyout_wp; [exact Hs|..]|].
  intros r k' (n & Hn & Hw & Hf & Hs' & Hres). eapply HQ; [|by split|done]. split; [|done]. by exists p.
Qed.

Lemma proc_copyin_wp s src (Q : Z -> kernel -> Prop) :
  user_at i s L fr A -> 0 <= src ->
  (forall k r n, user_at i (set_pk k s) L fr A -> copy_result A src 1 n r ->
     read_user A (phys (pk s)) (phys k) klocal src n -> Q r (set_pk k s)) ->
  wp (p <- getp i ;; inmem (copyin (pagetable p) klocal src 1))%K s Q.
Proof.
  intros Hua Hd HQ. pose proof (klocal_buf s Hua) as Hb. pose proof Hua as [(p & Hp & Hs) Hu]. wp_step. apply (getp_wp _ i p); [done|].
  unfold inmem. wp_step. eapply wp_mono; [by eapply copyin_wp; [exact Hs|..]|].
  intros r k' (n & Hn & Hw & Hf & Hs' & Hres). eapply HQ; [|by split|done]. split; [|done]. by exists p.
Qed.

Lemma moved_nil m m' va : (forall a, kend <= a < PHYSTOP -> ~ in_page pi a -> rd m' a = rd m a) -> moved m m' va [].
Proof. intros E. split; [done|]. intros a Ha Hn _. by apply E. Qed.

Lemma moved_cons m m1 m2 va c bs :
  user_ok L fr A -> pipe_page -> 0 <= va -> moved m m1 va [c] -> moved m1 m2 (va + 1) bs -> moved m m2 va (c :: bs).
Proof.
  intros Hu Hpg Hva [W1 F1] [W2 F2]. destruct (W1 0%nat c eq_refl) as [Hm E1]. rewrite Z.add_0_r in *. split.
  - intros [|k] b Hk; [injection Hk as <-; rewrite Z.add_0_r; split; [done|]|].
    + rewrite F2; [done|by eapply upa_page|by apply user_not_pipe|]. intros k Hk Ek.
      destruct (lookup_lt_is_Some_2 bs k Hk) as [b Hb]. destruct (W2 k b Hb) as [Hm' _].
      eapply upa_inj in Ek; [lia|done|lia|lia|done|done].
    + destruct (W2 k b Hk). by replace (va + Z.of_nat (S k)) with (va + 1 + Z.of_nat k) by lia.
  - intros a Ha Hn Hne. rewrite F2, F1; [done|done|done| |done|done|].
    + intros [|k] Hk; [|simpl in Hk; lia]. apply (Hne 0%nat). simpl. lia.
    + intros k Hk. replace (va + 1 + Z.of_nat k) with (va + Z.of_nat (S k)) by lia. apply Hne. simpl. lia.
Qed.

(** Taking one byte into [ch]. *)
Lemma pop_byte_ok s (m := phys (pk s)) (c := rd m (pdata pi (nread m pi))) :
  user_at i s L fr A -> pipe_page -> pipe_ok m pi -> nread m pi <> nwrite m pi ->
  let m1 := wr (st 4 m (pi + OFF_nread) (u32 (nread m pi + 1))) klocal c in
  user_at i (set_pk (set_phys (fun m => wr m klocal c) (set_phys (fun x => st 4 x (pi + OFF_nread) (u32 (nread m pi + 1))) (pk s))) s) L fr A /\
  pipe_queue m pi = c :: pipe_queue m1 pi /\ pipe_ok m1 pi /\ pipe_flags m m1 pi /\ rd m1 klocal = c /\
  (forall a, kend <= a < PHYSTOP -> ~ in_page pi a -> rd m1 a = rd m a).
Proof.
  intros Hua Hpg Hok Hne m1. destruct (pipe_pop m pi Hne) as (Hq & Hok' & Hfl). specialize (Hok' Hok).
  set (m0 := st 4 m _ _) in *. assert (E : forall a, in_page pi a -> rd m1 a = rd m0 a).
  { intros a Ha. apply rd_wr_ne. intros <-. by apply (klocal_not_pipe Hpg). }
  destruct (pipe_ext m0 m1 pi E) as (Er & Ew & [F1 F2] & Eq). split_and!.
  - apply (user_at_buf_write (set_pk (set_phys (fun x => st 4 x (pi + OFF_nread) (u32 (nread m pi + 1))) (pk s)) s) _ klocal 1).
    + apply (user_at_buf_write s _ pi PGSIZE); [done|apply Hpg|done|]. intros x Hx. cbn [phys set_phys]. rewrite rd_st.
      case_decide; [|done]. unfold OFF_nread, PGSIZE in *. lia.
    + by eapply klocal_buf.
    + done.
    + intros x Hx. cbn [phys set_phys pk set_pk]. apply rd_wr_ne. lia.
  - by rewrite Eq.
  - unfold pipe_ok. by rewrite Er, Ew.
  - destruct Hfl as [? ?]. split; congruence.
  - unfold m1. rewrite rd_wr_eq. apply u8_small, rd_range.
  - intros a Ha Hn. unfold m1. pose proof klocal_layout. rewrite rd_wr_ne by lia. unfold m0. rewrite rd_st.
    case_decide; [|done]. unfold in_page, OFF_nread, PGSIZE in *. lia.
Qed.

(** Giving it to the user. *)
Lemma give_moved m m1 k dst c :
  (forall a, kend <= a < PHYSTOP -> ~ in_page pi a -> rd m1 a = rd m a) -> rd m1 klocal = c ->
  wrote_user A m1 k dst klocal 1 -> moved m k dst [c].
Proof.
  intros Hsame Hc [W F]. split.
  - intros [|?] b Hb; [|done]. injection Hb as <-. destruct (W 0) as [Hm E]; [lia|]. by rewrite Z.add_0_r, E, Z.add_0_r in *.
  - intros a Ha Hn Hne. rewrite F; [by apply Hsame|]. intros x Hx. assert (x = 0) as -> by lia. apply (Hne 0%nat). simpl. lia.
Qed.

Lemma wrote_pipe m k dst n : 
  pipe_page -> 0 <= dst -> wrote_user A m k dst klocal n ->
  nread k pi = nread m pi /\ nwrite k pi = nwrite m pi /\ pipe_flags m k pi /\ pipe_queue k pi = pipe_queue m pi.
Proof.
  intros Hpg Hd [W F]. apply pipe_ext. intros a Ha. apply F. intros x Hx ->. destruct (W x Hx) as [Hm _].
  revert Ha. apply user_not_pipe; [done|lia|done].
Qed.

Lemma delivered_S dst n c q j rest :
  user_mapped A dst -> delivered A (dst + 1) n q j rest -> delivered A dst (S n) (c :: q) (S j) rest.
Proof.
  intros Hm [[-> ->]|(Hj & Hu & ->)].
  - left. by simpl.
  - right. split; [simpl; lia|]. split; [|done]. by replace (dst + Z.of_nat (S j)) with (dst + 1 + Z.of_nat j) by lia.
Qed.

Lemma piperead_loop_wp n s dst i0 (Q : Z -> kernel -> Prop) :
  user_at i s L fr A -> pipe_page -> pipe_ok (phys (pk s)) pi -> 0 <= dst + i0 -> dst + i0 + Z.of_nat n < 2 ^ 64 ->
  (forall k j rest, user_at i (set_pk k s) L fr A -> pipe_ok (phys k) pi -> pipe_flags (phys (pk s)) (phys k) pi ->
     pipe_queue (phys k) pi = rest -> delivered A (dst + i0) n (pipe_queue (phys (pk s)) pi) j rest ->
     moved (phys (pk s)) (phys k) (dst + i0) (take j (pipe_queue (phys (pk s)) pi)) -> Q (i0 + Z.of_nat j) (set_pk k s)) ->
  wp (piperead_loop n i pi dst i0) s Q.
Proof.
  revert s i0. induction n as [|n IH]; intros s i0 Hua Hpg Hok Hd Hb HQ; cbn [piperead_loop].
  { apply wp_ret. specialize (HQ (pk s) 0%nat (pipe_queue (phys (pk s)) pi)). rewrite Z.add_0_r in HQ.
    replace (set_pk (pk s) s) with s in HQ by (by destruct s). apply HQ; [done|done|done|done|by left|by eapply moved_nil]. }
  wp_step. unfold pget. wp_step. wp_step. wp_step. fold (nread (phys (pk s)) pi) (nwrite (phys (pk s)) pi).
  destruct (Z.eqb_spec (nread (phys (pk s)) pi) (nwrite (phys (pk s)) pi)) as [E|E].
  { apply wp_ret. specialize (HQ (pk s) 0%nat (pipe_queue (phys (pk s)) pi)). rewrite Z.add_0_r in HQ.
    replace (set_pk (pk s) s) with s in HQ by (by destruct s).
    assert (El : length (pipe_queue (phys (pk s)) pi) = 0%nat) by (by rewrite length_pipe_queue, E, ring_len_self).
    apply HQ; [done|done|done|done| |by apply moved_nil]. left. rewrite El. split; [lia|done]. }
  destruct (pop_byte_ok s Hua Hpg Hok E) as (Hua1 & Hq & Hok1 & Hfl1 & Hc & Hsame).
  wp_step. wp_step. unfold pset. wp_step. apply phys_wr_wp. wp_step. apply phys_wr_wp. cbn [pk set_pk].
  unfold compose. set (m1 := wr _ _ _) in *. set (k1 := set_phys _ (set_phys _ (pk s))) in *.
  change (set_pk k1 (set_pk _ s)) with (set_pk k1 s). apply wp_group. wp_step. rewrite u64_small by lia.
  eapply proc_copyout_wp; [done|done|]. intros k r x Hua2 [Hx Hres] Hw. cbn [pk set_pk phys set_phys k1] in Hw. fold m1 in Hw.
  destruct (wrote_pipe _ _ _ _ Hpg Hd Hw) as (Er & Ew & [F1 F2] & Eq). change (set_pk k (set_pk k1 s)) with (set_pk k s) in *.
  destruct Hres as [[-> ->]|(-> & Hlt & Hun)]; cbn [Z.eqb].
  - assert (Hm : user_mapped A (dst + i0)) by (destruct Hw as [Hw _]; destruct (Hw 0) as [Hm _]; [lia|by rewrite Z.add_0_r in Hm]).
    apply (IH (set_pk k s) (i0 + 1)); [done|done| |lia|lia|].
    { unfold pipe_ok. cbn [pk set_pk]. by rewrite Er, Ew. }
    intros k2 j rest Hua3 Hok3 [G1 G2] Hq3 Hdel Hmv. cbn [pk set_pk] in *. replace (i0 + 1 + Z.of_nat j) with (i0 + Z.of_nat (S j)) by lia.
    rewrite Eq in Hdel, Hmv. replace (dst + (i0 + 1)) with (dst + i0 + 1) in * by lia.
    apply (HQ k2 (S j) rest); [done|done|destruct Hfl1; split; congruence|done|rewrite Hq; by apply delivered_S|].
    rewrite Hq. cbn [take]. eapply moved_cons; [apply Hua|done|done| |done]. by eapply give_moved.
  - apply wp_ret. specialize (HQ k 0%nat (pipe_queue (phys k) pi)). rewrite Z.add_0_r in HQ. apply HQ; [done| | |done| |].
    + unfold pipe_ok. by rewrite Er, Ew.
    + destruct Hfl1. split; congruence.
    + right. rewrite Hq, Eq. split; [simpl; lia|]. assert (x = 0) as -> by lia. split; [done|]. done.
    + apply moved_nil. intros a Ha Hn. assert (x = 0) as -> by lia. destruct Hw as [_ Hw]. rewrite Hw; [by apply Hsame|]. lia.
Qed.

(** A byte of the user goes to the end of the queue. *)
Lemma push_byte_ok s c (m := phys (pk s)) :
  user_at i s L fr A -> pipe_page -> ring_len (2 ^ 32) (nwrite m pi) (nread m pi) < PIPESIZE -> 0 <= c < 256 ->
  let m1 := wr (st 4 m (pi + OFF_nwrite) (u32 (nwrite m pi + 1))) (pdata pi (nwrite m pi)) c in
  user_at i (set_pk (set_phys (fun x => wr x (pdata pi (nwrite m pi)) c)
    (set_phys (fun x => st 4 x (pi + OFF_nwrite) (u32 (nwrite m pi + 1))) (pk s))) s) L fr A /\
  (forall a, ~ in_page pi a -> rd m1 a = rd m a).
Proof.
  intros Hua Hpg Hlt Hc m1. pose proof (Z.mod_pos_bound (nwrite m pi) PIPESIZE ltac:(done)) as Hmod.
  assert (E : forall a, ~ in_page pi a -> rd m1 a = rd m a).
  { intros a Ha. unfold m1, in_page, pdata, PGSIZE, OFF_data, OFF_nwrite, PIPESIZE in *. rewrite rd_wr_ne by lia.
    rewrite rd_st. case_decide; [|done]. lia. }
  split; [|done]. apply (user_at_buf_write s _ pi PGSIZE); [done|apply Hpg|done|]. intros x Hx. by apply E.
Qed.

(** The bytes in user memory do not change when the kernel's do. *)
Lemma user_bytes_same m m' va n :
  user_ok L fr A -> pipe_page -> 0 <= va -> (forall k, (k < n)%nat -> user_mapped A (va + Z.of_nat k)) ->
  (forall a, kend <= a < PHYSTOP -> ~ in_page pi a -> rd m' a = rd m a) ->
  user_bytes A m' va n = user_bytes A m va n.
Proof.
  intros Hu Hpg Hva Hm E. apply list_fmap_ext. intros k x Hk. apply lookup_seq in Hk as [-> Hk].
  specialize (Hm k Hk). apply E; [eapply upa_page; [done|lia|done]|apply user_not_pipe; [done|lia|done]].
Qed.

Lemma user_bytes_cons m va n : [rd m (upa A va)] ++ user_bytes A m (va + 1) n = user_bytes A m va (S n).
Proof.
  unfold user_bytes. cbn [seq fmap list_fmap app]. rewrite Z.add_0_r. f_equal.
  rewrite <- (fmap_S_seq 0 n), <- list_fmap_compose. apply list_fmap_ext. intros k x _. unfold compose. do 2 f_equal. lia.
Qed.

(** One turn of the writer's loop, once there is room. *)
Lemma pipewrite_byte_wp {T} s src (stop : K T) (go : K T) (Q : T -> kernel -> Prop) (m := phys (pk s)) :
  user_at i s L fr A -> pipe_page -> ring_len (2 ^ 32) (nwrite m pi) (nread m pi) < PIPESIZE -> 0 <= src ->
  (~ user_mapped A src -> forall k, user_at i (set_pk k s) L fr A ->
     (forall a, a <> klocal -> rd (phys k) a = rd m a) -> wp stop (set_pk k s) Q) ->
  (user_mapped A src -> forall k, user_at i (set_pk k s) L fr A -> pipe_ok (phys k) pi -> pipe_flags m (phys k) pi ->
     pipe_queue (phys k) pi = pipe_queue m pi ++ [rd m (upa A src)] ->
     (forall a, kend <= a < PHYSTOP -> ~ in_page pi a -> rd (phys k) a = rd m a) -> wp go (set_pk k s) Q) ->
  wp (p <- getp i ;; e <- inmem (copyin (pagetable p) klocal src 1) ;;
      if e =? -1 then stop
      else
        ch <- gets (fun s => rd (phys (pk s)) klocal) ;;
        pset pi OFF_nwrite (u32 (nwrite m pi + 1)) ;;
        phys_wr (fun m' => wr m' (pdata pi (nwrite m pi)) ch) ;; go)%K s Q.
Proof.
  intros Hua Hpg Hlt Hd HS HG. apply wp_group. wp_step. eapply proc_copyin_wp; [done|done|].
  intros k r x Hua1 [Hx Hres] [Wr F]. assert (Hsame : forall a, a <> klocal -> rd (phys k) a = rd m a).
  { intros a Ha. apply F. lia. }
  destruct Hres as [[-> ->]|(-> & Hx1 & Hun)]; cbn [Z.eqb].
  2:{ assert (x = 0) as -> by lia. rewrite Z.add_0_r in Hun. by apply HS. }
  destruct (Wr 0) as [Hm Hch]; [lia|]. rewrite !Z.add_0_r in *. do 2 wp_step. cbn [pk set_pk]. rewrite Hch.
  destruct (pipe_ext m (phys k) pi) as (Er & Ew & [F1 F2] & Eq).
  { intros a Ha. apply Hsame. intros ->. by apply (klocal_not_pipe Hpg). }
  fold m in Hch |- *. rewrite <- Er, <- Ew in Hlt. rewrite <- Ew.
  destruct (push_byte_ok (set_pk k s) (rd m (upa A src)) Hua1 Hpg Hlt) as [Hua2 Hout]; [apply rd_range|].
  destruct (pipe_push (phys k) pi (rd m (upa A src)) Hlt) as (Eq2 & Ok2 & [G1 G2]); [apply rd_range|].
  unfold pset. wp_step. apply phys_wr_wp. wp_step. apply phys_wr_wp. apply (HG Hm); [done|done|exact (conj (eq_trans G1 F1) (eq_trans G2 F2))| |].
  - by rewrite <- Eq.
  - intros a Ha Hn. pose proof klocal_layout. etransitivity; [exact (Hout a Hn)|]. apply Hsame. lia.
Qed.

Lemma pipewrite_loop_wp n s src i0 p (Q : option Z -> kernel -> Prop) :
  kready (PipeLock pi :: ls) i s -> procs s !! i = Some p -> p_killed p = 0 ->
  user_at i s L fr A -> pipe_page -> pipe_ok (phys (pk s)) pi -> readopen (phys (pk s)) pi <> 0 ->
  (length (pipe_queue (phys (pk s)) pi) + n <= 512)%nat -> 0 <= src + i0 -> src + i0 + Z.of_nat n < 2 ^ 64 ->
  (forall k l j, lk_same (plk s) l -> user_at i (set_pk k (set_plk l s)) L fr A -> pipe_ok (phys k) pi ->
     pipe_flags (phys (pk s)) (phys k) pi -> (j <= n)%nat -> (j = n \/ ~ user_mapped A (src + i0 + Z.of_nat j)) ->
     (forall x, (x < j)%nat -> user_mapped A (src + i0 + Z.of_nat x)) ->
     pipe_queue (phys k) pi = pipe_queue (phys (pk s)) pi ++ user_bytes A (phys (pk s)) (src + i0) j ->
     (forall a, kend <= a < PHYSTOP -> ~ in_page pi a -> rd (phys k) a = rd (phys (pk s)) a) ->
     Q (Some (i0 + Z.of_nat j)) (set_pk k (set_plk l s))) ->
  wp (pipewrite_loop n i pi src i0) s Q.
Proof.
  revert s i0. induction n as [|n IH]; intros s i0 Hr Hp Hkill Hua Hpg Hok Hro Hroom Hd Hb HQ;
    cbn [pipewrite_loop]; set (m := phys (pk s)) in *.
  { apply wp_ret. specialize (HQ (pk s) (plk s) 0%nat). change (Z.of_nat 0) with 0 in HQ. rewrite !Z.add_0_r in HQ.
    replace (set_pk (pk s) (set_plk (plk s) s)) with s in HQ by (by destruct s).
    apply HQ; [apply lk_same_refl|done|done|done|done|by left|lia|by rewrite app_nil_r|done]. }
  wp_step. unfold pget. wp_step. fold m (readopen m pi). rewrite (proj2 (Z.eqb_neq _ _)) by done. wp_step. wp_step.
  destruct Hr as (Hrun & Hl8 & Hfree & Hnp & Hlp & Hip) eqn:EHr. clear EHr.
  apply (killed_wp s i p); [by eapply runs_hart_ok| |done|].
  { apply Hfree. intros Hin. rewrite Forall_forall in Hnp. by apply (Hnp _ Hin). }
  intros l Hl. apply wp_ret. rewrite Hkill. cbn [ctrue Z.eqb negb]. do 4 wp_step.
  cbn [pk set_plk]. fold m. fold (nread m pi) (nwrite m pi). assert (Hlt : ring_len (2 ^ 32) (nwrite m pi) (nread m pi) < PIPESIZE).
  { rewrite length_pipe_queue in Hroom. unfold PIPESIZE. lia. }
  rewrite (proj2 (Z.eqb_neq _ _)).
  2:{ intros E. apply (ring_len_full (2 ^ 32)) in E; [lia|done|apply nwrite_range|done]. }
  rewrite u64_small by lia. eapply (pipewrite_byte_wp (set_plk l s) (src + i0)); [done|done|done|lia| |].
  - intros Hun k Hua1 Hsame. apply wp_ret. destruct (pipe_ext m (phys k) pi) as (Er & Ew & Fl & Eq).
    { intros a Ha. apply Hsame. intros ->. by apply (klocal_not_pipe Hpg). }
    specialize (HQ k l 0%nat). change (Z.of_nat 0) with 0 in HQ. rewrite !Z.add_0_r in HQ.
    apply HQ; [done|done|unfold pipe_ok; by rewrite Er, Ew|done|lia|by right|lia|by rewrite app_nil_r|].
    intros a Ha _. apply Hsame. pose proof klocal_layout. lia.
  - intros Hm k Hua1 Hok1 [F1 F2] Hq1 Hsame.
    apply (IH (set_pk k (set_plk l s)) (i0 + 1)); cbn [pk set_pk set_plk procs].
    2-6: done.
    + eapply kready_uframe; [eapply kready_uframe; [exact Hr|]|apply uframe_pk]. by apply uframe_kframe, kframe_plk.
    + by rewrite F1.
    + rewrite Hq1, length_app. cbn [length pk set_plk] in *. fold m. lia.
    + lia.
    + lia.
    + intros k2 l2 j Hl2 Hua2 Hok2 [G1 G2] Hj Hend Hms Hq2 Hs2. cbn [pk set_pk set_plk plk] in *.
      replace (src + (i0 + 1)) with (src + i0 + 1) in * by lia. replace (i0 + 1 + Z.of_nat j) with (i0 + Z.of_nat (S j)) by lia.
      assert (Emap : forall x, src + i0 + 1 + Z.of_nat x = src + i0 + Z.of_nat (S x)) by lia. rewrite Emap in Hend.
      apply (HQ k2 l2 (S j)); [by eapply lk_same_trans|done|done|exact (conj (eq_trans G1 F1) (eq_trans G2 F2))|lia|intuition lia| | |].
      * intros [|x] Hx; [by rewrite Z.add_0_r|]. rewrite <- Emap. apply Hms. lia.
      * rewrite Hq2, Hq1, <- app_assoc. f_equal. rewrite (user_bytes_same m (phys k)) by (done || lia || apply Hua).
        apply user_bytes_cons.
      * intros a Ha Hn. by rewrite Hs2, Hsame.
Qed.

(** Waking sleepers and giving the lock back after the work on the queue. *)
Lemma pipe_leave_wp {T} s k1 l1 k ch (r : T) (Q : T -> kernel -> Prop) :
  kready ls i s -> PipeLock pi ∉ ls -> acquired (PipeLock pi) (plk s) l1 ->
  kready (PipeLock pi :: ls) i (set_plk l1 s) -> lk_same l1 k1 -> user_at i (set_pk k (set_plk k1 s)) L fr A ->
  (forall s2, uframe i s s2 -> pfs s2 = pfs s -> pk s2 = k -> user_at i s2 L fr A -> Q r s2) ->
  wp (wakeup ch ;; inlk (release (PipeLock pi)) ;; ret r)%K (set_pk k (set_plk k1 s)) Q.
Proof.
  intros Hr Hni Ha Hr1 Hl Hua HQ. set (s1 := set_pk k (set_plk k1 s)) in *.
  assert (U1 : uframe i (set_plk l1 s) s1).
  { eapply uframe_trans; [apply uframe_kframe, (kframe_plk i (set_plk l1 s) k1); done|apply uframe_pk]. }
  wp_step. eapply (k_wakeup (PipeLock pi :: ls) i); [by eapply kready_uframe|]. intros s2 K2 E2. wp_step.
  assert (U2 : uframe i (set_plk l1 s) s2) by (eapply uframe_trans; [done|by apply uframe_kframe]).
  eapply (rel_only ls i s (PipeLock pi)); [done|done|eapply acquired_frame; [done|done|apply U2]|]. intros l3 L3.
  apply wp_ret. assert (Ep : pk s2 = k) by apply K2. apply HQ; [by eapply uframe_locks|done|done|].
  exact (user_at_kframe _ _ _ _ _ _ Hua K2).
Qed.

(** A reader of a pipe that has bytes, or no writer any more. *)
Lemma piperead_wp s dst n (m := phys (pk s)) (Q : Z -> kernel -> Prop) :
  kready ls i s -> PipeLock pi ∉ ls -> (length ls < 8)%nat -> user_at i s L fr A -> pipe_page -> pipe_ok m pi ->
  (pipe_queue m pi <> [] \/ writeopen m pi = 0) -> 0 <= n -> 0 <= dst -> dst + n < 2 ^ 64 ->
  (forall s2 j, uframe i s s2 -> pfs s2 = pfs s -> user_at i s2 L fr A -> pipe_ok (phys (pk s2)) pi ->
     pipe_flags m (phys (pk s2)) pi ->
     delivered A dst (Z.to_nat n) (pipe_queue m pi) j (pipe_queue (phys (pk s2)) pi) ->
     moved m (phys (pk s2)) dst (take j (pipe_queue m pi)) -> Q (Z.of_nat j) s2) ->
  wp (piperead pi dst n) s Q.
Proof.
  intros Hr Hni Hlen Hua Hpg Hok Hne Hn Hd Hdn HQ. unfold piperead. wp_step. eapply myproc_wp; [apply Hr|]. intros l0 Hl0.
  pose proof (kframe_plk i s l0 Hl0) as K0. pose proof (kready_frame _ _ _ _ Hr K0) as Hr0. wp_step. apply wp_ret. wp_step.
  eapply (acq_only ls i _ (PipeLock pi)); [done|done|done|done|]. intros l1 A1 R1. unfold pget. do 6 wp_step.
  cbn [pk set_plk]. fold m. fold (nread m pi) (nwrite m pi) (writeopen m pi).
  assert (Eb : (nread m pi =? nwrite m pi) && ctrue (writeopen m pi) = false).
  { destruct Hne as [Hq|Hw]; [|rewrite Hw; apply andb_false_r].
    rewrite (proj2 (Z.eqb_neq _ _)); [done|]. intros E. apply Hq, length_zero_iff_nil. by rewrite length_pipe_queue, E, ring_len_self. }
  rewrite Eb. wp_step. apply piperead_loop_wp; rewrite ?Z.add_0_r; [done|done|done|done|lia|].
  intros k j rest Hua2 Hok2 Hfl Hq Hdel Hmv. change (set_pk k (set_plk l1 (set_plk l0 s))) with (set_pk k (set_plk l1 s)) in *.
  apply (pipe_leave_wp (set_plk l0 s) l1 l1 k); [done|done|done|done|apply lk_same_refl|done|].
  intros s2 U2 E2 Ek Hua3. apply (HQ s2 j); rewrite ?Ek; [|done|done|done|done|by rewrite Hq|done].
  eapply uframe_trans; [by apply uframe_kframe|done].
Qed.

(** A writer for whose bytes there is room. *)
Lemma pipewrite_wp s src n p (m := phys (pk s)) (Q : Z -> kernel -> Prop) :
  kready ls i s -> PipeLock pi ∉ ls -> (length ls < 8)%nat -> user_at i s L fr A -> pipe_page -> pipe_ok m pi ->
  procs s !! i = Some p -> p_killed p = 0 -> readopen m pi <> 0 ->
  0 <= n -> Z.of_nat (length (pipe_queue m pi)) + n <= PIPESIZE -> 0 <= src -> src + n < 2 ^ 64 ->
  (forall s2 j, uframe i s s2 -> pfs s2 = pfs s -> user_at i s2 L fr A -> pipe_ok (phys (pk s2)) pi ->
     pipe_flags m (phys (pk s2)) pi -> (j <= Z.to_nat n)%nat -> (j = Z.to_nat n \/ ~ user_mapped A (src + Z.of_nat j)) ->
     pipe_queue (phys (pk s2)) pi = pipe_queue m pi ++ user_bytes A m src j ->
     (forall a, kend <= a < PHYSTOP -> ~ in_page pi a -> rd (phys (pk s2)) a = rd m a) -> Q (Z.of_nat j) s2) ->
  wp (pipewrite pi src n) s Q.
Proof.
  intros Hr Hni Hlen Hua Hpg Hok Hp Hkill Hro Hn Hroom Hd Hdn HQ. unfold pipewrite. wp_step. eapply myproc_wp; [apply Hr|]. intros l0 Hl0.
  pose proof (kframe_plk i s l0 Hl0) as K0. pose proof (kready_frame _ _ _ _ Hr K0) as Hr0. wp_step. apply wp_ret. wp_step.
  eapply (acq_only ls i _ (PipeLock pi)); [done|done|done|done|]. intros l1 A1 R1. wp_step.
  apply (pipewrite_loop_wp _ _ _ _ p); rewrite ?Z.add_0_r; [done|done|done|done|done|done|done| |done|lia|].
  { cbn [pk set_plk]. fold m. unfold PIPESIZE in Hroom. lia. }
  intros k l j Hl Hua2 Hok2 Hfl Hj Hend Hms Hq Hs2. change (set_pk k (set_plk l (set_plk l1 (set_plk l0 s)))) with (set_pk k (set_plk l s)) in *.
  apply (pipe_leave_wp (set_plk l0 s) l l1 k); [done|done|done|done|done|done|].
  intros s2 U2 E2 Ek Hua3. apply (HQ s2 j); rewrite ?Ek; [|done|done|done|done|done|done|done|done].
  eapply uframe_trans; [by apply uframe_kframe|done].
Qed.

(** A writer without readers. *)
Lemma pipewrite_closed s src n (Q : Z -> kernel -> Prop) :
  kready ls i s -> PipeLock pi ∉ ls -> (length ls < 8)%nat -> readopen (phys (pk s)) pi = 0 -> 0 < n ->
  (forall s2, kframe i s s2 -> pfs s2 = pfs s -> Q (-1) s2) -> wp (pipewrite pi src n) s Q.
Proof.
  intros Hr Hni Hlen Hro Hn HQ. unfold pipewrite. wp_step. eapply myproc_wp; [apply Hr|]. intros l0 Hl0.
  pose proof (kframe_plk i s l0 Hl0) as K0. pose proof (kready_frame _ _ _ _ Hr K0) as Hr0. wp_step. apply wp_ret. wp_step.
  eapply (acq_only ls i _ (PipeLock pi)); [done|done|done|done|]. intros l1 A1 R1. wp_step.
  destruct (Z.to_nat n) as [|k] eqn:En; [lia|]. cbn [pipewrite_loop]. wp_step. unfold pget. wp_step.
  cbn [pk set_plk]. fold (readopen (phys (pk s)) pi). rewrite Hro. cbn [Z.eqb]. wp_step. apply wp_ret. wp_step.
  eapply (rel_only ls i (set_plk l0 s) (PipeLock pi)); [done|done|done|]. intros l2 L2. apply wp_ret. apply wp_ret.
  apply HQ; [|done]. eapply kframe_trans; [exact K0|]. by apply (kframe_plk i (set_plk l0 s) l2).
Qed.

End Ops.
