(* ===== verification/FileSpec.v ===== *)
(** * References to files and inodes

    The file table of [kernel/file.c] and the reference counts of
    [kernel/fs.c] implement the interface [FileOps] through which processes
    hold open files and a current directory.  The invariant counts the
    references: a file has as many as there are descriptors for it, and an
    inode as many as there are current directories and open files for it.  It
    covers files and devices whose inode has a name; pipes and unlinked files
    are outside it. *)

From S2P Require Import Prelude Riscv Mem CString Kalloc Vm Spinlock Proc ProcSpec ProcExit IoState SleepLock Bio BioSpec Bytes.
From S2P Require Import Log LogDisk LogSpec LogRecover Uart Printf Console Fs Dir Pipe File Syscall Sysfile Exec Dispatch.
From S2P Require Import FsSpec InodeSpec ReadSpec DirSpec NameSpec.

(** ** Counting *)

Definition cnt (a : Z) (l : list Z) : Z := Z.of_nat (length (filter (fun x => x = a) l)).

Lemma cnt_cons a b l : cnt a (b :: l) = (if decide (b = a) then 1 else 0) + cnt a l.
Proof. unfold cnt. rewrite filter_cons. case_decide; simpl; lia. Qed.

Lemma cnt_perm a l l' : l ≡ₚ l' -> cnt a l = cnt a l'.
Proof. intros E. unfold cnt. by rewrite E. Qed.

Lemma cnt_le a l : 0 <= cnt a l <= Z.of_nat (length l).
Proof. unfold cnt. pose proof (length_filter (fun x => x = a) l). lia. Qed.

(** Open files of the inode [k]. *)
Definition holds (k : nat) (x : file) : bool := (0 <? f_ref x) && (f_ip x =? k)%nat.
Definition held_by (k : nat) (ft : list file) : Z := Z.of_nat (length (List.filter (holds k) ft)).

Lemma held_by_alter k j x g ft :
  ft !! j = Some x ->
  held_by k (alter g j ft) + (if holds k x then 1 else 0) = held_by k ft + (if holds k (g x) then 1 else 0).
Proof.
  unfold held_by. revert j. induction ft as [|y ft IH]; intros [|j] Hx; [done|done| |].
  - injection Hx as ->. cbn. destruct (holds k x), (holds k (g x)); cbn; lia.
  - specialize (IH j Hx). cbn in *. destruct (holds k y); cbn; lia.
Qed.

Lemma held_by_le k ft : 0 <= held_by k ft <= Z.of_nat (length ft).
Proof. unfold held_by. pose proof (List.filter_length_le (holds k) ft). lia. Qed.

Section Files.
Context `{Linker}.
Implicit Types (s : kernel) (f : iost).

Lemma file_of_addr_eq k : (k < nfile)%nat -> file_of_addr (file_addr k) = Some k.
Proof.
  intros Hk. unfold file_of_addr. replace (file_addr k - file_addr 0) with (Z.of_nat k * SIZEOF_FILE) by (unfold file_addr; lia).
  unfold SIZEOF_FILE, NFILE, nfile in *. rewrite Z.mod_mul, Z.div_mul by done. rewrite Nat2Z.id.
  rewrite (proj2 (Z.leb_le _ _)), (proj2 (Z.ltb_lt _ _)) by lia. done.
Qed.

Lemma inode_of_addr_eq k : (k < ninode)%nat -> inode_of_addr (inode_addr k) = Some k.
Proof.
  intros Hk. unfold inode_of_addr. replace (inode_addr k - inode_addr 0) with (Z.of_nat k * SIZEOF_INODE) by (unfold inode_addr; lia).
  unfold SIZEOF_INODE, NINODE, ninode in *. rewrite Z.mod_mul, Z.div_mul by done. rewrite Nat2Z.id.
  rewrite (proj2 (Z.leb_le _ _)), (proj2 (Z.ltb_lt _ _)) by lia. done.
Qed.

Lemma file_addr_inj j k : file_addr j = file_addr k -> j = k.
Proof. unfold file_addr, SIZEOF_FILE. lia. Qed.
Lemma inode_addr_inj j k : inode_addr j = inode_addr k -> j = k.
Proof. unfold inode_addr, SIZEOF_INODE. lia. Qed.

(** ** The invariant *)

(** No operation is outstanding: nothing is pinned, locked or unwritten. *)
Definition fs_rest f : Prop := exists L start l,
  bio_inv 0 f (rest_view L ∅ ∅ l) /\ log_at (lg f) start [] /\ outstanding (lg f) = 0 /\ committing (lg f) = 0 /\
  lg_size (lg f) = LOGSIZE.

Record files_inv f (fs ips : list Z) : Prop := FilesInv {
  fi_rest : fs_rest f;
  fi_tab : itab_ok (itable f);
  fi_ino k x : itable f !! k = Some x -> i_ref x = cnt (inode_addr k) ips + held_by k (ftable f);
  fi_link k x : itable f !! k = Some x -> 0 < i_ref x -> i_valid x = 0 \/ i_nlink x <> 0;
  fi_ips : Forall (fun a => exists k, (k < ninode)%nat /\ a = inode_addr k) ips;
  fi_len : length (ftable f) = nfile;
  fi_file k x : ftable f !! k = Some x -> f_ref x = cnt (file_addr k) fs;
  fi_kind k x : ftable f !! k = Some x -> 0 < f_ref x ->
    (f_type x = FD_INODE \/ f_type x = FD_DEVICE) /\ (f_ip x < ninode)%nat;
  fi_fs : Forall (fun a => exists k, (k < nfile)%nat /\ a = file_addr k) fs;
}.

Lemma bio_inv_me me me' f L P D l : bio_inv me f (rest_view L P D l) -> bio_inv me' f (rest_view L P D l).
Proof.
  intros [A1 A2 A3 A4 A5 A6 A7 A8 A9 A10]. by split.
Qed.

Lemma calm_kready i s : calm i s -> kready [] i s.
Proof. intros (Hr & Hf & Hl & Hi). split_and!; try done; simpl; lia. Qed.

Lemma rest_in_tx i s : calm i s -> fs_rest (pfs s) ->
  exists L start l, in_tx [] i s (cur_pid i s) (rest_view L ∅ ∅ l) start [] 0.
Proof.
  intros Hc (L & start & l & Hb & Hl & Ho & Hm & Hz). exists L, start, l. split; try done; [|apply NoDup_nil_2|apply not_elem_of_nil].
  split_and!; [by apply calm_kready|apply not_elem_of_nil|intros a; apply not_elem_of_nil|simpl; lia|done|by eapply bio_inv_me].
Qed.

Lemma in_tx_rest i s me L l start : in_tx [] i s me (rest_view L ∅ ∅ l) start [] 0 -> fs_rest (pfs s).
Proof.
  intros [Hat Hg _ _ Ho _ Hm Hz _]. exists L, start, l. split_and!; try done. destruct Hat as (_ & _ & _ & _ & _ & Hb). by eapply bio_inv_me.
Qed.

(** ** Dropping a reference to an inode *)

(** Apart from the file system's own operations, [fs_rest] sees only buffers,
    disk and log. *)
Lemma fs_rest_same f f' : bufs f' = bufs f -> dsk f' = dsk f -> lg f' = lg f -> fs_rest f -> fs_rest f'.
Proof.
  intros E1 E2 E3 (L & start & l & [A1 A2 A3 A4 A5 A6 A7 A8 A9 A10] & Hg). exists L, start, l. rewrite E3. split; [|done].
  unfold cached in A7. split; unfold cached; rewrite ?E1, ?E2; done.
Qed.

Definition drop_ref_at (k : nat) (tab : list inode) : list inode := alter (fun x => set_i_ref (i_ref x - 1) x) k tab.

Lemma put_wp i s k x (Q : unit -> kernel -> Prop) :
  calm i s -> fs_rest (pfs s) -> itab_ok (itable (pfs s)) -> itable (pfs s) !! k = Some x -> 0 < i_ref x ->
  i_valid x = 0 \/ i_nlink x <> 0 ->
  (forall s', kframe i s s' -> fs_rest (pfs s') -> itable (pfs s') = drop_ref_at k (itable (pfs s)) ->
     ftable (pfs s') = ftable (pfs s) -> Q tt s') ->
  wp (bind begin_op (fun _ => bind (iput k) (fun _ => end_op))) s Q.
Proof.
  intros Hc Hrest Hit Hx Hpos Hl HQ. destruct (rest_in_tx i s Hc Hrest) as (L & start & l & Htx). wp_step.
  eapply begin_op_wp; [exact Htx|simpl; lia|done|]. intros s1 [K1 P1] D1 Tx1. wp_step.
  eapply (iput_wp [] i s1 k x); [eapply kready_frame; [by apply calm_kready|exact K1]|apply not_elem_of_nil|simpl; lia
    |by rewrite P1|by rewrite P1|tauto|done|]. intros s2 K2 P2.
  assert (Tx2 : in_tx [] i s2 (cur_pid i s) (rest_view L ∅ ∅ l) start [] 1).
  { destruct Tx1 as [Hat Hg Hnd Hpi Ho Hor Hco Hsz Hni]. split; rewrite ?P2; try done.
    eapply bio_at_step; [exact Hat|exact K2|]. rewrite P2. destruct Hat as (_ & _ & _ & _ & _ & [A1 A2 A3 A4 A5 A6 A7 A8 A9 A10]).
    split; done. }
  eapply end_op_last_wp; [exact Tx2|simpl; lia|]. intros s3 l3 [K3 P3] _ Tx3. apply HQ.
  - eapply kframe_trans; [exact K1|]. by eapply kframe_trans.
  - by eapply in_tx_rest.
  - rewrite P3. cbn [itable set_bufs set_dsk set_lg]. rewrite P2. cbn [itable set_itable]. by rewrite P1.
  - rewrite P3. cbn [ftable set_bufs set_dsk set_lg]. rewrite P2. cbn [ftable set_itable]. by rewrite P1.
Qed.

Lemma drop_lookup k tab j x : drop_ref_at k tab !! j = Some x ->
  exists y, tab !! j = Some y /\ x = if decide (j = k) then set_i_ref (i_ref y - 1) y else y.
Proof.
  unfold drop_ref_at. destruct (decide (j = k)) as [->|Hne].
  - rewrite list_lookup_alter_eq. destruct (tab !! k) as [y|]; [|done]. intros [= <-]. eauto.
  - rewrite list_lookup_alter_ne by auto. intros ->. eauto.
Qed.

Lemma itab_drop k tab x : itab_ok tab -> tab !! k = Some x -> 0 < i_ref x -> itab_ok (drop_ref_at k tab).
Proof.
  intros [Hl Hr Hu] Hx Hpos. split.
  - unfold drop_ref_at. by rewrite length_alter.
  - intros j y Hy. apply drop_lookup in Hy as (z & Hz & ->). specialize (Hr j z Hz). case_decide; [|done]. subst j.
    rewrite Hx in Hz. injection Hz as <-. cbn. lia.
  - intros j m y z Hy Hz. apply drop_lookup in Hy as (y' & Hy & ->). apply drop_lookup in Hz as (z' & Hz & ->).
    intros Py Pz Ed Ei. apply (Hu j m y' z'); try done; repeat case_decide; cbn in *; lia || done.
Qed.

Lemma inv_put f f' fs k x ips :
  files_inv f fs (inode_addr k :: ips) -> itable f !! k = Some x -> fs_rest f' -> itable f' = drop_ref_at k (itable f) ->
  ftable f' = ftable f -> files_inv f' fs ips.
Proof.
  intros [I1 I2 I3 I4 I5 I6 I7 I8 I9] Hx Hrest Et Ef.
  assert (Hpos : 0 < i_ref x).
  { rewrite (I3 k x Hx), cnt_cons, decide_True by done. pose proof (cnt_le (inode_addr k) ips). pose proof (held_by_le k (ftable f)). lia. }
  split; rewrite ?Et, ?Ef; try done.
  - by eapply itab_drop.
  - intros j y Hy. apply drop_lookup in Hy as (z & Hz & ->). specialize (I3 j z Hz). rewrite cnt_cons in I3. destruct (decide (j = k)) as [->|Hne].
    + rewrite decide_True in I3 by done. cbn. lia.
    + rewrite decide_False in I3; [lia|]. intros E'. by apply inode_addr_inj in E'.
  - intros j y Hy Pj. apply drop_lookup in Hy as (z & Hz & ->). specialize (I4 j z Hz). case_decide; cbn in *; [apply I4; lia|auto].
  - by apply Forall_cons in I5 as [_ ?].
Qed.

Lemma frame_of_kframe i s s' : kframe i s s' -> fo_frame i s s'.
Proof. intros [Hl (Hw & Hi & Hk & Hip & _)]. split_and!; try done. by rewrite Hk. Qed.

Lemma put_ok i s a fs ips : calm i s -> files_inv (pfs s) fs (a :: ips) ->
  wp (bind fo_begin_op (fun _ => bind (fo_iput a) (fun _ => fo_end_op))) s
     (fun _ s' => files_inv (pfs s') fs ips /\ fo_frame i s s').
Proof.
  intros Hc Hinv. pose proof (fi_ips _ _ _ Hinv) as Hips. apply Forall_cons in Hips as [(k & Hk & ->) _].
  assert (Hx : is_Some (itable (pfs s) !! k)) by (apply lookup_lt_is_Some; by rewrite (it_len _ (fi_tab _ _ _ Hinv))).
  destruct Hx as [x Hx]. cbn [fo_begin_op fo_iput fo_end_op kernel_files]. unfold inode_ptr. rewrite inode_of_addr_eq by done.
  assert (Hpos : 0 < i_ref x).
  { rewrite (fi_ino _ _ _ Hinv k x Hx), cnt_cons, decide_True by done.
    pose proof (cnt_le (inode_addr k) ips). pose proof (held_by_le k (ftable (pfs s))). lia. }
  eapply (put_wp i s k x); [done|apply Hinv|apply Hinv|done|done|by apply (fi_link _ _ _ Hinv k x)|].
  intros s' K Hrest Et Ef. split; [by eapply inv_put|by apply frame_of_kframe].
Qed.

(** ** Another reference to an inode *)

Lemma inv_idup f k x fs ips :
  files_inv f fs (inode_addr k :: ips) -> itable f !! k = Some x -> Z.of_nat (length ips) < 2 ^ 30 ->
  files_inv (set_itable (alter ref_up k (itable f)) f) fs (inode_addr k :: inode_addr k :: ips).
Proof.
  intros [I1 I2 I3 I4 I5 I6 I7 I8 I9] Hx Hlen. pose proof (cnt_le (inode_addr k) ips) as Hc. pose proof (held_by_le k (ftable f)) as Hh.
  assert (Hl : forall j y, alter ref_up k (itable f) !! j = Some y ->
    exists z, itable f !! j = Some z /\ y = if decide (j = k) then ref_up z else z).
  { intros j y. destruct (decide (j = k)) as [->|Hne].
    - rewrite list_lookup_alter_eq. destruct (itable f !! k); [|done]. intros [= <-]. eauto.
    - rewrite list_lookup_alter_ne by auto. intros ->. eauto. }
  pose proof (I3 k x Hx) as Hrx. rewrite cnt_cons, decide_True in Hrx by done.
  split; cbn [itable set_itable ftable]; try done.
  - by eapply fs_rest_same; [..|exact I1].
  - destruct I2 as [T1 T2 T3]. split; [by rewrite length_alter| |].
    + intros j y Hy. apply Hl in Hy as (z & Hz & ->). specialize (T2 j z Hz). destruct (decide (j = k)) as [->|]; [|done].
      rewrite Hx in Hz. injection Hz as <-. cbn. unfold nfile in *. lia.
    + intros j m y z Hy Hz. apply Hl in Hy as (y' & Hy & ->). apply Hl in Hz as (z' & Hz & ->). intros Py Pz Ed Ei.
      assert (Hp : forall j y, itable f !! j = Some y -> 0 < i_ref (if decide (j = k) then ref_up y else y) -> 0 < i_ref y).
      { intros a b Hb. destruct (decide (a = k)) as [->|]; [|done]. rewrite Hx in Hb. injection Hb as <-. intros _. lia. }
      apply (T3 j m y' z'); [done|done|by apply (Hp j)|by apply (Hp m)| |];
        destruct (decide (j = k)), (decide (m = k)); done.
  - intros j y Hy. apply Hl in Hy as (z & Hz & ->). specialize (I3 j z Hz). rewrite cnt_cons in I3. rewrite !cnt_cons.
    destruct (decide (j = k)) as [->|Hne]; [rewrite decide_True in * by done; cbn; lia|].
    rewrite decide_False in * by (intros E; by apply inode_addr_inj in E). lia.
  - intros j y Hy Py. apply Hl in Hy as (z & Hz & ->). destruct (decide (j = k)) as [->|]; [|by apply (I4 j z)].
    rewrite Hx in Hz. injection Hz as <-. apply (I4 k x Hx). lia.
  - apply Forall_cons in I5 as [Ha I5]. by repeat constructor.
Qed.

Lemma idup_ok i s a fs ips : calm i s -> Z.of_nat (length ips) < 2 ^ 30 -> files_inv (pfs s) fs (a :: ips) ->
  wp (fo_idup a) s (fun r s' => r = a /\ files_inv (pfs s') fs (a :: a :: ips) /\ fo_frame i s s').
Proof.
  intros Hc Hlen Hinv. pose proof (fi_ips _ _ _ Hinv) as Hips. apply Forall_cons in Hips as [(k & Hk & ->) _].
  assert (Hx : is_Some (itable (pfs s) !! k)) by (apply lookup_lt_is_Some; by rewrite (it_len _ (fi_tab _ _ _ Hinv))).
  destruct Hx as [x Hx]. cbn [fo_idup kernel_files]. unfold inode_ptr. rewrite inode_of_addr_eq by done. wp_step. apply wp_ret. wp_step.
  eapply (idup_wp [] i [] (not_elem_of_nil _)); [simpl; unfold nbuf; lia|by apply calm_kready|simpl; lia|exact Hx|by apply (it_ref _ (fi_tab _ _ _ Hinv) k)|].
  intros s2 K2 P2. apply wp_ret. split; [done|]. split; [|by apply frame_of_kframe]. rewrite P2. by eapply inv_idup.
Qed.

(** ** The file table *)

Lemma getf_wp s k x (Q : file -> kernel -> Prop) : ftable (pfs s) !! k = Some x -> Q x s -> wp (getf k) s Q.
Proof. intros Hx HQ. unfold getf. wp_step. apply iogets_wp. rewrite Hx. by apply wp_ret. Qed.

Lemma updf_wp s k x g (Q : unit -> kernel -> Prop) : ftable (pfs s) !! k = Some x ->
  Q tt (set_pfs (set_ftable (alter g k (ftable (pfs s))) (pfs s)) s) -> wp (updf k g) s Q.
Proof. intros Hx HQ. unfold updf. wp_step. eapply getf_wp; [exact Hx|]. by apply iomod_wp. Qed.

(** The count of one file changes. *)
Lemma inv_ftable f fs fs' ips ips' k x y :
  files_inv f fs ips -> ftable f !! k = Some x -> f_ref y = cnt (file_addr k) fs' ->
  (forall j, j <> k -> cnt (file_addr j) fs' = cnt (file_addr j) fs) ->
  (0 < f_ref y -> (f_type y = FD_INODE \/ f_type y = FD_DEVICE) /\ (f_ip y < ninode)%nat) ->
  (forall j, cnt (inode_addr j) ips' + (if holds j y then 1 else 0) = cnt (inode_addr j) ips + (if holds j x then 1 else 0)) ->
  Forall (fun a => exists k, (k < ninode)%nat /\ a = inode_addr k) ips' ->
  Forall (fun a => exists k, (k < nfile)%nat /\ a = file_addr k) fs' ->
  files_inv (set_ftable (<[k := y]> (ftable f)) f) fs' ips'.
Proof.
  intros [I1 I2 I3 I4 I5 I6 I7 I8 I9] Hx Hy Ho Hk Hi Hips Hfs.
  assert (Hl : (k < length (ftable f))%nat) by (by apply lookup_lt_Some in Hx).
  split; cbn [itable ftable set_ftable]; try done.
  - by eapply fs_rest_same; [..|exact I1].
  - intros j z Hz. rewrite (I3 j z Hz). rewrite list_insert_alter. pose proof (held_by_alter j k x (fun _ => y) _ Hx) as Ha.
    specialize (Hi j). cbn beta in Ha. lia.
  - by rewrite length_insert.
  - intros j z. destruct (decide (j = k)) as [->|Hne].
    + rewrite list_lookup_insert_eq by done. by intros [= <-].
    + rewrite list_lookup_insert_ne by auto. intros Hz. by rewrite Ho, (I7 j z Hz).
  - intros j z. destruct (decide (j = k)) as [->|Hne].
    + rewrite list_lookup_insert_eq by done. by intros [= <-].
    + rewrite list_lookup_insert_ne by auto. apply I8.
Qed.

Lemma cnt_file_ne j k fs : j <> k -> cnt (file_addr j) (file_addr k :: fs) = cnt (file_addr j) fs.
Proof. intros Hne. rewrite cnt_cons, decide_False; [lia|]. intros E. by apply file_addr_inj in E. Qed.

Lemma cnt_file_eq k fs : cnt (file_addr k) (file_addr k :: fs) = 1 + cnt (file_addr k) fs.
Proof. by rewrite cnt_cons, decide_True. Qed.

Lemma filedup_ok i s a fs ips : calm i s -> Z.of_nat (length fs) < 2 ^ 30 -> files_inv (pfs s) (a :: fs) ips ->
  wp (fo_filedup a) s (fun r s' => r = a /\ files_inv (pfs s') (a :: a :: fs) ips /\ fo_frame i s s').
Proof.
  intros Hc Hlen Hinv. pose proof (fi_fs _ _ _ Hinv) as Hfs. apply Forall_cons in Hfs as [(k & Hk & ->) Hfs].
  assert (Hx : is_Some (ftable (pfs s) !! k)) by (apply lookup_lt_is_Some; by rewrite (fi_len _ _ _ Hinv)).
  destruct Hx as [x Hx]. cbn [fo_filedup kernel_files]. unfold file_ptr. rewrite file_of_addr_eq by done. wp_step. apply wp_ret. wp_step.
  pose proof (fi_file _ _ _ Hinv k x Hx) as Hr. rewrite cnt_file_eq in Hr. pose proof (cnt_le (file_addr k) fs) as Hle.
  unfold filedup. wp_step. eapply (k_acq [] i s FtableLock); [by apply calm_kready|apply not_elem_of_nil|simpl; lia|done|].
  intros s1 I1 R1 E1. wp_step. apply (getf_wp _ k x); [by rewrite E1|]. destruct (Z.ltb_spec (f_ref x) 1) as [|_]; [lia|].
  wp_step. apply (updf_wp _ k x); [by rewrite E1|]. wp_step.
  eapply (k_rel [] i s); [by apply calm_kready|apply not_elem_of_nil|eapply inside_frame; [by apply calm_kready|exact I1|apply kframe_pfs]|].
  intros s2 K2 P2. apply wp_ret, wp_ret. split; [done|]. split; [|by apply frame_of_kframe].
  rewrite P2. cbn [pfs set_pfs]. rewrite E1, (alter_insert_at _ k _ x Hx).
  eapply (inv_ftable (pfs s) (file_addr k :: fs) _ ips ips k x); [done|done| | |intros _; apply (fi_kind _ _ _ Hinv k x Hx); lia| |apply Hinv|].
  - cbn. rewrite !cnt_file_eq, i32_small; lia.
  - intros j Hne. by rewrite !cnt_file_ne.
  - intros j. unfold holds. cbn. rewrite i32_small by lia.
    rewrite (proj2 (Z.ltb_lt 0 (f_ref x))), (proj2 (Z.ltb_lt 0 (f_ref x + 1))) by lia. lia.
  - repeat constructor; eauto.
Qed.

(** The last reference to a file becomes one to its inode. *)
Lemma inv_close f k x fs ips :
  files_inv f (file_addr k :: fs) ips -> ftable f !! k = Some x -> f_ref x = 1 ->
  files_inv (set_ftable (<[k := set_f_type FD_NONE (set_f_ref 0 x)]> (ftable f)) f) fs (inode_addr (f_ip x) :: ips).
Proof.
  intros Hinv Hx Hr. pose proof (fi_file _ _ _ Hinv k x Hx) as Hc. rewrite cnt_file_eq, Hr in Hc.
  destruct (fi_kind _ _ _ Hinv k x Hx) as [_ Hip]; [lia|].
  eapply (inv_ftable f _ _ ips _ k x); [exact Hinv|done| | | | |constructor; [eauto|apply Hinv]|].
  - cbn. lia.
  - intros j Hne. by rewrite cnt_file_ne.
  - cbn. lia.
  - intros j. rewrite cnt_cons. unfold holds. cbn. rewrite Hr. cbn [Z.ltb Z.compare andb]. destruct (Nat.eqb_spec (f_ip x) j) as [->|Hne].
    + rewrite decide_True by done. lia.
    + rewrite decide_False; [lia|]. intros E. by apply inode_addr_inj in E.
  - pose proof (fi_fs _ _ _ Hinv) as Hfs. by apply Forall_cons in Hfs as [_ ?].
Qed.

Lemma inv_close_more f k x fs ips :
  files_inv f (file_addr k :: fs) ips -> ftable f !! k = Some x -> 1 < f_ref x ->
  files_inv (set_ftable (<[k := set_f_ref (f_ref x - 1) x]> (ftable f)) f) fs ips.
Proof.
  intros Hinv Hx Hr. pose proof (fi_file _ _ _ Hinv k x Hx) as Hc. rewrite cnt_file_eq in Hc.
  eapply (inv_ftable f _ _ ips _ k x); [exact Hinv|done| | | | |apply Hinv|].
  - cbn. lia.
  - intros j Hne. by rewrite cnt_file_ne.
  - intros _. apply (fi_kind _ _ _ Hinv k x Hx). lia.
  - intros j. unfold holds. cbn. rewrite (proj2 (Z.ltb_lt 0 (f_ref x))), (proj2 (Z.ltb_lt 0 (f_ref x - 1))) by lia. lia.
  - pose proof (fi_fs _ _ _ Hinv) as Hfs. by apply Forall_cons in Hfs as [_ ?].
Qed.

Lemma fileclose_ok i s a fs ips : calm i s -> files_inv (pfs s) (a :: fs) ips ->
  wp (fo_fileclose a) s (fun _ s' => files_inv (pfs s') fs ips /\ fo_frame i s s').
Proof.
  intros Hc Hinv. pose proof (fi_fs _ _ _ Hinv) as Hfs. apply Forall_cons in Hfs as [(k & Hk & ->) Hfs].
  assert (Hx : is_Some (ftable (pfs s) !! k)) by (apply lookup_lt_is_Some; by rewrite (fi_len _ _ _ Hinv)).
  destruct Hx as [x Hx]. cbn [fo_fileclose kernel_files]. unfold file_ptr. rewrite file_of_addr_eq by done. wp_step. apply wp_ret.
  pose proof (fi_file _ _ _ Hinv k x Hx) as Hr. rewrite cnt_file_eq in Hr. pose proof (cnt_le (file_addr k) fs) as Hle.
  pose proof (calm_kready i s Hc) as Hrd.
  unfold fileclose. wp_step. eapply (k_acq [] i s FtableLock); [done|apply not_elem_of_nil|simpl; lia|done|].
  intros s1 I1 R1 E1. wp_step. apply (getf_wp _ k x); [by rewrite E1|]. destruct (Z.ltb_spec (f_ref x) 1) as [|_]; [lia|].
  wp_step. apply (updf_wp _ k x); [by rewrite E1|]. rewrite E1, (alter_insert_at _ k _ x Hx).
  set (s2 := set_pfs _ s1). assert (K2 : kframe i s1 s2) by apply kframe_pfs.
  destruct (Z.ltb_spec 0 (f_ref x - 1)) as [Hmore|Hlast].
  - eapply (k_rel [] i s); [done|apply not_elem_of_nil|by eapply inside_frame|]. intros s3 K3 P3.
    split; [|by apply frame_of_kframe]. rewrite P3. cbn [s2 pfs set_pfs]. apply inv_close_more; [done|done|lia].
  - assert (H1 : f_ref x = 1) by lia. set (x2 := set_f_ref (f_ref x - 1) x).
    assert (Hlt : (k < length (ftable (pfs s)))%nat) by (by apply lookup_lt_Some in Hx).
    assert (Hx2 : ftable (pfs s2) !! k = Some x2) by (by apply list_lookup_insert_eq).
    wp_step. apply (getf_wp _ k x2); [done|]. wp_step. apply (updf_wp _ k x2); [done|]. set (s3 := set_pfs _ s2).
    assert (Hx3 : ftable (pfs s3) !! k = Some (set_f_ref 0 x2)) by (cbn [s3 pfs set_pfs ftable set_ftable]; by rewrite list_lookup_alter_eq, Hx2).
    wp_step. apply (updf_wp _ k (set_f_ref 0 x2)); [done|]. set (s4 := set_pfs _ s3). wp_step.
    assert (K4 : kframe i s1 s4) by (do 2 (eapply kframe_trans; [|apply kframe_pfs]); done).
    eapply (k_rel [] i s); [done|apply not_elem_of_nil|by eapply inside_frame|]. intros s5 K5 P5.
    assert (Hinv5 : files_inv (pfs s5) fs (inode_addr (f_ip x) :: ips)).
    { rewrite P5. replace (pfs s4) with (set_ftable (<[k := set_f_type FD_NONE (set_f_ref 0 x)]> (ftable (pfs s))) (pfs s)).
      - by apply inv_close.
      - cbn [s4 s3 s2 pfs set_pfs ftable set_ftable]. rewrite !list_insert_alter, !list_alter_alter_eq. done. }
    assert (Hc5 : calm i s5) by (eapply calm_frame; [exact Hc|by apply frame_of_kframe]).
    destruct (fi_kind _ _ _ Hinv k x Hx) as [Hty Hip]; [lia|]. change (f_type x2) with (f_type x). change (f_ip x2) with (f_ip x).
    pose proof (put_ok i s5 (inode_addr (f_ip x)) fs ips Hc5 Hinv5) as Hput.
    cbn [fo_begin_op fo_iput fo_end_op kernel_files] in Hput. unfold inode_ptr in Hput. rewrite inode_of_addr_eq in Hput by done.
    assert (Hgo : wp (bind begin_op (fun _ => bind (iput (f_ip x)) (fun _ => end_op))) s5
      (fun _ s' => files_inv (pfs s') fs ips /\ fo_frame i s s')).
    { eapply wp_mono; [exact Hput|]. intros _u s' [? F]. split; [done|]. eapply fo_frame_trans; [by apply frame_of_kframe|exact F]. }
    by destruct Hty as [-> | ->].
Qed.

Lemma files_perm f fs fs' ips : fs ≡ₚ fs' -> files_inv f fs ips -> files_inv f fs' ips.
Proof. intros E []. split; try done; [|by rewrite <- E]. intros k x Hx. rewrite (fi_file0 k x Hx). by apply cnt_perm. Qed.

(** The file layer keeps what it promises to processes. *)
#[export] Instance kernel_files_ok : FileOpsOk iost.
Proof.
  refine {| fo_inv s fs ips := files_inv (pfs s) fs ips |}.
  - intros s fs fs' ips. apply files_perm.
  - intros s s' fs ips E _ _. by rewrite E.
  - apply filedup_ok.
  - apply fileclose_ok.
  - apply idup_ok.
  - apply put_ok.
Defined.

End Files.
