(* ===== verification/FsExample.v ===== *)
(** * A small file system

    A disk with a root directory of four entries (one of them removed) and a
    file of five bytes, and a kernel inside an operation on it; a pipe with
    three bytes in it whose counters are about to wrap around. *)

From S2P Require Import Prelude Riscv Mem CString Kalloc Vm PageTable VmSpec UserCopy Spinlock Proc ProcSpec MemExample ProcExample.
From S2P Require Import IoState SleepLock UserMem Bio BioSpec Bytes Log LogDisk LogSpec LogRecover LogExample.
From S2P Require Import Printf Fs Dir Pipe FsSpec InodeSpec ReadSpec FileMap DirSpec NameSpec BmapSpec WriteSpec PipeSpec.

Definition ex_sb : superblock := Superblock FSMAGIC 2000 1954 200 30 2 32 45.
Definition ex_dir_dinode : dinode := DInode T_DIR 0 0 1 64 (46 :: replicate ndirect 0).
Definition ex_file_dinode : dinode := DInode T_FILE 0 0 1 5 (47 :: replicate ndirect 0).

Definition pad (n : nat) (l : list Z) : list Z := l ++ replicate (n - length l) 0.
Definition ex_dirent (inum : Z) (name : string) : list Z := inum :: 0 :: pad 14 (str name).

(** The blocks of the disk: inodes, bitmap, directory, file. *)
Definition ex_inode_block : list Z := dinode_put (dinode_put zero_block 64 ex_dir_dinode) 128 ex_file_dinode.
Definition ex_map_block : list Z := pad bsize (replicate 6 255).
Definition ex_dir_block : list Z :=
  pad bsize (ex_dirent 1 "." ++ ex_dirent 1 ".." ++ ex_dirent 0 "hello" ++ ex_dirent 2 "hello").
Definition ex_file_block : list Z := pad bsize (str "hello").
Definition ex_blocks (b : Z) : list Z :=
  if b =? 32 then ex_inode_block else if b =? 45 then ex_map_block
  else if b =? 46 then ex_dir_block else if b =? 47 then ex_file_block else zero_block.

Definition inode0 : inode := Inode 0 0 0 (SleepLock 0 0) 0 0 0 0 0 0 (replicate (S ndirect) 0).
(** The root directory, locked and read; the file, locked and read. *)
Definition ex_dir_inode : inode := set_i_valid 1 (with_dinode ex_dir_dinode (Inode ROOTDEV 1 2 (SleepLock 1 2) 0 0 0 0 0 0 [])).
Definition ex_file_inode : inode := set_i_valid 1 (with_dinode ex_file_dinode (Inode ROOTDEV 2 1 (SleepLock 1 2) 0 0 0 0 0 0 [])).
Definition ex_itable : list inode := [ex_dir_inode; ex_file_inode] ++ replicate 48 inode0.

Definition ex_fs_io : iost :=
  set_itable ex_itable (set_sb ex_sb (set_lg (set_outstanding 1 ex_lg) (set_dsk (Disk ex_blocks []) ex_io))).
Definition ex_fs : kernel := ex_kernel ex_fs_io.

Lemma length_ex_blocks b : length (ex_blocks b) = bsize.
Proof. unfold ex_blocks. by repeat (destruct (_ =? _); [by vm_compute|]). Qed.

Lemma ex_fs_tx : tx_state [] 1 ex_fs 2 2 1 ex_blocks [] ∅.
Proof.
  exists ∅, ex_lru. split_and!; [done|simpl; lia|lia|]. split; try done.
  - apply ex_at; [done|]. destruct (ex_crashed_inv 2 (Disk ex_blocks []) length_ex_blocks) as [A1 A2 A3 A4 A5 A6 A7 A8 A9 A10].
    by split.
  - split; try done; try (by constructor); simpl; unfold logsize; lia.
  - apply NoDup_nil_2.
  - apply not_elem_of_nil.
Qed.

Lemma ex_file_dinode_ok : dinode_ok ex_file_dinode.
Proof.
  split; unfold short_ok; cbn [ex_file_dinode d_type d_major d_minor d_nlink d_size d_addrs]; try (unfold T_FILE; lia); [done|].
  constructor; [lia|]. apply Forall_replicate. lia.
Qed.

Lemma ex_itab_ok : itab_ok ex_itable.
Proof.
  assert (Hl : forall k x, ex_itable !! k = Some x -> (k = O /\ x = ex_dir_inode) \/ (k = 1%nat /\ x = ex_file_inode) \/ i_ref x = 0).
  { intros [|[|k]] x; [intros [= <-]; auto..|]. change (ex_itable !! S (S k)) with (replicate 48 inode0 !! k). intros [-> _]%lookup_replicate. auto. }
  split.
  - done.
  - intros k x [[-> ->]|[[-> ->]|E]]%Hl; [done..|]. rewrite E. done.
  - intros j k x y [[-> ->]|[[-> ->]|E]]%Hl [[-> ->]|[[-> ->]|E']]%Hl; try done; lia.
Qed.

Lemma ex_dir_ok : file_ok ex_blocks ex_dir_inode ∅.
Proof.
  split; try done.
  intros bn Hbn Hlt. change (i_size ex_dir_inode) with 64 in Hlt. unfold BSIZE in Hlt. assert (bn = 0) as -> by lia.
  split; [by vm_compute|]. split; [intros j; by rewrite lookup_empty|].
  apply (bool_decide_unpack (Forall _ _)). vm_compute. exact I.
Qed.

Lemma ex_file_ok : file_ok ex_blocks ex_file_inode ∅.
Proof.
  split; try done.
  intros bn Hbn Hlt. change (i_size ex_file_inode) with 5 in Hlt. unfold BSIZE in Hlt. assert (bn = 0) as -> by lia.
  split; [by vm_compute|]. split; [intros j; by rewrite lookup_empty|].
  apply (bool_decide_unpack (Forall _ _)). vm_compute. exact I.
Qed.

(** The same kernel with no inode locked, and only the root in the table. *)
Definition ex_root_inode : inode := set_i_ref 1 (set_i_lock (SleepLock 0 0) ex_dir_inode).
Definition ex_idle_itable : list inode := ex_root_inode :: replicate 49 inode0.
Definition ex_idle : kernel := ex_kernel (set_itable ex_idle_itable ex_fs_io).
Definition ex_refs (dev inum : Z) : Z := if decide (dev = ROOTDEV /\ inum = 1) then 1 else 0.
Definition ex_inums (d : Z) : Prop := d = 1 \/ d = 2.

Lemma ex_idle_lookup k x : ex_idle_itable !! k = Some x -> (k = O /\ x = ex_root_inode) \/ (k <> O /\ x = inode0).
Proof.
  destruct k as [|k]; [intros [= <-]; auto|]. change (ex_idle_itable !! S k) with (replicate 49 inode0 !! k).
  intros [-> _]%lookup_replicate. auto.
Qed.

Lemma ex_idle_tx : tx_state [] 1 ex_idle 2 2 1 ex_blocks [] ∅.
Proof. eapply tx_frame; [exact ex_fs_tx|apply (kframe_pfs 1 ex_fs)|done..]. Qed.

Lemma ex_idle_itab : itab_ok ex_idle_itable.
Proof.
  split; [done| |].
  - intros k x [[-> ->]|[_ ->]]%ex_idle_lookup; done.
  - intros j k x y [[-> ->]|[_ ->]]%ex_idle_lookup [[-> ->]|[_ ->]]%ex_idle_lookup; done.
Qed.

Lemma ex_none : tab_none ex_blocks ex_sb ex_refs ex_idle_itable.
Proof.
  pose proof ex_idle_itab as Hit.
  split; [done| |].
  - intros j y [[-> ->]|[_ ->]]%ex_idle_lookup; (split; [done|]); intros Hp; [|done]. split; [done|]. intros _. by vm_compute.
  - intros dev m. apply refs_eq; [done|unfold ex_refs; case_decide; lia| |].
    + intros k x [[-> ->]|[_ ->]]%ex_idle_lookup (Hp & E1 & E2); [|done]. unfold ex_refs. by rewrite decide_True.
    + unfold ex_refs. case_decide as E; [|lia]. destruct E as [-> ->]. intros _. exists O, ex_root_inode. by split.
Qed.

Lemma file_ok_meta L x h r l : file_ok L x h -> file_ok L (set_i_ref r (set_i_lock l x)) h.
Proof. by apply file_ok_same. Qed.

Lemma ex_tree : tree_ok ex_blocks ex_sb ex_inums.
Proof.
  split.
  - intros d [-> | ->]; vm_compute; split; discriminate.
  - intros d [-> | ->] Ht; [|by vm_compute in Ht]. split; [|by vm_compute].
    assert (E : inode_on ex_blocks ex_sb 1 = set_i_ref 1 (set_i_lock (SleepLock 0 0) ex_dir_inode)) by (by vm_compute).
    rewrite E. apply file_ok_meta, ex_dir_ok.
  - intros d k [-> | ->] Ht Hk Hne; [|by vm_compute in Ht]. assert (El : dir_len (inode_on ex_blocks ex_sb 1) = 4%nat) by (by vm_compute). rewrite El in Hk.
    destruct k as [|[|[|[|k]]]]; [left|left|exfalso|right|lia]; by vm_compute in *.
Qed.

Lemma ex_held_none : held_ok ex_blocks ex_sb ∅.
Proof. intros j c Hj. by rewrite lookup_empty in Hj. Qed.

(** Blocks 0 to 47 are in use. *)
Lemma ex_allocated b : 0 <= b < 2000 -> allocated ex_blocks ex_sb b = (b <? 48).
Proof.
  intros Hb. assert (Hall : Forall (fun k => allocated ex_blocks ex_sb (Z.of_nat k) = (Z.of_nat k <? 48)) (seq 0 2000))
    by (apply (bool_decide_unpack (Forall _ _)); vm_compute; exact I).
  rewrite Forall_forall in Hall. rewrite <- (Z2Nat.id b) by lia. apply Hall, elem_of_seq. lia.
Qed.

Lemma ex_BBLOCK b : 0 <= b < 2000 -> BBLOCK b ex_sb = 45.
Proof. intros Hb. unfold BBLOCK. rewrite Z.div_small by (unfold BPB, BSIZE; lia). done. Qed.

Lemma ex_map_ok : map_ok ex_blocks ex_sb 2.
Proof.
  split.
  - done.
  - done.
  - intros b Hb. rewrite ex_BBLOCK by done. split; [lia|]. unfold in_log, LOGSIZE, MAXOPBLOCKS. lia.
  - intros b Hb _. rewrite ex_BBLOCK by done. by rewrite ex_allocated.
  - intros b Hb Hlog. rewrite ex_allocated by done. unfold in_log, LOGSIZE, MAXOPBLOCKS in Hlog. apply Z.ltb_lt. lia.
Qed.

(** Log, inodes, map and data follow each other. *)
Lemma ex_layout : layout ex_blocks ex_sb 2.
Proof.
  split; [exact ex_map_ok| |done| |done].
  - intros b Hb Hs. change (data_start ex_sb) with 46 in Hb. rewrite ex_allocated by (change (sb_size ex_sb) with 2000 in Hs; lia).
    apply Z.ltb_lt. lia.
  - intros inum Hi. change (sb_ninodes ex_sb) with 200 in Hi. unfold IBLOCK. change IPB with 16. cbn [ex_sb sb_inodestart sb_bmapstart].
    pose proof (Z.div_pos inum 16). pose proof (Z.div_lt_upper_bound inum 16 13). rewrite u32_small by lia. lia.
Qed.

Lemma ex_file_slots bn : 0 <= bn < MAXFILE -> mblock ex_blocks ex_file_inode bn = if decide (bn = 0) then 47 else 0.
Proof.
  intros Hbn. change MAXFILE with 268 in Hbn. unfold mblock. change (ind ex_file_inode) with 0. cbn [Z.eqb].
  destruct (Z.ltb_spec bn NDIRECT) as [Hlt|Hge]; [|unfold NDIRECT in Hge; by rewrite decide_False by lia].
  change (i_addrs ex_file_inode) with (47 :: replicate ndirect 0). unfold NDIRECT in Hlt. case_decide as E; [by subst bn|].
  destruct (Z.to_nat bn) as [|j] eqn:Ej; [lia|]. change ((47 :: replicate ndirect 0) !! S j) with (replicate ndirect 0 !! j). rewrite lookup_replicate_2; [done|unfold ndirect; lia].
Qed.

Lemma ex_file_wf : file_wf ex_blocks ex_sb ex_file_inode.
Proof.
  assert (Hin : forall a, in_file ex_blocks ex_file_inode a -> a = 47).
  { intros a [Hz [E|(bn & Hbn & E)]]; [by change (ind ex_file_inode) with 0 in E|]. rewrite ex_file_slots in E by done. by case_decide. }
  split; try done.
  - intros bn Hbn Hlt. change (i_size ex_file_inode) with 5 in Hlt. unfold BSIZE in Hlt. by assert (bn = 0) as -> by lia.
  - intros a ->%Hin. split; [done|]. rewrite ex_allocated by lia. split; [done|]. apply (bool_decide_unpack (Forall _ _)). vm_compute. exact I.
  - intros b c Hb Hc. rewrite !ex_file_slots by done. by repeat case_decide; intros; subst.
Qed.

Lemma ex_writable : writable [] 1 2 2 1 ex_sb 1 ex_fs ex_blocks [] ex_file_inode.
Proof.
  split; try done.
  - exact ex_fs_tx.
  - apply not_elem_of_nil.
  - exact ex_layout.
  - exact ex_file_wf.
  - exact ex_file_dinode_ok.
Qed.

(** A pipe with the bytes "abc" in it; the reader's counter is about to wrap
    around. *)
Definition ex_pi : Z := MemExample.ex_buf.
Definition ex_pipe_mem (m : mem) : mem :=
  wr_bytes (wr (st 4 (st 4 (st 4 (st 4 m (ex_pi + OFF_nread) (2 ^ 32 - 1)) (ex_pi + OFF_nwrite) 2)
    (ex_pi + OFF_readopen) 1) (ex_pi + OFF_writeopen) 1) (ex_pi + OFF_data + 511) 97) (ex_pi + OFF_data) (str "bc").
Definition ex_pipe : kernel := set_pk (set_phys ex_pipe_mem ex_state) (ex_kernel ex_io).

Lemma ex_pipe_page : pipe_page ex_L ex_fr ex_A ex_pi.
Proof. split; [ex_page|apply ex_buf_ok]. Qed.

Lemma ex_pipe_user : user_at 1 ex_pipe ex_L ex_fr ex_A.
Proof.
  assert (Hfl : forall g k, freelist (set_phys g k) = freelist k) by done.
  apply (user_at_buf_write 1 ex_L ex_fr ex_A (ex_kernel ex_io) _ ex_pi 4096).
  - split; [|apply ex_user_ok]. exists ex_runner. split; [reflexivity|apply ex_space].
  - apply ex_buf_ok.
  - exact (Hfl ex_pipe_mem ex_state).
  - intros x Hx. cbn [phys set_phys]. unfold ex_pipe_mem. change (str "bc") with [98; 99]. cbn [wr_bytes].
    unfold OFF_data, OFF_nread, OFF_nwrite, OFF_readopen, OFF_writeopen.
    rewrite !rd_wr_ne by lia. rewrite !rd_st. repeat (case_decide; [lia|]). done.
Qed.

Lemma ex_pipe_ready : kready [] 1 ex_pipe.
Proof. eapply kready_uframe; [apply (ex_kready ex_io)|apply uframe_pk]. Qed.
