(* ===== verification/FsTheorems.v ===== *)
(** * Files: the theorems

    The block allocator, inodes, reading, directories, paths and pipes, each
    with an instance on the file system of [FsExample]. *)

From S2P Require Import Prelude Riscv Mem CString Kalloc Vm PageTable VmSpec UserCopy Spinlock Proc ProcSpec MemExample ProcExample.
From S2P Require Import IoState SleepLock UserMem Bio BioSpec Bytes Log LogDisk LogSpec LogRecover LogExample.
From S2P Require Import Ring DevSpec Printf Fs Dir Pipe FsSpec InodeSpec ReadSpec FileMap DirSpec NameSpec BmapSpec WriteSpec PipeSpec FsExample.
From S2P Require Import ProcExit File Syscall Sysfile Dispatch FileSpec.

(** [balloc] either returns the first free block, now marked, zeroed and
    logged together with its block of the bitmap, every other block and every
    other bit being as before; or, with no block free, it returns 0 and
    changes nothing. *)
Theorem balloc_spec `{Linker} ls i s me start n L blks h :
  tx_state ls i s me start n L blks h -> map_ok L (sb (pfs s)) start -> held_ok L (sb (pfs s)) h ->
  (S (size h) + length blks < nbuf)%nat -> (S (S (length blks)) < logsize)%nat ->
  panicked (pfs s) = 0 -> PrLock ∉ ls ->
  let f := sb (pfs s) in
  wp (balloc ROOTDEV) s (fun r s2 => fstep i s s2 /\
    ((r = 0 /\ (forall c, 0 <= c < sb_size f -> allocated L f c = true) /\ tx_state ls i s2 me start n L blks h) \/
     (0 <= r < sb_size f /\ allocated L f r = false /\ (forall c, 0 <= c < r -> allocated L f c = true) /\
      exists L2, tx_state ls i s2 me start n L2 (logged (logged blks (BBLOCK r f)) r) h /\
        L2 r = replicate bsize 0 /\ (forall b, b <> r -> b <> BBLOCK r f -> L2 b = L b) /\
        (forall c, 0 <= c < sb_size f -> allocated L2 f c = bool_decide (r = c) || allocated L f c)))).
Proof.
  intros Htx Hm Hh Hsz Hroom Hp Hpr f. eapply (balloc_wp ls i me start n L blks h f); [done..|].
  intros r s2 [F2 [(-> & Hfull & T2)|(Hr & Hfree & Hfull & T2)]]; (split; [done|]).
  - left. split_and!; [done| |done]. intros c Hc. apply Hfull; lia.
  - right. split_and!; [lia|lia|done|intros c Hc; apply Hfull; lia|]. exists (take_block L f r).
    split_and!; [done|by unfold take_block; rewrite block_upd_eq| |].
    + intros b H1 H2. unfold take_block. by rewrite !block_upd_ne.
    + intros c Hc. eapply allocated_take; [done| |done|done|done]. intros x. by eapply tx_len.
Qed.


(** [bfree] clears the bit of an allocated block and no other, and logs
    the bitmap; freeing a free block panics. *)
Theorem bfree_spec `{Linker} ls i s me start n L blks h b :
  tx_state ls i s me start n L blks h -> map_ok L (sb (pfs s)) start -> held_ok L (sb (pfs s)) h ->
  (S (size h) + length blks < nbuf)%nat -> (S (length blks) < logsize)%nat -> 0 <= b < sb_size (sb (pfs s)) ->
  let f := sb (pfs s) in
  (allocated L f b = true -> wp (bfree ROOTDEV b) s (fun _ s2 => fstep i s s2 /\
     exists L2, tx_state ls i s2 me start n L2 (logged blks (BBLOCK b f)) h /\
       (forall c, c <> BBLOCK b f -> L2 c = L c) /\
       (forall c, 0 <= c < sb_size f -> allocated L2 f c = negb (bool_decide (b = c)) && allocated L f c))) /\
  (allocated L f b = false -> bfree ROOTDEV b s = Fail (EPanic "freeing free block")).
Proof.
  intros Htx Hm Hh Hsz Hroom Hb f. split; intros Ha.
  - eapply (bfree_wp ls i me start n L blks h f); [done..|]. intros s2 F2 T2. split; [done|].
    exists (give_block L f b). split_and!; [done| |].
    + intros c Hc. unfold give_block. by rewrite block_upd_ne.
    + intros c Hc. eapply allocated_give; [done| |done|done]. intros x. by eapply tx_len.
  - by eapply (bfree_free ls i me start n L blks h f).
Qed.


(** The entry of an inode without references is recycled by the next [iget]. *)
Lemma evicted tab k x : itab_ok tab -> tab !! k = Some x -> i_ref x = 1 ->
  exists j z, iget_tab (i_dev x) (i_inum x) (alter put_entry k tab) =
      Some (j, alter (fresh_entry (i_dev x) (i_inum x)) j (alter put_entry k tab)) /\
    alter put_entry k tab !! j = Some z /\ i_ref z = 0.
Proof.
  intros Hit Hk Hr. destruct (put_refs tab k x Hit Hk) as [Ho Hrf]; [lia|].
  specialize (Hrf (i_dev x) (i_inum x)). rewrite (refs_entry tab k x Hit Hk), Hr in Hrf by lia.
  unfold one in Hrf. rewrite decide_True in Hrf by done.
  unfold iget_tab, find_entry. unfold refs in Hrf. destruct (list_find (entry_for _ _) _) as [[j z]|] eqn:Ef.
  { apply list_find_Some in Ef as (_ & [Hp _] & _). lia. }
  cbn [fmap option_fmap option_map]. assert (Hf : is_Some (find_empty (alter put_entry k tab))).
  { unfold find_empty. destruct (list_find (fun x => i_ref x = 0) _) as [[j z]|] eqn:Ee; [eauto|].
    apply list_find_None in Ee. rewrite Forall_lookup in Ee. exfalso. apply (Ee k (put_entry x)); [by rewrite list_lookup_alter_eq, Hk|].
    cbn [put_entry i_ref set_i_ref]. lia. }
  destruct Hf as [j Hj]. pose proof Hj as Hj'. unfold find_empty in Hj'. apply fmap_Some in Hj' as ([j' z] & Ee & Ej). cbn [fst] in Ej. subst j'.
  apply list_find_Some in Ee as (Hz & Hz0 & _). exists j, z. by rewrite Hj.
Qed.

(** C28: an inode survives its eviction from the table. What [iupdate] wrote is
    what [ilock] reads back after the last reference was dropped and another
    [iget] took a recycled entry: type, device numbers, links, size and block
    addresses are the same. *)
Theorem inode_evict_roundtrip `{LinkerOk} ls i s me start n L blks h k x :
  tx_state ls i s me start n L blks h -> ItableLock ∉ ls -> itab_ok (itable (pfs s)) -> itable (pfs s) !! k = Some x ->
  i_ref x = 1 -> i_lock x = SleepLock 1 me -> i_dev x = ROOTDEV -> i_nlink x <> 0 -> i_type x <> 0 -> dinode_ok (dinode_of x) ->
  (forall j y, itable (pfs s) !! j = Some y -> i_ref y = 0 -> i_lock y = SleepLock 0 0) ->
  let b := IBLOCK (i_inum x) (sb (pfs s)) in
  (forall j, h !! j <> Some b) -> home start b -> (S (size h) + length blks < nbuf)%nat -> (S (length blks) < logsize)%nat ->
  wp (iupdate k ;; iunlockput k ;; j <- iget ROOTDEV (i_inum x) ;; ilock (Some j) ;; ret j)%K s
    (fun j s2 => exists y, itable (pfs s2) !! j = Some y /\ entry_for ROOTDEV (i_inum x) y /\ i_valid y = 1 /\
       i_lock y = SleepLock 1 me /\ dinode_of y = dinode_of x).
Proof.
  intros Htx Hni Hit Hk Hr Hlk Hdev Hnl Hty Hok Hidle b Hnh Hhome Hsz Hroom. wp_step.
  eapply (iupdate_wp ls i s); [done|exact Hk|done|done|lia|done|done|]. intros s1 F1 T1.
  pose proof (istep_fstep _ _ _ F1) as S1. destruct (istep_same _ _ _ _ S1) as (I1 & B1 & _). wp_step.
  eapply iunlockput_wp; [exact T1|done|by rewrite I1|by rewrite I1|lia|done|by right; right|]. intros s2 S2 T2.
  destruct (istep_same _ _ _ _ S2) as (I2 & B2 & _). rewrite I1 in I2.
  destruct (evicted _ k x Hit Hk Hr) as (j & z & Hg & Hz & Hz0). rewrite Hdev in Hg.
  destruct (put_refs _ k x Hit Hk) as [Hit2 _]; [lia|]. destruct (tx_slots _ _ _ _ _ _ _ _ _ T2) as (_ & Hls & _).
  wp_step. eapply (iget_wp ls i s2); [by eapply tx_ready|done|lia|by rewrite I2|by rewrite I2|]. intros s3 K3 E3.
  assert (I3 : itable (pfs s3) !! j = Some (fresh_entry ROOTDEV (i_inum x) z)) by (rewrite E3; cbn [itable set_itable]; by rewrite list_lookup_alter_eq, Hz).
  assert (B3 : sb (pfs s3) = sb (pfs s)) by (rewrite E3; cbn [sb set_itable]; congruence).
  assert (Ed : on_disk (stored L (sb (pfs s)) x) (sb (pfs s)) (i_inum x) = dinode_of x) by (apply on_disk_stored; [intros; by eapply tx_len|done]).
  assert (Hlz : i_lock z = SleepLock 0 0).
  { apply (lookup_alter_cases _ k x _ Hk) in Hz as [[-> ->]|[_ Hz]]; [done|by eapply Hidle]. }
  assert (Hlg : (length (logged blks b) <= S (length blks))%nat) by (unfold logged; case_decide; rewrite ?length_app; simpl; lia).
  wp_step. eapply ilock_wp; [by eapply tx_set_itable|exact I3| |].
  - split; [done|]. split; [done|]. split; [done|]. intros _. rewrite B3. split; [done|]. split; [fold b; lia|].
    cbn [i_inum fresh_entry set_i_valid set_i_ref set_i_inum set_i_dev]. rewrite Ed. done.
  - intros s4 S4 T4. destruct (istep_same _ _ _ _ S4) as (I4 & _). apply wp_ret.
    exists (locked_entry me (stored L (sb (pfs s)) x) (sb (pfs s)) (fresh_entry ROOTDEV (i_inum x) z)).
    rewrite I4, list_lookup_alter_eq, I3, B3. split; [done|]. unfold locked_entry.
    change (i_valid (fresh_entry ROOTDEV (i_inum x) z) =? 0) with true. cbv iota.
    split; [by split|]. split; [done|]. split; [done|]. rewrite dinode_of_loaded. exact Ed.
Qed.

Lemma inode_evict_roundtrip_witness :
  wp (iupdate 1 ;; iunlockput 1 ;; j <- iget ROOTDEV 2 ;; ilock (Some j) ;; ret j)%K ex_fs
    (fun j s2 => exists y, itable (pfs s2) !! j = Some y /\ entry_for ROOTDEV 2 y /\ i_valid y = 1 /\
       i_lock y = SleepLock 1 2 /\ dinode_of y = ex_file_dinode).
Proof.
  apply (inode_evict_roundtrip [] 1 ex_fs 2 2 1 ex_blocks [] ∅ 1 ex_file_inode ex_fs_tx).
  - apply not_elem_of_nil.
  - exact ex_itab_ok.
  - reflexivity.
  - reflexivity.
  - reflexivity.
  - reflexivity.
  - vm_compute. discriminate.
  - vm_compute. discriminate.
  - exact ex_file_dinode_ok.
  - intros [|[|j]] y; [intros [= <-]; discriminate..|].
    change (itable (pfs ex_fs) !! S (S j)) with (replicate 48 inode0 !! j). intros [-> _]%lookup_replicate. done.
  - intros j. by rewrite lookup_empty.
  - split; [vm_compute; split; discriminate || reflexivity|]. unfold in_log. vm_compute. intros [_ Hc]. discriminate.
  - vm_compute. lia.
  - vm_compute. lia.
Defined.

(** [iget] keeps the table without duplicates and adds one reference to
    the inode it was asked for and to no other; a new entry is marked as not
    yet read. With every entry in use by other inodes it panics. *)
Theorem iget_spec `{Linker} ls i s dev inum :
  kready ls i s -> ItableLock ∉ ls -> (length ls < 8)%nat -> itab_ok (itable (pfs s)) ->
  refs (itable (pfs s)) dev inum < 2 ^ 31 - 2 ->
  let tab := itable (pfs s) in
  (0 < refs tab dev inum \/ (0 < free_entries tab)%nat -> wp (iget dev inum) s (fun k s2 => kframe i s s2 /\
     exists tab2 y, pfs s2 = set_itable tab2 (pfs s) /\ itab_ok tab2 /\ tab2 !! k = Some y /\ entry_for dev inum y /\
       (refs tab dev inum = 0 -> i_valid y = 0) /\ (forall j, j <> k -> tab2 !! j = tab !! j) /\
       (forall d m, refs tab2 d m = refs tab d m + one (dev = d /\ inum = m)))) /\
  (refs tab dev inum = 0 -> free_entries tab = O -> iget dev inum s = Fail (EPanic "iget: no inodes")).
Proof.
  intros Hr Hni Hlen Hit Hmax tab. split.
  - intros Hroom. assert (Hg : is_Some (iget_tab dev inum tab)).
    { destruct Hroom as [Hp|Hf]; [|by apply iget_tab_room]. unfold refs in Hp. unfold iget_tab, find_entry.
      destruct (list_find (entry_for dev inum) tab) as [[j x]|]; [by eexists|lia]. }
    destruct Hg as [[k tab2] Hg]. destruct (iget_tab_refs tab dev inum k tab2 Hit Hg Hmax) as (Hit2 & (y & Hy & Hfor) & Hsame & Hr2).
    eapply (iget_wp ls i s); [done|done|done|done|exact Hg|]. intros s2 K2 E2. split; [done|]. exists tab2, y. split_and!; try done.
    intros H0. destruct (iget_tab_at _ _ _ _ _ Hg) as (z & Hz & [[Hforz ->]|[_ ->]]).
    + exfalso. destruct Hforz as (Hp & <- & <-). rewrite (refs_entry tab k z) in H0 by done. lia.
    + rewrite list_lookup_alter_eq, Hz in Hy. by injection Hy as <-.
  - intros H0 Hf. eapply (iget_full ls i s); [done|done|done|done|]. fold tab. unfold iget_tab, find_entry, find_empty.
    unfold refs in H0. destruct (list_find (entry_for dev inum) tab) as [[j x]|] eqn:Ef.
    + apply list_find_Some in Ef as (_ & [Hp _] & _). lia.
    + destruct (list_find (fun x => i_ref x = 0) tab) as [[j x]|] eqn:Ee; [|done]. apply list_find_Some in Ee as (Hj & Hx & _).
      pose proof (free_alter tab j x (set_i_ref 1) Hj) as F. unfold one in F. rewrite Hx in F. simpl in F. lia.
Qed.


(** C19: [readi] into user memory returns the number of bytes that are there
    from the offset on, at most [n], and leaves exactly these bytes of the file
    at the user addresses from [dst] on, whether its blocks are addressed
    directly or through the indirect block; no other byte of a page changes,
    and neither does any block or inode. *)
Theorem readi_spec `{LinkerOk} ls i s me start nop L blks h k x pt fr A dst off n :
  tx_state ls i s me start nop L blks h -> itable (pfs s) !! k = Some x -> file_ok L x h -> user_at i s pt fr A ->
  (size h + length blks < nbuf)%nat -> 0 <= off < 2 ^ 32 -> 0 <= n < 2 ^ 31 ->
  let len := if i_size x <? off then 0 else Z.min n (i_size x - off) in
  user_dst A dst len ->
  wp (readi k true dst off n) s (fun r s2 => r = len /\ rstep i s s2 /\ tx_state ls i s2 me start nop L blks h /\
    user_at i s2 pt fr A /\ user_wrote A (phys (pk s)) (phys (pk s2)) dst (file_bytes L x off (Z.to_nat len))).
Proof.
  intros Htx Hx Hfo Hua Hsz Hoff Hn len Hd.
  pose proof (user_sink i pt fr A (proj2 Hua)) as Hsink.
  eapply (readi_wp i true (fun s => user_at i s pt fr A) (user_wrote A) (user_dst A) ls me start nop L blks h k x); [done..|].
  cbv zeta. fold len. split; [done|]. intros s2 R2 T2 U2 W2. done.
Qed.

Lemma readi_spec_witness :
  wp (readi 1 true 100 1 10) ex_fs (fun r s2 => r = 4 /\ rstep 1 ex_fs s2 /\ tx_state [] 1 s2 2 2 1 ex_blocks [] ∅ /\
    user_at 1 s2 ex_L ex_fr ex_A /\
    user_wrote ex_A (phys (pk ex_fs)) (phys (pk s2)) 100 (file_bytes ex_blocks ex_file_inode 1 4)).
Proof.
  apply (readi_spec [] 1 ex_fs 2 2 1 ex_blocks [] ∅ 1 ex_file_inode ex_L ex_fr ex_A 100 1 10 ex_fs_tx).
  - reflexivity.
  - exact ex_file_ok.
  - split; [|apply ex_user_ok]. exists ex_runner. split; [reflexivity|apply ex_space].
  - vm_compute. lia.
  - lia.
  - lia.
  - change (user_dst ex_A 100 4). split; [lia|]. split; [lia|]. intros k Hk. unfold user_mapped, user_page.
    rewrite Z.div_small by (unfold PGSIZE; lia). vm_compute. discriminate.
Defined.

(** C4: path resolution. [namei] follows the elements of the path, each cut
    off after 14 bytes, from the root for a path with a leading slash and from
    the current directory otherwise. It returns the entry of the inode that
    the walk on disk leads to, which has one reference more than before; if
    the walk leads nowhere it returns no inode. In both cases all other
    references are as before, no inode is left locked and the table is up to
    date: what was taken on the way has been given back. *)
Theorem namei_spec `{LinkerOk} ls i s me start n L blks P R path d :
  tx_state ls i s me start n L blks ∅ -> ItableLock ∉ ls -> (length blks < nbuf)%nat ->
  let f := sb (pfs s) in let tab := itable (pfs s) in
  tree_ok L f P -> P d -> (forall dev m, R dev m < 2 ^ 31 - 3) -> tab_none L f R tab -> (2 <= free_entries tab)%nat ->
  starts_at i s path d -> bytes_ok path ->
  wp (namei path) s (fun r s2 => exists tab2, dstep i s tab2 s2 /\ tx_state ls i s2 me start n L blks ∅ /\
    itab_ok tab2 /\ (forall j y, tab2 !! j = Some y -> idle L f y) /\
    match walk L f false d (path_elems path) with
    | Some m => exists k y, r = Some k /\ tab2 !! k = Some y /\ entry_for ROOTDEV m y /\
        forall dev m', refs tab2 dev m' = R dev m' + one (ROOTDEV = dev /\ m = m')
    | None => r = None /\ forall dev m', refs tab2 dev m' = R dev m'
    end).
Proof.
  intros Htx Hni Hbl f tab Htree Hd HR Tn Hfree Hst Hpath. unfold namei. wp_step.
  eapply (namex_wp ls i me start n L blks f P R Hni Htree HR Hbl s path false d); [done..|].
  intros [r nm] s2 (tab2 & D2 & T2 & Hres). apply wp_ret. exists tab2. split; [done|]. split; [done|].
  destruct (walk L f false d (path_elems path)) as [m|].
  - destruct Hres as (_ & k & y & [= -> _] & [Hit2 Hid2 Hk2 Hfor2 _ Hr2]). split; [done|]. split; [done|].
    exists k, y. split; [done|]. done.
  - destruct Hres as (Hr & [Hit2 Hid2 Hr2]). split; [done|]. split; [done|]. by split.
Qed.

Lemma namei_spec_witness :
  walk ex_blocks ex_sb false 1 (path_elems (str "/.//hello")) = Some 2 /\
  wp (namei (str "/.//hello")) ex_idle (fun r s2 => exists tab2, dstep 1 ex_idle tab2 s2 /\ tx_state [] 1 s2 2 2 1 ex_blocks [] ∅ /\
    itab_ok tab2 /\ (forall j y, tab2 !! j = Some y -> idle ex_blocks ex_sb y) /\
    match walk ex_blocks ex_sb false 1 (path_elems (str "/.//hello")) with
    | Some m => exists k y, r = Some k /\ tab2 !! k = Some y /\ entry_for ROOTDEV m y /\
        forall dev m', refs tab2 dev m' = ex_refs dev m' + one (ROOTDEV = dev /\ m = m')
    | None => r = None /\ forall dev m', refs tab2 dev m' = ex_refs dev m'
    end).
Proof.
  split; [vm_compute; reflexivity|].
  apply (namei_spec [] 1 ex_idle 2 2 1 ex_blocks [] ex_inums ex_refs (str "/.//hello") 1 ex_idle_tx).
  - apply not_elem_of_nil.
  - vm_compute. lia.
  - exact ex_tree.
  - by left.
  - intros dev m. unfold ex_refs. case_decide; lia.
  - exact ex_none.
  - vm_compute. lia.
  - reflexivity.
  - apply (bool_decide_unpack (Forall _ _)). vm_compute. exact I.
Defined.



(** C30: a pipe is a bounded queue, its reader's side. With bytes in the pipe,
    or without a writer, [piperead] takes bytes off the front, at most [n],
    and stores them in the reader's memory from [dst] on. It stops early only
    at an address that is not mapped, and then one more byte is lost. *)
Theorem piperead_spec `{LinkerOk} ls i s pt fr A pi dst n :
  kready ls i s -> PipeLock pi ∉ ls -> (length ls < 8)%nat -> user_at i s pt fr A -> pipe_page pt fr A pi ->
  pipe_ok (phys (pk s)) pi -> pipe_queue (phys (pk s)) pi <> [] \/ writeopen (phys (pk s)) pi = 0 ->
  0 <= n -> 0 <= dst -> dst + n < 2 ^ 64 ->
  let m := phys (pk s) in let q := pipe_queue m pi in
  wp (piperead pi dst n) s (fun r s2 => let m2 := phys (pk s2) in
    uframe i s s2 /\ pfs s2 = pfs s /\ user_at i s2 pt fr A /\ pipe_ok m2 pi /\ pipe_flags m m2 pi /\ 0 <= r /\
    moved A pi m m2 dst (take (Z.to_nat r) q) /\
    ((r = Z.min n (Z.of_nat (length q)) /\ pipe_queue m2 pi = drop (Z.to_nat r) q) \/
     (r < Z.min n (Z.of_nat (length q)) /\ ~ user_mapped A (dst + r) /\ pipe_queue m2 pi = drop (S (Z.to_nat r)) q))).
Proof.
  intros Hr Hni Hlen Hua Hpg Hok Hne Hn Hd Hend m q.
  eapply (piperead_wp ls i pt fr A pi s dst n); [done..|]. intros s2 j U2 E2 Hua2 Hok2 Hfl Hdel Hmv. fold m q in Hdel, Hmv.
  cbv zeta. rewrite Nat2Z.id. split; [done|]. split; [done|]. split; [done|]. split; [done|]. split; [done|]. split; [lia|].
  split; [done|]. destruct Hdel as [[-> ->]|(Hj & Hu & ->)]; [left|right].
  - split; [lia|done].
  - split; [lia|done].
Qed.

Lemma piperead_spec_witness :
  wp (piperead ex_pi 4095 2) ex_pipe (fun r s2 => let m2 := phys (pk s2) in
    uframe 1 ex_pipe s2 /\ pfs s2 = pfs ex_pipe /\ user_at 1 s2 ex_L ex_fr ex_A /\ pipe_ok m2 ex_pi /\
    pipe_flags (phys (pk ex_pipe)) m2 ex_pi /\ 0 <= r /\
    moved ex_A ex_pi (phys (pk ex_pipe)) m2 4095 (take (Z.to_nat r) (pipe_queue (phys (pk ex_pipe)) ex_pi)) /\
    ((r = Z.min 2 (Z.of_nat (length (pipe_queue (phys (pk ex_pipe)) ex_pi))) /\
        pipe_queue m2 ex_pi = drop (Z.to_nat r) (pipe_queue (phys (pk ex_pipe)) ex_pi)) \/
     (r < Z.min 2 (Z.of_nat (length (pipe_queue (phys (pk ex_pipe)) ex_pi))) /\ ~ user_mapped ex_A (4095 + r) /\
        pipe_queue m2 ex_pi = drop (S (Z.to_nat r)) (pipe_queue (phys (pk ex_pipe)) ex_pi)))).
Proof.
  apply (piperead_spec [] 1 ex_pipe ex_L ex_fr ex_A ex_pi 4095 2 ex_pipe_ready).
  - apply not_elem_of_nil.
  - simpl. lia.
  - exact ex_pipe_user.
  - exact ex_pipe_page.
  - vm_compute. discriminate.
  - left. vm_compute. discriminate.
  - lia.
  - lia.
  - lia.
Defined.

(** * Reference counts of files and inodes

    The file layer against its abstract specification, two lists of
    references.  Any sequence of duplications and closes that the lists allow
    runs on the tables of the kernel. *)

Local Open Scope kernel_scope.

(** What a process does with the references it holds. *)
Inductive fop :=
  | ODup (f : Z)     (** filedup *)
  | OClose (f : Z)   (** fileclose *)
  | OIdup (ip : Z)   (** idup *)
  | OPut (ip : Z).   (** begin_op, iput, end_op *)

Section Simulation.
Context `{Linker}.

Definition run_fop (o : fop) : K unit :=
  match o with
  | ODup f => fo_filedup f ;; ret tt
  | OClose f => fo_fileclose f
  | OIdup ip => fo_idup ip ;; ret tt
  | OPut ip => fo_begin_op ;; fo_iput ip ;; fo_end_op
  end.

Fixpoint run_fops (os : list fop) : K unit :=
  match os with
  | [] => ret tt
  | o :: os => run_fop o ;; run_fops os
  end.

(** The same on the lists; only a held reference can be copied or dropped. *)
Definition refs_fop (o : fop) (r : held_refs) : option held_refs :=
  match o with
  | ODup f => if bool_decide (f ∈ r.1) then Some (f :: r.1, r.2) else None
  | OClose f => (fun l => (l, r.2)) <$> drop_ref f r.1
  | OIdup ip => if bool_decide (ip ∈ r.2) then Some (r.1, ip :: r.2) else None
  | OPut ip => (fun l => (r.1, l)) <$> drop_ref ip r.2
  end.

Fixpoint refs_fops (os : list fop) (r : held_refs) : option held_refs :=
  match os with
  | [] => Some r
  | o :: os => refs_fop o r ≫= refs_fops os
  end.

Lemma drop_ref_some f l l' : drop_ref f l = Some l' -> l ≡ₚ f :: l'.
Proof.
  revert l'. induction l as [|x l IH]; intros l'; cbn [drop_ref]; [done|]. destruct (Z.eqb_spec x f) as [->|_]; [by intros [= ->]|].
  intros (k & Hk & ->)%fmap_Some. rewrite (IH k Hk). apply Permutation_swap.
Qed.

Lemma files_iperm f fs ips ips' : ips ≡ₚ ips' -> files_inv f fs ips -> files_inv f fs ips'.
Proof. intros E [I1 I2 I3 I4 I5 I6 I7 I8 I9]. split; try done; [|by rewrite <- E]. intros k x Hx. by rewrite (I3 k x Hx), (cnt_perm _ _ _ E). Qed.

Lemma run_fop_ok i s o fs ips r' :
  calm i s -> Z.of_nat (length fs) < 2 ^ 30 -> Z.of_nat (length ips) < 2 ^ 30 -> files_inv (pfs s) fs ips ->
  refs_fop o (fs, ips) = Some r' ->
  wp (run_fop o) s (fun _ s' => files_inv (pfs s') r'.1 r'.2 /\ fo_frame i s s') /\
  (length r'.1 <= S (length fs))%nat /\ (length r'.2 <= S (length ips))%nat.
Proof.
  intros Hc Hf Hi Hinv. destruct o as [f|f|ip|ip]; cbn [refs_fop run_fop fst snd].
  - case_bool_decide as Hin; [|done]. intros [= <-]. apply elem_of_Permutation in Hin as [k Hk]. cbn [fst snd length]. split; [|lia].
    rewrite Hk in Hf. simpl in Hf. wp_step.
    eapply wp_mono; [apply (filedup_ok i s f k ips); [done|lia|by eapply files_perm]|].
    intros r s' (_ & I & F). apply wp_ret. split; [|done]. eapply files_perm; [|exact I]. by rewrite Hk.
  - intros (l & Hl%drop_ref_some & ->)%fmap_Some. pose proof (Permutation_length Hl) as El. cbn [length fst snd] in El |- *. split; [|lia].
    apply (fileclose_ok i s f l ips); [done|by eapply files_perm].
  - case_bool_decide as Hin; [|done]. intros [= <-]. apply elem_of_Permutation in Hin as [k Hk]. cbn [fst snd length]. split; [|lia].
    rewrite Hk in Hi. simpl in Hi. wp_step.
    eapply wp_mono; [apply (idup_ok i s ip fs k); [done|lia|by eapply files_iperm]|].
    intros r s' (_ & I & F). apply wp_ret. split; [|done]. eapply files_iperm; [|exact I]. by rewrite Hk.
  - intros (l & Hl%drop_ref_some & ->)%fmap_Some. pose proof (Permutation_length Hl) as El. cbn [length fst snd] in El |- *. split; [|lia].
    apply (put_ok i s ip fs l); [done|by eapply files_iperm].
Qed.


End Simulation.

(** ** One open file *)

Definition closed_file : file := File FD_NONE 0 0 0 0 0 0 0.
Definition ex_open_io : iost :=
  set_itable ex_idle_itable (set_ftable (File FD_INODE 1 1 0 0 0 0 0 :: replicate 99 closed_file) ex_io).

Lemma ex_rest f : bufs f = bufs ex_io -> dsk f = dsk ex_io -> lg f = lg ex_io -> fs_rest f.
Proof.
  intros E1 E2 E3. eapply (fs_rest_same ex_io); [done..|]. exists (fun _ => zero_block), 2, ex_lru. split_and!; try done.
  - apply ex_io_inv.
  - split; try done; try (by constructor); simpl; unfold logsize; lia.
Qed.

Lemma ex_open_files : files_inv ex_open_io [file_addr 0] [].
Proof.
  assert (Hf : forall k x, ftable ex_open_io !! k = Some x -> (k = O /\ x = File FD_INODE 1 1 0 0 0 0 0) \/ (k <> O /\ x = closed_file)).
  { intros [|k] x; [intros [= <-]; auto|]. cbn [ftable ex_open_io set_itable set_ftable]. intros [-> _]%lookup_replicate. auto. }
  split.
  - by apply ex_rest.
  - apply ex_idle_itab.
  - intros k x [[-> ->]|[Hne ->]]%ex_idle_lookup; [by vm_compute|]. destruct k; [done|]. by vm_compute.
  - intros k x [[-> ->]|[Hne ->]]%ex_idle_lookup; [by right|done].
  - constructor.
  - done.
  - intros k x [[-> ->]|[Hne ->]]%Hf; rewrite cnt_cons; [by rewrite decide_True|]. rewrite decide_False; [done|].
    intros E%file_addr_inj. done.
  - intros k x [[-> ->]|[Hne ->]]%Hf; [|done]. intros _. split; [by left|]. unfold ninode. simpl. lia.
  - constructor; [|constructor]. exists O. split; [unfold nfile; lia|done].
Qed.


(** * Writing files: theorems *)


Lemma ex_fs_user : user_at 1 ex_fs ex_L ex_fr ex_A.
Proof. split; [|apply ex_user_ok]. exists ex_runner. split; [reflexivity|apply ex_space]. Qed.

Lemma ex_user_dst a n : 0 <= a -> 0 <= n -> a + n <= PGSIZE -> user_dst ex_A a n.
Proof.
  intros Ha Hn Hs. unfold PGSIZE in Hs. split; [lia|]. split; [lia|]. intros k Hk. unfold user_mapped, user_page.
  rewrite Z.div_small by (unfold PGSIZE; lia). vm_compute. discriminate.
Qed.


(** C17: what is written is what is read. A [writei] followed by a [readi] of as
    many bytes at the same offset leaves at the destination exactly the bytes
    that were at the source before, whether or not the write has made the file
    longer and whether or not the two ranges of user memory overlap. *)
Theorem write_read_roundtrip `{LinkerOk} ls i me start nop f k s L blks x pt fr A src dst off n :
  writable ls i me start nop f k s L blks x -> user_at i s pt fr A -> 0 <= off <= i_size x -> 0 <= n -> off + n <= MAXFILE * BSIZE ->
  user_dst A src n -> user_dst A dst n -> (length blks + length (map_blocks f) + span off n + 4 < logsize)%nat ->
  wp (r <- writei k true src off n ;; q <- readi k true dst off r ;; ret (r, q))%K s (fun rq s2 =>
    0 <= rq.1 <= n /\ rq.2 = rq.1 /\
    forall j, 0 <= j < rq.1 -> rd (phys (pk s2)) (upa A (dst + j)) = rd (phys (pk s)) (upa A (src + j))).
Proof.
  intros Hwl Hua Hoff Hn Hmax Hsrc Hdst Hroom. assert (Hmx : MAXFILE * BSIZE = 274432) by done.
  pose proof (user_source i pt fr A (proj2 Hua)) as Hs. pose proof (user_sink i pt fr A (proj2 Hua)) as Hd.
  wp_step. eapply (writei_wp ls i me start nop f k true _ (user_dst A) _ s L blks x); [exact Hwl|exact Hua|done..|].
  intros r s2 (L2 & blks2 & x2 & D2 & Hu2 & W2 & Hr & Hfull & [Ei _ Eb _ _ _] & Hbl). wp_step.
  assert (Hsz : i_size x2 = Z.max (i_size x) (off + r)) by (by rewrite Ei).
  eapply (readi_wp i true (fun s => user_at i s pt fr A) (user_wrote A) (user_dst A) ls me start nop L2 blks2 ∅ k x2);
    [apply W2|apply W2|eapply wf_file_ok, W2|done|rewrite map_size_empty; unfold nbuf, logsize in *; lia|lia|lia|].
  cbv zeta. rewrite Hsz, (proj2 (Z.ltb_ge _ off)), Z.min_l by lia. split; [destruct Hdst as (A1 & A2 & A3); split; [lia|]; split; [lia|]; intros j Hj; apply A3; lia|].
  intros s3 R3 T3 U3 [Wr _]. apply wp_ret. cbn [fst snd]. split; [lia|]. split; [done|]. intros j Hj.
  destruct (Wr (Z.to_nat j) (file_byte L2 x2 (off + j))) as [_ E].
  - unfold file_bytes. rewrite list_lookup_fmap, lookup_seq_lt by lia. simpl. do 2 f_equal. lia.
  - rewrite Z2Nat.id in E by lia. rewrite E, Eb, decide_True by lia. do 2 f_equal. lia.
Qed.

Lemma write_read_roundtrip_witness :
  wp (r <- writei 1 true 100 4 2000 ;; q <- readi 1 true 1000 4 r ;; ret (r, q))%K ex_fs (fun rq s2 =>
    0 <= rq.1 <= 2000 /\ rq.2 = rq.1 /\
    forall j, 0 <= j < rq.1 -> rd (phys (pk s2)) (upa ex_A (1000 + j)) = rd (phys (pk ex_fs)) (upa ex_A (100 + j))).
Proof.
  apply (write_read_roundtrip [] 1 2 2 1 ex_sb 1 ex_fs ex_blocks [] ex_file_inode ex_L ex_fr ex_A 100 1000 4 2000 ex_writable ex_fs_user).
  - vm_compute. split; discriminate.
  - lia.
  - vm_compute. discriminate.
  - apply ex_user_dst; unfold PGSIZE; lia.
  - apply ex_user_dst; unfold PGSIZE; lia.
  - vm_compute. lia.
Defined.

(** C32: a write fits its reservation. On a disk whose free map is one block, a
    [writei] of at most the number of bytes that [filewrite] passes to it in
    one operation adds at most [MAXOPBLOCKS] blocks to the transaction, the
    number that [begin_op] has reserved, even if it takes the indirect block
    and all data blocks from the free blocks. *)
Theorem write_fits_reservation `{LinkerOk} ls i me start nop f k s L blks x pt fr A src off n :
  writable ls i me start nop f k s L blks x -> user_at i s pt fr A -> 0 <= off <= i_size x -> off + n <= MAXFILE * BSIZE ->
  0 <= n <= max_write -> 0 <= sb_size f < BPB -> user_dst A src n -> Z.of_nat (length blks) + MAXOPBLOCKS < LOGSIZE ->
  wp (writei k true src off n) s (fun _ s2 => exists L2 blks2, tx_state ls i s2 me start nop L2 blks2 ∅ /\
    Z.of_nat (length blks2) <= Z.of_nat (length blks) + MAXOPBLOCKS).
Proof.
  intros Hwl Hua Hoff Hmax Hn Hsz Hsrc Hres. change max_write with 3072 in Hn. change MAXOPBLOCKS with 10 in *. change LOGSIZE with 30 in *.
  assert (Hmap : length (map_blocks f) = 1%nat) by (unfold map_blocks; rewrite length_fmap, length_seq, Z.div_small by done; done).
  assert (Hspan : (span off n <= 4)%nat).
  { unfold span, BSIZE. pose proof (Z.div_mod off 1024). pose proof (Z.mod_pos_bound off 1024).
    assert ((off + n) / 1024 < off / 1024 + 4); [|lia]. apply Z.div_lt_upper_bound; lia. }
  pose proof (user_source i pt fr A (proj2 Hua)) as Hs.
  eapply (writei_wp ls i me start nop f k true _ (user_dst A) _ s L blks x); [exact Hwl|exact Hua|done|lia|done|done|unfold logsize; lia|].
  intros r s2 (L2 & blks2 & x2 & _ & _ & W2 & _ & _ & _ & Hbl). exists L2, blks2. split; [apply W2|lia].
Qed.

Lemma write_fits_reservation_witness :
  wp (writei 1 true 100 4 2000) ex_fs (fun _ s2 => exists L2 blks2, tx_state [] 1 s2 2 2 1 L2 blks2 ∅ /\
    Z.of_nat (length blks2) <= Z.of_nat (length (@nil Z)) + MAXOPBLOCKS).
Proof.
  apply (write_fits_reservation [] 1 2 2 1 ex_sb 1 ex_fs ex_blocks [] ex_file_inode ex_L ex_fr ex_A 100 4 2000 ex_writable ex_fs_user).
  - vm_compute. split; discriminate.
  - vm_compute. discriminate.
  - change max_write with 3072. lia.
  - vm_compute. split; [discriminate|reflexivity].
  - apply ex_user_dst; unfold PGSIZE; lia.
  - vm_compute. reflexivity.
Defined.
