(* ===== verification/Kvm.v ===== *)
(** * The kernel's page table

    [kvmmake], [kvminit] and [kvminithart] of [kernel/vm.c]: the direct map of
    the devices and of memory, the trampoline and the kernel stacks, and the
    register [satp] that switches it on.  Paging itself is the hardware's; a
    fence for the TLB has no counterpart.

    The table that [kvmmake] builds is the address space [kernel_map]: devices
    and memory at their own addresses, the kernel's text read-only, a stack for
    every process with an unmapped page below it, and nothing else.  The number
    of page-table pages is bounded, so the construction cannot run out of memory
    when 137 pages are free. *)

From S2P Require Import Prelude Riscv Mem CString Kalloc Vm PageTable VmSpec UvmSpec MemExample Proc.

Section Kvm.
Context `{Linker}.
Local Open Scope kernel_scope.

Definition kvmmake : M kst Z :=
  kpgtbl <- kalloc ;;
  modify (set_phys (fun m => memset m kpgtbl 0 PGSIZE)) ;;
  kvmmap kpgtbl UART0 UART0 PGSIZE (Z.lor PTE_R PTE_W) ;;
  kvmmap kpgtbl VIRTIO0 VIRTIO0 PGSIZE (Z.lor PTE_R PTE_W) ;;
  kvmmap kpgtbl PLIC PLIC 0x400000 (Z.lor PTE_R PTE_W) ;;
  kvmmap kpgtbl KERNBASE KERNBASE (u64 (etext - KERNBASE)) (Z.lor PTE_R PTE_X) ;;
  kvmmap kpgtbl etext etext (u64 (PHYSTOP - etext)) (Z.lor PTE_R PTE_W) ;;
  kvmmap kpgtbl TRAMPOLINE trampoline PGSIZE (Z.lor PTE_R PTE_X) ;;
  proc_mapstacks kpgtbl ;;
  ret kpgtbl.

(** The variable [kernel_pagetable] and the register [satp] of this hart. *)
Record kvst := KVSt { kv_mem : kst; kernel_pagetable : Z; kv_satp : Z }.

Definition kvminit : M kvst unit :=
  fun s => match kvmmake (kv_mem s) with
           | Ok t m => Ok tt (KVSt m t (kv_satp s))
           | Fail e => Fail e
           end.
Definition kvminithart : M kvst unit :=
  modify (fun s => KVSt (kv_mem s) (kernel_pagetable s) (MAKE_SATP (kernel_pagetable s))).

End Kvm.

(** ** What the table maps *)

Section Labels.
Context `{LinkerOk}.

(** No two page-table pages have the same place in the tree. *)
Lemma label_unique m root L p q l x : pt_wf m root L -> L !! p = Some (l, x) -> L !! q = Some (l, x) -> p = q.
Proof.
  intros Hwf. assert (Hd : forall (d : nat) p q l x, 2 - l = Z.of_nat d -> L !! p = Some (l, x) -> L !! q = Some (l, x) -> p = q); [|intros Hp Hq].
  - clear p q l x. induction d as [|d IH]; intros p q l x Hl Hp Hq.
    + destruct (wf_page _ _ _ Hwf _ _ _ Hp) as (_ & _ & E1), (wf_page _ _ _ Hwf _ _ _ Hq) as (_ & _ & E2). rewrite E1, E2 by lia. done.
    + destruct (wf_page _ _ _ Hwf _ _ _ Hp) as (O1 & _), (wf_page _ _ _ Hwf _ _ _ Hq) as (O2 & _).
      destruct (wf_parent _ _ _ Hwf _ _ _ Hp) as (p' & Hp' & Lp); [lia|]. destruct (wf_parent _ _ _ Hwf _ _ _ Hq) as (q' & Hq' & Lq); [lia|].
      assert (p' = q') as -> by (eapply IH; [|exact Hp'|exact Hq']; lia). apply ptr_inj; [done|done|congruence].
  - destruct (wf_page _ _ _ Hwf _ _ _ Hp) as (_ & Hr & _). eapply (Hd (Z.to_nat (2 - l)) p q l x); [lia|done|done].
Qed.

(** There are at most as many of them as places. *)
Lemma labels_size m root L (NS : list (Z * Z)) : pt_wf m root L -> (forall p v, L !! p = Some v -> v ∈ NS) -> (size L <= length NS)%nat.
Proof.
  intros Hwf Hin. rewrite <- (length_map_to_list L), <- (length_fmap snd). apply submseteq_length, NoDup_submseteq.
  - apply NoDup_fmap_2_strong; [|apply NoDup_map_to_list]. intros [p [l x]] [q [k y]] Hp Hq [= <- <-].
    rewrite elem_of_map_to_list in Hp, Hq. by rewrite (label_unique m root L p q l x).
  - intros v Hv. apply list_elem_of_fmap in Hv as ([p w] & -> & Hp). rewrite elem_of_map_to_list in Hp. by eapply Hin.
Qed.

(** Pages are only moved from the free list to the tree. *)
Lemma grow_size s L fr s2 L2 fr2 root : vm_ok s root L fr -> grow s L fr s2 L2 fr2 -> (size L + length fr = size L2 + length fr2)%nat.
Proof.
  intros Hok [Hsub (taken & -> & Hdom) _]. rewrite length_app.
  destruct (fl_ok _ _ _ (vm_free _ _ _ _ Hok)) as [_ Hnd]. apply NoDup_app in Hnd as (Hnd & _ & _).
  assert (Hsz : size (dom L2) = size (dom L ∪ list_to_set taken)).
  { f_equal. apply set_eq. intros p. rewrite elem_of_union, !elem_of_dom, elem_of_list_to_set. apply Hdom. }
  rewrite size_union in Hsz.
  - rewrite !size_dom, size_list_to_set in Hsz by done. lia.
  - intros p. rewrite elem_of_dom, elem_of_list_to_set. intros [v Hv] Hp. rewrite (vm_sep _ _ _ _ Hok p) in Hv; [done|]. apply elem_of_app. by left.
Qed.
End Labels.

(** ** What is mapped *)

Definition RW : Z := Z.lor PTE_R PTE_W.
Definition RX : Z := Z.lor PTE_R PTE_X.

Section Map.
Context `{LinkerOk}.

(** Page [vpn] of the kernel's address space; [stacks] are the pages of the
    kernel stacks. *)
Definition kernel_map (stacks : list Z) (vpn : Z) : option (Z * Z) :=
  let va := vpn * PGSIZE in
  if decide (va = UART0) then Some (va, RW)
  else if decide (va = VIRTIO0) then Some (va, RW)
  else if decide (PLIC <= va < PLIC + 0x400000) then Some (va, RW)
  else if decide (KERNBASE <= va < etext) then Some (va, RX)
  else if decide (etext <= va < PHYSTOP) then Some (va, RW)
  else if decide (va = TRAMPOLINE) then Some (trampoline, RX)
  else let i := (TRAMPOLINE - va) / (2 * PGSIZE) - 1 in
       if decide (va = KSTACK i /\ 0 <= i) then (fun pa => (pa, RW)) <$> stacks !! Z.to_nat i else None.

(** The places of its page-table pages. *)
Definition kplaces : list (Z * Z) :=
  [(2, 0); (1, 0); (1, 2); (1, 255); (0, 128); (0, 96); (0, 97); (0, 131071)] ++ ((fun k => (0, 1024 + Z.of_nat k)) <$> seq 0 64).

(** The addresses that [kvmmake] maps are in these places. *)
Definition kaddr (a : Z) : Prop :=
  UART0 <= a < VIRTIO0 + PGSIZE \/ PLIC <= a < PLIC + 0x400000 \/ KERNBASE <= a < PHYSTOP \/ KSTACK (NPROC - 1) <= a < MAXVA.

Lemma kaddr_place a l : kaddr a -> 0 <= l <= 2 -> (l, prefix l a) ∈ kplaces.
Proof.
  intros Ha Hl. unfold kaddr, KSTACK, TRAMPOLINE, UART0, VIRTIO0, PLIC, PHYSTOP, KERNBASE, PGSIZE, NPROC in Ha. rewrite MAXVA_eq in Ha.
  assert (l = 0 \/ l = 1 \/ l = 2) as [-> | [-> | ->]] by lia; unfold prefix, kplaces; apply elem_of_app.
  - change (2 ^ (12 + 9 * (0 + 1))) with 2097152. pose proof (Z.div_mod a 2097152 ltac:(lia)). pose proof (Z.mod_pos_bound a 2097152 ltac:(lia)). set (x := a / 2097152) in *.
    destruct (decide (1024 <= x < 1088)) as [Hx|Hx].
    + right. apply list_elem_of_fmap. exists (Z.to_nat (x - 1024)). split; [rewrite Z2Nat.id by lia; f_equal; ring|]. apply elem_of_seq. lia.
    + left. assert (x = 128 \/ x = 96 \/ x = 97 \/ x = 131071) as [-> |[-> |[-> | ->]]] by lia; apply (bool_decide_unpack _); vm_compute; exact I.
  - left. change (2 ^ (12 + 9 * (1 + 1))) with 1073741824. pose proof (Z.div_mod a 1073741824 ltac:(lia)). pose proof (Z.mod_pos_bound a 1073741824 ltac:(lia)). set (x := a / 1073741824) in *.
    assert (x = 0 \/ x = 2 \/ x = 255) as [-> |[-> | ->]] by lia; apply (bool_decide_unpack _); vm_compute; exact I.
  - left. change (2 ^ (12 + 9 * (2 + 1))) with 549755813888. rewrite Z.div_small by lia. apply (bool_decide_unpack _); vm_compute; exact I.
Qed.
(** ** The construction *)

(** A table under construction: its pages and the stacks come from [n0] pages. *)
Record kbuild (s : kst) (root : Z) (L : labels) (fr : list Z) (A : aspace) (stk : list Z) (n0 : nat) : Prop := {
  kb_space : space_ok s root L fr A;
  kb_places p v : L !! p = Some v -> v ∈ kplaces;
  kb_own : own L fr stk;
  kb_stacks : (length stk <= 64)%nat;
  kb_pages : (size L + length stk + length fr = n0)%nat;
}.

Lemma map_range_at n v0 pa perm A v :
  map_range n v0 pa perm A !! v = if decide (v0 <= v < v0 + Z.of_nat n) then Some (pa + (v - v0) * PGSIZE, perm) else A !! v.
Proof.
  case_decide as Hv; [|by apply map_range_lookup_ne; lia].
  replace v with (v0 + Z.of_nat (Z.to_nat (v - v0))) at 1 by lia. rewrite map_range_lookup by lia. by rewrite Z2Nat.id by lia.
Qed.

Lemma kb_grow s root L fr A stk n0 s2 L2 fr2 A2 (P : Z -> Prop) : kbuild s root L fr A stk n0 -> space_ok s2 root L2 fr2 A2 ->
  grow s L fr s2 L2 fr2 -> labels_for P L L2 -> (forall a, P a -> kaddr a) -> kbuild s2 root L2 fr2 A2 stk n0.
Proof.
  intros [Hs Hp Ho Hk Hn] Hs2 Hg Hl HP. split; [done| | |done|].
  - intros p [l x] Hlx. destruct (Hl p l x Hlx) as [?|(a & Ha & ->)]; [by eapply Hp|]. apply kaddr_place; [auto|].
    by destruct (wf_page _ _ _ (vm_wf _ _ _ _ (sp_vm _ _ _ _ _ Hs2)) _ _ _ Hlx) as (_ & ? & _).
  - eapply own_evolves; [exact Ho| |by apply grow_evolves]. apply (fl_ok _ _ _ (vm_free _ _ _ _ (sp_vm _ _ _ _ _ Hs2))).
  - pose proof (grow_size _ _ _ _ _ _ _ (sp_vm _ _ _ _ _ Hs) Hg). lia.
Qed.

Lemma kvmmap_wp s root L fr A stk n0 va (n : nat) sz pa perm (Q : unit -> kst -> Prop) : kbuild s root L fr A stk n0 -> (137 <= n0)%nat ->
  sz = Z.of_nat n * PGSIZE -> (0 < n)%nat -> 0 <= va -> va mod PGSIZE = 0 -> va + sz <= MAXVA ->
  0 <= pa -> pa mod PGSIZE = 0 -> pa + sz < 2 ^ 64 -> 0 <= perm < 1024 ->
  (forall a, va <= a < va + sz -> kaddr a) -> (forall k : nat, (k < n)%nat -> A !! (va / PGSIZE + Z.of_nat k) = None) ->
  (forall s2 L2 fr2, kbuild s2 root L2 fr2 (map_range n (va / PGSIZE) pa perm A) stk n0 -> Q tt s2) -> wp (kvmmap root va pa sz perm) s Q.
Proof.
  intros Hb H137 -> Hn Hva Hal Hmax Hpa Hpal Hpmax Hperm Hk Hfree HQ. unfold kvmmap. wp_step. eapply wp_mono; [by eapply mappages_wp; [apply Hb|..]|].
  intros r s2 (L2 & fr2 & k & Hs2 & Hg & Hl & Hr). pose proof (kb_grow _ _ _ _ _ _ _ _ _ _ _ _ Hb Hs2 Hg Hl Hk) as Hb2.
  destruct Hr as [[-> ->]|(-> & _ & ->)]; [by apply wp_ret, (HQ s2 L2 fr2)|]. exfalso. destruct Hb2 as [_ Hp _ Hst Hpg].
  pose proof (labels_size _ _ _ kplaces (vm_wf _ _ _ _ (sp_vm _ _ _ _ _ Hs2)) Hp) as Hsz. change (length kplaces) with 72%nat in Hsz. simpl in Hpg. lia.
Qed.

(** The root page. *)
Lemma root_wp s fr (m : Z -> M kst Z) (Q : Z -> kst -> Prop) : free_rep s fr -> fr <> [] ->
  (forall root fr2 s2, fr = root :: fr2 -> kbuild s2 root {[root := (2, 0)]} fr2 ∅ [] (length fr) -> wp (m root) s2 Q) ->
  wp (root <- kalloc ;; modify (set_phys (fun mm => memset mm root 0 PGSIZE)) ;; m root)%K s Q.
Proof.
  intros Hfr Hne HQ. wp_step. apply (kalloc_wp s fr); [done|done|]. intros root fr2 s1 -> Hok Hfr1 Hout _. wp_step. wp_step.
  apply (HQ root fr2); [done|]. destruct (fl_ok _ _ _ Hfr) as [_ Hnd]. apply NoDup_cons in Hnd as [Hnin Hnd].
  destruct (fresh_page_loads (phys s) (phys s1) root Hok Hout) as (Hz & _ & Hout2).
  split; [split; [split| |]| | | |].
  - split.
    + by rewrite lookup_singleton_eq.
    + intros p l x Hp. apply lookup_singleton_Some in Hp as [<- [= <- <-]]. split; [done|]. split; [lia|done].
    + intros p l x i Hp _ Hi Hv. apply lookup_singleton_Some in Hp as [<- _]. cbn [phys set_phys] in Hv. rewrite Hz in Hv by done. done.
    + intros p l x Hp Hl. apply lookup_singleton_Some in Hp as [_ [= <- _]]. lia.
  - unfold free_rep. simpl. apply (fl_same_outside (phys s1) _ _ _ root); [done|done|apply same_outside_memset|done].
  - intros p Hp. apply lookup_singleton_None. by intros ->.
  - intros va Hva. rewrite lookup_empty. unfold pte_at. cbn [wlk phys set_phys]. rewrite Hz by (apply PX_range; lia). done.
  - intros vpn pa f Hl. by rewrite lookup_empty in Hl.
  - intros p v Hp. apply lookup_singleton_Some in Hp as [_ <-]. left.
  - split; [done|intros p Hp; by apply elem_of_nil in Hp|done].
  - simpl. lia.
  - rewrite map_size_singleton. done.
Qed.
(** ** The address space *)

Lemma etext_pages : exists e, etext = e * 4096 /\ 524289 <= e < 557056.
Proof.
  pose proof etext_aligned as Ha. pose proof trampoline_eq. pose proof kern_layout as [? ?]. unfold PHYSTOP, KERNBASE, PGSIZE in *.
  exists (etext / 4096). pose proof (Z.div_mod etext 4096 ltac:(lia)). lia.
Qed.

Definition text_pages : nat := Z.to_nat ((etext - KERNBASE) / PGSIZE).
Definition data_pages : nat := Z.to_nat ((PHYSTOP - etext) / PGSIZE).

Definition kernel_base : aspace :=
  map_range 1 (TRAMPOLINE / PGSIZE) trampoline RX (map_range data_pages (etext / PGSIZE) etext RW (map_range text_pages (KERNBASE / PGSIZE) KERNBASE RX
    (map_range 1024 (PLIC / PGSIZE) PLIC RW (map_range 1 (VIRTIO0 / PGSIZE) VIRTIO0 RW (map_range 1 (UART0 / PGSIZE) UART0 RW ∅))))).

Lemma page_counts e : etext = e * 4096 -> 524289 <= e < 557056 -> Z.of_nat text_pages = e - 524288 /\ Z.of_nat data_pages = 557056 - e /\ etext / PGSIZE = e.
Proof.
  intros He Hr. unfold text_pages, data_pages, PHYSTOP, KERNBASE, PGSIZE. rewrite He.
  replace (e * 4096 - 2147483648) with ((e - 524288) * 4096) by lia. replace (2147483648 + 128 * 1024 * 1024 - e * 4096) with ((557056 - e) * 4096) by lia.
  rewrite !Z.div_mul by lia. lia.
Qed.

Lemma kernel_base_at v : 0 <= v < MAXVA / PGSIZE -> kernel_base !! v = kernel_map [] v.
Proof.
  intros Hv. destruct etext_pages as (e & He & Hr). destruct (page_counts e He Hr) as (Et & Ed & Ee). unfold kernel_base. rewrite !map_range_at, Et, Ed, Ee, lookup_empty.
  unfold kernel_map. cbv zeta. rewrite He. change (MAXVA / PGSIZE) with 67108864 in Hv. change (TRAMPOLINE / PGSIZE) with 67108863. change (KERNBASE / PGSIZE) with 524288. change (PLIC / PGSIZE) with 49152.
  change (VIRTIO0 / PGSIZE) with 65537. change (UART0 / PGSIZE) with 65536. change TRAMPOLINE with 274877902848. unfold PHYSTOP, KERNBASE, PLIC, VIRTIO0, UART0, PGSIZE.
  repeat case_decide; try lia; try done; do 2 f_equal; lia.
Qed.

Lemma kernel_map_snoc stk q v : 0 <= v < MAXVA / PGSIZE -> (length stk < 64)%nat ->
  kernel_map (stk ++ [q]) v = if decide (v = KSTACK (Z.of_nat (length stk)) / PGSIZE) then Some (q, RW) else kernel_map stk v.
Proof.
  intros Hv Hl. destruct etext_pages as (e & He & Hr). unfold kernel_map, KSTACK. cbv zeta. rewrite He. change (MAXVA / PGSIZE) with 67108864 in Hv. change TRAMPOLINE with 274877902848.
  unfold PHYSTOP, KERNBASE, PLIC, VIRTIO0, UART0, PGSIZE. set (n := Z.of_nat (length stk)).
  assert (Hk : (274877902848 - (n + 1) * 2 * 4096) / 4096 = 67108863 - (n + 1) * 2).
  { replace (274877902848 - (n + 1) * 2 * 4096) with ((67108863 - (n + 1) * 2) * 4096) by lia. by rewrite Z.div_mul by lia. }
  rewrite Hk. assert (Hdm : (274877902848 - v * 4096) / (2 * 4096) = (67108863 - v) / 2).
  { replace (274877902848 - v * 4096) with ((67108863 - v) * 4096) by lia. by rewrite Z.div_mul_cancel_r by lia. }
  rewrite Hdm. set (i := (67108863 - v) / 2 - 1).
  repeat (case_decide; [case_decide; [lia|done]|]). pose proof (Z.div_mod (67108863 - v) 2 ltac:(lia)). pose proof (Z.mod_pos_bound (67108863 - v) 2 ltac:(lia)).
  assert (Hi : 2 * (i + 1) <= 67108863 - v <= 2 * (i + 1) + 1) by lia.
  case_decide as Hs.
  - destruct Hs as [Hs Hi0]. destruct (decide (i = n)) as [E|E].
    + rewrite decide_True by lia. rewrite E. unfold n. rewrite Nat2Z.id. by rewrite list_lookup_middle.
    + rewrite decide_False by lia. destruct (decide (i < n)); [by rewrite lookup_app_l by lia|].
      rewrite !lookup_ge_None_2 by (rewrite ?length_app; simpl; lia). done.
  - rewrite decide_False; [done|]. intros ->. apply Hs. lia.
Qed.
(** Stacks, and the page below each of them. *)
Lemma kernel_map_stack stk i : 0 <= i < 64 ->
  kernel_map stk (KSTACK i / PGSIZE) = (fun pa => (pa, RW)) <$> stk !! Z.to_nat i /\ kernel_map stk (KSTACK i / PGSIZE - 1) = None.
Proof.
  intros Hi. destruct etext_pages as (e & He & Hr).
  assert (Hk : KSTACK i / PGSIZE = 67108863 - (i + 1) * 2).
  { unfold KSTACK, PGSIZE. change TRAMPOLINE with 274877902848. replace (274877902848 - (i + 1) * 2 * 4096) with ((67108863 - (i + 1) * 2) * 4096) by lia. by rewrite Z.div_mul by lia. }
  rewrite Hk. unfold kernel_map, KSTACK. cbv zeta. rewrite He. change TRAMPOLINE with 274877902848. unfold PHYSTOP, KERNBASE, PLIC, VIRTIO0, UART0, PGSIZE. split.
  - replace (274877902848 - (67108863 - (i + 1) * 2) * 4096) with ((i + 1) * (2 * 4096)) by lia. rewrite Z.div_mul by lia. replace (i + 1 - 1) with i by lia.
    rewrite !(decide_False (P := _ = _)), !(decide_False (P := _ <= _ < _)), decide_True by lia. done.
  - set (j := _ / _). assert (j = i + 1) as ->.
    { unfold j. symmetry. apply (Z.div_unique_pos _ _ _ 4096); lia. }
    rewrite !(decide_False (P := _ = _)), !(decide_False (P := _ <= _ < _)), decide_False by lia. done.
Qed.

Definition kspace (A : aspace) (stk : list Z) : Prop := forall v, 0 <= v < MAXVA / PGSIZE -> A !! v = kernel_map stk v.

Lemma KSTACK_page i : 0 <= i < 64 -> 0 <= KSTACK i /\ KSTACK i mod PGSIZE = 0 /\ KSTACK i + PGSIZE <= MAXVA /\ 0 <= KSTACK i / PGSIZE < MAXVA / PGSIZE /\
  forall a, KSTACK i <= a < KSTACK i + PGSIZE -> kaddr a.
Proof.
  intros Hi. unfold KSTACK. change TRAMPOLINE with 274877902848. change (MAXVA / PGSIZE) with 67108864. rewrite MAXVA_eq. unfold PGSIZE.
  replace (274877902848 - (i + 1) * 2 * 4096) with ((67108863 - (i + 1) * 2) * 4096) by lia. rewrite Z.mod_mul, Z.div_mul by lia.
  split_and!; try lia. intros a Ha. unfold kaddr, KSTACK. change TRAMPOLINE with 274877902848. rewrite MAXVA_eq. unfold NPROC, PGSIZE. lia.
Qed.

Lemma mapstacks_wp (n : nat) s root L fr A stk n0 (Q : unit -> kst -> Prop) : kbuild s root L fr A stk n0 -> (137 <= n0)%nat -> kspace A stk ->
  (length stk + n = 64)%nat ->
  (forall s2 L2 fr2 A2 stk2, kbuild s2 root L2 fr2 A2 stk2 n0 -> kspace A2 stk2 -> length stk2 = 64%nat -> Q tt s2) ->
  wp (proc_mapstacks_loop (seq (length stk) n) root) s Q.
Proof.
  revert s L fr A stk. induction n as [|n IH]; intros s L fr A stk Hb H137 Hk Hn HQ; cbn [seq proc_mapstacks_loop].
  { apply wp_ret, (HQ s L fr A stk); [done|done|lia]. }
  wp_step. eapply wp_mono; [apply (space_kalloc s root L fr A), Hb|]. pose proof Hb as [Hs Hp Ho _ Hpg].
  intros q s1 [(-> & -> & ->)|(fr1 & -> & Hq & HLq & Hnq & Hs1 & _)].
  { exfalso. pose proof (labels_size _ _ _ kplaces (vm_wf _ _ _ _ (sp_vm _ _ _ _ _ Hs)) Hp) as Hsz. change (length kplaces) with 72%nat in Hsz. simpl in Hpg. lia. }
  destruct (Z.eqb_spec q 0) as [->|_]; [exfalso; by apply page_ok_nonzero in Hq|]. assert (Hb1 : kbuild s1 root L fr1 A (stk ++ [q]) n0).
  { split; [done|done|by apply own_take|rewrite length_app; simpl; lia|]. rewrite length_app. simpl in *. lia. }
  destruct (KSTACK_page (Z.of_nat (length stk)) ltac:(lia)) as (K1 & K2 & K3 & K4 & K5). destruct (kernel_map_stack stk (Z.of_nat (length stk)) ltac:(lia)) as [Km _].
  pose proof (page_ok_bounds q Hq) as Hqb. wp_step.
  eapply (kvmmap_wp s1 root L fr1 A (stk ++ [q]) n0 _ 1); [done|done|unfold PGSIZE; lia|lia|done|done|done|alia|by destruct Hq|alia|done|done| |].
  { intros k Hk1. assert (k = 0%nat) as -> by lia. rewrite Z.add_0_r, Hk by done. rewrite Km, Nat2Z.id, lookup_ge_None_2 by lia. done. }
  intros s2 L2 fr2 Hb2. replace (S (length stk)) with (length (stk ++ [q])) by (rewrite length_app; simpl; lia).
  eapply (IH s2 L2 fr2 _ (stk ++ [q])); [exact Hb2|done| |rewrite length_app; simpl; lia|done].
  intros v Hv. rewrite kernel_map_snoc by (done || lia). cbn [map_range]. rewrite lookup_insert. case_decide; case_decide; try done; try congruence. by apply Hk.
Qed.
(** The page numbers of the regions. *)
Ltac region_pages :=
  change (TRAMPOLINE / PGSIZE) with 67108863 in *; change (KERNBASE / PGSIZE) with 524288 in *; change (PLIC / PGSIZE) with 49152 in *;
  change (VIRTIO0 / PGSIZE) with 65537 in *; change (UART0 / PGSIZE) with 65536 in *.

Lemma kvmmake_wp s fr (Q : Z -> kst -> Prop) : free_rep s fr -> (137 <= length fr)%nat ->
  (forall root s2 L2 fr2 A2 stk2, kbuild s2 root L2 fr2 A2 stk2 (length fr) -> kspace A2 stk2 -> length stk2 = 64%nat -> Q root s2) -> wp kvmmake s Q.
Proof.
  intros Hfr H137 HQ. destruct etext_pages as (e & He & Hr). destruct (page_counts e He Hr) as (Et & Ed & Ee).
  pose proof trampoline_eq as Htr. rewrite He in Htr. unfold PGSIZE in Htr.
  assert (Hs1 : u64 (etext - KERNBASE) = Z.of_nat text_pages * PGSIZE) by (rewrite Et, He; unfold KERNBASE, PGSIZE; rewrite u64_small; lia).
  assert (Hs2 : u64 (PHYSTOP - etext) = Z.of_nat data_pages * PGSIZE) by (rewrite Ed, He; unfold PHYSTOP, KERNBASE, PGSIZE; rewrite u64_small; lia).
  assert (Haddr : forall va sz, (UART0 <= va /\ va + sz <= VIRTIO0 + PGSIZE) \/ (PLIC <= va /\ va + sz <= PLIC + 0x400000) \/ (KERNBASE <= va /\ va + sz <= PHYSTOP) \/
    (KSTACK (NPROC - 1) <= va /\ va + sz <= MAXVA) -> forall a, va <= a < va + sz -> kaddr a) by (intros va sz Hv a Ha; unfold kaddr; lia).
  unfold kvmmake. apply (root_wp s fr); [done|intros ->; simpl in H137; lia|]. intros root fr1 s1 Efr B1. rewrite Hs1, Hs2. fold RW RX.
  assert (Hfree : forall (A : aspace) v0 (n : nat), (forall v, v0 <= v < v0 + Z.of_nat n -> A !! v = None) -> forall k : nat, (k < n)%nat -> A !! (v0 + Z.of_nat k) = None).
  { intros A v0 n HA k Hk. apply HA. lia. }
  wp_step. eapply (kvmmap_wp _ _ _ _ _ _ _ _ 1); [exact B1|done|done|lia|done|done|done|done|done|done|done|apply Haddr; left; done|done|]. intros s2 L2 fr2 B2.
  wp_step. eapply (kvmmap_wp _ _ _ _ _ _ _ _ 1); [exact B2|done|done|lia|done|done|done|done|done|done|done|apply Haddr; left; done| |].
  { apply Hfree. intros v Hv. rewrite map_range_at, lookup_empty. region_pages. by rewrite decide_False by lia. }
  intros s3 L3 fr3 B3. wp_step. eapply (kvmmap_wp _ _ _ _ _ _ _ _ 1024); [exact B3|done|done|lia|done|done|done|done|done|done|done|apply Haddr; right; left; done| |].
  { apply Hfree. intros v Hv. rewrite !map_range_at, lookup_empty. region_pages. by rewrite !decide_False by lia. }
  intros s4 L4 fr4 B4. wp_step. eapply (kvmmap_wp _ _ _ _ _ _ _ _ text_pages); [exact B4|done|done|lia|done|done|rewrite MAXVA_eq, Et; unfold KERNBASE, PGSIZE; lia|done|done|rewrite Et; unfold KERNBASE, PGSIZE; lia|done| | |].
  { apply Haddr. right. right. left. rewrite Et. unfold PHYSTOP, KERNBASE, PGSIZE. lia. }
  { apply Hfree. intros v Hv. rewrite !map_range_at, lookup_empty. region_pages. by rewrite !decide_False by lia. }
  intros s5 L5 fr5 B5. wp_step. eapply (kvmmap_wp _ _ _ _ _ _ _ _ data_pages); [exact B5|done|done|lia|lia|rewrite He; by apply Z.mod_mul|rewrite MAXVA_eq, Ed, He; unfold PGSIZE; lia|lia|rewrite He; by apply Z.mod_mul|rewrite Ed, He; unfold PGSIZE; lia|done| | |].
  { apply Haddr. right. right. left. rewrite Ed, He. unfold PHYSTOP, KERNBASE, PGSIZE. lia. }
  { apply Hfree. intros v Hv. rewrite !map_range_at, lookup_empty, Et. rewrite Ee in Hv. region_pages. by rewrite !decide_False by lia. }
  intros s6 L6 fr6 B6. wp_step. eapply (kvmmap_wp _ _ _ _ _ _ _ _ 1); [exact B6|done|done|lia|done|done|done|lia|rewrite Htr; replace (e * 4096 - 4096) with ((e - 1) * 4096) by lia; by apply Z.mod_mul|unfold PGSIZE; lia|done| | |].
  { apply Haddr. right. right. right. done. }
  { apply Hfree. intros v Hv. rewrite !map_range_at, lookup_empty, Et, Ed, Ee. region_pages. by rewrite !decide_False by lia. }
  intros s7 L7 fr7 B7. fold kernel_base in B7. wp_step. apply (mapstacks_wp 64 s7 root L7 fr7 kernel_base [] (length fr)); [done|done|by intros v Hv; apply kernel_base_at|done|].
  intros s8 L8 fr8 A8 stk B8 K8 Hl. apply wp_ret. by eapply HQ.
Qed.
End Map.

(** ** Theorems *)

(** C7: The kernel's page table. With 137 free pages [kvmmake] does not run out of
    memory: it returns the root of a page table for exactly [kernel_map], the
    devices, the text, the rest of memory and the trampoline at their addresses,
    and a page of its own as stack for every process. No page is both writable
    and executable, none is open to user code, and the page below every stack is
    not mapped. The table takes at most 72 pages; all other pages stay free. *)
Theorem kvmmake_spec `{LinkerOk} s fr : free_rep s fr -> (137 <= length fr)%nat ->
  wp kvmmake s (fun root s' => exists L fr' A stk, space_ok s' root L fr' A /\
    (forall vpn, 0 <= vpn < MAXVA / PGSIZE -> A !! vpn = kernel_map stk vpn) /\
    (forall vpn pa f, A !! vpn = Some (pa, f) -> is_set f PTE_W && is_set f PTE_X = false /\ is_set f PTE_U = false) /\
    (forall i, 0 <= i < NPROC -> A !! (KSTACK i / PGSIZE - 1) = None) /\
    length stk = Z.to_nat NPROC /\ own L fr' stk /\ (size L <= 72)%nat /\ (size L + length stk + length fr' = length fr)%nat).
Proof.
  intros Hfr H137. eapply kvmmake_wp; [done|done|]. intros root s2 L2 fr2 A2 stk Hb Hk Hl. exists L2, fr2, A2, stk. destruct Hb as [Hs Hp Ho _ Hpg]. split; [done|]. split; [done|].
  split; [|split].
  - intros vpn pa f Hv. assert (Hr : 0 <= vpn < MAXVA / PGSIZE) by (by destruct (sp_wf _ _ _ _ _ Hs _ _ _ Hv)). rewrite Hk in Hv by done.
    revert Hv. unfold kernel_map. cbv zeta. repeat case_decide; try (intros [= <- <-]; done). destruct (stk !! _); [|done]. by intros [= <- <-].
  - intros i Hi. unfold NPROC in Hi. destruct (KSTACK_page i Hi) as (_ & _ & _ & Hr & _). rewrite Hk; [by apply kernel_map_stack|].
    unfold KSTACK, NPROC in *. change TRAMPOLINE with 274877902848 in *. change (MAXVA / PGSIZE) with 67108864 in *. unfold PGSIZE in *.
    replace (274877902848 - (i + 1) * 2 * 4096) with ((67108863 - (i + 1) * 2) * 4096) by lia. rewrite Z.div_mul by lia. lia.
  - split; [done|]. split; [done|]. split; [|done]. by apply (labels_size _ _ _ kplaces (vm_wf _ _ _ _ (sp_vm _ _ _ _ _ Hs)) Hp).
Qed.

(** [kvminit] and [kvminithart] put this table into use: [satp] selects the
    three-level scheme with the root page of the table. *)
Lemma kvminit_hart `{LinkerOk} s fr : free_rep (kv_mem s) fr -> (137 <= length fr)%nat ->
  wp (kvminit ;; kvminithart)%K s (fun _ s' => exists L fr' A stk, space_ok (kv_mem s') (kernel_pagetable s') L fr' A /\ kspace A stk /\
    kv_satp s' = MAKE_SATP (kernel_pagetable s')).
Proof.
  intros Hfr H137. apply wp_bind. pose proof (kvmmake_wp (kv_mem s) fr (fun root s' => exists L fr' A stk, space_ok s' root L fr' A /\ kspace A stk) Hfr H137) as Hw.
  apply wp_ok in Hw as (root & s2 & E & L & fr2 & A & stk & Hs & Hk).
  - unfold wp at 1, kvminit. rewrite E. unfold kvminithart. wp_step. by exists L, fr2, A, stk.
  - intros root s2 L fr2 A stk Hb Hk _. exists L, fr2, A, stk. split; [apply Hb|done].
Qed.

(** Free pages linked up, everything else zero. *)
Fixpoint link_pages (l : list Z) : mem :=
  match l with [] => ∅ | p :: l => store64 (link_pages l) p (default 0 (head l)) end.

Lemma link_pages_fl `{LinkerOk} l : Forall page_ok l -> NoDup l -> fl (link_pages l) (default 0 (head l)) l.
Proof.
  induction l as [|p l IH]; intros Hok Hnd; [done|]. apply Forall_cons in Hok as [Hp Hok]. apply NoDup_cons in Hnd as [Hn Hnd].
  cbn [link_pages fl head default]. split; [done|]. split; [done|]. split; [done|]. rewrite load64_store64_eq.
  - apply (fl_same_outside (link_pages l) _ _ _ p); [done|done| |by apply IH]. apply page_ok_bounds in Hp. apply same_outside_store64; alia.
  - destruct l as [|q l]; simpl; [lia|]. apply Forall_cons in Hok as [Hq _]. apply page_ok_bounds in Hq. alia.
Qed.

Definition ex_pages : list Z := (fun k => 0x80030000 + Z.of_nat k * 4096) <$> seq 0 137.
Definition ex_kvm : kst := KSt (link_pages ex_pages) 0x80030000.

Lemma ex_kvm_free : free_rep ex_kvm ex_pages.
Proof.
  apply (link_pages_fl ex_pages); [|apply NoDup_fmap_2; [intros i j E; lia|apply NoDup_seq]].
  apply Forall_fmap, Forall_seq. intros k Hk. split; [|simpl; alia].
  replace (0x80030000 + Z.of_nat k * 4096) with ((524336 + Z.of_nat k) * 4096) by lia. by apply Z.mod_mul.
Qed.

Lemma kvmmake_spec_witness : exists root s' L fr' A, kvmmake ex_kvm = Ok root s' /\ space_ok s' root L fr' A /\
  A !! (KERNBASE / PGSIZE) = Some (KERNBASE, RX) /\ A !! (KSTACK 5 / PGSIZE - 1) = None.
Proof.
  destruct (proj1 (wp_ok _ _ _) (kvmmake_spec ex_kvm ex_pages ex_kvm_free ltac:(vm_compute; lia))) as (root & s' & E & L & fr' & A & stk & Hs & Hk & _ & Hg & _).
  exists root, s', L, fr', A. split; [exact E|]. split; [exact Hs|]. split; [|exact (Hg 5 ltac:(unfold NPROC; lia))].
  rewrite (Hk (KERNBASE / PGSIZE) ltac:(vm_compute; split; congruence)). vm_compute. reflexivity.
Defined.
