(* ===== verification/Hart.v ===== *)
(** * The hart: start-up, traps and the context switch

    The registers of a hart, the instructions that the kernel's assembly uses,
    and with them [start] and [timerinit] of [kernel/start.c], [swtch] of
    [kernel/swtch.S], [uservec] and [userret] of [kernel/trampoline.S],
    [kernelvec] and [timervec] of [kernel/kernelvec.S] and the entry of
    [kernel/entry.S].  Traps and the returns from them are those of the
    privileged architecture.  The translation of addresses by the page table in
    [satp] is a parameter; fences have no effect on it.

    Theorems: a context switch away and back, a trap from user space and the
    return, and a trap in the kernel restore every register; and what [start]
    sets up makes each timer interrupt invisible but for the next deadline and
    a pending software interrupt. *)

From S2P Require Import Prelude Riscv Mem.

(** ** Registers *)

Inductive reg :=
  | ra | sp | gp | tp | t0 | t1 | t2 | t3 | t4 | t5 | t6
  | s0 | s1 | s2 | s3 | s4 | s5 | s6 | s7 | s8 | s9 | s10 | s11
  | a0 | a1 | a2 | a3 | a4 | a5 | a6 | a7.

#[export] Instance reg_eq_dec : EqDecision reg.
Proof. solve_decision. Defined.

(** Control and status registers, those of [kernel/riscv.h] that are used here.
    [sie] and [sip] are the parts of [mie] and [mip] that [mideleg] delegates. *)
Inductive csr :=
  | mhartid | mstatus | mepc | mtvec | mcause | mscratch | mie | mip | medeleg | mideleg | pmpcfg0 | pmpaddr0
  | sie | sip | sepc | satp | sscratch.

#[export] Instance csr_eq_dec : EqDecision csr.
Proof. solve_decision. Defined.

(** Privilege modes. *)
Inductive priv := PrvU | PrvS | PrvM.

Definition upd {K} `{EqDecision K} (f : K -> Z) (k : K) (v : Z) : K -> Z := fun k' => if decide (k' = k) then v else f k'.

(** Registers, program counter, mode, and memory with the registers of the
    CLINT in it. *)
Record hart := Hart { xr : reg -> Z; cr : csr -> Z; pc : Z; mode : priv; pm : mem }.
Definition set_xr (f : (reg -> Z) -> reg -> Z) (h : hart) : hart := Hart (f (xr h)) (cr h) (pc h) (mode h) (pm h).
Definition set_cr (f : (csr -> Z) -> csr -> Z) (h : hart) : hart := Hart (xr h) (f (cr h)) (pc h) (mode h) (pm h).
Definition set_pm (f : mem -> mem) (h : hart) : hart := Hart (xr h) (cr h) (pc h) (mode h) (f (pm h)).
Definition jump (a : Z) (h : hart) : hart := Hart (xr h) (cr h) a (mode h) (pm h).
Definition enter (p : priv) (h : hart) : hart := Hart (xr h) (cr h) (pc h) p (pm h).

(** *** riscv.h *)

Definition MSTATUS_MPP_MASK : Z := Z.shiftl 3 11.
Definition MSTATUS_MPP_S : Z := Z.shiftl 1 11.
Definition MSTATUS_MIE : Z := Z.shiftl 1 3.
Definition SIE_SEIE : Z := Z.shiftl 1 9.
Definition SIE_STIE : Z := Z.shiftl 1 5.
Definition SIE_SSIE : Z := Z.shiftl 1 1.
Definition MIE_MTIE : Z := Z.shiftl 1 7.

(** *** memlayout.h *)

Definition CLINT_MTIMECMP (hartid : Z) : Z := CLINT + 0x4000 + 8 * hartid.
Definition CLINT_MTIME : Z := CLINT + 0xBFF8.

Section Hart.
(** The translation that the value of [satp] stands for, and the interrupts
    that can be delegated to supervisor mode. *)
Variables (tr : Z -> Z -> option Z) (delegable : Z).
Local Open Scope kernel_scope.

(** csrr and csrw. *)
Definition r_csr (c : csr) (h : hart) : Z :=
  match c with
  | sie => Z.land (cr h mie) (cr h mideleg)
  | sip => Z.land (cr h mip) (cr h mideleg)
  | c => cr h c
  end.
Definition w_csr (c : csr) (v : Z) (h : hart) : hart :=
  match c with
  | sie => set_cr (fun f => upd f mie (Z.lor (Z.ldiff (f mie) (f mideleg)) (Z.land v (f mideleg)))) h
  | sip =>   (* only the software interrupt can be written *)
      set_cr (fun f => let w := Z.land 2 (f mideleg) in upd f mip (Z.lor (Z.ldiff (f mip) w) (Z.land v w))) h
  | mideleg => set_cr (fun f => upd f mideleg (Z.land v delegable)) h
  | c => set_cr (fun f => upd f c v) h
  end.

(** ** Instructions *)

Inductive instr :=
  | SD (r : reg) (off : Z) (base : reg)
  | LD (r : reg) (off : Z) (base : reg)
  | ADDI (r r1 : reg) (imm : Z)
  | LI (r : reg) (imm : Z)            (** also la *)
  | ADD (r r1 r2 : reg)
  | MUL (r r1 r2 : reg)
  | CSRR (r : reg) (c : csr)
  | CSRW (c : csr) (r : reg)
  | CSRRW (r : reg) (c : csr) (r1 : reg)
  | SFENCE.

Definition pa_of (h : hart) (va : Z) : option Z :=
  match mode h with PrvM => Some va | _ => tr (cr h satp) va end.
Definition address (base : reg) (off : Z) : M hart Z :=
  fun h => match pa_of h (u64 (xr h base + off)) with Some a => Ok a h | None => Fail (EUB "page fault") end.
Definition setx (r : reg) (v : Z) : M hart unit := modify (set_xr (fun f => upd f r v)).
Definition getx (r : reg) : M hart Z := gets (fun h => xr h r).

Definition exec1 (i : instr) : M hart unit :=
  match i with
  | SD r off base => a <- address base off ;; v <- getx r ;; modify (set_pm (fun m => store64 m a v))
  | LD r off base => a <- address base off ;; v <- gets (fun h => load64 (pm h) a) ;; setx r v
  | ADDI r r1 imm => v <- getx r1 ;; setx r (u64 (v + imm))
  | LI r imm => setx r (u64 imm)
  | ADD r r1 r2 => v <- getx r1 ;; w <- getx r2 ;; setx r (u64 (v + w))
  | MUL r r1 r2 => v <- getx r1 ;; w <- getx r2 ;; setx r (u64 (v * w))
  | CSRR r c => v <- gets (r_csr c) ;; setx r v
  | CSRW c r => v <- getx r ;; modify (w_csr c v)
  | CSRRW r c r1 => v <- gets (r_csr c) ;; w <- getx r1 ;; modify (w_csr c w) ;; setx r v
  | SFENCE => ret tt
  end.

Fixpoint run (p : list instr) : M hart unit :=
  match p with [] => ret tt | i :: p => exec1 i ;; run p end.

(** A register is saved, or loaded, for each entry of a list, in its order. *)
Definition saves (base : reg) (l : list (reg * Z)) : list instr := (fun e => SD e.1 e.2 base) <$> l.
Definition loads (base : reg) (l : list (reg * Z)) : list instr := (fun e => LD e.1 e.2 base) <$> l.

(** *** Traps and returns *)

Definition bit (i : Z) (x : Z) : bool := Z.testbit x i.
Definition put_bit (i : Z) (b : bool) (x : Z) : Z := if b then Z.setbit x i else Z.clearbit x i.
Definition priv_code (p : priv) : Z := match p with PrvU => 0 | PrvS => 1 | PrvM => 3 end.
Definition code_priv (c : Z) : priv := if c =? 0 then PrvU else if c =? 1 then PrvS else PrvM.

(** Fields of [mstatus]: MIE is bit 3, MPIE bit 7, MPP bits 11 and 12; SIE is
    bit 1, SPIE bit 5 and SPP bit 8, which [sstatus] shows. *)
Definition put_mpp (p : priv) (x : Z) : Z := Z.lor (Z.ldiff x MSTATUS_MPP_MASK) (Z.shiftl (priv_code p) 11).
Definition mpp (x : Z) : priv := code_priv (Z.land (Z.shiftr x 11) 3).

(** A trap to machine mode. *)
Definition mtrap (cause : Z) (h : hart) : hart :=
  let x := cr h mstatus in
  let x := put_mpp (mode h) (put_bit 3 false (put_bit 7 (bit 3 x) x)) in
  enter PrvM (jump (cr h mtvec) (set_cr (fun f => upd (upd (upd f mstatus x) mepc (pc h)) mcause cause) h)).
Definition mret (h : hart) : hart :=
  let x := cr h mstatus in
  enter (mpp x) (jump (cr h mepc) (w_csr mstatus (put_mpp PrvU (put_bit 7 true (put_bit 3 (bit 7 x) x))) h)).
Definition sret (h : hart) : hart :=
  let x := cr h mstatus in
  enter (if bit 8 x then PrvS else PrvU) (jump (cr h sepc) (w_csr mstatus (put_bit 8 false (put_bit 5 true (put_bit 1 (bit 5 x) x))) h)).

(** Interrupt [i] is taken in machine mode: pending, enabled, not delegated;
    in machine mode itself MIE has to be set. *)
Definition m_interrupt (i : Z) (h : hart) : bool :=
  bit i (cr h mip) && bit i (cr h mie) && negb (bit i (cr h mideleg)) &&
  match mode h with PrvM => bit 3 (cr h mstatus) | _ => true end.

(** ** kernel/swtch.S *)

(** The registers of [struct context] with their offsets. *)
Definition context_regs : list (reg * Z) :=
  [(ra, 0); (sp, 8); (s0, 16); (s1, 24); (s2, 32); (s3, 40); (s4, 48); (s5, 56); (s6, 64); (s7, 72); (s8, 80); (s9, 88); (s10, 96); (s11, 104)].

Definition swtch : M hart unit :=
  run (saves a0 context_regs ++ loads a1 context_regs) ;;
  modify (fun h => jump (xr h ra) h).

(** ** kernel/trampoline.S *)

(** The user registers of [struct trapframe] but [a0], with their offsets. *)
Definition trap_regs : list (reg * Z) :=
  [(ra, 40); (sp, 48); (gp, 56); (tp, 64); (t0, 72); (t1, 80); (t2, 88); (s0, 96); (s1, 104);
   (a1, 120); (a2, 128); (a3, 136); (a4, 144); (a5, 152); (a6, 160); (a7, 168);
   (s2, 176); (s3, 184); (s4, 192); (s5, 200); (s6, 208); (s7, 216); (s8, 224); (s9, 232); (s10, 240); (s11, 248);
   (t3, 256); (t4, 264); (t5, 272); (t6, 280)].

Definition uservec : M hart unit :=
  run ([CSRW sscratch a0; LI a0 TRAPFRAME] ++ saves a0 trap_regs ++
       [CSRR t0 sscratch; SD t0 112 a0;
        LD sp 8 a0; LD tp 32 a0; LD t0 16 a0; LD t1 0 a0;
        SFENCE; CSRW satp t1; SFENCE]) ;;
  modify (fun h => jump (xr h t0) h).

Definition userret : M hart unit :=
  run ([SFENCE; CSRW satp a0; SFENCE; LI a0 TRAPFRAME] ++ loads a0 trap_regs ++ [LD a0 112 a0]) ;;
  modify sret.

(** ** kernel/kernelvec.S *)

Definition frame_regs : list (reg * Z) :=
  [(ra, 0); (sp, 8); (gp, 16); (tp, 24); (t0, 32); (t1, 40); (t2, 48); (s0, 56); (s1, 64);
   (a0, 72); (a1, 80); (a2, 88); (a3, 96); (a4, 104); (a5, 112); (a6, 120); (a7, 128);
   (s2, 136); (s3, 144); (s4, 152); (s5, 160); (s6, 168); (s7, 176); (s8, 184); (s9, 192); (s10, 200); (s11, 208);
   (t3, 216); (t4, 224); (t5, 232); (t6, 240)].
(** not tp, which has the hart's id, in case the kernel thread moved to another hart *)
Definition restored_regs : list (reg * Z) := filter (fun e => e.1 <> tp) frame_regs.

(** Up to the call of the C function, and from its return. *)
Definition kernelvec_enter : M hart unit := run (ADDI sp sp (-256) :: saves sp frame_regs).
Definition kernelvec_leave : M hart unit :=
  run (loads sp restored_regs ++ [ADDI sp sp 256]) ;;
  modify sret.

Definition timervec : M hart unit :=
  run [CSRRW a0 mscratch a0; SD a1 0 a0; SD a2 8 a0; SD a3 16 a0;
       LD a1 24 a0; LD a2 32 a0; LD a3 0 a1; ADD a3 a3 a2; SD a3 0 a1;
       LI a1 2; CSRW sip a1;
       LD a3 16 a0; LD a2 8 a0; LD a1 0 a0; CSRRW a0 mscratch a0] ;;
  modify mret.

(** ** kernel/entry.S and kernel/start.c *)

(** Addresses that the linker chooses. *)
Variables (stack0 timer_scratch timervec_addr main_addr : Z).

(** Up to the call of [start]. *)
Definition entry : M hart unit :=
  run [LI sp stack0; LI a0 (1024 * 4); CSRR a1 mhartid; ADDI a1 a1 1; MUL a0 a0 a1; ADD sp sp a0].

Definition timerinit : M hart unit :=
  id <- gets (fun h => i32 (r_csr mhartid h)) ;;
  let interval := 1000000 in
  modify (set_pm (fun m => store64 m (CLINT_MTIMECMP id) (u64 (load64 m CLINT_MTIME + interval)))) ;;
  let scratch := timer_scratch + 40 * id in
  modify (set_pm (fun m => store64 m (scratch + 24) (CLINT_MTIMECMP id))) ;;
  modify (set_pm (fun m => store64 m (scratch + 32) interval)) ;;
  modify (w_csr mscratch scratch) ;;
  modify (w_csr mtvec timervec_addr) ;;
  modify (fun h => w_csr mstatus (Z.lor (r_csr mstatus h) MSTATUS_MIE) h) ;;
  modify (fun h => w_csr mie (Z.lor (r_csr mie h) MIE_MTIE) h).

Definition start : M hart unit :=
  x <- gets (r_csr mstatus) ;;
  let x := Z.ldiff x MSTATUS_MPP_MASK in
  let x := Z.lor x MSTATUS_MPP_S in
  modify (w_csr mstatus x) ;;
  modify (w_csr mepc main_addr) ;;
  modify (w_csr satp 0) ;;
  modify (w_csr medeleg 0xffff) ;;
  modify (w_csr mideleg 0xffff) ;;
  modify (fun h => w_csr sie (Z.lor (Z.lor (Z.lor (r_csr sie h) SIE_SEIE) SIE_STIE) SIE_SSIE) h) ;;
  modify (w_csr pmpaddr0 0x3fffffffffffff) ;;
  modify (w_csr pmpcfg0 0xf) ;;
  timerinit ;;
  id <- gets (fun h => i32 (r_csr mhartid h)) ;;
  setx tp (u64 id) ;;
  modify mret.
End Hart.

(** ** Saving and loading registers *)

Lemma reg_upd_eq {K} `{EqDecision K} (f : K -> Z) k v : upd f k v k = v.
Proof. unfold upd. by rewrite decide_True. Qed.
Lemma reg_upd_ne {K} `{EqDecision K} (f : K -> Z) k v k' : k' <> k -> upd f k v k' = f k'.
Proof. intros. unfold upd. by rewrite decide_False. Qed.

(** Fields of 8 bytes that do not overlap, for distinct registers. *)
Definition layout_ok (l : list (reg * Z)) : Prop :=
  NoDup l.*1 /\ NoDup l.*2 /\ Forall (fun e => 0 <= e.2 < 4096 /\ e.2 mod 8 = 0) l.
#[export] Instance layout_ok_dec l : Decision (layout_ok l).
Proof. unfold layout_ok. apply _. Defined.

(** Memory with the registers [x] stored, and the registers with the fields
    loaded. *)
Definition stored (x : reg -> Z) (l : list (reg * Z)) (p : Z) (m : mem) : mem := foldl (fun m e => store64 m (p + e.2) (x e.1)) m l.
Definition loaded (m : mem) (l : list (reg * Z)) (p : Z) (x : reg -> Z) : reg -> Z := foldl (fun x e => upd x e.1 (load64 m (p + e.2))) x l.

Definition words (h : hart) : Prop := forall r, 0 <= xr h r < 2 ^ 64.

Lemma stored_outside x l p m a : (forall e, e ∈ l -> ~ p + e.2 <= a < p + e.2 + 8) -> rd (stored x l p m) a = rd m a.
Proof.
  revert m. induction l as [|e l IH]; intros m Ha; [done|]. cbn [stored foldl]. fold (stored x l p (store64 m (p + e.2) (x e.1))).
  rewrite IH by (intros e' He'; apply Ha; by right). apply rd_store64_ne, Ha. left.
Qed.

Lemma stored_field x l p m r o : layout_ok l -> (forall r, 0 <= x r < 2 ^ 64) -> (r, o) ∈ l -> load64 (stored x l p m) (p + o) = x r.
Proof.
  intros (_ & Hn & Hf) Hx. revert m. induction l as [|[r' o'] l IH]; intros m Hin; [by apply elem_of_nil in Hin|].
  apply Forall_cons in Hf as [[Hr Hm] Hf]. simpl in Hn, Hr, Hm. apply NoDup_cons in Hn as [Hno Hn]. cbn [stored foldl fst snd].
  fold (stored x l p (store64 m (p + o') (x r'))). apply elem_of_cons in Hin as [[= -> ->]|Hin]; [|by apply IH].
  rewrite (load64_ext _ (store64 m (p + o') (x r'))); [by apply load64_store64_eq|]. intros a Ha. apply stored_outside. intros [r1 o1] He. cbn [snd].
  assert (o1 <> o') by (intros ->; apply Hno; by apply (list_elem_of_fmap_2 snd) in He). rewrite Forall_forall in Hf. destruct (Hf _ He) as [_ Hm1]. simpl in Hm1.
  zdm.
Qed.

Lemma loaded_out m l p x r : r ∉ l.*1 -> loaded m l p x r = x r.
Proof.
  revert x. induction l as [|[r' o'] l IH]; intros x Hno; [done|]. cbn [loaded foldl fst snd]. fold (loaded m l p (upd x r' (load64 m (p + o')))).
  simpl in Hno. apply not_elem_of_cons in Hno as [Hne Hno]. rewrite IH by done. by apply reg_upd_ne.
Qed.

Lemma loaded_field m l p x r o : NoDup l.*1 -> (r, o) ∈ l -> loaded m l p x r = load64 m (p + o).
Proof.
  revert x. induction l as [|[r' o'] l IH]; intros x Hn Hin; [by apply elem_of_nil in Hin|]. cbn [loaded foldl fst snd]. fold (loaded m l p (upd x r' (load64 m (p + o')))).
  simpl in Hn. apply NoDup_cons in Hn as [Hno Hn]. apply elem_of_cons in Hin as [[= -> ->]|Hin]; [|by apply IH].
  rewrite loaded_out by done. apply reg_upd_eq.
Qed.

(** Registers of an explicit state. *)
Ltac hsimpl :=
  unfold getx, setx, gets, modify;
  cbn [jump enter set_xr set_cr set_pm xr cr pc mode pm w_csr r_csr mret sret];
  rewrite ?reg_upd_eq; repeat (rewrite reg_upd_ne by done; rewrite ?reg_upd_eq).

Section Proofs.
Variables (tr : Z -> Z -> option Z) (delegable : Z).
Abbreviation runs := (run tr delegable).
Abbreviation phys_of := (pa_of tr).

(** The fields at the address in [base] are those at the physical address [p]. *)
Definition area (h : hart) (base : reg) (l : list (reg * Z)) (p : Z) : Prop :=
  forall e, e ∈ l -> phys_of h (u64 (xr h base + e.2)) = Some (p + e.2).

Lemma run_app p q h : runs (p ++ q) h = match runs p h with Ok _ h' => runs q h' | Fail e => Fail e end.
Proof.
  revert h. induction p as [|i p IH]; intros h; [done|]. cbn [app run]. unfold bind. destruct (exec1 tr delegable i h); [apply IH|done].
Qed.

Lemma run_saves base l p h : area h base l p -> runs (saves base l) h = Ok tt (set_pm (stored (xr h) l p) h).
Proof.
  revert h. induction l as [|e l IH]; intros h Ha; [by destruct h|]. change (saves base (e :: l)) with (SD e.1 e.2 base :: saves base l).
  cbn [run exec1]. unfold bind, address. rewrite (Ha e) by left. cbn [getx gets modify].
  unfold gets, modify. rewrite IH; [done|]. intros e' He'. apply Ha. by right.
Qed.

Lemma run_loads base l p h : area h base l p -> (forall o, (base, o) ∈ l -> load64 (pm h) (p + o) = xr h base) ->
  runs (loads base l) h = Ok tt (set_xr (loaded (pm h) l p) h).
Proof.
  revert h. induction l as [|[r o] l IH]; intros h Ha Hb; [by destruct h|]. change (loads base ((r, o) :: l)) with (LD r o base :: loads base l).
  cbn [run exec1]. unfold bind, address. pose proof (Ha (r, o) ltac:(left)) as Hp. simpl in Hp. rewrite Hp. unfold gets, setx, modify.
  assert (Hx : upd (xr h) r (load64 (pm h) (p + o)) base = xr h base).
  { destruct (decide (base = r)) as [->|Hne]; [|by apply reg_upd_ne]. rewrite reg_upd_eq. apply Hb. left. }
  rewrite IH; [done| |].
  - intros e He. cbn [set_xr xr]. rewrite Hx. apply (Ha e). by right.
  - intros o' Ho'. cbn [set_xr xr pm]. rewrite Hx. apply Hb. by right.
Qed.

(** Single instructions. *)
Lemma run_SD r o base a p h : phys_of h (u64 (xr h base + o)) = Some a ->
  runs (SD r o base :: p) h = runs p (set_pm (fun m => store64 m a (xr h r)) h).
Proof. intros E. cbn [run exec1]. unfold bind, address. by rewrite E. Qed.

Lemma run_LD r o base a p h : phys_of h (u64 (xr h base + o)) = Some a ->
  runs (LD r o base :: p) h = runs p (set_xr (fun f => upd f r (load64 (pm h) a)) h).
Proof. intros E. cbn [run exec1]. unfold bind, address. by rewrite E. Qed.

(** ** The context switch *)

Lemma context_layout : layout_ok context_regs.
Proof. apply (bool_decide_unpack (layout_ok context_regs)). vm_compute. exact I. Qed.

Lemma context_extent e : e ∈ context_regs -> 0 <= e.2 <= 104.
Proof.
  revert e. apply Forall_forall. apply (bool_decide_unpack (Forall _ _)). vm_compute. exact I.
Qed.

Lemma swtch_run h old new : area h a0 context_regs old -> area h a1 context_regs new ->
  exists h', swtch tr delegable h = Ok tt h' /\ pm h' = stored (xr h) context_regs old (pm h) /\
    (forall r o, (r, o) ∈ context_regs -> xr h' r = load64 (pm h') (new + o)) /\
    (forall r, r ∉ context_regs.*1 -> xr h' r = xr h r) /\ pc h' = xr h' ra /\ cr h' = cr h /\ mode h' = mode h.
Proof.
  intros Ho Hn. unfold swtch, bind. rewrite run_app, (run_saves a0 _ old) by done. rewrite (run_loads a1 _ new); [|done|].
  - eexists. split; [reflexivity|]. cbn. split; [done|]. split; [|split; [|done]].
    + intros r o Hin. apply (loaded_field _ context_regs); [apply context_layout|done].
    + intros r Hr. by apply (loaded_out _ context_regs).
  - intros o Hin. exfalso. apply (list_elem_of_fmap_2 fst) in Hin. revert Hin. apply (bool_decide_unpack (a1 ∉ context_regs.*1)). vm_compute. exact I.
Qed.
End Proofs.

(** C13: the context switch. A thread that switches away with its registers
    saved in the context [old] is resumed by a later switch to [old], on this
    hart or another, if nothing wrote to that context meanwhile: the call of
    [swtch] returns to its caller with the stack pointer and every
    callee-saved register as they were. The switch itself goes to the return
    address in the context [new]. *)
Theorem swtch_roundtrip tr delegable h old new :
  words h -> area tr h a0 context_regs old -> area tr h a1 context_regs new -> old + 112 <= new \/ new + 112 <= old ->
  exists h1, swtch tr delegable h = Ok tt h1 /\
    (forall r o, (r, o) ∈ context_regs -> xr h1 r = load64 (pm h) (new + o)) /\ pc h1 = load64 (pm h) new /\
    forall h2 other, area tr h2 a0 context_regs other -> area tr h2 a1 context_regs old -> old + 112 <= other \/ other + 112 <= old ->
      (forall a, old <= a < old + 112 -> rd (pm h2) a = rd (pm h1) a) ->
      exists h3, swtch tr delegable h2 = Ok tt h3 /\ (forall r, r ∈ context_regs.*1 -> xr h3 r = xr h r) /\ pc h3 = xr h ra.
Proof.
  intros Hw Ho Hn Hd. destruct (swtch_run tr delegable h old new Ho Hn) as (h1 & E1 & M1 & X1 & _ & P1 & _). exists h1. split; [done|].
  assert (Hnew : forall r o, (r, o) ∈ context_regs -> xr h1 r = load64 (pm h) (new + o)).
  { intros r o Hin. rewrite (X1 r o Hin), M1. apply load64_ext. intros a Ha. apply context_extent in Hin as Ho1. simpl in Ho1. apply stored_outside.
    intros e He%context_extent. lia. }
  split; [done|]. split. { rewrite P1, <- (Z.add_0_r new). apply Hnew. left. }
  intros h2 other Ho2 Hn2 Hd2 Hsame. destruct (swtch_run tr delegable h2 other old Ho2 Hn2) as (h3 & E3 & M3 & X3 & _ & P3 & _). exists h3. split; [done|].
  assert (Hall : forall r, r ∈ context_regs.*1 -> xr h3 r = xr h r).
  { intros r ([r' o] & -> & Hin)%list_elem_of_fmap. simpl. rewrite (X3 r' o Hin), M3. apply context_extent in Hin as Ho1. simpl in Ho1.
    rewrite <- (stored_field (xr h) context_regs old (pm h) r' o) by (done || apply context_layout). rewrite <- M1. apply load64_ext. intros a Ha.
    rewrite stored_outside by (intros e He%context_extent; lia). apply Hsame. lia. }
  split; [done|]. rewrite P3. apply Hall. left.
Qed.

(** ** Traps from user space *)

Section User.
Variables (tr : Z -> Z -> option Z) (delegable : Z).

(** The page table [s] maps the page TRAPFRAME to [tf]. *)
Definition maps_trapframe (s tf : Z) : Prop := forall o, 0 <= o < 288 -> tr s (TRAPFRAME + o) = Some (tf + o).

Lemma trap_layout : layout_ok trap_regs.
Proof. apply (bool_decide_unpack (layout_ok trap_regs)). vm_compute. exact I. Qed.

Lemma trap_extent e : e ∈ trap_regs -> 40 <= e.2 <= 280 /\ e.2 <> 112 /\ e.2 mod 8 = 0.
Proof. revert e. apply Forall_forall. apply (bool_decide_unpack (Forall _ _)). vm_compute. exact I. Qed.

(** Every register but [a0] is in the list. *)
Lemma trap_reg r : r = a0 \/ exists o, (r, o) ∈ trap_regs.
Proof.
  destruct (decide (r = a0)) as [->|Hne]; [by left|right].
  assert (Hin : r ∈ trap_regs.*1) by (destruct r; try done; apply (bool_decide_unpack (_ ∈ trap_regs.*1)); vm_compute; exact I).
  apply list_elem_of_fmap in Hin as ([r' o] & -> & Hin). by exists o.
Qed.

Lemma a0_not_trap o : (a0, o) ∉ trap_regs.
Proof.
  intros Hin%(list_elem_of_fmap_2 fst). revert Hin. apply (bool_decide_unpack (a0 ∉ trap_regs.*1)). vm_compute. exact I.
Qed.

Lemma tf_address h o tf : mode h = PrvS -> xr h a0 = TRAPFRAME -> maps_trapframe (cr h satp) tf -> 0 <= o < 288 ->
  pa_of tr h (u64 (xr h a0 + o)) = Some (tf + o).
Proof.
  intros Hm Hx Ht Ho. unfold pa_of. rewrite Hm, Hx, u64_small by (unfold TRAPFRAME, TRAMPOLINE, PGSIZE; rewrite MAXVA_eq; lia). by apply Ht.
Qed.

Lemma tf_area h tf : mode h = PrvS -> xr h a0 = TRAPFRAME -> maps_trapframe (cr h satp) tf -> area tr h a0 trap_regs tf.
Proof. intros Hm Hx Ht e He%trap_extent. apply tf_address; [done|done|done|lia]. Qed.

(** Saves the user registers and switches to the kernel's stack and page table. *)
Lemma uservec_run h tf : mode h = PrvS -> words h -> maps_trapframe (cr h satp) tf ->
  exists h1, uservec tr delegable h = Ok tt h1 /\ mode h1 = PrvS /\
    (forall r o, (r, o) ∈ trap_regs -> load64 (pm h1) (tf + o) = xr h r) /\ load64 (pm h1) (tf + 112) = xr h a0 /\
    (forall a, ~ tf + 40 <= a < tf + 288 -> rd (pm h1) a = rd (pm h) a) /\
    xr h1 sp = load64 (pm h) (tf + 8) /\ xr h1 tp = load64 (pm h) (tf + 32) /\ pc h1 = load64 (pm h) (tf + 16) /\
    cr h1 satp = load64 (pm h) tf /\ cr h1 sepc = cr h sepc.
Proof.
  intros Hm Hw Ht. unfold uservec, bind. rewrite run_app.
  change (run tr delegable [CSRW sscratch a0; LI a0 TRAPFRAME] h) with
    (Ok tt (set_xr (fun f => upd f a0 (u64 TRAPFRAME)) (set_cr (fun f => upd f sscratch (xr h a0)) h))).
  cbv beta iota. set (h0 := set_xr _ _).
  assert (Hx : xr h0 a0 = TRAPFRAME) by (by vm_compute). assert (Ht0 : maps_trapframe (cr h0 satp) tf) by done.
  rewrite run_app, (run_saves tr delegable a0 _ tf) by (by apply tf_area). set (h1 := set_pm _ h0).
  change (run tr delegable (CSRR t0 sscratch :: ?p) h1) with (run tr delegable p (set_xr (fun f => upd f t0 (xr h a0)) h1)).
  erewrite run_SD by (apply (tf_address _ 112); done). erewrite run_LD by (apply (tf_address _ 8); done).
  erewrite run_LD by (apply (tf_address _ 32); done). erewrite run_LD by (apply (tf_address _ 16); done).
  erewrite run_LD by (apply (tf_address _ 0); done). eexists. split; [reflexivity|]. hsimpl.
  change (pm h1) with (stored (xr h0) trap_regs tf (pm h)). set (m1 := store64 _ (tf + 112) _).
  assert (Hout : forall a, ~ tf + 40 <= a < tf + 288 -> rd m1 a = rd (pm h) a).
  { intros a Ha. unfold m1. rewrite rd_store64_ne by lia. apply stored_outside. intros e He%trap_extent. lia. }
  assert (Hk : forall o, 0 <= o <= 32 -> load64 m1 (tf + o) = load64 (pm h) (tf + o)).
  { intros o Ho. apply load64_ext. intros a Ha. apply Hout. lia. }
  split; [done|]. split; [|split; [|split; [done|]]].
  - intros r o Hin. unfold m1. apply trap_extent in Hin as Ho. simpl in Ho. rewrite load64_store64_ne by zdm.
    assert (Hne : r <> a0) by (intros ->; by apply a0_not_trap in Hin).
    etransitivity; [apply (stored_field _ trap_regs); [apply trap_layout| |done]|].
    + intros r'. unfold h0. cbn [set_xr set_cr xr]. unfold upd. case_decide; [apply u64_range|apply Hw].
    + by apply (reg_upd_ne (xr h)).
  - unfold m1. rewrite load64_store64_eq; [done|]. apply Hw.
  - rewrite (Hk 8), (Hk 32), (Hk 16), (Hk 0), Z.add_0_r by lia. done.
Qed.

(** Loads the user registers of the page table in [a0] and returns to user
    space. *)
Lemma userret_run h tf : mode h = PrvS -> maps_trapframe (xr h a0) tf ->
  exists h', userret tr delegable h = Ok tt h' /\ (forall r o, (r, o) ∈ trap_regs -> xr h' r = load64 (pm h) (tf + o)) /\
    xr h' a0 = load64 (pm h) (tf + 112) /\ pm h' = pm h /\ cr h' satp = xr h a0 /\ pc h' = cr h sepc /\
    mode h' = if bit 8 (cr h mstatus) then PrvS else PrvU.
Proof.
  intros Hm Ht. unfold userret, bind. rewrite run_app.
  change (run tr delegable [SFENCE; CSRW satp a0; SFENCE; LI a0 TRAPFRAME] h) with
    (Ok tt (set_xr (fun f => upd f a0 (u64 TRAPFRAME)) (set_cr (fun f => upd f satp (xr h a0)) h))).
  cbv beta iota. set (h0 := set_xr _ _).
  assert (Hx : xr h0 a0 = TRAPFRAME) by (by vm_compute). assert (Ht0 : maps_trapframe (cr h0 satp) tf) by done.
  rewrite run_app, (run_loads tr delegable a0 _ tf); [|by apply tf_area|intros o Hin; by apply a0_not_trap in Hin]. set (h1 := set_xr _ h0).
  assert (Hx1 : xr h1 a0 = TRAPFRAME).
  { rewrite <- Hx. apply (loaded_out _ trap_regs). intros ([r o] & E & Hin)%list_elem_of_fmap. simpl in E. subst r. by apply a0_not_trap in Hin. }
  erewrite run_LD by (apply (tf_address h1 112); done). eexists. split; [reflexivity|]. hsimpl. split; [|split; [|done]].
  - intros r o Hin. rewrite reg_upd_ne by (intros ->; by apply a0_not_trap in Hin). apply (loaded_field _ trap_regs); [apply trap_layout|done].
  - done.
Qed.
End User.

(** C12: the registers of a user program survive a trap. [uservec] saves them
    and continues in the kernel with the stack, hart id, page table and
    handler that the trapframe names, changing no other memory. Whenever
    [userret] later runs with a page table whose trapframe has these saved
    registers, but for [v] in the place of [a0] (the result of a system call;
    in a child that [fork] made, the copy of the trapframe with 0), the
    program goes on at [sepc] with [v] in [a0] and every other register as
    before the trap. *)
Theorem user_registers_roundtrip tr delegable h tf :
  mode h = PrvS -> words h -> maps_trapframe tr (cr h satp) tf ->
  exists h1, uservec tr delegable h = Ok tt h1 /\
    xr h1 sp = load64 (pm h) (tf + 8) /\ xr h1 tp = load64 (pm h) (tf + 32) /\ pc h1 = load64 (pm h) (tf + 16) /\
    cr h1 satp = load64 (pm h) tf /\ (forall a, ~ tf + 40 <= a < tf + 288 -> rd (pm h1) a = rd (pm h) a) /\
    forall h2 tf' v, mode h2 = PrvS -> maps_trapframe tr (xr h2 a0) tf' -> load64 (pm h2) (tf' + 112) = v ->
      (forall o, 40 <= o < 288 -> ~ 112 <= o < 120 -> rd (pm h2) (tf' + o) = rd (pm h1) (tf + o)) ->
      exists h3, userret tr delegable h2 = Ok tt h3 /\ xr h3 a0 = v /\ (forall r, r <> a0 -> xr h3 r = xr h r) /\
        pm h3 = pm h2 /\ cr h3 satp = xr h2 a0 /\ pc h3 = cr h2 sepc /\ mode h3 = if bit 8 (cr h2 mstatus) then PrvS else PrvU.
Proof.
  intros Hm Hw Ht. destruct (uservec_run tr delegable h tf Hm Hw Ht) as (h1 & E1 & _ & Hf & _ & Hout & Hsp & Htp & Hpc & Hsatp & _). exists h1.
  do 6 (split; [done|]). intros h2 tf' v Hm2 Ht2 Hv Hsame.
  destruct (userret_run tr delegable h2 tf' Hm2 Ht2) as (h3 & E3 & Hr & Ha & Hpm & Hs & Hp & Hmd). exists h3. split; [done|]. split; [congruence|].
  split; [|done]. intros r Hne. destruct (trap_reg r) as [?|[o Hin]]; [done|]. rewrite (Hr r o Hin), <- (Hf r o Hin).
  apply trap_extent in Hin as Ho. simpl in Ho. apply (ld_ext 8). intros i Hi. rewrite <- !Z.add_assoc. apply Hsame; zdm.
Qed.

(** ** Traps in the kernel *)

Lemma frame_layout : layout_ok frame_regs /\ NoDup restored_regs.*1.
Proof. apply (bool_decide_unpack (_ /\ _)). vm_compute. exact I. Qed.

Lemma frame_extent e : e ∈ frame_regs -> 0 <= e.2 <= 240.
Proof. revert e. apply Forall_forall. apply (bool_decide_unpack (Forall _ _)). vm_compute. exact I. Qed.

Lemma frame_reg r : r <> tp -> exists o, (r, o) ∈ restored_regs.
Proof.
  intros Hne. assert (Hin : r ∈ restored_regs.*1) by (destruct r; try done; apply (bool_decide_unpack (_ ∈ restored_regs.*1)); vm_compute; exact I).
  apply list_elem_of_fmap in Hin as ([r' o] & -> & Hin). by exists o.
Qed.

Lemma restored_frame e : e ∈ restored_regs -> e ∈ frame_regs /\ e.1 <> tp.
Proof. unfold restored_regs. rewrite list_elem_of_filter. tauto. Qed.

(** C24: a trap in the kernel. [kernelvec] saves every register in a frame on
    the current stack; when the C handler returns with the stack pointer it
    was given and the frame untouched, the interrupted code goes on at [sepc]
    with every register as it was. Only [tp], the hart's id, is that of the
    hart on which the handler returned. *)
Theorem kernelvec_preserves tr delegable h p :
  mode h = PrvS -> words h ->
  (forall o, 0 <= o < 248 -> tr (cr h satp) (u64 (u64 (xr h sp - 256) + o)) = Some (p + o)) ->
  exists h1, kernelvec_enter tr delegable h = Ok tt h1 /\
    xr h1 sp = u64 (xr h sp - 256) /\ (forall r, r <> sp -> xr h1 r = xr h r) /\ (forall a, ~ p <= a < p + 248 -> rd (pm h1) a = rd (pm h) a) /\
    forall h2, mode h2 = PrvS -> cr h2 satp = cr h satp -> xr h2 sp = xr h1 sp -> (forall a, p <= a < p + 248 -> rd (pm h2) a = rd (pm h1) a) ->
      exists h3, kernelvec_leave tr delegable h2 = Ok tt h3 /\ xr h3 tp = xr h2 tp /\ (forall r, r <> tp -> xr h3 r = xr h r) /\
        pm h3 = pm h2 /\ pc h3 = cr h2 sepc /\ mode h3 = if bit 8 (cr h2 mstatus) then PrvS else PrvU.
Proof.
  intros Hm Hw Ht. destruct frame_layout as [Hlay Hnd]. unfold kernelvec_enter.
  change (run tr delegable (ADDI sp sp (-256) :: ?q) h) with (run tr delegable q (set_xr (fun f => upd f sp (u64 (xr h sp - 256))) h)).
  set (h0 := set_xr _ h). assert (Hw0 : words h0) by (intros r; unfold h0; cbn [set_xr xr]; unfold upd; case_decide; [apply u64_range|apply Hw]).
  assert (Hsp0 : xr h0 sp = u64 (xr h sp - 256)) by apply reg_upd_eq.
  assert (Har : area tr h0 sp frame_regs p).
  { intros e He%frame_extent. unfold pa_of. rewrite Hsp0. change (mode h0) with (mode h). rewrite Hm. apply Ht. lia. }
  rewrite (run_saves tr delegable sp _ p) by done. eexists. split; [reflexivity|]. split; [done|].
  split; [by intros r Hr; apply (reg_upd_ne (xr h))|]. split.
  { intros a Ha. apply stored_outside. intros e He%frame_extent. lia. }
  change (pm (set_pm _ h0)) with (stored (xr h0) frame_regs p (pm h)). change (xr (set_pm _ h0) sp) with (xr h0 sp). rewrite Hsp0.
  intros h2 Hm2 Hs2 Hsp2 Hsame.
  assert (Hfield : forall r o, (r, o) ∈ frame_regs -> load64 (pm h2) (p + o) = xr h0 r).
  { intros r o Hin. rewrite <- (stored_field (xr h0) frame_regs p (pm h) r o) by done. apply frame_extent in Hin. simpl in Hin. apply load64_ext. intros a Ha. apply Hsame. lia. }
  unfold kernelvec_leave, bind. rewrite run_app, (run_loads tr delegable sp _ p).
  - change (run tr delegable [ADDI sp sp 256] ?g) with (Ok tt (set_xr (fun f => upd f sp (u64 (xr g sp + 256))) g)). eexists. split; [reflexivity|].
    assert (Hr : forall r, r <> tp -> loaded (pm h2) restored_regs p (xr h2) r = xr h0 r).
    { intros r Hr. destruct (frame_reg r Hr) as [o Hin]. rewrite (loaded_field _ _ _ _ r o) by done. by apply Hfield, restored_frame. }
    hsimpl. split; [|split; [|done]].
    + apply loaded_out. intros ([r o] & E & Hin%restored_frame)%list_elem_of_fmap. by destruct Hin.
    + intros r Hne. destruct (decide (r = sp)) as [->|Hrs]; [rewrite reg_upd_eq, Hr, Hsp0 by done|rewrite reg_upd_ne, Hr by done; by apply (reg_upd_ne (xr h))].
      specialize (Hw sp). unfold u64. zdm.
  - intros e [He _]%restored_frame. apply frame_extent in He. unfold pa_of. rewrite Hm2, Hs2, Hsp2. apply Ht. lia.
  - intros o [Hin _]%restored_frame. by rewrite (Hfield sp o Hin), Hsp2.
Qed.

(** ** The machine status register *)

Lemma put_bit_spec i b x j : 0 <= i -> 0 <= j -> bit j (put_bit i b x) = if decide (j = i) then b else bit j x.
Proof.
  intros Hi Hj. unfold bit, put_bit. destruct b.
  - rewrite Z.setbit_eqb by done. destruct (decide (j = i)) as [->|Hne]; [by rewrite Z.eqb_refl|]. by rewrite (proj2 (Z.eqb_neq i j)) by done.
  - rewrite Z.clearbit_eqb. destruct (decide (j = i)) as [->|Hne]; [by rewrite Z.eqb_refl, andb_false_r|].
    by rewrite (proj2 (Z.eqb_neq i j)), andb_true_r by done.
Qed.

Lemma mpp_bits c j : 0 <= c < 4 -> 0 <= j -> j <> 11 -> j <> 12 -> Z.testbit (Z.shiftl c 11) j = false.
Proof.
  intros Hc Hj H1 H2. destruct (decide (j < 11)) as [Hlt|Hge]; [by apply Z.shiftl_spec_low|]. rewrite Z.shiftl_spec by lia.
  destruct (decide (c = 0)) as [->|]; [apply Z.bits_0|]. apply Z.bits_above_log2; [lia|]. apply Z.log2_lt_pow2; [lia|].
  apply Z.lt_le_trans with (2 ^ 2); [lia|]. apply Z.pow_le_mono_r; lia.
Qed.

Lemma priv_code_range p : 0 <= priv_code p < 4.
Proof. destruct p; simpl; lia. Qed.

Lemma put_mpp_bit p x j : 0 <= j -> j <> 11 -> j <> 12 -> bit j (put_mpp p x) = bit j x.
Proof.
  intros Hj H1 H2. unfold bit, put_mpp, MSTATUS_MPP_MASK. rewrite Z.lor_spec, Z.ldiff_spec, !mpp_bits by (done || lia || apply priv_code_range).
  by rewrite andb_true_r, orb_false_r.
Qed.

Lemma mpp_put p x : mpp (put_mpp p x) = p.
Proof.
  unfold mpp, put_mpp, MSTATUS_MPP_MASK. rewrite Z.shiftr_lor, Z.shiftr_ldiff, !Z.shiftr_shiftl_l by lia. rewrite Z.sub_diag, !Z.shiftl_0_r.
  rewrite Z.land_lor_distr_l. replace (Z.land (Z.ldiff (Z.shiftr x 11) 3) 3) with 0; [by destruct p|].
  symmetry. apply Z.bits_inj'. intros i Hi. rewrite Z.land_spec, Z.ldiff_spec, Z.bits_0. by destruct (Z.testbit 3 i); rewrite ?andb_false_r.
Qed.

Lemma mpp_lor x v : Z.shiftr v 11 = 0 -> mpp (Z.lor x v) = mpp x.
Proof. intros Hv. unfold mpp. by rewrite Z.shiftr_lor, Hv, Z.lor_0_r. Qed.

(** ** Start-up and the timer *)

Section Timer.
Variables (tr : Z -> Z -> option Z) (delegable : Z).
Variables (timer_scratch timervec_addr main_addr : Z).

(** The timer of hart [id] is set up: [timervec] handles its interrupts, with
    its scratch area, and the interrupt it makes in turn is delegated. *)
Record timer_ready (id : Z) (h : hart) : Prop := {
  tr_hart : cr h mhartid = id;
  tr_vector : cr h mtvec = timervec_addr;
  tr_scratch : cr h mscratch = timer_scratch + 40 * id;
  tr_cmp : load64 (pm h) (timer_scratch + 40 * id + 24) = CLINT_MTIMECMP id;
  tr_interval : load64 (pm h) (timer_scratch + 40 * id + 32) = 1000000;
  tr_enabled : bit 7 (cr h mie) = true;
  tr_not_deleg : bit 7 (cr h mideleg) = false;
  tr_soft_deleg : bit 1 (cr h mideleg) = true;
}.

(** What the machine and the linker provide: the interrupts of supervisor
    mode can be delegated and the machine's timer cannot, and the scratch
    areas are in the kernel's memory. *)
Hypothesis deleg_s : Z.land 0x222 delegable = 0x222.
Hypothesis deleg_mti : bit 7 delegable = false.
Hypothesis scratch_ram : KERNBASE <= timer_scratch /\ timer_scratch + 40 * NCPU <= PHYSTOP.

Lemma deleg_bit i : Z.testbit 0x222 i = true -> Z.testbit delegable i = true.
Proof. rewrite <- deleg_s at 1. rewrite Z.land_spec. by intros [_ ?]%andb_true_iff. Qed.

Lemma start_run h id : cr h mhartid = id -> 0 <= id < NCPU ->
  exists h', start delegable timer_scratch timervec_addr main_addr h = Ok tt h' /\
    mode h' = PrvS /\ pc h' = main_addr /\ cr h' satp = 0 /\ xr h' tp = id /\ timer_ready id h' /\
    bit 1 (cr h' mstatus) = bit 1 (cr h mstatus) /\
    (forall i, i = 1 \/ i = 5 \/ i = 9 -> bit i (cr h' mideleg) = true /\ bit i (cr h' mie) = true) /\
    load64 (pm h') (CLINT_MTIMECMP id) = u64 (load64 (pm h) CLINT_MTIME + 1000000).
Proof.
  intros Hid Hr. assert (Ei : i32 (cr h mhartid) = id) by (rewrite Hid; apply i32_small; unfold NCPU in Hr; lia).
  unfold start, timerinit, bind, gets, modify, setx. eexists. split; [reflexivity|]. hsimpl. rewrite Ei.
  assert (Hs : CLINT_MTIMECMP id + 8 <= timer_scratch + 40 * id) by (unfold CLINT_MTIMECMP, CLINT, KERNBASE, NCPU in *; lia).
  assert (Hc : 0 <= CLINT_MTIMECMP id < 2 ^ 64) by (unfold CLINT_MTIMECMP, CLINT, NCPU in *; lia).
  change (Z.lor (Z.ldiff (cr h mstatus) MSTATUS_MPP_MASK) MSTATUS_MPP_S) with (put_mpp PrvS (cr h mstatus)).
  split; [by rewrite mpp_lor, mpp_put|]. do 2 (split; [done|]). split; [apply u64_small; unfold NCPU in Hr; lia|]. split; [|split; [|split]].
  - constructor; hsimpl; rewrite ?Ei.
    + done.
    + done.
    + done.
    + rewrite load64_store64_ne, load64_store64_eq by lia. done.
    + rewrite load64_store64_eq by lia. done.
    + unfold bit. rewrite Z.lor_spec. by rewrite orb_true_r.
    + unfold bit in *. by rewrite Z.land_spec, deleg_mti, andb_false_r.
    + unfold bit. by rewrite Z.land_spec, deleg_bit.
  - rewrite put_mpp_bit, !put_bit_spec, !decide_False by lia. unfold bit at 1. rewrite Z.lor_spec, orb_false_r. apply (put_mpp_bit PrvS (cr h mstatus) 1); lia.
  - intros i Hi. unfold bit. rewrite !Z.lor_spec, !Z.land_spec, !Z.lor_spec. destruct Hi as [->|[->| ->]]; rewrite deleg_bit by done; cbn [andb].
    + split; [done|]. by rewrite !orb_true_r.
    + split; [done|]. by rewrite !orb_true_r.
    + split; [done|]. by rewrite !orb_true_r.
  - rewrite !load64_store64_ne, load64_store64_eq by (lia || apply u64_range). done.
Qed.

(** The handler: registers restored, the deadline moved on, a software
    interrupt pending. *)
Lemma timervec_run h s c : mode h = PrvM -> words h -> cr h mscratch = s -> 0 <= s < 2 ^ 63 -> 0 <= c < 2 ^ 63 -> c + 8 <= s ->
  load64 (pm h) (s + 24) = c -> bit 1 (cr h mideleg) = true ->
  let m3 := store64 (store64 (store64 (pm h) s (xr h a1)) (s + 8) (xr h a2)) (s + 16) (xr h a3) in
  let m' := store64 m3 c (u64 (load64 (pm h) c + load64 (pm h) (s + 32))) in
  exists h', timervec tr delegable h = Ok tt (mret delegable h') /\ (forall r, xr h' r = xr h r) /\ pm h' = m' /\ pc h' = pc h /\
    (forall k, k <> mip -> cr h' k = cr h k) /\ (forall i, 0 <= i -> bit i (cr h' mip) = if decide (i = 1) then true else bit i (cr h mip)).
Proof.
  intros Hm Hw Hs Rs Rc Hd Ec Hd1 m3 m'. unfold timervec, bind.
  assert (Hpa : forall g b o, mode g = PrvM -> pa_of tr g (u64 (xr g b + o)) = Some (u64 (xr g b + o))) by (intros g b o Hg; unfold pa_of; by rewrite Hg).
  change (run tr delegable (CSRRW a0 mscratch a0 :: ?p) h) with
    (run tr delegable p (set_xr (fun f => upd f a0 (cr h mscratch)) (set_cr (fun f => upd f mscratch (xr h a0)) h))). rewrite Hs.
  erewrite run_SD by (by apply Hpa). hsimpl. erewrite run_SD by (by apply Hpa). hsimpl. erewrite run_SD by (by apply Hpa). hsimpl.
  rewrite Z.add_0_r, !(u64_small (s + _)), (u64_small s) by lia. fold m3.
  assert (Hm3 : forall a, a + 8 <= s \/ s + 24 <= a -> load64 m3 a = load64 (pm h) a) by (intros a Ha; unfold m3; rewrite !load64_store64_ne by lia; done).
  erewrite run_LD by (by apply Hpa). hsimpl. rewrite u64_small, Hm3, Ec by lia.
  erewrite run_LD by (by apply Hpa). hsimpl. rewrite u64_small, Hm3 by lia.
  erewrite run_LD by (by apply Hpa). hsimpl. rewrite Z.add_0_r, u64_small, Hm3 by lia.
  change (run tr delegable (ADD a3 a3 a2 :: ?p) ?g) with (run tr delegable p (set_xr (fun f => upd f a3 (u64 (xr g a3 + xr g a2))) g)). hsimpl.
  erewrite run_SD by (by apply Hpa). hsimpl. rewrite Z.add_0_r, (u64_small c) by lia. fold m'.
  change (run tr delegable (LI a1 2 :: CSRW sip a1 :: ?p) ?g) with
    (run tr delegable p (w_csr delegable sip 2 (set_xr (fun f => upd f a1 2) g))). hsimpl.
  assert (L16 : load64 m' (s + 16) = xr h a3) by (unfold m', m3; rewrite load64_store64_ne, load64_store64_eq by (lia || apply Hw); done).
  assert (L8 : load64 m' (s + 8) = xr h a2).
  { unfold m', m3. rewrite !(load64_store64_ne _ _ _ (s + 8)), load64_store64_eq by (lia || apply Hw). done. }
  assert (L0 : load64 m' s = xr h a1) by (unfold m', m3; rewrite !(load64_store64_ne _ _ _ s), load64_store64_eq by (lia || apply Hw); done).
  erewrite run_LD by (by apply Hpa). hsimpl. fold m3 m'. rewrite u64_small, L16 by lia.
  erewrite run_LD by (by apply Hpa). hsimpl. fold m3 m'. rewrite u64_small, L8 by lia.
  erewrite run_LD by (by apply Hpa). hsimpl. fold m3 m'. rewrite Z.add_0_r, u64_small, L0 by lia.
  eexists. split; [reflexivity|]. hsimpl. split; [|split; [done|split; [done|split]]].
  - intros r. unfold upd. repeat case_decide; subst; done.
  - intros k Hk. unfold upd. repeat case_decide; subst; congruence.
  - intros i Hi. unfold bit in *. rewrite Z.lor_spec, Z.ldiff_spec, !Z.land_spec. change 2 with (2 ^ 1). rewrite Z.pow2_bits_eqb by lia.
    destruct (decide (i = 1)) as [->|Hne]; [by rewrite Hd1, orb_true_r|]. rewrite (proj2 (Z.eqb_neq 1 i)) by done.
    cbn [andb negb]. by rewrite andb_true_r, orb_false_r.
Qed.
End Timer.

(** The cause of a timer interrupt in machine mode. *)
Definition timer_cause : Z := 2 ^ 63 + 7.

(** C23: a hart that runs [start] in machine mode enters [main] in supervisor
    mode without paging, with its id in [tp] and interrupts as they were; the
    three kinds of supervisor interrupts are delegated and enabled, and its
    timer is set up to interrupt for the first time 1000000 cycles later. The
    machine must let these interrupts be delegated, and not its own timer. *)
Theorem start_boots delegable timer_scratch timervec_addr main_addr h id :
  Z.land 0x222 delegable = 0x222 -> bit 7 delegable = false ->
  KERNBASE <= timer_scratch /\ timer_scratch + 40 * NCPU <= PHYSTOP -> cr h mhartid = id -> 0 <= id < NCPU ->
  exists h', start delegable timer_scratch timervec_addr main_addr h = Ok tt h' /\
    mode h' = PrvS /\ pc h' = main_addr /\ cr h' satp = 0 /\ xr h' tp = id /\ timer_ready timer_scratch timervec_addr id h' /\
    bit 1 (cr h' mstatus) = bit 1 (cr h mstatus) /\
    (forall i, i = 1 \/ i = 5 \/ i = 9 -> bit i (cr h' mideleg) = true /\ bit i (cr h' mie) = true) /\
    load64 (pm h') (CLINT_MTIMECMP id) = u64 (load64 (pm h) CLINT_MTIME + 1000000).
Proof. intros H1 H2 H3. by apply start_run. Qed.

(** C14: timer interrupts are transparent. On a hart whose timer is set up, a
    timer interrupt outside machine mode is taken in machine mode at
    [timervec], and the handler returns to the interrupted instruction and
    mode with every register and the state of the other modes as they were,
    the deadline moved on by the interval, a software interrupt pending for
    the kernel, no memory changed but the scratch area, and the timer still
    set up. *)
Theorem timer_interrupt_transparent tr delegable timer_scratch timervec_addr id h :
  KERNBASE <= timer_scratch /\ timer_scratch + 40 * NCPU <= PHYSTOP -> 0 <= id < NCPU -> words h ->
  timer_ready timer_scratch timervec_addr id h -> mode h <> PrvM -> bit 7 (cr h mip) = true ->
  m_interrupt 7 h = true /\ pc (mtrap timer_cause h) = timervec_addr /\
  exists h', timervec tr delegable (mtrap timer_cause h) = Ok tt h' /\
    (forall r, xr h' r = xr h r) /\ pc h' = pc h /\ mode h' = mode h /\
    (forall i, 0 <= i -> i ∉ [7; 11; 12] -> bit i (cr h' mstatus) = bit i (cr h mstatus)) /\
    (forall k, k ∉ [mstatus; mepc; mcause; mip] -> cr h' k = cr h k) /\
    (forall i, 0 <= i -> bit i (cr h' mip) = if decide (i = 1) then true else bit i (cr h mip)) /\
    load64 (pm h') (CLINT_MTIMECMP id) = u64 (load64 (pm h) (CLINT_MTIMECMP id) + 1000000) /\
    (forall a, ~ CLINT_MTIMECMP id <= a < CLINT_MTIMECMP id + 8 -> ~ timer_scratch + 40 * id <= a < timer_scratch + 40 * id + 24 ->
      rd (pm h') a = rd (pm h) a) /\
    timer_ready timer_scratch timervec_addr id h'.
Proof.
  intros Hs Hid Hw Hr Hm Hp. pose proof Hr as [T1 T2 T3 T4 T5 T6 T7 T8]. set (sa := timer_scratch + 40 * id) in *. set (c := CLINT_MTIMECMP id) in *.
  assert (Rs : 0 <= sa < 2 ^ 63 /\ 0 <= c < 2 ^ 63 /\ c + 8 <= sa).
  { unfold sa, c, CLINT_MTIMECMP, CLINT, PHYSTOP, KERNBASE, NCPU in *. lia. }
  destruct Rs as (Rs & Rc & Hcs). split; [unfold m_interrupt; rewrite Hp, T6, T7; by destruct (mode h)|]. split; [done|].
  destruct (timervec_run tr delegable (mtrap timer_cause h) sa c eq_refl Hw T3 Rs Rc Hcs T4 T8) as (h1 & E & X & M1 & P & C & I).
  exists (mret delegable h1). split; [done|].
  assert (Ems : cr h1 mstatus = put_mpp (mode h) (put_bit 3 false (put_bit 7 (bit 3 (cr h mstatus)) (cr h mstatus)))) by (by rewrite C).
  assert (Ck : forall k, k ∉ [mstatus; mepc; mcause; mip] -> cr (mret delegable h1) k = cr h k).
  { intros k Hk. rewrite !not_elem_of_cons in Hk. destruct Hk as (N1 & N2 & N3 & N4 & _). unfold mret. hsimpl.
    rewrite C by done. unfold mtrap. by hsimpl. }
  change (pm (mtrap timer_cause h)) with (pm h) in M1. rewrite T5 in M1.
  assert (Hout : forall a, ~ c <= a < c + 8 -> ~ sa <= a < sa + 24 -> rd (pm (mret delegable h1)) a = rd (pm h) a).
  { intros a H1 H2. change (pm (mret delegable h1)) with (pm h1). rewrite M1, !rd_store64_ne by lia. done. }
  split; [done|]. split; [unfold mret; hsimpl; by rewrite C|]. split; [unfold mret; hsimpl; by rewrite Ems, mpp_put|].
  split; [|split; [done|]]; [|split; [|split; [|split; [done|]]]].
  - intros i Hi Hno. rewrite !not_elem_of_cons in Hno. destruct Hno as (N1 & N2 & N3 & _). unfold mret. hsimpl. rewrite Ems.
    rewrite put_mpp_bit, !put_bit_spec, put_mpp_bit, !put_bit_spec by lia. rewrite (decide_False (P := i = 7)) by done.
    destruct (decide (i = 3)) as [->|Hne]; [done|]. by rewrite put_mpp_bit, !put_bit_spec, !decide_False by lia.
  - intros i Hi. unfold mret. hsimpl. by rewrite I.
  - change (pm (mret delegable h1)) with (pm h1). rewrite M1, load64_store64_eq by (apply u64_range). done.
  - assert (Kk : forall k, bool_decide (k ∉ [mstatus; mepc; mcause; mip]) = true -> cr (mret delegable h1) k = cr h k)
      by (intros k Hk%bool_decide_eq_true; by apply Ck).
    assert (Km : forall o, 24 <= o <= 32 -> load64 (pm (mret delegable h1)) (sa + o) = load64 (pm h) (sa + o))
      by (intros o Ho; apply load64_ext; intros a Ha; apply Hout; lia).
    constructor; [rewrite Kk by reflexivity; exact T1|rewrite Kk by reflexivity; exact T2|rewrite Kk by reflexivity; exact T3| | | | |].
    + fold sa. rewrite Km by lia. exact T4.
    + fold sa. rewrite Km by lia. exact T5.
    + rewrite Kk by reflexivity. exact T6.
    + rewrite Kk by reflexivity. exact T7.
    + rewrite Kk by reflexivity. exact T8.
Qed.

(** Each hart starts on a stack of its own. *)
Lemma entry_stack tr delegable stack0 h id : cr h mhartid = id -> 0 <= id < NCPU -> 0 <= stack0 < 2 ^ 63 ->
  exists h', entry tr delegable stack0 h = Ok tt h' /\ xr h' sp = stack0 + 4096 * (id + 1).
Proof.
  intros Hid Hr Hs. unfold entry. eexists. split; [reflexivity|]. hsimpl. rewrite Hid. unfold NCPU in Hr.
  rewrite (u64_small (id + 1)), (u64_small stack0), (u64_small (1024 * 4)) by lia. rewrite (u64_small (_ * _)), u64_small by lia. lia.
Qed.

(** ** Examples *)

(** A hart in the kernel with two contexts, or with a stack, without
    translation; and one with a trapframe. *)
Definition ex_regs (r : reg) : Z := match r with a0 => 2 ^ 31 | a1 => 2 ^ 31 + 200 | sp => 2 ^ 31 + 512 | _ => 5 end.
Definition ex_hart : hart := Hart ex_regs (fun _ => 0) 0 PrvS ∅.
Definition ex_tr (s va : Z) : option Z := Some va.
Definition ex_user_tr (s va : Z) : option Z := Some (va - TRAPFRAME + 2 ^ 31).

Lemma ex_words : words ex_hart.
Proof. intros r. destruct r; simpl; lia. Qed.

Lemma ex_area h b l p : xr h b = p -> 0 <= p < 2 ^ 40 -> layout_ok l -> area ex_tr h b l p.
Proof.
  intros Hp Hr (_ & _ & Hl) e He. rewrite Forall_forall in Hl. destruct (Hl e He) as [Ho _]. rewrite Hp, u64_small by lia. unfold pa_of. by destruct (mode h).
Qed.

(** There and back between the two contexts. *)
Lemma swtch_roundtrip_witness :
  exists h1 h3, swtch ex_tr 0x222 ex_hart = Ok tt h1 /\ pc h1 = 0 /\
    swtch ex_tr 0x222 (set_xr (fun x => upd (upd x a1 (2 ^ 31)) a0 (2 ^ 31 + 200)) h1) = Ok tt h3 /\ xr h3 sp = 2 ^ 31 + 512 /\ pc h3 = 5.
Proof.
  destruct (swtch_roundtrip ex_tr 0x222 ex_hart (2 ^ 31) (2 ^ 31 + 200) ex_words (ex_area ex_hart a0 _ (2 ^ 31) eq_refl ltac:(lia) context_layout)
    (ex_area ex_hart a1 _ (2 ^ 31 + 200) eq_refl ltac:(lia) context_layout) ltac:(lia)) as (h1 & E1 & _ & P1 & H).
  destruct (H (set_xr (fun x => upd (upd x a1 (2 ^ 31)) a0 (2 ^ 31 + 200)) h1) (2 ^ 31 + 200)) as (h3 & E3 & X3 & P3).
  - apply ex_area; [reflexivity|lia|exact context_layout].
  - apply ex_area; [reflexivity|lia|exact context_layout].
  - lia.
  - reflexivity.
  - exists h1, h3. split; [exact E1|]. split; [exact P1|]. split; [exact E3|]. split; [|exact P3]. apply X3. right. left.
Defined.

(** A system call that returns 42. *)
Lemma user_registers_roundtrip_witness :
  exists h1 h3, uservec ex_user_tr 0x222 ex_hart = Ok tt h1 /\
    userret ex_user_tr 0x222 (Hart (fun _ => 8) (fun _ => 1000) 0 PrvS (store64 (pm h1) (2 ^ 31 + 112) 42)) = Ok tt h3 /\
    xr h3 a0 = 42 /\ xr h3 a1 = 2 ^ 31 + 200 /\ pc h3 = 1000.
Proof.
  assert (Ht : forall s, maps_trapframe ex_user_tr s (2 ^ 31)) by (intros s o Ho; unfold ex_user_tr; f_equal; lia).
  destruct (user_registers_roundtrip ex_user_tr 0x222 ex_hart (2 ^ 31) eq_refl ex_words (Ht _)) as (h1 & E1 & _ & _ & _ & _ & _ & H).
  destruct (H (Hart (fun _ => 8) (fun _ => 1000) 0 PrvS (store64 (pm h1) (2 ^ 31 + 112) 42)) (2 ^ 31) 42 eq_refl (Ht _)) as (h3 & E3 & A3 & X3 & _ & _ & P3 & _).
  - apply load64_store64_eq. lia.
  - intros o Ho Hno. cbn [pm]. apply rd_store64_ne. lia.
  - exists h1, h3. split; [exact E1|]. split; [exact E3|]. split; [exact A3|]. split; [|exact P3]. apply X3. discriminate.
Defined.

(** A handler that returns on hart 3 and leaves other registers changed. *)
Lemma kernelvec_preserves_witness :
  exists h1 h3, kernelvec_enter ex_tr 0x222 ex_hart = Ok tt h1 /\
    kernelvec_leave ex_tr 0x222 (Hart (fun r => match r with sp => 2 ^ 31 + 256 | tp => 3 | _ => 77 end) (fun c => match c with satp => 0 | _ => 1000 end) 0 PrvS (pm h1)) = Ok tt h3 /\
    xr h3 sp = 2 ^ 31 + 512 /\ xr h3 a0 = 2 ^ 31 /\ xr h3 tp = 3 /\ pc h3 = 1000.
Proof.
  destruct (kernelvec_preserves ex_tr 0x222 ex_hart (2 ^ 31 + 256) eq_refl ex_words) as (h1 & E1 & S1 & _ & _ & H).
  { intros o Ho. unfold ex_tr. f_equal. simpl xr. rewrite (u64_small (_ - _)), u64_small by lia. lia. }
  destruct (H (Hart (fun r => match r with sp => 2 ^ 31 + 256 | tp => 3 | _ => 77 end) (fun c => match c with satp => 0 | _ => 1000 end) 0 PrvS (pm h1)))
    as (h3 & E3 & T3 & X3 & _ & P3 & _).
  - reflexivity.
  - reflexivity.
  - rewrite S1. reflexivity.
  - reflexivity.
  - exists h1, h3. split; [exact E1|]. split; [exact E3|]. split; [apply (X3 sp); discriminate|]. split; [apply (X3 a0); discriminate|]. split; [exact T3|exact P3].
Defined.

(** Hart 1. *)
Lemma start_boots_witness :
  exists h', start 0x222 0x80010000 0x80020000 0x80030000 (Hart (fun _ => 0) (fun c => match c with mhartid => 1 | _ => 0 end) 0 PrvM ∅) = Ok tt h' /\
    mode h' = PrvS /\ pc h' = 0x80030000 /\ xr h' tp = 1.
Proof.
  destruct (start_boots 0x222 0x80010000 0x80020000 0x80030000 (Hart (fun _ => 0) (fun c => match c with mhartid => 1 | _ => 0 end) 0 PrvM ∅) 1
    eq_refl eq_refl ltac:(unfold KERNBASE, PHYSTOP, NCPU, KERNBASE; lia) eq_refl ltac:(unfold NCPU; lia)) as (h' & E & Hm & Hp & _ & Ht & _).
  exists h'. split; [exact E|]. split; [exact Hm|]. split; [exact Hp|exact Ht].
Defined.

Definition ex_timer : hart :=
  Hart ex_regs (fun c => match c with mhartid => 1 | mtvec => 0x80020000 | mscratch => 0x80010000 + 40 | mie => 128 | mip => 128 | mideleg => 0x222 | _ => 0 end)
    0x1234 PrvU (store64 (store64 ∅ (0x80010000 + 40 + 24) (CLINT_MTIMECMP 1)) (0x80010000 + 40 + 32) 1000000).

(** In user mode on hart 1. *)
Lemma timer_interrupt_transparent_witness :
  exists h', timervec ex_tr 0x222 (mtrap timer_cause ex_timer) = Ok tt h' /\ pc h' = 0x1234 /\ mode h' = PrvU /\ load64 (pm h') (CLINT_MTIMECMP 1) = 1000000.
Proof.
  destruct (timer_interrupt_transparent ex_tr 0x222 0x80010000 0x80020000 1 ex_timer) as (_ & _ & h' & E & _ & P & Hm & _ & _ & _ & L & _).
  - unfold KERNBASE, PHYSTOP, NCPU, KERNBASE. lia.
  - unfold NCPU. lia.
  - exact ex_words.
  - constructor; vm_compute; reflexivity.
  - discriminate.
  - reflexivity.
  - exists h'. split; [exact E|]. split; [exact P|]. split; [exact Hm|]. rewrite L. vm_compute. reflexivity.
Defined.
