(* ===== verification/Virtio.v ===== *)
(** * The disk driver

    [kernel/virtio_disk.c] and [kernel/virtio.h].  A request is a chain of
    three descriptors.  [virtio_disk_rw] is divided where it sleeps:
    [rw_start] puts the request in the avail ring, [rw_wait] sleeps while the
    disk has the buffer, and [rw_finish] gives the chain back.  The values of
    the device's registers depend on what was written to them. *)

From S2P Require Import Prelude Riscv Mem CString Kalloc Spinlock Proc IoState SleepLock Bio.

(** ** Constants *)

Definition VIRTIO_MMIO_MAGIC_VALUE : Z := 0x000.
Definition VIRTIO_MMIO_VERSION : Z := 0x004.
Definition VIRTIO_MMIO_DEVICE_ID : Z := 0x008.
Definition VIRTIO_MMIO_VENDOR_ID : Z := 0x00c.
Definition VIRTIO_MMIO_DEVICE_FEATURES : Z := 0x010.
Definition VIRTIO_MMIO_DRIVER_FEATURES : Z := 0x020.
Definition VIRTIO_MMIO_QUEUE_SEL : Z := 0x030.
Definition VIRTIO_MMIO_QUEUE_NUM_MAX : Z := 0x034.
Definition VIRTIO_MMIO_QUEUE_NUM : Z := 0x038.
Definition VIRTIO_MMIO_QUEUE_READY : Z := 0x044.
Definition VIRTIO_MMIO_QUEUE_NOTIFY : Z := 0x050.
Definition VIRTIO_MMIO_INTERRUPT_STATUS : Z := 0x060.
Definition VIRTIO_MMIO_INTERRUPT_ACK : Z := 0x064.
Definition VIRTIO_MMIO_STATUS : Z := 0x070.
Definition VIRTIO_MMIO_QUEUE_DESC_LOW : Z := 0x080.
Definition VIRTIO_MMIO_QUEUE_DESC_HIGH : Z := 0x084.
Definition VIRTIO_MMIO_DRIVER_DESC_LOW : Z := 0x090.
Definition VIRTIO_MMIO_DRIVER_DESC_HIGH : Z := 0x094.
Definition VIRTIO_MMIO_DEVICE_DESC_LOW : Z := 0x0a0.
Definition VIRTIO_MMIO_DEVICE_DESC_HIGH : Z := 0x0a4.

Definition VIRTIO_CONFIG_S_ACKNOWLEDGE : Z := 1.
Definition VIRTIO_CONFIG_S_DRIVER : Z := 2.
Definition VIRTIO_CONFIG_S_DRIVER_OK : Z := 4.
Definition VIRTIO_CONFIG_S_FEATURES_OK : Z := 8.

Definition VIRTIO_BLK_F_RO : Z := 5.
Definition VIRTIO_BLK_F_SCSI : Z := 7.
Definition VIRTIO_BLK_F_CONFIG_WCE : Z := 11.
Definition VIRTIO_BLK_F_MQ : Z := 12.
Definition VIRTIO_F_ANY_LAYOUT : Z := 27.
Definition VIRTIO_RING_F_INDIRECT_DESC : Z := 28.
Definition VIRTIO_RING_F_EVENT_IDX : Z := 29.

Definition NUM : Z := 8.
Definition num : nat := 8.
Definition VRING_DESC_F_NEXT : Z := 1.
Definition VRING_DESC_F_WRITE : Z := 2.
Definition VIRTIO_BLK_T_IN : Z := 0.
Definition VIRTIO_BLK_T_OUT : Z := 1.
Definition SIZEOF_BLK_REQ : Z := 16.

(** The value a register reads as, after these writes. *)
Class VirtioMmio := mmio_read : list (Z * Z) -> Z -> Z.

Section Virtio.
Context `{Linker} `{VirtioMmio}.
Local Open Scope kernel_scope.

Definition gvd {A} (f : vdisk -> A) : K A := iogets (fun s => f (vdk s)).
Definition uvd (f : vdisk -> vdisk) : K unit := iomod (fun s => set_vdk (f (vdk s)) s).

(** *R(r) *)
Definition mmio_r (r : Z) : K Z := gvd (fun v => u32 (mmio_read (vq_regs v) r)).
Definition mmio_w (r x : Z) : K unit := uvd (fun v => set_vq_regs ((r, u32 x) :: vq_regs v) v).

(** disk.desc[i], disk.free[i], disk.info[i], disk.ops[i] *)
Definition get_desc (i : Z) : K virtq_desc :=
  o <- gvd (fun v => vq_desc v !! Z.to_nat i) ;;
  match o with Some d => ret d | None => ub "disk.desc[]" end.
Definition upd_desc (i : nat) (f : virtq_desc -> virtq_desc) : K unit :=
  uvd (fun v => set_vq_desc (alter f i (vq_desc v)) v).
Definition get_free (i : nat) : K Z :=
  o <- gvd (fun v => vq_free v !! i) ;;
  match o with Some d => ret d | None => ub "disk.free[]" end.
Definition set_free (i : nat) (x : Z) : K unit :=
  uvd (fun v => set_vq_free (<[i := x]> (vq_free v)) v).
Definition get_info (i : Z) : K vinfo :=
  o <- gvd (fun v => vq_info v !! Z.to_nat i) ;;
  match o with Some d => ret d | None => ub "disk.info[]" end.
Definition upd_info (i : nat) (f : vinfo -> vinfo) : K unit :=
  uvd (fun v => set_vq_info (alter f i (vq_info v)) v).
Definition upd_op (i : nat) (f : blk_req -> blk_req) : K unit :=
  uvd (fun v => set_vq_ops (alter f i (vq_ops v)) v).

(** &disk.free[0], after the three pointers *)
Definition free_chan : Z := disk_addr + 24.

(** ** Initialisation *)

Definition clear_feature (f b : Z) : Z := Z.land f (Z.lnot (Z.shiftl 1 b)).
Definition driver_features (f : Z) : Z :=
  clear_feature (clear_feature (clear_feature (clear_feature (clear_feature (clear_feature (clear_feature f
    VIRTIO_BLK_F_RO) VIRTIO_BLK_F_SCSI) VIRTIO_BLK_F_CONFIG_WCE) VIRTIO_BLK_F_MQ) VIRTIO_F_ANY_LAYOUT)
    VIRTIO_RING_F_EVENT_IDX) VIRTIO_RING_F_INDIRECT_DESC.

Fixpoint free_all (ds : list nat) : K unit :=
  match ds with
  | [] => ret tt
  | i :: ds => set_free i 1 ;; free_all ds
  end.

(** The zeroed pages hold an empty queue. *)
Definition zero_queue (v : vdisk) : vdisk :=
  set_vq_desc (replicate num (VirtqDesc DNull 0 0 0)) (set_avail_idx 0 (set_avail_ring (replicate num 0)
    (set_dev_idx 0 (set_dev_ring (replicate num 0) v)))).

Definition init_queue (status : Z) : K unit :=
  mmio_w VIRTIO_MMIO_QUEUE_SEL 0 ;;
  ready <- mmio_r VIRTIO_MMIO_QUEUE_READY ;;
  if ctrue ready then panic "virtio disk should not be ready" else
  max <- mmio_r VIRTIO_MMIO_QUEUE_NUM_MAX ;;
  if max =? 0 then panic "virtio disk has no queue 0" else
  if max <? NUM then panic "virtio disk max queue too short" else
  desc <- inmem kalloc ;;
  avail <- inmem kalloc ;;
  used <- inmem kalloc ;;
  uvd (set_vq_pages [desc; avail; used]) ;;
  if (desc =? 0) || (avail =? 0) || (used =? 0) then panic "virtio disk kalloc" else
  phys_wr (fun m => memset m desc 0 PGSIZE) ;;
  phys_wr (fun m => memset m avail 0 PGSIZE) ;;
  phys_wr (fun m => memset m used 0 PGSIZE) ;;
  uvd zero_queue ;;
  mmio_w VIRTIO_MMIO_QUEUE_NUM NUM ;;
  mmio_w VIRTIO_MMIO_QUEUE_DESC_LOW desc ;;
  mmio_w VIRTIO_MMIO_QUEUE_DESC_HIGH (Z.shiftr desc 32) ;;
  mmio_w VIRTIO_MMIO_DRIVER_DESC_LOW avail ;;
  mmio_w VIRTIO_MMIO_DRIVER_DESC_HIGH (Z.shiftr avail 32) ;;
  mmio_w VIRTIO_MMIO_DEVICE_DESC_LOW used ;;
  mmio_w VIRTIO_MMIO_DEVICE_DESC_HIGH (Z.shiftr used 32) ;;
  mmio_w VIRTIO_MMIO_QUEUE_READY 0x1 ;;
  free_all (seq 0 num) ;;
  mmio_w VIRTIO_MMIO_STATUS (Z.lor status VIRTIO_CONFIG_S_DRIVER_OK).

Definition virtio_disk_init : K unit :=
  inlk (initlock VdiskLock) ;;
  magic <- mmio_r VIRTIO_MMIO_MAGIC_VALUE ;;
  version <- mmio_r VIRTIO_MMIO_VERSION ;;
  device <- mmio_r VIRTIO_MMIO_DEVICE_ID ;;
  vendor <- mmio_r VIRTIO_MMIO_VENDOR_ID ;;
  if negb (magic =? 0x74726976) || negb (version =? 2) || negb (device =? 2) || negb (vendor =? 0x554d4551)
  then panic "could not find virtio disk" else
  mmio_w VIRTIO_MMIO_STATUS 0 ;;
  let status := VIRTIO_CONFIG_S_ACKNOWLEDGE in
  mmio_w VIRTIO_MMIO_STATUS status ;;
  let status := Z.lor status VIRTIO_CONFIG_S_DRIVER in
  mmio_w VIRTIO_MMIO_STATUS status ;;
  features <- mmio_r VIRTIO_MMIO_DEVICE_FEATURES ;;
  mmio_w VIRTIO_MMIO_DRIVER_FEATURES (driver_features features) ;;
  let status := Z.lor status VIRTIO_CONFIG_S_FEATURES_OK in
  mmio_w VIRTIO_MMIO_STATUS status ;;
  status <- mmio_r VIRTIO_MMIO_STATUS ;;
  if Z.land status VIRTIO_CONFIG_S_FEATURES_OK =? 0 then panic "virtio disk FEATURES_OK unset" else
  init_queue status.

(** ** Descriptors *)

Fixpoint alloc_desc_loop (ds : list nat) : K (option nat) :=
  match ds with
  | [] => ret None
  | i :: ds =>
      f <- get_free i ;;
      if ctrue f then set_free i 0 ;; ret (Some i) else alloc_desc_loop ds
  end.
Definition alloc_desc : K (option nat) := alloc_desc_loop (seq 0 num).

Definition free_desc (i : nat) : K unit :=
  if NUM <=? Z.of_nat i then panic "free_desc 1" else
  f <- get_free i ;;
  if ctrue f then panic "free_desc 2" else
  upd_desc i (set_d_addr DNull) ;;
  upd_desc i (set_d_len 0) ;;
  upd_desc i (set_d_flags 0) ;;
  upd_desc i (set_d_next 0) ;;
  set_free i 1 ;;
  wakeup free_chan.

(** A chain visits each descriptor at most once, or [free_desc] panics. *)
Fixpoint free_chain_loop (fuel : nat) (i : Z) : K unit :=
  match fuel with
  | O => fail EFuel
  | S fuel =>
      d <- get_desc i ;;
      free_desc (Z.to_nat i) ;;
      if ctrue (Z.land (d_flags d) VRING_DESC_F_NEXT) then free_chain_loop fuel (d_next d) else ret tt
  end.
Definition free_chain (i : Z) : K unit := free_chain_loop (S num) i.

Fixpoint free_descs (ds : list nat) : K unit :=
  match ds with
  | [] => ret tt
  | i :: ds => free_desc i ;; free_descs ds
  end.

(** [None] for the return of -1. *)
Fixpoint alloc3_loop (k : nat) (idx : list nat) : K (option (list nat)) :=
  match k with
  | O => ret (Some idx)
  | S k =>
      r <- alloc_desc ;;
      match r with
      | Some d => alloc3_loop k (idx ++ [d])
      | None => free_descs idx ;; ret None
      end
  end.
Definition alloc3_desc : K (option (list nat)) := alloc3_loop 3 [].

(** ** Requests *)

(** The three descriptors are filled in and the chain's head is put in the
    avail ring. *)
Definition rw_submit (b : nat) (write : bool) (sector : Z) (i0 i1 i2 : nat) : K unit :=
  upd_op i0 (set_rq_type (if write then VIRTIO_BLK_T_OUT else VIRTIO_BLK_T_IN)) ;;
  upd_op i0 (set_rq_reserved 0) ;;
  upd_op i0 (set_rq_sector sector) ;;
  upd_desc i0 (set_d_addr (DOps i0)) ;;
  upd_desc i0 (set_d_len SIZEOF_BLK_REQ) ;;
  upd_desc i0 (set_d_flags VRING_DESC_F_NEXT) ;;
  upd_desc i0 (set_d_next (Z.of_nat i1)) ;;
  upd_desc i1 (set_d_addr (DData b)) ;;
  upd_desc i1 (set_d_len BSIZE) ;;
  upd_desc i1 (set_d_flags (if write then 0 else VRING_DESC_F_WRITE)) ;;
  upd_desc i1 (fun d => set_d_flags (Z.lor (d_flags d) VRING_DESC_F_NEXT) d) ;;
  upd_desc i1 (set_d_next (Z.of_nat i2)) ;;
  upd_info i0 (set_vi_status 0xff) ;;
  upd_desc i2 (set_d_addr (DStatus i0)) ;;
  upd_desc i2 (set_d_len 1) ;;
  upd_desc i2 (set_d_flags VRING_DESC_F_WRITE) ;;
  upd_desc i2 (set_d_next 0) ;;
  updb b (set_b_disk 1) ;;
  upd_info i0 (set_vi_b (Some b)) ;;
  uvd (fun v => set_avail_ring (<[Z.to_nat (avail_idx v mod NUM) := Z.of_nat i0]> (avail_ring v)) v) ;;
  uvd (fun v => set_avail_idx (u16 (avail_idx v + 1)) v) ;;
  mmio_w VIRTIO_MMIO_QUEUE_NOTIFY 0.

(** Up to the wait, with the lock held; the result is idx[0]. *)
Definition rw_start (b : nat) (write : bool) : K nat :=
  x <- getb b ;;
  let sector := u32 (b_blockno x * (BSIZE / 512)) in
  inlk (acquire VdiskLock) ;;
  idx <- alloc3_desc ;;
  match idx with
  | Some [i0; i1; i2] => rw_submit b write sector i0 i1 i2 ;; ret i0
  | _ => fail (EBlock "virtio_disk_rw")
  end.

(** The test of the loop and the call of [sleep]; [None] when the loop ends. *)
Definition rw_wait (b : nat) : K (option bool) :=
  x <- getb b ;;
  if b_disk x =? 1 then e <- sleep_enter (buf_addr b) VdiskLock ;; ret (Some e) else ret None.

Definition rw_finish (i0 : nat) : K unit :=
  upd_info i0 (set_vi_b None) ;;
  free_chain (Z.of_nat i0) ;;
  inlk (release VdiskLock).

(** ** The interrupt *)

Fixpoint intr_loop (fuel : nat) : K unit :=
  match fuel with
  | O => fail EFuel
  | S fuel =>
      u <- gvd used_idx ;;
      d <- gvd dev_idx ;;
      if u =? d then ret tt else
      o <- gvd (fun v => dev_ring v !! Z.to_nat (u mod NUM)) ;;
      id <- (match o with Some id => ret id | None => ub "disk.used->ring[]" end) ;;
      n <- get_info id ;;
      if ctrue (vi_status n) then panic "virtio_disk_intr status" else
      match vi_b n with
      | None => ub "disk.info[id].b"
      | Some b =>
          updb b (set_b_disk 0) ;;
          wakeup (buf_addr b) ;;
          uvd (fun v => set_used_idx (u16 (used_idx v + 1)) v) ;;
          intr_loop fuel
      end
  end.

(** One turn for each entry the device has added. *)
Definition virtio_disk_intr : K unit :=
  inlk (acquire VdiskLock) ;;
  st <- mmio_r VIRTIO_MMIO_INTERRUPT_STATUS ;;
  mmio_w VIRTIO_MMIO_INTERRUPT_ACK (Z.land st 0x3) ;;
  k <- gvd (fun v => u16 (dev_idx v - used_idx v)) ;;
  intr_loop (S (Z.to_nat k)) ;;
  inlk (release VdiskLock).

End Virtio.
