(* ===== verification/Trap.v ===== *)
(** * Traps

    [kernel/trap.c], [kernel/plic.c] and the supervisor registers of
    [kernel/riscv.h]; [forkret], where a new process starts, and [kernel/main.c].  [sstatus] is kept without its bit SIE, which is part of
    the state of the spin locks.  A handler ends on its way back to user
    space, or in the scheduler: [usertrap_resume] and [kerneltrap_resume] are
    what follows the call of [yield]. *)

From S2P Require Import Prelude Riscv Mem CString Kalloc Vm Spinlock Proc IoState SleepLock Bio.
From S2P Require Import Bytes Log Uart Printf Console Fs File Syscall Dispatch Kvm Virtio.

(** ** Constants *)

Definition SSTATUS_SPP : Z := Z.shiftl 1 8.
Definition SSTATUS_SPIE : Z := Z.shiftl 1 5.
Definition SSTATUS_SIE : Z := Z.shiftl 1 1.

Definition PLIC_SENABLE (hart : Z) : Z := PLIC + 0x2080 + hart * 0x100.
Definition PLIC_SPRIORITY (hart : Z) : Z := PLIC + 0x201000 + hart * 0x2000.
Definition PLIC_SCLAIM (hart : Z) : Z := PLIC + 0x201004 + hart * 0x2000.

(** Offsets in [struct trapframe]. *)
Definition TF_kernel_satp : Z := 0.
Definition TF_kernel_sp : Z := 8.
Definition TF_kernel_trap : Z := 16.
Definition TF_kernel_hartid : Z := 32.

(** ** State *)

Record csrs := Csrs {
  c_sstatus : Z;   (** but SIE *)
  c_sepc : Z;
  c_scause : Z;
  c_stval : Z;
  c_stvec : Z;
  c_satp : Z;
  c_sip : Z;
}.
Definition set_sstatus (v : Z) (c : csrs) : csrs :=
  Csrs v (c_sepc c) (c_scause c) (c_stval c) (c_stvec c) (c_satp c) (c_sip c).
Definition set_sepc (v : Z) (c : csrs) : csrs :=
  Csrs (c_sstatus c) v (c_scause c) (c_stval c) (c_stvec c) (c_satp c) (c_sip c).
Definition set_stvec (v : Z) (c : csrs) : csrs :=
  Csrs (c_sstatus c) (c_sepc c) (c_scause c) (c_stval c) v (c_satp c) (c_sip c).
Definition set_satp (v : Z) (c : csrs) : csrs :=
  Csrs (c_sstatus c) (c_sepc c) (c_scause c) (c_stval c) (c_stvec c) v (c_sip c).
Definition set_sip (v : Z) (c : csrs) : csrs :=
  Csrs (c_sstatus c) (c_sepc c) (c_scause c) (c_stval c) (c_stvec c) (c_satp c) v.

(** The interrupt controller: the interrupts that wait to be claimed, and the
    writes to its registers, the latest first. *)
Record plic := Plic { pl_pending : list Z; pl_writes : list (Z * Z) }.

Record mach := Mach { m_k : kernel; m_csr : csrs; m_plic : plic }.
Definition set_m_k (k : kernel) (m : mach) : mach := Mach k (m_csr m) (m_plic m).
Definition set_m_csr (c : csrs) (m : mach) : mach := Mach (m_k m) c (m_plic m).
Definition set_m_plic (p : plic) (m : mach) : mach := Mach (m_k m) (m_csr m) p.

Abbreviation T := (M mach).

(** How the handling of a trap from user space ends. *)
Inductive trap_end :=
  | ToUser (satp : Z)          (** userret is called with this page table *)
  | Yielded (intena : bool)    (** in the scheduler, to resume after [yield] *)
  | Exited (intena : bool)     (** in the scheduler, for good *)
  | Asleep.                    (** in the scheduler, inside a system call *)

Section Trap.
Context `{Linker} `{VirtioMmio}.
Local Open Scope kernel_scope.

Definition ink {A} (c : K A) : T A := zoom m_k set_m_k c.
Definition gcsr {A} (f : csrs -> A) : T A := gets (fun m => f (m_csr m)).
Definition ucsr (f : csrs -> csrs) : T unit := modify (fun m => set_m_csr (f (m_csr m)) m).

Definition r_sstatus : T Z :=
  x <- gcsr c_sstatus ;;
  b <- gets (fun m => sie (plk (m_k m))) ;;
  ret (if b then Z.lor x SSTATUS_SIE else x).
Definition w_sstatus (x : Z) : T unit :=
  ucsr (set_sstatus (Z.ldiff x SSTATUS_SIE)) ;;
  ink (inlk (modify (set_sie (Z.testbit x 1)))).
Definition r_sepc : T Z := gcsr c_sepc.
Definition w_sepc (x : Z) : T unit := ucsr (set_sepc x).
Definition r_scause : T Z := gcsr c_scause.
Definition r_stval : T Z := gcsr c_stval.
Definition w_stvec (x : Z) : T unit := ucsr (set_stvec x).
Definition r_satp : T Z := gcsr c_satp.
Definition r_sip : T Z := gcsr c_sip.
Definition w_sip (x : Z) : T unit := ucsr (set_sip x).

(** ** plic.c *)

Definition plic_w (a v : Z) : T unit :=
  modify (fun m => set_m_plic (Plic (pl_pending (m_plic m)) ((a, v) :: pl_writes (m_plic m))) m).
Definition tcpuid : T Z := h <- ink (inlk cpuid) ;; ret (Z.of_nat h).

Definition plicinit : T unit :=
  plic_w (PLIC + UART0_IRQ * 4) 1 ;;
  plic_w (PLIC + VIRTIO0_IRQ * 4) 1.
Definition plicinithart : T unit :=
  hart <- tcpuid ;;
  plic_w (PLIC_SENABLE hart) (Z.lor (Z.shiftl 1 UART0_IRQ) (Z.shiftl 1 VIRTIO0_IRQ)) ;;
  plic_w (PLIC_SPRIORITY hart) 0.
(** Reading the claim register takes the interrupt; 0 if there is none. *)
Definition plic_claim : T Z :=
  tcpuid ;;
  irq <- gets (fun m => hd 0 (pl_pending (m_plic m))) ;;
  modify (fun m => set_m_plic (Plic (tl (pl_pending (m_plic m))) (pl_writes (m_plic m))) m) ;;
  ret irq.
Definition plic_complete (irq : Z) : T unit :=
  hart <- tcpuid ;;
  plic_w (PLIC_SCLAIM hart) irq.

(** ** trap.c *)

Definition trapinit : T unit := ink (inlk (initlock TicksLock)).
Definition trapinithart : T unit := w_stvec kernelvec.

Definition clockintr : T unit :=
  ink (inlk (acquire TicksLock)) ;;
  ink (modify (fun s => set_ticks (u32 (ticks s + 1)) s)) ;;
  ink (wakeup ticks_addr) ;;
  ink (inlk (release TicksLock)).

Definition devintr : T Z :=
  scause <- r_scause ;;
  if Z.testbit scause 63 && (Z.land scause 0xff =? 9) then
    irq <- plic_claim ;;
    (if irq =? UART0_IRQ then ink uartintr
     else if irq =? VIRTIO0_IRQ then ink virtio_disk_intr
     else when ctrue irq then ink (printf (str "unexpected interrupt irq=%d" ++ [10]) [PInt irq])) ;;
    (when ctrue irq then plic_complete irq) ;;
    ret 1
  else if scause =? 0x8000000000000001 then
    id <- tcpuid ;;
    (when id =? 0 then clockintr) ;;
    sip <- r_sip ;;
    w_sip (Z.ldiff sip 2) ;;
    ret 2
  else ret 0.

Definition usertrapret : T trap_end :=
  r <- ink myproc ;;
  i <- ink (deref r) ;;
  p <- ink (getp i) ;;
  ink (inlk intr_off) ;;
  w_stvec (TRAMPOLINE + (uservec - trampoline)) ;;
  satp <- r_satp ;;
  let tf := trapframe p in
  ink (phys_wr (fun m => store64 m (tf + TF_kernel_satp) satp)) ;;
  ink (phys_wr (fun m => store64 m (tf + TF_kernel_sp) (u64 (kstack p + PGSIZE)))) ;;
  ink (phys_wr (fun m => store64 m (tf + TF_kernel_trap) usertrap_addr)) ;;
  hart <- tcpuid ;;
  ink (phys_wr (fun m => store64 m (tf + TF_kernel_hartid) hart)) ;;
  x <- r_sstatus ;;
  w_sstatus (Z.lor (Z.ldiff x SSTATUS_SPP) SSTATUS_SPIE) ;;
  epc <- gets (fun m => load64 (phys (pk (m_k m))) (tf + TF_epc)) ;;
  w_sepc epc ;;
  ret (ToUser (MAKE_SATP (pagetable p))).

(** The end of [usertrap], from the second test of [killed]. *)
Definition usertrap_end (i : nat) (which_dev : Z) : T trap_end :=
  k <- ink (killed i) ;;
  if ctrue k then e <- ink (exit (-1) 0) ;; ret (Exited e)
  else if which_dev =? 2 then e <- ink yield_enter ;; ret (Yielded e)
  else usertrapret.

Definition usertrap : T trap_end :=
  ss <- r_sstatus ;;
  if ctrue (Z.land ss SSTATUS_SPP) then panic "usertrap: not from user mode"
  else
    w_stvec kernelvec ;;
    r <- ink myproc ;;
    i <- ink (deref r) ;;
    p <- ink (getp i) ;;
    epc <- r_sepc ;;
    ink (phys_wr (fun m => store64 m (trapframe p + TF_epc) epc)) ;;
    scause <- r_scause ;;
    if scause =? 8 then
      k <- ink (killed i) ;;
      if ctrue k then e <- ink (exit (-1) 0) ;; ret (Exited e)
      else
        ink (phys_wr (fun m => store64 m (trapframe p + TF_epc) (u64 (load64 m (trapframe p + TF_epc) + 4)))) ;;
        ink (inlk intr_on) ;;
        r <- ink syscall ;;
        match r with
        | SysRet _ => usertrap_end i 0
        | SysExit e => ret (Exited e)
        | SysSleep => ret Asleep
        end
    else
      which_dev <- devintr ;;
      if ctrue which_dev then usertrap_end i which_dev
      else
        ink (printf (str "usertrap(): unexpected scause %p pid=%d" ++ [10]) [PPtr scause; PInt (pid p)]) ;;
        sepc <- r_sepc ;;
        stval <- r_stval ;;
        ink (printf (str "            sepc=%p stval=%p" ++ [10]) [PPtr sepc; PPtr stval]) ;;
        ink (setkilled i) ;;
        usertrap_end i 0.

Definition usertrap_resume (i : nat) (intena : bool) : T trap_end :=
  ink (yield_resume i intena) ;;
  usertrapret.

(** The registers it has saved are restored once [yield] is over: [None], or
    the state of the suspended handler. *)
Definition kerneltrap_end (sepc sstatus : Z) : T unit :=
  w_sepc sepc ;;
  w_sstatus sstatus.

Definition kerneltrap : T (option (bool * Z * Z)) :=
  sepc <- r_sepc ;;
  sstatus <- r_sstatus ;;
  scause <- r_scause ;;
  if Z.land sstatus SSTATUS_SPP =? 0 then panic "kerneltrap: not from supervisor mode"
  else
    on <- ink (inlk intr_get) ;;
    if (on : bool) then panic "kerneltrap: interrupts enabled"
    else
      which_dev <- devintr ;;
      if which_dev =? 0 then
        ink (printf (str "scause %p" ++ [10]) [PPtr scause]) ;;
        sepc <- r_sepc ;;
        stval <- r_stval ;;
        ink (printf (str "sepc=%p stval=%p" ++ [10]) [PPtr sepc; PPtr stval]) ;;
        panic "kerneltrap"
      else
        y <- (if which_dev =? 2 then
                r <- ink myproc ;;
                match r with
                | None => ret false
                | Some i => ink myproc ;; p <- ink (getp i) ;; ret (bool_decide (state p = RUNNING))
                end
              else ret false) ;;
        if (y : bool) then e <- ink yield_enter ;; ret (Some (e, sepc, sstatus))
        else kerneltrap_end sepc sstatus ;; ret None.

Definition kerneltrap_resume (i : nat) (intena : bool) (sepc sstatus : Z) : T unit :=
  ink (yield_resume i intena) ;;
  kerneltrap_end sepc sstatus.

(** ** The first return to user space, and start-up *)

(** The scheduler's first switch to a process goes to [forkret].  [first] is
    its static variable; the new value is returned. *)
Definition forkret_run (first : bool) : T (bool * trap_end) :=
  r <- ink myproc ;;
  i <- ink (deref r) ;;
  ink (inlk (release (ProcLock i))) ;;
  (when first then ink (fsinit ROOTDEV)) ;;
  e <- usertrapret ;;
  ret (false, e).

(** [kvminithart], on the registers of this file. *)
Definition use_table (kernel_pagetable : Z) : T unit := ucsr (set_satp (MAKE_SATP kernel_pagetable)).

(** [main] up to the scheduler.  [started] is the flag, and with it the
    variable [kernel_pagetable], that hart 0 sets for the others, which wait
    until then. *)
Definition main_first : T Z :=
  ink consoleinit ;;
  ink printfinit ;;
  ink (printf [10] []) ;;
  ink (printf (str "xv6 kernel is booting" ++ [10]) []) ;;
  ink (printf [10] []) ;;
  ink (inmem kinit) ;;
  kernel_pagetable <- ink (inmem kvmmake) ;;
  use_table kernel_pagetable ;;
  ink procinit ;;
  trapinit ;;
  trapinithart ;;
  plicinit ;;
  plicinithart ;;
  ink binit ;;
  ink iinit ;;
  ink fileinit ;;
  ink virtio_disk_init ;;
  ink userinit ;;
  ret kernel_pagetable.
Definition main_other (kernel_pagetable : Z) : T unit :=
  id <- tcpuid ;;
  ink (printf (str "hart %d starting" ++ [10]) [PInt id]) ;;
  use_table kernel_pagetable ;;
  trapinithart ;;
  plicinithart.
Definition main (started : option Z) : T (option Z) :=
  id <- tcpuid ;;
  if id =? 0 then kernel_pagetable <- main_first ;; ret (Some kernel_pagetable)
  else match started with
       | None => fail (EBlock "main: started")
       | Some kernel_pagetable => main_other kernel_pagetable ;; ret started
       end.

End Trap.
