(* ===== verification/VirtioSpec.v ===== *)
(** * The disk driver: what its queue means

    The requests in flight are kept as three lists: those the device has not
    served, those it has served and whose completion the driver has not seen,
    and those that only wait for their caller to give the chain back.
    [vq_ok] relates the lists to the descriptor table, the rings and the
    book-keeping; the operations move requests between the lists. *)

From S2P Require Import Prelude Riscv Mem CString Kalloc Spinlock Proc ProcSpec IoState SleepLock Bio BioSpec Virtio.

(** A request: its three descriptors, its buffer, its direction and the number
    of the block, which has two sectors. *)
Record request := Req {
  q0 : nat; q1 : nat; q2 : nat;
  q_buf : nat; q_write : bool; q_block : Z;
}.
Definition q_descs (r : request) : list nat := [q0 r; q1 r; q2 r].
Definition descs (rs : list request) : list nat := concat (q_descs <$> rs).

Definition desc0 : virtq_desc := VirtqDesc DNull 0 0 0.

(** The chain the device follows. *)
Definition chain (v : vdisk) (r : request) : Prop :=
  vq_ops v !! q0 r = Some (BlkReq (if q_write r then VIRTIO_BLK_T_OUT else VIRTIO_BLK_T_IN) 0 (2 * q_block r)) /\
  vq_desc v !! q0 r = Some (VirtqDesc (DOps (q0 r)) SIZEOF_BLK_REQ VRING_DESC_F_NEXT (Z.of_nat (q1 r))) /\
  vq_desc v !! q1 r = Some (VirtqDesc (DData (q_buf r)) BSIZE
    (Z.lor (if q_write r then 0 else VRING_DESC_F_WRITE) VRING_DESC_F_NEXT) (Z.of_nat (q2 r))) /\
  vq_desc v !! q2 r = Some (VirtqDesc (DStatus (q0 r)) 1 VRING_DESC_F_WRITE 0).

(** [ring rg start rs]: the heads of the requests [rs] are in the ring from
    position [start]. *)
Definition slot_of (x : Z) : nat := Z.to_nat (x mod NUM).
Definition ring (rg : list Z) (start : Z) (rs : list request) : Prop :=
  forall k r, rs !! k = Some r -> rg !! slot_of (start + Z.of_nat k) = Some (Z.of_nat (q0 r)).

(** The driver's book-keeping for the requests [R] in flight. *)
Record vq_core (v : vdisk) (R : list request) : Prop := VqCore {
  vc_len : length (vq_desc v) = num /\ length (vq_free v) = num /\ length (vq_info v) = num /\ length (vq_ops v) = num;
  vc_chains : Forall (chain v) R;
  vc_info : Forall (fun r => vi_b <$> vq_info v !! q0 r = Some (Some (q_buf r))) R;
  vc_nodup : NoDup (descs R);
  vc_low : Forall (fun d => (d < num)%nat) (descs R);
  vc_free : forall d, (d < num)%nat -> vq_free v !! d = Some (if decide (d ∈ descs R) then 0 else 1);
  vc_zero : forall d, (d < num)%nat -> d ∉ descs R -> vq_desc v !! d = Some desc0;
}.

Record vq_ok (v : vdisk) (Q D S : list request) : Prop := VqOk {
  vo_core : vq_core v (Q ++ D ++ S);
  vo_len : length (avail_ring v) = num /\ length (dev_ring v) = num;
  vo_avail : avail_idx v = u16 (dev_seen v + Z.of_nat (length Q)) /\ ring (avail_ring v) (dev_seen v) Q;
  vo_used : dev_idx v = u16 (used_idx v + Z.of_nat (length D)) /\ ring (dev_ring v) (used_idx v) D;
  vo_idx : 0 <= used_idx v < 2 ^ 16 /\ 0 <= dev_seen v < 2 ^ 16;
  vo_status : Forall (fun r => vi_status <$> vq_info v !! q0 r = Some 0) (D ++ S);
}.

(** The disk has the buffers of the requests it has not completed. *)
Definition vbufs (bs : list buf) (Q D S : list request) : Prop :=
  NoDup (q_buf <$> Q ++ D ++ S) /\
  Forall (fun r => exists b, bs !! q_buf r = Some b /\ b_disk b = 1) (Q ++ D) /\
  Forall (fun r => exists b, bs !! q_buf r = Some b /\ b_disk b = 0) S.

Definition vq_inv (f : iost) (Q D S : list request) : Prop := vq_ok (vdk f) Q D S /\ vbufs (bufs f) Q D S.

(** A descriptor given back. *)
Definition freed (d : nat) (v : vdisk) : vdisk :=
  set_vq_free (<[d := 1]> (vq_free v)) (set_vq_desc (<[d := desc0]> (vq_desc v)) v).

(** ** Arithmetic of the rings *)

Lemma slot_lt x : (slot_of x < num)%nat.
Proof. unfold slot_of, NUM, num. pose proof (Z.mod_pos_bound x 8). lia. Qed.

Lemma slot_u16 x k : slot_of (u16 x + k) = slot_of (x + k).
Proof. unfold slot_of, NUM, u16. f_equal. zdm. Qed.

Lemma slot_ne x (k : nat) : (0 < k < num)%nat -> slot_of (x + Z.of_nat k) <> slot_of x.
Proof. unfold slot_of, NUM, num. intros Hk E. zdm. Qed.

Lemma ring_nil rg start : ring rg start [].
Proof. intros k r. by rewrite lookup_nil. Qed.

Lemma ring_tail rg start r rs : ring rg start (r :: rs) -> ring rg (u16 (start + 1)) rs.
Proof.
  intros Hr k x Hx. rewrite slot_u16. specialize (Hr (S k) x Hx). by replace (start + 1 + Z.of_nat k) with (start + Z.of_nat (S k)) by lia.
Qed.

Lemma vring_snoc rg start rs r :
  length rg = num -> (length rs < num)%nat -> ring rg start rs ->
  ring (<[slot_of (start + Z.of_nat (length rs)) := Z.of_nat (q0 r)]> rg) start (rs ++ [r]).
Proof.
  intros Hl Hn Hr k x Hx. apply lookup_snoc_Some in Hx as [[Hk Hx]|[-> ->]].
  - rewrite list_lookup_insert_ne; [by apply Hr|].
    replace (Z.of_nat (length rs)) with (Z.of_nat k + Z.of_nat (length rs - k)) by lia. rewrite Z.add_assoc.
    apply slot_ne. lia.
  - apply list_lookup_insert_eq. rewrite Hl. apply slot_lt.
Qed.

(** ** Lists of descriptors *)

(** An assignment that a projection does not see. *)
Lemma fmap_alter_same {A B} (g : A -> B) (f : A -> A) (i : nat) (l : list A) : (forall x, g (f x) = g x) -> g <$> alter f i l = g <$> l.
Proof.
  intros Hg. apply list_eq. intros k. rewrite !list_lookup_fmap. destruct (decide (k = i)) as [->|Hne].
  - rewrite list_lookup_alter_eq. destruct (l !! i) as [x|]; [|done]. cbn. by rewrite Hg.
  - by rewrite list_lookup_alter_ne.
Qed.

Lemma descs_app l1 l2 : descs (l1 ++ l2) = descs l1 ++ descs l2.
Proof. unfold descs. by rewrite fmap_app, concat_app. Qed.

Lemma length_descs l : length (descs l) = (3 * length l)%nat.
Proof. induction l as [|r l IH]; [done|]. change (descs (r :: l)) with (q_descs r ++ descs l). rewrite length_app, IH. simpl. lia. Qed.

Lemma descs_perm l l' : l ≡ₚ l' -> descs l ≡ₚ descs l'.
Proof. intros E. unfold descs. by rewrite E. Qed.

Lemma elem_descs d l : d ∈ descs l <-> exists r, r ∈ l /\ d ∈ q_descs r.
Proof.
  unfold descs. rewrite list_elem_of_In, in_concat. split.
  - intros (x & Hx & Hd). apply list_elem_of_In, list_elem_of_fmap in Hx as (r & -> & Hr).
    exists r. split; [done|]. by apply list_elem_of_In.
  - intros (r & Hr & Hd). exists (q_descs r). split; apply list_elem_of_In; [|done].
    apply list_elem_of_fmap. eauto.
Qed.

(** At most two requests are in flight. *)
Lemma vq_few v R : vq_core v R -> (length R <= 2)%nat.
Proof.
  intros Hv. assert (Hs : descs R ⊆ seq 0 num).
  { intros d Hd. pose proof (vc_low _ _ Hv) as Hl. rewrite Forall_forall in Hl. apply Hl in Hd. apply elem_of_seq. lia. }
  pose proof (submseteq_length _ _ (NoDup_submseteq _ _ (vc_nodup _ _ Hv) Hs)) as Hn.
  rewrite length_descs, length_seq in Hn. unfold num in Hn. lia.
Qed.

(** ** The book-keeping does not depend on the order *)

Lemma core_perm v R R' : R ≡ₚ R' -> vq_core v R -> vq_core v R'.
Proof.
  intros E []. pose proof (descs_perm _ _ E) as Ed. split; [done|by rewrite <- E|by rewrite <- E|by rewrite <- Ed|by rewrite <- Ed| |].
  - intros d Hd. rewrite vc_free0 by done. f_equal. apply decide_ext. by rewrite Ed.
  - intros d Hd Hn. apply vc_zero0; [done|]. by rewrite Ed.
Qed.

(** The device changes status bytes only. *)
Lemma core_same v v' R :
  vq_desc v' = vq_desc v -> vq_free v' = vq_free v -> vq_ops v' = vq_ops v ->
  vi_b <$> vq_info v' = vi_b <$> vq_info v -> vq_core v R -> vq_core v' R.
Proof.
  intros E1 E2 E3 E4 []. assert (El : length (vq_info v') = length (vq_info v)).
  { rewrite <- (length_fmap vi_b (vq_info v')), E4. apply length_fmap. }
  split; rewrite ?E1, ?E2, ?E3, ?El; try done.
  - eapply Forall_impl; [exact vc_chains0|]. unfold chain. by rewrite E1, E3.
  - eapply Forall_impl; [exact vc_info0|]. intros r. cbn beta. by rewrite <- !list_lookup_fmap, E4.
Qed.

Lemma core_head v R r : vq_core v R -> r ∈ R -> (q0 r < num)%nat /\ (q1 r < num)%nat /\ (q2 r < num)%nat.
Proof.
  intros [] Hr. rewrite Forall_forall in vc_low0. split_and!; apply vc_low0, elem_descs; exists r; (split; [done|]);
    unfold q_descs; set_solver.
Qed.

(** ** Adding and removing a request *)

Lemma descs_cons r R : descs (r :: R) = q_descs r ++ descs R.
Proof. done. Qed.

(** The entries of the other requests are not touched. *)
Lemma descs_other R r d : r ∈ R -> d ∉ descs R -> q0 r <> d /\ q1 r <> d /\ q2 r <> d.
Proof.
  intros Hr Hd. rewrite elem_descs in Hd. split_and!; intros <-; apply Hd; exists r; (split; [done|]); unfold q_descs; set_solver.
Qed.

Definition fill (r : request) (v : vdisk) : vdisk :=
  set_vq_ops (<[q0 r := BlkReq (if q_write r then VIRTIO_BLK_T_OUT else VIRTIO_BLK_T_IN) 0 (2 * q_block r)]> (vq_ops v))
   (set_vq_desc (<[q2 r := VirtqDesc (DStatus (q0 r)) 1 VRING_DESC_F_WRITE 0]>
     (<[q1 r := VirtqDesc (DData (q_buf r)) BSIZE
        (Z.lor (if q_write r then 0 else VRING_DESC_F_WRITE) VRING_DESC_F_NEXT) (Z.of_nat (q2 r))]>
      (<[q0 r := VirtqDesc (DOps (q0 r)) SIZEOF_BLK_REQ VRING_DESC_F_NEXT (Z.of_nat (q1 r))]> (vq_desc v))))
   (set_vq_info (<[q0 r := VInfo (Some (q_buf r)) 0xff]> (vq_info v))
   (set_vq_free (<[q2 r := 0]> (<[q1 r := 0]> (<[q0 r := 0]> (vq_free v)))) v))).

Lemma chain_fill v r x : chain v x -> q0 r ∉ q_descs x -> q1 r ∉ q_descs x -> q2 r ∉ q_descs x -> chain (fill r v) x.
Proof.
  unfold q_descs. intros (A1 & A2 & A3 & A4) H0 H1 H2. unfold chain, fill. cbn [vq_ops vq_desc set_vq_ops set_vq_desc set_vq_info set_vq_free].
  rewrite !list_lookup_insert_ne by set_solver. done.
Qed.

Lemma q_descs_ne r : NoDup (q_descs r) -> q0 r <> q1 r /\ q0 r <> q2 r /\ q1 r <> q2 r.
Proof. unfold q_descs. rewrite !NoDup_cons. set_solver. Qed.

Lemma q_descs_elem r d : d ∈ q_descs r <-> d = q0 r \/ d = q1 r \/ d = q2 r.
Proof. unfold q_descs. set_solver. Qed.

(** Three assignments at the descriptors of a request. *)
Lemma lookup_insert3 {A} r (x0 x1 x2 : A) l d :
  NoDup (q_descs r) -> Forall (fun d => (d < length l)%nat) (q_descs r) ->
  <[q2 r := x2]> (<[q1 r := x1]> (<[q0 r := x0]> l)) !! d =
  if decide (d = q0 r) then Some x0 else if decide (d = q1 r) then Some x1
  else if decide (d = q2 r) then Some x2 else l !! d.
Proof.
  intros Hnd Hl. apply q_descs_ne in Hnd as (? & ? & ?). unfold q_descs in Hl. rewrite !Forall_cons in Hl.
  destruct Hl as (? & ? & ? & _).
  destruct (decide (d = q0 r)) as [->|]; [|destruct (decide (d = q1 r)) as [->|]; [|destruct (decide (d = q2 r)) as [->|]]];
    repeat (rewrite list_lookup_insert_ne by done); rewrite ?list_lookup_insert_eq by (rewrite ?length_insert; lia); done.
Qed.

Lemma core_fill v R r :
  vq_core v R -> NoDup (q_descs r) -> Forall (fun d => (d < num)%nat /\ d ∉ descs R) (q_descs r) ->
  vq_core (fill r v) (r :: R).
Proof.
  intros [(L1 & L2 & L3 & L4) Hch Hi Hn Hlow Hfr Hz] Hnd Hf. apply Forall_and in Hf as [Hb Hd].
  assert (Hother : forall x, x ∈ R -> forall d, d ∈ q_descs r -> d ∉ q_descs x).
  { intros x Hx d Hd1 Hd2. rewrite Forall_forall in Hd. apply (Hd d Hd1). rewrite elem_descs. eauto. }
  pose proof (q_descs_ne r Hnd) as (E01 & E02 & E12).
  assert (B0 : (q0 r < num)%nat) by (rewrite Forall_forall in Hb; apply Hb, q_descs_elem; auto).
  split; cbn [fill vq_desc vq_ops vq_free vq_info set_vq_ops set_vq_desc set_vq_info set_vq_free].
  - by rewrite !length_insert.
  - constructor.
    + unfold chain, fill. cbn [vq_ops vq_desc set_vq_ops set_vq_desc set_vq_info set_vq_free].
      rewrite list_lookup_insert_eq by lia. rewrite !lookup_insert3 by (rewrite ?L1; done).
      split_and!; repeat (case_decide; try congruence); done.
    + rewrite Forall_forall in Hch |- *. intros x Hx. pose proof (Hother x Hx) as Ho.
      apply chain_fill; [by apply Hch|..]; apply Ho, q_descs_elem; auto.
  - constructor; [by rewrite list_lookup_insert_eq by lia|]. rewrite Forall_forall in Hi |- *. intros x Hx.
    rewrite list_lookup_insert_ne; [by apply Hi|]. intros E.
    apply (Hother x Hx (q0 r)); apply q_descs_elem; auto.
  - rewrite descs_cons. apply NoDup_app. split_and!; [done| |done]. by apply Forall_forall.
  - rewrite descs_cons. by apply Forall_app.
  - intros d Hdn. rewrite lookup_insert3 by (rewrite ?L2; done). rewrite Hfr by done. rewrite descs_cons.
    destruct (decide (d ∈ q_descs r ++ descs R)) as [Hin|Hni]; rewrite elem_of_app, q_descs_elem in *.
    + repeat (case_decide; try done). tauto.
    + repeat (case_decide; try tauto).
  - intros d Hdn Hni. rewrite descs_cons, elem_of_app, q_descs_elem in Hni. rewrite lookup_insert3 by (rewrite ?L1; done).
    rewrite !decide_False by tauto. apply Hz; tauto.
Qed.

Definition unfill (r : request) (v : vdisk) : vdisk :=
  freed (q2 r) (freed (q1 r) (freed (q0 r) (set_vq_info (alter (set_vi_b None) (q0 r) (vq_info v)) v))).

Lemma chain_unfill v r x : chain v x -> (forall d, d ∈ q_descs r -> d ∉ q_descs x) -> chain (unfill r v) x.
Proof.
  intros (A1 & A2 & A3 & A4) Ho. unfold chain, unfill, freed.
  cbn [vq_ops vq_desc set_vq_ops set_vq_desc set_vq_info set_vq_free].
  assert (Hx : forall a d, a ∈ q_descs r -> d ∈ q_descs x -> a <> d) by (intros a d Ha Hd ->; by apply (Ho d)).
  split_and!; [done|..]; rewrite !list_lookup_insert_ne; try done; apply Hx; apply q_descs_elem; auto.
Qed.

Lemma core_unfill v R r : vq_core v (r :: R) -> vq_core (unfill r v) R.
Proof.
  intros [(L1 & L2 & L3 & L4) Hch Hi Hn Hlow Hfr Hz]. rewrite descs_cons in *.
  apply NoDup_app in Hn as (Hnd & Hdis & Hn). apply Forall_app in Hlow as [Hb Hlow].
  apply Forall_cons in Hch as [_ Hch]. apply Forall_cons in Hi as [_ Hi].
  assert (Hother : forall x, x ∈ R -> forall d, d ∈ q_descs r -> d ∉ q_descs x).
  { intros x Hx d Hd1 Hd2. apply (Hdis d Hd1). rewrite elem_descs. eauto. }
  split; cbn [unfill freed vq_desc vq_ops vq_free vq_info set_vq_ops set_vq_desc set_vq_info set_vq_free].
  - by rewrite !length_insert, length_alter.
  - rewrite Forall_forall in Hch |- *. intros x Hx. apply chain_unfill; [by apply Hch|by apply Hother].
  - rewrite Forall_forall in Hi |- *. intros x Hx. rewrite list_lookup_alter_ne; [by apply Hi|].
    intros E. apply (Hother x Hx (q0 r)); apply q_descs_elem; auto.
  - done.
  - done.
  - intros d Hdn. rewrite lookup_insert3 by (rewrite ?L2; done). rewrite Hfr by done.
    assert (Hq : d ∈ q_descs r -> d ∉ descs R) by auto. rewrite q_descs_elem in Hq.
    destruct (decide (d ∈ q_descs r ++ descs R)) as [Hin|Hni]; rewrite elem_of_app, q_descs_elem in *;
      repeat (case_decide; try tauto).
  - intros d Hdn Hni. rewrite lookup_insert3 by (rewrite ?L1; done). repeat (case_decide; [done|]).
    apply Hz; [done|]. rewrite elem_of_app, q_descs_elem. tauto.
Qed.

(** ** The queue and its operations *)

Lemma vq_perm v Q D S S' : S ≡ₚ S' -> vq_ok v Q D S -> vq_ok v Q D S'.
Proof. intros E []. split; [|done..|by rewrite <- E]. eapply core_perm; [|done]. by rewrite E. Qed.

Definition submitted (r : request) (v : vdisk) : vdisk :=
  set_vq_regs ((VIRTIO_MMIO_QUEUE_NOTIFY, 0) :: vq_regs v)
   (set_avail_idx (u16 (avail_idx v + 1))
   (set_avail_ring (<[slot_of (avail_idx v) := Z.of_nat (q0 r)]> (avail_ring v)) (fill r v))).

Lemma vq_submitted v Q D S r :
  vq_ok v Q D S -> NoDup (q_descs r) ->
  Forall (fun d => (d < num)%nat /\ d ∉ descs (Q ++ D ++ S)) (q_descs r) ->
  vq_ok (submitted r v) (Q ++ [r]) D S.
Proof.
  intros [Hc Hl [Ha Hr] Hu Hi Hs] Hnd Hf. pose proof (vq_few _ _ Hc) as Hfew. rewrite !length_app in Hfew.
  assert (Hst : Forall (fun x => q0 x <> q0 r) (D ++ S)).
  { apply Forall_forall. intros x Hx E. apply Forall_and in Hf as [_ Hd]. rewrite Forall_forall in Hd.
    apply (Hd (q0 r)); [apply q_descs_elem; auto|]. rewrite elem_descs. exists x. split; [set_solver|]. apply q_descs_elem. auto. }
  split; cbn [submitted fill avail_ring dev_ring avail_idx dev_seen dev_idx used_idx vq_info set_vq_regs set_avail_idx
    set_avail_ring set_vq_ops set_vq_desc set_vq_info set_vq_free].
  - eapply core_perm; [|eapply core_same; [..|by apply (core_fill v (Q ++ D ++ S) r)]]; try done.
    rewrite <- app_assoc. apply Permutation_middle.
  - by rewrite length_insert.
  - rewrite length_app, Ha. cbn [length]. split; [unfold u16; zdm|].
    rewrite <- (Z.add_0_r (u16 _)), slot_u16, Z.add_0_r. apply vring_snoc; [by destruct Hl|unfold num; lia|done].
  - done.
  - done.
  - rewrite Forall_forall in Hs, Hst |- *. intros x Hx. rewrite list_lookup_insert_ne; [by apply Hs|].
    intros E. by apply (Hst x Hx).
Qed.

(** The device has transferred the block: the status is 0 and the head of the
    chain is in the used ring. *)
Definition served (h : nat) (v : vdisk) : vdisk :=
  set_vq_info (alter (set_vi_status 0) h (vq_info v))
   (set_dev_ring (<[slot_of (dev_idx v) := Z.of_nat h]> (dev_ring v))
   (set_dev_idx (u16 (dev_idx v + 1)) (set_dev_seen (u16 (dev_seen v + 1)) v))).

Lemma vq_served v Q D S r : vq_ok v (r :: Q) D S -> vq_ok (served (q0 r) v) Q (D ++ [r]) S.
Proof.
  intros [Hc Hl [Ha Hr] [Hu Hur] Hi Hs]. pose proof (vq_few _ _ Hc) as Hfew. cbn [app length] in Hfew. rewrite !length_app in Hfew.
  assert (Hlt : (q0 r < length (vq_info v))%nat).
  { destruct (core_head _ _ r Hc) as (? & _); [by left|]. destruct Hc as [(_ & _ & -> & _)]. done. }
  split; cbn [served avail_ring dev_ring avail_idx dev_seen dev_idx used_idx vq_info set_vq_info set_dev_ring set_dev_idx set_dev_seen].
  - eapply core_perm; [|eapply core_same; [..|exact Hc]]; cbn [vq_desc vq_free vq_ops vq_info served set_vq_info]; try done.
    + rewrite <- (app_assoc D). cbn [app]. rewrite !(app_assoc Q D). apply Permutation_middle.
    + by apply fmap_alter_same.
  - by rewrite length_insert.
  - rewrite Ha. split; [cbn [length]; unfold u16; zdm|]. by eapply ring_tail.
  - rewrite length_app, Hu. cbn [length]. split; [unfold u16; zdm|].
    rewrite <- (Z.add_0_r (u16 _)), slot_u16, Z.add_0_r. apply vring_snoc; [by destruct Hl|unfold num; lia|done].
  - split; [by destruct Hi|apply u16_range].
  - rewrite <- app_assoc. rewrite Forall_forall in Hs |- *. intros x Hx. destruct (decide (q0 x = q0 r)) as [E|Hne].
    + rewrite E, list_lookup_alter_eq. apply lookup_lt_is_Some in Hlt as [n ->]. done.
    + rewrite list_lookup_alter_ne by auto. apply Hs. rewrite !elem_of_app, list_elem_of_singleton in Hx. rewrite elem_of_app.
      destruct Hx as [?|[->|?]]; [auto|done|auto].
Qed.

Lemma vq_seen v Q D S r : vq_ok v Q (r :: D) S -> vq_ok (set_used_idx (u16 (used_idx v + 1)) v) Q D (r :: S).
Proof.
  intros [Hc Hl Ha [Hu Hur] Hi Hs].
  split; cbn [avail_ring dev_ring avail_idx dev_seen dev_idx used_idx vq_info set_used_idx]; try done.
  - eapply core_perm; [|eapply core_same; [..|exact Hc]]; try done. f_equiv. apply Permutation_middle.
  - rewrite Hu. split; [cbn [length]; unfold u16; zdm|]. by eapply ring_tail.
  - split; [apply u16_range|by destruct Hi].
  - by rewrite <- Permutation_middle.
Qed.

Lemma vq_finished v Q D S r : vq_ok v Q D (r :: S) -> vq_ok (unfill r v) Q D S.
Proof.
  intros [Hc Hl Ha Hu Hi Hs].
  assert (Hc' : vq_core v (r :: Q ++ D ++ S)) by (eapply core_perm; [|exact Hc]; by rewrite (app_assoc Q), <- Permutation_middle, app_assoc).
  split; cbn [unfill freed avail_ring dev_ring avail_idx dev_seen dev_idx used_idx vq_info set_vq_info set_vq_free set_vq_desc]; try done.
  - by apply core_unfill.
  - rewrite <- Permutation_middle in Hs. apply Forall_cons in Hs as [_ Hs]. rewrite Forall_forall in Hs |- *. intros x Hx.
    rewrite list_lookup_alter_ne; [by apply Hs|]. intros E. destruct Hc' as [_ _ _ Hn _ _ _].
    rewrite descs_cons in Hn. apply NoDup_app in Hn as (_ & Hn & _). apply (Hn (q0 r)); [apply q_descs_elem; auto|].
    apply elem_descs. exists x. split; [set_solver|]. apply q_descs_elem. auto.
Qed.

(** ** The driver's routines *)

Section Ops.
Context `{Linker} `{VirtioMmio}.
Implicit Types (s : kernel) (v : vdisk).

Definition with_vd v s : kernel := set_pfs (set_vdk v (pfs s)) s.

Lemma gvd_wp {A} (f : vdisk -> A) s (Q : A -> kernel -> Prop) : Q (f (vdk (pfs s))) s -> wp (gvd f) s Q.
Proof. intros HQ. by apply iogets_wp. Qed.

Lemma uvd_wp f s (Q : unit -> kernel -> Prop) : Q tt (with_vd (f (vdk (pfs s))) s) -> wp (uvd f) s Q.
Proof. intros HQ. by apply iomod_wp. Qed.

Lemma get_free_wp d x s (Q : Z -> kernel -> Prop) : vq_free (vdk (pfs s)) !! d = Some x -> Q x s -> wp (get_free d) s Q.
Proof. intros Hx HQ. unfold get_free. wp_step. apply gvd_wp. rewrite Hx. by wp_step. Qed.

Lemma get_desc_wp (d : nat) x s (Q : virtq_desc -> kernel -> Prop) :
  vq_desc (vdk (pfs s)) !! d = Some x -> Q x s -> wp (get_desc (Z.of_nat d)) s Q.
Proof. intros Hx HQ. unfold get_desc. wp_step. apply gvd_wp. rewrite Nat2Z.id, Hx. by wp_step. Qed.

Lemma get_info_wp (d : nat) x s (Q : vinfo -> kernel -> Prop) :
  vq_info (vdk (pfs s)) !! d = Some x -> Q x s -> wp (get_info (Z.of_nat d)) s Q.
Proof. intros Hx HQ. unfold get_info. wp_step. apply gvd_wp. rewrite Nat2Z.id, Hx. by wp_step. Qed.

(** A routine that changes the queue to [v] and wakes processes. *)
Definition vframe (i : nat) s v s' : Prop := kframe i s s' /\ pfs s' = set_vdk v (pfs s).

Lemma vframe_trans i s1 v1 s2 v2 s3 : vframe i s1 v1 s2 -> vframe i s2 v2 s3 -> vframe i s1 v2 s3.
Proof. intros [A A'] [B B']. split; [by eapply kframe_trans|]. by rewrite B', A'. Qed.

Lemma vframe_vdk i s v s' : vframe i s v s' -> vdk (pfs s') = v.
Proof. by intros [_ ->]. Qed.

Lemma vframe_refl i s : vframe i s (vdk (pfs s)) s.
Proof. split; [apply kframe_refl|]. by destruct (pfs s). Qed.

Lemma free_desc_wp held i s d (Q : unit -> kernel -> Prop) :
  kready held i s -> (d < num)%nat -> vq_free (vdk (pfs s)) !! d = Some 0 ->
  (forall s', vframe i s (freed d (vdk (pfs s))) s' -> Q tt s') -> wp (free_desc d) s Q.
Proof.
  intros Hr Hd Hf HQ. unfold free_desc. destruct (Z.leb_spec NUM (Z.of_nat d)) as [Hle|_]; [unfold NUM, num in *; lia|].
  wp_step. apply (get_free_wp d 0); [done|]. change (ctrue 0) with false. cbv iota.
  unfold upd_desc, set_free. do 5 (wp_step; apply uvd_wp).
  apply (k_wakeup held i); [eapply kready_frame; [exact Hr|]; repeat (eapply kframe_trans; [|apply kframe_pfs]); apply kframe_refl|].
  intros s2 Hk Hp. apply HQ. split.
  - eapply kframe_trans; [|exact Hk]. repeat (eapply kframe_trans; [|apply kframe_pfs]). apply kframe_refl.
  - rewrite Hp. unfold with_vd, freed. cbn [pfs set_pfs vdk set_vdk vq_desc vq_free set_vq_desc set_vq_free].
    rewrite !list_alter_alter_eq, (list_insert_alter _ d desc0). done.
Qed.

Lemma alloc_desc_loop_wp ds s (Q : option nat -> kernel -> Prop) :
  Forall (fun d => is_Some (vq_free (vdk (pfs s)) !! d)) ds ->
  (forall d x, d ∈ ds -> vq_free (vdk (pfs s)) !! d = Some x -> x <> 0 ->
     Q (Some d) (with_vd (set_vq_free (<[d := 0]> (vq_free (vdk (pfs s)))) (vdk (pfs s))) s)) ->
  ((forall d, d ∈ ds -> vq_free (vdk (pfs s)) !! d = Some 0) -> Q None s) ->
  wp (alloc_desc_loop ds) s Q.
Proof.
  induction ds as [|d ds IH]; intros Hall Hsome Hnone; cbn [alloc_desc_loop].
  { apply wp_ret, Hnone. intros d Hd. by apply not_elem_of_nil in Hd. }
  apply Forall_cons in Hall as [[x Hx] Hall]. wp_step. apply (get_free_wp d x); [done|]. unfold ctrue.
  destruct (Z.eqb_spec x 0) as [->|Hne]; cbn [negb].
  - apply IH; [done| |].
    + intros d' x' Hd'. apply Hsome. by right.
    + intros Hz. apply Hnone. intros d' [->|Hd']%elem_of_cons; auto.
  - unfold set_free. wp_step. apply uvd_wp. wp_step. apply (Hsome d x); [left|done|done].
Qed.

(** What [alloc_desc] does when the descriptors [tk] are taken. *)
Definition taken v (tk : list nat) : Prop :=
  length (vq_free v) = num /\ forall d, (d < num)%nat -> vq_free v !! d = Some (if decide (d ∈ tk) then 0 else 1).

Definition take1 (d : nat) v : vdisk := set_vq_free (<[d := 0]> (vq_free v)) v.

Lemma taken_take1 v tk d : (d < num)%nat -> taken v tk -> taken (take1 d v) (d :: tk).
Proof.
  intros Hd [Hl Ht]. split; cbn [take1 vq_free set_vq_free]; [by rewrite length_insert|]. intros k Hk.
  destruct (decide (k = d)) as [->|Hne].
  - rewrite list_lookup_insert_eq by lia. by rewrite decide_True by left.
  - rewrite list_lookup_insert_ne, Ht by done. f_equal. apply decide_ext. rewrite elem_of_cons. tauto.
Qed.

Lemma alloc_desc_wp tk s (Q : option nat -> kernel -> Prop) :
  taken (vdk (pfs s)) tk ->
  (forall d, (d < num)%nat -> d ∉ tk -> Q (Some d) (with_vd (take1 d (vdk (pfs s))) s)) ->
  ((forall d, (d < num)%nat -> d ∈ tk) -> Q None s) ->
  wp alloc_desc s Q.
Proof.
  intros [Hl Ht] Hs Hn. apply alloc_desc_loop_wp.
  - apply Forall_forall. intros d Hd%elem_of_seq. apply lookup_lt_is_Some. lia.
  - intros d x Hd%elem_of_seq Hx Hne. apply Hs; [lia|]. intros Hin. rewrite Ht, decide_True in Hx by (done || lia). congruence.
  - intros Hz. apply Hn. intros d Hd. specialize (Hz d). rewrite Ht in Hz by done. rewrite elem_of_seq in Hz.
    case_decide; [done|]. by discriminate Hz; lia.
Qed.

(** The marks are determined by which descriptors are taken. *)
Lemma taken_eq v v' tk tk' : taken v tk -> taken v' tk' -> (forall d, d ∈ tk <-> d ∈ tk') -> vq_free v = vq_free v'.
Proof.
  intros [L T] [L' T'] E. apply list_eq. intros d. destruct (decide (d < num)%nat) as [Hd|Hd].
  - rewrite T, T' by done. f_equal. by apply decide_ext.
  - rewrite !lookup_ge_None_2 by lia. done.
Qed.

Lemma set_vq_free_id v : set_vq_free (vq_free v) v = v.
Proof. by destruct v. Qed.

(** A descriptor that was only marked is given back. *)
Lemma freed_marked v fl d : vq_desc v !! d = Some desc0 -> freed d (set_vq_free fl v) = set_vq_free (<[d := 1]> fl) v.
Proof.
  intros Hd. unfold freed. cbn [vq_free vq_desc set_vq_free set_vq_desc]. rewrite (list_insert_id (vq_desc v)) by done. by destruct v.
Qed.

Lemma taken_freed v fl d tk :
  (d < num)%nat -> d ∉ tk -> taken (set_vq_free fl v) (d :: tk) -> taken (set_vq_free (<[d := 1]> fl) v) tk.
Proof.
  intros Hd Hn [Hl Ht]. split; cbn [vq_free set_vq_free] in *; [by rewrite length_insert|]. intros k Hk.
  destruct (decide (k = d)) as [->|Hne].
  - rewrite list_lookup_insert_eq by lia. by rewrite decide_False.
  - rewrite list_lookup_insert_ne, Ht by done. f_equal. apply decide_ext. rewrite elem_of_cons. tauto.
Qed.

Lemma free_descs_wp held i idx s v tk fl (Q : unit -> kernel -> Prop) :
  kready held i s -> vdk (pfs s) = set_vq_free fl v -> taken (set_vq_free fl v) (idx ++ tk) -> taken v tk ->
  NoDup (idx ++ tk) -> Forall (fun d => (d < num)%nat /\ vq_desc v !! d = Some desc0) idx ->
  (forall s', vframe i s v s' -> Q tt s') -> wp (free_descs idx) s Q.
Proof.
  revert s fl. induction idx as [|d idx IH]; intros s fl Hr Hv Ht Htv Hnd Hf HQ; cbn [free_descs].
  { apply wp_ret, HQ. replace v with (vdk (pfs s)); [apply vframe_refl|]. rewrite Hv.
    pose proof (taken_eq _ _ _ _ Ht Htv (fun d => iff_refl _)) as E. cbn [vq_free set_vq_free] in E. by rewrite E, set_vq_free_id. }
  apply Forall_cons in Hf as [[Hd Hz] Hf]. cbn [app] in *. apply NoDup_cons in Hnd as [Hni Hnd]. wp_step.
  apply (free_desc_wp held i); [done|done| |].
  { rewrite Hv. destruct Ht as [_ Ht]. rewrite Ht by done. by rewrite decide_True by left. }
  rewrite Hv, freed_marked by done. intros s1 H1.
  apply (IH s1 (<[d := 1]> fl)); [|by eapply vframe_vdk|by apply taken_freed|done|done|done|].
  - eapply kready_frame; [exact Hr|apply H1].
  - intros s' H2. apply HQ. by eapply vframe_trans.
Qed.

(** Descriptors are marked one after the other, or all are given back. *)
Lemma alloc3_loop_wp held i k idx s v tk fl (Q : option (list nat) -> kernel -> Prop) :
  kready held i s -> vdk (pfs s) = set_vq_free fl v -> taken (set_vq_free fl v) (idx ++ tk) -> taken v tk ->
  NoDup (idx ++ tk) -> Forall (fun d => (d < num)%nat) (idx ++ tk) ->
  (forall d, (d < num)%nat -> d ∉ tk -> vq_desc v !! d = Some desc0) ->
  (forall l fl' s', length l = k -> NoDup ((idx ++ l) ++ tk) -> Forall (fun d => (d < num)%nat) ((idx ++ l) ++ tk) ->
     taken (set_vq_free fl' v) ((idx ++ l) ++ tk) -> vframe i s (set_vq_free fl' v) s' -> Q (Some (idx ++ l)) s') ->
  ((num < length (idx ++ tk) + k)%nat -> forall s', vframe i s v s' -> Q None s') ->
  wp (alloc3_loop k idx) s Q.
Proof.
  revert s idx fl. induction k as [|k IH]; intros s idx fl Hr Hv Ht Htv Hnd Hlow Hz Hs Hn; cbn [alloc3_loop].
  { apply wp_ret. specialize (Hs [] fl s). rewrite app_nil_r in Hs. apply Hs; try done. rewrite <- Hv. apply vframe_refl. }
  wp_step. apply (alloc_desc_wp (idx ++ tk)); [by rewrite Hv| |].
  - intros d Hd Hni. rewrite Hv. change (take1 d (set_vq_free fl v)) with (set_vq_free (<[d := 0]> fl) v).
    assert (Hp : d :: idx ++ tk ≡ₚ (idx ++ [d]) ++ tk) by (rewrite <- app_assoc; apply Permutation_middle).
    assert (Hfr : vframe i s (set_vq_free (<[d := 0]> fl) v) (with_vd (set_vq_free (<[d := 0]> fl) v) s)).
    { split; [apply kframe_pfs|done]. }
    apply (IH _ (idx ++ [d]) (<[d := 0]> fl)); [|done| |done| | |done| |].
    + eapply kready_frame; [exact Hr|apply Hfr].
    + destruct (taken_take1 (set_vq_free fl v) (idx ++ tk) d Hd Ht) as [Hl1 Ht1]. split; [done|].
      intros e He. etransitivity; [exact (Ht1 e He)|]. f_equal. apply decide_ext. by rewrite Hp.
    + rewrite <- Hp. by constructor.
    + rewrite <- Hp. by constructor.
    + intros l fl' s' Hl Hnd' Hlow' Ht' Hf'.
      replace ((idx ++ [d]) ++ l) with (idx ++ d :: l) in * by (by rewrite <- app_assoc).
      apply (Hs (d :: l) fl' s'); [by rewrite <- Hl|done..|]. exact (vframe_trans _ _ _ _ _ _ Hfr Hf').
    + rewrite <- Hp. intros Hlt s' Hf'. apply Hn; [cbn in Hlt; lia|]. exact (vframe_trans _ _ _ _ _ _ Hfr Hf').
  - intros Hall. wp_step. apply (free_descs_wp held i idx s v tk fl); try done.
    + apply Forall_app in Hlow as [Hlow _]. apply NoDup_app in Hnd as (_ & Hdis & _). rewrite Forall_forall in Hlow |- *. auto.
    + intros s' Hf'. wp_step. apply Hn; [|done].
      assert (Hsub : seq 0 num ⊆ idx ++ tk) by (intros d Hd%elem_of_seq; apply Hall; lia).
      pose proof (submseteq_length _ _ (NoDup_submseteq _ _ (NoDup_seq 0 num) Hsub)) as Hle. rewrite length_seq in Hle. lia.
Qed.

Lemma core_taken v R : vq_core v R -> taken v (descs R).
Proof. intros []. split; [by destruct vc_len0 as (_ & ? & _)|done]. Qed.

Lemma alloc3_wp held i s R (Q : option (list nat) -> kernel -> Prop) :
  kready held i s -> vq_core (vdk (pfs s)) R ->
  (forall i0 i1 i2 s', NoDup [i0; i1; i2] -> Forall (fun d => (d < num)%nat /\ d ∉ descs R) [i0; i1; i2] ->
     vframe i s (take1 i2 (take1 i1 (take1 i0 (vdk (pfs s))))) s' -> Q (Some [i0; i1; i2]) s') ->
  (length R = 2%nat -> forall s', vframe i s (vdk (pfs s)) s' -> Q None s') ->
  wp alloc3_desc s Q.
Proof.
  intros Hr Hc Hs Hn. pose proof (core_taken _ _ Hc) as Ht. pose proof (vq_few _ _ Hc) as Hfew. destruct Hc.
  apply (alloc3_loop_wp held i 3 [] s (vdk (pfs s)) (descs R) (vq_free (vdk (pfs s)))); rewrite ?set_vq_free_id; try done.
  - intros l fl s' Hl Hnd Hlow Htk Hf. cbn [app] in *. destruct l as [|i0 [|i1 [|i2 [|]]]]; try done.
    apply NoDup_app in Hnd as (Hnd & Hdis & _). apply Forall_app in Hlow as [Hlow _].
    assert (Hall : Forall (fun d => (d < num)%nat /\ d ∉ descs R) [i0; i1; i2]).
    { apply Forall_and. split; [done|]. by apply Forall_forall. }
    apply Hs; [done|done|]. replace (take1 i2 _) with (set_vq_free fl (vdk (pfs s))); [done|].
    rewrite !Forall_cons in Hlow. destruct Hlow as (B0 & B1 & B2 & _).
    pose proof (taken_take1 _ _ i2 B2 (taken_take1 _ _ i1 B1 (taken_take1 _ _ i0 B0 Ht))) as Ht3.
    pose proof (taken_eq _ _ _ _ Htk Ht3) as E. cbn [vq_free set_vq_free] in E.
    rewrite E; [by destruct (vdk (pfs s))|]. intros d. cbn [app]. rewrite !elem_of_cons. tauto.
  - intros Hlt. cbn [app] in Hlt. rewrite length_descs in Hlt. apply Hn. unfold num in Hlt. lia.
Qed.

End Ops.
