(* ===== verification/VirtioSafe.v ===== *)
(** * The disk driver: requests, interrupts and the device

    The specifications of the routines that start a request, handle the
    interrupt and give the chain back; what the device does with a chain; and
    the driver as a system of callers, the device and the interrupt that take
    steps in any order. *)

From S2P Require Import Prelude Riscv Mem CString Kalloc Spinlock Proc ProcSpec IoState SleepLock Bio BioSpec Virtio VirtioSpec.

(** Run assignments to the queue, the state being given by its parts. *)
Ltac vd_cbn :=
  cbv beta iota delta [with_vd take1 zero_queue pk procs initproc nextpid ticks plk pfs set_pfs set_plk set_pk bufs dsk lg sb itable ftable cons urt panicked pr_locking
    devsw vdk set_vdk set_bufs set_dsk vq_desc avail_idx avail_ring dev_idx dev_ring vq_free used_idx vq_info vq_ops vq_pages vq_regs
    dev_seen set_vq_desc set_avail_idx set_avail_ring set_dev_idx set_dev_ring set_vq_free set_used_idx set_vq_info set_vq_ops
    set_vq_pages set_vq_regs set_dev_seen q0 q1 q2 q_buf q_write q_block].
Ltac uvd_run :=
  vd_cbn; repeat (lazymatch goal with |- wp (bind (uvd _) _) _ _ => apply wp_bind, uvd_wp; vd_cbn end).

Section Routines.
Context `{Linker} `{VirtioMmio}.
Implicit Types (s : kernel) (v : vdisk).

Definition req_of (b : nat) (write : bool) (n : Z) (i0 i1 i2 : nat) : request := Req i0 i1 i2 b write n.

(** The request [r] is in the avail ring and the disk has its buffer. *)
Definition started (r : request) (f : iost) : iost :=
  set_vdk (submitted r (vdk f)) (set_bufs (alter (set_b_disk 1) (q_buf r) (bufs f)) f).

Lemma rw_submit_wp s f b x write n i0 i1 i2 (Q : unit -> kernel -> Prop) :
  bufs f !! b = Some x -> pfs s = set_vdk (take1 i2 (take1 i1 (take1 i0 (vdk f)))) f ->
  Q tt (set_pfs (started (req_of b write n i0 i1 i2) f) s) ->
  wp (rw_submit b write (2 * n) i0 i1 i2) s Q.
Proof.
  intros Hx Hf HQ. destruct s as [k ps ip np tk lk io]. cbn [pfs] in Hf. subst io.
  destruct f as [bf dk g sp it ft cn ur pa pl dv vd]. destruct vd as [ds ai ar di dr fr ui inf ops pgs rgs seen].
  unfold rw_submit, upd_op, upd_desc, upd_info, mmio_w. uvd_run. rewrite ?list_alter_alter_eq. wp_step.
  apply (updb_wp _ b x); [exact Hx|]. vd_cbn. uvd_run. apply uvd_wp. vd_cbn.
  apply (eq_ind _ (Q tt) HQ). unfold started, submitted, fill, req_of. vd_cbn.
  rewrite !list_alter_alter_eq, !list_insert_alter. reflexivity.
Qed.

(** One turn of [free_chain]. *)
Lemma free_chain_step held i s fuel d x (Q : unit -> kernel -> Prop) :
  kready held i s -> (d < num)%nat -> vq_desc (vdk (pfs s)) !! d = Some x -> vq_free (vdk (pfs s)) !! d = Some 0 ->
  (forall s', kready held i s' -> vframe i s (freed d (vdk (pfs s))) s' ->
     wp (if ctrue (Z.land (d_flags x) VRING_DESC_F_NEXT) then free_chain_loop fuel (d_next x) else ret tt) s' Q) ->
  wp (free_chain_loop (S fuel) (Z.of_nat d)) s Q.
Proof.
  intros Hr Hd Hx Hf HQ. cbn [free_chain_loop]. wp_step. apply (get_desc_wp d x); [done|]. wp_step. rewrite Nat2Z.id.
  apply (free_desc_wp held i); [done|done|done|]. intros s' Hv. apply HQ; [|done]. eapply kready_frame; [done|apply Hv].
Qed.

(** The chain of [r] is given back, head first. *)
Lemma free_chain_wp held i s r (Q : unit -> kernel -> Prop) :
  kready held i s -> chain (vdk (pfs s)) r -> NoDup (q_descs r) ->
  Forall (fun d => (d < num)%nat /\ vq_free (vdk (pfs s)) !! d = Some 0) (q_descs r) ->
  (forall s', vframe i s (freed (q2 r) (freed (q1 r) (freed (q0 r) (vdk (pfs s))))) s' -> Q tt s') ->
  wp (free_chain (Z.of_nat (q0 r))) s Q.
Proof.
  intros Hr (_ & C0 & C1 & C2) (E01 & E02 & E12)%q_descs_ne Hf HQ.
  unfold q_descs in Hf. rewrite !Forall_cons in Hf. destruct Hf as ((B0 & F0) & (B1 & F1) & (B2 & F2) & _).
  apply (free_chain_step held i s 8 (q0 r) _ Q Hr B0 C0 F0). intros s1 R1 V1.
  cbn [d_flags d_next]. change (ctrue _) with true. cbv iota. pose proof (vframe_vdk _ _ _ _ V1) as E1.
  eapply (free_chain_step held i s1 7 (q1 r) _ Q R1 B1).
  { rewrite E1. cbn [freed vq_desc set_vq_free set_vq_desc]. by rewrite list_lookup_insert_ne. }
  { rewrite E1. cbn [freed vq_free set_vq_free set_vq_desc]. by rewrite list_lookup_insert_ne. }
  intros s2 R2 V2. cbn [d_flags d_next]. replace (ctrue _) with true by (by destruct (q_write r)).
  pose proof (vframe_vdk _ _ _ _ V2) as E2. rewrite E1 in E2.
  eapply (free_chain_step held i s2 6 (q2 r) _ Q R2 B2).
  { rewrite E2. cbn [freed vq_desc set_vq_free set_vq_desc]. by rewrite !list_lookup_insert_ne. }
  { rewrite E2. cbn [freed vq_free set_vq_free set_vq_desc]. by rewrite !list_lookup_insert_ne. }
  intros s3 R3 V3. cbn [d_flags d_next]. change (ctrue _) with false. cbv iota. apply wp_ret, HQ.
  rewrite E2 in V3. eapply vframe_trans; [exact V1|]. eapply vframe_trans; [exact V2|exact V3].
Qed.

(** ** Starting a request *)

(** The request is in flight; or there is no room and the caller sleeps. *)
Lemma rw_start_wp i s b x write Qs D S (Q : nat -> kernel -> Prop) :
  kready [] i s -> vq_ok (vdk (pfs s)) Qs D S -> bufs (pfs s) !! b = Some x ->
  (length (Qs ++ D ++ S) < 2)%nat ->
  (forall r s', q_buf r = b -> q_write r = write -> q_block r = b_blockno x mod 2 ^ 31 ->
     NoDup (q_descs r) -> Forall (fun d => (d < num)%nat /\ d ∉ descs (Qs ++ D ++ S)) (q_descs r) ->
     inside VdiskLock i s s' -> pfs s' = started r (pfs s) -> Q (q0 r) s') ->
  wp (rw_start b write) s Q.
Proof.
  intros Hr Hv Hx Hlen HQ. unfold rw_start. wp_step. apply (getb_wp s b x); [done|]. wp_step.
  apply (k_acq [] i); [done|apply not_elem_of_nil|simpl; lia|done|]. intros s1 I1 R1 P1. wp_step.
  apply (alloc3_wp [VdiskLock] i s1 (Qs ++ D ++ S)); [done|rewrite P1; apply Hv| |lia].
  intros i0 i1 i2 s2 Hnd Hall [K2 P2]. wp_step.
  replace (u32 _) with (2 * (b_blockno x mod 2 ^ 31)) by (unfold u32, BSIZE; change (1024 / 512) with 2; zdm).
  apply (rw_submit_wp s2 (pfs s) b x); [done|by rewrite P2, P1|]. apply wp_ret.
  apply (HQ (req_of b write (b_blockno x mod 2 ^ 31) i0 i1 i2)); try done.
  eapply inside_frame; [exact Hr|exact I1|]. eapply kframe_trans; [exact K2|apply kframe_pfs].
Qed.

(** With two requests in flight the next caller waits. *)
Lemma rw_start_full i s b x write Qs D S :
  kready [] i s -> vq_ok (vdk (pfs s)) Qs D S -> bufs (pfs s) !! b = Some x -> length (Qs ++ D ++ S) = 2%nat ->
  rw_start b write s = Fail (EBlock "virtio_disk_rw").
Proof.
  intros Hr Hv Hx Hlen. unfold rw_start. apply bind_fail_r, (getb_wp s b x); [done|].
  apply bind_fail_r, (k_acq [] i); [done|apply not_elem_of_nil|simpl; lia|done|]. intros s1 I1 R1 P1.
  apply bind_fail_r, (alloc3_wp [VdiskLock] i s1 (Qs ++ D ++ S)); [done|rewrite P1; apply Hv| |done].
  intros i0 i1 i2 s2 Hnd Hall _. exfalso. pose proof (core_fill _ _ (req_of b write 0 i0 i1 i2) (vo_core _ _ _ _ Hv) Hnd Hall) as Hc.
  apply vq_few in Hc. cbn [length] in Hc. lia.
Qed.

(** ** Giving the chain back *)

Lemma core_marked v R r : vq_core v R -> r ∈ R -> NoDup (q_descs r) /\ chain v r /\
  Forall (fun d => (d < num)%nat /\ vq_free v !! d = Some 0) (q_descs r).
Proof.
  intros Hc Hr. pose proof Hc as [_ Hch _ Hn Hl Hf _]. rewrite Forall_forall in Hch. rewrite Forall_forall in Hl. split; [|split; [by apply Hch|]].
  - apply elem_of_Permutation in Hr as [R' HR]. rewrite (descs_perm _ _ HR), descs_cons in Hn. by apply NoDup_app in Hn as [? _].
  - apply Forall_forall. intros d Hd. assert (Hin : d ∈ descs R) by (apply elem_descs; eauto).
    split; [by apply Hl|]. rewrite Hf by (by apply Hl). by rewrite decide_True.
Qed.

Lemma rw_finish_wp i s s1 r R (Q : unit -> kernel -> Prop) :
  kready [] i s -> inside VdiskLock i s s1 -> vq_core (vdk (pfs s1)) R -> r ∈ R ->
  (forall s', kframe i s s' -> pfs s' = set_vdk (unfill r (vdk (pfs s1))) (pfs s1) -> Q tt s') ->
  wp (rw_finish (q0 r)) s1 Q.
Proof.
  intros Hr Hin Hc HrR HQ. unfold rw_finish, upd_info. wp_step. apply uvd_wp. wp_step.
  destruct (core_marked _ _ _ Hc HrR) as (Hnd & Hch & Hm).
  assert (R1 : kready [VdiskLock] i s1) by (eapply kready_inside; try done; [apply not_elem_of_nil|simpl; lia]).
  set (v1 := set_vq_info _ _). apply (free_chain_wp [VdiskLock] i (with_vd v1 s1) r); [|done|done|done|].
  { eapply kready_frame; [exact R1|apply kframe_pfs]. }
  intros s2 [K2 P2]. apply (k_rel [] i s); [done|apply not_elem_of_nil| |].
  - eapply inside_frame; [done|exact Hin|]. eapply kframe_trans; [apply kframe_pfs|exact K2].
  - intros s3 K3 P3. apply HQ; [done|]. by rewrite P3, P2.
Qed.

(** ** The interrupt *)

(** The completion of [r] has been seen and its buffer given back. *)
Definition seen (f : iost) (r : request) : iost :=
  set_vdk (set_used_idx (u16 (used_idx (vdk f) + 1)) (vdk f)) (set_bufs (alter (set_b_disk 0) (q_buf r) (bufs f)) f).

Lemma elem_info v R r : vq_core v R -> r ∈ R -> exists st, vq_info v !! q0 r = Some (VInfo (Some (q_buf r)) st).
Proof.
  intros [_ _ Hi _ _ _ _] Hr. rewrite Forall_forall in Hi. specialize (Hi r Hr). cbn beta in Hi.
  destruct (vq_info v !! q0 r) as [[b st]|]; [|done]. injection Hi as ->. eauto.
Qed.

Lemma intr_loop_wp held i s Qs D S (Q : unit -> kernel -> Prop) :
  kready held i s -> vq_ok (vdk (pfs s)) Qs D S -> Forall (fun r => is_Some (bufs (pfs s) !! q_buf r)) D ->
  (forall s', kframe i s s' -> pfs s' = foldl seen (pfs s) D -> Q tt s') ->
  wp (intr_loop (Datatypes.S (length D))) s Q.
Proof.
  revert s S. induction D as [|r D IH]; intros s S Hr Hv Hb HQ;
    [|set (n := length (r :: D))]; cbn [intr_loop]; wp_step; apply gvd_wp; wp_step; apply gvd_wp.
  - destruct (vo_used _ _ _ _ Hv) as [Hu _]. pose proof (vo_idx _ _ _ _ Hv) as [? _]. rewrite Hu, Z.add_0_r, u16_small, Z.eqb_refl by done.
    apply wp_ret, HQ; [apply kframe_refl|done].
  - destruct (vo_used _ _ _ _ Hv) as [Hu Hur]. pose proof (vo_idx _ _ _ _ Hv) as [Hi _].
    pose proof (vq_few _ _ (vo_core _ _ _ _ Hv)) as Hfew. rewrite !length_app in Hfew. cbn [length] in Hfew.
    destruct (Z.eqb_spec (used_idx (vdk (pfs s))) (dev_idx (vdk (pfs s)))) as [E|_].
    { exfalso. rewrite Hu in E. cbn [length] in E. unfold u16 in E. zdm. }
    assert (Hhd : dev_ring (vdk (pfs s)) !! slot_of (used_idx (vdk (pfs s))) = Some (Z.of_nat (q0 r))).
    { specialize (Hur 0%nat r eq_refl). by rewrite Z.add_0_r in Hur. }
    wp_step. apply gvd_wp. change (Z.to_nat (?x mod NUM)) with (slot_of x). rewrite Hhd. wp_step. wp_step. wp_step.
    assert (HrR : r ∈ Qs ++ (r :: D) ++ S) by set_solver.
    destruct (elem_info _ _ _ (vo_core _ _ _ _ Hv) HrR) as [st Hst].
    assert (st = 0) as ->.
    { pose proof (vo_status _ _ _ _ Hv) as Hs. apply Forall_cons in Hs as [Hs _]. rewrite Hst in Hs. by injection Hs. }
    apply (get_info_wp _ _ _ _ Hst). change (ctrue _) with false. cbv iota. cbn [vi_b]. wp_step.
    apply Forall_cons in Hb as [[x Hx] Hb]. apply (updb_wp _ _ x); [done|]. wp_step.
    apply (k_wakeup held i); [eapply kready_frame; [exact Hr|apply kframe_pfs]|]. intros s2 K2 P2. cbn [pfs set_pfs] in P2.
    wp_step. apply uvd_wp. unfold n. cbn [length]. apply (IH _ (r :: S)).
    + eapply kready_frame; [exact Hr|]. eapply kframe_trans; [apply kframe_pfs|]. eapply kframe_trans; [exact K2|apply kframe_pfs].
    + unfold with_vd. cbn [pfs set_pfs vdk set_vdk]. rewrite P2. by apply vq_seen.
    + unfold with_vd. cbn [pfs set_pfs bufs set_vdk]. rewrite P2. cbn [bufs set_bufs]. eapply Forall_impl; [exact Hb|].
      intros y [z Hz]. destruct (decide (q_buf y = q_buf r)) as [E|Hne].
      * rewrite E, list_lookup_alter_eq, Hx. eauto.
      * rewrite list_lookup_alter_ne, Hz by auto. eauto.
    + intros s' K' P'. apply HQ.
      * eapply kframe_trans; [apply kframe_pfs|]. eapply kframe_trans; [exact K2|]. eapply kframe_trans; [apply kframe_pfs|exact K'].
      * rewrite P'. unfold with_vd. cbn [pfs set_pfs foldl]. rewrite P2. done.
Qed.

Definition acked (f : iost) : iost :=
  set_vdk (set_vq_regs ((VIRTIO_MMIO_INTERRUPT_ACK,
    u32 (Z.land (u32 (mmio_read (vq_regs (vdk f)) VIRTIO_MMIO_INTERRUPT_STATUS)) 3)) :: vq_regs (vdk f)) (vdk f)) f.

Lemma vq_ok_regs v Qs D S rs : vq_ok v Qs D S -> vq_ok (set_vq_regs rs v) Qs D S.
Proof. intros [Hc]. split; try done. by eapply core_same; [..|exact Hc]. Qed.

Lemma virtio_disk_intr_wp i s Qs D S (Q : unit -> kernel -> Prop) :
  kready [] i s -> vq_inv (pfs s) Qs D S ->
  (forall s', kframe i s s' -> pfs s' = foldl seen (acked (pfs s)) D -> Q tt s') ->
  wp virtio_disk_intr s Q.
Proof.
  intros Hr [Hv (_ & Hb & _)] HQ. unfold virtio_disk_intr, mmio_r, mmio_w. wp_step.
  apply (k_acq [] i); [done|apply not_elem_of_nil|simpl; lia|done|]. intros s1 I1 R1 P1.
  wp_step. apply gvd_wp. wp_step. apply uvd_wp. wp_step. apply gvd_wp. wp_step.
  set (s2 := with_vd _ s1). assert (P2 : pfs s2 = acked (pfs s)) by (unfold s2, with_vd; cbn [pfs set_pfs]; by rewrite P1).
  assert (R2 : kready [VdiskLock] i s2) by (eapply kready_frame; [exact R1|apply kframe_pfs]).
  assert (E : Z.to_nat (u16 (dev_idx (vdk (pfs s2)) - used_idx (vdk (pfs s2)))) = length D).
  { rewrite P2. cbn [acked vdk set_vdk dev_idx used_idx set_vq_regs]. destruct (vo_used _ _ _ _ Hv) as [-> _].
    pose proof (vo_idx _ _ _ _ Hv) as [Hi _]. pose proof (vq_few _ _ (vo_core _ _ _ _ Hv)) as Hfew. rewrite !length_app in Hfew.
    unfold u16. zdm. }
  rewrite E. apply (intr_loop_wp [VdiskLock] i s2 Qs D S); [done|rewrite P2; by apply vq_ok_regs| |].
  - rewrite P2. cbn [acked bufs set_vdk]. apply Forall_app in Hb as [_ Hb]. eapply Forall_impl; [exact Hb|]. intros r (b & -> & _). eauto.
  - intros s3 K3 P3. apply (k_rel [] i s); [done|apply not_elem_of_nil| |].
    + eapply inside_frame; [done|exact I1|]. eapply kframe_trans; [apply kframe_pfs|exact K3].
    + intros s4 K4 P4. apply HQ; [done|]. by rewrite P4, P3, P2.
Qed.

End Routines.

(** ** Initialisation *)

(** What the driver expects to read from the registers of the device. *)
Record virtio_blk_regs `{VirtioMmio} : Prop := {
  rg_magic ws : mmio_read ws VIRTIO_MMIO_MAGIC_VALUE = 0x74726976;
  rg_version ws : mmio_read ws VIRTIO_MMIO_VERSION = 2;
  rg_device ws : mmio_read ws VIRTIO_MMIO_DEVICE_ID = 2;
  rg_vendor ws : mmio_read ws VIRTIO_MMIO_VENDOR_ID = 0x554d4551;
  rg_status x ws : mmio_read ((VIRTIO_MMIO_STATUS, x) :: ws) VIRTIO_MMIO_STATUS = x;
  rg_ready ws : (forall x, (VIRTIO_MMIO_QUEUE_READY, x) ∉ ws) -> mmio_read ws VIRTIO_MMIO_QUEUE_READY = 0;
  rg_max ws : 8 <= mmio_read ws VIRTIO_MMIO_QUEUE_NUM_MAX < 2 ^ 32;
}.

Section Init.
Context `{LinkerOk} `{VirtioMmio}.

Lemma free_all_wp ds s (Q : unit -> kernel -> Prop) :
  (forall fl, length fl = length (vq_free (vdk (pfs s))) ->
     (forall d, (d < length fl)%nat -> fl !! d = if decide (d ∈ ds) then Some 1 else vq_free (vdk (pfs s)) !! d) ->
     Q tt (with_vd (set_vq_free fl (vdk (pfs s))) s)) -> wp (free_all ds) s Q.
Proof.
  revert s. induction ds as [|d ds IH]; intros s HQ; cbn [free_all].
  - apply wp_ret. specialize (HQ (vq_free (vdk (pfs s)))). rewrite set_vq_free_id in HQ.
    replace (with_vd (vdk (pfs s)) s) with s in HQ by (by destruct s as [? ? ? ? ? ? []]). apply HQ; [done|].
    intros d _. by rewrite decide_False by apply not_elem_of_nil.
  - wp_step. unfold set_free. apply uvd_wp, IH. cbn [with_vd pfs set_pfs vdk set_vdk vq_free set_vq_free].
    intros fl Hl Hfl. rewrite length_insert in Hl. apply (HQ fl Hl). intros e He. rewrite (Hfl e He).
    destruct (decide (e ∈ ds)); [by rewrite decide_True by (by right)|]. destruct (decide (e = d)) as [->|Hne].
    + rewrite decide_True by left. apply list_lookup_insert_eq. lia.
    + rewrite decide_False by (by intros [?|?]%elem_of_cons). by apply list_lookup_insert_ne.
Qed.

Lemma mmio_r_wp r x s (Q : Z -> kernel -> Prop) :
  mmio_read (vq_regs (vdk (pfs s))) r = x -> 0 <= x < 2 ^ 32 -> Q x s -> wp (mmio_r r) s Q.
Proof. intros E Hx HQ. apply gvd_wp. by rewrite E, u32_small. Qed.

(** The queue of zeroed pages with every descriptor free. *)
Definition fresh_queue (v : vdisk) (pgs fl : list Z) (regs : list (Z * Z)) : vdisk :=
  set_vq_regs regs (set_vq_free fl (set_vq_pages pgs (zero_queue v))).

Lemma fresh_ok v pgs fl regs :
  length (vq_info v) = num -> length (vq_ops v) = num -> used_idx v = 0 -> dev_seen v = 0 -> length fl = num ->
  (forall d, (d < num)%nat -> fl !! d = Some 1) -> vq_ok (fresh_queue v pgs fl regs) [] [] [].
Proof.
  destruct v as [ds ai ar di dr fr ui inf ops pgs' rgs seen]. cbn [vq_info vq_ops used_idx dev_seen].
  intros L1 L2 -> -> Lf Hf. unfold fresh_queue, zero_queue. split; vd_cbn; cbn [app length].
  - split; vd_cbn; cbn [descs concat fmap list_fmap]; rewrite ?length_replicate; try done; try by constructor.
    intros d Hd _. by apply (lookup_replicate_2 num).
  - by rewrite !length_replicate.
  - split; [done|apply ring_nil].
  - split; [done|apply ring_nil].
  - lia.
  - constructor.
Qed.

Lemma kalloc_head_wp (s : kernel) p l (Q : Z -> kernel -> Prop) :
  free_rep (pk s) (p :: l) -> (forall k, p <> 0 -> free_rep k l -> Q p (set_pk k s)) -> wp (inmem kalloc) s Q.
Proof.
  intros Hf HQ. unfold inmem. wp_step. apply (kalloc_wp _ (p :: l)); [done|done|]. intros p' l' k' [= <- <-] Hp Hk _ _.
  apply HQ; [|done]. apply page_ok_nonzero in Hp. intros ->. done.
Qed.

(** Initialisation with three free pages leaves an empty queue. *)
Lemma virtio_disk_init_wp s p1 p2 p3 l :
  virtio_blk_regs -> free_rep (pk s) (p1 :: p2 :: p3 :: l) -> vq_regs (vdk (pfs s)) = [] ->
  length (vq_info (vdk (pfs s))) = num -> length (vq_ops (vdk (pfs s))) = num -> length (vq_free (vdk (pfs s))) = num ->
  used_idx (vdk (pfs s)) = 0 -> dev_seen (vdk (pfs s)) = 0 ->
  wp virtio_disk_init s (fun _ s' =>
    vq_ok (vdk (pfs s')) [] [] [] /\ vq_pages (vdk (pfs s')) = [p1; p2; p3] /\ bufs (pfs s') = bufs (pfs s)).
Proof.
  intros [Hmg Hvr Hdv Hvn Hst Hrd Hmx] Hfr. destruct s as [k ps ip np tk lk io]. destruct io as [bf dk g sp it ft cn ur pa pl dv vd].
  destruct vd as [ds ai ar di dr fr ui inf ops pgs rgs seen]. vd_cbn. intros -> L1 L2 L3 -> ->.
  unfold virtio_disk_init. wp_step. unfold inlk, initlock. do 2 wp_step. vd_cbn.
  wp_step. apply (mmio_r_wp _ 0x74726976); [apply Hmg|done|]. wp_step. apply (mmio_r_wp _ 2); [apply Hvr|done|].
  wp_step. apply (mmio_r_wp _ 2); [apply Hdv|done|]. wp_step. apply (mmio_r_wp _ 0x554d4551); [apply Hvn|done|].
  change (negb _ || _ || _ || _) with false. cbv iota. unfold mmio_w. uvd_run.
  wp_step. unfold mmio_r at 1. apply gvd_wp. uvd_run. wp_step. apply (mmio_r_wp _ 11); [apply Hst|done|].
  change (Z.land _ _ =? 0) with false. cbv iota. unfold init_queue, mmio_w. uvd_run.
  wp_step. apply (mmio_r_wp _ 0); [apply Hrd; intros x; vd_cbn; set_solver|done|]. change (ctrue 0) with false. cbv iota.
  wp_step. unfold mmio_r. apply gvd_wp. vd_cbn.
  match goal with |- context [mmio_read ?ws VIRTIO_MMIO_QUEUE_NUM_MAX] =>
    pose proof (Hmx ws) as Hm; set (mx := mmio_read ws VIRTIO_MMIO_QUEUE_NUM_MAX) in * end.
  rewrite u32_small by lia. destruct (Z.eqb_spec mx 0) as [|_]; [lia|]. destruct (Z.ltb_spec mx NUM) as [|_]; [unfold NUM in *; lia|].
  wp_step. apply (kalloc_head_wp _ p1 (p2 :: p3 :: l)); [exact Hfr|]. intros k1 N1 F1. vd_cbn.
  wp_step. apply (kalloc_head_wp _ p2 (p3 :: l)); [exact F1|]. intros k2 N2 F2. vd_cbn.
  wp_step. apply (kalloc_head_wp _ p3 l); [exact F2|]. intros k3 N3 F3. vd_cbn.
  uvd_run. rewrite (proj2 (Z.eqb_neq _ _) N1), (proj2 (Z.eqb_neq _ _) N2), (proj2 (Z.eqb_neq _ _) N3). cbn [orb].
  unfold phys_wr, inmem. do 9 wp_step. vd_cbn. uvd_run. wp_step. apply free_all_wp. vd_cbn. intros fl Hl Hfl.
  apply uvd_wp. vd_cbn. split; [|done].
  match goal with |- vq_ok ?v _ _ _ => change (vq_ok (fresh_queue v [p1; p2; p3] fl (vq_regs v)) [] [] []) end.
  apply fresh_ok; try done; [congruence|]. intros d Hd. rewrite Hfl by lia. rewrite decide_True; [done|]. apply elem_of_seq. lia.
Qed.

End Init.

(** ** Moving a request from list to list *)

Lemma vbufs_alter bs Q D S b g : b ∉ (q_buf <$> Q ++ D ++ S) -> vbufs bs Q D S -> vbufs (alter g b bs) Q D S.
Proof.
  intros Hb (Hn & H1 & H0).
  assert (Hl : forall r, r ∈ Q ++ D ++ S -> alter g b bs !! q_buf r = bs !! q_buf r).
  { intros r Hr. apply list_lookup_alter_ne. intros ->. apply Hb, list_elem_of_fmap. eauto. }
  split_and!; [done| |]; rewrite Forall_forall in *; intros r Hr; (rewrite Hl; [auto|]); rewrite app_assoc, elem_of_app; auto.
Qed.

Lemma vbufs_buf bs Q D S r x :
  bs !! q_buf r = Some x -> b_disk x = 1 -> q_buf r ∉ (q_buf <$> Q ++ D ++ S) -> vbufs bs Q D S -> vbufs bs (Q ++ [r]) D S.
Proof.
  intros Hx Hd Hb (Hn & H1 & H0). split_and!; [| |done].
  - rewrite <- app_assoc. cbn [app]. rewrite <- Permutation_middle. cbn. by constructor.
  - rewrite <- app_assoc. cbn [app]. rewrite <- Permutation_middle. constructor; eauto.
Qed.

Lemma inv_started f Q D S r x :
  vq_inv f Q D S -> bufs f !! q_buf r = Some x -> q_buf r ∉ (q_buf <$> Q ++ D ++ S) -> NoDup (q_descs r) ->
  Forall (fun d => (d < num)%nat /\ d ∉ descs (Q ++ D ++ S)) (q_descs r) -> vq_inv (started r f) (Q ++ [r]) D S.
Proof.
  intros [Hv Hb] Hx Hni Hnd Hf. split; cbn [started vdk set_vdk bufs set_bufs]; [by apply vq_submitted|].
  eapply vbufs_buf; [by rewrite list_lookup_alter_eq, Hx|done|done|]. by apply vbufs_alter.
Qed.

Lemma inv_seen f Q D S r : vq_inv f Q (r :: D) S -> vq_inv (seen f r) Q D (r :: S).
Proof.
  intros [Hv (Hn & H1 & H0)]. split; cbn [seen vdk set_vdk bufs set_bufs]; [by apply vq_seen|].
  assert (Hp : Q ++ (r :: D) ++ S ≡ₚ r :: Q ++ D ++ S) by (cbn [app]; by rewrite <- Permutation_middle).
  rewrite Hp in Hn. cbn in Hn. apply NoDup_cons in Hn as [Hni Hn].
  rewrite <- Permutation_middle in H1. apply Forall_cons in H1 as [(x & Hx & _) H1].
  destruct (vbufs_alter (bufs f) Q D S (q_buf r) (set_b_disk 0) Hni) as (_ & A1 & A0); [done|].
  split_and!; [|done|].
  - assert (Hp2 : Q ++ D ++ r :: S ≡ₚ r :: Q ++ D ++ S) by (rewrite !app_assoc; by rewrite <- Permutation_middle).
    rewrite Hp2. cbn. by constructor.
  - constructor; [|done]. eexists. by rewrite list_lookup_alter_eq, Hx.
Qed.

Lemma inv_seen_all f Q D S : vq_inv f Q D S -> vq_inv (foldl seen f D) Q [] (reverse D ++ S).
Proof.
  revert f S. induction D as [|r D IH]; intros f S Hf; [done|]. cbn [foldl]. rewrite reverse_cons, <- app_assoc.
  apply IH. by apply inv_seen.
Qed.

Lemma inv_perm f Q D S S' : S ≡ₚ S' -> vq_inv f Q D S -> vq_inv f Q D S'.
Proof.
  intros E [Hv (Hn & H1 & H0)]. split; [by eapply vq_perm|]. split_and!; [by rewrite <- E|done|by rewrite <- E].
Qed.

Lemma inv_finished f Q D S r : vq_inv f Q D (r :: S) -> vq_inv (set_vdk (unfill r (vdk f)) f) Q D S.
Proof.
  intros [Hv (Hn & H1 & H0)]. split; cbn [vdk set_vdk bufs]; [by apply vq_finished|].
  apply Forall_cons in H0 as [_ H0]. split_and!; [|done|done].
  assert (Hp : Q ++ D ++ r :: S ≡ₚ r :: Q ++ D ++ S) by (rewrite !app_assoc; by rewrite <- Permutation_middle).
  rewrite Hp in Hn. cbn in Hn. by apply NoDup_cons in Hn as [_ Hn].
Qed.

(** ** The device

    [serve] is what the device does when it looks at the avail ring: it takes
    the next chain and transfers a block between the buffer and the disk,
    sets the status to 0 and puts the head of the chain in the used ring. *)

Definition transfer (r : request) (b : buf) (f : iost) : iost :=
  if q_write r then set_dsk (disk_write (q_block r) (b_data b) (dsk f)) f
  else set_bufs (alter (set_b_data (disk_read (dsk f) (q_block r))) (q_buf r) (bufs f)) f.

Class BlkDevice := serve : iost -> iost.
Class BlkDeviceOk `{BlkDevice} : Prop := {
  serve_idle f : dev_seen (vdk f) = avail_idx (vdk f) -> serve f = f;
  serve_chain f r b :
    dev_seen (vdk f) <> avail_idx (vdk f) -> avail_ring (vdk f) !! slot_of (dev_seen (vdk f)) = Some (Z.of_nat (q0 r)) ->
    chain (vdk f) r -> bufs f !! q_buf r = Some b ->
    serve f = set_vdk (served (q0 r) (vdk f)) (transfer r b f);
}.

Section Device.
Context `{BlkDeviceOk}.

Lemma serve_head f Q D S r :
  vq_inv f (r :: Q) D S -> exists b, bufs f !! q_buf r = Some b /\ serve f = set_vdk (served (q0 r) (vdk f)) (transfer r b f).
Proof.
  intros [Hv (_ & Ho & _)]. apply Forall_cons in Ho as [(b & Hb & _) _]. exists b. split; [done|].
  destruct (vo_avail _ _ _ _ Hv) as [Ha Hr]. pose proof (vo_idx _ _ _ _ Hv) as [_ Hi].
  pose proof (vq_few _ _ (vo_core _ _ _ _ Hv)) as Hfew. cbn [app length] in Hfew. rewrite !length_app in Hfew.
  apply serve_chain; [|specialize (Hr 0%nat r eq_refl); by rewrite Z.add_0_r in Hr| |done].
  - rewrite Ha. cbn [length]. unfold u16. zdm.
  - pose proof (vc_chains _ _ (vo_core _ _ _ _ Hv)) as Hc. by apply Forall_cons in Hc as [? _].
Qed.

Lemma inv_transfer f r b Q D S : bufs f !! q_buf r = Some b -> vq_inv f Q D S -> vq_inv (transfer r b f) Q D S.
Proof.
  intros Hb [Hv (Hn & Ho & Hz)]. unfold transfer. destruct (q_write r); [done|]. split; [done|]. cbn [bufs set_bufs].
  assert (Hk : forall x k, (exists y, bufs f !! q_buf x = Some y /\ b_disk y = k) ->
    exists y, alter (set_b_data (disk_read (dsk f) (q_block r))) (q_buf r) (bufs f) !! q_buf x = Some y /\ b_disk y = k).
  { intros x k (y & Hy & Hd). destruct (decide (q_buf x = q_buf r)) as [E|Hne].
    - rewrite E in Hy |- *. rewrite list_lookup_alter_eq, Hy. by eexists.
    - rewrite list_lookup_alter_ne by auto. eauto. }
  split_and!; [done|eapply Forall_impl; [exact Ho|]; auto|eapply Forall_impl; [exact Hz|]; auto].
Qed.

Lemma inv_served f Q D S r : vq_inv f (r :: Q) D S -> vq_inv (serve f) Q (D ++ [r]) S.
Proof.
  intros Hf. destruct (serve_head _ _ _ _ _ Hf) as (b & Hb & ->). apply (inv_transfer f r b) in Hf; [|done].
  destruct Hf as [Hv (Hn & Ho & Hz)].
  replace (vdk f) with (vdk (transfer r b f)) by (unfold transfer; by destruct (q_write r)).
  split; cbn [vdk set_vdk bufs]; [by apply vq_served|]. split_and!; [| |done].
  - rewrite <- (app_assoc D), (app_assoc Q). cbn [app]. rewrite <- Permutation_middle, <- app_assoc. done.
  - rewrite app_assoc, <- Permutation_cons_append. done.
Qed.

(** An idle device does nothing. *)
Lemma inv_serve f Q D S : vq_inv f Q D S ->
  exists Q' D', vq_inv (serve f) Q' D' S /\ Q ++ D ≡ₚ Q' ++ D'.
Proof.
  intros Hf. destruct Q as [|r Q].
  - exists [], D. rewrite serve_idle; [done|]. destruct Hf as [Hv _]. destruct (vo_avail _ _ _ _ Hv) as [-> _].
    pose proof (vo_idx _ _ _ _ Hv) as [_ Hi]. by rewrite Z.add_0_r, u16_small.
  - exists Q, (D ++ [r]). split; [by apply inv_served|]. rewrite app_assoc, <- Permutation_cons_append. done.
Qed.

End Device.
