(* ===== verification/VirtioTheorems.v ===== *)
(** * The disk driver: theorems

    The driver as a whole, with callers, interrupts and the device taking
    steps in any order: no routine of it panics.  One request through the
    driver and the device is the transfer that the buffer cache relies on. *)

From S2P Require Import Prelude Riscv Mem CString Kalloc Spinlock Proc ProcSpec IoState SleepLock Bio BioSpec Virtio VirtioSpec.
From S2P Require Import ProcExit VirtioSafe MemExample ProcExample LogExample.

(** ** The driver in use

    The state is the devices' part of the kernel and the local variables
    [b] and [idx[0]] of the callers that are inside [virtio_disk_rw].  A step
    is one critical section of a routine, run in whatever state the rest of
    the kernel is in, an action of the device, or a change elsewhere that
    leaves the queue and the buffers of the callers alone: a caller holds the
    sleep lock of its buffer. *)

Section System.
Context `{Linker} `{VirtioMmio} `{BlkDevice}.

Inductive vstep : iost * list (nat * nat) -> iost * list (nat * nat) -> Prop :=
  | VStart i s b x write h s' ws :
      kready [] i s -> bufs (pfs s) !! b = Some x -> b ∉ ws.*1 -> rw_start b write s = Ok h s' ->
      vstep (pfs s, ws) (pfs s', (b, h) :: ws)
  | VServe f ws : vstep (f, ws) (serve f, ws)
  | VIntr i s s' ws :
      kready [] i s -> virtio_disk_intr s = Ok tt s' -> vstep (pfs s, ws) (pfs s', ws)
  | VFinish i s0 s b x h s' ws ws' :
      kready [] i s0 -> inside VdiskLock i s0 s -> ws ≡ₚ (b, h) :: ws' ->
      bufs (pfs s) !! b = Some x -> b_disk x <> 1 -> rw_finish h s = Ok tt s' ->
      vstep (pfs s, ws) (pfs s', ws')
  | VOther f f' ws :
      vdk f' = vdk f -> (forall b, b ∈ ws.*1 -> bufs f' !! b = bufs f !! b) -> vstep (f, ws) (f', ws).

(** The queue is empty, as [virtio_disk_init] leaves it. *)
Definition vinit (c : iost * list (nat * nat)) : Prop := vq_inv c.1 [] [] [] /\ c.2 = [].

(** The callers are those of the requests in flight. *)
Definition local_vars (r : request) : nat * nat := (q_buf r, q0 r).
Definition vsys (c : iost * list (nat * nat)) : Prop :=
  exists Q D S, vq_inv c.1 Q D S /\ c.2 ≡ₚ (local_vars <$> Q ++ D ++ S).

Lemma local_bufs rs : (local_vars <$> rs).*1 = q_buf <$> rs.
Proof. by rewrite <- list_fmap_compose. Qed.

Context `{!BlkDeviceOk}.

Lemma vsys_start i s b x write h s' ws :
  kready [] i s -> bufs (pfs s) !! b = Some x -> b ∉ ws.*1 -> rw_start b write s = Ok h s' ->
  vsys (pfs s, ws) -> vsys (pfs s', (b, h) :: ws).
Proof.
  intros Hr Hx Hb E (Q & D & S & Hv & Hw). cbn [fst snd] in *. rewrite Hw, local_bufs in Hb.
  pose proof (vq_few _ _ (vo_core _ _ _ _ (proj1 Hv))) as Hfew.
  destruct (decide (length (Q ++ D ++ S) = 2%nat)) as [E2|Hne].
  { rewrite (rw_start_full i s b x write Q D S) in E; [done|done|apply Hv|done|done]. }
  assert (Hwp : wp (rw_start b write) s (fun h s' => vsys (pfs s', (b, h) :: ws))); [|by unfold wp in Hwp; rewrite E in Hwp].
  apply (rw_start_wp i s b x write Q D S); [done|apply Hv|done|lia|]. intros r s1 <- _ _ Hnd Hf _ P.
  exists (Q ++ [r]), D, S. cbn [fst snd]. rewrite P. split; [by apply (inv_started _ _ _ _ _ x)|].
  rewrite Hw, <- app_assoc. cbn [app]. rewrite <- Permutation_middle. done.
Qed.

Lemma vsys_intr i s s' ws :
  kready [] i s -> virtio_disk_intr s = Ok tt s' -> vsys (pfs s, ws) -> vsys (pfs s', ws).
Proof.
  intros Hr E (Q & D & S & Hv & Hw). cbn [fst snd] in *.
  assert (Hwp : wp virtio_disk_intr s (fun _ s' => vsys (pfs s', ws))); [|by unfold wp in Hwp; rewrite E in Hwp].
  apply (virtio_disk_intr_wp i s Q D S); [done|done|]. intros s1 _ P. exists Q, [], (reverse D ++ S). cbn [fst snd]. rewrite P.
  split; [|by rewrite Hw, reverse_Permutation]. apply inv_seen_all. destruct Hv as [Hv Hb]. split; [by apply vq_ok_regs|done].
Qed.

(** A caller whose buffer the disk has returned: its request is among those
    that were seen. *)
Lemma vsys_done f b h ws ws' Q D S x :
  vq_inv f Q D S -> ws ≡ₚ (b, h) :: ws' -> ws ≡ₚ (local_vars <$> Q ++ D ++ S) -> bufs f !! b = Some x -> b_disk x <> 1 ->
  exists r S', S ≡ₚ r :: S' /\ local_vars r = (b, h) /\ ws' ≡ₚ (local_vars <$> Q ++ D ++ S').
Proof.
  intros [_ (Hn & Ho & _)] Hw Hw' Hx Hd. assert (Hin : (b, h) ∈ local_vars <$> Q ++ D ++ S) by (rewrite <- Hw', Hw; left).
  apply list_elem_of_fmap in Hin as (r & Er & Hr). rewrite app_assoc, elem_of_app in Hr. destruct Hr as [Hr|Hr].
  { rewrite Forall_forall in Ho. destruct (Ho r Hr) as (y & Hy & Hy1). injection Er as -> ->. congruence. }
  apply elem_of_Permutation in Hr as [S' HS]. exists r, S'. split; [done|]. split; [done|].
  rewrite HS in Hw'. rewrite app_assoc, <- Permutation_middle, <- app_assoc in Hw'. cbn in Hw'. rewrite <- Er, Hw in Hw'.
  by apply Permutation_cons_inv in Hw'.
Qed.

Lemma vsys_finish i s0 s b x h ws ws' :
  kready [] i s0 -> inside VdiskLock i s0 s -> ws ≡ₚ (b, h) :: ws' ->
  bufs (pfs s) !! b = Some x -> b_disk x <> 1 -> vsys (pfs s, ws) ->
  wp (rw_finish h) s (fun _ s' => kframe i s0 s' /\ vsys (pfs s', ws')).
Proof.
  intros Hr Hin Hw Hx Hd (Q & D & S & Hv & Hw'). cbn [fst snd] in *.
  destruct (vsys_done _ _ _ _ _ _ _ _ _ Hv Hw Hw' Hx Hd) as (r & S' & HS & [= <- <-] & Hw2).
  apply (inv_perm _ _ _ _ _ HS) in Hv. apply (rw_finish_wp i s0 s r (Q ++ D ++ r :: S')); [done|done|apply Hv|set_solver|].
  intros s2 K P. split; [done|]. exists Q, D, S'. cbn [fst snd]. rewrite P. split; [by apply inv_finished|done].
Qed.

Lemma vsys_step c c' : vstep c c' -> vsys c -> vsys c'.
Proof.
  intros Hs Hc. destruct Hs as [i s b x write h s' ws Hr Hx Hb E|f ws|i s s' ws Hr E|i s0 s b x h s' ws ws' Hr Hin Hw Hx Hd E|f f' ws Ev Eb].
  - by eapply vsys_start.
  - destruct Hc as (Q & D & S & Hv & Hw). cbn [fst snd] in *. destruct (inv_serve _ _ _ _ Hv) as (Q' & D' & Hv' & Hp).
    exists Q', D', S. split; [done|]. cbn [snd]. by rewrite Hw, app_assoc, Hp, <- app_assoc.
  - by eapply vsys_intr.
  - pose proof (vsys_finish i s0 s b x h ws ws' Hr Hin Hw Hx Hd Hc) as Hwp. unfold wp in Hwp. rewrite E in Hwp. by destruct Hwp.
  - destruct Hc as (Q & D & S & [Hv (Hn & Ho & Hz)] & Hw). cbn [fst snd] in *. exists Q, D, S. cbn [fst snd]. split; [|done].
    split; [by rewrite Ev|].
    assert (Hin : forall r, r ∈ Q ++ D ++ S -> bufs f' !! q_buf r = bufs f !! q_buf r).
    { intros r Hr. apply Eb. rewrite Hw, local_bufs. by apply list_elem_of_fmap_2. }
    split_and!; [done| |]; rewrite Forall_forall in *; intros r Hr; (rewrite Hin; [auto|]); rewrite app_assoc, elem_of_app; auto.
Qed.

Lemma vsys_reach c c' : rtc vstep c c' -> vsys c -> vsys c'.
Proof. induction 1 as [|c c1 c' Hs _ IH]; [done|]. intros Hc. by apply IH, (vsys_step c). Qed.


(** ** One request *)

(** C15: a request that goes through an idle queue, is served by the device,
    acknowledged by the interrupt handler and finished by its caller transfers
    the block between the buffer and the disk exactly as [disk_rw], the
    transfer the buffer cache is verified with; the queue is idle again. *)
Theorem virtio_rw_refines i s b x write :
  kready [] i s -> vq_inv (pfs s) [] [] [] -> bufs (pfs s) !! b = Some x -> b_disk x = 0 -> 0 <= b_blockno x < 2 ^ 31 ->
  wp (rw_start b write) s (fun h s1 =>
    forall j s2, kready [] j s2 -> pfs s2 = serve (pfs s1) ->
    wp virtio_disk_intr s2 (fun _ s3 =>
      forall k s4 s5, kready [] k s4 -> inside VdiskLock k s4 s5 -> pfs s5 = pfs s3 ->
      wp (rw_finish h) s5 (fun _ s6 => exists s',
        disk_rw b write s = Ok tt s' /\ pfs s6 = set_vdk (vdk (pfs s6)) (pfs s') /\ vq_inv (pfs s6) [] [] []))).
Proof.
  intros Hr Hv Hx Hd Hbn. apply (rw_start_wp i s b x write [] [] []); [done|apply Hv|done|simpl; lia|].
  intros r s1 Hb Hw Hn Hnd Hf _ P1 j s2 Hr2 P2. subst b. rewrite Z.mod_small in Hn by done.
  pose proof (inv_started _ [] [] [] r x Hv Hx (not_elem_of_nil _) Hnd Hf) as V1. rewrite <- P1 in V1. cbn [app] in V1.
  destruct (serve_head _ [] [] [] r V1) as (y & Hy & Es). pose proof (inv_served _ _ _ _ _ V1) as V2. rewrite <- P2 in V2.
  apply (virtio_disk_intr_wp j s2 [] [r] []); [done|done|]. intros s3 _ P3 k s4 s5 Hr4 Hin5 P5. cbn [foldl] in P3.
  assert (V3 : vq_inv (pfs s3) [] [] [r]).
  { rewrite P3. apply inv_seen. destruct V2 as [? ?]. split; [by apply vq_ok_regs|done]. }
  rewrite <- P5 in V3. apply (rw_finish_wp k s4 s5 r [r]); [done|done|apply V3|by left|]. intros s6 _ P6.
  assert (Hyx : y = set_b_disk 1 x).
  { rewrite P1 in Hy. cbn [started bufs set_bufs set_vdk] in Hy. rewrite list_lookup_alter_eq, Hx in Hy. by injection Hy as <-. }
  assert (V6 : vq_inv (pfs s6) [] [] []) by (rewrite P6; by apply inv_finished).
  enough (Hrw : wp (disk_rw (q_buf r) write) s (fun _ s' => pfs s6 = set_vdk (vdk (pfs s6)) (pfs s'))).
  { apply wp_ok in Hrw as ([] & s' & E & E'). eauto. }
  assert (E6 : pfs s6 = set_vdk (vdk (pfs s6)) (seen (transfer r y (started r (pfs s))) r)).
  { rewrite P6, P5, P3, P2, Es, P1. unfold transfer. by destruct (q_write r). }
  unfold disk_rw. wp_step. apply (getb_wp s (q_buf r) x); [done|]. unfold transfer in E6. rewrite Hw, Hn in E6.
  destruct write; [apply iomod_wp|wp_step; apply iogets_wp; apply (updb_wp s (q_buf r) x); [done|]];
    cbn [pfs set_pfs]; (etransitivity; [exact E6|]); rewrite ?Hyx; clear E6 P6 V6; destruct (pfs s) as [bf];
    cbn in Hx; unfold seen, started; vd_cbn; rewrite !list_alter_alter_eq; f_equal.
  - apply (alter_id_at _ _ _ x); [done|]. destruct x. cbn in Hd. by subst.
  - apply list_alter_ext; [|done]. intros z. fold (q_buf r). rewrite Hx. intros [= <-]. destruct x. cbn in Hd. by subst.
Qed.

(** ** Termination *)

(** Descriptors that are not free. *)
Definition busy (fl : list Z) : nat := length (filter (fun x => x = 0) fl).

Lemma busy_insert fl d : fl !! d = Some 0 -> (busy (<[d := 1%Z]> fl) < busy fl)%nat.
Proof.
  revert d. induction fl as [|x fl IH]; intros [|d] Hd; [done|done| |].
  - injection Hd as ->. cbn [insert list_insert]. unfold busy. rewrite filter_cons_False, filter_cons_True by done. simpl. lia.
  - cbn [insert list_insert]. unfold busy. rewrite !filter_cons. specialize (IH d Hd). unfold busy in IH.
    destruct (decide (x = 0)); cbn [length]; [apply -> Nat.succ_lt_mono|]; exact IH.
Qed.

Lemma free_desc_cases held i s d :
  kready held i s ->
  (exists e, free_desc d s = Fail e /\ e <> EFuel) \/
  (vq_free (vdk (pfs s)) !! d = Some 0 /\ exists s', free_desc d s = Ok tt s' /\ vframe i s (freed d (vdk (pfs s))) s').
Proof.
  intros Hr. destruct (decide (d < num)%nat) as [Hd|Hd].
  2: { left. unfold free_desc. destruct (Z.leb_spec NUM (Z.of_nat d)); [by eexists|]. unfold NUM, num in *. lia. }
  destruct (vq_free (vdk (pfs s)) !! d) as [x|] eqn:Hx; [destruct (decide (x = 0)) as [->|Hne]|].
  - right. split; [done|]. pose proof (free_desc_wp held i s d (fun _ s' => vframe i s (freed d (vdk (pfs s))) s') Hr Hd Hx) as Hw.
    apply wp_ok in Hw as ([] & s' & E & Hv); eauto.
  - left. exists (EPanic "free_desc 2"). split; [|done]. unfold free_desc. destruct (Z.leb_spec NUM (Z.of_nat d)); [unfold NUM, num in *; lia|].
    apply bind_fail_r, (get_free_wp d x); [done|]. unfold ctrue. by rewrite (proj2 (Z.eqb_neq x 0) Hne).
  - left. exists (EUB "disk.free[]"). split; [|done]. unfold free_desc. destruct (Z.leb_spec NUM (Z.of_nat d)); [unfold NUM, num in *; lia|].
    unfold bind at 1, get_free. unfold bind, gvd, iogets, infs, gets, zoom. by rewrite Hx.
Qed.

Lemma free_chain_ends held i fuel j s :
  kready held i s -> (busy (vq_free (vdk (pfs s))) < fuel)%nat -> free_chain_loop fuel j s <> Fail EFuel.
Proof.
  revert j s. induction fuel as [|fuel IH]; intros j s Hr Hb; [lia|]. cbn [free_chain_loop]. unfold bind at 1.
  destruct (get_desc j s) as [d s1|e] eqn:Eg.
  2: { unfold get_desc, bind, gvd, iogets, infs, gets, zoom in Eg. destruct (vq_desc _ !! _); [done|]. injection Eg as <-. done. }
  assert (s1 = s) as ->.
  { unfold get_desc, bind, gvd, iogets, infs, gets, zoom in Eg. destruct (vq_desc _ !! _); [|done]. injection Eg as _ <-. by destruct s. }
  unfold bind. destruct (free_desc_cases held i s (Z.to_nat j) Hr) as [(e & -> & He)|(Hf & s' & -> & Hv)]; [congruence|].
  destruct (ctrue _); [|done]. apply IH; [eapply kready_frame; [exact Hr|apply Hv]|].
  rewrite (vframe_vdk _ _ _ _ Hv). cbn [freed vq_free set_vq_free]. pose proof (busy_insert _ _ Hf). lia.
Qed.

(** C36: [free_chain] terminates whatever the descriptor table holds, even when
    the links form a cycle: a descriptor reached a second time is already
    free, and [free_desc] panics. *)
Theorem free_chain_terminates held i j s :
  kready held i s -> length (vq_free (vdk (pfs s))) = num -> free_chain j s <> Fail EFuel.
Proof.
  intros Hr Hl. apply (free_chain_ends held i); [done|]. unfold busy, num in *.
  pose proof (length_filter (fun x => x = 0) (vq_free (vdk (pfs s)))). lia.
Qed.

End System.

(** ** A device, and the theorems on a concrete cache *)

(** Registers that read as they were last written, but for the constant ones. *)
#[export] Instance ex_mmio : VirtioMmio := fun ws r =>
  if r =? VIRTIO_MMIO_MAGIC_VALUE then 0x74726976 else
  if (r =? VIRTIO_MMIO_VERSION) || (r =? VIRTIO_MMIO_DEVICE_ID) then 2 else
  if r =? VIRTIO_MMIO_VENDOR_ID then 0x554d4551 else
  if r =? VIRTIO_MMIO_QUEUE_NUM_MAX then 1024 else
  default 0 (snd <$> head (filter (fun w => fst w = r) ws)).

(** The device follows the chain at the next position of the avail ring. *)
Definition ex_complete (h st : nat) (v : vdisk) : vdisk :=
  set_vq_info (alter (set_vi_status 0) st (vq_info v))
   (set_dev_ring (<[slot_of (dev_idx v) := Z.of_nat h]> (dev_ring v))
   (set_dev_idx (u16 (dev_idx v + 1)) (set_dev_seen (u16 (dev_seen v + 1)) v))).

#[export] Instance ex_serve : BlkDevice := fun f =>
  let v := vdk f in
  if dev_seen v =? avail_idx v then f else
  match h ← Z.to_nat <$> avail_ring v !! slot_of (dev_seen v);
        d0 ← vq_desc v !! h;
        d1 ← vq_desc v !! Z.to_nat (d_next d0);
        d2 ← vq_desc v !! Z.to_nat (d_next d1);
        Some (h, d_addr d0, d_addr d1, d_addr d2) with
  | Some (h, DOps o, DData b, DStatus st) =>
      match vq_ops v !! o, bufs f !! b with
      | Some rq, Some x =>
          let n := rq_sector rq / 2 in
          set_vdk (ex_complete h st v)
            (if rq_type rq =? VIRTIO_BLK_T_OUT then set_dsk (disk_write n (b_data x) (dsk f)) f
             else set_bufs (alter (set_b_data (disk_read (dsk f) n)) b (bufs f)) f)
      | _, _ => f
      end
  | _ => f
  end.

#[export] Instance ex_serve_ok : BlkDeviceOk.
Proof.
  split.
  - intros f E. unfold serve, ex_serve. by rewrite E, Z.eqb_refl.
  - intros f r b Hne Hh (C0 & C1 & C2 & C3) Hb. unfold serve, ex_serve. rewrite (proj2 (Z.eqb_neq _ _) Hne), Hh.
    cbn [fmap option_fmap option_map mbind option_bind]. rewrite Nat2Z.id, C1. cbn [mbind option_bind d_next].
    rewrite Nat2Z.id, C2. cbn [mbind option_bind d_next]. rewrite Nat2Z.id, C3. cbn [mbind option_bind d_addr].
    rewrite C0, Hb. cbn [rq_sector rq_type]. rewrite Z.mul_comm, Z.div_mul by done. unfold transfer.
    by destruct (q_write r).
Qed.

Lemma ex_queue_ok f : vdk f = ex_vdk -> vq_inv f [] [] [].
Proof.
  intros E. split; [rewrite E; apply (fresh_ok ex_vdk [] (replicate num 1) []); try done|].
  - intros d Hd. by apply (lookup_replicate_2 num).
  - split_and!; constructor.
Qed.


Lemma virtio_rw_refines_witness :
  wp (rw_start 0 true) (ex_kernel ex_held_io) (fun h s1 =>
    forall j s2, kready [] j s2 -> pfs s2 = serve (pfs s1) ->
    wp virtio_disk_intr s2 (fun _ s3 =>
      forall k s4 s5, kready [] k s4 -> inside VdiskLock k s4 s5 -> pfs s5 = pfs s3 ->
      wp (rw_finish h) s5 (fun _ s6 => exists s',
        disk_rw 0 true (ex_kernel ex_held_io) = Ok tt s' /\ pfs s6 = set_vdk (vdk (pfs s6)) (pfs s') /\
        vq_inv (pfs s6) [] [] []))).
Proof.
  apply (virtio_rw_refines 1 (ex_kernel ex_held_io) 0 ex_held_buf true);
    [apply ex_kready|apply ex_queue_ok; reflexivity|reflexivity|reflexivity|simpl; lia].
Defined.

Lemma free_chain_terminates_witness : free_chain 3 (ex_kernel ex_held_io) <> Fail EFuel.
Proof. apply (free_chain_terminates [] 1); [apply ex_kready|reflexivity]. Defined.
