(* ===== verification/TrapSpec.v ===== *)
(** * Traps: what the handlers do

    A trap from user space with a system call that returns, followed through
    [usertrap], the dispatcher and [usertrapret]; the timer interrupt; and the
    traps after which the process is killed. *)

From S2P Require Import Prelude Riscv Mem CString Kalloc Vm Spinlock Proc ProcSpec ProcExit IoState SleepLock Bio BioSpec Bytes.
From S2P Require Import Log LogDisk LogSpec LogRecover Uart Printf Console DevSpec ConsoleSpec Fs Dir File Syscall Sysfile Dispatch Virtio InodeSpec FileSpec.
From S2P Require Import Trap MemExample ProcExample LogExample FsExample FsTheorems VirtioTheorems.

Section Spec.
Context `{Linker} `{VirtioMmio}.
Implicit Types (s : kernel) (m : mach) (l : lkst) (i : nat).

(** ** Status bits *)

(** The register without SIE. *)
Definition sie_clear (c : csrs) : Prop := Z.testbit (c_sstatus c) 1 = false.
Definition from_user (c : csrs) : Prop := Z.testbit (c_sstatus c) 8 = false.

Lemma land_bit x k : 0 <= k -> Z.testbit x k = false -> Z.land x (Z.shiftl 1 k) = 0.
Proof.
  intros Hk Hx. apply Z.bits_inj'. intros n Hn. rewrite Z.land_spec, Z.bits_0, Z.shiftl_spec by done.
  destruct (Z.eq_dec n k) as [->|Hne]; [by rewrite Hx|].
  destruct (Z_lt_le_dec (n - k) 0) as [Hlt|Hge]; [rewrite (Z.testbit_neg_r 1) by done; apply andb_false_r|].
  rewrite (Z.bits_above_log2 1), andb_false_r; [done|done|]. simpl. lia.
Qed.

Lemma ldiff_bit x k : 0 <= k -> Z.testbit x k = false -> Z.ldiff x (Z.shiftl 1 k) = x.
Proof.
  intros Hk Hx. pose proof (land_bit x k Hk Hx) as Hl. pose proof (Z.lor_ldiff_and x (Z.shiftl 1 k)) as E.
  rewrite Hl in E. by rewrite Z.lor_0_r in E.
Qed.

Lemma spp_test x (b : bool) : Z.testbit x 8 = false -> ctrue (Z.land (if b then Z.lor x SSTATUS_SIE else x) SSTATUS_SPP) = false.
Proof.
  intros Hx. unfold SSTATUS_SPP. rewrite land_bit; [done|lia|]. destruct b; [|done]. by rewrite Z.lor_spec, Hx.
Qed.

(** ** Reading and writing the registers *)

Lemma r_sstatus_wp m (Q : Z -> mach -> Prop) :
  Q (if sie (plk (m_k m)) then Z.lor (c_sstatus (m_csr m)) SSTATUS_SIE else c_sstatus (m_csr m)) m -> wp r_sstatus m Q.
Proof. done. Qed.

Lemma ink_wp {A} (c : K A) m (Q : A -> mach -> Prop) : wp c (m_k m) (fun a s => Q a (set_m_k s m)) -> wp (ink c) m Q.
Proof. apply wp_zoom. Qed.

(** The kernel's state with other memory and locks. *)
Definition at_mem s l (mm : mem) : kernel := set_plk l (set_pk (KSt mm (freelist (pk s))) s).

Lemma at_mem_calm i s l l' mm mm' : calm i (at_mem s l mm) -> lk_same l l' -> calm i (at_mem s l' mm').
Proof.
  intros (Hr & Hf & Hl & Hi) Hs. split; [by eapply runs_same|]. split; [intros k; by eapply lk_same_free|done].
Qed.

Lemma at_mem_mm i s l mm mm' : calm i (at_mem s l mm) -> calm i (at_mem s l mm').
Proof. done. Qed.

Lemma calm_sie i s b : calm i s -> calm i (set_plk (set_sie b (plk s)) s).
Proof.
  intros ((Hh & c & Hc & Hp & Hn & Hb) & Hf & Hl & Hi). split; [|done]. split; [|by exists c].
  destruct Hh as (c' & Hc' & Hr & _). rewrite Hc in Hc'. injection Hc' as <-. exists c. split; [done|]. split; [done|]. lia.
Qed.

(** ** The running process *)

Lemma cur_wp {A} i s p l mm (k : nat -> proc -> K A) (Q : A -> kernel -> Prop) :
  calm i (at_mem s l mm) -> procs s !! i = Some p ->
  (forall l', lk_same l l' -> wp (k i p) (at_mem s l' mm) Q) ->
  wp (bind myproc (fun r => bind (deref r) (fun i => bind (getp i) (k i)))) (at_mem s l mm) Q.
Proof.
  intros Hc Hp HQ. wp_step. eapply myproc_wp; [apply Hc|]. intros l' Hl. wp_step. apply wp_ret. wp_step. apply (getp_wp _ i p); [done|].
  by apply HQ.
Qed.

Lemma tcur_wp {A} i s p l mm m (k : nat -> proc -> T A) (Q : A -> mach -> Prop) :
  m_k m = at_mem s l mm -> calm i (at_mem s l mm) -> procs s !! i = Some p ->
  (forall l', lk_same l l' -> wp (k i p) (set_m_k (at_mem s l' mm) m) Q) ->
  wp (bind (ink myproc) (fun r => bind (ink (deref r)) (fun i => bind (ink (getp i)) (k i)))) m Q.
Proof.
  intros Em Hc Hp HQ. wp_step. apply ink_wp. rewrite Em. eapply myproc_wp; [apply Hc|]. intros l' Hl.
  wp_step. apply ink_wp, wp_ret. wp_step. apply ink_wp. apply (getp_wp _ i p); [done|]. by apply HQ.
Qed.

Lemma tkilled_wp i s p l mm m (Q : Z -> mach -> Prop) :
  m_k m = at_mem s l mm -> calm i (at_mem s l mm) -> procs s !! i = Some p ->
  (forall l', lk_same l l' -> Q (p_killed p) (set_m_k (at_mem s l' mm) m)) -> wp (ink (killed i)) m Q.
Proof.
  intros Em (Hr & Hf & _) Hp HQ. apply ink_wp. rewrite Em. apply (killed_wp _ i p); [by eapply runs_hart_ok|apply Hf|done|].
  intros l' Hl. by apply HQ.
Qed.

Lemma tphys_wp s l mm m g (Q : unit -> mach -> Prop) :
  m_k m = at_mem s l mm -> Q tt (set_m_k (at_mem s l (g mm)) m) -> wp (ink (phys_wr g)) m Q.
Proof. intros Em HQ. apply ink_wp. rewrite Em. unfold phys_wr, inmem. by do 2 wp_step. Qed.

(** ** The way back to user space *)

(** The trapframe fields [uservec] will need. *)
Definition ret_mem (tf satp sp hart : Z) (mm : mem) : mem :=
  store64 (store64 (store64 (store64 mm (tf + TF_kernel_satp) satp) (tf + TF_kernel_sp) sp)
    (tf + TF_kernel_trap) usertrap_addr) (tf + TF_kernel_hartid) hart.

Definition ret_csr (epc : Z) (c : csrs) : csrs :=
  set_sepc epc (set_sstatus (Z.lor (Z.ldiff (c_sstatus c) SSTATUS_SPP) SSTATUS_SPIE)
    (set_stvec (TRAMPOLINE + (uservec - trampoline)) c)).

Lemma ret_sstatus x : Z.testbit x 1 = false ->
  Z.ldiff (Z.lor (Z.ldiff x SSTATUS_SPP) SSTATUS_SPIE) SSTATUS_SIE = Z.lor (Z.ldiff x SSTATUS_SPP) SSTATUS_SPIE /\
  Z.testbit (Z.lor (Z.ldiff x SSTATUS_SPP) SSTATUS_SPIE) 1 = false.
Proof.
  intros Hx. assert (Hb : Z.testbit (Z.lor (Z.ldiff x SSTATUS_SPP) SSTATUS_SPIE) 1 = false).
  { by rewrite Z.lor_spec, Z.ldiff_spec, Hx. }
  split; [|done]. by apply ldiff_bit.
Qed.

Lemma usertrapret_wp i s p l mm m (Q : trap_end -> mach -> Prop) :
  m_k m = at_mem s l mm -> calm i (at_mem s l mm) -> procs s !! i = Some p -> sie_clear (m_csr m) ->
  (forall l' epc, hart l' = hart l -> sie l' = false -> calm i (at_mem s l' mm) -> epc = load64 mm (trapframe p + TF_epc) ->
     Q (ToUser (MAKE_SATP (pagetable p)))
       (Mach (at_mem s l' (ret_mem (trapframe p) (c_satp (m_csr m)) (u64 (kstack p + PGSIZE)) (Z.of_nat (hart l)) mm))
             (ret_csr epc (m_csr m)) (m_plic m))) ->
  wp usertrapret m Q.
Proof.
  intros Em Hc Hp Hs HQ. unfold usertrapret. apply (tcur_wp i s p l mm); [done|done|done|]. intros l1 Hl1.
  assert (Eh : hart l1 = hart l) by (destruct Hl1 as (? & _); done).
  wp_step. apply ink_wp. unfold inlk, intr_off. do 2 wp_step. wp_step. unfold w_stvec, ucsr. wp_step.
  wp_step. unfold r_satp, gcsr. wp_step. set (l2 := set_sie false l1).
  assert (Hc2 : calm i (at_mem s l2 mm)) by (apply (calm_sie i (at_mem s l1 mm)); by eapply at_mem_calm).
  do 3 (wp_step; eapply tphys_wp; [reflexivity|]).
  wp_step. unfold tcpuid. wp_step. apply ink_wp. unfold inlk, cpuid. do 2 wp_step. wp_step. wp_step.
  eapply tphys_wp; [reflexivity|]. wp_step. apply r_sstatus_wp. cbn [set_m_k m_k at_mem plk set_plk sie set_sie l2 m_csr].
  unfold w_sstatus, ucsr. wp_step. wp_step. wp_step. apply ink_wp. unfold inlk. do 2 wp_step.
  cbn [set_m_csr m_csr m_k set_m_k set_stvec c_sstatus]. destruct (ret_sstatus _ Hs) as [E1 E2].
  cbn [set_stvec c_sstatus] in *. rewrite E1, E2. do 2 wp_step. unfold w_sepc, ucsr. wp_step. wp_step. wp_step.
  rewrite <- Eh in HQ. apply (HQ l2); [done|done|done|].
  cbn [m_k set_m_k set_m_csr at_mem pk set_pk set_plk phys].
  by rewrite !load64_store64_ne by (unfold TF_kernel_satp, TF_kernel_sp, TF_kernel_trap, TF_kernel_hartid, TF_epc; lia).
Qed.

(** ** A system call that only reads *)

Definition reads i s (h : K sysret) (v : Z) : Prop :=
  forall l mm, calm i (at_mem s l mm) ->
    wp h (at_mem s l mm) (fun r s' => r = SysRet v /\ exists l', lk_same l l' /\ s' = at_mem s l' mm).

Lemma syscall_reads i s p l mm h v (Q : sysret -> kernel -> Prop) :
  calm i (at_mem s l mm) -> procs s !! i = Some p -> handler (i32 (load64 mm (trapframe p + TF_a7))) = Some h -> reads i s h v ->
  (forall l', lk_same l l' -> Q (SysRet v) (at_mem s l' (store64 mm (trapframe p + TF_a0) (u64 v)))) ->
  wp syscall (at_mem s l mm) Q.
Proof.
  intros Hc Hp Hh Hr HQ. unfold syscall, curproc. wp_step. apply (cur_wp i s p); [done|done|]. intros l1 Hl1. wp_step.
  cbn [fst snd]. wp_step. wp_step. cbn [at_mem pk set_plk set_pk phys]. rewrite Hh. wp_step.
  eapply wp_mono; [apply (Hr l1 mm); by eapply at_mem_calm|]. intros _r s2 (-> & l2 & Hl2 & ->). wp_step.
  unfold set_a0. wp_step. apply (getp_wp _ i p); [done|]. unfold phys_wr, inmem. do 2 wp_step. wp_step.
  apply HQ. by eapply lk_same_trans.
Qed.

Lemma sys_memsize_reads i s p : procs s !! i = Some p -> reads i s (returns sys_memsize) (sz p).
Proof.
  intros Hp l mm Hc. unfold returns, sys_memsize, curproc. wp_step. wp_step. apply (cur_wp i s p); [done|done|].
  intros l1 Hl1. do 3 wp_step. split; [done|]. by exists l1.
Qed.

Lemma sys_getpid_reads i s p : procs s !! i = Some p -> reads i s (returns sys_getpid) (pid p).
Proof.
  intros Hp l mm Hc. unfold returns, sys_getpid, curproc. wp_step. wp_step. apply (cur_wp i s p); [done|done|].
  intros l1 Hl1. do 3 wp_step. split; [done|]. by exists l1.
Qed.

Lemma at_mem_id s : at_mem s (plk s) (phys (pk s)) = s.
Proof. destruct s as [[] ? ? ? ? ? ?]. done. Qed.

(** The trapframe when the system call with result [v] is done. *)
Definition sys_mem (tf epc v : Z) (mm : mem) : mem := store64 (store64 (store64 mm (tf + TF_epc) epc) (tf + TF_epc) (u64 (epc + 4))) (tf + TF_a0) (u64 v).

Lemma usertrap_reads i m s p h v (Q : trap_end -> mach -> Prop) :
  m_k m = s -> calm i s -> procs s !! i = Some p -> p_killed p = 0 -> from_user (m_csr m) -> sie_clear (m_csr m) ->
  c_scause (m_csr m) = 8 -> 0 <= c_sepc (m_csr m) < 2 ^ 64 ->
  handler (i32 (load64 (phys (pk s)) (trapframe p + TF_a7))) = Some h -> reads i s h v ->
  (forall l, hart l = hart (plk s) -> sie l = false -> calm i (at_mem s l ∅) ->
     Q (ToUser (MAKE_SATP (pagetable p)))
       (Mach (at_mem s l (ret_mem (trapframe p) (c_satp (m_csr m)) (u64 (kstack p + PGSIZE)) (Z.of_nat (hart (plk s)))
               (sys_mem (trapframe p) (c_sepc (m_csr m)) v (phys (pk s)))))
             (ret_csr (u64 (c_sepc (m_csr m) + 4)) (m_csr m)) (m_plic m))) ->
  wp usertrap m Q.
Proof.
  intros Em Hc Hp Hk Hu Hs Hsc Hep Hh Hr HQ. unfold usertrap. wp_step. apply r_sstatus_wp. rewrite spp_test by done.
  wp_step. unfold w_stvec, ucsr. wp_step. set (m1 := set_m_csr _ m). set (tf := trapframe p) in *.
  apply (tcur_wp i s p (plk s) (phys (pk s)) m1); [by rewrite at_mem_id|by rewrite at_mem_id|done|]. intros l1 Hl1.
  assert (C1 : calm i (at_mem s l1 (phys (pk s)))) by (apply (at_mem_calm i s (plk s) l1 (phys (pk s))); [by rewrite at_mem_id|done]).
  wp_step. unfold r_sepc, gcsr. wp_step. wp_step. eapply tphys_wp; [reflexivity|].
  wp_step. unfold r_scause, gcsr. wp_step. cbn [m1 m_csr set_m_csr set_m_k set_stvec c_scause c_sepc]. rewrite Hsc. cbn [Z.eqb Pos.eqb].
  wp_step. eapply (tkilled_wp i s p); [reflexivity|exact C1|done|]. intros l2 Hl2. rewrite Hk.
  cbn [ctrue Z.eqb negb]. wp_step. eapply tphys_wp; [reflexivity|]. rewrite load64_store64_eq by done.
  wp_step. apply ink_wp. unfold inlk, intr_on. do 2 wp_step. wp_step. apply ink_wp.
  set (l3 := set_sie true l2). assert (C3 : calm i (at_mem s l3 (phys (pk s)))).
  { apply (calm_sie i (at_mem s l2 (phys (pk s)))). exact (at_mem_calm i s l1 l2 _ _ C1 Hl2). }
  set (mm3 := store64 _ _ _).
  apply (syscall_reads i s p l3 mm3 h v); [exact C3|done| |done|].
  { unfold mm3. rewrite !load64_store64_ne by (unfold TF_a7, TF_epc; lia). done. }
  intros l4 Hl4. pose proof (at_mem_calm i s l3 l4 _ ∅ C3 Hl4) as C4. unfold usertrap_end. wp_step.
  eapply (tkilled_wp i s p); [reflexivity|exact C4|done|]. intros l5 Hl5. rewrite Hk. cbn [ctrue Z.eqb negb].
  eapply (usertrapret_wp i s p l5); [reflexivity|exact (at_mem_calm i s l4 l5 _ _ C4 Hl5)|done|done|].
  intros l6 epc Eh Es C6 ->. rewrite load64_store64_ne by (unfold TF_a0, TF_epc; lia).
  unfold mm3. rewrite load64_store64_eq by apply u64_range.
  assert (E5 : hart l5 = hart (plk s)).
  { destruct Hl5 as (-> & _), Hl4 as (-> & _). cbn [l3 set_sie hart]. destruct Hl2 as (-> & _), Hl1 as (-> & _). done. }
  rewrite E5 in Eh |- *. by apply (HQ l6).
Qed.

(** ** An exception *)

Lemma tcur_fail {A} i s m p (k : nat -> proc -> T A) e :
  m_k m = s -> calm i s -> procs s !! i = Some p ->
  (forall l', lk_same (plk s) l' -> k i p (set_m_k (set_plk l' s) m) = Fail e) ->
  bind (ink myproc) (fun r => bind (ink (deref r)) (fun i => bind (ink (getp i)) (k i))) m = Fail e.
Proof.
  intros Em Hc Hp HQ. apply bind_fail_r, ink_wp. rewrite Em. eapply myproc_wp; [apply Hc|]. intros l' Hl.
  apply bind_fail_r, ink_wp, wp_ret. apply bind_fail_r, ink_wp. apply (getp_wp _ i p); [done|]. by apply HQ.
Qed.

Lemma setkilled_wp i s p (Q : unit -> kernel -> Prop) :
  calm i s -> procs s !! i = Some p ->
  (forall l, lk_same (plk s) l -> Q tt (set_plk l (set_procs (alter (with_killed 1) i (procs s)) s))) -> wp (setkilled i) s Q.
Proof.
  intros (Hr & Hf & _) Hp HQ. pose proof (runs_hart_ok _ _ _ Hr) as Hh. unfold setkilled. wp_step. apply acq_wp; [done|apply Hf|].
  intros l1 Hl1. wp_step. apply (updp_wp _ i p); [done|]. apply (rel_wp _ (plk s)); [done|done|apply Hf|]. intros l2 Hl2. by apply HQ.
Qed.

(** The references do not depend on the console. *)
Lemma files_inv_urt f u fs ips : files_inv f fs ips -> files_inv (set_urt u f) fs ips.
Proof. intros [I1 I2 I3 I4 I5 I6 I7 I8 I9]. split; try done. by eapply fs_rest_same; [..|exact I1]. Qed.

Lemma devintr_exception m (Q : Z -> mach -> Prop) : Z.testbit (c_scause (m_csr m)) 63 = false -> Q 0 m -> wp devintr m Q.
Proof.
  intros Hb HQ. unfold devintr, r_scause, gcsr. do 2 wp_step. rewrite Hb. cbn [andb].
  destruct (Z.eqb_spec (c_scause (m_csr m)) 0x8000000000000001) as [E|_]; [rewrite E in Hb; discriminate Hb|]. by wp_step.
Qed.

(** What a process that is to be killed needs to exit. *)
Record doomed i s (p : proc) : Prop := Doomed {
  dm_calm : calm i s;
  dm_proc : procs s !! i = Some p;
  dm_init : initproc s <> Some i;
  dm_parent : parent p <> Some i;
  dm_ofile : length (ofile p) = 16%nat;
  dm_files : exists fs ips, files_inv (pfs s) (filter (fun f => f <> 0) (ofile p) ++ fs) (cwd p :: ips);
}.

Lemma doomed_frame i s s' p u : doomed i s p -> kframe i s s' -> pfs s' = set_urt u (pfs s) -> doomed i s' p.
Proof.
  intros [D1 D2 D3 D4 D5 (fs & ips & D6)] K P. pose proof K as [_ (_ & Hi & _ & Hip & _)].
  split; [eapply calm_frame; [exact D1|by apply frame_of_kframe]|by rewrite Hi|by rewrite Hip|done|done|].
  exists fs, ips. rewrite P. by apply files_inv_urt.
Qed.

(** A process that is killed: [exit] is given a null message. *)
Lemma usertrap_end_killed i m s p wd :
  m_k m = s -> doomed i s p -> p_killed p <> 0 -> usertrap_end i wd m = Fail (EUB "exit: msg").
Proof.
  intros Em [D1 D2 D3 D4 D5 (fs & ips & D6)] Hk. unfold usertrap_end. apply bind_fail_r, ink_wp. rewrite Em.
  pose proof D1 as (Hr & Hf & _). apply (killed_wp _ i p); [by eapply runs_hart_ok|apply Hf|done|]. intros l Hl.
  unfold ctrue. rewrite (proj2 (Z.eqb_neq _ _) Hk). cbn [negb]. unfold bind, ink, zoom. cbn [m_k set_m_k].
  rewrite (exit_null (F := iost) (set_plk l s) i p (-1) fs ips); try done.
  destruct D1 as (_ & _ & Hl1 & Hi1). split; [by eapply runs_same|]. split; [intros k; by eapply lk_same_free|done].
Qed.

Lemma doomed_setkilled i s p l : doomed i s p -> lk_same (plk s) l ->
  doomed i (set_plk l (set_procs (alter (with_killed 1) i (procs s)) s)) (with_killed 1 p).
Proof.
  intros [D1 D2 D3 D4 D5 D6] Hl. split; try done; cbn [procs set_plk set_procs].
  - apply (calm_procs i s (with_killed 1)) in D1 as (Hr & Hf & Hn). split; [by eapply runs_same|]. split; [intros k; by eapply lk_same_free|done].
  - by rewrite list_lookup_alter_eq, D2.
Qed.

Lemma printf_fail {A} i m s fmt ap out (k : T A) e :
  m_k m = s -> kready [] i s -> panicked (pfs s) = 0 -> chars_ok fmt -> Forall parg_ok ap -> printf_chars fmt ap = Some out ->
  (forall s', kframe i s s' -> pfs s' = set_urt (sent_sync out (urt (pfs s))) (pfs s) -> k (set_m_k s' m) = Fail e) ->
  bind (ink (printf fmt ap)) (fun _ => k) m = Fail e.
Proof.
  intros Em Hr Hp Hf Ha Ho HQ. apply bind_fail_r, ink_wp. rewrite Em. eapply (printf_emits [] i); [done|done|exact Ho|simpl; lia|apply not_elem_of_nil|done|done|].
  intros s2 S2. apply HQ; [by eapply sends_frame|by eapply sends_pfs].
Qed.

Lemma two_args a b : parg_ok a -> parg_ok b -> Forall parg_ok [a; b].
Proof. intros Ha Hb. by repeat apply Forall_cons_2. Qed.

Lemma usertrap_exception i m s p :
  m_k m = s -> doomed i s p -> panicked (pfs s) = 0 -> from_user (m_csr m) ->
  Z.testbit (c_scause (m_csr m)) 63 = false -> c_scause (m_csr m) <> 8 ->
  0 <= c_scause (m_csr m) < 2 ^ 64 -> 0 <= c_sepc (m_csr m) < 2 ^ 64 -> 0 <= c_stval (m_csr m) < 2 ^ 64 ->
  usertrap m = Fail (EUB "exit: msg").
Proof.
  intros Em Hd Hpn Hu Hb H8 Hr1 Hr2 Hr3. unfold usertrap. apply bind_fail_r, r_sstatus_wp. rewrite spp_test by done.
  unfold w_stvec, ucsr. apply bind_fail_r, wp_modify. pose proof Hd as [D1 D2 D3 D4 D5 D6].
  apply (tcur_fail i s _ p); [done|done|done|]. intros l1 Hl1. unfold r_sepc, gcsr. apply bind_fail_r, wp_gets.
  apply bind_fail_r. apply ink_wp. unfold phys_wr, inmem. do 2 wp_step. set (m2 := set_m_k _ _).
  assert (Hd2 : doomed i (m_k m2) p).
  { split; try done. cbn [m2 m_k set_m_k]. destruct D1 as (Hr & Hf & Hl & Hi).
    split; [by eapply runs_same|]. split; [intros k; by eapply lk_same_free|done]. }
  unfold r_scause at 1, gcsr. apply bind_fail_r, wp_gets. change (c_scause (m_csr m2)) with (c_scause (m_csr m)).
  rewrite (proj2 (Z.eqb_neq _ _) H8). apply bind_fail_r, devintr_exception; [done|]. cbn [ctrue Z.eqb negb].
  eapply (printf_fail i m2); [reflexivity|by apply calm_kready, Hd2|done|apply (bool_decide_unpack (Forall _ _)); vm_compute; exact I
    |by apply two_args|reflexivity|]. intros s3 K3 P3. unfold r_sepc, r_stval, gcsr. do 2 apply bind_fail_r, wp_gets.
  pose proof (doomed_frame _ _ _ _ _ Hd2 K3 P3) as Hd3. set (m3 := set_m_k s3 m2).
  eapply (printf_fail i m3); [reflexivity|by apply calm_kready, Hd3|cbn [m3 m_k set_m_k]; by rewrite P3
    |apply (bool_decide_unpack (Forall _ _)); vm_compute; exact I
    |by apply two_args|reflexivity|].
  intros s4 K4 P4. pose proof (doomed_frame _ _ _ _ _ Hd3 K4 P4) as Hd4.
  apply bind_fail_r, ink_wp. apply (setkilled_wp i s4 p); [apply Hd4|apply Hd4|]. intros l5 Hl5.
  eapply (usertrap_end_killed i _ _ (with_killed 1 p)); [reflexivity|by apply doomed_setkilled|done].
Qed.

(** ** The timer *)

Definition TIMER : Z := 0x8000000000000001.

(** One tick: sleepers on [&ticks] are woken. *)
Definition tick i s : kernel :=
  set_ticks (u32 (ticks s + 1)) (set_procs (wakeup_table ticks_addr (Some i) (procs s)) s).

Lemma clockintr_wp i s m (Q : unit -> mach -> Prop) :
  m_k m = s -> calm i s -> (forall l, lk_same (plk s) l -> Q tt (set_m_k (set_plk l (tick i s)) m)) -> wp clockintr m Q.
Proof.
  intros Em Hc HQ. pose proof Hc as (Hr & Hf & Hl & Hi). pose proof (runs_hart_ok _ _ _ Hr) as Hh.
  unfold clockintr. wp_step. apply ink_wp. rewrite Em. apply acq_wp; [done|apply Hf|]. intros l1 Hl1.
  wp_step. apply ink_wp, wp_modify. wp_step. apply ink_wp.
  apply (wakeup_wp _ _ (Some i) (0 + 1)); [done|by eapply (runs_acquired TicksLock); [lia|exact Hr|exact Hl1]|lia| |].
  { intros j _. destruct Hl1 as (_ & _ & _ & Hls & _). unfold lock_free. cbn [plk set_plk set_ticks set_m_k m_k]. rewrite Hls by done. apply Hf. }
  intros l2 Hl2. apply ink_wp. apply (rel_wp _ (plk s)); [|done|apply Hf|].
  { destruct Hh as (c & Hcc & Hn & _). destruct Hr as (_ & c' & Hc' & _ & En & _). rewrite Hcc in Hc'. injection Hc' as <-.
    eapply acquired_same; [exact Hcc|lia|exact Hl1|exact Hl2]. }
  intros l3 Hl3. by apply HQ.
Qed.

Lemma devintr_timer i s m (Q : Z -> mach -> Prop) :
  m_k m = s -> calm i s -> c_scause (m_csr m) = TIMER -> hart (plk s) = 0%nat ->
  (forall l, lk_same (plk s) l ->
     Q 2 (set_m_csr (set_sip (Z.ldiff (c_sip (m_csr m)) 2) (m_csr m)) (set_m_k (set_plk l (tick i s)) m))) ->
  wp devintr m Q.
Proof.
  intros Em Hc Hs Hh HQ. unfold devintr, r_scause, gcsr. do 2 wp_step. rewrite Hs. cbv beta.
  change (Z.testbit TIMER 63 && (Z.land TIMER 0xff =? 9)) with false. change (TIMER =? 0x8000000000000001) with true. cbv iota.
  wp_step. unfold tcpuid. wp_step. apply ink_wp. unfold inlk, cpuid. wp_step. apply wp_gets. apply wp_ret.
  replace (hart (plk (m_k m))) with 0%nat by (by rewrite Em). cbn [Z.of_nat Z.eqb]. wp_step.
  eapply (clockintr_wp i s); [cbn [m_k set_m_k]; rewrite Em; by destruct s|done|]. intros l Hl.
  wp_step. unfold r_sip, gcsr. wp_step. wp_step. unfold w_sip, ucsr. wp_step. wp_step. by apply HQ.
Qed.

(** The tick does not touch the running process. *)
Lemma tick_me i s p : procs s !! i = Some p -> procs (tick i s) !! i = Some p.
Proof.
  intros Hp. cbn [tick procs set_ticks set_procs]. rewrite lookup_wakeup_table, Hp. simpl. unfold woken.
  by rewrite (bool_decide_eq_false_2 (Some i <> Some i)) by auto.
Qed.

Lemma calm_tick i s l : calm i s -> lk_same (plk s) l -> calm i (set_plk l (tick i s)).
Proof.
  intros (Hr & Hf & Hl & [p Hi]) Hs. split; [by eapply runs_same|]. split; [intros k; by eapply lk_same_free|].
  cbn [procs set_plk]. split; [|exists p; by apply tick_me]. cbn [tick procs set_ticks set_procs]. by rewrite length_wakeup_table.
Qed.

Lemma usertrap_timer_wp i m s p (Q : trap_end -> mach -> Prop) :
  m_k m = s -> calm i s -> procs s !! i = Some p -> p_killed p = 0 -> from_user (m_csr m) ->
  c_scause (m_csr m) = TIMER -> hart (plk s) = 0%nat ->
  (forall l mm, acquired (ProcLock i) (plk s) l -> mm = store64 (phys (pk s)) (trapframe p + TF_epc) (c_sepc (m_csr m)) ->
     Q (Yielded (sie (plk s)))
       (Mach (set_procs (alter yielded i (procs (tick i s))) (at_mem (tick i s) l mm))
             (set_sip (Z.ldiff (c_sip (m_csr m)) 2) (set_stvec kernelvec (m_csr m))) (m_plic m))) ->
  wp usertrap m Q.
Proof.
  intros Em Hc Hp Hk Hu Hs Hh HQ. unfold usertrap. wp_step. apply r_sstatus_wp. rewrite spp_test by done.
  wp_step. unfold w_stvec, ucsr. wp_step. set (m1 := set_m_csr _ m).
  apply (tcur_wp i s p (plk s) (phys (pk s)) m1); [by rewrite at_mem_id|by rewrite at_mem_id|done|]. intros l1 Hl1.
  assert (C1 : calm i (at_mem s l1 (phys (pk s)))) by (apply (at_mem_calm i s (plk s) l1 (phys (pk s))); [by rewrite at_mem_id|done]).
  wp_step. unfold r_sepc, gcsr. wp_step. wp_step. eapply tphys_wp; [reflexivity|].
  wp_step. unfold r_scause at 1, gcsr. wp_step. cbn [m1 m_csr set_m_csr set_m_k set_stvec c_scause c_sepc]. rewrite Hs.
  change (TIMER =? 8) with false. cbv iota. set (mm := store64 _ _ _). wp_step.
  assert (Eh : hart l1 = 0%nat) by (destruct Hl1 as (-> & _); done).
  eapply (devintr_timer i (at_mem s l1 mm)); [reflexivity|exact C1|done|done|]. intros l2 Hl2. cbn [plk at_mem set_plk] in Hl2.
  change (ctrue 2) with true. cbv iota. unfold usertrap_end. wp_step.
  pose proof (calm_tick i (at_mem s l1 mm) l2 C1 Hl2) as C2. pose proof (tick_me i (at_mem s l1 mm) p Hp) as Hp2.
  apply ink_wp. destruct C2 as (Hr2 & Hf2 & _). eapply (killed_wp _ i p); [by eapply runs_hart_ok|apply Hf2|exact Hp2|]. intros l3 Hl3.
  rewrite Hk. change (ctrue 0) with false. change (2 =? 2) with true. cbv iota. wp_step. apply ink_wp.
  cbn [plk set_plk set_m_csr m_k set_m_k] in Hl3. assert (H13 : lk_same l1 l3) by (by eapply lk_same_trans).
  eapply (yield_enter_wp _ i p); [exact (runs_same _ _ _ _ Hl3 Hr2)|exact (lk_same_free _ _ _ Hl3 (Hf2 _))|exact Hp2|].
  intros l4 Hl4. wp_step. assert (Es : lk_same (plk s) l3) by (by eapply lk_same_trans).
  assert (sie l3 = sie (plk s)) as E3 by apply Es. cbn [plk set_plk set_m_csr m_k set_m_k]. rewrite E3.
  apply (HQ l4 mm); [|done]. eapply acquired_from_same; [exact Es|exact Hl4|]. destruct Hc as [Hr _]. by eapply runs_hart_ok.
Qed.

(** ** Unknown numbers *)

Lemma handler_none n : handler n = None <-> ~ (1 <= n <= 22).
Proof.
  unfold handler. change NELEM_syscalls with 23. destruct (Z.ltb_spec 0 n) as [H1|H1]; cbn [andb]; [|split; [lia|done]].
  destruct (Z.ltb_spec n 23) as [H2|H2]; [|split; [lia|done]]. split; [|lia]. intros Hn _.
  assert (Hk : exists k, n = Z.of_nat k) by (exists (Z.to_nat n); lia). destruct Hk as [k ->]. rewrite Nat2Z.id in Hn.
  do 23 (destruct k as [|k]; [first [discriminate Hn|lia]|]). lia.
Qed.

End Spec.

(** * Traps and system calls: theorems

    A system call from the trap to the return to user space, the timer, and
    what happens to a process that takes an exception; with a file layer whose
    references are counted. *)

Section Theorems.
Context `{Linker} `{VirtioMmio}.

(** C25: memsize() from a user program. The trap of an ecall with 22 in a7
    comes back to user space after the ecall with the size of the process in
    a0, in user mode with interrupts on, traps going to the trampoline and the
    process's page table; the process table, the file system and the memory
    outside the trapframe are as they were. *)
Theorem usertrap_memsize m i p :
  let s := m_k m in
  calm i s -> procs s !! i = Some p -> p_killed p = 0 -> from_user (m_csr m) -> sie_clear (m_csr m) ->
  c_scause (m_csr m) = 8 -> 0 <= c_sepc (m_csr m) < 2 ^ 64 -> 0 <= sz p < 2 ^ 64 ->
  i32 (load64 (phys (pk s)) (trapframe p + TF_a7)) = SYS_memsize ->
  wp usertrap m (fun r m' =>
    r = ToUser (MAKE_SATP (pagetable p)) /\
    load64 (phys (pk (m_k m'))) (trapframe p + TF_a0) = sz p /\
    c_sepc (m_csr m') = u64 (c_sepc (m_csr m) + 4) /\
    c_stvec (m_csr m') = TRAMPOLINE + (uservec - trampoline) /\
    Z.testbit (c_sstatus (m_csr m')) 8 = false /\ Z.testbit (c_sstatus (m_csr m')) 5 = true /\
    sie (plk (m_k m')) = false /\ calm i (m_k m') /\
    procs (m_k m') = procs s /\ pfs (m_k m') = pfs s /\
    forall a, ~ (trapframe p <= a < trapframe p + TF_a0 + 8) -> rd (phys (pk (m_k m'))) a = rd (phys (pk s)) a).
Proof.
  intros s Hc Hp Hk Hu Hs Hsc Hep Hsz Hn. apply (usertrap_reads i m s p (returns sys_memsize) (sz p)); try done.
  { by rewrite Hn. } { by apply sys_memsize_reads. }
  intros l Eh Es Cl. cbn [m_k m_csr at_mem pk set_pk set_plk phys procs pfs plk ret_csr set_sepc set_sstatus set_stvec c_sepc c_sstatus c_stvec].
  unfold ret_mem, sys_mem, TF_kernel_satp, TF_kernel_sp, TF_kernel_trap, TF_kernel_hartid, TF_epc, TF_a0.
  split_and!; try done.
  - rewrite !load64_store64_ne by lia. rewrite load64_store64_eq by apply u64_range. by apply u64_small.
  - rewrite Z.lor_spec, Z.ldiff_spec, Hu. done.
  - rewrite Z.lor_spec. apply orb_true_r.
  - intros a Ha. rewrite !rd_store64_ne by lia. done.
Qed.


(** C38: a process that takes an exception in user mode (a page fault, an
    illegal instruction) is marked as killed and [usertrap] calls exit(-1, 0):
    the message is a null pointer, which [exit] reads. The kernel faults
    instead of ending the process. *)
Theorem usertrap_exception_faults m i p :
  doomed i (m_k m) p -> panicked (pfs (m_k m)) = 0 -> from_user (m_csr m) ->
  Z.testbit (c_scause (m_csr m)) 63 = false -> c_scause (m_csr m) <> 8 ->
  0 <= c_scause (m_csr m) < 2 ^ 64 -> 0 <= c_sepc (m_csr m) < 2 ^ 64 -> 0 <= c_stval (m_csr m) < 2 ^ 64 ->
  usertrap m = Fail (EUB "exit: msg").
Proof. intros. by eapply (usertrap_exception i m (m_k m) p). Qed.


End Theorems.

(** ** A concrete machine *)

(** The runner of the example, with a trapframe; no file is open and the
    root directory is its working directory. *)
Definition ex_tf : Z := 0x80050000.
Definition ex_trap_proc : proc := with_trapframe ex_tf (with_cwd (inode_addr 0) (with_ofile (replicate 16 0) ex_runner)).
Definition ex_trap_io : iost :=
  set_itable ex_idle_itable (set_ftable (replicate nfile closed_file) ex_io).
(** A machine that has trapped with the register a7, for the given cause. *)
Definition ex_mach (a7 cause : Z) : mach :=
  Mach (PSt (KSt (store64 (phys ex_state) (ex_tf + TF_a7) a7) (freelist ex_state)) (<[1%nat := ex_trap_proc]> ex_procs)
          (Some 0%nat) 5 0 (ex_lk (Some 1%nat)) ex_trap_io)
    (Csrs 0x20 0x1000 cause 0 0 0x8000000000087fff 2) (Plic [] []).

Lemma ex_mach_calm a7 cause : calm 1 (m_k (ex_mach a7 cause)).
Proof. split; [apply ex_runs|]. split; [done|]. split; [done|]. by eexists. Qed.

Lemma usertrap_memsize_witness :
  let m := ex_mach 22 8 in
  wp usertrap m (fun r m' =>
    r = ToUser (MAKE_SATP ex_root) /\ load64 (phys (pk (m_k m'))) (ex_tf + TF_a0) = 4096 /\ c_sepc (m_csr m') = 0x1004).
Proof.
  intros m. eapply wp_mono; [apply (usertrap_memsize m 1 ex_trap_proc)|].
  - apply ex_mach_calm.
  - done.
  - done.
  - done.
  - done.
  - done.
  - split; [by vm_compute|reflexivity].
  - split; [by vm_compute|reflexivity].
  - vm_compute. reflexivity.
  - intros r m' (A & C & D & _). split_and!; [exact A|exact C|]. rewrite D. reflexivity.
Defined.



Lemma ex_trap_files : files_inv ex_trap_io [] [inode_addr 0].
Proof.
  assert (Hf : forall k x, ftable ex_trap_io !! k = Some x -> x = File FD_NONE 0 0 0 0 0 0 0).
  { intros k x [-> _]%lookup_replicate. done. }
  split.
  - by apply ex_rest.
  - apply ex_idle_itab.
  - intros k x [[-> ->]|[Hne ->]]%ex_idle_lookup; rewrite cnt_cons.
    + rewrite decide_True by done. by vm_compute.
    + rewrite decide_False; [|intros E%inode_addr_inj; done]. by vm_compute.
  - intros k x [[-> ->]|[Hne ->]]%ex_idle_lookup; [by right|done].
  - constructor; [|constructor]. exists O. split; [unfold ninode; lia|done].
  - done.
  - intros k x ->%Hf. done.
  - intros k x ->%Hf. done.
  - constructor.
Qed.

Lemma usertrap_exception_faults_witness : usertrap (ex_mach 0 13) = Fail (EUB "exit: msg").
Proof.
  apply (usertrap_exception_faults (ex_mach 0 13) 1 ex_trap_proc).
  - split; [apply ex_mach_calm|reflexivity|discriminate|discriminate|reflexivity|]. exists [], [].
    exact ex_trap_files.
  - reflexivity.
  - reflexivity.
  - reflexivity.
  - discriminate.
  - split; [by vm_compute|reflexivity].
  - split; [by vm_compute|reflexivity].
  - split; [by vm_compute|reflexivity].
Defined.
