(* ===== verification/ULib.v ===== *)
(** * The C library of user programs

    [user/ulib.c] on the memory of a process.  [char] is unsigned on RISC-V;
    the routines that write return the new memory.  Routines without a bound
    of their own take the number of steps they may make. *)

From S2P Require Import Prelude Mem CString.

Fixpoint strcpy (fuel : nat) (m : mem) (s t : Z) : option mem :=
  match fuel with
  | O => None
  | S fuel => let c := rd m t in
              let m := wr m s c in
              if c =? 0 then Some m else strcpy fuel m (s + 1) (t + 1)
  end.

Fixpoint strcmp (fuel : nat) (m : mem) (p q : Z) : option Z :=
  match fuel with
  | O => None
  | S fuel => if ctrue (rd m p) && (rd m p =? rd m q) then strcmp fuel m (p + 1) (q + 1)
              else Some (rd m p - rd m q)
  end.

Fixpoint strlen_loop (fuel : nat) (m : mem) (s n : Z) : option Z :=
  match fuel with
  | O => None
  | S fuel => if ctrue (rd m (s + n)) then strlen_loop fuel m s (n + 1) else Some (u32 n)
  end.
Definition strlen (fuel : nat) (m : mem) (s : Z) : option Z := strlen_loop fuel m s 0.

Fixpoint memset_loop (k : nat) (m : mem) (cdst c i : Z) : mem :=
  match k with
  | O => m
  | S k => memset_loop k (wr m (cdst + i) c) cdst c (i + 1)
  end.
Definition memset (m : mem) (dst c n : Z) : mem := memset_loop (Z.to_nat (u32 n)) m dst c 0.

(** 0 when the character is not there; the NUL is never found. *)
Fixpoint strchr (fuel : nat) (m : mem) (s c : Z) : option Z :=
  match fuel with
  | O => None
  | S fuel => if rd m s =? 0 then Some 0
              else if rd m s =? c then Some s else strchr fuel m (s + 1) c
  end.

Fixpoint atoi_loop (fuel : nat) (m : mem) (s n : Z) : option Z :=
  match fuel with
  | O => None
  | S fuel => if (48 <=? rd m s) && (rd m s <=? 57)
              then atoi_loop fuel m (s + 1) (i32 (i32 (n * 10) + rd m s - 48)) else Some n
  end.
Definition atoi (fuel : nat) (m : mem) (s : Z) : option Z := atoi_loop fuel m s 0.

(** [n] is an int: nothing is copied when it is negative. *)
Definition memmove (m : mem) (vdst vsrc n : Z) : mem :=
  if vdst <? vsrc then copy_up (Z.to_nat n) m vdst vsrc
  else copy_down (Z.to_nat n) m (vdst + n) (vsrc + n).

Fixpoint memcmp (n : nat) (m : mem) (p1 p2 : Z) : Z :=
  match n with
  | O => 0
  | S n => if rd m p1 =? rd m p2 then memcmp n m (p1 + 1) (p2 + 1) else rd m p1 - rd m p2
  end.
Definition memcpy (m : mem) (dst src n : Z) : mem := memmove m dst src n.

(** ** Specifications *)

Lemma strlen_spec fuel m s bs :
  cstr m s bs -> (length bs < fuel)%nat -> Z.of_nat (length bs) < 2 ^ 32 -> strlen fuel m s = Some (Z.of_nat (length bs)).
Proof.
  intros Hs Hf Hb. unfold strlen.
  assert (Hgo : forall fuel n bs, cstr m (s + n) bs -> (length bs < fuel)%nat ->
    strlen_loop fuel m s n = Some (u32 (n + Z.of_nat (length bs)))).
  { clear. induction fuel as [|fuel IH]; intros n bs Hs Hf; [lia|]. cbn [strlen_loop].
    apply cstr_inv in Hs as [[-> E]|(x & bs' & -> & Hx & E & Hs)]; rewrite E.
    - cbn [length ctrue]. by rewrite Z.add_0_r.
    - unfold ctrue. rewrite (proj2 (Z.eqb_neq _ _) Hx). cbn [negb length] in *. rewrite <- Z.add_assoc in Hs.
      rewrite (IH (n + 1) bs' Hs) by lia. do 2 f_equal. lia. }
  rewrite (Hgo fuel 0 bs) by (rewrite ?Z.add_0_r; done). f_equal. apply u32_small. lia.
Qed.

Lemma strchr_none fuel m s bs c :
  cstr m s bs -> c ∉ bs -> (length bs < fuel)%nat -> strchr fuel m s c = Some 0.
Proof.
  revert s bs. induction fuel as [|fuel IH]; intros s bs Hs Hc Hf; [lia|]. cbn [strchr].
  apply cstr_inv in Hs as [[-> E]|(x & bs' & -> & Hx & E & Hs)]; rewrite E; [done|].
  rewrite (proj2 (Z.eqb_neq _ _) Hx). apply not_elem_of_cons in Hc as [Hc Hc'].
  destruct (Z.eqb_spec x c) as [->|_]; [done|]. simpl in Hf. apply (IH _ bs'); [done|done|lia].
Qed.

Lemma strchr_first fuel m s u c v :
  cstr m s (u ++ c :: v) -> c ∉ u -> (length u < fuel)%nat -> strchr fuel m s c = Some (s + Z.of_nat (length u)).
Proof.
  revert s u. induction fuel as [|fuel IH]; intros s u Hs Hc Hf; [lia|]. cbn [strchr]. destruct u as [|x u].
  - apply cstr_cons in Hs as (Hx & -> & _). rewrite (proj2 (Z.eqb_neq _ _) Hx), Z.eqb_refl. cbn [length]. f_equal. lia.
  - apply cstr_cons in Hs as (Hx & -> & Hs). rewrite (proj2 (Z.eqb_neq _ _) Hx). apply not_elem_of_cons in Hc as [Hc Hc'].
    destruct (Z.eqb_spec x c) as [->|_]; [done|]. cbn [length] in *. rewrite (IH _ u) by (done || lia). f_equal. lia.
Qed.

(** Overlapping or not, the bytes arrive. *)
Lemma memmove_spec m dst src n : 0 <= n -> copied m (memmove m dst src n) dst src n.
Proof.
  intros Hn. unfold memmove. pose proof (copy_up_spec (Z.to_nat n) m dst src) as Hup.
  pose proof (copy_down_spec (Z.to_nat n) m dst src) as Hdown. rewrite Z2Nat.id in Hup, Hdown by lia.
  destruct (Z.ltb_spec dst src); [apply Hup|apply Hdown]; lia.
Qed.

Lemma strcmp_spec fuel m p q s t :
  cstr m p s -> cstr m q t -> (length s < fuel)%nat ->
  exists r, strcmp fuel m p q = Some r /\ (r = 0 <-> s = t).
Proof.
  revert p q s t. induction fuel as [|fuel IH]; intros p q s t Hs Ht Hf; [lia|]. cbn [strcmp]. unfold ctrue.
  apply cstr_inv in Hs as [[-> ->]|(x & s' & -> & Hx & -> & Hs')];
  apply cstr_inv in Ht as [[-> ->]|(y & t' & -> & Hy & -> & Ht')]; simpl in *.
  - eexists. split; [done|]. done.
  - eexists. split; [done|]. split; [lia|done].
  - destruct (Z.eqb_spec x 0); [done|]. simpl. eexists. split; [done|]. split; [lia|done].
  - destruct (Z.eqb_spec x 0); [done|]. simpl. destruct (Z.eqb_spec x y) as [->|?].
    + destruct (IH (p + 1) (q + 1) s' t') as (r & -> & Hr); [done|done|lia|]. exists r. split; [done|].
      rewrite Hr. split; [by intros ->|by intros [=]].
    + eexists. split; [done|]. split; [lia|congruence].
Qed.

Lemma cstr_ext m m' t bs : (forall a, t <= a <= t + Z.of_nat (length bs) -> rd m' a = rd m a) -> cstr m t bs -> cstr m' t bs.
Proof.
  intros E [H1 H2]. split.
  - intros i b Hb. destruct (H1 i b Hb) as [Hb0 Hr]. split; [done|]. rewrite E; [done|]. apply lookup_lt_Some in Hb. lia.
  - rewrite E; [done|]. lia.
Qed.

Lemma cstr_bytes_at m t bs : cstr m t bs -> bytes (length bs) m t = bs.
Proof.
  revert t. induction bs as [|x bs IH]; intros t Hs; [done|]. apply cstr_cons in Hs as (_ & E & Hs). cbn [bytes length].
  by rewrite E, IH.
Qed.

(** ** Reading numbers *)

Definition digits_value (ds : list Z) : Z := foldl (fun n d => n * 10 + (d - 48)) 0 ds.
Definition is_digit (c : Z) : Prop := 48 <= c <= 57.

Lemma foldl_digits_mono n ds : 0 <= n -> Forall is_digit ds -> n <= foldl (fun n d => n * 10 + (d - 48)) n ds.
Proof.
  intros Hn Hd. revert n Hn. induction Hd as [|d ds Hd Hds IH]; intros n Hn; simpl; [lia|]. unfold is_digit in *.
  specialize (IH (n * 10 + (d - 48))). lia.
Qed.

Lemma atoi_loop_spec fuel m s ds n :
  (forall i d, ds !! i = Some d -> rd m (s + Z.of_nat i) = d) -> Forall is_digit ds ->
  ~ is_digit (rd m (s + Z.of_nat (length ds))) -> (length ds < fuel)%nat -> 0 <= n ->
  foldl (fun n d => n * 10 + (d - 48)) n ds < 2 ^ 31 ->
  atoi_loop fuel m s n = Some (foldl (fun n d => n * 10 + (d - 48)) n ds).
Proof.
  revert s ds n. induction fuel as [|fuel IH]; intros s ds n Hr Hd He Hf H0 Hv; [lia|]. cbn [atoi_loop].
  destruct ds as [|d ds].
  - cbn [length foldl] in *. rewrite Z.add_0_r in He. unfold is_digit in He.
    destruct (Z.leb_spec 48 (rd m s)), (Z.leb_spec (rd m s) 57); cbn [andb]; try done. lia.
  - apply Forall_cons in Hd as [Hd Hds]. pose proof (Hr 0%nat d eq_refl) as E. rewrite Z.add_0_r in E.
    rewrite E. unfold is_digit in Hd. rewrite (proj2 (Z.leb_le 48 d)), (proj2 (Z.leb_le d 57)) by lia. cbn [andb foldl length] in *.
    pose proof (foldl_digits_mono (n * 10 + (d - 48)) ds) as Hm.
    assert (Hb : n * 10 + (d - 48) < 2 ^ 31) by (apply Hm in Hds; lia).
    rewrite (i32_small (n * 10)) by lia. rewrite i32_small by lia. replace (n * 10 + d - 48) with (n * 10 + (d - 48)) by lia.
    apply (IH (s + 1) ds); [|done| |lia|lia|done].
    + intros i x Hx. rewrite <- (Hr (S i) x Hx). f_equal. lia.
    + replace (s + 1 + Z.of_nat (length ds)) with (s + Z.of_nat (S (length ds))) by lia. done.
Qed.

(** The number that the leading digits denote, if it fits an int. *)
Lemma atoi_spec fuel m s ds :
  (forall i d, ds !! i = Some d -> rd m (s + Z.of_nat i) = d) -> Forall is_digit ds ->
  ~ is_digit (rd m (s + Z.of_nat (length ds))) -> (length ds < fuel)%nat -> digits_value ds < 2 ^ 31 ->
  atoi fuel m s = Some (digits_value ds).
Proof. intros Hr Hd He Hf Hv. by apply atoi_loop_spec. Qed.

(** * User programs

    What a program of [user/] sees of the machine: its memory and the system
    calls.  The calls are an interface, [UserOS], over a type of worlds; a
    program is a routine over memory and world that returns or exits. *)

Record ust (W : Type) := USt { umem : mem; uw : W }.
Arguments USt {_} _ _.
Arguments umem {_} _.
Arguments uw {_} _.

(** A routine returns, or the program ends with exit(status, msg). *)
Inductive outcome (A : Type) := Done (a : A) | Exited (status msg : Z).
Arguments Done {_} _.
Arguments Exited {_} _ _.

Record stat_info := StatInfo { st_dev : Z; st_ino : Z; st_type : Z; st_nlink : Z; st_size : Z }.

(** The system calls.  [None] is the return value -1. *)
Class UserOS (W : Type) := {
  os_read : Z -> Z -> W -> option (list Z) * W;   (** fd, n *)
  os_write : Z -> list Z -> W -> Z * W;           (** fd, bytes *)
  os_open : list Z -> Z -> W -> Z * W;            (** path, mode *)
  os_close : Z -> W -> Z * W;
  os_fstat : Z -> W -> option stat_info * W;      (** fd *)
  os_kill : Z -> W -> Z * W;                      (** pid *)
  os_link : list Z -> list Z -> W -> Z * W;       (** old, new *)
  os_unlink : list Z -> W -> Z * W;
  os_mkdir : list Z -> W -> Z * W;
}.

Abbreviation U W A := (M (ust W) (outcome A)).

Declare Scope user_scope.
Delimit Scope user_scope with U.

Section User.
Context {W : Type} `{!UserOS W}.

Definition uret {A} (a : A) : U W A := ret (Done a).
Definition uexit {A} (status msg : Z) : U W A := ret (Exited status msg).
Definition ubind {A B} (c : U W A) (k : A -> U W B) : U W B :=
  bind c (fun r => match r with Done a => k a | Exited s m => ret (Exited s m) end).

(** Memory. *)
Definition uload (a : Z) : U W Z := gets (fun s => Done (rd (umem s) a)).
Definition ustore (a v : Z) : U W unit := fun s => Ok (Done tt) (USt (wr (umem s) a v) (uw s)).
Definition umod (f : mem -> mem) : U W unit := fun s => Ok (Done tt) (USt (f (umem s)) (uw s)).
(** A routine of the library that only reads; without an answer in the given
    number of steps the program does not come back. *)
Definition upure {A} (f : mem -> option A) : U W A :=
  fun s => match f (umem s) with Some a => Ok (Done a) s | None => Fail EFuel end.

(** read(fd, buf, n), write(fd, buf, n), open, close *)
Definition uread (fd buf n : Z) : U W Z :=
  fun s => let (r, w) := os_read fd n (uw s) in
           match r with
           | Some l => Ok (Done (Z.of_nat (length l))) (USt (wr_bytes (umem s) buf l) w)
           | None => Ok (Done (-1)) (USt (umem s) w)
           end.
Definition uwrite (fd buf n : Z) : U W Z :=
  fun s => let (r, w) := os_write fd (bytes (Z.to_nat n) (umem s) buf) (uw s) in Ok (Done r) (USt (umem s) w).
Definition uopen (path : list Z) (mode : Z) : U W Z :=
  fun s => let (r, w) := os_open path mode (uw s) in Ok (Done r) (USt (umem s) w).
Definition uclose (fd : Z) : U W Z :=
  fun s => let (r, w) := os_close fd (uw s) in Ok (Done r) (USt (umem s) w).

(** ** Rules *)

Lemma uret_wp {A} (a : A) s Q : Q (Done a) s -> wp (uret a) s Q.
Proof. done. Qed.

Lemma ubind_wp {A B} (c : U W A) (k : A -> U W B) s Q :
  wp c s (fun r s' => match r with Done a => wp (k a) s' Q | Exited e m => Q (Exited e m) s' end) -> wp (ubind c k) s Q.
Proof. intros Hc. apply wp_bind. eapply wp_mono; [exact Hc|]. by intros [a|e m] s'. Qed.

Lemma upure_wp {A} (f : mem -> option A) a s Q : f (umem s) = Some a -> Q (Done a) s -> wp (upure f) s Q.
Proof. intros E HQ. unfold wp, upure. by rewrite E. Qed.

End User.

Notation "x <- c1 ;; c2" := (ubind c1 (fun x => c2))
  (at level 100, c1 at next level, right associativity) : user_scope.
Notation "c1 ;; c2" := (ubind c1 (fun _ => c2))
  (at level 100, right associativity) : user_scope.

(** ** Streams

    What programs that read a file from front to back and write to the
    standard output rely on: [read] delivers some of the bytes that are left,
    at least one if there is one and room for it; a [write] to the standard
    output appends. *)

Class StreamOS (W : Type) `{UserOS W} := {
  left_on : Z -> W -> list Z;   (** bytes that [fd] still delivers *)
  written : W -> list Z;        (** what has been written to fd 1 *)
  read_stream fd n w l w' : 0 <= n -> os_read fd n w = (l, w') ->
    exists u v, l = Some u /\ left_on fd w = u ++ v /\ left_on fd w' = v /\ written w' = written w /\
      Z.of_nat (length u) <= n /\ (u = [] -> n = 0 \/ v = []);
  write_stream bs w r w' : os_write 1 bs w = (r, w') ->
    written w' = written w ++ bs /\ forall fd, left_on fd w' = left_on fd w;
  write_result bs w r w' : os_write 1 bs w = (r, w') -> r = Z.of_nat (length bs);
}.

(** A world with one input, whose reads deliver at most as many bytes as the
    next element of a list says. *)
Record pipe_world := PipeWorld { pw_in : list Z; pw_sizes : list nat; pw_out : list Z }.

Definition pw_take (n : Z) (w : pipe_world) : nat :=
  Nat.min (Z.to_nat n) (match pw_sizes w with [] => Z.to_nat n | k :: _ => S k end).

#[export] Instance pipe_os : UserOS pipe_world := {|
  os_read _ n w := (Some (take (pw_take n w) (pw_in w)),
                    PipeWorld (drop (pw_take n w) (pw_in w)) (tail (pw_sizes w)) (pw_out w));
  os_write _ bs w := (Z.of_nat (length bs), PipeWorld (pw_in w) (pw_sizes w) (pw_out w ++ bs));
  os_open _ _ w := (-1, w);
  os_close _ w := (0, w);
  os_fstat _ w := (None, w);
  os_kill _ w := (-1, w);
  os_link _ _ w := (-1, w);
  os_unlink _ w := (-1, w);
  os_mkdir _ w := (-1, w);
|}.

#[export] Instance pipe_stream : StreamOS pipe_world.
Proof.
  refine {| left_on _ w := pw_in w; written w := pw_out w |}.
  - intros _ n w l w' Hn [= <- <-]. exists (take (pw_take n w) (pw_in w)), (drop (pw_take n w) (pw_in w)). cbn.
    split; [done|]. split; [by rewrite take_drop|]. split; [done|]. split; [done|]. rewrite length_take. unfold pw_take.
    split; [lia|]. intros E. destruct (pw_in w) as [|x l]; [right; apply drop_nil|]. left.
    destruct (Nat.min _ _) eqn:Em; [|done]. destruct (pw_sizes w); lia.
  - by intros bs w r w' [= <- <-].
  - by intros bs w r w' [= <- <-].
Defined.
