(* ===== verification/UPrintf.v ===== *)
(** * Formatted output of user programs

    [user/printf.c]: every character is a [write] of one byte.  A format is the
    list of its bytes before the NUL; a string argument is an address.  What a
    call writes is described by [fmt_chars], for any operating system. *)

From S2P Require Import Prelude Mem CString ULib.

(** Arguments as [va_arg] finds them: int or uint, uint64, char*. *)
Inductive uarg := UInt (v : Z) | ULong (v : Z) | UStr (p : Z).

Definition digits : list Z := str "0123456789ABCDEF".

(** The digits of [x] in [base], least significant first, as the loop of
    [printint] stores them. *)
Fixpoint int_digits (fuel : nat) (x base : Z) : list Z :=
  match fuel with
  | O => []
  | S fuel =>
      default 0 (digits !! Z.to_nat (x mod base)) ::
      (if x / base =? 0 then [] else int_digits fuel (x / base) base)
  end.

(** A routine that the compiler may take to do anything. *)
Definition uub {W A} (why : string) : U W A := fun _ => Fail (EUB why).

Section UPrintf.
Context {W : Type} `{!UserOS W}.
Local Open Scope user_scope.

Definition putc (fd c : Z) : U W unit :=
  fun s => let (_, w) := os_write fd [u8 c] (uw s) in Ok (Done tt) (USt (umem s) w).

Fixpoint put_list (fd : Z) (cs : list Z) : U W unit :=
  match cs with [] => uret tt | c :: cs => putc fd c ;; put_list fd cs end.

(** The array [buf] of [printint] has 16 elements. *)
Definition printint (fd xx base : Z) (sgn : bool) : U W unit :=
  let xx := i32 xx in
  let neg := sgn && (xx <? 0) in
  let x := if neg then u32 (- xx) else u32 xx in
  let ds := int_digits 32 x base in
  let buf := if neg then ds ++ [45] else ds in
  if (16 <? length buf)%nat then uub "printint: buf[]" else put_list fd (reverse buf).

Fixpoint printptr_loop (n : nat) (fd x : Z) : U W unit :=
  match n with
  | O => uret tt
  | S n => putc fd (default 0 (digits !! Z.to_nat (Z.shiftr x 60))) ;; printptr_loop n fd (u64 (Z.shiftl x 4))
  end.
Definition printptr (fd x : Z) : U W unit := putc fd 48 ;; putc fd 120 ;; printptr_loop 16 fd x.

(** The characters of a string in memory, up to the NUL. *)
Fixpoint put_string (fuel : nat) (fd s : Z) : U W unit :=
  match fuel with
  | O => fun _ => Fail EFuel
  | S fuel =>
      c <- uload s ;;
      if c =? 0 then uret tt else putc fd c ;; put_string fuel fd (s + 1)
  end.

Fixpoint vprintf (fuel : nat) (fd : Z) (fmt : list Z) (ap : list uarg) : U W unit :=
  match fmt with
  | [] => uret tt
  | c :: fmt =>
      if negb (c =? 37) then putc fd c ;; vprintf fuel fd fmt ap
      else
        match fmt with
        | [] => uret tt
        | c :: fmt =>
            if c =? 100 then
              match ap with UInt v :: ap => printint fd v 10 true ;; vprintf fuel fd fmt ap | _ => uub "va_arg" end
            else if c =? 108 then
              match ap with ULong v :: ap => printint fd v 10 false ;; vprintf fuel fd fmt ap | _ => uub "va_arg" end
            else if c =? 120 then
              match ap with UInt v :: ap => printint fd v 16 false ;; vprintf fuel fd fmt ap | _ => uub "va_arg" end
            else if c =? 112 then
              match ap with ULong v :: ap => printptr fd v ;; vprintf fuel fd fmt ap | _ => uub "va_arg" end
            else if c =? 115 then
              match ap with
              | UStr s :: ap =>
                  (if s =? 0 then put_list fd (str "(null)") else put_string fuel fd s) ;; vprintf fuel fd fmt ap
              | _ => uub "va_arg"
              end
            else if c =? 99 then
              match ap with UInt v :: ap => putc fd v ;; vprintf fuel fd fmt ap | _ => uub "va_arg" end
            else if c =? 37 then putc fd c ;; vprintf fuel fd fmt ap
            else putc fd 37 ;; putc fd c ;; vprintf fuel fd fmt ap
        end
  end.

Definition fprintf (fuel : nat) (fd : Z) (fmt : list Z) (ap : list uarg) : U W unit := vprintf fuel fd fmt ap.
Definition printf (fuel : nat) (fmt : list Z) (ap : list uarg) : U W unit := vprintf fuel 1 fmt ap.

(** ** What is written *)

(** The world after the bytes [cs], one at a time. *)
Definition emit (fd : Z) (cs : list Z) (w : W) : W := foldl (fun w c => (os_write fd [u8 c] w).2) w cs.

(** [c] writes [cs] to [fd] and does nothing else. *)
Definition writes (fd : Z) (cs : list Z) (c : U W unit) (m : mem) : Prop :=
  forall w, c (USt m w) = Ok (Done tt) (USt m (emit fd cs w)).

Lemma writes_nil fd m : writes fd [] (uret tt) m.
Proof. done. Qed.

Lemma writes_putc fd c m : writes fd [c] (putc fd c) m.
Proof. intros w. unfold putc, emit. cbn [umem uw foldl]. by destruct (os_write fd [u8 c] w). Qed.

Lemma writes_seq fd cs ds c d m : writes fd cs c m -> writes fd ds d m -> writes fd (cs ++ ds) (c ;; d) m.
Proof. intros Hc Hd w. unfold ubind, bind. rewrite Hc, Hd. unfold emit. by rewrite foldl_app. Qed.

Lemma writes_list fd cs m : writes fd cs (put_list fd cs) m.
Proof. induction cs as [|c cs IH]; [done|]. apply (writes_seq fd [c] cs); [apply writes_putc|exact IH]. Qed.

Lemma writes_string fuel fd s t m : cstr m s t -> (length t < fuel)%nat -> writes fd t (put_string fuel fd s) m.
Proof.
  revert s t. induction fuel as [|fuel IH]; intros s t Ht Hf; [lia|]. cbn [put_string].
  apply cstr_inv in Ht as [[-> E]|(x & t' & -> & Hx & E & Ht')]; intros w; unfold ubind at 1, bind, uload, gets; cbn [umem]; rewrite E.
  - done.
  - rewrite (proj2 (Z.eqb_neq x 0) Hx). apply (writes_seq fd [x] t'); [apply writes_putc|]. apply IH; [done|simpl in Hf; lia].
Qed.

End UPrintf.

(** ** The characters of a conversion *)

Definition int_chars (xx base : Z) (sgn : bool) : list Z :=
  let xx := i32 xx in
  let neg := sgn && (xx <? 0) in
  let ds := int_digits 32 (if neg then u32 (- xx) else u32 xx) base in
  reverse (if neg then ds ++ [45] else ds).
Fixpoint ptr_digits (n : nat) (x : Z) : list Z :=
  match n with O => [] | S n => default 0 (digits !! Z.to_nat (Z.shiftr x 60)) :: ptr_digits n (u64 (Z.shiftl x 4)) end.

Definition ptr_chars (x : Z) : list Z := 48 :: 120 :: ptr_digits 16 x.

(** The output for a format and its arguments; [strs] are the strings at the
    addresses, and there is no output for arguments that do not fit. *)
Fixpoint fmt_chars (strs : Z -> list Z) (fmt : list Z) (ap : list uarg) : option (list Z) :=
  match fmt with
  | [] => Some []
  | c :: fmt =>
      if negb (c =? 37) then cons c <$> fmt_chars strs fmt ap
      else
        match fmt with
        | [] => Some []
        | c :: fmt =>
            if c =? 100 then match ap with UInt v :: ap => app (int_chars v 10 true) <$> fmt_chars strs fmt ap | _ => None end
            else if c =? 108 then match ap with ULong v :: ap => app (int_chars v 10 false) <$> fmt_chars strs fmt ap | _ => None end
            else if c =? 120 then match ap with UInt v :: ap => app (int_chars v 16 false) <$> fmt_chars strs fmt ap | _ => None end
            else if c =? 112 then match ap with ULong v :: ap => app (ptr_chars v) <$> fmt_chars strs fmt ap | _ => None end
            else if c =? 115 then
              match ap with UStr s :: ap => app (if s =? 0 then str "(null)" else strs s) <$> fmt_chars strs fmt ap | _ => None end
            else if c =? 99 then match ap with UInt v :: ap => cons v <$> fmt_chars strs fmt ap | _ => None end
            else if c =? 37 then cons c <$> fmt_chars strs fmt ap
            else app [37; c] <$> fmt_chars strs fmt ap
        end
  end.

Lemma fmt_char strs c fmt ap : c <> 37 -> fmt_chars strs (c :: fmt) ap = cons c <$> fmt_chars strs fmt ap.
Proof. intros Hc. cbn [fmt_chars]. by rewrite (proj2 (Z.eqb_neq c 37) Hc). Qed.

Lemma fmt_d strs fmt v ap : fmt_chars strs (37 :: 100 :: fmt) (UInt v :: ap) = app (int_chars v 10 true) <$> fmt_chars strs fmt ap.
Proof. done. Qed.

Lemma fmt_s strs fmt p ap : p <> 0 -> fmt_chars strs (37 :: 115 :: fmt) (UStr p :: ap) = app (strs p) <$> fmt_chars strs fmt ap.
Proof. intros Hp. cbn [fmt_chars Z.eqb Pos.eqb negb]. by rewrite (proj2 (Z.eqb_neq p 0) Hp). Qed.

Lemma digits_bound fuel k x base : (1 <= k)%nat -> 1 < base -> 0 <= x < base ^ Z.of_nat k -> (length (int_digits fuel x base) <= k)%nat.
Proof.
  revert k x. induction fuel as [|fuel IH]; intros k x Hk Hb Hx; cbn [int_digits length]; [lia|].
  destruct (Z.eqb_spec (x / base) 0) as [E|E]; [simpl; lia|]. destruct k as [|k]; [lia|].
  assert (Hp : base ^ Z.of_nat (S k) = base * base ^ Z.of_nat k) by (rewrite Nat2Z.inj_succ, Z.pow_succ_r by lia; done).
  assert (Hq : 0 <= x / base < base ^ Z.of_nat k) by (split; [apply Z.div_pos; lia|apply Z.div_lt_upper_bound; lia]).
  destruct k as [|k]; [simpl in Hq; lia|]. specialize (IH (S k) (x / base) ltac:(lia) Hb Hq). lia.
Qed.

Section Writes.
Context {W : Type} `{!UserOS W}.

Lemma writes_int fd xx base sgn m : base = 10 \/ base = 16 -> writes (W := W) fd (int_chars xx base sgn) (printint fd xx base sgn) m.
Proof.
  intros Hb. unfold printint, int_chars. cbv zeta. pose proof (i32_range xx) as Hi. set (neg := sgn && (i32 xx <? 0)). set (x := if neg then u32 _ else u32 _).
  assert (Hx : 0 <= x < 2 ^ 32) by (unfold x; destruct neg; apply u32_range).
  assert (Hl : (length (int_digits 32 x base) <= 10)%nat) by (apply digits_bound; [lia|lia|]; destruct Hb as [-> | ->]; simpl Z.of_nat; lia).
  clearbody x. revert Hl. generalize (int_digits 32 x base). intros ds Hl.
  rewrite (proj2 (Nat.ltb_ge _ _)) by (destruct neg; rewrite ?length_app; simpl; lia). apply writes_list.
Qed.

Lemma writes_ptr n fd x m : writes (W := W) fd (ptr_digits n x) (printptr_loop n fd x) m.
Proof. revert x. induction n as [|n IH]; intros x; [done|]. apply (writes_seq fd [_]); [apply writes_putc|apply IH]. Qed.

Lemma writes_pointer fd x m : writes (W := W) fd (ptr_chars x) (printptr fd x) m.
Proof.
  unfold printptr, ptr_chars. pose proof (writes_ptr 16 fd x m) as Hw. revert Hw. generalize (ptr_digits 16 x) (printptr_loop (W := W) 16 fd x). intros ds k Hk.
  apply (writes_seq fd [48] (120 :: ds)); [apply writes_putc|]. apply (writes_seq fd [120] ds); [apply writes_putc|done].
Qed.

(** A conversion that takes an argument. *)
Ltac conv Hc Hnext pre w ap' fmt strs :=
  destruct (fmt_chars strs fmt ap') as [rest|] eqn:E; [|done]; apply (inj Some) in Hc as <-;
  apply (Hnext fmt ap' pre); [lia|by eauto|w|done].

(** [vprintf] writes the characters of the format, for any operating system. *)
Lemma vprintf_writes fuel fd strs m fmt ap cs :
  (forall p, UStr p ∈ ap -> p <> 0 -> cstr m p (strs p) /\ (length (strs p) < fuel)%nat) ->
  fmt_chars strs fmt ap = Some cs -> writes (W := W) fd cs (vprintf fuel fd fmt ap) m.
Proof.
  remember (length fmt) as n eqn:En. assert (Hn : (length fmt <= n)%nat) by lia. clear En. revert fmt ap cs Hn.
  induction n as [|n IH]; intros fmt ap cs Hn Hs Hc; (destruct fmt as [|c fmt]; [simpl in Hc; apply (inj Some) in Hc as <-; done|]); [simpl in Hn; lia|].
  cbn [fmt_chars vprintf] in *. cbn [length] in Hn.
  assert (Hnext : forall fmt' ap' pre rest (k : U W unit), (length fmt' <= n)%nat -> (forall p, UStr p ∈ ap' -> UStr p ∈ ap) -> writes fd pre k m ->
    fmt_chars strs fmt' ap' = Some rest -> writes fd (pre ++ rest) (k ;; vprintf fuel fd fmt' ap')%U m).
  { intros fmt' ap' pre rest k Hl Ha Hk Hr. apply writes_seq; [done|]. apply IH; [done|auto|done]. }
  destruct (negb (c =? 37)).
  { destruct (fmt_chars strs fmt ap) as [rest|] eqn:E; [|done]. apply (inj Some) in Hc as <-. apply (Hnext fmt ap [c]); [lia|auto|apply writes_putc|done]. }
  destruct fmt as [|d fmt]; [by apply (inj Some) in Hc as <-|]. cbn [length] in Hn.
  assert (Htl : forall a ap', ap = a :: ap' -> forall p, UStr p ∈ ap' -> UStr p ∈ ap) by (intros a ap' -> p; by right).
  destruct (d =? 100); [destruct ap as [|[v|v|p] ap']; try done; conv Hc Hnext (int_chars v 10 true) ltac:(apply writes_int; auto) ap' fmt strs|].
  destruct (d =? 108); [destruct ap as [|[v|v|p] ap']; try done; conv Hc Hnext (int_chars v 10 false) ltac:(apply writes_int; auto) ap' fmt strs|].
  destruct (d =? 120); [destruct ap as [|[v|v|p] ap']; try done; conv Hc Hnext (int_chars v 16 false) ltac:(apply writes_int; auto) ap' fmt strs|].
  destruct (d =? 112); [destruct ap as [|[v|v|p] ap']; try done; conv Hc Hnext (ptr_chars v) ltac:(apply writes_pointer) ap' fmt strs|].
  destruct (d =? 115).
  { destruct ap as [|[v|v|p] ap']; try done. destruct (fmt_chars strs fmt ap') as [rest|] eqn:E; [|done]. apply (inj Some) in Hc as <-.
    apply (Hnext fmt ap'); [lia|by eauto| |done]. destruct (Z.eqb_spec p 0) as [|Hp]; [apply writes_list|].
    destruct (Hs p ltac:(left) Hp). by apply writes_string. }
  destruct (d =? 99); [destruct ap as [|[v|v|p] ap']; try done; conv Hc Hnext [v] ltac:(apply writes_putc) ap' fmt strs|].
  destruct (d =? 37); destruct (fmt_chars strs fmt ap) as [rest|] eqn:E; try done; apply (inj Some) in Hc as <-.
  - apply (Hnext fmt ap [d]); [lia|auto|apply writes_putc|done].
  - change ([37; d] ++ rest) with ([37] ++ [d] ++ rest). apply writes_seq; [apply writes_putc|]. apply (Hnext fmt ap [d]); [lia|auto|apply writes_putc|done].
Qed.
End Writes.

(** ** Numbers *)

Lemma digit_char d : 0 <= d < 10 -> default 0 (digits !! Z.to_nat d) = 48 + d.
Proof. intros Hd. assert (H : d = 0 \/ d = 1 \/ d = 2 \/ d = 3 \/ d = 4 \/ d = 5 \/ d = 6 \/ d = 7 \/ d = 8 \/ d = 9) by lia. by repeat destruct H as [->|H]; [..|subst]. Qed.

Lemma dec_digits fuel x : 0 <= x < 10 ^ Z.of_nat fuel ->
  Forall is_digit (int_digits fuel x 10) /\ digits_value (reverse (int_digits fuel x 10)) = x.
Proof.
  revert x. induction fuel as [|fuel IH]; intros x Hx; [simpl in Hx; assert (x = 0) as -> by lia; done|]. cbn [int_digits].
  pose proof (Z.mod_pos_bound x 10 ltac:(lia)) as Hm. pose proof (Z.div_mod x 10 ltac:(lia)) as Hd. rewrite digit_char by done. rewrite reverse_cons. unfold digits_value in *.
  rewrite foldl_app. cbn [foldl]. destruct (Z.eqb_spec (x / 10) 0) as [E|E].
  - split; [repeat constructor; unfold is_digit; lia|]. rewrite reverse_nil. cbn [foldl]. lia.
  - rewrite Nat2Z.inj_succ, Z.pow_succ_r in Hx by lia.
    destruct (IH (x / 10)) as [H1 H2]; [split; [apply Z.div_pos; lia|apply Z.div_lt_upper_bound; lia]|]. split; [constructor; [unfold is_digit; lia|done]|]. rewrite H2. lia.
Qed.

(** The decimal of an int that is not negative. *)
Lemma int_chars_dec v : 0 <= v < 2 ^ 31 ->
  Forall is_digit (int_chars v 10 true) /\ digits_value (int_chars v 10 true) = v /\ (length (int_chars v 10 true) <= 10)%nat.
Proof.
  intros Hv. unfold int_chars. cbv zeta. rewrite i32_small by lia. rewrite (proj2 (Z.ltb_ge v 0)) by lia. cbn [andb]. rewrite u32_small by lia.
  destruct (dec_digits 32 v) as [H1 H2]; [simpl Z.of_nat; lia|]. rewrite length_reverse. split; [by apply Forall_reverse|]. split; [done|]. apply digits_bound; [lia|lia|simpl Z.of_nat; lia].
Qed.

(** What [printf] writes for an int, [atoi] reads back. *)
Lemma printf_atoi fuel m s v : 0 <= v < 2 ^ 31 -> (10 < fuel)%nat ->
  (forall i d, int_chars v 10 true !! i = Some d -> rd m (s + Z.of_nat i) = d) ->
  ~ is_digit (rd m (s + Z.of_nat (length (int_chars v 10 true)))) -> atoi fuel m s = Some v.
Proof.
  intros Hv Hf Hm He. destruct (int_chars_dec v Hv) as (H1 & H2 & H3). pose proof (atoi_spec fuel m s (int_chars v 10 true) Hm H1 He ltac:(lia) ltac:(rewrite H2; lia)) as E. by rewrite H2 in E.
Qed.
