(* ===== verification/Programs.v ===== *)
(** * Small user programs

    [cat], [wc], [echo], [kill], [ln], [mkdir] and [rm] of [user/], and
    [gets] and [stat] of [user/ulib.c], over the interface [UserOS].  [argv] is
    the list of the addresses of the arguments, that of the program's name first;
    [fuel] bounds the steps of each loop. *)

From S2P Require Import Prelude Riscv Mem CString Fs ULib UPrintf.

Definition NL : list Z := [10].

(** The string at an address, as a system call reads it. *)
Fixpoint string_at (fuel : nat) (m : mem) (p : Z) : option (list Z) :=
  match fuel with
  | O => None
  | S fuel => if rd m p =? 0 then Some [] else cons (rd m p) <$> string_at fuel m (p + 1)
  end.

Section Programs.
Context {W : Type} `{!UserOS W}.
Local Open Scope user_scope.
Variable fuel0 : nat.   (** steps of the loops over a string *)

Definition ustring (p : Z) : U W (list Z) := upure (fun m => string_at fuel0 m p).
Definition ucall {A} (f : W -> A * W) : U W A := fun s => let (r, w) := f (uw s) in Ok (Done r) (USt (umem s) w).

(** ** ulib.c *)

(** The character read goes to a local variable first. *)
Fixpoint gets_loop (fuel : nat) (buf max i : Z) : U W Z :=
  if i + 1 <? max then
    match fuel with
    | O => fun _ => Fail EFuel
    | S fuel =>
        r <- ucall (os_read 0 1) ;;
        match r with
        | Some (c :: _) =>
            ustore (buf + i) c ;;
            if (c =? 10) || (c =? 13) then uret (i + 1) else gets_loop fuel buf max (i + 1)
        | _ => uret i
        end
    end
  else uret i.
Definition gets (buf max : Z) : U W Z :=
  i <- gets_loop (Z.to_nat max) buf max 0 ;;
  ustore (buf + i) 0 ;;
  uret buf.

(** Without a result the call returns -1. *)
Definition stat (n : list Z) : U W (option stat_info) :=
  fd <- uopen n 0 ;;
  if fd <? 0 then uret None else
  r <- ucall (os_fstat fd) ;;
  uclose fd ;;
  uret r.

(** ** cat.c *)

Section Cat.
Variable buf : Z.   (** &buf[0], of 512 bytes *)

Fixpoint cat (fuel : nat) (fd : Z) : U W unit :=
  match fuel with
  | O => fun _ => Fail EFuel
  | S fuel =>
      n <- uread fd buf 512 ;;
      if 0 <? n then
        r <- uwrite 1 buf n ;;
        if negb (r =? n) then fprintf fuel0 2 (str "cat: write error" ++ NL) [] ;; uexit 1 0
        else cat fuel fd
      else if n <? 0 then fprintf fuel0 2 (str "cat: read error" ++ NL) [] ;; uexit 1 0
      else uret tt
  end.

Fixpoint cat_files (fuel : nat) (args : list Z) : U W unit :=
  match args with
  | [] => uret tt
  | a :: args =>
      path <- ustring a ;;
      fd <- uopen path 0 ;;
      if fd <? 0 then fprintf fuel0 2 (str "cat: cannot open %s" ++ NL) [UStr a] ;; uexit 1 0
      else cat fuel fd ;; uclose fd ;; cat_files fuel args
  end.
Definition cat_main (fuel : nat) (argv : list Z) : U W unit :=
  match argv with
  | [] | [_] => cat fuel 0 ;; uexit 0 0
  | _ :: args => cat_files fuel args ;; uexit 0 0
  end.
End Cat.

(** ** wc.c *)

Section Wc.
Variables (buf : Z) (empty : Z).   (** &buf[0], of 512 bytes, and the literal for no name *)

(** The characters of the string given to strchr. *)
Definition wc_space (c : Z) : bool := bool_decide (c ∈ [32; 13; 9; 10; 11]).

Record wcst := WcSt { wl : Z; ww : Z; wcc : Z; inword : bool }.
Definition wc_char (c : Z) (t : wcst) : wcst :=
  let l := if c =? 10 then i32 (wl t + 1) else wl t in
  let n := i32 (wcc t + 1) in
  if wc_space c then WcSt l (ww t) n false
  else if negb (inword t) then WcSt l (i32 (ww t + 1)) n true
  else WcSt l (ww t) n (inword t).

Fixpoint wc_chars (k : nat) (i : Z) (t : wcst) : U W wcst :=
  match k with
  | O => uret t
  | S k => c <- uload (buf + i) ;; wc_chars k (i + 1) (wc_char c t)
  end.
Fixpoint wc_loop (fuel : nat) (fd : Z) (t : wcst) : U W (wcst * Z) :=
  match fuel with
  | O => fun _ => Fail EFuel
  | S fuel =>
      n <- uread fd buf 512 ;;
      if 0 <? n then t <- wc_chars (Z.to_nat n) 0 t ;; wc_loop fuel fd t
      else uret (t, n)
  end.
Definition wc (fuel : nat) (fd name : Z) : U W unit :=
  r <- wc_loop fuel fd (WcSt 0 0 0 false) ;;
  let (t, n) := r : wcst * Z in
  if n <? 0 then printf fuel0 (str "wc: read error" ++ NL) [] ;; uexit 1 0
  else printf fuel0 (str "%d %d %d %s" ++ NL) [UInt (wl t); UInt (ww t); UInt (wcc t); UStr name].

Fixpoint wc_files (fuel : nat) (args : list Z) : U W unit :=
  match args with
  | [] => uret tt
  | a :: args =>
      path <- ustring a ;;
      fd <- uopen path 0 ;;
      if fd <? 0 then printf fuel0 (str "wc: cannot open %s" ++ NL) [UStr a] ;; uexit 1 0
      else wc fuel fd a ;; uclose fd ;; wc_files fuel args
  end.
Definition wc_main (fuel : nat) (argv : list Z) : U W unit :=
  match argv with
  | [] | [_] => wc fuel 0 empty ;; uexit 0 0
  | _ :: args => wc_files fuel args ;; uexit 0 0
  end.
End Wc.

(** ** echo.c, kill.c, ln.c, mkdir.c, rm.c *)

Fixpoint echo_loop (args : list Z) : U W unit :=
  match args with
  | [] => uret tt
  | a :: args =>
      n <- upure (fun m => strlen fuel0 m a) ;;
      uwrite 1 a n ;;
      ucall (os_write 1 (if bool_decide (args <> []) then [32] else NL)) ;;
      echo_loop args
  end.
Definition echo_main (argv : list Z) : U W unit := echo_loop (tail argv) ;; uexit 0 0.

Fixpoint kill_loop (args : list Z) : U W unit :=
  match args with
  | [] => uret tt
  | a :: args => pid <- upure (fun m => atoi fuel0 m a) ;; ucall (os_kill pid) ;; kill_loop args
  end.
Definition kill_main (argv : list Z) : U W unit :=
  if bool_decide (length argv < 2)%nat then fprintf fuel0 2 (str "usage: kill pid..." ++ NL) [] ;; uexit 1 0
  else kill_loop (tail argv) ;; uexit 0 0.

Definition ln_main (argv : list Z) : U W unit :=
  match argv with
  | [_; a; b] =>
      old <- ustring a ;;
      new <- ustring b ;;
      r <- ucall (os_link old new) ;;
      (if r <? 0 then fprintf fuel0 2 (str "link %s %s: failed" ++ NL) [UStr a; UStr b] else uret tt) ;;
      uexit 0 0
  | _ => fprintf fuel0 2 (str "Usage: ln old new" ++ NL) [] ;; uexit 1 0
  end.

(** The loop ends at the first failure. *)
Fixpoint each_path (call : list Z -> W -> Z * W) (msg : list Z) (args : list Z) : U W unit :=
  match args with
  | [] => uret tt
  | a :: args =>
      path <- ustring a ;;
      r <- ucall (call path) ;;
      if r <? 0 then fprintf fuel0 2 msg [UStr a] else each_path call msg args
  end.
Definition mkdir_main (argv : list Z) : U W unit :=
  if bool_decide (length argv < 2)%nat then fprintf fuel0 2 (str "Usage: mkdir files..." ++ NL) [] ;; uexit 1 0
  else each_path os_mkdir (str "mkdir: %s failed to create" ++ NL) (tail argv) ;; uexit 0 0.
Definition rm_main (argv : list Z) : U W unit :=
  if bool_decide (length argv < 2)%nat then fprintf fuel0 2 (str "Usage: rm files..." ++ NL) [] ;; uexit 1 0
  else each_path os_unlink (str "rm: %s failed to delete" ++ NL) (tail argv) ;; uexit 0 0.

End Programs.

(** ** What the programs do *)

Lemma ucall_wp {W A} (f : W -> A * W) s (Q : outcome A -> ust W -> Prop) : (forall r w, f (uw s) = (r, w) -> Q (Done r) (USt (umem s) w)) -> wp (ucall f) s Q.
Proof. intros HQ. unfold wp, ucall. destruct (f (uw s)) as [r w]. by apply HQ. Qed.

Lemma uexit_wp {W A} e m (s : ust W) (Q : outcome A -> ust W -> Prop) : Q (Exited e m) s -> wp (uexit e m) s Q.
Proof. done. Qed.

Lemma writes_wp {W} `{!UserOS W} fd cs (c : U W unit) s (Q : outcome unit -> ust W -> Prop) : writes fd cs c (umem s) -> Q (Done tt) (USt (umem s) (emit fd cs (uw s))) -> wp c s Q.
Proof. intros Hc HQ. destruct s as [m w]. unfold wp. by rewrite Hc. Qed.

Section Streams.
Context {W : Type} `{StreamOS W}.

(** Output to the standard output, one byte at a time. *)
Lemma emit_written cs w : Forall (fun c => 0 <= c < 256) cs -> written (emit 1 cs w) = written w ++ cs /\ forall fd, left_on fd (emit 1 cs w) = left_on fd w.
Proof.
  intros Hc. revert w. induction Hc as [|c cs Hc Hcs IH]; intros w; cbn; [by rewrite app_nil_r|]. fold (emit 1 cs (os_write 1 [u8 c] w).2).
  destruct (os_write 1 [u8 c] w) as [r w'] eqn:E. apply write_stream in E as [E1 E2]. destruct (IH w') as [I1 I2]. cbn [snd]. rewrite I1, E1, u8_small, <- app_assoc by lia.
  split; [done|]. intros fd. by rewrite I2.
Qed.

Lemma bytes_wr_bytes m a bs : Forall (fun c => 0 <= c < 256) bs -> bytes (length bs) (wr_bytes m a bs) a = bs.
Proof.
  intros Hb. apply list_eq. intros i. destruct (decide (i < length bs)%nat) as [Hi|Hi]; [|by rewrite !lookup_ge_None_2 by (rewrite ?length_bytes; lia)].
  destruct (lookup_lt_is_Some_2 _ _ Hi) as [v E]. rewrite lookup_bytes by done. rewrite rd_wr_bytes, decide_True by lia. replace (Z.to_nat (a + Z.of_nat i - a)) with i by lia.
  rewrite E. cbn. rewrite Forall_lookup in Hb. f_equal. apply u8_small. by apply (Hb i).
Qed.

Lemma cat_wp fuel0 buf fuel fd s (Q : outcome unit -> ust W -> Prop) :
  Forall (fun c => 0 <= c < 256) (left_on fd (uw s)) -> (length (left_on fd (uw s)) < fuel)%nat ->
  (forall m w, written w = written (uw s) ++ left_on fd (uw s) -> left_on fd w = [] -> (forall a, ~ buf <= a < buf + 512 -> rd m a = rd (umem s) a) -> Q (Done tt) (USt m w)) ->
  wp (cat fuel0 buf fuel fd) s Q.
Proof.
  revert s. induction fuel as [|fuel IH]; intros s Hb Hf HQ; [lia|]. cbn [cat]. apply ubind_wp. unfold uread, wp at 1. destruct (os_read fd 512 (uw s)) as [l w1] eqn:Er.
  apply read_stream in Er as (u & v & -> & El & El1 & Ew1 & Hlen & Hnil); [|lia]. rewrite El in *. apply Forall_app in Hb as [Hbu Hbv]. rewrite length_app in Hf.
  destruct (Z.ltb_spec 0 (Z.of_nat (length u))) as [Hu|Hu].
  - apply ubind_wp. unfold uwrite, wp at 1. cbn [umem uw]. rewrite Nat2Z.id, bytes_wr_bytes by done. destruct (os_write 1 u w1) as [r w2] eqn:Eo.
    pose proof (write_result _ _ _ _ Eo) as ->. apply write_stream in Eo as [Eo El2]. rewrite Z.eqb_refl. cbn [negb].
    apply IH; cbn [umem uw]; rewrite El2, El1; [done|lia|]. intros m w Hw Hl Hm. apply HQ; [by rewrite Hw, Eo, Ew1, app_assoc|done|].
    intros a Ha. rewrite Hm by done. rewrite rd_wr_bytes, decide_False; [done|]. lia.
  - destruct u; [|simpl in Hu; lia]. destruct (Hnil eq_refl) as [|Ev]; [lia|]. rewrite (proj2 (Z.ltb_ge _ _)) by (simpl; lia). apply uret_wp.
    cbn [wr_bytes]. apply HQ; [by rewrite Ew1, Ev, app_nil_r|by rewrite El1|done].
Qed.

(** *** wc *)

(** The words of a text: its longest parts without white space. *)
Fixpoint fields (cur data : list Z) : list (list Z) :=
  let word := if decide (cur = []) then [] else [cur] in
  match data with
  | [] => word
  | c :: data => if wc_space c then word ++ fields [] data else fields (cur ++ [c]) data
  end.
Definition lines (data : list Z) : Z := Z.of_nat (length (filter (fun c => c = 10) data)).
Definition nwords (data : list Z) : Z := Z.of_nat (length (fields [] data)).

Definition wc_run (t : wcst) (data : list Z) : wcst := foldl (fun t c => wc_char c t) t data.

Lemma wc_run_counts data l w n cur : let k := Z.of_nat (length data) in
  0 <= l -> 0 <= w -> 0 <= n -> l + k < 2 ^ 31 -> w + k < 2 ^ 31 -> n + k < 2 ^ 31 ->
  exists b, wc_run (WcSt l w n (bool_decide (cur <> []))) data =
    WcSt (l + lines data) (w + Z.of_nat (length (fields cur data)) - (if decide (cur = []) then 0 else 1)) (n + k) b.
Proof.
  revert l w n cur. induction data as [|c data IH]; intros l w n cur k Hl Hw Hn Hlk Hwk Hnk.
  - exists (bool_decide (cur <> [])). unfold k, wc_run. cbn [foldl fields length]. change (lines []) with 0. f_equal; [lia| |lia]. case_decide; simpl; lia.
  - unfold k in *. simpl length in Hlk, Hwk, Hnk. cbn [wc_run foldl]. unfold wc_char at 2. cbn [wl ww wcc inword].
    assert (El : (if c =? 10 then i32 (l + 1) else l) = l + (if decide (c = 10) then 1 else 0)).
    { destruct (Z.eqb_spec c 10); [rewrite decide_True, i32_small by (done || lia)|rewrite decide_False by done]; lia. }
    assert (Eln : lines (c :: data) = (if decide (c = 10) then 1 else 0) + lines data).
    { unfold lines. rewrite filter_cons. case_decide; simpl; lia. }
    rewrite El, (i32_small (n + 1)) by lia. cbn [fields]. set (d := if decide (c = 10) then 1 else 0) in *. assert (Hd : 0 <= d <= 1) by (unfold d; case_decide; lia).
    destruct (wc_space c).
    + destruct (IH (l + d) w (n + 1) [] ltac:(lia) ltac:(lia) ltac:(lia) ltac:(lia) ltac:(lia) ltac:(lia)) as [b E].
      exists b. rewrite bool_decide_eq_false_2 in E by auto. etransitivity; [exact E|]. rewrite Eln, length_app. f_equal; [lia| |simpl length; lia].
      rewrite decide_True by done. destruct (decide (cur = [])); simpl length; lia.
    + destruct (decide (cur = [])) as [->|Hc].
      * rewrite bool_decide_eq_false_2 by auto. cbn [negb]. rewrite i32_small by lia.
        destruct (IH (l + d) (w + 1) (n + 1) [c] ltac:(lia) ltac:(lia) ltac:(lia) ltac:(lia) ltac:(lia) ltac:(lia)) as [b E].
        exists b. rewrite bool_decide_eq_true_2 in E by done. etransitivity; [exact E|]. rewrite Eln. f_equal; [lia| |simpl length; lia]. rewrite decide_False by done. simpl app. lia.
      * rewrite bool_decide_eq_true_2 by done. cbn [negb].
        destruct (IH (l + d) w (n + 1) (cur ++ [c]) ltac:(lia) ltac:(lia) ltac:(lia) ltac:(lia) ltac:(lia) ltac:(lia)) as [b E].
        exists b. rewrite bool_decide_eq_true_2 in E by (by destruct cur). etransitivity; [exact E|]. rewrite Eln. f_equal; [lia| |simpl length; lia].
        rewrite decide_False by (by destruct cur). lia.
Qed.
Lemma wc_chars_wp buf k i t u s (Q : outcome wcst -> ust W -> Prop) : bytes k (umem s) (buf + i) = u -> Q (Done (wc_run t u)) s -> wp (wc_chars buf k i t) s Q.
Proof.
  revert i t u. induction k as [|k IH]; intros i t u Hu HQ; cbn [wc_chars bytes] in *; [by subst u|]. subst u. apply ubind_wp. unfold uload, wp at 1, gets.
  apply (IH (i + 1) _ (bytes k (umem s) (buf + i + 1))); [f_equal; lia|]. exact HQ.
Qed.

Lemma wc_loop_wp buf fuel fd t s (Q : outcome (wcst * Z) -> ust W -> Prop) :
  Forall (fun c => 0 <= c < 256) (left_on fd (uw s)) -> (length (left_on fd (uw s)) < fuel)%nat ->
  (forall m w, written w = written (uw s) -> left_on fd w = [] -> (forall a, ~ buf <= a < buf + 512 -> rd m a = rd (umem s) a) ->
     Q (Done (wc_run t (left_on fd (uw s)), 0)) (USt m w)) ->
  wp (wc_loop buf fuel fd t) s Q.
Proof.
  revert s t. induction fuel as [|fuel IH]; intros s t Hb Hf HQ; [lia|]. cbn [wc_loop]. apply ubind_wp. unfold uread, wp at 1. destruct (os_read fd 512 (uw s)) as [l w1] eqn:Er.
  apply read_stream in Er as (u & v & -> & El & El1 & Ew1 & Hlen & Hnil); [|lia]. rewrite El in *. apply Forall_app in Hb as [Hbu Hbv]. rewrite length_app in Hf.
  destruct (Z.ltb_spec 0 (Z.of_nat (length u))) as [Hu|Hu].
  - apply ubind_wp. apply (wc_chars_wp buf _ 0 t u); [cbn [umem]; rewrite Nat2Z.id, Z.add_0_r; by apply bytes_wr_bytes|].
    apply IH; cbn [umem uw]; rewrite El1; [done|lia|]. intros m w Hw Hl Hm. unfold wc_run in *. rewrite foldl_app in HQ. apply HQ; [by rewrite Hw|done|].
    intros a Ha. rewrite Hm by done. rewrite rd_wr_bytes, decide_False; [done|]. lia.
  - destruct u; [|simpl in Hu; lia]. destruct (Hnil eq_refl) as [|Ev]; [lia|]. apply uret_wp. cbn [wr_bytes]. rewrite Ev in HQ. apply HQ; [by rewrite Ew1|by rewrite El1|done].
Qed.

(** *** echo *)

Fixpoint echoed (args : list (list Z)) : list Z :=
  match args with
  | [] => []
  | [a] => a ++ NL
  | a :: args => a ++ [32] ++ echoed args
  end.

Lemma echo_loop_wp fuel0 args strs s (Q : outcome unit -> ust W -> Prop) :
  Forall2 (fun p t => cstr (umem s) p t /\ (length t < fuel0)%nat /\ Z.of_nat (length t) < 2 ^ 32) args strs ->
  (forall w, written w = written (uw s) ++ echoed strs -> Q (Done tt) (USt (umem s) w)) -> wp (echo_loop fuel0 args) s Q.
Proof.
  intros Ha. revert strs s Ha Q. induction args as [|p args IH]; intros strs s Ha Q HQ; inversion Ha as [|? t ? strs' (Hp & Hf & Hl) Hrest]; subst; cbn [echo_loop].
  { destruct s as [m w]. apply uret_wp, HQ. by rewrite app_nil_r. }
  apply ubind_wp. eapply upure_wp; [by apply strlen_spec|]. apply ubind_wp. unfold uwrite, wp at 1. rewrite Nat2Z.id, (cstr_bytes_at _ _ _ Hp).
  destruct (os_write 1 t (uw s)) as [r1 w1] eqn:E1. apply write_stream in E1 as [E1 _]. apply ubind_wp, ucall_wp. cbn [umem uw]. intros r2 w2 E2. apply write_stream in E2 as [E2 _].
  apply (IH strs'); [done|]. cbn [umem uw]. intros w Hw. apply HQ. rewrite Hw, E2, E1, <- !app_assoc. do 2 f_equal.
  destruct args as [|p' args]; inversion Hrest; subst; cbn [echoed].
  - by rewrite bool_decide_eq_false_2, app_nil_r by auto.
  - rewrite bool_decide_eq_true_2 by done. done.
Qed.
Lemma fields_bound cur data : (length (fields cur data) <= length data + length cur)%nat.
Proof.
  revert cur. induction data as [|c data IH]; intros cur; cbn [fields].
  - case_decide; [simpl; lia|]. destruct cur; [done|]. simpl. lia.
  - destruct (wc_space c); [rewrite length_app; specialize (IH []); case_decide; destruct cur; try done; simpl in *; lia|].
    specialize (IH (cur ++ [c])). rewrite length_app in IH. simpl in *. lia.
Qed.

Lemma wc_ranges data : 0 <= lines data <= Z.of_nat (length data) /\ 0 <= nwords data <= Z.of_nat (length data).
Proof.
  unfold lines, nwords. pose proof (fields_bound [] data) as Hf. simpl in Hf. pose proof (length_filter (fun c => c = 10) data). lia.
Qed.

(** *** gets *)

(** A line with its end, or its first [n] characters. *)
Fixpoint line_of (n : nat) (data : list Z) : list Z :=
  match n, data with
  | S n, c :: data => c :: if (c =? 10) || (c =? 13) then [] else line_of n data
  | _, _ => []
  end.

Lemma gets_loop_wp fuel buf max i s (Q : outcome Z -> ust W -> Prop) :
  let l := line_of (Z.to_nat (max - 1 - i)) (left_on 0 (uw s)) in
  (max - 1 - i <= Z.of_nat fuel) -> 0 <= i ->
  (forall w, left_on 0 w = drop (length l) (left_on 0 (uw s)) -> written w = written (uw s) ->
     Q (Done (i + Z.of_nat (length l))) (USt (wr_bytes (umem s) (buf + i) l) w)) -> wp (gets_loop fuel buf max i) s Q.
Proof.
  revert i s. induction fuel as [|fuel IH]; intros i s l Hf Hi HQ; cbn [gets_loop].
  { rewrite (proj2 (Z.ltb_ge _ _)) by lia. unfold l in HQ. replace (Z.to_nat (max - 1 - i)) with 0%nat in HQ by lia. cbn in HQ. rewrite Z.add_0_r in HQ. destruct s. by apply uret_wp, HQ. }
  destruct (Z.ltb_spec (i + 1) max) as [Hlt|Hge].
  2:{ unfold l in HQ. replace (Z.to_nat (max - 1 - i)) with 0%nat in HQ by lia. cbn in HQ. rewrite Z.add_0_r in HQ. destruct s. by apply uret_wp, HQ. }
  apply ubind_wp, ucall_wp. intros r w E. apply read_stream in E as (u & v & -> & El & El1 & Ew1 & Hlen & Hnil); [|lia].
  destruct (Z.to_nat (max - 1 - i)) as [|k] eqn:Ek; [lia|]. assert (Ek' : Z.to_nat (max - 1 - (i + 1)) = k) by lia.
  destruct u as [|c [|c' u]]; [| |simpl in Hlen; lia].
  { destruct (Hnil eq_refl) as [|Ev]; [lia|]. subst l. rewrite El, Ev in HQ. cbn [app line_of length drop wr_bytes] in HQ. rewrite Z.add_0_r in HQ. apply uret_wp, HQ; [by rewrite El1, Ev|done]. }
  subst l. rewrite El in HQ. cbn [app line_of] in HQ. apply ubind_wp. unfold ustore, wp at 1. cbn [umem uw].
  destruct ((c =? 10) || (c =? 13)).
  - apply uret_wp. cbn [length drop wr_bytes] in HQ. apply HQ; [by rewrite El1|done].
  - apply IH; cbn [umem uw]; [lia|lia|]. rewrite Ek', El1. intros w2 Hl2 Hw2. cbn [length wr_bytes] in HQ. replace (buf + (i + 1)) with (buf + i + 1) by lia.
    replace (i + 1 + Z.of_nat (length (line_of k v))) with (i + Z.of_nat (S (length (line_of k v)))) by lia. apply HQ; [done|by rewrite Hw2].
Qed.
End Streams.

(** ** Theorems *)

(** [cat] without arguments copies its input: however the reads cut it up, the
    bytes of the standard input are written to the standard output, in order, and
    the program exits with status 0. *)
Theorem cat_copies `{StreamOS W} fuel0 buf fuel argv (s : ust W) : (length argv <= 1)%nat ->
  Forall (fun c => 0 <= c < 256) (left_on 0 (uw s)) -> (length (left_on 0 (uw s)) < fuel)%nat ->
  wp (cat_main fuel0 buf fuel argv) s (fun r s' => r = Exited 0 0 /\ written (uw s') = written (uw s) ++ left_on 0 (uw s) /\ left_on 0 (uw s') = []).
Proof.
  intros Ha Hb Hf. assert (E : cat_main fuel0 buf fuel argv = (cat fuel0 buf fuel 0 ;; uexit 0 0)%U) by (by destruct argv as [|a [|b argv]]; [..|simpl in Ha; lia]).
  rewrite E. apply ubind_wp, cat_wp; [done|done|]. intros m w Hw Hl _. by apply uexit_wp.
Qed.

(** C40: [wc] counts. For an input of less than 2^31 bytes it prints one line with the
    number of newlines, of words (the longest parts without white space) and of
    bytes, in decimal, and the name it was given; each number reads back, with
    [atoi], as the count. *)
Theorem wc_counts `{StreamOS W} fuel0 buf fuel fd name nm (s : ust W) :
  let data := left_on fd (uw s) in let dec v := int_chars v 10 true in
  Forall (fun c => 0 <= c < 256) data -> Z.of_nat (length data) < 2 ^ 31 -> (length data < fuel)%nat ->
  cstr (umem s) name nm -> name <> 0 -> (length nm < fuel0)%nat -> (forall a, name <= a <= name + Z.of_nat (length nm) -> ~ buf <= a < buf + 512) ->
  Forall (fun c => 0 <= c < 256) nm ->
  wp (wc fuel0 buf fuel fd name) s (fun r s' => r = Done tt /\ left_on fd (uw s') = [] /\
    written (uw s') = written (uw s) ++ dec (lines data) ++ [32] ++ dec (nwords data) ++ [32] ++ dec (Z.of_nat (length data)) ++ [32] ++ nm ++ [10]) /\
  forall v, v ∈ [lines data; nwords data; Z.of_nat (length data)] -> Forall is_digit (dec v) /\ digits_value (dec v) = v.
Proof.
  intros data dec Hb Hl Hf Hn Hn0 Hnf Hout Hnb. destruct (wc_ranges data) as [R1 R2].
  assert (Hdec : forall v, v ∈ [lines data; nwords data; Z.of_nat (length data)] -> Forall is_digit (dec v) /\ digits_value (dec v) = v).
  { intros v Hv. assert (0 <= v < 2 ^ 31) as Hr by (set_unfold; destruct Hv as [->|[->|[->|[]]]]; lia). destruct (int_chars_dec v Hr) as (? & ? & _). done. }
  split; [|done]. unfold wc. apply ubind_wp, wc_loop_wp; [done|done|]. intros m w Hw Hle Hm. fold data.
  destruct (wc_run_counts data 0 0 0 []) as [b E]; [lia..|]. rewrite bool_decide_eq_false_2 in E by auto. rewrite decide_True, Z.sub_0_r, !Z.add_0_l in E by done. fold (nwords data) in E.
  cbv beta iota. rewrite E. cbn [Z.ltb Z.compare wl ww wcc]. unfold printf.
  set (cs := dec (lines data) ++ [32] ++ dec (nwords data) ++ [32] ++ dec (Z.of_nat (length data)) ++ [32] ++ nm ++ [10]).
  eapply (writes_wp 1 cs); [apply (vprintf_writes fuel0 1 (fun _ => nm)); [|]|].
  - intros p Hp _. set_unfold. assert (p = name) as -> by naive_solver. split; [|done]. apply (cstr_ext (umem s)); [|done]. intros a Ha. apply Hm. apply Hout. lia.
  - change (str "%d %d %d %s" ++ NL) with [37; 100; 32; 37; 100; 32; 37; 100; 32; 37; 115; 10].
    rewrite fmt_d, fmt_char, fmt_d, fmt_char, fmt_d, fmt_char, fmt_s, fmt_char by done. done.
  - assert (Hcs : Forall (fun c => 0 <= c < 256) cs).
    { assert (Hd : forall v, v ∈ [lines data; nwords data; Z.of_nat (length data)] -> Forall (fun c => 0 <= c < 256) (dec v)).
      { intros v Hv. destruct (Hdec v Hv) as [Hd _]. eapply Forall_impl; [exact Hd|]. unfold is_digit. lia. }
      unfold cs. rewrite !Forall_app. split_and!; try (apply Hd; set_solver); try done; repeat constructor; lia. }
    cbn [umem uw]. destruct (emit_written cs w Hcs) as [E1 E2]. split; [done|]. split; [by rewrite E2|]. by rewrite E1, Hw.
Qed.

(** [echo] writes its arguments with spaces between them and a newline after
    the last, and nothing if there are none. *)
Theorem echo_writes `{StreamOS W} fuel0 argv strs (s : ust W) :
  Forall2 (fun p t => cstr (umem s) p t /\ (length t < fuel0)%nat /\ Z.of_nat (length t) < 2 ^ 32) (tail argv) strs ->
  wp (echo_main fuel0 argv) s (fun r s' => r = Exited 0 0 /\ written (uw s') = written (uw s) ++ echoed strs).
Proof. intros Ha. apply ubind_wp. eapply echo_loop_wp; [exact Ha|]. intros w Hw. by apply uexit_wp. Qed.

(** [gets] reads a line: the characters up to and with the first newline or
    carriage return, at most [max - 1] of them, become the string in the buffer;
    what follows is left for the next call, and no other memory changes. *)
Theorem gets_reads_line `{StreamOS W} buf max (s : ust W) : 1 <= max -> Forall (fun c => 0 < c < 256) (left_on 0 (uw s)) ->
  let l := line_of (Z.to_nat (max - 1)) (left_on 0 (uw s)) in
  wp (gets buf max) s (fun r s' => r = Done buf /\ cstr (umem s') buf l /\ left_on 0 (uw s') = drop (length l) (left_on 0 (uw s)) /\
    forall a, ~ buf <= a <= buf + Z.of_nat (length l) -> rd (umem s') a = rd (umem s) a).
Proof.
  intros Hm Hc l. unfold gets. apply ubind_wp, gets_loop_wp; [lia|lia|]. rewrite Z.sub_0_r, Z.add_0_r, Z.add_0_l. fold l. intros w Hl _.
  apply ubind_wp. unfold ustore, wp at 1. apply uret_wp. cbn [umem uw]. split; [done|].
  assert (Hcl : Forall (fun c => 0 < c < 256) l).
  { unfold l. generalize (Z.to_nat (max - 1)). revert Hc. generalize (left_on 0 (uw s)). intros d Hd. induction Hd as [|c d Hc0 Hd IH]; intros [|k]; cbn [line_of]; try constructor; [done|].
    destruct ((c =? 10) || (c =? 13)); [constructor|apply IH]. }
  split; [|split; [done|]].
  - split.
    + intros i c Hi. pose proof (lookup_lt_Some _ _ _ Hi). rewrite Forall_lookup in Hcl. specialize (Hcl i c Hi). split; [lia|].
      rewrite rd_wr_ne, rd_wr_bytes, decide_True by lia. replace (Z.to_nat (buf + Z.of_nat i - buf)) with i by lia. rewrite Hi. apply u8_small. lia.
    + by rewrite rd_wr_eq.
  - intros a Ha. by rewrite rd_wr_ne, rd_wr_bytes, decide_False by lia.
Qed.

(** ** Examples *)

(** Three bytes, then the rest; a name at address 100. *)
Definition ex_text : list Z := str "ab  cd" ++ NL ++ str "e" ++ NL.
Definition ex_prog : ust pipe_world := USt (wr_bytes ∅ 100 (str "f")) (PipeWorld ex_text [2]%nat []).

Lemma ex_text_ok : Forall (fun c => 0 <= c < 256) ex_text.
Proof. by repeat constructor. Qed.

Lemma cat_copies_witness : wp (cat_main 10 1000 100 [100]) ex_prog (fun r s' => r = Exited 0 0 /\ pw_out (uw s') = ex_text).
Proof.
  eapply wp_mono; [apply (cat_copies 10 1000 100 [100] ex_prog); [simpl; lia|exact ex_text_ok|simpl; lia]|].
  intros r s' (A & B & _). split; [exact A|exact B].
Defined.

Lemma wc_counts_witness : wp (wc 10 1000 100 0 100) ex_prog (fun r s' => r = Done tt /\ pw_out (uw s') = str "2 3 9 f" ++ NL).
Proof.
  destruct (wc_counts 10 1000 100 0 100 (str "f") ex_prog) as [Hw _].
  - exact ex_text_ok.
  - vm_compute. reflexivity.
  - vm_compute. lia.
  - split; [intros i b Hi; destruct i as [|[|i]]; simplify_eq/=; done|vm_compute; reflexivity].
  - lia.
  - simpl. lia.
  - simpl. lia.
  - by repeat constructor.
  - eapply wp_mono; [exact Hw|]. intros r s' (A & _ & B). split; [exact A|]. etransitivity; [exact B|vm_compute; reflexivity].
Defined.
