(* ===== verification/Grep.v ===== *)
(** * grep

    [user/grep.c]: the matcher of regular expressions, on NUL-terminated
    strings in memory, and the loop over the lines of a file.  [fuel] bounds
    the steps of each loop. *)

From S2P Require Import Prelude Mem CString ULib UPrintf Programs.

Definition CARET : Z := 94.
Definition STAR : Z := 42.
Definition DOLLAR : Z := 36.
Definition DOT : Z := 46.
Definition LF : Z := 10.

Fixpoint matchhere (fuel : nat) (m : mem) (re text : Z) : option bool :=
  match fuel with
  | O => None
  | S fuel =>
      if rd m re =? 0 then Some true
      else if rd m (re + 1) =? STAR then matchstar fuel m (rd m re) (re + 2) text
      else if (rd m re =? DOLLAR) && (rd m (re + 1) =? 0) then Some (rd m text =? 0)
      else if negb (rd m text =? 0) && ((rd m re =? DOT) || (rd m re =? rd m text))
           then matchhere fuel m (re + 1) (text + 1)
      else Some false
  end
with matchstar (fuel : nat) (m : mem) (c re text : Z) : option bool :=
  match fuel with
  | O => None
  | S fuel =>
      match matchhere fuel m re text with
      | None => None
      | Some true => Some true
      | Some false =>
          if negb (rd m text =? 0) && ((rd m text =? c) || (c =? DOT))
          then matchstar fuel m c re (text + 1) else Some false
      end
  end.

Fixpoint match_loop (fuel : nat) (m : mem) (re text : Z) : option bool :=
  match fuel with
  | O => None
  | S f =>
      match matchhere fuel m re text with
      | None => None
      | Some true => Some true
      | Some false => if negb (rd m text =? 0) then match_loop f m re (text + 1) else Some false
      end
  end.

Definition match_ (fuel : nat) (m : mem) (re text : Z) : option bool :=
  if rd m re =? CARET then matchhere fuel m (re + 1) text else match_loop fuel m re text.

Section Grep.
Context {W : Type} `{!UserOS W}.
Local Open Scope user_scope.
(** &buf[0] *)
Variable buf : Z.

Definition SIZEOF_BUF : Z := 1024.

(** The line from [p] to the newline at [q]. *)
Definition grep_line (fuel : nat) (pattern p q : Z) : U W unit :=
  ustore q 0 ;;
  b <- upure (fun m => match_ fuel m pattern p) ;;
  if b : bool then ustore q LF ;; uwrite 1 p (q + 1 - p) ;; uret tt else uret tt.

(** The lines in the buffer from [p] on; the start of what is left. *)
Fixpoint grep_lines (fuel : nat) (pattern p : Z) : U W Z :=
  match fuel with
  | O => fun _ => Fail EFuel
  | S f =>
      q <- upure (fun m => strchr fuel m p LF) ;;
      if q =? 0 then uret p else
      grep_line fuel pattern p q ;;
      grep_lines f pattern (q + 1)
  end.

Fixpoint grep_loop (fuel : nat) (pattern fd m : Z) : U W unit :=
  match fuel with
  | O => fun _ => Fail EFuel
  | S f =>
      n <- uread fd (buf + m) (SIZEOF_BUF - m - 1) ;;
      if 0 <? n then
        let m := m + n in
        ustore (buf + m) 0 ;;
        p <- grep_lines fuel pattern buf ;;
        m <- (if 0 <? m then umod (fun mm => memmove mm buf p (m - (p - buf))) ;; uret (m - (p - buf)) else uret m) ;;
        grep_loop f pattern fd m
      else uret tt
  end.

Definition grep (fuel : nat) (pattern fd : Z) : U W unit := grep_loop fuel pattern fd 0.

Fixpoint grep_files (fuel fuel0 : nat) (pattern : Z) (args : list Z) : U W unit :=
  match args with
  | [] => uret tt
  | a :: args =>
      path <- ustring fuel0 a ;;
      fd <- uopen path 0 ;;
      if fd <? 0 then printf fuel0 (str "grep: cannot open %s" ++ NL) [UStr a] ;; uexit 1 0
      else grep fuel pattern fd ;; uclose fd ;; grep_files fuel fuel0 pattern args
  end.
Definition grep_main (fuel fuel0 : nat) (argv : list Z) : U W unit :=
  match argv with
  | [] | [_] => fprintf fuel0 2 (str "usage: grep pattern [file ...]" ++ NL) [] ;; uexit 1 0
  | [_; pattern] => grep fuel pattern 0 ;; uexit 0 0
  | _ :: pattern :: args => grep_files fuel fuel0 pattern args ;; uexit 0 0
  end.

End Grep.
