(* ===== verification/GrepSpec.v ===== *)
(** * grep: what it prints

    The pattern language of [grep] as a set of texts, the matcher decides it,
    and the loop over the file prints the lines it holds for. *)

From S2P Require Import Prelude Mem CString ULib Grep.

(** ** The language of a pattern *)

(** One character of the pattern, possibly starred. *)
Inductive atom := One (c : Z) | Star (c : Z).

Definition char_ok (c x : Z) : Prop := c = DOT \/ c = x.

Inductive in_lang : list atom -> list Z -> Prop :=
  | lang_nil : in_lang [] []
  | lang_one c x re t : char_ok c x -> in_lang re t -> in_lang (One c :: re) (x :: t)
  | lang_star c re u t : Forall (char_ok c) u -> in_lang re t -> in_lang (Star c :: re) (u ++ t).

(** The atoms of a pattern, and whether it ends in the anchor [$]. *)
Fixpoint parse_here (re : list Z) : list atom * bool :=
  match re with
  | [] => ([], false)
  | c :: re' =>
      match re' with
      | [] => if c =? DOLLAR then ([], true) else ([One c], false)
      | d :: re'' =>
          if d =? STAR then let (l, e) := parse_here re'' in (Star c :: l, e)
          else let (l, e) := parse_here re' in (One c :: l, e)
      end
  end.

(** A text begins with a match, one that reaches to its end if anchored. *)
Definition matches_here (p : list atom * bool) (t : list Z) : Prop :=
  exists u v, t = u ++ v /\ in_lang p.1 u /\ (p.2 = true -> v = []).

(** [^] at the front anchors the match at the start of the text. *)
Definition line_matches (re t : list Z) : Prop :=
  match re with
  | c :: re' => if c =? CARET then matches_here (parse_here re') t
                else exists pre, pre `suffix_of` t /\ matches_here (parse_here re) pre
  | [] => True
  end.

(** ** The matcher *)

Lemma here_nil t : matches_here ([], false) t.
Proof. exists [], t. split_and!; [done|constructor|done]. Qed.

Lemma here_end t : matches_here ([], true) t <-> t = [].
Proof.
  split.
  - intros (u & v & -> & Hu & Hv). inversion Hu; subst. by rewrite Hv.
  - intros ->. exists [], []. split_and!; [done|constructor|done].
Qed.

Lemma here_one c l e t : matches_here (One c :: l, e) t <-> exists x t', t = x :: t' /\ char_ok c x /\ matches_here (l, e) t'.
Proof.
  split.
  - intros (u & v & -> & Hu & Hv). inversion Hu; subst. eexists _, _. split; [done|]. split; [done|]. by eexists _, _.
  - intros (x & t' & -> & Hx & u & v & -> & Hu & Hv). exists (x :: u), v. split_and!; [done|by constructor|done].
Qed.

Lemma here_star c l e t : matches_here (Star c :: l, e) t <->
  matches_here (l, e) t \/ exists x t', t = x :: t' /\ char_ok c x /\ matches_here (Star c :: l, e) t'.
Proof.
  split.
  - intros (u & v & -> & Hu & Hv). inversion Hu as [| |c' re w t Hw Ht]; subst. destruct w as [|x w].
    + left. by exists t, v.
    + right. apply Forall_cons in Hw as [Hx Hw]. exists x, (w ++ t ++ v). simpl. rewrite app_assoc. split; [done|]. split; [done|].
      exists (w ++ t), v. split_and!; [done|by constructor|done].
  - intros [(u & v & -> & Hu & Hv)|(x & t' & -> & Hx & u & v & -> & Hu & Hv)].
    + exists u, v. split_and!; [done| |done]. by apply (lang_star c l []).
    + exists (x :: u), v. split_and!; [done| |done]. inversion Hu as [| |c' re w t Hw Ht]; subst.
      by apply (lang_star c l (x :: w)); [constructor|].
Qed.

(** [char_ok] as the code tests it. *)
Lemma char_test c x : (c =? DOT) || (c =? x) = true <-> char_ok c x.
Proof. unfold char_ok. rewrite orb_true_iff, !Z.eqb_eq. done. Qed.

Definition decides (r : option bool) (P : Prop) : Prop := exists b, r = Some b /\ (b = true <-> P).

Lemma decides_iff r P P' : (P <-> P') -> decides r P -> decides r P'.
Proof. intros E (b & -> & Hb). exists b. by rewrite <- E. Qed.

Lemma parse_star c re : parse_here (c :: STAR :: re) = (Star c :: (parse_here re).1, (parse_here re).2).
Proof. cbn [parse_here]. rewrite Z.eqb_refl. by destruct (parse_here re). Qed.

Lemma parse_one c re : ~ (re = [] /\ c = DOLLAR) -> head re <> Some STAR ->
  parse_here (c :: re) = (One c :: (parse_here re).1, (parse_here re).2).
Proof.
  intros Hd Hs. cbn [parse_here]. destruct re as [|d re].
  - destruct (Z.eqb_spec c DOLLAR) as [->|]; [exfalso; auto|done].
  - destruct (Z.eqb_spec d STAR) as [->|]; [done|]. by destruct (parse_here (d :: re)).
Qed.

Lemma match_specs fuel m :
  (forall re text p t, cstr m re p -> cstr m text t -> (length p + length t < fuel)%nat ->
     decides (matchhere fuel m re text) (matches_here (parse_here p) t)) /\
  (forall c re text p t, cstr m re p -> cstr m text t -> (length p + length t + 1 < fuel)%nat ->
     decides (matchstar fuel m c re text) (matches_here (Star c :: (parse_here p).1, (parse_here p).2) t)).
Proof.
  induction fuel as [|fuel [IHh IHs]]; [split; intros; lia|]. split.
  - intros re text p t Hp Ht Hf. cbn [matchhere]. apply cstr_inv in Hp as [[-> E]|(c & p' & -> & Hc & E & Hp)]; rewrite E.
    { exists true. split; [done|]. split; [intros _; apply here_nil|done]. }
    rewrite (proj2 (Z.eqb_neq _ _) Hc). cbn [length] in Hf.
    destruct (Z.eqb_spec (rd m (re + 1)) STAR) as [Es|Es].
    { apply cstr_inv in Hp as [[_ E0]|(d & p & -> & Hd & E1 & Hp)]; [by rewrite E0 in Es|]. rewrite E1 in Es. subst d.
      replace (re + 1 + 1) with (re + 2) in Hp by lia. rewrite Es, parse_star. apply IHs; [done|done|]. simpl in Hf. lia. }
    assert (Hhead : head p' <> Some STAR).
    { apply cstr_inv in Hp as [[-> _]|(d & p & -> & Hd & E1 & Hp)]; [done|]. simpl. congruence. }
    assert (Hnil : rd m (re + 1) = 0 <-> p' = []).
    { apply cstr_inv in Hp as [[-> ?]|(d & p & -> & Hd & -> & Hp)]; done. }
    destruct (decide (p' = [] /\ c = DOLLAR)) as [[-> ->]|Hend].
    { rewrite (proj2 Hnil eq_refl). cbn. apply (decides_iff _ (t = [])); [by rewrite here_end|]. eexists. split; [done|].
      rewrite Z.eqb_eq. apply cstr_inv in Ht as [[-> ?]|(d & t' & -> & Hd & -> & Ht)]; done. }
    rewrite parse_one by done.
    assert (Htest : (c =? DOLLAR) && (rd m (re + 1) =? 0) = false).
    { apply andb_false_iff. destruct (Z.eqb_spec c DOLLAR) as [->|]; [right|by left]. apply Z.eqb_neq. rewrite Hnil. auto. }
    rewrite Htest. eapply decides_iff; [symmetry; apply here_one|]. rewrite <- surjective_pairing.
    apply cstr_inv in Ht as [[-> E1]|(x & t' & -> & Hx & E1 & Ht)]; rewrite E1.
    { exists false. split; [done|]. split; [done|]. by intros (? & ? & ? & _). }
    rewrite (proj2 (Z.eqb_neq _ _) Hx). cbn [negb andb]. destruct ((c =? DOT) || (c =? x)) eqn:Ec.
    + apply char_test in Ec. eapply decides_iff; [|apply (IHh (re + 1) (text + 1) p' t'); [done|done|simpl in Hf; lia]].
      split; [intros Hm; by exists x, t'|]. by intros (? & ? & [= <- <-] & _ & Hm).
    + exists false. split; [done|]. split; [done|]. intros (? & ? & [= <- <-] & Hok%char_test & _). congruence.
  - intros c re text p t Hp Ht Hf. cbn [matchstar].
    destruct (IHh re text p t Hp Ht) as (b & -> & Hb); [lia|]. eapply decides_iff; [symmetry; apply here_star|].
    rewrite <- surjective_pairing. destruct b.
    { exists true. split; [done|]. split; [|done]. intros _. left. by apply Hb. }
    assert (Hno : ~ matches_here (parse_here p) t) by (intros Hm; by apply Hb in Hm).
    apply cstr_inv in Ht as [[-> E1]|(x & t' & -> & Hx & E1 & Ht)]; rewrite E1.
    { exists false. split; [done|]. split; [done|]. intros [?|(? & ? & ? & _)]; done. }
    rewrite (proj2 (Z.eqb_neq _ _) Hx). cbn [negb andb]. rewrite orb_comm, (Z.eqb_sym x c). destruct ((c =? DOT) || (c =? x)) eqn:Ec.
    + apply char_test in Ec. eapply decides_iff; [|apply (IHs c re (text + 1) p t'); [done|done|simpl in Hf; lia]].
      split; [intros Hm; right; by exists x, t'|]. intros [?|(? & ? & [= <- <-] & _ & Hm)]; done.
    + exists false. split; [done|]. split; [done|]. intros [?|(? & ? & [= <- <-] & Hok%char_test & _)]; congruence.
Qed.

Lemma match_loop_spec fuel m re text p t :
  cstr m re p -> cstr m text t -> (length p + length t < fuel)%nat ->
  decides (match_loop fuel m re text) (exists pre, pre `suffix_of` t /\ matches_here (parse_here p) pre).
Proof.
  revert text t. induction fuel as [|fuel IH]; intros text t Hp Ht Hf; [lia|]. cbn [match_loop].
  destruct (proj1 (match_specs (S fuel) m) re text p t Hp Ht Hf) as (b & -> & Hb). destruct b.
  { exists true. split; [done|]. split; [|done]. intros _. exists t. split; [done|]. by apply Hb. }
  assert (Hno : ~ matches_here (parse_here p) t) by (intros Hm; by apply Hb in Hm).
  apply cstr_inv in Ht as [[-> E1]|(x & t' & -> & Hx & E1 & Ht)]; rewrite E1.
  { exists false. split; [done|]. split; [done|]. intros (pre & Hs%suffix_nil_inv & Hm). by subst. }
  rewrite (proj2 (Z.eqb_neq _ _) Hx). cbn [negb]. eapply decides_iff; [|apply (IH (text + 1) t'); [done|done|simpl in Hf; lia]].
  split; intros (pre & Hs & Hm).
  - exists pre. split; [by apply suffix_cons_r|done].
  - exists pre. split; [|done]. destruct pre as [|y pre]; [apply suffix_nil|]. apply suffix_cons_inv in Hs as [E|Hs]; [|done].
    by rewrite E in Hm.
Qed.

Lemma match_decides fuel m re text p t :
  cstr m re p -> cstr m text t -> (length p + length t < fuel)%nat -> decides (match_ fuel m re text) (line_matches p t).
Proof.
  intros Hp Ht Hf. unfold match_, line_matches. destruct p as [|c p].
  - rewrite (proj1 (cstr_nil _ _) Hp). change (0 =? CARET) with false. cbv iota.
    eapply decides_iff; [|by apply (match_loop_spec fuel m re text [] t)]. split; [done|]. intros _. exists t. split; [done|apply here_nil].
  - pose proof Hp as (Hc & -> & Hp')%cstr_cons. destruct (Z.eqb_spec c CARET) as [->|_].
    + apply (proj1 (match_specs fuel m)); [done|done|]. simpl in Hf. lia.
    + by apply match_loop_spec.
Qed.

(** ** Lines *)

(** Reading on from a started line [cur]: the lines that end, without their
    newline, and the line that is left. *)
Fixpoint complete (d cur : list Z) : list (list Z) :=
  match d with
  | [] => []
  | c :: d => if c =? LF then cur :: complete d [] else complete d (cur ++ [c])
  end.
Fixpoint pending (d cur : list Z) : list Z :=
  match d with
  | [] => cur
  | c :: d => if c =? LF then pending d [] else pending d (cur ++ [c])
  end.

Inductive printed (re : list Z) : list (list Z) -> list Z -> Prop :=
  | printed_nil : printed re [] []
  | printed_yes l ls o : line_matches re l -> printed re ls o -> printed re (l :: ls) (l ++ [LF] ++ o)
  | printed_no l ls o : ~ line_matches re l -> printed re ls o -> printed re (l :: ls) o.

Lemma printed_app re l1 o1 l2 o2 : printed re l1 o1 -> printed re l2 o2 -> printed re (l1 ++ l2) (o1 ++ o2).
Proof.
  intros H1 H2. induction H1 as [|l ls o Hl Hp IH|l ls o Hl Hp IH]; simpl; [done| |by apply printed_no].
  rewrite <- app_assoc. by apply (printed_yes re l (ls ++ l2)).
Qed.

Lemma complete_app d1 d2 cur : complete (d1 ++ d2) cur = complete d1 cur ++ complete d2 (pending d1 cur).
Proof.
  revert cur. induction d1 as [|c d1 IH]; intros cur; simpl; [done|]. destruct (c =? LF); [|apply IH]. simpl. f_equal. apply IH.
Qed.

Lemma pending_app d1 d2 cur : pending (d1 ++ d2) cur = pending d2 (pending d1 cur).
Proof. revert cur. induction d1 as [|c d1 IH]; intros cur; simpl; [done|]. destruct (c =? LF); apply IH. Qed.

Lemma no_newline d cur : LF ∉ d -> complete d cur = [] /\ pending d cur = cur ++ d.
Proof.
  revert cur. induction d as [|c d IH]; intros cur Hd; simpl; [by rewrite app_nil_r|].
  apply not_elem_of_cons in Hd as [Hc Hd]. destruct (Z.eqb_spec c LF) as [->|_]; [done|].
  destruct (IH (cur ++ [c]) Hd) as [-> ->]. split; [done|]. by rewrite <- app_assoc.
Qed.

Lemma first_line u v cur : LF ∉ u ->
  complete (u ++ LF :: v) cur = (cur ++ u) :: complete v [] /\ pending (u ++ LF :: v) cur = pending v [].
Proof. intros Hu. rewrite complete_app, pending_app. by destruct (no_newline u cur Hu) as [-> ->]. Qed.

Lemma pending_clean d cur : LF ∉ cur -> LF ∉ pending d cur.
Proof.
  revert cur. induction d as [|c d IH]; intros cur Hc; simpl; [done|]. destruct (Z.eqb_spec c LF) as [->|Hne]; apply IH.
  - apply not_elem_of_nil.
  - rewrite elem_of_app, list_elem_of_singleton. intros [?|?]; [done|congruence].
Qed.

Lemma pending_suffix t : exists u, t = u ++ pending t [].
Proof.
  assert (Hgo : forall t cur, exists u, cur ++ t = u ++ pending t cur).
  { clear. induction t as [|c t IH]; intros cur; simpl; [exists []; by rewrite app_nil_r|]. destruct (c =? LF).
    - destruct (IH []) as (u & E). exists (cur ++ [c] ++ u). simpl in *. rewrite E at 1. by rewrite <- !app_assoc.
    - destruct (IH (cur ++ [c])) as (u & E). exists u. rewrite <- E. by rewrite <- app_assoc. }
  apply (Hgo t []).
Qed.

(** No line is longer than [n]. *)
Definition short (n : nat) (d cur : list Z) : Prop :=
  Forall (fun l => length l <= n)%nat (complete d cur) /\ (length (pending d cur) <= n)%nat.

Lemma short_cur n d cur : short n d cur -> (length cur <= n)%nat.
Proof.
  revert cur. induction d as [|c d IH]; intros cur [Hc Hp]; simpl in *; [done|]. destruct (c =? LF).
  - by apply Forall_cons in Hc as [? _].
  - specialize (IH (cur ++ [c]) (conj Hc Hp)). rewrite length_app in IH. lia.
Qed.

Lemma short_app n u v cur : short n (u ++ v) cur -> short n v (pending u cur).
Proof. intros [Hc Hp]. rewrite complete_app in Hc. rewrite pending_app in Hp. apply Forall_app in Hc as [_ Hc]. by split. Qed.

(** ** The buffer *)

Lemma cstr_app_r m t u v : cstr m t (u ++ v) -> cstr m (t + Z.of_nat (length u)) v.
Proof.
  revert t. induction u as [|x u IH]; intros t Hs; cbn [length]; [by rewrite Z.add_0_r|].
  apply cstr_cons in Hs as (_ & _ & Hs). apply IH in Hs. eapply (eq_ind _ (fun a => cstr m a v)); [exact Hs|]. lia.
Qed.

(** Cut off by a NUL. *)
Lemma cstr_cut m t u x v : cstr m t (u ++ x :: v) -> cstr (wr m (t + Z.of_nat (length u)) 0) t u.
Proof.
  intros [H1 _]. split.
  - intros i b Hb. destruct (H1 i b) as [Hb0 Hr]; [by apply lookup_app_l_Some|]. split; [done|]. rewrite rd_wr_ne; [done|].
    apply lookup_lt_Some in Hb. lia.
  - by rewrite rd_wr_eq.
Qed.

Lemma bytes_cstr m t bs : Forall (fun b => b <> 0) bs -> bytes (length bs) m t = bs -> rd m (t + Z.of_nat (length bs)) = 0 -> cstr m t bs.
Proof.
  intros Hn Hb Hz. split; [|done]. intros i b Hi. split; [by eapply Forall_lookup in Hn|].
  pose proof (lookup_lt_Some _ _ _ Hi) as Hl. rewrite <- Hb, lookup_bytes in Hi by done. by injection Hi.
Qed.

(** [u] read behind [pend]. *)
Lemma filled m buf pend u :
  bytes (length pend) m buf = pend -> Forall (fun b => b <> 0) pend -> Forall (fun b => 0 < b < 256) u ->
  cstr (wr (wr_bytes m (buf + Z.of_nat (length pend)) u) (buf + (Z.of_nat (length pend) + Z.of_nat (length u))) 0) buf (pend ++ u).
Proof.
  intros Hb Hp Hu. set (m1 := wr_bytes _ _ _). apply bytes_cstr.
  - apply Forall_app. split; [done|]. eapply Forall_impl; [exact Hu|]. simpl. lia.
  - rewrite length_app, bytes_app. f_equal.
    + etransitivity; [|exact Hb]. apply bytes_ext. intros i Hi. rewrite rd_wr_ne by lia. unfold m1. rewrite rd_wr_bytes, decide_False by lia. done.
    + apply list_eq. intros i. destruct (decide (i < length u)%nat) as [Hi|Hi].
      * rewrite lookup_bytes by done. destruct (lookup_lt_is_Some_2 _ _ Hi) as [b Eb]. rewrite Eb. f_equal.
        rewrite rd_wr_ne by lia. unfold m1. rewrite rd_wr_bytes, decide_True by lia.
        replace (Z.to_nat _) with i by lia. rewrite Eb. cbn. eapply Forall_lookup in Hu; [|exact Eb]. simpl in Hu. apply u8_small. lia.
      * rewrite !lookup_ge_None_2; [done|lia|rewrite length_bytes; lia].
  - rewrite length_app, Nat2Z.inj_add. by rewrite rd_wr_eq.
Qed.

Section Loops.
Context {W : Type} `{StreamOS W}.
Variables (buf pattern : Z) (re : list Z).

Definition outside (a : Z) : Prop := ~ (buf <= a < buf + SIZEOF_BUF).
Definition same_out (m m' : mem) : Prop := forall a, outside a -> rd m' a = rd m a.

(** The pattern is a string outside the buffer. *)
Definition pattern_at (m : mem) : Prop :=
  cstr m pattern re /\ forall a, pattern <= a <= pattern + Z.of_nat (length re) -> outside a.

Lemma pattern_same m m' : pattern_at m -> same_out m m' -> pattern_at m'.
Proof. intros [Hp Ho] E. split; [|done]. eapply cstr_ext; [|exact Hp]. auto. Qed.

Lemma same_out_wr m a v : ~ outside a -> same_out m (wr m a v).
Proof. intros Ha b Hb. apply rd_wr_ne. by intros ->. Qed.

Lemma same_out_trans m1 m2 m3 : same_out m1 m2 -> same_out m2 m3 -> same_out m1 m3.
Proof. intros A C a Ha. rewrite C by done. auto. Qed.

Lemma inside_buf p i n : buf <= p -> 0 <= i <= n -> p + n < buf + SIZEOF_BUF -> ~ outside (p + i).
Proof. unfold outside. lia. Qed.

(** One line that ends at [q]. *)
Lemma grep_line_wp fuel p u v s (Q : outcome unit -> ust W -> Prop) :
  let q := p + Z.of_nat (length u) in
  pattern_at (umem s) -> cstr (umem s) p (u ++ LF :: v) -> buf <= p -> q + Z.of_nat (length v) + 1 < buf + SIZEOF_BUF ->
  (length re + length u < fuel)%nat ->
  (forall m' w' o, same_out (umem s) m' -> (forall a, a <> q -> rd m' a = rd (umem s) a) -> printed re [u] o ->
     written w' = written (uw s) ++ o -> (forall fd, left_on fd w' = left_on fd (uw s)) -> Q (Done tt) (USt m' w')) ->
  wp (grep_line fuel pattern p q) s Q.
Proof.
  intros q Hpat Ht Hb Hend Hf HQ. unfold grep_line. apply ubind_wp. unfold ustore at 1, wp at 1.
  assert (Hq : ~ outside q) by (apply (inside_buf p _ (Z.of_nat (length u) + Z.of_nat (length v) + 1)); lia).
  assert (Hm1 : same_out (umem s) (wr (umem s) q 0)) by (by apply same_out_wr).
  apply ubind_wp. destruct (match_decides fuel (wr (umem s) q 0) pattern p re u) as (b & Eb & Hb'); [|by eapply cstr_cut|lia|].
  { by apply (pattern_same _ _ Hpat Hm1). }
  eapply upure_wp; [exact Eb|]. destruct b.
  - apply ubind_wp. unfold ustore, wp at 1. apply ubind_wp. unfold uwrite, wp at 1. cbn [umem uw].
    set (m2 := wr (wr (umem s) q 0) q LF). assert (E2 : forall a, rd m2 a = rd (umem s) a).
    { intros a. unfold m2. destruct (Z.eq_dec a q) as [->|Hne]; [|by rewrite !rd_wr_ne by auto]. rewrite rd_wr_eq.
      apply cstr_app_r in Ht. fold q in Ht. apply cstr_cons in Ht as (_ & -> & _). done. }
    assert (Ew : bytes (Z.to_nat (q + 1 - p)) m2 p = u ++ [LF]).
    { replace (Z.to_nat (q + 1 - p)) with (length (u ++ [LF])) by (rewrite length_app; simpl; lia).
      rewrite (bytes_ext _ m2 (umem s) p p) by (intros; apply E2).
      apply cstr_bytes_at in Ht. rewrite length_app in Ht |- *. cbn [length] in *.
      replace (length u + S (length v))%nat with (length u + 1 + length v)%nat in Ht by lia. rewrite bytes_app in Ht.
      change (LF :: v) with ([LF] ++ v) in Ht. rewrite app_assoc in Ht.
      by apply app_inj_1 in Ht as [-> _]; [|rewrite length_bytes, length_app; simpl; lia]. }
    rewrite Ew. destruct (os_write 1 (u ++ [LF]) (uw s)) as [r w'] eqn:Eo. apply write_stream in Eo as [Eo El]. apply uret_wp.
    apply (HQ m2 w' (u ++ [LF] ++ [])); [intros a _; apply E2|intros a _; apply E2| |by rewrite app_nil_r|done].
    apply printed_yes; [by apply Hb'|constructor].
  - apply uret_wp. apply (HQ _ _ []); [done|intros a Ha; by apply rd_wr_ne|apply printed_no; [|constructor]|by rewrite app_nil_r|done].
    intros Hm. by apply Hb' in Hm.
Qed.

Lemma grep_lines_wp fuel p t s (Q : outcome Z -> ust W -> Prop) :
  pattern_at (umem s) -> cstr (umem s) p t -> buf <= p -> 0 < p -> p + Z.of_nat (length t) < buf + SIZEOF_BUF ->
  (length re + length t < fuel)%nat ->
  (forall m' w' o p', same_out (umem s) m' -> p' + Z.of_nat (length (pending t [])) = p + Z.of_nat (length t) ->
     cstr m' p' (pending t []) -> printed re (complete t []) o ->
     written w' = written (uw s) ++ o -> (forall fd, left_on fd w' = left_on fd (uw s)) -> Q (Done p') (USt m' w')) ->
  wp (grep_lines fuel pattern p) s Q.
Proof.
  revert p t s. induction fuel as [|fuel IH]; intros p t s Hpat Ht Hb Hp Hend Hf HQ; [lia|]. cbn [grep_lines]. apply ubind_wp.
  destruct (decide (LF ∈ t)) as [Hin|Hno].
  - apply list_elem_of_split_l in Hin as (u & v & -> & Hu). rewrite length_app in Hend, Hf. cbn [length] in Hend, Hf.
    eapply upure_wp; [by apply (strchr_first _ _ p u LF v); [| |lia]|]. set (q := p + Z.of_nat (length u)).
    destruct (Z.eqb_spec q 0) as [E|_]; [lia|]. apply ubind_wp.
    apply (grep_line_wp (S fuel) p u v s); [done|done|done|lia|lia|]. intros m1 w1 o1 S1 E1 P1 O1 L1.
    destruct (first_line u v [] Hu) as [Ec Ep].
    assert (Hv : cstr m1 (q + 1) v).
    { apply (cstr_ext (umem s)); [intros a Ha; apply E1; lia|]. change (LF :: v) with ([LF] ++ v) in Ht. rewrite app_assoc in Ht.
      apply cstr_app_r in Ht. rewrite length_app in Ht. eapply (eq_ind _ (fun a => cstr _ a v)); [exact Ht|]. simpl. lia. }
    apply (IH (q + 1) v (USt m1 w1)); cbn [umem uw]; [by eapply pattern_same|done|lia|lia|lia|lia|].
    intros m2 w2 o2 p' S2 Ep' C2 P2 O2 L2. apply (HQ m2 w2 (o1 ++ o2) p').
    + by eapply same_out_trans.
    + rewrite Ep, length_app. cbn [length]. lia.
    + by rewrite Ep.
    + rewrite Ec. by apply (printed_app re [u]).
    + by rewrite O2, O1, app_assoc.
    + intros fd. by rewrite L2.
  - eapply upure_wp; [by apply (strchr_none _ _ p t LF); [| |lia]|]. cbn [Z.eqb]. apply uret_wp. destruct (no_newline t [] Hno) as [Ec Ep].
    destruct s as [m w]. apply (HQ m w [] p); rewrite ?Ec, ?Ep; cbn [umem uw app]; try done; [constructor|by rewrite app_nil_r].
Qed.

Lemma grep_loop_wp fuel fd pend s (Q : outcome unit -> ust W -> Prop) :
  pattern_at (umem s) -> 0 < buf -> LF ∉ pend -> Forall (fun b => b <> 0) pend ->
  bytes (length pend) (umem s) buf = pend ->
  Forall (fun b => 0 < b < 256) (left_on fd (uw s)) -> short 1022 (left_on fd (uw s)) pend ->
  (length re + length (left_on fd (uw s)) + 1024 < fuel)%nat ->
  (forall m' w' o, same_out (umem s) m' -> printed re (complete (left_on fd (uw s)) pend) o ->
     written w' = written (uw s) ++ o -> left_on fd w' = [] -> Q (Done tt) (USt m' w')) ->
  wp (grep_loop buf fuel pattern fd (Z.of_nat (length pend))) s Q.
Proof.
  revert pend s. induction fuel as [|fuel IH]; intros pend s Hpat Hb Hlf Hnz Hby Hch Hsh Hf HQ; [lia|]. cbn [grep_loop].
  set (k := Z.of_nat (length pend)). pose proof (short_cur _ _ _ Hsh) as Hk. apply ubind_wp. unfold uread, wp at 1.
  destruct (os_read fd (SIZEOF_BUF - k - 1) (uw s)) as [l w1] eqn:Er.
  apply read_stream in Er as (u & v & -> & El & El1 & Ew1 & Hlen & Hnil); [|unfold SIZEOF_BUF; lia]. rewrite El in *.
  destruct (Z.ltb_spec 0 (Z.of_nat (length u))) as [Hu|Hu].
  2:{ destruct u; [|simpl in Hu; lia]. cbn [wr_bytes]. destruct (Hnil eq_refl) as [Hn| ->]; [unfold SIZEOF_BUF in Hn; lia|].
      apply uret_wp. apply (HQ _ _ []); [by intros ? _|constructor|by rewrite app_nil_r|done]. }
  apply ubind_wp. unfold ustore, wp at 1. cbn [umem uw]. set (m1 := wr_bytes (umem s) (buf + k) u).
  set (m2 := wr m1 (buf + (k + Z.of_nat (length u))) 0).
  assert (Hout : forall i, 0 <= i < k + Z.of_nat (length u) + 1 -> ~ outside (buf + i)).
  { intros i Hi. apply (inside_buf buf i (SIZEOF_BUF - 1)); unfold SIZEOF_BUF in *; lia. }
  assert (S2 : same_out (umem s) m2).
  { apply (same_out_trans _ m1); [|apply same_out_wr, Hout; lia]. intros a Ha. unfold m1. rewrite rd_wr_bytes, decide_False; [done|].
    intros Hr. apply (Hout (a - buf)); [lia|]. by replace (buf + (a - buf)) with a by lia. }
  apply Forall_app in Hch as [Hcu Hcv].
  assert (C2 : cstr m2 buf (pend ++ u)) by (by apply (filled (umem s))).
  pose proof (short_app _ _ _ _ Hsh) as Hsh'. destruct (no_newline pend [] Hlf) as [Ec Ep]. simpl in Ep.
  apply ubind_wp. apply (grep_lines_wp (S fuel) buf (pend ++ u) (USt m2 w1)); cbn [umem uw]; try done; rewrite ?length_app.
  { by eapply pattern_same. } { unfold SIZEOF_BUF in *. lia. } { rewrite length_app in Hf. unfold SIZEOF_BUF in Hlen. lia. }
  rewrite pending_app, complete_app, Ec, Ep. cbn [app]. intros m3 w3 o p' S3 Ep' C3 P3 O3 L3. set (pnd := pending u pend) in *.
  apply ubind_wp. rewrite (proj2 (Z.ltb_lt 0 (k + Z.of_nat (length u)))) by lia. apply ubind_wp. unfold umod, wp at 1.
  apply uret_wp. cbn [umem uw]. replace (k + Z.of_nat (length u) - (p' - buf)) with (Z.of_nat (length pnd)) by lia.
  set (m4 := memmove m3 buf p' (Z.of_nat (length pnd))).
  assert (C4 : copied m3 m4 buf p' (Z.of_nat (length pnd))) by (apply memmove_spec; lia).
  assert (S4 : same_out m3 m4).
  { intros a Ha. rewrite (C4 a), decide_False; [done|]. intros Hr. pose proof (short_cur _ _ _ Hsh') as Hpn. apply Ha. unfold SIZEOF_BUF. fold pnd in Hpn. lia. }
  assert (Sall : same_out (umem s) m4) by (eapply same_out_trans; [|exact S4]; by eapply same_out_trans).
  apply (IH pnd (USt m4 w3)); cbn [umem uw]; rewrite ?L3, ?El1; try done.
  - by eapply pattern_same.
  - by apply pending_clean.
  - destruct C3 as [C3 _]. apply Forall_lookup. intros i b Hi. by apply (C3 i b).
  - rewrite (bytes_copied m3 m4 buf p' (Z.of_nat (length pnd))) by (done || lia). by apply cstr_bytes_at.
  - rewrite length_app in Hf. lia.
  - intros m5 w5 o5 S5 P5 O5 L5. apply (HQ m5 w5 (o ++ o5)); [by eapply same_out_trans| | |done].
    + rewrite complete_app. by apply printed_app.
    + by rewrite O5, O3, Ew1, app_assoc.
Qed.

End Loops.

(** * grep: theorems *)

(** The matcher decides the pattern language. For strings in memory and
    at least as many steps as they have characters, [match] returns, and it
    returns true exactly when the text has a part in the language of the
    pattern: characters, [.] for any character, a starred character for any
    number of them, [^] and [$] for the ends of the text. *)
Theorem grep_match_decides fuel m re text p t :
  cstr m re p -> cstr m text t -> (length p + length t < fuel)%nat ->
  exists b, match_ fuel m re text = Some b /\ (b = true <-> line_matches p t).
Proof. apply match_decides. Qed.


(** ** Examples *)

Definition ex_grep_mem (re text : list Z) : mem := wr_bytes (wr_bytes ∅ 100 re) 200 text.


(** The pattern "ab*c", and two reads of three characters each, then the rest. *)
Definition ex_grep_data : list Z := str "xac" ++ [LF] ++ str "b" ++ [LF] ++ str "abbc" ++ [LF] ++ str "ac".
Definition ex_grep_state : ust pipe_world :=
  USt (wr_bytes ∅ 100 (str "ab*c")) (PipeWorld ex_grep_data [2; 2]%nat []).

