(* ===== verification/Mkfs.v ===== *)
(** * The program that makes a file system

    [mkfs/mkfs.c], a program of the host.  The image is the file that it
    writes, as a list of blocks; [die] and a failed [assert] end the program and
    are the error [EPanic].  An argument is a name with what the host delivers
    for it: nothing if the file cannot be opened, and otherwise the buffers that
    [read] returns until it returns 0.  The host is little-endian. *)

From S2P Require Import Prelude Riscv Mem CString IoState Bytes Fs Dir Printf.

Definition NINODES : Z := 200.
Definition nbitmap : Z := FSSIZE / (BSIZE * 8) + 1.
Definition ninodeblocks : Z := NINODES / IPB + 1.
Definition nlog : Z := LOGSIZE.
Definition nmeta : Z := 2 + nlog + ninodeblocks + nbitmap.
Definition nblocks : Z := FSSIZE - nmeta.

(** The bytes of the result are the low bytes of [x]. *)
Definition xshort (x : Z) : Z := u8 x + 256 * u8 (Z.shiftr x 8).
Definition xint (x : Z) : Z :=
  u8 x + 256 * (u8 (Z.shiftr x 8) + 256 * (u8 (Z.shiftr x 16) + 256 * u8 (Z.shiftr x 24))).

(** The variable [sb] as [main] sets it. *)
Definition mk_sb : superblock :=
  Superblock FSMAGIC (xint FSSIZE) (xint nblocks) (xint NINODES) (xint nlog) (xint 2) (xint (2 + nlog))
    (xint (2 + nlog + ninodeblocks)).
Definition sb_bytes (s : superblock) : list Z :=
  put_les 4 (replicate bsize 0) 0
    [sb_magic s; sb_size s; sb_nblocks s; sb_ninodes s; sb_nlog s; sb_logstart s; sb_inodestart s; sb_bmapstart s].

Record mkst := MkSt { img : list (list Z); freeinode : Z; freeblock : Z }.
Definition set_img (l : list (list Z)) (s : mkst) : mkst := MkSt l (freeinode s) (freeblock s).
Definition set_freeinode (n : Z) (s : mkst) : mkst := MkSt (img s) n (freeblock s).
Definition set_freeblock (n : Z) (s : mkst) : mkst := MkSt (img s) (freeinode s) n.

Definition MkM : Type -> Type := M mkst.
Definition die {A} (s : string) : MkM A := panic s.
Definition assert (b : bool) : MkM unit := if b then ret tt else panic "assert".

(** The block at offset [sec * BSIZE], an unsigned product. *)
Definition sect (sec : Z) : nat := Z.to_nat (u32 (sec * BSIZE) / BSIZE).

Section Mkfs.
Local Open Scope kernel_scope.

(** A write beyond the end leaves zeros in between. *)
Definition put_sect (l : list (list Z)) (n : nat) (buf : list Z) : list (list Z) :=
  if bool_decide (n < length l)%nat then <[n := buf]> l
  else l ++ replicate (n - length l) (replicate bsize 0) ++ [buf].
Definition wsect (sec : Z) (buf : list Z) : MkM unit := modify (fun s => set_img (put_sect (img s) (sect sec) buf) s).
Definition rsect (sec : Z) : MkM (list Z) :=
  o <- gets (fun s => img s !! sect sec) ;;
  match o with Some buf => ret buf | None => die "read" end.

Definition winode (inum : Z) (ip : dinode) : MkM unit :=
  let bn := IBLOCK inum mk_sb in
  buf <- rsect bn ;;
  wsect bn (dinode_put buf (dinode_off inum) ip).
Definition rinode (inum : Z) : MkM dinode :=
  let bn := IBLOCK inum mk_sb in
  buf <- rsect bn ;;
  ret (dinode_get buf (dinode_off inum)).

Definition ialloc (type : Z) : MkM Z :=
  inum <- gets freeinode ;;
  modify (set_freeinode (u32 (inum + 1))) ;;
  winode inum (DInode (i16 (xshort type)) 0 0 (i16 (xshort 1)) (xint 0) (replicate (S ndirect) 0)) ;;
  ret inum.

(** The first [used] bits. *)
Fixpoint set_bits (n : nat) : list Z :=
  match n with
  | O => replicate bsize 0
  | S n => set_bit (set_bits n) (Z.of_nat n)
  end.
Definition balloc (used : Z) : MkM unit :=
  assert (used <? BSIZE * 8) ;;
  wsect (sb_bmapstart mk_sb) (set_bits (Z.to_nat used)).

(** freeblock++ *)
Definition new_block : MkM Z :=
  b <- gets freeblock ;; modify (set_freeblock (u32 (b + 1))) ;; ret b.

Definition set_din_addr (k : nat) (a : Z) (d : dinode) : dinode :=
  DInode (d_type d) (d_major d) (d_minor d) (d_nlink d) (d_size d) (<[k := a]> (d_addrs d)).
Definition set_din_size (n : Z) (d : dinode) : dinode :=
  DInode (d_type d) (d_major d) (d_minor d) (d_nlink d) n (d_addrs d).
Definition din_addr (d : dinode) (k : nat) : Z := default 0 (d_addrs d !! k).

(** An address of the inode, taken if it is 0. *)
Definition addr_slot (din : dinode) (k : nat) : MkM dinode :=
  if xint (din_addr din k) =? 0 then b <- new_block ;; ret (set_din_addr k (xint b) din) else ret din.
(** The block of slot [fbn]. *)
Definition file_slot (din : dinode) (fbn : Z) : MkM (dinode * Z) :=
  if fbn <? NDIRECT then
    din <- addr_slot din (Z.to_nat fbn) ;;
    ret (din, xint (din_addr din (Z.to_nat fbn)))
  else
    din <- addr_slot din ndirect ;;
    indirect <- rsect (xint (din_addr din ndirect)) ;;
    let k := (4 * Z.to_nat (fbn - NDIRECT))%nat in
    if get_le 4 indirect k =? 0 then
      b <- new_block ;;
      wsect (xint (din_addr din ndirect)) (put_le 4 indirect k (xint b)) ;;
      ret (din, xint (xint b))
    else ret (din, xint (get_le 4 indirect k)).

(** [p] are the [n] bytes that are left; the result is [din] and [off]. *)
Fixpoint iappend_loop (fuel : nat) (din : dinode) (p : list Z) (off : Z) : MkM (dinode * Z) :=
  match fuel with
  | O => fail EFuel
  | S fuel =>
      if bool_decide (p = []) then ret (din, off)
      else
        let fbn := off / BSIZE in
        assert (fbn <? MAXFILE) ;;
        r <- file_slot din fbn ;;
        let (din, x) := r : dinode * Z in
        let n1 := Z.to_nat (Z.min (Z.of_nat (length p)) ((fbn + 1) * BSIZE - off)) in
        buf <- rsect x ;;
        wsect x (splice buf (Z.to_nat (off - fbn * BSIZE)) (take n1 p)) ;;
        iappend_loop fuel din (drop n1 p) (u32 (off + Z.of_nat n1))
  end.
Definition iappend (inum : Z) (p : list Z) : MkM unit :=
  din <- rinode inum ;;
  r <- iappend_loop (S (length p)) din p (xint (d_size din)) ;;
  let (din, off) := r : dinode * Z in
  winode inum (set_din_size (xint off) din).

(** ** main *)

Record arg := Arg { a_name : list Z; a_reads : option (list (list Z)) }.

(** The name without the directory, and without the underscore. *)
Definition shortname (name : list Z) : list Z :=
  if bool_decide (take 5 name = str "user/") then drop 5 name else name.
Definition skip_underscore (name : list Z) : list Z :=
  match name with c :: rest => if c =? 95 then rest else name | [] => name end.

(** A struct dirent: the inode number and the name, padded with zeros. *)
Definition dirent (inum : Z) (name : list Z) : list Z :=
  [u8 (xshort inum); u8 (Z.shiftr (xshort inum) 8)] ++ name_field DIRSIZ name.

Fixpoint append_reads (inum : Z) (bufs : list (list Z)) : MkM unit :=
  match bufs with
  | [] => ret tt
  | buf :: bufs => iappend inum buf ;; append_reads inum bufs
  end.

Definition add_file (rootino : Z) (a : arg) : MkM unit :=
  let short := shortname (a_name a) in
  assert (negb (bool_decide (SLASH ∈ short))) ;;
  match a_reads a with
  | None => die "open"
  | Some bufs =>
      let short := skip_underscore short in
      inum <- ialloc T_FILE ;;
      iappend rootino (dirent inum short) ;;
      append_reads inum bufs
  end.
Fixpoint add_files (rootino : Z) (args : list arg) : MkM unit :=
  match args with
  | [] => ret tt
  | a :: args => add_file rootino a ;; add_files rootino args
  end.

Fixpoint zero_loop (n : nat) (i : Z) : MkM unit :=
  match n with
  | O => ret tt
  | S n => wsect i (replicate bsize 0) ;; zero_loop n (i + 1)
  end.

Definition fix_root (rootino : Z) : MkM unit :=
  din <- rinode rootino ;;
  let off := xint (d_size din) in
  let off := u32 ((off / BSIZE + 1) * BSIZE) in
  winode rootino (set_din_size (xint off) din).

(** From the empty file on. *)
Definition main (args : list arg) : MkM unit :=
  assert (BSIZE mod Z.of_nat SIZEOF_DINODE =? 0) ;;
  assert (BSIZE mod SIZEOF_DIRENT =? 0) ;;
  modify (set_freeblock nmeta) ;;
  zero_loop (Z.to_nat FSSIZE) 0 ;;
  wsect 1 (sb_bytes mk_sb) ;;
  rootino <- ialloc T_DIR ;;
  assert (rootino =? ROOTINO) ;;
  iappend rootino (dirent rootino (str ".")) ;;
  iappend rootino (dirent rootino (str "..")) ;;
  add_files rootino args ;;
  fix_root rootino ;;
  used <- gets freeblock ;;
  balloc (i32 used).
Definition mkst0 : mkst := MkSt [] 1 0.

End Mkfs.
