(* ===== verification/MkfsSpec.v ===== *)
(** * mkfs: the image it makes

    [mkfs] takes blocks in order and records them in the free map at the end.
    The proof keeps a disk in which the map is up to date at every moment; on
    it, taking a block is what [balloc] of the kernel does, and appending to a
    file meets the specification of the kernel's [writei]. *)

From S2P Require Import Prelude Riscv Mem CString IoState BioSpec Bytes Printf Fs Dir LogDisk LogSpec FsSpec InodeSpec ReadSpec FileMap DirSpec NameSpec BmapSpec WriteSpec.
From S2P Require Import Mkfs.

(** ** Integers and bits *)

Lemma xshort_eq x : xshort x = u16 x.
Proof. unfold xshort, u8, u16. rewrite Z.shiftr_div_pow2 by lia. change (2 ^ 8) with 256. zdm. Qed.

Lemma xint_eq x : xint x = u32 x.
Proof. unfold xint, u8, u32. rewrite !Z.shiftr_div_pow2 by lia. change (2 ^ 8) with 256. change (2 ^ 16) with 65536. change (2 ^ 24) with 16777216. change (2 ^ 32) with 4294967296. zdm. Qed.

Lemma length_set_bits n : length (set_bits n) = bsize.
Proof. induction n as [|n IH]; cbn [set_bits]; [apply length_replicate|]. unfold set_bit. by rewrite length_insert. Qed.

Lemma bit_of_set_bits n b : Z.of_nat n <= BPB -> 0 <= b < BPB -> bit_of (set_bits n) b = (b <? Z.of_nat n).
Proof.
  induction n as [|n IH]; intros Hn Hb; cbn [set_bits].
  - unfold bit_of, byte_at. pose proof (bit_byte_lt b Hb). rewrite lookup_replicate_2 by done. simpl. rewrite Z.bits_0. symmetry. apply Z.ltb_ge. lia.
  - rewrite bit_of_set by (apply length_set_bits || lia). rewrite IH by lia. destruct (bool_decide_reflect (Z.of_nat n = b)); simpl.
    + symmetry. apply Z.ltb_lt. lia.
    + destruct (Z.ltb_spec b (Z.of_nat n)), (Z.ltb_spec b (Z.of_nat (S n))); done || lia.
Qed.

(** ** The image *)

Notation fs := mk_sb.
Definition FS : Z := 2000.
Definition MAP : Z := 45.

(** The image is the disk [L] but for the free map, which is in [L] already. *)
Record mk_rep (s : mkst) (L : Z -> list Z) : Prop := {
  mr_len : length (img s) = 2000%nat;
  mr_img b : 0 <= b < FS -> b <> MAP -> img s !! Z.to_nat b = Some (L b);
  mr_block b : length (L b) = bsize /\ bytes_ok (L b);
  mr_fb : nmeta <= freeblock s <= FS;
  mr_map : L MAP = set_bits (Z.to_nat (freeblock s));
  mr_free b : freeblock s <= b < FS -> L b = replicate bsize 0;
}.

Lemma sb_eq : fs = Superblock FSMAGIC 2000 1954 200 30 2 32 45.
Proof. reflexivity. Qed.

Lemma mk_BBLOCK b : 0 <= b < FS -> BBLOCK b fs = MAP.
Proof. intros Hb. unfold BBLOCK, FS in *. rewrite Z.div_small by (unfold BPB, BSIZE; lia). done. Qed.

Lemma mk_allocated s L b : mk_rep s L -> 0 <= b < FS -> allocated L fs b = (b <? freeblock s).
Proof.
  intros R Hb. pose proof (mr_fb _ _ R) as Hf. change nmeta with 46 in Hf. unfold FS in *.
  unfold allocated. rewrite mk_BBLOCK, (mr_map _ _ R), Z.mod_small, bit_of_set_bits by (unfold FS, BPB, BSIZE; lia). f_equal. lia.
Qed.

Lemma mk_layout s L : mk_rep s L -> layout L fs 2.
Proof.
  intros R. pose proof (mr_fb _ _ R) as Hf. change nmeta with 46 in Hf. pose proof (mk_allocated s L) as Ha. unfold FS, MAP in *.
  split; [split| |done| |done].
  - done.
  - done.
  - intros b Hb. change (sb_size fs) with 2000 in Hb. rewrite mk_BBLOCK by done. split; [done|]. unfold in_log, LOGSIZE, MAXOPBLOCKS, MAP. lia.
  - intros b Hb _. change (sb_size fs) with 2000 in Hb. rewrite mk_BBLOCK, Ha by (done || unfold MAP; lia). apply Z.ltb_lt. unfold MAP. lia.
  - intros b Hb Hl. change (sb_size fs) with 2000 in Hb. unfold in_log, LOGSIZE, MAXOPBLOCKS in Hl. rewrite Ha by done. apply Z.ltb_lt. lia.
  - intros b Hb Hs. change (data_start fs) with 46 in Hb. rewrite Ha by (done || lia). apply Z.ltb_lt. lia.
  - intros inum Hi. change (sb_ninodes fs) with 200 in Hi. unfold IBLOCK. change IPB with 16. change (sb_inodestart fs) with 32. change (sb_bmapstart fs) with 45.
    pose proof (Z.div_pos inum 16). pose proof (Z.div_lt_upper_bound inum 16 13). rewrite u32_small by lia. lia.
Qed.

(** ** Sectors *)

Lemma sect_eq b : 0 <= b < FS -> sect b = Z.to_nat b.
Proof. unfold FS. intros Hb. unfold sect, BSIZE. rewrite u32_small by lia. by rewrite Z.div_mul by lia. Qed.

Lemma rsect_wp s L b (Q : list Z -> mkst -> Prop) : mk_rep s L -> 0 <= b < FS -> b <> MAP -> Q (L b) s -> wp (rsect b) s Q.
Proof. intros R Hb Hm HQ. unfold rsect. wp_step. wp_step. rewrite sect_eq, (mr_img _ _ R b) by done. by apply wp_ret. Qed.

Lemma wsect_wp s L b d (Q : unit -> mkst -> Prop) :
  mk_rep s L -> 0 <= b < freeblock s -> b <> MAP -> length d = bsize -> bytes_ok d ->
  (forall s2, mk_rep s2 (block_upd L b d) -> freeinode s2 = freeinode s -> freeblock s2 = freeblock s -> Q tt s2) -> wp (wsect b d) s Q.
Proof.
  intros R Hb Hm Hl Hd HQ. pose proof (mr_fb _ _ R) as Hf. unfold FS in Hf. unfold wsect. wp_step. unfold put_sect.
  rewrite sect_eq by (unfold FS; lia). rewrite bool_decide_eq_true_2 by (rewrite (mr_len _ _ R); lia). apply HQ; try done. split; cbn [img freeblock set_img].
  - rewrite length_insert. apply R.
  - intros c Hc Hcm. destruct (decide (b = c)) as [->|Hne].
    + rewrite list_lookup_insert_eq by (rewrite (mr_len _ _ R); lia). by rewrite block_upd_eq.
    + rewrite list_lookup_insert_ne by lia. rewrite block_upd_ne by done. by apply R.
  - intros c. unfold block_upd. case_decide; [done|]. apply R.
  - apply R.
  - rewrite block_upd_ne by done. apply R.
  - intros c Hc. rewrite block_upd_ne by lia. by apply R.
Qed.

(** [freeblock++] *)
Lemma new_block_wp s L (Q : Z -> mkst -> Prop) : mk_rep s L -> freeblock s < FS ->
  (forall s2, let r := freeblock s in 0 <= r < sb_size fs -> allocated L fs r = false -> mk_rep s2 (take_block L fs r) ->
     freeinode s2 = freeinode s -> freeblock s2 = r + 1 -> Q r s2) -> wp new_block s Q.
Proof.
  intros R Hlt HQ. pose proof (mr_fb _ _ R) as Hf. change nmeta with 46 in Hf. unfold FS in *. unfold new_block. wp_step. wp_step. wp_step. wp_step. apply wp_ret.
  rewrite u32_small by lia. set (r := freeblock s) in *. assert (Hfree : allocated L fs r = false) by (rewrite (mk_allocated s L r R) by (unfold FS; lia); apply Z.ltb_ge; lia).
  apply HQ; try done; [change (sb_size fs) with 2000; lia|]. assert (HB : BBLOCK r fs = MAP) by (apply mk_BBLOCK; unfold FS; lia). unfold take_block. rewrite HB.
  assert (Hrm : r <> MAP) by (unfold MAP; lia). split; cbn [img freeblock set_freeblock].
  - apply R.
  - intros c Hc Hcm. destruct (decide (r = c)) as [<-|Hne].
    + rewrite block_upd_eq, (mr_img _ _ R r), (mr_free _ _ R r) by (done || (unfold FS; lia)). done.
    + rewrite !block_upd_ne by done. by apply R.
  - intros c. unfold block_upd. repeat case_decide; [split; [apply length_replicate|apply Forall_replicate; lia]| |apply R].
    destruct (mr_block _ _ R MAP) as [A B]. unfold set_bit. rewrite length_insert. split; [done|].
    apply Forall_insert; [done|]. apply u8_range.
  - change nmeta with 46. unfold FS. lia.
  - rewrite block_upd_ne, block_upd_eq, (mr_map _ _ R) by done. fold r. replace (Z.to_nat (r + 1)) with (S (Z.to_nat r)) by lia. cbn [set_bits].
    rewrite Z.mod_small by (unfold BPB, BSIZE; lia). f_equal. lia.
  - intros c Hc. rewrite !block_upd_ne by (unfold MAP; lia). apply R. lia.
Qed.

(** ** The blocks of a file *)

(** The first [n] slots of [x] are in use, and the indirect block if [i]. *)
Record mk_file (s : mkst) (L : Z -> list Z) (x : inode) (n : Z) (i : bool) : Prop := {
  mf_rep : mk_rep s L;
  mf_wf : file_wf L fs x;
  mf_slots bn : 0 <= bn < MAXFILE -> mblock L x bn <> 0 <-> bn < n;
  mf_ind : ind x <> 0 <-> i = true;
}.
Notation whole n := (NDIRECT <? n).

(** Blocks for [n] slots, the indirect block included. *)
Definition blocks_for (n : Z) : Z := n + if NDIRECT <? n then 1 else 0.

Lemma xint_small a : 0 <= a < 2 ^ 32 -> xint a = a.
Proof. intros Ha. rewrite xint_eq. by apply u32_small. Qed.

Lemma mf_layout s L x n i : mk_file s L x n i -> layout L fs 2.
Proof. intros [R _ _ _]. by eapply mk_layout. Qed.

Lemma mf_len s L x n i b : mk_file s L x n i -> length (L b) = bsize.
Proof. intros [R _ _ _]. apply R. Qed.

Lemma mf_range s L x n i a : mk_file s L x n i -> in_file L x a -> nmeta <= a < freeblock s.
Proof.
  intros [R Hwf _ _] Ha. destruct (fw_data _ _ _ Hwf _ Ha) as ([Hd Hs] & Hal & _). change (data_start fs) with 46 in Hd. change (sb_size fs) with 2000 in Hs.
  rewrite (mk_allocated s L a R) in Hal by (unfold FS; lia). apply Z.ltb_lt in Hal. change nmeta with 46. lia.
Qed.

Lemma mf_addr s L x n i a : mk_file s L x n i -> in_file L x a -> 0 <= a < FS /\ a <> MAP /\ xint a = a.
Proof.
  intros Hf Ha. pose proof (mf_range _ _ _ _ _ _ Hf Ha) as Hr. pose proof (mr_fb _ _ (mf_rep _ _ _ _ _ Hf)). change nmeta with 46 in *. unfold FS, MAP in *.
  rewrite xint_small by lia. lia.
Qed.

Lemma mf_slot_addr s L x n i bn : mk_file s L x n i -> 0 <= bn < MAXFILE -> xint (mblock L x bn) = mblock L x bn.
Proof.
  intros Hf Hbn. destruct (decide (mblock L x bn = 0)) as [->|Hnz]; [done|]. eapply mf_addr; [done|]. split; [done|]. right. by exists bn.
Qed.

(** The slot [bn] is there, after at most [m] blocks were taken. *)
Definition slot_post (s : mkst) L x n i bn (s2 : mkst) L2 x2 (m : Z) : Prop :=
  mk_file s2 L2 x2 (Z.max n (bn + 1)) i /\ fext fs L x L2 x2 /\ kept L x L2 /\ (n <= bn -> L2 (mblock L2 x2 bn) = replicate bsize 0) /\
  freeinode s2 = freeinode s /\ freeblock s2 = freeblock s + m.

Lemma slot_same s L x n i bn : mk_file s L x n i -> bn < n -> slot_post s L x n i bn s L x 0.
Proof. intros Hf Hlt. unfold slot_post. rewrite Z.max_l by lia. split; [done|]. split; [apply wf_refl, Hf|]. split; [apply kept_refl|]. split; [lia|]. split; [done|lia]. Qed.

(** Taking the next slot, when its effect on the slots is known. *)
Lemma slot_next s L x n i s2 L2 x2 r : mk_file s L x n i -> 0 <= n < MAXFILE -> 0 <= r < sb_size fs -> allocated L fs r = false ->
  slot_taken L fs x r L2 x2 n -> mk_rep s2 L2 -> freeblock s2 = freeblock s + 1 -> freeinode s2 = freeinode s ->
  kept L x L2 -> L2 r = replicate bsize 0 -> slot_post s L x n i n s2 L2 x2 1.
Proof.
  intros Hf Hn Hr Hfree Hsk R2 Hfb Hfi Hk Hz. pose proof (mf_layout _ _ _ _ _ Hf) as Hly. pose proof (mf_wf _ _ _ _ _ Hf) as Hwf.
  unfold slot_post. rewrite Z.max_r by lia. split; [|split; [by eapply slot_taken_ext|split; [done|]]].
  2:{ split; [|done]. intros _. by rewrite (sk_block _ _ _ _ _ _ _ Hsk), decide_True. }
  split; [done|by eapply slot_taken_wf| |].
  - intros bn Hbn. rewrite (sk_block _ _ _ _ _ _ _ Hsk) by done. pose proof (taken_pos L fs 2 r Hly Hr Hfree). case_decide; [subst; naive_solver lia|].
    rewrite (mf_slots _ _ _ _ _ Hf) by done. lia.
  - destruct (sk_same _ _ _ _ _ _ _ Hsk) as (_ & _ & ->). apply Hf.
Qed.

Lemma direct_slot_wp s L x n i bn (Q : dinode -> mkst -> Prop) :
  mk_file s L x n i -> 0 <= bn < NDIRECT -> bn <= n -> freeblock s + (if bn <? n then 0 else 1) <= FS ->
  (forall s2 L2 x2, slot_post s L x n i bn s2 L2 x2 (if bn <? n then 0 else 1) -> Q (dinode_of x2) s2) ->
  wp (addr_slot (dinode_of x) (Z.to_nat bn)) s Q.
Proof.
  intros Hf Hbn Hle Hroom HQ. assert (Hm : 0 <= bn < MAXFILE) by (unfold NDIRECT in *; change MAXFILE with 268 in *; lia).
  assert (Ea : din_addr (dinode_of x) (Z.to_nat bn) = mblock L x bn) by (unfold mblock; by rewrite (proj2 (Z.ltb_lt _ _)) by lia).
  unfold addr_slot. rewrite Ea, (mf_slot_addr _ _ _ _ _ _ Hf Hm). destruct (Z.ltb_spec bn n) as [Hlt|Hge].
  - rewrite (proj2 (Z.eqb_neq _ _)) by (by apply (mf_slots _ _ _ _ _ Hf)). apply wp_ret, (HQ s L x). by apply slot_same.
  - assert (bn = n) as -> by lia. assert (Hz : mblock L x n = 0) by (destruct (decide (mblock L x n = 0)); [done|]; apply (mf_slots _ _ _ _ _ Hf) in Hm as [Hm _]; lia || (exfalso; naive_solver lia)).
    rewrite Hz. cbn [Z.eqb]. wp_step. eapply new_block_wp; [apply Hf|lia|]. intros s2 r Hr Hfree R2 Hfi Hfb. apply wp_ret.
    change (sb_size fs) with 2000 in Hr. rewrite (xint_small r) by lia. apply (HQ s2 (take_block L fs r) (set_i_addrs (<[Z.to_nat n := r]> (i_addrs x)) x)).
    pose proof (mf_layout _ _ _ _ _ Hf). pose proof (mf_wf _ _ _ _ _ Hf).
    eapply slot_next; try done; [eapply take_direct; try done; intros; by eapply mf_len|by eapply kept_take|apply take_zero].
Qed.

Lemma kept_trans L x L1 x1 L2 : fext fs L x L1 x1 -> kept L x L1 -> kept L1 x1 L2 -> kept L x L2.
Proof.
  intros X K1 K2 bn Hbn Hnz. rewrite <- K1 by done. rewrite <- (fe_block _ _ _ _ _ X) by done. apply K2; [done|]. by rewrite (fe_block _ _ _ _ _ X).
Qed.

Lemma mf_fext s L x n i s1 L1 x1 n1 i1 L0 x0 : mk_file s L x n i -> mk_file s1 L1 x1 n1 i1 -> fext fs L0 x0 L x -> fext fs L x L1 x1 -> fext fs L0 x0 L1 x1.
Proof. intros Hf Hf1. apply fext_trans. intros a. eapply (wf_range _ fs 2); [by eapply mf_layout|apply Hf1]. Qed.

Lemma ind_slot_wp s L x n i (Q : dinode -> mkst -> Prop) :
  mk_file s L x n i -> freeblock s + (if i then 0 else 1) <= FS ->
  (forall s2 L2 x2, mk_file s2 L2 x2 n true -> fext fs L x L2 x2 -> kept L x L2 -> freeinode s2 = freeinode s ->
     freeblock s2 = freeblock s + (if i then 0 else 1) -> Q (dinode_of x2) s2) ->
  wp (addr_slot (dinode_of x) ndirect) s Q.
Proof.
  intros Hf Hroom HQ. unfold addr_slot. change (din_addr (dinode_of x) ndirect) with (ind x). pose proof (mf_ind _ _ _ _ _ Hf) as Hi. destruct i.
  - assert (Hnz : ind x <> 0) by (by apply Hi). assert (Hin : in_file L x (ind x)) by (split; auto). destruct (mf_addr _ _ _ _ _ _ Hf Hin) as (_ & _ & ->).
    rewrite (proj2 (Z.eqb_neq _ _) Hnz). apply wp_ret, (HQ s L x); [done|apply wf_refl, Hf|apply kept_refl|done|lia].
  - assert (Hz : ind x = 0) by (destruct (decide (ind x = 0)); [done|]; naive_solver). rewrite Hz. cbn [xint Z.eqb].
    change (xint 0 =? 0) with true. cbn iota. wp_step. eapply new_block_wp; [apply Hf|lia|]. intros s2 r Hr Hfree R2 Hfi Hfb. apply wp_ret.
    pose proof Hr as Hr'. change (sb_size fs) with 2000 in Hr'. rewrite (xint_small r) by lia.
    pose proof (mf_layout _ _ _ _ _ Hf) as Hly. pose proof (mf_wf _ _ _ _ _ Hf) as Hwf.
    destruct (take_ind_block L fs 2 x r Hly Hwf Hr Hfree Hz) as [Ei Emb]. destruct (take_ind_wf L fs 2 x r Hly (fun b => mf_len _ _ _ _ _ b Hf) Hwf Hr Hfree Hz) as [W2 X2].
    apply (HQ s2 (take_block L fs r) (set_i_addrs (<[ndirect := r]> (i_addrs x)) x)); try done; [|by eapply kept_take].
    split; [done|done| |].
    + intros bn Hbn. rewrite Emb by done. by apply (mf_slots _ _ _ _ _ Hf).
    + pose proof (taken_pos L fs 2 r Hly Hr Hfree) as Hrp. split; [done|]. intros _ E. apply Hrp. etransitivity; [symmetry; exact Ei|exact E].
Qed.

(** The rest of the indirect case. *)
Definition indirect_slot (din : dinode) (fbn : Z) : MkM (dinode * Z) :=
  (indirect <- rsect (xint (din_addr din ndirect)) ;;
   let k := (4 * Z.to_nat (fbn - NDIRECT))%nat in
   if get_le 4 indirect k =? 0 then
     b <- new_block ;;
     wsect (xint (din_addr din ndirect)) (put_le 4 indirect k (xint b)) ;;
     ret (din, xint (xint b))
   else ret (din, xint (get_le 4 indirect k)))%K.

Lemma indirect_slot_wp s L x n bn (Q : dinode * Z -> mkst -> Prop) :
  mk_file s L x n true -> NDIRECT <= bn < MAXFILE -> bn <= n -> freeblock s + (if bn <? n then 0 else 1) <= FS ->
  (forall s2 L2 x2, slot_post s L x n true bn s2 L2 x2 (if bn <? n then 0 else 1) -> Q (dinode_of x2, mblock L2 x2 bn) s2) ->
  wp (indirect_slot (dinode_of x) bn) s Q.
Proof.
  intros Hf Hbn Hle Hroom HQ. assert (Hm : 0 <= bn < MAXFILE) by (unfold NDIRECT in *; lia).
  assert (Hnz : ind x <> 0) by (by apply (mf_ind _ _ _ _ _ Hf)). assert (Hin : in_file L x (ind x)) by (split; auto).
  destruct (mf_addr _ _ _ _ _ _ Hf Hin) as (Hia & Him & Hix). unfold indirect_slot. change (din_addr (dinode_of x) ndirect) with (ind x). rewrite Hix.
  wp_step. eapply rsect_wp; [apply Hf|done|done|]. cbv zeta.
  assert (Ea : get_le 4 (L (ind x)) (4 * Z.to_nat (bn - NDIRECT)) = mblock L x bn).
  { unfold mblock. rewrite (proj2 (Z.ltb_ge _ _)) by lia. by rewrite (proj2 (Z.eqb_neq _ _) Hnz). }
  rewrite Ea. destruct (Z.ltb_spec bn n) as [Hlt|Hge].
  - rewrite (proj2 (Z.eqb_neq _ _)) by (by apply (mf_slots _ _ _ _ _ Hf)). rewrite (mf_slot_addr _ _ _ _ _ _ Hf Hm). apply wp_ret, (HQ s L x). by apply slot_same.
  - assert (bn = n) as -> by lia. assert (Hz : mblock L x n = 0) by (destruct (decide (mblock L x n = 0)); [done|]; exfalso; destruct (mf_slots _ _ _ _ _ Hf n Hm); naive_solver lia).
    rewrite Hz. cbn [Z.eqb]. wp_step. eapply new_block_wp; [apply Hf|lia|]. intros s2 r Hr Hfree R2 Hfi Hfb.
    pose proof Hr as Hr'. change (sb_size fs) with 2000 in Hr'. rewrite !(xint_small r) by lia.
    pose proof (mf_layout _ _ _ _ _ Hf) as Hly. pose proof (mf_wf _ _ _ _ _ Hf) as Hwf.
    pose proof (take_indirect L fs 2 x r Hly (fun b => mf_len _ _ _ _ _ b Hf) Hwf Hr Hfree n Hbn Hnz Hz) as Hsk. cbv zeta in Hsk.
    wp_step. eapply wsect_wp; [exact R2| |done|rewrite length_put_le; by eapply mf_len| |].
    + pose proof (mf_range _ _ _ _ _ _ Hf Hin) as Hra. change nmeta with 46 in Hra. lia.
    + pose proof (proj2 (sk_bytes _ _ _ _ _ _ _ Hsk) Hnz) as Hb. by rewrite block_upd_eq in Hb.
    + intros s3 R3 Hfi3 Hfb3. apply wp_ret. assert (Er : r = mblock (block_upd (take_block L fs r) (ind x) (put_le 4 (L (ind x)) (4 * Z.to_nat (n - NDIRECT)) r)) x n).
      { by rewrite (sk_block _ _ _ _ _ _ _ Hsk), decide_True. }
      rewrite Er at 1. apply (HQ s3 _ x). eapply slot_next; [done|done|exact Hr|done|done|done|lia|congruence| |].
      2:{ rewrite block_upd_ne by (by eapply (taken_new L fs x r)). apply take_zero. }
      intros b Hb Hbz. rewrite block_upd_ne by (by apply not_eq_sym, (fw_ind _ _ _ Hwf)). by eapply kept_take.
Qed.

(** [file_slot] makes the file have the slot. *)
Definition slot_done (s : mkst) L x n bn (s2 : mkst) L2 x2 : Prop :=
  let n2 := Z.max n (bn + 1) in
  mk_file s2 L2 x2 n2 (whole n2) /\ fext fs L x L2 x2 /\ kept L x L2 /\ (n <= bn -> L2 (mblock L2 x2 bn) = replicate bsize 0) /\
  freeinode s2 = freeinode s /\ freeblock s2 = freeblock s + blocks_for n2 - blocks_for n.

Lemma file_slot_wp s L x n bn (Q : dinode * Z -> mkst -> Prop) :
  mk_file s L x n (whole n) -> 0 <= bn < MAXFILE -> bn <= n -> n <= MAXFILE -> freeblock s + blocks_for (Z.max n (bn + 1)) - blocks_for n <= FS ->
  (forall s2 L2 x2, slot_done s L x n bn s2 L2 x2 -> Q (dinode_of x2, mblock L2 x2 bn) s2) ->
  wp (file_slot (dinode_of x) bn) s Q.
Proof.
  intros Hf Hm Hle Hmax Hroom HQ. unfold file_slot, slot_done, blocks_for in *. cbv zeta in HQ. destruct (Z.ltb_spec bn NDIRECT) as [Hd|Hd].
  - assert (Hc : whole (Z.max n (bn + 1)) = whole n) by (destruct (Z.ltb_spec NDIRECT n), (Z.ltb_spec NDIRECT (Z.max n (bn + 1))); done || lia).
    rewrite Hc in *. wp_step. eapply direct_slot_wp; [exact Hf|lia|done|destruct (Z.ltb_spec bn n), (whole n); lia|].
    intros s2 L2 x2 (Hf2 & X2 & K2 & Hz2 & Hfi & Hfb). apply wp_ret. assert (Ea : din_addr (dinode_of x2) (Z.to_nat bn) = mblock L2 x2 bn).
    { unfold mblock. by rewrite (proj2 (Z.ltb_lt _ _)) by lia. }
    rewrite Ea, (mf_slot_addr _ _ _ _ _ _ Hf2 Hm). apply HQ. split_and!; try done. rewrite Hfb. destruct (Z.ltb_spec bn n), (whole n); lia.
  - assert (Hc : whole (Z.max n (bn + 1)) = true) by (apply Z.ltb_lt; lia). rewrite Hc in *.
    wp_step. eapply ind_slot_wp; [exact Hf|destruct (whole n); lia|]. intros s1 L1 x1 Hf1 X1 K1 Hfi1 Hfb1.
    eapply (indirect_slot_wp s1 L1 x1 n); [done|lia|done|destruct (Z.ltb_spec bn n), (whole n); lia|]. intros s2 L2 x2 (Hf2 & X2 & K2 & Hz2 & Hfi2 & Hfb2). apply HQ.
    split_and!; [done|by eapply (mf_fext s1 L1 x1)|by eapply kept_trans|done|congruence|]. rewrite Hfb2, Hfb1. destruct (Z.ltb_spec bn n), (Z.ltb_spec NDIRECT n); lia.
Qed.

(** ** Appending *)

(** Blocks for [o] bytes. *)
Definition ceil (o : Z) : Z := (o + BSIZE - 1) / BSIZE.
Definition cost (o : Z) : Z := blocks_for (ceil o).

(** The rest of the last block is zero. *)
Definition tail_zero (L : Z -> list Z) (x : inode) (sz : Z) : Prop := forall o, sz <= o < ceil sz * BSIZE -> mbyte L x o = 0.

(** The bytes that are appended, as a source. *)
Definition bytes_at (data : list Z) (_ : mem) (j : Z) : Z := byte_at data (Z.to_nat j).

Lemma source_take data m j n : 0 <= j -> (Z.to_nat j + n <= length data)%nat -> source_bytes (bytes_at data) m j n = take n (drop (Z.to_nat j) data).
Proof.
  intros Hj Hn. apply list_eq. intros i. unfold source_bytes. rewrite list_lookup_fmap. destruct (decide (i < n)%nat) as [Hi|Hi].
  - rewrite lookup_seq_lt, lookup_take_lt, lookup_drop by lia. simpl. unfold bytes_at, byte_at. replace (Z.to_nat (j + Z.of_nat i)) with (Z.to_nat j + i)%nat by lia.
    destruct (lookup_lt_is_Some_2 data (Z.to_nat j + i)) as [v ->]; [lia|done].
  - rewrite lookup_seq_ge, lookup_take_ge by lia. done.
Qed.

Lemma ceil_step off m : 0 <= off -> 0 < m -> off mod BSIZE + m <= BSIZE -> ceil (off + m) = off / BSIZE + 1 /\ Z.max (ceil off) (off / BSIZE + 1) = off / BSIZE + 1 /\ off / BSIZE <= ceil off.
Proof.
  intros Ho Hm Hb. unfold ceil. pose proof (Z.div_mod off BSIZE ltac:(done)). pose proof (Z.mod_pos_bound off BSIZE ltac:(done)).
  assert ((off + m + BSIZE - 1) / BSIZE = off / BSIZE + 1) by (symmetry; apply (Z.div_unique_pos _ _ _ (off mod BSIZE + m - 1)); lia).
  pose proof (Z.div_le_mono off (off + BSIZE - 1) BSIZE ltac:(done) ltac:(unfold BSIZE; lia)).
  pose proof (Z.div_le_mono (off + BSIZE - 1) (off + m + BSIZE - 1) BSIZE ltac:(done) ltac:(lia)). lia.
Qed.

Lemma cost_mono a b : 0 <= a <= b -> cost a <= cost b.
Proof.
  intros Hab. pose proof (Z.div_le_mono (a + BSIZE - 1) (b + BSIZE - 1) BSIZE ltac:(done) ltac:(lia)). unfold cost, blocks_for, ceil.
  repeat case_match; rewrite ?Z.ltb_lt, ?Z.ltb_ge in *; lia.
Qed.

(** The block of a turn, written. *)
Lemma mf_write s L x n i bn d (Q : unit -> mkst -> Prop) :
  mk_file s L x n i -> 0 <= bn < MAXFILE -> bn < n -> length d = bsize -> bytes_ok d ->
  (forall s2, let L2 := block_upd L (mblock L x bn) d in mk_file s2 L2 x n i -> fext fs L x L2 x ->
     (forall b, 0 <= b < MAXFILE -> mblock L2 x b = mblock L x b) -> freeinode s2 = freeinode s -> freeblock s2 = freeblock s -> Q tt s2) ->
  wp (wsect (mblock L x bn) d) s Q.
Proof.
  intros Hf Hbn Hlt Hl Hd HQ. assert (Hnz : mblock L x bn <> 0) by (by apply (mf_slots _ _ _ _ _ Hf)).
  assert (Hin : in_file L x (mblock L x bn)) by (split; [done|]; right; by exists bn).
  pose proof (mf_range _ _ _ _ _ _ Hf Hin) as Hr. change nmeta with 46 in Hr. destruct (mf_addr _ _ _ _ _ _ Hf Hin) as (_ & Hm & _).
  destruct (write_block L fs 2 x bn d (mf_layout _ _ _ _ _ Hf) (mf_wf _ _ _ _ _ Hf) Hbn Hnz Hd) as (_ & W2 & X2 & Hmb).
  eapply wsect_wp; [apply Hf|lia|done|done|done|]. intros s2 R2 Hfi Hfb. apply HQ; try done. split; [done|done| |apply Hf].
  intros b Hb. rewrite Hmb by done. by apply (mf_slots _ _ _ _ _ Hf).
Qed.

(** The rest of the last block after a turn. *)
Lemma tail_step L x L1 x1 off m bs : 0 <= off -> off + m <= MAXFILE * BSIZE -> 0 < m -> off mod BSIZE + m <= BSIZE -> length bs = Z.to_nat m ->
  file_wf L1 fs x1 -> (forall b, length (L1 b) = bsize) -> fext fs L x L1 x1 -> kept L x L1 -> mblock L1 x1 (off / BSIZE) <> 0 ->
  (forall bn, 0 <= bn < MAXFILE -> mblock L x bn <> 0 <-> bn < ceil off) ->
  (ceil off <= off / BSIZE -> L1 (mblock L1 x1 (off / BSIZE)) = replicate bsize 0) -> tail_zero L x off ->
  let L2 := block_upd L1 (mblock L1 x1 (off / BSIZE)) (splice (L1 (mblock L1 x1 (off / BSIZE))) (Z.to_nat (off mod BSIZE)) bs) in
  (forall b, 0 <= b < MAXFILE -> mblock L2 x1 b = mblock L1 x1 b) -> tail_zero L2 x1 (off + m).
Proof.
  intros Hoff Hend Hm Hmod Hbs W1 Hl1 X1 K1 Hnz Hslots Hz Ht L2 Hmb o. destruct (ceil_step off m Hoff Hm Hmod) as (-> & Hmax & Hle). intros Ho.
  pose proof (Z.div_mod off BSIZE ltac:(done)) as Hdm. pose proof (Z.mod_pos_bound off BSIZE ltac:(done)).
  assert (Eo : o / BSIZE = off / BSIZE) by (symmetry; apply (Z.div_unique_pos _ _ _ (o - BSIZE * (off / BSIZE))); lia).
  assert (Hs : 0 <= off / BSIZE < MAXFILE) by (apply slot_range; lia). assert (Ho2 : 0 <= o < MAXFILE * BSIZE) by (unfold BSIZE in *; lia).
  unfold L2. rewrite (chunk_mbyte fs [] 0 0 ltac:(vm_compute; lia) L1 x1 off m) by (done || lia || by rewrite Eo). rewrite decide_False by lia.
  destruct (decide (off / BSIZE < ceil off)) as [Hlt|Hge].
  - assert (Hold : mblock L x (o / BSIZE) <> 0) by (rewrite Eo; by apply Hslots). rewrite (kept_mbyte fs L x L1 x1) by done. apply Ht.
    assert (ceil off = off / BSIZE + 1) by lia. lia.
  - unfold mbyte. rewrite Eo, Hz by lia. unfold byte_at. destruct (_ !! _) eqn:E; [|done]. apply lookup_replicate in E as [-> _]. done.
Qed.

Lemma iappend_loop_wp fuel data j w s L x off (Q : dinode * Z -> mkst -> Prop) :
  w = Z.of_nat (length data) - j ->
  mk_file s L x (ceil off) (whole (ceil off)) -> tail_zero L x off -> bytes_ok data -> 0 <= j -> 0 <= w -> 0 <= off ->
  off + w <= MAXFILE * BSIZE -> freeblock s + cost (off + w) - cost off <= FS -> w < Z.of_nat fuel ->
  (forall s2 L2 x2, mk_file s2 L2 x2 (ceil (off + w)) (whole (ceil (off + w))) -> tail_zero L2 x2 (off + w) ->
     wrote_file fs (bytes_at data) ∅ j off w L x L2 x2 -> freeinode s2 = freeinode s -> freeblock s2 = freeblock s + cost (off + w) - cost off ->
     Q (dinode_of x2, off + w) s2) ->
  wp (iappend_loop fuel (dinode_of x) (drop (Z.to_nat j) data) off) s Q.
Proof.
  revert j w s L x off. induction fuel as [|fuel IH]; intros j w s L x off Ew Hf Ht Hd Hj Hw Hoff Hend Hroom Hfuel HQ; cbn [iappend_loop]; [lia|].
  assert (Hlen : length (drop (Z.to_nat j) data) = Z.to_nat w) by (rewrite length_drop; lia).
  destruct (bool_decide_reflect (drop (Z.to_nat j) data = [])) as [E|E].
  { rewrite E in Hlen. assert (Hw0 : w = 0) by (simpl in Hlen; lia). apply wp_ret. specialize (HQ s L x). rewrite Hw0, Z.add_0_r in HQ. apply HQ; try done; [|lia].
    apply (wrote_none fs (bytes_at data) [] 0 0 ltac:(vm_compute; lia)); [apply wf_refl, Hf|apply kept_refl]. }
  assert (Hwp : 0 < w) by (destruct (decide (w = 0)) as [E0|]; [|lia]; rewrite E0 in Hlen; by apply nil_length_inv in Hlen).
  pose proof (Z.mod_pos_bound off BSIZE ltac:(done)) as Hmod. pose proof (Z.div_mod off BSIZE ltac:(done)) as Hdm.
  assert (Hs : 0 <= off / BSIZE < MAXFILE) by (apply slot_range; lia). cbv zeta. rewrite (proj2 (Z.ltb_lt _ _)) by lia. wp_step. cbn [assert]. apply wp_ret.
  set (m := Z.min w (BSIZE - off mod BSIZE)). assert (Hm : 0 < m /\ off mod BSIZE + m <= BSIZE /\ m <= w) by lia.
  destruct (ceil_step off m Hoff ltac:(lia) ltac:(lia)) as (Ec & Emax & Hle).
  pose proof (cost_mono (off + m) (off + w) ltac:(lia)) as Hcm.
  wp_step. eapply (file_slot_wp s L x (ceil off)); [done|done|lia| |rewrite Emax, <- Ec; unfold cost in *; lia|].
  { unfold ceil. apply Z.lt_succ_r, Z.div_lt_upper_bound; [done|]. unfold BSIZE in *; lia. }
  intros s1 L1 x1 Hsd. unfold slot_done in Hsd. rewrite Emax, <- Ec in Hsd. destruct Hsd as (Hf1 & X1 & K1 & Hz1 & Hfi1 & Hfb1).
  assert (Hnz : mblock L1 x1 (off / BSIZE) <> 0) by (apply (mf_slots _ _ _ _ _ Hf1); [done|lia]).
  assert (Hin : in_file L1 x1 (mblock L1 x1 (off / BSIZE))) by (split; [done|]; right; by exists (off / BSIZE)).
  destruct (mf_addr _ _ _ _ _ _ Hf1 Hin) as (Hb1 & Hb2 & _). cbv beta iota zeta. rewrite Hlen.
  assert (E1 : Z.to_nat (Z.min (Z.of_nat (Z.to_nat w)) ((off / BSIZE + 1) * BSIZE - off)) = Z.to_nat m) by lia. rewrite E1.
  wp_step. eapply rsect_wp; [apply Hf1|done|done|].
  replace (Z.to_nat (off - off / BSIZE * BSIZE)) with (Z.to_nat (off mod BSIZE)) by lia.
  rewrite <- (source_take data ∅ j (Z.to_nat m)) by lia. set (bs := source_bytes _ _ _ _).
  assert (Hbl : length bs = Z.to_nat m) by apply length_source_bytes. pose proof (mf_len _ _ _ _ _ (mblock L1 x1 (off / BSIZE)) Hf1) as Hl1.
  assert (Hsp : (Z.to_nat (off mod BSIZE) + length bs <= length (L1 (mblock L1 x1 (off / BSIZE))))%nat) by (rewrite Hl1, Hbl; unfold bsize, BSIZE in *; lia).
  wp_step. eapply (mf_write s1 L1 x1); [done|done|lia|by rewrite length_splice| |].
  { apply bytes_ok_splice; [apply (mr_block _ _ (mf_rep _ _ _ _ _ Hf1))|]. unfold bs. rewrite source_take by lia. by apply Forall_take, Forall_drop. }
  intros s2 L2 Hf2 X2 Hmb Hfi2 Hfb2. rewrite Z2Nat.id by lia. rewrite u32_small by (change MAXFILE with 268 in *; unfold BSIZE in *; lia).
  rewrite drop_drop. replace (Z.to_nat j + Z.to_nat m)%nat with (Z.to_nat (j + m)) by lia.
  assert (Eo : off + m + (w - m) = off + w) by lia.
  apply (IH (j + m) (w - m) s2 L2 x1); rewrite ?Eo; try done; [lia| |lia|lia|lia|unfold cost in *; lia|lia|].
  { apply (tail_step L x L1 x1 off m bs); try done; try lia; [apply Hf1|intros b; by eapply mf_len|apply Hf]. }
  intros s3 L3 x3 Hf3 Ht3 W3 Hfi3 Hfb3. apply (HQ s3 L3 x3); [done|done| |congruence|unfold cost in *; lia]. replace w with (m + (w - m)) by lia.
  eapply (wrote_step 2 fs (bytes_at data) [] 0 0 ltac:(vm_compute; lia) ∅ ∅ j off m (w - m) L x L1 x1 L2 L3 x3); try done; try lia.
  - by eapply mf_layout.
  - apply Hf1.
  - apply Hf3.
  - intros b. by eapply mf_len.
Qed.

(** ** Inodes *)

Lemma mk_IBLOCK inum : 0 <= inum < NINODES -> 32 <= IBLOCK inum fs < 45.
Proof.
  intros Hi. unfold NINODES in Hi. unfold IBLOCK. change IPB with 16. change (sb_inodestart fs) with 32.
  pose proof (Z.div_pos inum 16). pose proof (Z.div_lt_upper_bound inum 16 13). rewrite u32_small by lia. lia.
Qed.

Lemma rinode_wp s L inum (Q : dinode -> mkst -> Prop) : mk_rep s L -> 0 <= inum < NINODES -> Q (on_disk L fs inum) s -> wp (rinode inum) s Q.
Proof.
  intros R Hi HQ. pose proof (mk_IBLOCK inum Hi). unfold rinode. wp_step. eapply rsect_wp; [exact R|unfold FS; lia|unfold MAP; lia|]. by apply wp_ret.
Qed.

Lemma winode_wp s L x (Q : unit -> mkst -> Prop) : mk_rep s L -> 0 <= i_inum x < NINODES ->
  (forall s2, mk_rep s2 (stored L fs x) -> freeinode s2 = freeinode s -> freeblock s2 = freeblock s -> Q tt s2) -> wp (winode (i_inum x) (dinode_of x)) s Q.
Proof.
  intros R Hi HQ. pose proof (mk_IBLOCK _ Hi) as Hb. pose proof (mr_fb _ _ R) as Hf. change nmeta with 46 in Hf. destruct (mr_block _ _ R (IBLOCK (i_inum x) fs)) as [Hl Hok].
  unfold winode. cbv zeta. wp_step. eapply rsect_wp; [exact R|unfold FS; lia|unfold MAP; lia|].
  eapply wsect_wp; [exact R|lia|unfold MAP; lia|by rewrite length_dinode_put| |].
  - unfold dinode_put. apply bytes_ok_puts. by repeat apply bytes_ok_put.
  - intros s2 R2 Hfi Hfb. by apply HQ.
Qed.

Lemma on_disk_stored_ne L f start x m : layout L f start -> (forall b, length (L b) = bsize) -> length (i_addrs x) = S ndirect ->
  0 <= i_inum x < sb_ninodes f -> 0 <= m < sb_ninodes f -> m <> i_inum x -> on_disk (stored L f x) f m = on_disk L f m.
Proof.
  intros Hly Hlen Hl Hi Hm Hne. unfold on_disk, stored. destruct (decide (IBLOCK (i_inum x) f = IBLOCK m f)) as [E|E]; [|by rewrite block_upd_ne].
  rewrite E, block_upd_eq, dinode_get_put_ne; [done|rewrite Hlen; apply dinode_off_bound|done|].
  destruct (inode_place L f start (i_inum x) m); try done; auto.
Qed.

(** ** The image as a list of files *)

(** The inode [inum] is a file with contents [c]. *)
Record file_at (s : mkst) (L : Z -> list Z) (inum ty : Z) (c : list Z) : Prop := {
  fa_file : mk_file s L (inode_on L fs inum) (ceil (Z.of_nat (length c))) (whole (ceil (Z.of_nat (length c))));
  fa_tail : tail_zero L (inode_on L fs inum) (Z.of_nat (length c));
  fa_meta : on_disk L fs inum = DInode ty 0 0 1 (Z.of_nat (length c)) (d_addrs (on_disk L fs inum));
  fa_bytes : file_bytes L (inode_on L fs inum) 0 (length c) = c;
}.

(** A file is as before if its inode and its blocks are. *)
Lemma mf_frame s L x n i s2 L2 : mk_file s L x n i -> mk_rep s2 L2 -> freeblock s <= freeblock s2 -> (forall a, in_file L x a -> L2 a = L a) ->
  mk_file s2 L2 x n i /\ (forall bn, 0 <= bn < MAXFILE -> mblock L2 x bn = mblock L x bn) /\ (forall a, in_file L2 x a <-> in_file L x a).
Proof.
  intros Hf R2 Hfb Hsame. assert (Hmb : forall bn, 0 <= bn < MAXFILE -> mblock L2 x bn = mblock L x bn).
  { intros bn _. unfold mblock. destruct (bn <? NDIRECT); [done|]. destruct (Z.eqb_spec (ind x) 0); [done|]. rewrite Hsame; [done|]. split; auto. }
  assert (Hin : forall a, in_file L2 x a <-> in_file L x a).
  { intros a. unfold in_file. split; (intros [Ha [E|(bn & Hbn & E)]]; (split; [done|]); [by left|]; right; exists bn; split; [done|]). all: rewrite <- E; by rewrite Hmb. }
  pose proof Hf as [R [W1 W2 W3 W4 W5 W6 W7] S I]. split; [|done]. split; [done| | |done].
  - split; try done.
    + intros bn Hbn Hlt. rewrite Hmb by (unfold BSIZE in *; change MAXFILE with 268 in *; lia). by apply W4.
    + intros a Ha. apply Hin in Ha. destruct (W5 a Ha) as ([D1 D2] & Hal & Hb). change (data_start fs) with 46 in D1. change (sb_size fs) with 2000 in D2.
      rewrite Hsame by done. split; [done|]. split; [|done]. rewrite (mk_allocated s L) in Hal by (done || unfold FS; lia). rewrite (mk_allocated s2 L2) by (done || unfold FS; lia).
      apply Z.ltb_lt in Hal. apply Z.ltb_lt. lia.
    + intros b c Hb Hc. rewrite !Hmb by done. by apply W6.
    + intros b Hb. rewrite Hmb by done. by apply W7.
  - intros bn Hbn. rewrite Hmb by done. by apply S.
Qed.

Lemma file_frame s L inum ty c s2 L2 : file_at s L inum ty c -> mk_rep s2 L2 -> freeblock s <= freeblock s2 -> on_disk L2 fs inum = on_disk L fs inum ->
  (forall a, in_file L (inode_on L fs inum) a -> L2 a = L a) ->
  file_at s2 L2 inum ty c /\ (forall a, in_file L2 (inode_on L2 fs inum) a <-> in_file L (inode_on L fs inum) a).
Proof.
  intros [Hf Ht Hm Hb] R2 Hfb Hd Hsame. assert (Ex : inode_on L2 fs inum = inode_on L fs inum) by (unfold inode_on; by rewrite Hd). rewrite Ex.
  destruct (mf_frame _ _ _ _ _ s2 L2 Hf R2 Hfb Hsame) as (Hf2 & Hmb & Hin). set (x := inode_on L fs inum) in *. split; [|done].
  assert (Hsz : i_size x = Z.of_nat (length c)) by (unfold x, inode_on; by rewrite Hm). pose proof (fw_size _ _ _ (mf_wf _ _ _ _ _ Hf)) as Hs. rewrite Hsz in Hs.
  assert (Hby : forall o, 0 <= o < ceil (Z.of_nat (length c)) * BSIZE -> mbyte L2 x o = mbyte L x o).
  { intros o Ho. assert (Hbn : 0 <= o / BSIZE < ceil (Z.of_nat (length c))) by (split; [apply Z.div_pos; [lia|done]|apply Z.div_lt_upper_bound; [done|lia]]).
    assert (Hc : ceil (Z.of_nat (length c)) <= MAXFILE) by (unfold ceil; apply Z.lt_succ_r, Z.div_lt_upper_bound; [done|]; unfold BSIZE in *; lia).
    unfold mbyte. rewrite Hmb by lia. rewrite Hsame; [done|]. split; [apply (mf_slots _ _ _ _ _ Hf); lia|]. right. exists (o / BSIZE). split; [lia|done]. }
  split; rewrite ?Ex, ?Hd; try done.
  - intros o Ho. rewrite Hby by (unfold BSIZE in *; lia). by apply Ht.
  - rewrite <- Hb at 2. unfold file_bytes. apply list_fmap_ext. intros k y Hk. apply lookup_seq in Hk as [-> Hk].
    assert (Hceil : Z.of_nat (length c) <= ceil (Z.of_nat (length c)) * BSIZE).
    { unfold ceil, BSIZE. pose proof (Z.div_mod (Z.of_nat (length c) + 1024 - 1) 1024). pose proof (Z.mod_pos_bound (Z.of_nat (length c) + 1024 - 1) 1024). lia. }
    rewrite !(file_byte_mbyte _ fs x) by (try apply Hf2; try apply Hf; rewrite Hsz; lia). apply Hby. lia.
Qed.

Definition used (F : list (Z * list Z)) : Z := foldr (fun p n => cost (Z.of_nat (length p.2)) + n) 0 F.

Lemma used_insert F k p q : F !! k = Some p -> used (<[k := q]> F) = used F + cost (Z.of_nat (length q.2)) - cost (Z.of_nat (length p.2)).
Proof. revert k. induction F as [|r F IH]; intros [|k] Hk; simplify_eq/=; [lia|]. rewrite IH by done. lia. Qed.

Lemma used_snoc F p : used (F ++ [p]) = used F + cost (Z.of_nat (length p.2)).
Proof. induction F as [|r F IH]; simpl; [lia|]. rewrite IH. lia. Qed.

Definition ino (L : Z -> list Z) (k : nat) : inode := inode_on L fs (Z.of_nat k + 1).

(** The inodes from 1 on are the files [F], with blocks of their own. *)
Record image (s : mkst) (L : Z -> list Z) (F : list (Z * list Z)) : Prop := {
  im_rep : mk_rep s L;
  im_next : freeinode s = Z.of_nat (length F) + 1 /\ freeinode s <= NINODES;
  im_used : freeblock s = nmeta + used F;
  im_file k ty c : F !! k = Some (ty, c) -> file_at s L (Z.of_nat k + 1) ty c;
  im_apart i j a : (i < length F)%nat -> (j < length F)%nat -> i <> j -> in_file L (ino L i) a -> ~ in_file L (ino L j) a;
  im_free inum : Z.of_nat (length F) < inum < NINODES -> d_type (on_disk L fs inum) = 0;
  im_owned a : nmeta <= a < freeblock s -> exists k, (k < length F)%nat /\ in_file L (ino L k) a;
  im_low b : 0 <= b < 32 -> L b = if decide (b = 1) then sb_bytes fs else replicate bsize 0;
}.

Lemma im_data s L F j a : image s L F -> (j < length F)%nat -> in_file L (ino L j) a -> data_block fs a /\ allocated L fs a = true.
Proof.
  intros Hi Hj Ha. destruct (lookup_lt_is_Some_2 F j Hj) as [[ty c] E]. destruct (im_file _ _ _ Hi _ _ _ E) as [Hf _ _ _].
  destruct (fw_data _ _ _ (mf_wf _ _ _ _ _ Hf) a Ha) as (? & ? & _). done.
Qed.

(** One file changes; it takes only free blocks. *)
Lemma image_upd s L F k p p2 s2 L2 : image s L F -> F !! k = Some p -> mk_rep s2 L2 -> freeinode s2 = freeinode s ->
  freeblock s2 = freeblock s + cost (Z.of_nat (length p2.2)) - cost (Z.of_nat (length p.2)) -> freeblock s <= freeblock s2 ->
  file_at s2 L2 (Z.of_nat k + 1) p2.1 p2.2 ->
  (forall inum, 0 <= inum < NINODES -> inum <> Z.of_nat k + 1 -> on_disk L2 fs inum = on_disk L fs inum) ->
  (forall a, data_block fs a -> allocated L fs a = true -> ~ in_file L (ino L k) a -> L2 a = L a /\ ~ in_file L2 (ino L2 k) a) ->
  (forall a, in_file L (ino L k) a \/ freeblock s <= a < freeblock s2 -> in_file L2 (ino L2 k) a) ->
  (forall b, 0 <= b < 32 -> L2 b = L b) -> image s2 L2 (<[k := p2]> F).
Proof.
  intros Hi Hk R2 Hfi Hfb Hle Hf2 Hdisk Hoth Hown Hlow. pose proof Hi as [R [N1 N2] U F1 A Fr Ow Lo]. pose proof (lookup_lt_Some _ _ _ Hk) as Hlk.
  assert (Hother : forall j ty c, j <> k -> F !! j = Some (ty, c) ->
    file_at s2 L2 (Z.of_nat j + 1) ty c /\ (forall a, in_file L2 (ino L2 j) a <-> in_file L (ino L j) a)).
  { intros j ty c Hne Hj. pose proof (lookup_lt_Some _ _ _ Hj). eapply (file_frame s); [by apply F1|done|done|apply Hdisk; lia|].
    intros a Ha. destruct (im_data s L F j a Hi ltac:(done) Ha). apply Hoth; [done|done|]. by apply (A j k). }
  assert (Hin : forall j a, (j < length F)%nat -> j <> k -> in_file L2 (ino L2 j) a -> in_file L (ino L j) a /\ ~ in_file L2 (ino L2 k) a).
  { intros j a Hj Hne Ha. destruct (lookup_lt_is_Some_2 F j Hj) as [[ty c] E]. apply (proj2 (Hother j ty c Hne E)) in Ha. split; [done|].
    destruct (im_data s L F j a Hi Hj Ha). apply Hoth; [done|done|]. by apply (A j k). }
  split; rewrite ?length_insert.
  - done.
  - lia.
  - rewrite (used_insert F k p p2 Hk). lia.
  - intros j ty c Hj. destruct (decide (j = k)) as [->|Hne].
    + rewrite list_lookup_insert_eq in Hj by done. by simplify_eq.
    + rewrite list_lookup_insert_ne in Hj by done. by apply Hother.
  - intros i j a Hil Hjl Hne Ha Hb. destruct (decide (i = k)) as [->|Hik]; [by destruct (Hin j a Hjl ltac:(done) Hb)|].
    destruct (Hin i a Hil Hik Ha) as [Ha' Hnk]. destruct (decide (j = k)) as [->|Hjk]; [done|].
    destruct (Hin j a Hjl Hjk Hb) as [Hb' _]. by apply (A i j a).
  - intros inum Hn. rewrite Hdisk by lia. by apply Fr.
  - intros a Ha. destruct (decide (a < freeblock s)) as [Hlt|Hge]; [|exists k; split; [done|]; apply Hown; lia].
    destruct (Ow a ltac:(lia)) as (j & Hj & Hja). exists j. split; [done|]. destruct (decide (j = k)) as [->|Hjk]; [auto|].
    destruct (lookup_lt_is_Some_2 F j Hj) as [[ty c] E]. by apply (Hother j ty c).
  - intros b Hb. rewrite Hlow by done. by apply Lo.
Qed.

Lemma ino_dinode L k : dinode_of (ino L k) = on_disk L fs (Z.of_nat k + 1).
Proof. apply with_dinode_of. unfold on_disk, dinode_get, get_les. cbn [d_addrs]. by rewrite length_fmap, length_seq. Qed.

(** The bytes of a file that got longer. *)
Lemma file_bytes_extend L x c data : (forall o, 0 <= o < Z.of_nat (length c + length data) ->
    file_byte L x o = if decide (Z.of_nat (length c) <= o < Z.of_nat (length c) + Z.of_nat (length data)) then byte_at data (Z.to_nat (o - Z.of_nat (length c))) else byte_at c (Z.to_nat o)) ->
  file_bytes L x 0 (length (c ++ data)) = c ++ data.
Proof.
  intros Hb. apply list_eq. intros i. unfold file_bytes. rewrite list_lookup_fmap, length_app. destruct (decide (i < length c + length data)%nat) as [Hi|Hi].
  - rewrite lookup_seq_lt by done. cbn [fmap option_fmap option_map]. rewrite Hb by lia. case_decide as Hd.
    + rewrite lookup_app_r by lia. unfold byte_at. replace (Z.to_nat (0 + Z.of_nat (0 + i) - Z.of_nat (length c))) with (i - length c)%nat by lia.
      destruct (lookup_lt_is_Some_2 data (i - length c)) as [v ->]; [lia|done].
    + rewrite lookup_app_l by lia. unfold byte_at. replace (Z.to_nat (0 + Z.of_nat (0 + i))) with i by lia.
      destruct (lookup_lt_is_Some_2 c i) as [v ->]; [lia|done].
  - rewrite lookup_seq_ge, lookup_ge_None_2 by (rewrite ?length_app; lia). done.
Qed.

Lemma file_byte_of L x c o : file_bytes L x 0 (length c) = c -> 0 <= o < Z.of_nat (length c) -> file_byte L x o = byte_at c (Z.to_nat o).
Proof.
  intros E Ho. rewrite <- E. unfold byte_at, file_bytes. rewrite list_lookup_fmap, lookup_seq_lt by lia. simpl. f_equal. lia.
Qed.

Lemma in_file_stored L x m a : layout L fs 2 -> file_wf L fs x -> 0 <= i_inum x < NINODES ->
  in_file (stored L fs (set_i_size m x)) (set_i_size m x) a <-> in_file L x a.
Proof.
  intros Hly Hwf Hi. assert (Hmb : forall bn, mblock (stored L fs (set_i_size m x)) (set_i_size m x) bn = mblock L x bn) by (intros; by eapply stored_mblock).
  unfold in_file. change (ind (set_i_size m x)) with (ind x). split; (intros [Ha [E|(bn & Hbn & E)]]; (split; [done|]); [by left|]; right; exists bn; split; [done|]).
  - by rewrite <- E, Hmb.
  - by rewrite <- E, Hmb.
Qed.

Lemma mf_stored s L x n i m s2 : mk_file s L x n i -> mk_rep s2 (stored L fs (set_i_size m x)) -> 0 <= i_inum x < NINODES -> 0 <= m <= MAXFILE * BSIZE ->
  (forall bn, 0 <= bn -> bn * BSIZE < m -> bn < n) ->
  mk_file s2 (stored L fs (set_i_size m x)) (set_i_size m x) n i /\ (forall o, 0 <= o < n * BSIZE -> n <= MAXFILE -> mbyte (stored L fs (set_i_size m x)) (set_i_size m x) o = mbyte L x o).
Proof.
  intros Hf R2 Hi Hm Hn. pose proof (mf_layout _ _ _ _ _ Hf) as Hly. pose proof (mf_wf _ _ _ _ _ Hf) as Hwf.
  assert (Hmb : forall bn, mblock (stored L fs (set_i_size m x)) (set_i_size m x) bn = mblock L x bn) by (intros; by eapply stored_mblock).
  destruct (stored_wf 2 fs L x m Hly Hwf Hi Hm) as (_ & Hwf2 & _ & _ & Hsame).
  { intros bn Hb Hlt. apply (mf_slots _ _ _ _ _ Hf); [unfold BSIZE in *; lia|]. by apply Hn. }
  split.
  - split; [done|done| |apply Hf]. intros bn Hbn. rewrite Hmb. by apply Hf.
  - intros o Ho Hnm. unfold mbyte. rewrite Hmb. rewrite Hsame; [done|].
    assert (Hbn : 0 <= o / BSIZE < n) by (split; [apply Z.div_pos; [lia|done]|apply Z.div_lt_upper_bound; [done|lia]]).
    split; [apply (mf_slots _ _ _ _ _ Hf); lia|]. right. exists (o / BSIZE). split; [lia|done].
Qed.

Lemma ceil_bounds a : 0 <= a -> a <= ceil a * BSIZE < a + BSIZE.
Proof.
  intros Ha. unfold ceil, BSIZE. pose proof (Z.div_mod (a + 1024 - 1) 1024 ltac:(lia)). pose proof (Z.mod_pos_bound (a + 1024 - 1) 1024 ltac:(lia)). lia.
Qed.

Lemma ceil_max a : 0 <= a <= MAXFILE * BSIZE -> ceil a <= MAXFILE.
Proof. intros Ha. pose proof (ceil_bounds a ltac:(lia)). unfold BSIZE in *. lia. Qed.

Lemma fa_size s L k ty c : file_at s L (Z.of_nat k + 1) ty c -> i_size (ino L k) = Z.of_nat (length c).
Proof. intros [_ _ Hm _]. unfold ino, inode_on. by rewrite Hm. Qed.

Lemma fa_range s L k ty c : file_at s L (Z.of_nat k + 1) ty c -> Z.of_nat (length c) <= MAXFILE * BSIZE.
Proof. intros H. rewrite <- (fa_size _ _ _ _ _ H). destruct H as [Hf _ _ _]. apply (fw_size _ _ _ (mf_wf _ _ _ _ _ Hf)). Qed.

Section Append.
Context (s : mkst) (L : Z -> list Z) (F : list (Z * list Z)) (k : nat) (ty : Z) (c data : list Z) (s2 : mkst) (L2 : Z -> list Z) (x2 : inode) (s3 : mkst).
Let off := Z.of_nat (length c).
Let w := Z.of_nat (length data).
Let x3 := set_i_size (off + w) x2.
Let L3 := stored L2 fs x3.
Hypothesis Him : image s L F.
Hypothesis Hk : F !! k = Some (ty, c).
Hypothesis Hty : short_ok ty.
Hypothesis Hend : off + w <= MAXFILE * BSIZE.
Hypothesis Hf2 : mk_file s2 L2 x2 (ceil (off + w)) (whole (ceil (off + w))).
Hypothesis Ht2 : tail_zero L2 x2 (off + w).
Hypothesis Hwr : wrote_file fs (bytes_at data) ∅ 0 off w L (ino L k) L2 x2.
Hypothesis R3 : mk_rep s3 L3.

Lemma append_inum : i_inum x2 = Z.of_nat k + 1 /\ 0 <= i_inum x2 < NINODES.
Proof.
  destruct (im_next _ _ _ Him) as [N1 N2]. pose proof (lookup_lt_Some _ _ _ Hk). rewrite (fe_same _ _ _ _ _ (wr_ext _ _ _ _ _ _ _ _ _ _ Hwr)).
  cbn [i_inum set_i_addrs ino inode_on with_dinode set_i_size set_i_nlink set_i_minor set_i_major set_i_type]. lia.
Qed.

Lemma append_written : file_written fs (bytes_at data) ∅ 0 off w L (ino L k) L3 x3.
Proof.
  pose proof (im_file _ _ _ Him _ _ _ Hk) as Hfa. pose proof (fa_size _ _ _ _ _ Hfa) as Hsz. destruct Hfa as [Hf _ Hm _].
  assert (E : Z.max (i_size (ino L k)) (off + w) = off + w) by (rewrite Hsz; unfold off, w; lia).
  unfold L3, x3. rewrite <- E. destruct append_inum as [E1 E2]. rewrite (fe_same _ _ _ _ _ (wr_ext _ _ _ _ _ _ _ _ _ _ Hwr)) in E1, E2.
  eapply (written_file 2); [by eapply (mk_layout s), Him|by eapply mf_layout|apply Hf|apply Hf2|intros b; by eapply mf_len| |exact E2|rewrite Hsz; unfold off; lia|unfold w; lia|done].
  eapply wf_dinode_ok; [by eapply (mk_layout s), Him|apply Hf|..]; unfold ino, inode_on; rewrite Hm; done.
Qed.

Lemma append_ino : ino L3 k = x3.
Proof.
  unfold ino at 1, inode_on. pose proof (wn_disk _ _ _ _ _ _ _ _ _ _ append_written) as E. cbn [i_inum] in E. change (i_inum (ino L k)) with (Z.of_nat k + 1) in E. rewrite E.
  unfold x3. rewrite (fe_same _ _ _ _ _ (wr_ext _ _ _ _ _ _ _ _ _ _ Hwr)). done.
Qed.
Lemma append_at : file_at s3 L3 (Z.of_nat k + 1) ty (c ++ data).
Proof.
  destruct append_inum as [E1 E2]. pose proof append_written as W. pose proof append_ino as Ei. pose proof (im_file _ _ _ Him _ _ _ Hk) as Hfa.
  assert (El : Z.of_nat (length (c ++ data)) = off + w) by (rewrite length_app; unfold off, w; lia). assert (Hp : 0 <= off + w) by (unfold off, w; lia).
  pose proof (ceil_bounds (off + w) Hp) as Hc. pose proof (ceil_max (off + w) ltac:(lia)) as Hcm.
  destruct (mf_stored s2 L2 x2 _ _ (off + w) s3 Hf2 R3 E2 ltac:(lia)) as [Hf3 Hby]; [intros bn H1 H2; unfold BSIZE in *; lia|]. fold x3 L3 in Hf3, Hby.
  split; fold (ino L3 k); rewrite ?Ei, ?El.
  - done.
  - intros o Ho. rewrite Hby by (done || lia). by apply Ht2.
  - change (Z.of_nat k + 1) with (i_inum (ino L k)). rewrite (wn_disk _ _ _ _ _ _ _ _ _ _ W). unfold x3.
    rewrite (fe_same _ _ _ _ _ (wr_ext _ _ _ _ _ _ _ _ _ _ Hwr)). unfold ino, inode_on. rewrite (fa_meta _ _ _ _ _ Hfa). done.
  - apply file_bytes_extend. intros o Ho. rewrite (wn_bytes _ _ _ _ _ _ _ _ _ _ W) by (cbn [i_size x3 set_i_size]; unfold off, w; lia).
    unfold off, w. case_decide; [done|]. apply file_byte_of; [apply Hfa|lia].
Qed.

Lemma append_low b : 0 <= b < 32 -> L3 b = L b.
Proof.
  intros Hb. destruct append_inum as [_ E2]. pose proof (mk_IBLOCK _ E2). unfold L3. rewrite stored_other by (cbn [i_inum x3 set_i_size]; lia).
  apply (fe_other _ _ _ _ _ (wr_ext _ _ _ _ _ _ _ _ _ _ Hwr)).
  - intros a Ha. rewrite mk_BBLOCK by done. unfold MAP. lia.
  - intros Ha. pose proof (mf_range _ _ _ _ _ _ Hf2 Ha) as Hr. change nmeta with 46 in Hr. lia.
Qed.

Lemma append_image : freeinode s3 = freeinode s -> freeblock s3 = freeblock s + cost (off + w) - cost off -> image s3 L3 (<[k := (ty, c ++ data)]> F).
Proof.
  intros Hfi Hfb. pose proof append_written as W. pose proof append_ino as Ei.
  assert (El : Z.of_nat (length (c ++ data)) = off + w) by (rewrite length_app; unfold off, w; lia).
  pose proof (cost_mono off (off + w) ltac:(unfold off, w; lia)).
  eapply image_upd; [exact Him|exact Hk|done|done|cbn [snd]; rewrite El; fold off; lia|lia|apply append_at|..].
  - intros inum Hn Hne. by apply (wn_inodes _ _ _ _ _ _ _ _ _ _ W).
  - intros a Hd Ha Hn. rewrite Ei. by apply (wn_others _ _ _ _ _ _ _ _ _ _ W).
  - intros a Ha. rewrite Ei. pose proof (mr_fb _ _ R3) as Hfb3. pose proof (mr_fb _ _ (im_rep _ _ _ Him)) as Hfb1. change nmeta with 46 in *.
    assert (Hin : in_file L (ino L k) a -> in_file L3 x3 a).
    { intros Ho. pose proof (fext_in _ _ _ _ _ _ (wr_ext _ _ _ _ _ _ _ _ _ _ Hwr) Ho) as H2. destruct append_inum as [_ E2].
      apply in_file_stored; [by eapply mf_layout|apply Hf2|done|done]. }
    destruct Ha as [Ho|Ha]; [auto|]. destruct (proj1 (wn_alloc _ _ _ _ _ _ _ _ _ _ W a ltac:(change (sb_size fs) with 2000; unfold FS in *; lia))) as [Ho|Ho]; [| |done].
    + rewrite (mk_allocated s3 L3) by (done || lia). apply Z.ltb_lt. lia.
    + rewrite (mk_allocated s L) in Ho by (apply Him || lia). apply Z.ltb_lt in Ho. lia.
  - apply append_low.
Qed.
End Append.

(** [iappend] adds to the contents of a file, and nothing else changes. *)
Lemma iappend_wp s L F k ty c data (Q : unit -> mkst -> Prop) : image s L F -> F !! k = Some (ty, c) -> short_ok ty -> bytes_ok data ->
  Z.of_nat (length c + length data) <= MAXFILE * BSIZE ->
  freeblock s + cost (Z.of_nat (length c + length data)) - cost (Z.of_nat (length c)) <= FS ->
  (forall s2 L2, image s2 L2 (<[k := (ty, c ++ data)]> F) -> Q tt s2) -> wp (iappend (Z.of_nat k + 1) data) s Q.
Proof.
  intros Him Hk Hty Hd Hend Hroom HQ. rewrite Nat2Z.inj_add in Hend, Hroom. pose proof (im_file _ _ _ Him _ _ _ Hk) as Hfa. pose proof (fa_range _ _ _ _ _ Hfa) as Hr.
  pose proof (lookup_lt_Some _ _ _ Hk) as Hlk. destruct (im_next _ _ _ Him) as [N1 N2]. unfold iappend. wp_step. eapply rinode_wp; [apply Him|lia|].
  assert (Esz : d_size (on_disk L fs (Z.of_nat k + 1)) = Z.of_nat (length c)) by (by rewrite (fa_meta _ _ _ _ _ Hfa)).
  rewrite Esz, xint_small by (change MAXFILE with 268 in *; unfold BSIZE in *; lia). rewrite <- (ino_dinode L k). wp_step.
  pose proof (iappend_loop_wp (S (length data)) data 0 (Z.of_nat (length data)) s L (ino L k) (Z.of_nat (length c))) as Hloop. change (drop (Z.to_nat 0) data) with data in Hloop.
  apply Hloop; clear Hloop; try done; try lia; [apply Hfa|apply Hfa|].
  intros s2 L2 x2 Hf2 Ht2 Hwr Hfi Hfb. cbv beta iota zeta. rewrite xint_small by (change MAXFILE with 268 in *; unfold BSIZE in *; lia).
  destruct (append_inum s L F k ty c data L2 x2 Him Hk Hwr) as [E1 E2]. rewrite <- E1.
  apply (winode_wp s2 L2 (set_i_size (Z.of_nat (length c) + Z.of_nat (length data)) x2)); [apply Hf2|done|]. intros s3 R3 Hfi3 Hfb3.
  eapply HQ, append_image; try done; [congruence|lia].
Qed.

(** ** Allocating an inode *)

Definition new_inode (inum ty : Z) : inode :=
  Inode ROOTDEV inum 1 (SleepLock 0 0) 1 ty 0 0 1 0 (replicate (S ndirect) 0).

Lemma new_mblock L inum ty bn : 0 <= bn -> mblock L (new_inode inum ty) bn = 0.
Proof.
  intros Hbn. unfold mblock. change (ind (new_inode inum ty)) with 0. simpl (0 =? 0). destruct (Z.ltb_spec bn NDIRECT); [|done].
  cbn [i_addrs new_inode]. rewrite lookup_replicate_2; [done|]. unfold NDIRECT, ndirect in *. lia.
Qed.

Lemma new_in_file L inum ty a : ~ in_file L (new_inode inum ty) a.
Proof. intros [Ha [E|(bn & Hbn & E)]]; [done|]. rewrite new_mblock in E by lia. by subst. Qed.

Lemma new_file s L inum ty : mk_rep s L -> mk_file s L (new_inode inum ty) 0 false.
Proof.
  intros R. split; [done| | |done].
  - split; try done.
    + intros bn Hbn Hlt. cbn [i_size new_inode] in Hlt. unfold BSIZE in Hlt. lia.
    + intros a Ha. by apply new_in_file in Ha.
    + intros b c Hb _ Hnz. by rewrite new_mblock in Hnz by lia.
  - intros bn Hbn. rewrite new_mblock by lia. naive_solver lia.
Qed.

Lemma new_image s L F ty s2 : image s L F -> short_ok ty -> Z.of_nat (length F) + 1 < NINODES ->
  let x := new_inode (Z.of_nat (length F) + 1) ty in
  mk_rep s2 (stored L fs x) -> freeinode s2 = freeinode s + 1 -> freeblock s2 = freeblock s -> image s2 (stored L fs x) (F ++ [(ty, [])]).
Proof.
  intros Him Hty Hn x R2 Hfi Hfb. pose proof Him as [R [N1 N2] U F1 A Fr Ow Lo]. set (L2 := stored L fs x) in *. pose proof (mk_layout s L R) as Hly.
  assert (Hb : forall b, length (L b) = bsize) by apply R. assert (Hxi : 0 <= i_inum x < NINODES) by (cbn [i_inum x new_inode]; lia).
  assert (Hd : on_disk L2 fs (Z.of_nat (length F) + 1) = dinode_of x).
  { apply (on_disk_stored L fs x Hb). split; try done. apply Forall_replicate. lia. }
  assert (Hne : forall m, 0 <= m < NINODES -> m <> Z.of_nat (length F) + 1 -> on_disk L2 fs m = on_disk L fs m) by (intros; by eapply (on_disk_stored_ne L fs 2 x)).
  assert (Ex : ino L2 (length F) = x) by (unfold ino, inode_on; by rewrite Hd).
  pose proof (mk_IBLOCK _ Hxi) as Hbl. assert (Hsame : forall a, ~ 32 <= a < 45 -> L2 a = L a) by (intros a Ha; apply stored_other; lia).
  assert (Hold : forall j ty' c, F !! j = Some (ty', c) -> file_at s2 L2 (Z.of_nat j + 1) ty' c /\ (forall a, in_file L2 (ino L2 j) a <-> in_file L (ino L j) a)).
  { intros j ty' c Hj. pose proof (lookup_lt_Some _ _ _ Hj). eapply (file_frame s); [by apply F1|done|lia|apply Hne; lia|].
    intros a Ha. apply Hsame. destruct (im_data s L F j a Him ltac:(done) Ha) as [[Hda _] _]. change (data_start fs) with 46 in Hda. lia. }
  assert (Hin : forall j a, (j < length (F ++ [(ty, [])]))%nat -> in_file L2 (ino L2 j) a -> (j < length F)%nat /\ in_file L (ino L j) a).
  { intros j a Hj Ha. rewrite length_app in Hj. simpl in Hj. destruct (decide (j = length F)) as [->|Hjn]; [rewrite Ex in Ha; by apply new_in_file in Ha|].
    destruct (lookup_lt_is_Some_2 F j ltac:(lia)) as [[ty' c] E]. split; [lia|]. by apply (proj2 (Hold j ty' c E)). }
  split.
  - done.
  - rewrite length_app. simpl. lia.
  - rewrite used_snoc. cbn [snd length]. change (cost (Z.of_nat 0)) with 0. lia.
  - intros j ty' c Hj. apply lookup_app_Some in Hj as [Hj|[Hj E]]; [by apply Hold|]. apply list_lookup_singleton_Some in E as [E0 [= <- <-]].
    assert (j = length F) as -> by lia. split; fold (ino L2 (length F)); rewrite ?Ex, ?Hd; try done.
    + change (ceil (Z.of_nat (@length Z []))) with 0. by apply new_file.
    + intros o Ho. change (ceil (Z.of_nat (@length Z []))) with 0 in Ho. simpl in Ho. lia.
  - intros i j a Hi Hj Hij Ha Hb'. destruct (Hin i a Hi Ha), (Hin j a Hj Hb'). by apply (A i j a).
  - intros inum Hi. rewrite length_app in Hi. simpl in Hi. rewrite Hne by lia. apply Fr. lia.
  - intros a Ha. destruct (Ow a ltac:(lia)) as (j & Hj & Hja). exists j. rewrite length_app. split; [lia|].
    destruct (lookup_lt_is_Some_2 F j Hj) as [[ty' c] E]. by apply (Hold j ty' c).
  - intros b Hb'. rewrite Hsame by lia. by apply Lo.
Qed.

Lemma ialloc_wp s L F ty (Q : Z -> mkst -> Prop) : image s L F -> 0 <= ty < 2 ^ 15 -> Z.of_nat (length F) + 1 < NINODES ->
  (forall s2 L2, image s2 L2 (F ++ [(ty, [])]) -> Q (Z.of_nat (length F) + 1) s2) -> wp (Mkfs.ialloc ty) s Q.
Proof.
  intros Him Hty Hn HQ. destruct (im_next _ _ _ Him) as [N1 N2]. pose proof Hn as Hn'. unfold NINODES in Hn'. unfold Mkfs.ialloc. wp_step. wp_step. wp_step. wp_step. rewrite N1, u32_small by lia.
  rewrite xshort_eq, u16_small by lia.
  assert (E16 : i16 ty = ty) by (rewrite <- (i16_mod ty) at 2 by (unfold short_ok; lia); by rewrite Z.mod_small by lia). rewrite E16.
  change (i16 (xshort 1)) with 1. change (xint 0) with 0. wp_step.
  apply (winode_wp _ L (new_inode (Z.of_nat (length F) + 1) ty)).
  - destruct (im_rep _ _ _ Him). by split.
  - cbn [i_inum new_inode]. lia.
  - intros s2 R2 Hfi Hfb. apply wp_ret. eapply HQ, (new_image s); try done; [unfold short_ok; lia|]. rewrite Hfi. cbn [freeinode set_freeinode]. lia.
Qed.
