(* ===== verification/MkfsTheorems.v ===== *)
(** * mkfs: the file system that [main] leaves

    From the files of [MkfsSpec] to the whole run: the image that the program
    writes is a file system the kernel can mount, with the arguments as the
    files of its root directory. *)

From S2P Require Import Prelude Riscv Mem CString IoState BioSpec Bytes Printf Fs Dir LogDisk LogSpec FsSpec InodeSpec ReadSpec FileMap DirSpec NameSpec BmapSpec WriteSpec.
From S2P Require Import Mkfs MkfsSpec.

(** ** The empty file system *)

Definition L0 (b : Z) : list Z :=
  if decide (b = 1) then sb_bytes fs else if decide (b = MAP) then set_bits (Z.to_nat nmeta) else replicate bsize 0.

Lemma zero_loop_wp n s (Q : unit -> mkst -> Prop) : (length (img s) + n <= 2000)%nat ->
  Q tt (set_img (img s ++ replicate n (replicate bsize 0)) s) -> wp (zero_loop n (Z.of_nat (length (img s)))) s Q.
Proof.
  revert s. induction n as [|n IH]; intros s Hn HQ; cbn [zero_loop].
  - apply wp_ret. cbn [replicate] in HQ. rewrite app_nil_r in HQ. by destruct s.
  - wp_step. unfold wsect. wp_step. unfold put_sect. rewrite sect_eq by (unfold FS; lia). rewrite Nat2Z.id, bool_decide_eq_false_2, Nat.sub_diag by lia.
    cbn [replicate app]. set (s1 := set_img _ s). assert (El : length (img s1) = S (length (img s))) by (cbn [img s1 set_img]; rewrite length_app; simpl; lia).
    replace (Z.of_nat (length (img s)) + 1) with (Z.of_nat (length (img s1))) by lia. apply IH; [lia|]. cbn [img s1 set_img]. by rewrite <- app_assoc.
Qed.

Lemma byte_at_zeros n i : byte_at (replicate n 0) i = 0.
Proof. unfold byte_at. destruct (replicate n 0 !! i) eqn:E; [|done]. by apply lookup_replicate in E as [-> _]. Qed.

Lemma init_image s : img s = <[1%nat := sb_bytes fs]> (replicate 2000 (replicate bsize 0)) -> freeinode s = 1 -> freeblock s = nmeta -> image s L0 [].
Proof.
  intros Hi Hfi Hfb. assert (Hz : bytes_ok (replicate bsize 0)) by (apply Forall_replicate; lia).
  split; try done.
  - split; rewrite ?Hi, ?Hfb.
    + by rewrite length_insert, length_replicate.
    + unfold FS. intros b Hb Hm. unfold L0. destruct (decide (b = 1)) as [->|Hne]; [by rewrite list_lookup_insert_eq by (rewrite length_replicate; lia)|].
      rewrite list_lookup_insert_ne, decide_False by (done || lia). by rewrite lookup_replicate_2 by lia.
    + intros b. unfold L0. repeat case_decide; [|split; [apply length_set_bits|]|by rewrite length_replicate].
      * split; [apply length_put_les|]. unfold sb_bytes. by apply bytes_ok_puts.
      * generalize (Z.to_nat nmeta). intros n. induction n as [|n IH]; cbn [set_bits]; [done|]. apply Forall_insert; [done|apply u8_range].
    + change nmeta with 46. unfold FS. lia.
    + done.
    + intros b Hb. change nmeta with 46 in Hb. unfold L0, MAP. by rewrite !decide_False by lia.
  - by rewrite Hfi.
  - intros i j a Hil. simpl in Hil. lia.
  - intros inum Hi'. unfold on_disk. pose proof (mk_IBLOCK inum ltac:(simpl in Hi'; lia)). unfold L0, MAP. rewrite !decide_False by lia.
    unfold dinode_get. cbn [d_type]. assert (Hg : forall o, get_le 2 (replicate bsize 0) o = 0).
    { intros o. cbn [get_le]. by rewrite !byte_at_zeros. }
    by rewrite Hg.
  - intros a Ha. lia.
  - intros b Hb. unfold L0, MAP. case_decide; [done|]. by rewrite decide_False by lia.
Qed.

(** ** The files *)

(** What [main] puts into the file system for its arguments. *)
Definition fname (a : arg) : list Z := skip_underscore (shortname (a_name a)).
Definition contents (a : arg) : list Z := concat (default [] (a_reads a)).
Fixpoint table_from (n : Z) (args : list arg) : list (Z * list Z) :=
  match args with [] => [] | a :: args => (n, fname a) :: table_from (n + 1) args end.
Definition table (args : list arg) : list (Z * list Z) := (ROOTINO, str ".") :: (ROOTINO, str "..") :: table_from 2 args.
Definition entries (l : list (Z * list Z)) : list Z := concat ((fun e => dirent e.1 e.2) <$> l).
Definition files_of (args : list arg) : list (Z * list Z) := (fun a => (T_FILE, contents a)) <$> args.

(** An argument that can be read, and fits. *)
Record arg_ok (a : arg) : Prop := {
  ao_name : SLASH ∉ shortname (a_name a);
  ao_bytes : bytes_ok (a_name a);
  ao_reads : exists bufs, a_reads a = Some bufs /\ Forall bytes_ok bufs;
  ao_size : Z.of_nat (length (contents a)) <= MAXFILE * BSIZE;
}.

Lemma cost_pos a : 0 <= a -> 0 <= cost a.
Proof. intros Ha. change 0 with (cost 0). by apply cost_mono. Qed.

Lemma used_pos F : 0 <= used F.
Proof. induction F as [|p F IH]; simpl; [lia|]. pose proof (cost_pos (Z.of_nat (length p.2))). lia. Qed.

Lemma used_app F G : used (F ++ G) = used F + used G.
Proof. induction F as [|p F IH]; simpl; [done|]. rewrite IH. lia. Qed.

Lemma length_name_field n s : length (name_field n s) = n.
Proof. revert s. induction n as [|n IH]; intros [|c s]; simpl; by rewrite ?IH. Qed.

Lemma bytes_ok_name_field n s : bytes_ok s -> bytes_ok (name_field n s).
Proof.
  revert s. induction n as [|n IH]; intros s Hs; [constructor|]. destruct s as [|c s]; cbn [name_field].
  - constructor; [lia|]. by apply IH.
  - apply Forall_cons in Hs as [Hc Hs]. constructor; [done|]. by apply IH.
Qed.

Lemma length_dirent n s : length (dirent n s) = 16%nat.
Proof. unfold dirent. rewrite length_app, length_name_field. done. Qed.

Lemma bytes_ok_dirent n s : bytes_ok s -> bytes_ok (dirent n s).
Proof. intros Hs. unfold dirent. apply Forall_app. split; [|by apply bytes_ok_name_field]. repeat constructor; apply u8_range. Qed.

Lemma arg_name_ok a : arg_ok a -> bytes_ok (fname a).
Proof.
  intros [_ Hb _ _]. unfold fname, shortname. assert (H : bytes_ok (if bool_decide (take 5 (a_name a) = str "user/") then drop 5 (a_name a) else a_name a)).
  { case_bool_decide; [by apply Forall_drop|done]. }
  revert H. generalize (if bool_decide (take 5 (a_name a) = str "user/") then drop 5 (a_name a) else a_name a). intros [|c l] H; [done|]. unfold skip_underscore.
  destruct (c =? 95); [by apply Forall_cons in H as [_ ?]|done].
Qed.

Lemma append_reads_wp bufs s L F k ty c (Q : unit -> mkst -> Prop) : image s L F -> F !! k = Some (ty, c) -> short_ok ty -> Forall bytes_ok bufs ->
  Z.of_nat (length (c ++ concat bufs)) <= MAXFILE * BSIZE -> nmeta + used (<[k := (ty, c ++ concat bufs)]> F) <= FS ->
  (forall s2 L2, image s2 L2 (<[k := (ty, c ++ concat bufs)]> F) -> Q tt s2) -> wp (append_reads (Z.of_nat k + 1) bufs) s Q.
Proof.
  revert s L F c. induction bufs as [|buf bufs IH]; intros s L F c Him Hk Hty Hb Hend Hroom HQ; cbn [append_reads concat] in *.
  { apply wp_ret, (HQ s L). by rewrite app_nil_r, list_insert_id. }
  apply Forall_cons in Hb as [Hb Hbs]. rewrite app_assoc in Hend, Hroom, HQ. pose proof (lookup_lt_Some _ _ _ Hk) as Hlk.
  pose proof (cost_mono (Z.of_nat (length (c ++ buf))) (Z.of_nat (length ((c ++ buf) ++ concat bufs))) ltac:(rewrite !length_app; lia)) as Hc.
  rewrite (used_insert F k (ty, c)) in Hroom by done. cbn [snd] in Hroom. wp_step.
  eapply (iappend_wp s L F k ty c buf); [done|done|done|done| | |].
  - rewrite !length_app in Hend. lia.
  - rewrite (im_used _ _ _ Him), <- length_app. lia.
  - intros s2 L2 Him2. apply (IH s2 L2 (<[k := (ty, c ++ buf)]> F) (c ++ buf)); try done; rewrite ?list_insert_insert_eq; try done.
    + by apply list_lookup_insert_eq.
    + rewrite (used_insert F k (ty, c)) by done. cbn [snd]. lia.
Qed.

Lemma add_file_wp a s L r G (Q : unit -> mkst -> Prop) : image s L ((T_DIR, r) :: G) -> arg_ok a ->
  Z.of_nat (length G) + 2 < NINODES -> Z.of_nat (length r) + 16 <= MAXFILE * BSIZE ->
  let F2 := (T_DIR, r ++ dirent (Z.of_nat (length G) + 2) (fname a)) :: (G ++ [(T_FILE, contents a)]) in
  nmeta + used F2 <= FS -> (forall s2 L2, image s2 L2 F2 -> Q tt s2) -> wp (add_file ROOTINO a) s Q.
Proof.
  intros Him Ha Hn Hr F2 Hroom HQ. pose proof (arg_name_ok a Ha) as Hnb. destruct Ha as [Hs Hb (bufs & Eb & Hbs) Hsz]. assert (Ec : contents a = concat bufs) by (unfold contents; by rewrite Eb). assert (EF : F2 = (T_DIR, r ++ dirent (Z.of_nat (length G) + 2) (fname a)) :: (G ++ [(T_FILE, concat bufs)])) by (unfold F2; by rewrite Ec). rewrite Ec in Hsz. rewrite EF in *. clear EF F2.
  set (e := dirent (Z.of_nat (length G) + 2) (fname a)) in *. assert (Hle : length e = 16%nat) by apply length_dirent.
  cbn [used foldr snd] in Hroom. fold (used (G ++ [(T_FILE, concat bufs)])) in Hroom. rewrite used_snoc, length_app, Hle in Hroom. cbn [snd] in Hroom.
  pose proof (cost_pos (Z.of_nat (length (concat bufs))) ltac:(lia)).
  unfold add_file. cbv zeta. rewrite bool_decide_eq_false_2 by done. wp_step. cbn [negb assert]. apply wp_ret. rewrite Eb. wp_step.
  eapply ialloc_wp; [exact Him|unfold T_FILE; lia|simpl length; lia|]. intros s1 L1 Him1. cbn [length app] in *.
  replace (Z.of_nat (S (length G)) + 1) with (Z.of_nat (length G) + 2) by lia. fold (fname a). fold e. wp_step.
  change ROOTINO with (Z.of_nat 0 + 1). eapply (iappend_wp s1 L1 _ 0 T_DIR r e); [exact Him1|done|done|by apply bytes_ok_dirent|rewrite Hle; lia| |].
  { rewrite (im_used _ _ _ Him1). cbn [used foldr snd]. fold (used (G ++ [(T_FILE, [])])). rewrite used_snoc. cbn [snd length]. change (cost (Z.of_nat 0)) with 0.
    rewrite Hle. lia. }
  intros s2 L2 Him2. cbn [insert list_insert] in Him2. replace (Z.of_nat (length G) + 2) with (Z.of_nat (S (length G)) + 1) by lia.
  assert (Ei : forall v, <[S (length G) := v]> ((T_DIR, r ++ e) :: G ++ [(T_FILE, @nil Z)]) = (T_DIR, r ++ e) :: (G ++ [v])).
  { intros v. pose proof (insert_app_r ((T_DIR, r ++ e) :: G) [(T_FILE, @nil Z)] 0 v) as E. cbn [length] in E. rewrite Nat.add_0_r in E. exact E. }
  eapply (append_reads_wp bufs s2 L2 _ (S (length G)) T_FILE []); [exact Him2|by apply (list_lookup_middle ((T_DIR, r ++ e) :: G))|done|done|done| |]; rewrite Ei; cbn [app].
  - cbn [used foldr snd]. fold (used (G ++ [(T_FILE, concat bufs)])). rewrite used_snoc, length_app, Hle. cbn [snd]. lia.
  - intros s3 L3 Him3. by apply (HQ s3 L3).
Qed.

Lemma entries_cons e l : entries (e :: l) = dirent e.1 e.2 ++ entries l.
Proof. done. Qed.

Lemma length_entries l : length (entries l) = (16 * length l)%nat.
Proof. induction l as [|e l IH]; [done|]. rewrite entries_cons, length_app, length_dirent, IH. simpl. lia. Qed.

Lemma length_table_from n args : length (table_from n args) = length args.
Proof. revert n. induction args as [|a args IH]; intros n; simpl; [done|]. by rewrite IH. Qed.

Lemma add_files_wp args s L r G (Q : unit -> mkst -> Prop) : image s L ((T_DIR, r) :: G) -> Forall arg_ok args ->
  Z.of_nat (length G + length args) + 1 < NINODES -> Z.of_nat (length r + 16 * length args) <= MAXFILE * BSIZE ->
  let F2 := (T_DIR, r ++ entries (table_from (Z.of_nat (length G) + 2) args)) :: (G ++ files_of args) in
  nmeta + used F2 <= FS -> (forall s2 L2, image s2 L2 F2 -> Q tt s2) -> wp (add_files ROOTINO args) s Q.
Proof.
  revert s L r G. induction args as [|a args IH]; intros s L r G Him Ha Hn Hr F2 Hroom HQ; cbn [add_files].
  { apply wp_ret, (HQ s L). unfold F2. cbn [table_from entries files_of fmap list_fmap concat]. by rewrite !app_nil_r. }
  apply Forall_cons in Ha as [Ha Hargs]. set (r2 := r ++ dirent (Z.of_nat (length G) + 2) (fname a)). set (G2 := G ++ [(T_FILE, contents a)]).
  assert (El : length r2 = (length r + 16)%nat) by (unfold r2; by rewrite length_app, length_dirent).
  assert (EG : length G2 = S (length G)) by (unfold G2; rewrite length_app; simpl; lia).
  assert (EF : F2 = (T_DIR, r2 ++ entries (table_from (Z.of_nat (length G2) + 2) args)) :: (G2 ++ files_of args)).
  { unfold F2, r2, G2 in *. rewrite EG. cbn [table_from]. rewrite entries_cons, <- !app_assoc. cbn [fst snd]. do 4 f_equal. do 2 f_equal. lia. }
  assert (Hu : used ((T_DIR, r2) :: G2) <= used F2).
  { rewrite EF. cbn [used foldr snd]. fold (used G2) (used (G2 ++ files_of args)). rewrite used_app. pose proof (used_pos (files_of args)).
    pose proof (cost_mono (Z.of_nat (length r2)) (Z.of_nat (length (r2 ++ entries (table_from (Z.of_nat (length G2) + 2) args)))) ltac:(rewrite length_app; lia)). lia. }
  simpl length in Hn, Hr. wp_step. eapply (add_file_wp a s L r G); [done|done|lia|lia|fold r2 G2; lia|]. intros s2 L2 Him2. fold r2 G2 in Him2.
  apply (IH s2 L2 r2 G2); [done|done|rewrite EG; lia|rewrite El; lia|by rewrite <- EF|by rewrite <- EF].
Qed.

(** ** The size of the root directory *)

Definition rounded (c : list Z) : list Z := c ++ replicate (Z.to_nat (ceil (Z.of_nat (length c)) * BSIZE) - length c) 0.

Lemma length_rounded c : Z.of_nat (length (rounded c)) = ceil (Z.of_nat (length c)) * BSIZE.
Proof. unfold rounded. rewrite length_app, length_replicate. pose proof (ceil_bounds (Z.of_nat (length c)) ltac:(lia)). lia. Qed.

Lemma ceil_mul n : ceil (n * BSIZE) = n.
Proof. unfold ceil. symmetry. apply (Z.div_unique_pos _ _ _ (BSIZE - 1)); unfold BSIZE; lia. Qed.

Lemma ceil_next a : 0 <= a -> a mod BSIZE <> 0 -> a / BSIZE + 1 = ceil a.
Proof.
  intros Ha Hm. unfold ceil. pose proof (Z.div_mod a BSIZE ltac:(done)). pose proof (Z.mod_pos_bound a BSIZE ltac:(done)).
  apply (Z.div_unique_pos _ _ _ (a mod BSIZE - 1)); lia.
Qed.

Section Root.
Context (s : mkst) (L : Z -> list Z) (F : list (Z * list Z)) (ty : Z) (c : list Z) (s2 : mkst).
Let n := ceil (Z.of_nat (length c)).
Let x := set_i_size (n * BSIZE) (ino L 0).
Let L2 := stored L fs x.
Hypothesis Him : image s L F.
Hypothesis H0 : F !! 0%nat = Some (ty, c).
Hypothesis Hty : short_ok ty.
Hypothesis R2 : mk_rep s2 L2.

Lemma root_max : 0 <= n <= MAXFILE /\ Z.of_nat (length c) <= n * BSIZE.
Proof.
  pose proof (fa_range _ _ _ _ _ (im_file _ _ _ Him _ _ _ H0)). pose proof (ceil_max (Z.of_nat (length c)) ltac:(lia)). pose proof (ceil_bounds (Z.of_nat (length c)) ltac:(lia)).
  unfold n, BSIZE in *. lia.
Qed.

Lemma root_file : mk_file s2 L2 x n (whole n) /\ (forall o, 0 <= o < n * BSIZE -> mbyte L2 x o = mbyte L (ino L 0) o).
Proof.
  pose proof (im_file _ _ _ Him _ _ _ H0) as [Hf _ _ _]. pose proof root_max. fold n in Hf.
  destruct (mf_stored s L (ino L 0) n _ (n * BSIZE) s2 Hf R2) as [A B]; [done|unfold BSIZE in *; lia|intros bn _ Hlt; unfold BSIZE in *; lia|].
  split; [done|]. intros o Ho. apply B; lia.
Qed.

Lemma root_disk : on_disk L2 fs 1 = DInode ty 0 0 1 (n * BSIZE) (d_addrs (on_disk L fs 1)) /\
  (forall m, 0 <= m < NINODES -> m <> 1 -> on_disk L2 fs m = on_disk L fs m).
Proof.
  pose proof (im_file _ _ _ Him _ _ _ H0) as [_ _ Hm _]. destruct root_file as [Hf2 _]. pose proof (mk_layout s L (im_rep _ _ _ Him)) as Hly.
  assert (Hx : dinode_of x = DInode ty 0 0 1 (n * BSIZE) (d_addrs (on_disk L fs 1))) by (unfold x, ino, inode_on; simpl Z.add in *; rewrite Hm; done).
  assert (Hlen : forall b, length (L b) = bsize) by apply (im_rep _ _ _ Him). split.
  - rewrite <- Hx. change 1 with (i_inum x). apply on_disk_stored; [done|]. eapply wf_dinode_ok; [by eapply mk_layout|apply Hf2|..].
    + change (short_ok (d_type (dinode_of x))). by rewrite Hx.
    + change (short_ok (d_major (dinode_of x))). by rewrite Hx.
    + change (short_ok (d_minor (dinode_of x))). by rewrite Hx.
    + change (short_ok (d_nlink (dinode_of x))). by rewrite Hx.
  - intros m Hm' Hne. by eapply (on_disk_stored_ne L fs 2 x).
Qed.

Lemma root_ino : ino L2 0 = x.
Proof. destruct root_disk as [E _]. pose proof (im_file _ _ _ Him _ _ _ H0) as [_ _ Hm _]. unfold ino at 1, inode_on. change (Z.of_nat 0 + 1) with 1 in *. rewrite E. unfold x, ino, inode_on. change (Z.of_nat 0 + 1) with 1 in *. rewrite Hm. done. Qed.

Lemma root_at : file_at s2 L2 1 ty (rounded c).
Proof.
  destruct root_disk as [Ed _], root_file as [Hf2 Hby]. pose proof root_ino as Ei. pose proof root_max as Hmax. pose proof (im_file _ _ _ Him _ _ _ H0) as [Hf Ht Hm Hb].
  pose proof (length_rounded c) as Hl. fold n in Hl. split; change (inode_on L2 fs 1) with (ino L2 0); rewrite ?Ei, ?Hl, ?ceil_mul; try done.
  - intros o Ho. rewrite ceil_mul in Ho. lia.
  - rewrite Ed. done.
  - apply file_bytes_extend. rewrite length_replicate. fold n. intros o Ho. rewrite (file_byte_mbyte L2 fs) by (apply Hf2 || (cbn [i_size x set_i_size]; lia)).
    rewrite Hby by lia. fold (ino L 0) in Ht, Hf, Hb. case_decide as Hd.
    + rewrite byte_at_zeros. apply Ht. fold n. lia.
    + rewrite <- (file_byte_mbyte L fs) by (apply Hf || (unfold ino, inode_on; rewrite Hm; cbn; lia)). apply file_byte_of; [done|lia].
Qed.

Lemma root_image : freeinode s2 = freeinode s -> freeblock s2 = freeblock s -> image s2 L2 (<[0%nat := (ty, rounded c)]> F).
Proof.
  intros Hfi Hfb. destruct root_disk as [_ Hne], root_file as [Hf2 _]. pose proof root_ino as Ei. pose proof (im_file _ _ _ Him _ _ _ H0) as [Hf _ _ _].
  pose proof (mk_layout s L (im_rep _ _ _ Him)) as Hly.
  assert (Hin : forall a, in_file L2 x a <-> in_file L (ino L 0) a).
  { intros a. apply in_file_stored; [done|apply Hf|done]. }
  assert (Hsame : forall a, ~ 32 <= a < 45 -> L2 a = L a) by (intros a Ha; apply stored_other; pose proof (mk_IBLOCK 1 ltac:(done)); change (i_inum x) with 1; lia).
  eapply image_upd; [exact Him|exact H0|done|done| |lia|apply root_at|done|..].
  - cbn [snd]. rewrite length_rounded. unfold cost. rewrite ceil_mul. lia.
  - intros a [Hd _] _ Hn. rewrite Ei, Hin. split; [|done]. apply Hsame. change (data_start fs) with 46 in Hd. lia.
  - intros a [Ha|Ha]; [by rewrite Ei, Hin|lia].
  - intros b Hb. apply Hsame. lia.
Qed.
End Root.

Lemma fix_root_wp s L F ty c (Q : unit -> mkst -> Prop) : image s L F -> F !! 0%nat = Some (ty, c) -> short_ok ty -> Z.of_nat (length c) mod BSIZE <> 0 ->
  (forall s2 L2, image s2 L2 (<[0%nat := (ty, rounded c)]> F) -> Q tt s2) -> wp (fix_root ROOTINO) s Q.
Proof.
  intros Him H0 Hty Hmod HQ. pose proof (im_file _ _ _ Him _ _ _ H0) as Hfa. pose proof (fa_range _ _ _ _ _ Hfa) as Hr. pose proof (root_max s L F ty c Him H0) as Hm.
  change MAXFILE with 268 in *. unfold fix_root. wp_step. eapply rinode_wp; [apply Him|done|]. cbv zeta.
  assert (Esz : d_size (on_disk L fs ROOTINO) = Z.of_nat (length c)) by (destruct Hfa as [_ _ Hmt _]; change (on_disk L fs ROOTINO) with (on_disk L fs (Z.of_nat 0 + 1)); by rewrite Hmt).
  rewrite Esz, (xint_small (Z.of_nat (length c))) by (unfold BSIZE in *; lia). rewrite ceil_next by (done || lia).
  rewrite u32_small, xint_small by (unfold BSIZE in *; lia). change ROOTINO with (Z.of_nat 0 + 1). rewrite <- (ino_dinode L 0).
  apply (winode_wp s L (set_i_size (ceil (Z.of_nat (length c)) * BSIZE) (ino L 0))); [apply Him|done|]. intros s2 R2 Hfi Hfb. eapply HQ, root_image; done.
Qed.

(** ** The run *)

Definition made_files (args : list arg) : list (Z * list Z) := (T_DIR, entries (table args)) :: files_of args.

(** The arguments fit the file system, and the entries of the root directory do
    not fill its last block. *)
Record args_ok (args : list arg) : Prop := {
  ga_args : Forall arg_ok args;
  ga_inodes : Z.of_nat (length args) + 1 < NINODES;
  ga_blocks : nmeta + used (made_files args) <= FSSIZE;
  ga_root : (Z.of_nat (length args) + 2) mod 64 <> 0;
}.

Definition final_files (args : list arg) : list (Z * list Z) := (T_DIR, rounded (entries (table args))) :: files_of args.

Lemma used_root r G : used ((T_DIR, r) :: G) = cost (Z.of_nat (length r)) + used G.
Proof. done. Qed.

(** The file system with its root directory. *)
Lemma start_wp (m : Z -> MkM unit) (Q : unit -> mkst -> Prop) :
  (forall s L, image s L [(T_DIR, dirent ROOTINO (str ".") ++ dirent ROOTINO (str ".."))] -> wp (m ROOTINO) s Q) ->
  wp (zero_loop (Z.to_nat FSSIZE) 0 ;; wsect 1 (sb_bytes mk_sb) ;;
      rootino <- Mkfs.ialloc T_DIR ;; assert (rootino =? ROOTINO) ;;
      iappend rootino (dirent rootino (str ".")) ;; iappend rootino (dirent rootino (str "..")) ;; m rootino)%K (set_freeblock nmeta mkst0) Q.
Proof.
  intros Hm. wp_step. change 0 with (Z.of_nat (length (img (set_freeblock nmeta mkst0)))) at 1. apply zero_loop_wp; [vm_compute; lia|].
  wp_step. unfold wsect. wp_step. set (s0 := set_img _ (set_img _ _)). assert (Him : image s0 L0 []).
  { apply init_image; [|done|done]. cbn [img s0 set_img set_freeblock mkst0 app]. unfold put_sect. rewrite bool_decide_eq_true_2 by (rewrite length_replicate; vm_compute; lia). done. }
  clearbody s0. wp_step. eapply ialloc_wp; [exact Him|unfold T_DIR; lia|done|]. intros s1 L1 Him1. cbn [length app] in *. change (Z.of_nat 0 + 1) with 1.
  wp_step. cbn [assert]. apply wp_ret. wp_step.
  change 1 with (Z.of_nat 0 + 1) at 1. eapply (iappend_wp s1 L1 _ 0 T_DIR []); [exact Him1|done|done|by apply bytes_ok_dirent; repeat constructor|by rewrite length_dirent| |].
  { rewrite (im_used _ _ _ Him1), length_dirent. vm_compute. done. }
  intros s2 L2 Him2. cbn [insert list_insert app] in Him2. wp_step. change 1 with (Z.of_nat 0 + 1) at 1.
  eapply (iappend_wp s2 L2 _ 0 T_DIR _); [exact Him2|done|done|by apply bytes_ok_dirent; repeat constructor|by rewrite !length_dirent| |].
  { rewrite (im_used _ _ _ Him2), !length_dirent, used_root, length_dirent. vm_compute. done. }
  intros s3 L3 Him3. by apply (Hm s3 L3).
Qed.

Lemma mk_balloc_wp s L F (Q : unit -> mkst -> Prop) : image s L F ->
  (forall s2, image s2 L F -> (forall b, 0 <= b < FS -> img s2 !! Z.to_nat b = Some (L b)) -> Q tt s2) -> wp (Mkfs.balloc (i32 (freeblock s))) s Q.
Proof.
  intros Him HQ. pose proof (im_rep _ _ _ Him) as R. pose proof (mr_fb _ _ R) as Hf. change nmeta with 46 in Hf. unfold FS in *.
  rewrite i32_small by lia. unfold Mkfs.balloc. rewrite (proj2 (Z.ltb_lt _ _)) by (unfold BSIZE; lia). wp_step. cbn [assert]. apply wp_ret.
  unfold wsect. wp_step. change (sb_bmapstart mk_sb) with MAP. unfold put_sect. rewrite sect_eq, <- (mr_map _ _ R) by done.
  change (Z.to_nat MAP) with 45%nat. rewrite bool_decide_eq_true_2 by (rewrite (mr_len _ _ R); lia). set (s2 := set_img _ s).
  assert (Hall : forall b, 0 <= b < 2000 -> img s2 !! Z.to_nat b = Some (L b)).
  { intros b Hb. cbn [img s2 set_img]. destruct (decide (b = MAP)) as [->|Hne]; [by rewrite list_lookup_insert_eq by (rewrite (mr_len _ _ R); lia)|].
    rewrite list_lookup_insert_ne by (unfold MAP in Hne; lia). by apply R. }
  assert (R2 : mk_rep s2 L).
  { split; try apply R; [cbn [img s2 set_img]; rewrite length_insert; apply R|]. intros b Hb _. by apply Hall. }
  apply HQ; [|done]. destruct Him as [_ N U F1 A Fr Ow Lo]. split; try done. intros k ty c Hk. by apply (file_frame s L _ ty c s2 L (F1 _ _ _ Hk) R2).
Qed.

Lemma main_wp args (Q : unit -> mkst -> Prop) : args_ok args ->
  (forall s L, image s L (final_files args) -> (forall b, 0 <= b < FS -> img s !! Z.to_nat b = Some (L b)) -> Q tt s) -> wp (main args) mkst0 Q.
Proof.
  intros [Ha Hn Hb Hr] HQ. unfold main. do 2 (wp_step; cbn [assert]; apply wp_ret). wp_step. wp_step.
  apply (start_wp (fun rootino => add_files rootino args ;; fix_root rootino ;; used <- gets freeblock ;; Mkfs.balloc (i32 used))%K).
  intros s L Him. wp_step. set (r := _ ++ _) in Him. assert (El : length r = 32%nat) by (unfold r; by rewrite length_app, !length_dirent).
  assert (Et : r ++ entries (table_from 2 args) = entries (table args)) by (unfold r, table; by rewrite !entries_cons, <- app_assoc).
  eapply (add_files_wp args s L r []); [exact Him|done|simpl; lia|rewrite El; unfold NINODES in *; change MAXFILE with 268; unfold BSIZE; lia| |];
    change (Z.of_nat (length []) + 2) with 2; cbn [app]; rewrite Et; [exact Hb|].
  intros s2 L2 Him2. wp_step. eapply (fix_root_wp s2 L2 _ T_DIR (entries (table args))); [exact Him2|done|done| |].
  { rewrite length_entries. cbn [table length]. rewrite length_table_from. replace (Z.of_nat (16 * S (S (length args)))) with (16 * (Z.of_nat (length args) + 2)) by lia.
    change BSIZE with (16 * 64). rewrite Zmult_mod_distr_l. lia. }
  intros s3 L3 Him3. cbn [insert list_insert] in Him3. wp_step. wp_step. eapply mk_balloc_wp; [exact Him3|]. intros s4 Him4 Hall. by apply (HQ s4 L3).
Qed.

(** ** The root directory *)

Lemma file_bytes_sub L x c o n : file_bytes L x 0 (length c) = c -> (o + n <= length c)%nat -> file_bytes L x (Z.of_nat o) n = take n (drop o c).
Proof.
  intros E Hn. rewrite <- E at 1. apply list_eq. intros i. unfold file_bytes. destruct (decide (i < n)%nat) as [Hi|Hi].
  - rewrite lookup_take_lt, lookup_drop by done. rewrite !list_lookup_fmap, !lookup_seq_lt by lia. simpl. do 2 f_equal. lia.
  - rewrite lookup_take_ge, list_lookup_fmap, lookup_seq_ge by lia. done.
Qed.

Lemma entries_at l j z : take 16 (drop (16 * j) (entries l ++ z)) = match l !! j with Some e => dirent e.1 e.2 | None => take 16 (drop (16 * (j - length l)) z) end.
Proof.
  revert j. induction l as [|e l IH]; intros j; [simpl; by rewrite Nat.sub_0_r|]. rewrite entries_cons, <- app_assoc. destruct j as [|j]; cbn [lookup list_lookup length].
  - rewrite Nat.mul_0_r, drop_0, <- (length_dirent e.1 e.2). by rewrite take_app_length.
  - replace (16 * S j)%nat with (length (dirent e.1 e.2) + 16 * j)%nat by (rewrite length_dirent; lia). rewrite <- drop_drop, drop_app_length, IH. done.
Qed.

Lemma cname_field n s : cname n (name_field n s) = cname n s.
Proof.
  revert s. induction n as [|n IH]; intros s; [done|]. destruct s as [|c s]; cbn [name_field cname]; [done|]. by rewrite IH.
Qed.

Lemma dirent_fields n s : 0 <= n < 2 ^ 16 -> get_le 2 (dirent n s) 0 = n /\ cname DIRSIZ (drop 2 (dirent n s)) = cname DIRSIZ s.
Proof.
  intros Hn. split; [|apply cname_field]. cbn [get_le]. unfold byte_at, dirent. cbn [lookup list_lookup app default]. rewrite xshort_eq, u16_small by lia.
  unfold u8. rewrite Z.shiftr_div_pow2 by lia. change (2 ^ 8) with 256. unfold id. zdm.
Qed.

(** A search in the entries of a directory is a search in the table. *)
Lemma find_table {A} (P : nat -> Prop) (R : A -> Prop) `{forall j, Decision (P j)} `{forall e, Decision (R e)} (l : list A) n :
  (length l <= n)%nat -> (forall j, (j < n)%nat -> P j <-> exists e, l !! j = Some e /\ R e) ->
  list_find P (seq 0 n) = (fun p => (p.1, p.1)) <$> list_find R l.
Proof.
  intros Hn HP. destruct (list_find R l) as [[j e]|] eqn:E; cbn [fmap option_fmap option_map fst].
  - apply list_find_Some in E as (Hj & He & Hb). pose proof (lookup_lt_Some _ _ _ Hj). apply list_find_Some. split; [by rewrite lookup_seq_lt by lia|].
    split; [apply HP; [lia|eauto]|]. intros i y Hy Hi. apply lookup_seq in Hy as [-> Hy]. simpl. rewrite HP by lia. intros (e' & He' & Hr). by eapply Hb.
  - apply list_find_None in E. rewrite Forall_lookup in E. apply list_find_None, Forall_lookup. intros i y Hy. apply lookup_seq in Hy as [-> Hy]. simpl. rewrite HP by lia.
    intros (e & He & Hr). by eapply E.
Qed.

Lemma table_from_range n args j e : table_from n args !! j = Some e -> n <= e.1 < n + Z.of_nat (length args).
Proof.
  revert n j. induction args as [|a args IH]; intros n [|j] Hj; simplify_eq/=; [lia|]. apply IH in Hj. lia.
Qed.

Lemma table_range args j e : table args !! j = Some e -> 1 <= e.1 <= Z.of_nat (length args) + 1.
Proof. destruct j as [|[|j]]; intros Hj; simplify_eq/=; [unfold ROOTINO; lia..|]. apply table_from_range in Hj. lia. Qed.

Section Result.
Context (s : mkst) (L : Z -> list Z) (args : list arg).
Hypothesis Him : image s L (final_files args).

Let root := inode_on L fs ROOTINO.

Lemma nargs : Z.of_nat (length args) + 2 <= NINODES.
Proof. destruct (im_next _ _ _ Him) as [E N]. unfold final_files, files_of in *. cbn [length] in *. rewrite length_fmap in *. lia. Qed.

Lemma root_length : length (table args) = (length args + 2)%nat /\ (length (table args) <= dir_len root)%nat /\
  (16 * dir_len root = length (rounded (entries (table args))))%nat /\ i_size root mod 16 = 0.
Proof.
  pose proof (fa_size _ _ 0 _ _ (im_file _ _ _ Him 0 _ _ eq_refl)) as E. change (ino L 0) with root in E. rewrite length_rounded in E.
  pose proof (ceil_bounds (Z.of_nat (length (entries (table args)))) ltac:(lia)) as Hc. pose proof (length_rounded (entries (table args))) as Hl. rewrite length_entries in *.
  assert (Et : length (table args) = (length args + 2)%nat) by (cbn [table length]; rewrite length_table_from; lia).
  set (n := ceil _) in *. unfold dir_len. rewrite E. unfold BSIZE in *. replace (n * 1024) with (n * 64 * 16) in * by lia. rewrite Z.div_mul, Z.mod_mul by lia. lia.
Qed.

(** The entries: those of the table, then unused ones. *)
Lemma root_entry j : (j < dir_len root)%nat -> file_bytes L root (16 * Z.of_nat j) 16 = match table args !! j with Some e => dirent e.1 e.2 | None => replicate 16 0 end.
Proof.
  intros Hj. destruct root_length as (_ & Hle & Hl & _). pose proof (fa_bytes _ _ _ _ _ (im_file _ _ _ Him 0 _ _ eq_refl)) as Hb. change (inode_on L fs (Z.of_nat 0 + 1)) with root in Hb.
  replace (16 * Z.of_nat j) with (Z.of_nat (16 * j)) by lia. rewrite (file_bytes_sub _ _ _ _ _ Hb) by lia. unfold rounded in *. rewrite entries_at.
  destruct (table args !! j) eqn:E; [done|]. apply lookup_ge_None_1 in E. rewrite length_app, length_replicate, length_entries in Hl. rewrite drop_replicate, take_replicate. f_equal. rewrite length_entries. lia.
Qed.

Lemma root_inum j : (j < dir_len root)%nat -> dirent_inum L root j = match table args !! j with Some e => e.1 | None => 0 end.
Proof.
  intros Hj. unfold dirent_inum. rewrite root_entry by done. destruct (table args !! j) as [e|] eqn:E; [|done]. pose proof (table_range _ _ _ E). pose proof nargs. unfold NINODES in *.
  by apply dirent_fields; lia.
Qed.

Lemma root_is name j : (j < dir_len root)%nat -> entry_is L root name j <-> exists e, table args !! j = Some e /\ cname DIRSIZ name = cname DIRSIZ e.2.
Proof.
  intros Hj. unfold entry_is. rewrite root_inum by done. unfold dirent_name. rewrite root_entry by done. destruct (table args !! j) as [e|] eqn:E.
  - pose proof (table_range _ _ _ E). pose proof nargs. unfold NINODES in *. rewrite (proj2 (dirent_fields e.1 e.2 ltac:(lia))). split; [intros [_ Hc]; eauto|]. intros (e' & [= <-] & Hc). split; [lia|done].
  - split; [by intros [? _]|]. by intros (e & ? & _).
Qed.

Lemma root_lookup name : dir_lookup L fs ROOTINO name = (fun p => p.2.1) <$> list_find (fun e => cname DIRSIZ name = cname DIRSIZ e.2) (table args).
Proof.
  unfold dir_lookup. fold root. destruct root_length as (_ & Hle & _).
  rewrite (find_table (entry_is L root name) (fun e => cname DIRSIZ name = cname DIRSIZ e.2) (table args)) by (done || apply root_is).
  destruct (list_find _ (table args)) as [[j e]|] eqn:E; [|done]. apply list_find_Some in E as (Hj & _). pose proof (lookup_lt_Some _ _ _ Hj).
  cbn [fmap option_fmap option_map fst snd]. rewrite root_inum by lia. by rewrite Hj.
Qed.

Lemma made_dinode d : 1 <= d <= Z.of_nat (length args) + 1 ->
  file_wf L fs (inode_on L fs d) /\ d_nlink (on_disk L fs d) = 1 /\ d_type (on_disk L fs d) = if decide (d = ROOTINO) then T_DIR else T_FILE.
Proof.
  intros Hd. replace d with (Z.of_nat (Z.to_nat (d - 1)) + 1) by lia. set (k := Z.to_nat (d - 1)).
  destruct (final_files args !! k) as [[ty c]|] eqn:E.
  - destruct (im_file _ _ _ Him _ _ _ E) as [Hf _ Hm _]. split; [apply Hf|]. rewrite Hm. split; [done|]. cbn [d_type]. unfold ROOTINO. destruct k as [|k]; simpl in E.
    + by simplify_eq.
    + unfold files_of in E. rewrite list_lookup_fmap in E. destruct (args !! k); simplify_eq/=. rewrite decide_False by lia. done.
  - apply lookup_ge_None_1 in E. unfold final_files, files_of in E. cbn [length] in E. rewrite length_fmap in E. lia.
Qed.

Lemma made_tree : tree_ok L fs (fun d => 1 <= d <= Z.of_nat (length args) + 1).
Proof.
  split.
  - intros d Hd. destruct (made_dinode d Hd) as (_ & -> & ->). by case_decide.
  - intros d Hd Ht. destruct (made_dinode d Hd) as (Hwf & _ & E). rewrite E in Ht. destruct (decide (d = ROOTINO)) as [->|]; [|done].
    split; [by eapply wf_file_ok|]. apply root_length.
  - intros d k Hd Ht Hk Hnz. destruct (made_dinode d Hd) as (_ & _ & E). rewrite E in Ht. destruct (decide (d = ROOTINO)) as [->|]; [|done].
    fold root in Hk, Hnz |- *. rewrite root_inum in * by done. destruct (table args !! k) eqn:Ek; [|done]. by eapply table_range.
Qed.

Lemma made_map b : 0 <= b < sb_size fs ->
  allocated L fs b = true <-> b < data_start fs \/ exists d, 1 <= d <= Z.of_nat (length args) + 1 /\ in_file L (inode_on L fs d) b.
Proof.
  intros Hb. change (sb_size fs) with 2000 in Hb. rewrite (mk_allocated s L) by (apply Him || done). rewrite Z.ltb_lt. change (data_start fs) with 46. split.
  - intros Hlt. destruct (decide (b < 46)) as [|Hge]; [by left|]. right. destruct (im_owned _ _ _ Him b) as (k & Hk & Ha); [change nmeta with 46; lia|].
    exists (Z.of_nat k + 1). split; [|done]. unfold final_files, files_of in Hk. cbn [length] in Hk. rewrite length_fmap in Hk. lia.
  - pose proof (mr_fb _ _ (im_rep _ _ _ Him)) as Hf. change nmeta with 46 in Hf. intros [Hlt|(d & Hd & Ha)]; [lia|].
    destruct (fw_data _ _ _ (proj1 (made_dinode d Hd)) b Ha) as (_ & Hal & _). rewrite (mk_allocated s L) in Hal by (apply Him || done). by apply Z.ltb_lt.
Qed.

Lemma made_apart d e a : 1 <= d <= Z.of_nat (length args) + 1 -> 1 <= e <= Z.of_nat (length args) + 1 -> d <> e ->
  in_file L (inode_on L fs d) a -> ~ in_file L (inode_on L fs e) a.
Proof.
  intros Hd He Hne. replace d with (Z.of_nat (Z.to_nat (d - 1)) + 1) by lia. replace e with (Z.of_nat (Z.to_nat (e - 1)) + 1) by lia.
  assert (El : length (final_files args) = S (length args)) by (unfold final_files, files_of; cbn [length]; by rewrite length_fmap).
  apply (im_apart _ _ _ Him); rewrite ?El; lia.
Qed.

Lemma made_contents k a : args !! k = Some a -> let x := inode_on L fs (Z.of_nat k + 2) in
  i_type x = T_FILE /\ i_size x = Z.of_nat (length (contents a)) /\ file_bytes L x 0 (length (contents a)) = contents a.
Proof.
  intros Hk x. destruct (im_file _ _ _ Him (S k) T_FILE (contents a)) as [_ _ Hm Hb]; [change (final_files args !! S k) with (files_of args !! k); unfold files_of; by rewrite list_lookup_fmap, Hk|].
  replace (Z.of_nat (S k) + 1) with (Z.of_nat k + 2) in * by lia. fold x in Hb. unfold x at 1 2, inode_on. rewrite Hm. done.
Qed.
End Result.

(** ** Theorems *)

(** A file system on the disk [L], with the inodes [1 .. n] in use: the
    superblock is that of the layout, the log is empty, the map marks exactly
    the blocks before the data and those of the files, every file is well formed
    and no two share a block, and the directories lead to inodes in use. *)
Record file_system (L : Z -> list Z) (n : Z) : Prop := {
  sys_sb : sb_decode (L 1) = mk_sb;
  sys_log : head_ok (sb_logstart mk_sb) (L (sb_logstart mk_sb)) /\ head_of (L (sb_logstart mk_sb)) = [];
  sys_layout : layout L mk_sb (sb_logstart mk_sb);
  sys_map b : 0 <= b < sb_size mk_sb ->
    allocated L mk_sb b = true <-> b < data_start mk_sb \/ exists d, 1 <= d <= n /\ in_file L (inode_on L mk_sb d) b;
  sys_wf d : 1 <= d <= n -> file_wf L mk_sb (inode_on L mk_sb d);
  sys_apart d e a : 1 <= d <= n -> 1 <= e <= n -> d <> e -> in_file L (inode_on L mk_sb d) a -> ~ in_file L (inode_on L mk_sb e) a;
  sys_tree : tree_ok L mk_sb (fun d => 1 <= d <= n);
  sys_root : d_type (on_disk L mk_sb ROOTINO) = T_DIR;
  sys_free inum : n < inum < sb_ninodes mk_sb -> d_type (on_disk L mk_sb inum) = 0;
}.

Definition image_of (s : mkst) (L : Z -> list Z) : Prop :=
  length (img s) = Z.to_nat FSSIZE /\ forall b, 0 <= b < FSSIZE -> img s !! Z.to_nat b = Some (L b).


(** C20: The root directory that [mkfs] makes has the arguments' names: looking up
    a name gives the inode of the first entry with that name, and nothing if there
    is none; and the inode of each argument is a file whose contents are the
    bytes that the host read for it. *)
Theorem mkfs_contents args : args_ok args ->
  wp (main args) mkst0 (fun _ s => exists L, image_of s L /\
    (forall name, dir_lookup L mk_sb ROOTINO name = (fun p => p.2.1) <$> list_find (fun e => cname DIRSIZ name = cname DIRSIZ e.2) (table args)) /\
    (forall k a, args !! k = Some a -> let x := inode_on L mk_sb (Z.of_nat k + 2) in
       i_type x = T_FILE /\ i_size x = Z.of_nat (length (contents a)) /\ file_bytes L x 0 (length (contents a)) = contents a)).
Proof.
  intros Hargs. apply main_wp; [done|]. intros s L Him Hall. exists L. split; [split; [apply (im_rep _ _ _ Him)|done]|]. split.
  - by apply (root_lookup s).
  - by apply (made_contents s).
Qed.

(** Two files, one of them empty. *)
Definition ex_args : list arg := [Arg (str "user/_cat") (Some [[104; 105]; [10]]); Arg (str "README") (Some [])].

Lemma ex_args_ok : args_ok ex_args.
Proof.
  split; [|done..]. repeat apply Forall_cons_2; [| |done].
  all: split; [by apply (bool_decide_unpack _); vm_compute|by repeat constructor|eexists; split; [done|by repeat constructor]|by vm_compute].
Qed.


Lemma mkfs_contents_witness : args_ok ex_args /\
  wp (main ex_args) mkst0 (fun _ s => exists L, image_of s L /\ dir_lookup L mk_sb ROOTINO (str "cat") = Some 2 /\ dir_lookup L mk_sb ROOTINO (str "dog") = None /\
    file_bytes L (inode_on L mk_sb 2) 0 3 = [104; 105; 10]).
Proof.
  split; [exact ex_args_ok|]. eapply wp_mono; [exact (mkfs_contents ex_args ex_args_ok)|]. intros [] s (L & Hi & Hn & Hc). exists L. split; [done|].
  split; [by rewrite Hn|]. split; [by rewrite Hn|]. exact (proj2 (proj2 (Hc 0%nat _ eq_refl))).
Defined.
