(* ===== verification/Umalloc.v ===== *)
(** * The memory allocator of user programs

    [user/umalloc.c], the allocator of Kernighan and Ritchie: free blocks in a
    circular list, in the order of their addresses, linked through the headers
    in front of the blocks.  The header [base] ([base_addr]) has size 0; it is
    in the list and never given out.  Sizes are in units of a header. *)

From S2P Require Import Prelude Mem CString.

(** sbrk(n): the old end of the memory of the process, or -1.  [n] is an int. *)
Class Sbrk (W : Type) := os_sbrk : Z -> W -> Z * W.

Definition SIZEOF_HEADER : Z := 16.
(** (char* )-1 *)
Definition SBRK_FAILED : Z := 2 ^ 64 - 1.

(** p->s.ptr and p->s.size *)
Definition hptr (m : mem) (p : Z) : Z := load64 m p.
Definition hsize (m : mem) (p : Z) : Z := load32 m (p + 8).
Definition set_hptr (m : mem) (p v : Z) : mem := store64 m p v.
Definition set_hsize (m : mem) (p v : Z) : mem := store32 m (p + 8) (u32 v).
(** p + n, on headers *)
Definition hadd (p n : Z) : Z := p + SIZEOF_HEADER * n.

Record hst (W : Type) := HSt { hmem : mem; freep : Z; hw : W }.
Arguments HSt {_} _ _ _.
Arguments hmem {_} _.
Arguments freep {_} _.
Arguments hw {_} _.

(** The free block [bp] belongs behind. *)
Fixpoint free_find (fuel : nat) (m : mem) (bp p : Z) : option Z :=
  match fuel with
  | O => None
  | S fuel =>
      if (p <? bp) && (bp <? hptr m p) then Some p
      else if (hptr m p <=? p) && ((p <? bp) || (bp <? hptr m p)) then Some p
      else free_find fuel m bp (hptr m p)
  end.

(** Link [bp] in behind [p], merged with its neighbours. *)
Definition free_upper (m : mem) (bp p : Z) : mem :=
  if hadd bp (hsize m bp) =? hptr m p then
    let m := set_hsize m bp (hsize m bp + hsize m (hptr m p)) in
    set_hptr m bp (hptr m (hptr m p))
  else set_hptr m bp (hptr m p).
Definition free_lower (m : mem) (bp p : Z) : mem :=
  if hadd p (hsize m p) =? bp then
    let m := set_hsize m p (hsize m p + hsize m bp) in
    set_hptr m p (hptr m bp)
  else set_hptr m p bp.

Section Umalloc.
Context {W : Type} `{!Sbrk W}.
Local Open Scope kernel_scope.
Variable base_addr : Z.

Definition free (fuel : nat) (ap : Z) : M (hst W) unit :=
  fun s => let bp := ap - SIZEOF_HEADER in
           match free_find fuel (hmem s) bp (freep s) with
           | Some p => Ok tt (HSt (free_lower (free_upper (hmem s) bp p) bp p) p (hw s))
           | None => Fail EFuel
           end.

(** 0 when the process cannot grow. *)
Definition morecore (fuel : nat) (nu : Z) : M (hst W) Z :=
  let nu := if nu <? 4096 then 4096 else nu in
  p <- (fun s => let (p, w) := os_sbrk (i32 (nu * SIZEOF_HEADER)) (hw s) in Ok p (HSt (hmem s) (freep s) w)) ;;
  if p =? SBRK_FAILED then ret 0 else
  modify (fun s => HSt (set_hsize (hmem s) p nu) (freep s) (hw s)) ;;
  free fuel (hadd p 1) ;;
  gets freep.

(** Take [nunits] from the block [p], whose predecessor is [prevp]. *)
Definition carve (nunits prevp p : Z) (s : hst W) : Z * hst W :=
  let m := hmem s in
  if hsize m p =? nunits then (hadd p 1, HSt (set_hptr m prevp (hptr m p)) prevp (hw s))
  else
    let m := set_hsize m p (hsize m p - nunits) in
    let p := hadd p (hsize m p) in
    (hadd p 1, HSt (set_hsize m p nunits) prevp (hw s)).

Fixpoint malloc_loop (fuel : nat) (nunits prevp p : Z) : M (hst W) Z :=
  match fuel with
  | O => fun _ => Fail EFuel
  | S f =>
      m <- gets hmem ;;
      if nunits <=? hsize m p then
        fun s => let (r, s) := carve nunits prevp p s in Ok r s
      else
        fp <- gets freep ;;
        if p =? fp then
          p <- morecore fuel nunits ;;
          if p =? 0 then ret 0 else
          m <- gets hmem ;;
          malloc_loop f nunits p (hptr m p)
        else malloc_loop f nunits p (hptr m p)
  end.

Definition malloc (fuel : nat) (nbytes : Z) : M (hst W) Z :=
  let nunits := u32 ((u32 nbytes + SIZEOF_HEADER - 1) / SIZEOF_HEADER + 1) in
  (fun s => if freep s =? 0
            then Ok tt (HSt (set_hsize (set_hptr (hmem s) base_addr base_addr) base_addr 0) base_addr (hw s))
            else Ok tt s) ;;
  prevp <- gets freep ;;
  m <- gets hmem ;;
  malloc_loop fuel nunits prevp (hptr m prevp).

End Umalloc.
