(* ===== verification/UmallocSpec.v ===== *)
(** * The user allocator: invariant and specifications

    The heap is a list of free blocks, sorted by address and linked in a
    circle through [base], and the blocks given out.  The bytes of all of them
    are distinct, and splitting or merging blocks rearranges them. *)

From stdpp Require Import sorting.
From S2P Require Import Prelude Mem CString Umalloc.

(** ** Headers *)

Lemma hptr_same m p v : 0 <= v < 2 ^ 64 -> hptr (set_hptr m p v) p = v.
Proof. apply load64_store64_eq. Qed.

Lemma hsize_same m p v : 0 <= v < 2 ^ 32 -> hsize (set_hsize m p v) p = v.
Proof. intros Hv. unfold hsize, set_hsize. rewrite u32_small by done. by apply load32_store32_eq. Qed.

(** Different headers. *)
Definition apart (p q : Z) : Prop := p + 16 <= q \/ q + 16 <= p.

Lemma hptr_hptr m p q v : apart p q -> hptr (set_hptr m q v) p = hptr m p.
Proof. unfold apart. intros Hp. apply load64_store64_ne. lia. Qed.
Lemma hptr_hsize m p q v : apart p q \/ p = q -> hptr (set_hsize m q v) p = hptr m p.
Proof. unfold apart. intros Hp. apply load64_store32_ne. lia. Qed.
Lemma hsize_hptr m p q v : apart p q \/ p = q -> hsize (set_hptr m q v) p = hsize m p.
Proof. unfold apart. intros Hp. apply load32_store64_ne. lia. Qed.
Lemma hsize_hsize m p q v : apart p q -> hsize (set_hsize m q v) p = hsize m p.
Proof. unfold apart. intros Hp. apply load32_store32_ne. lia. Qed.

Lemma rd_set_hptr m p v a : ~ (p <= a < p + 16) -> rd (set_hptr m p v) a = rd m a.
Proof. intros Ha. apply rd_store64_ne. lia. Qed.
Lemma rd_set_hsize m p v a : ~ (p <= a < p + 16) -> rd (set_hsize m p v) a = rd m a.
Proof. intros Ha. apply rd_store32_ne. lia. Qed.

Lemma hdr_ext m m' p : (forall a, p <= a < p + 16 -> rd m' a = rd m a) -> hptr m' p = hptr m p /\ hsize m' p = hsize m p.
Proof. intros E. split; [apply load64_ext|apply load32_ext]; intros i Hi; apply E; lia. Qed.

(** ** Blocks *)

(** Address of the header, size in units. *)
Abbreviation blk := (Z * Z)%type.

Definition cells1 (x : blk) : list Z := seqZ x.1 (16 * x.2).
Definition cells (l : list blk) : list Z := l ≫= cells1.

Lemma cells_app l1 l2 : cells (l1 ++ l2) = cells l1 ++ cells l2.
Proof. apply bind_app. Qed.
Lemma cells_cons x l : cells (x :: l) = cells1 x ++ cells l.
Proof. done. Qed.

Lemma elem_cells1 a x : a ∈ cells1 x <-> x.1 <= a < x.1 + 16 * x.2.
Proof. apply elem_of_seqZ. Qed.

Lemma elem_cells a l : a ∈ cells l <-> exists x, x ∈ l /\ x.1 <= a < x.1 + 16 * x.2.
Proof.
  unfold cells. rewrite list_elem_of_bind. split; intros (x & H1 & H2); exists x.
  - by rewrite <- elem_cells1.
  - by rewrite elem_cells1.
Qed.

Lemma cells_merge p n k : 0 <= n -> 0 <= k -> cells1 (p, n + k) = cells1 (p, n) ++ cells1 (p + 16 * n, k).
Proof. intros Hn Hk. unfold cells1. cbn [fst snd]. rewrite <- seqZ_app by lia. f_equal. lia. Qed.

Lemma cells_clash l1 l2 x y : NoDup (cells (l1 ++ l2)) -> x ∈ l1 -> y ∈ l2 -> 1 <= x.2 -> 1 <= y.2 ->
  x.1 + 16 * x.2 <= y.1 \/ y.1 + 16 * y.2 <= x.1.
Proof.
  rewrite cells_app. intros Hn Hx Hy H1 H2. apply NoDup_app in Hn as (_ & Hd & _).
  assert (Hno : forall a, x.1 <= a < x.1 + 16 * x.2 -> y.1 <= a < y.1 + 16 * y.2 -> False).
  { intros a Ha Hb. apply (Hd a); apply elem_cells; eauto. }
  specialize (Hno (Z.max x.1 y.1)). lia.
Qed.

(** ** The circular list *)

Definition first (e : Z) (l : list blk) : Z := match l with [] => e | x :: _ => x.1 end.

Fixpoint links (m : mem) (l : list blk) (e : Z) : Prop :=
  match l with
  | [] => True
  | x :: l => hsize m x.1 = x.2 /\ hptr m x.1 = first e l /\ links m l e
  end.

Lemma links_app m l1 l2 e : links m (l1 ++ l2) e <-> links m l1 (first e l2) /\ links m l2 e.
Proof.
  induction l1 as [|x l1 IH]; simpl; [tauto|]. rewrite IH. assert (E : first e (l1 ++ l2) = first (first e l2) l1) by (by destruct l1).
  rewrite E. tauto.
Qed.

Lemma links_ext m m' l e : (forall x, x ∈ l -> hptr m' x.1 = hptr m x.1 /\ hsize m' x.1 = hsize m x.1) -> links m l e -> links m' l e.
Proof.
  induction l as [|x l IH]; simpl; [done|]. intros E (H1 & H2 & H3). destruct (E x) as [-> ->]; [left|].
  split; [done|]. split; [done|]. apply IH; [|done]. intros y Hy. apply E. by right.
Qed.

Definition before (x y : blk) : Prop := x.1 + 16 * x.2 < y.1 /\ x.1 + 16 <= y.1.

Section Heap.
Variable base : Z.

Record heap (m : mem) (fl al : list blk) (hi : Z) : Prop := {
  hp_sorted : StronglySorted before ((base, 0) :: fl);
  hp_links : links m ((base, 0) :: fl) base;
  hp_sizes : Forall (fun x => 1 <= x.2) (fl ++ al);
  hp_alloc : Forall (fun x => hsize m x.1 = x.2) al;
  hp_nodup : NoDup (cells (fl ++ al));
  hp_range : Forall (fun a => base + 16 <= a < hi) (cells (fl ++ al));
  hp_base : 0 < base /\ base + 16 <= hi <= 2 ^ 36;
}.

Definition on_list (p : Z) (fl : list blk) : Prop := p ∈ base :: (fst <$> fl).

(** Elements before and behind an address that is not in the list. *)
Lemma sorted_split l a x0 : StronglySorted before (x0 :: l) -> x0.1 < a -> (forall x, x ∈ l -> x.1 <> a) ->
  exists l1 x l2, x0 :: l = l1 ++ x :: l2 /\ x.1 < a /\ Forall (fun y => a < y.1) l2.
Proof.
  revert x0. induction l as [|y l IH]; intros x0 Hs H0 Hne.
  - exists [], x0, []. split; [done|]. split; [done|]. constructor.
  - apply StronglySorted_cons in Hs as [Hx Hs]. destruct (Z_lt_le_dec y.1 a) as [Hy|Hy].
    + destruct (IH y Hs Hy) as (l1 & x & l2 & E & H1 & H2). { intros z Hz. apply Hne. by right. }
      exists (x0 :: l1), x, l2. rewrite E. done.
    + assert (y.1 <> a) by (apply Hne; left). exists [], x0, (y :: l). split; [done|]. split; [done|].
      apply StronglySorted_cons in Hs as [Hyl _]. constructor; [lia|]. eapply Forall_impl; [exact Hyl|].
      unfold before. simpl. intros z [_ ?]. lia.
Qed.

Lemma sorted_before l1 x y l2 : StronglySorted before (l1 ++ x :: l2) -> y ∈ l1 -> before y x.
Proof. intros Hs Hy. eapply StronglySorted_app_1_elem_of; [exact Hs|done|left]. Qed.

Lemma sorted_behind l1 x y l2 : StronglySorted before (l1 ++ x :: l2) -> y ∈ l2 -> before x y.
Proof. intros Hs%StronglySorted_app_1_r Hy. apply StronglySorted_cons in Hs as [Hf _]. by eapply Forall_forall in Hf. Qed.

(** Neighbouring headers do not overlap. *)
Lemma sorted_apart l1 x l2 y : StronglySorted before (l1 ++ x :: l2) -> y ∈ l1 \/ y ∈ l2 -> apart y.1 x.1.
Proof.
  unfold apart. intros Hs [Hy|Hy]; [apply (sorted_before _ _ _ _ Hs) in Hy|apply (sorted_behind _ _ _ _ Hs) in Hy];
    destruct Hy; lia.
Qed.

(** ** Walking around the circle *)

Definition nx (len i : nat) : nat := if (S i =? len)%nat then O else S i.
Fixpoint hop (len d i : nat) : nat := match d with O => i | S d => hop len d (nx len i) end.

Lemma hop_add len d e i : hop len (d + e) i = hop len e (hop len d i).
Proof. revert i. induction d as [|d IH]; intros i; simpl; auto. Qed.

Lemma nx_lt len i : (i < len)%nat -> (nx len i < len)%nat.
Proof. unfold nx. intros Hi. destruct (Nat.eqb_spec (S i) len); lia. Qed.

Lemma hop_up len d i : (i + d < len)%nat -> hop len d i = (i + d)%nat.
Proof.
  revert i. induction d as [|d IH]; intros i Hi; simpl; [lia|]. unfold nx. destruct (Nat.eqb_spec (S i) len); [lia|].
  rewrite IH; lia.
Qed.

Lemma hop_home len i : (i < len)%nat -> hop len (len - i) i = O.
Proof.
  intros Hi. replace (len - i)%nat with ((len - 1 - i) + 1)%nat by lia. rewrite hop_add, (hop_up len (len - 1 - i) i) by lia. simpl. unfold nx.
  destruct (Nat.eqb_spec (S (i + (len - 1 - i))) len); lia.
Qed.

(** Every element is less than a round away. *)
Lemma hop_reach len i j : (i < len)%nat -> (j < len)%nat -> exists d, (d < len)%nat /\ hop len d i = j.
Proof.
  intros Hi Hj. destruct (decide (i <= j)%nat).
  - exists (j - i)%nat. split; [lia|]. rewrite hop_up; lia.
  - exists (len - i + j)%nat. split; [lia|]. rewrite hop_add, hop_home by lia. rewrite hop_up; lia.
Qed.

(** No element is met twice in a round. *)
Lemma hop_inj len i d : (i < len)%nat -> (0 < d < len)%nat -> hop len d i <> i.
Proof.
  intros Hi Hd. destruct (decide (i + d < len)%nat); [rewrite hop_up; lia|].
  replace d with ((len - i) + (d - (len - i)))%nat by lia. rewrite hop_add, hop_home by lia. rewrite hop_up; lia.
Qed.

Lemma links_lookup m l e i x : links m l e -> l !! i = Some x -> hsize m x.1 = x.2 /\ hptr m x.1 = first e (drop (S i) l).
Proof.
  revert i. induction l as [|y l IH]; intros i; [done|]. simpl. intros (H1 & H2 & H3). destruct i as [|i]; [intros [= <-]; by rewrite drop_0|].
  simpl. by apply IH.
Qed.

(** The successor in the circle. *)
Lemma ublock_next m l i x : links m l (first base l) -> l !! i = Some x ->
  exists y, l !! nx (length l) i = Some y /\ hptr m x.1 = y.1.
Proof.
  intros Hl Hx. destruct (links_lookup _ _ _ _ _ Hl Hx) as [_ ->]. apply lookup_lt_Some in Hx as Hlt. unfold nx.
  destruct (Nat.eqb_spec (S i) (length l)) as [E|E].
  - rewrite drop_ge by lia. destruct l as [|y l]; [done|]. by exists y.
  - destruct (lookup_lt_is_Some_2 l (S i)) as [y Hy]; [lia|]. exists y. split; [done|]. by rewrite (drop_S _ y).
Qed.

Lemma free_find_stops m l1 x l2 a : let l := l1 ++ x :: l2 in
  links m l (first base l) -> first base l <= x.1 -> x.1 < a -> Forall (fun y => a < y.1) l2 ->
  forall fuel, (0 < fuel)%nat -> free_find fuel m a x.1 = Some x.1.
Proof.
  intros l Hl Hb Hx H2 [|fuel] Hf; [lia|]. cbn [free_find].
  assert (Hlk : l !! length l1 = Some x) by (unfold l; by rewrite lookup_app_r, Nat.sub_diag).
  destruct (links_lookup _ _ _ _ _ Hl Hlk) as [_ ->].
  assert (Ed : drop (S (length l1)) l = l2) by (unfold l; rewrite cons_middle, app_assoc; apply drop_app_length'; rewrite length_app; simpl; lia).
  rewrite Ed, (proj2 (Z.ltb_lt x.1 a) Hx). destruct l2 as [|z l2]; cbn [first andb].
  - destruct (Z.ltb_spec a (first base l)); [lia|]. rewrite (proj2 (Z.leb_le _ _) Hb). done.
  - apply Forall_cons in H2 as [Hz _]. by rewrite (proj2 (Z.ltb_lt _ _) Hz).
Qed.

(** From anywhere on the list the search ends at the predecessor. *)
Lemma free_find_spec m l1 x l2 a : let l := l1 ++ x :: l2 in
  StronglySorted before l -> links m l (first base l) -> x.1 < a -> Forall (fun y => a < y.1) l2 ->
  forall d i y fuel, l !! i = Some y -> hop (length l) d i = length l1 -> (d < fuel)%nat ->
    free_find fuel m a y.1 = Some x.1.
Proof.
  intros l Hs Hl Hx H2.
  assert (Hlk : l !! length l1 = Some x) by (unfold l; by rewrite lookup_app_r, Nat.sub_diag).
  assert (Hb : first base l <= x.1).
  { unfold l. destruct l1 as [|z l1]; simpl; [lia|]. pose proof (sorted_before (z :: l1) x z l2 Hs) as [_ ?]; [left|lia]. }
  induction d as [|d IH]; intros i y fuel Hy Hw Hf.
  - simpl in Hw. subst i. rewrite Hlk in Hy. injection Hy as <-. by apply (free_find_stops m l1 x l2 a).
  - destruct (decide (i = length l1)) as [->|Hne].
    { rewrite Hlk in Hy. injection Hy as <-. apply (free_find_stops m l1 x l2 a); (done || lia). }
    destruct fuel as [|fuel]; [lia|]. cbn [free_find]. destruct (ublock_next m l i y Hl Hy) as (z & Hz & ->).
    assert (Hstop : (y.1 <? a) && (a <? z.1) = false /\ (z.1 <=? y.1) && ((y.1 <? a) || (a <? z.1)) = false).
    { pose proof (lookup_lt_Some _ _ _ Hy) as Hlt. destruct (decide (i < length l1)%nat) as [Hi|Hi].
      - assert (Ei : nx (length l) i = S i).
        { unfold nx. destruct (Nat.eqb_spec (S i) (length l)) as [E|]; [|done]. unfold l in E. rewrite length_app in E. simpl in E. lia. }
        rewrite Ei in Hz. assert (Hzx : z.1 <= x.1).
        { destruct (decide (S i = length l1)) as [E|]; [rewrite E, Hlk in Hz; injection Hz as <-; lia|].
          unfold l in Hz. rewrite lookup_app_l in Hz by lia. apply list_elem_of_lookup_2 in Hz.
          destruct (sorted_before _ _ _ _ Hs Hz). lia. }
        assert (Hyz : y.1 < z.1).
        { pose proof (take_drop_middle _ _ _ Hy) as El. rewrite <- El in Hs. destruct (sorted_behind _ _ z _ Hs); [|lia].
          apply list_elem_of_lookup. exists O. by rewrite lookup_drop, Nat.add_0_r. }
        split; apply andb_false_iff; [right; apply Z.ltb_ge; lia|left; apply Z.leb_gt; lia].
      - assert (Hay : a < y.1).
        { unfold l in Hy. rewrite lookup_app_r in Hy by lia. destruct (i - length l1)%nat as [|k] eqn:Ek; [lia|].
          simpl in Hy. eapply Forall_lookup in H2; [|exact Hy]. done. }
        split; [apply andb_false_iff; left; apply Z.ltb_ge; lia|]. unfold nx in Hz. destruct (Nat.eqb_spec (S i) (length l)) as [E|E].
        + assert (Ez : z.1 = first base l) by (destruct l; [done|]; by injection Hz as <-).
          apply andb_false_iff. right. apply orb_false_iff. split; apply Z.ltb_ge; lia.
        + pose proof (take_drop_middle _ _ _ Hy) as El. rewrite <- El in Hs. destruct (sorted_behind _ _ z _ Hs) as [_ ?].
          { apply list_elem_of_lookup. exists O. by rewrite lookup_drop, Nat.add_0_r. }
          apply andb_false_iff. left. apply Z.leb_gt. lia. }
    destruct Hstop as [-> ->]. apply (IH (nx (length l) i)); [done|done|lia].
Qed.

(** ** Linking a block in *)

(** The block [x] in front of [l], merged with the first block if they touch;
    [free_upper] leaves this list behind [p]. *)
Definition joined (x : blk) (l : list blk) : list blk :=
  match l with
  | y :: l' => if x.1 + 16 * x.2 =? y.1 then (x.1, x.2 + y.2) :: l' else x :: l
  | [] => [x]
  end.

(** Blocks behind an address, inside the memory. *)
Definition above (a : Z) (y : blk) : Prop := a <= y.1 /\ 1 <= y.2 /\ y.1 + 16 * y.2 <= 2 ^ 36.

Lemma free_upper_spec m a c l e p :
  hsize m a = c -> hptr m p = first e l -> links m l e -> 1 <= c -> 0 < a -> a + 16 * c <= 2 ^ 36 -> 0 <= e < a ->
  Forall (above (a + 16 * c)) l -> StronglySorted before l -> apart p a ->
  let m1 := free_upper m a p in
  links m1 (joined (a, c) l) e /\ forall b, ~ (a <= b < a + 16) -> rd m1 b = rd m b.
Proof.
  intros Hc Hp Hl H1 Ha Hhi He Hab Hs Hpa m1. unfold m1, free_upper. cbv zeta. rewrite (hptr_hsize m p) by auto. rewrite Hc, Hp. unfold hadd, SIZEOF_HEADER, joined.
  assert (Hfar : forall y, y ∈ l -> apart y.1 a).
  { intros y Hy. rewrite Forall_forall in Hab. destruct (Hab y Hy). unfold apart. lia. }
  destruct l as [|y l]; cbn [first fst snd].
  - destruct (Z.eqb_spec (a + 16 * c) e); [lia|]. split; [|intros b Hb; by apply rd_set_hptr].
    cbn. rewrite hsize_hptr by auto. rewrite hptr_same by lia. done.
  - apply Forall_cons in Hab as [(Y1 & Y2 & Y3) Hab]. pose proof (Hfar y ltac:(left)) as Hya.
    destruct (Z.eqb_spec (a + 16 * c) y.1) as [E|E].
    + destruct Hl as (Hz & Hn & Hl). rewrite Hz. split.
      2:{ intros b Hb. rewrite rd_set_hptr by done. by apply rd_set_hsize. }
      apply StronglySorted_cons in Hs as [_ Hs]. cbn [links fst snd]. rewrite hsize_hptr by auto. rewrite hsize_same by lia. split; [done|].
      rewrite (hptr_hsize m y.1) by auto. rewrite Hn, hptr_same.
      2:{ destruct l as [|z l]; cbn; [lia|]. apply Forall_cons in Hab as [(? & ? & ?) _]. lia. }
      split; [done|]. eapply links_ext; [|exact Hl]. intros z Hz'. assert (apart z.1 a) by (apply Hfar; by right).
      rewrite hptr_hptr, hptr_hsize, hsize_hptr, hsize_hsize by auto. done.
    + split; [|intros b Hb; by apply rd_set_hptr]. cbn [links first fst snd]. rewrite hsize_hptr by auto. rewrite hptr_same by lia.
      split; [done|]. split; [done|]. destruct Hl as (Hz & Hn & Hl). rewrite hsize_hptr, hptr_hptr by auto. split; [done|]. split; [done|].
      eapply links_ext; [|exact Hl]. intros z Hz'. assert (apart z.1 a) by (apply Hfar; by right).
      by rewrite hptr_hptr, hsize_hptr by auto.
Qed.

Lemma joined_cons a c l : Forall (fun y => 0 <= y.2) l -> exists c' l', joined (a, c) l = (a, c') :: l' /\ c <= c'.
Proof.
  intros Hl. unfold joined. destruct l as [|y l]; [by exists c, []|]. apply Forall_cons in Hl as [Hy _].
  destruct (_ =? _); eexists _, _; (split; [done|]); cbn [fst snd]; lia.
Qed.

Lemma joined_sorted x l : StronglySorted before l -> Forall (fun y => x.1 + 16 * x.2 <= y.1 /\ x.1 + 16 <= y.1) l ->
  StronglySorted before (joined x l).
Proof.
  intros Hs Hx. unfold joined. destruct l as [|y l]; [by repeat constructor|]. apply Forall_cons in Hx as [[Y1 Y2] Hx].
  pose proof Hs as [Hy Hs']%StronglySorted_cons. destruct (Z.eqb_spec (x.1 + 16 * x.2) y.1) as [E|E].
  - apply StronglySorted_cons. split; [|done]. rewrite !Forall_forall in *. intros z Hz. destruct (Hx z Hz), (Hy z Hz). split; cbn [fst snd]; lia.
  - apply StronglySorted_cons. split; [|done]. constructor; [split; lia|]. rewrite !Forall_forall in *. intros z Hz.
    destruct (Hx z Hz), (Hy z Hz). split; lia.
Qed.

Lemma cells_joined a c l : 0 <= c -> Forall (fun y => 0 <= y.2) l -> cells (joined (a, c) l) = cells1 (a, c) ++ cells l.
Proof.
  intros Hc Hl. unfold joined. destruct l as [|[q k] l]; [done|]. cbn [fst snd]. destruct (Z.eqb_spec (a + 16 * c) q) as [<-|]; [|done].
  apply Forall_cons in Hl as [Hk _]. rewrite !cells_cons, cells_merge by done. by rewrite app_assoc.
Qed.

Lemma free_lower_spec m a c l e p n :
  hsize m p = n -> links m ((a, c) :: l) e -> 0 <= n -> 1 <= c -> 0 < p -> p + 16 * n <= a -> p + 16 <= a -> 0 <= e < 2 ^ 36 ->
  Forall (above a) ((a, c) :: l) -> StronglySorted before ((a, c) :: l) ->
  let m1 := free_lower m a p in
  links m1 (joined (p, n) ((a, c) :: l)) e /\ forall b, ~ (p <= b < p + 16) -> rd m1 b = rd m b.
Proof.
  intros Hn Hl H0 H1 Hp Hpa Hpa' He Hab Hs m1. destruct Hl as (Hz & Hx & Hl). cbn [fst snd] in *. unfold m1, free_lower. rewrite Hn, Hz.
  unfold hadd, SIZEOF_HEADER, joined. cbn [fst snd]. apply Forall_cons in Hab as [(_ & _ & Ha) Hab]. cbn [fst snd] in Ha.
  assert (Hfar : forall y, y ∈ l -> apart y.1 p).
  { intros y Hy. rewrite Forall_forall in Hab. destruct (Hab y Hy). unfold apart. lia. }
  assert (apart a p) by (unfold apart; lia). destruct (Z.eqb_spec (p + 16 * n) a) as [E|E].
  - split.
    2:{ intros b Hb. rewrite rd_set_hptr by done. by apply rd_set_hsize. }
    cbn [links fst snd]. rewrite hsize_hptr by auto. rewrite hsize_same by lia. split; [done|].
    rewrite (hptr_hsize m a) by auto. rewrite Hx, hptr_same.
    2:{ destruct l as [|z l]; cbn; [lia|]. apply Forall_cons in Hab as [(? & ? & ?) _]. lia. }
    split; [done|]. eapply links_ext; [|exact Hl]. intros z Hz'. assert (apart z.1 p) by (by apply Hfar).
    rewrite hptr_hptr, hptr_hsize, hsize_hptr, hsize_hsize by auto. done.
  - split; [|intros b Hb; by apply rd_set_hptr]. cbn [links first fst snd]. rewrite hsize_hptr by auto. rewrite hptr_same by lia.
    split; [done|]. split; [done|]. rewrite hsize_hptr, hptr_hptr by auto. split; [done|]. split; [done|].
    eapply links_ext; [|exact Hl]. intros z Hz'. assert (apart z.1 p) by (by apply Hfar).
    by rewrite hptr_hptr, hsize_hptr by auto.
Qed.

(** ** free *)

Lemma heap_blk m fl al hi x : heap m fl al hi -> x ∈ fl ++ al -> base + 16 <= x.1 /\ 1 <= x.2 /\ x.1 + 16 * x.2 <= hi.
Proof.
  intros [_ _ Hz _ _ Hr _] Hx. rewrite Forall_forall in Hz. specialize (Hz x Hx). rewrite Forall_forall in Hr.
  pose proof (Hr x.1) as R1. pose proof (Hr (x.1 + 16 * x.2 - 1)) as R2. rewrite elem_cells in R1, R2.
  destruct R1; [exists x; split; [done|lia]|]. destruct R2; [exists x; split; [done|lia]|]. lia.
Qed.

Lemma heap_far m fl al hi a c : heap m fl ((a, c) :: al) hi -> forall x, x ∈ fl ->
  (x.1 < a -> x.1 + 16 * x.2 <= a) /\ (a < x.1 -> a + 16 * c <= x.1) /\ x.1 <> a.
Proof.
  intros Hh x Hx. destruct (heap_blk _ _ _ _ x Hh) as (_ & X2 & _); [apply elem_of_app; by left|].
  destruct (heap_blk _ _ _ _ (a, c) Hh) as (_ & C2 & _); [apply elem_of_app; right; left|]. cbn [fst snd] in *.
  destruct (cells_clash fl ((a, c) :: al) x (a, c) (hp_nodup _ _ _ _ Hh) Hx) as [Hd|Hd]; [left|done|done| |]; cbn [fst snd] in Hd; lia.
Qed.

Lemma free_find_heap m fl al hi a c p0 fuel :
  heap m fl ((a, c) :: al) hi -> on_list p0 fl -> (length fl < fuel)%nat ->
  exists l1 p n l2, (base, 0) :: fl = l1 ++ (p, n) :: l2 /\ free_find fuel m a p0 = Some p /\ p < a /\ Forall (fun y => a < y.1) l2.
Proof.
  intros Hh Hp0 Hf. destruct (heap_blk _ _ _ _ (a, c) Hh) as (A1 & _ & _); [apply elem_of_app; right; left|]. cbn [fst] in A1.
  destruct (sorted_split fl a (base, 0) (hp_sorted _ _ _ _ Hh)) as (l1 & [p n] & l2 & E & Hp & H2); [simpl; lia| |].
  { intros x Hx. by apply (heap_far _ _ _ _ _ _ Hh x Hx). }
  exists l1, p, n, l2. split; [done|]. split; [|done]. unfold on_list in Hp0.
  change (base :: (fst <$> fl)) with (fst <$> ((base, 0) :: fl)) in Hp0. apply list_elem_of_fmap in Hp0 as (y & -> & Hy).
  apply list_elem_of_lookup in Hy as [i Hi].
  pose proof (hp_sorted _ _ _ _ Hh) as Hs. pose proof (hp_links _ _ _ _ Hh) as Hl. rewrite E in *.
  assert (Hfirst : first base (l1 ++ (p, n) :: l2) = base) by (by rewrite <- E).
  pose proof (lookup_lt_Some _ _ _ Hi) as Hlt.
  assert (Hlen : length (l1 ++ (p, n) :: l2) = S (length fl)) by (by rewrite <- E).
  destruct (hop_reach (S (length fl)) i (length l1)) as (d & Hd & Hw); [lia|rewrite length_app in Hlen; simpl in Hlen; lia|].
  apply (free_find_spec m l1 (p, n) l2 a) with (d := d) (i := i); try done; [by rewrite Hfirst|by rewrite Hlen|lia].
Qed.

Lemma joined_addr (P : Z -> Prop) x l : Forall (fun y => P y.1) (x :: l) -> Forall (fun y => P y.1) (joined x l).
Proof.
  intros [Hx Hl]%Forall_cons. unfold joined. destruct l as [|y l]; [by repeat constructor|]. destruct (_ =? _); [|by constructor].
  apply Forall_cons in Hl as [_ Hl]. by constructor.
Qed.

Lemma joined_sizes (k : Z) x l : 0 <= x.2 -> Forall (fun y => k <= y.2) l -> k <= x.2 \/ joined x l <> x :: l -> Forall (fun y => k <= y.2) (joined x l).
Proof.
  intros H0 Hl Hx. unfold joined in *. destruct l as [|y l]; [destruct Hx; [by repeat constructor|done]|]. destruct (_ =? _).
  - apply Forall_cons in Hl as [Hy Hl]. constructor; [cbn [fst snd]; lia|done].
  - destruct Hx; [by constructor|done].
Qed.

Lemma above_joined lo a c l : above lo (a, c) -> Forall (above lo) l -> Forall (above lo) (joined (a, c) l).
Proof.
  intros (A1 & A2 & A3) Hl. unfold joined. cbn [fst snd] in *. destruct l as [|y l]; [by repeat constructor|].
  destruct (Z.eqb_spec (a + 16 * c) y.1); [|by constructor]. apply Forall_cons in Hl as [(Y1 & Y2 & Y3) Hl].
  constructor; [|done]. unfold above. cbn [fst snd]. lia.
Qed.

(** The memory after [free], with the list it is linked into. *)
Lemma free_linked m l1 p n l2 a c :
  let l := l1 ++ (p, n) :: l2 in
  StronglySorted before l -> links m l base -> 0 <= base < p + 1 -> 0 < p -> 0 <= n -> hsize m a = c -> 1 <= c ->
  p + 16 * n <= a -> p + 16 <= a -> a + 16 * c <= 2 ^ 36 -> Forall (above (a + 16 * c)) l2 ->
  let m' := free_lower (free_upper m a p) a p in let r := joined (p, n) (joined (a, c) l2) in
  links m' (l1 ++ r) base /\ StronglySorted before (l1 ++ r) /\ first base r = p /\
  forall b, ~ (a <= b < a + 16) -> ~ (p <= b < p + 16) -> rd m' b = rd m b.
Proof.
  intros l Hs Hl Hb Hp Hn Hc H1 Hpa Hpa' Hhi Hab m' r. pose proof Hs as (Hcross & Hs1 & Hs2)%StronglySorted_app.
  apply StronglySorted_cons in Hs2 as [Hpl Hs2]. apply links_app in Hl as [Hl1 (Hz & Hnx & Hl2)]. cbn [fst snd first] in *.
  destruct (free_upper_spec m a c l2 base p) as [Hu Fu]; [done|done|done|done|lia|done|lia|done|done|unfold apart; lia|].
  assert (Hjs : StronglySorted before (joined (a, c) l2)).
  { apply joined_sorted; [done|]. eapply Forall_impl; [exact Hab|]. intros y (? & ? & ?). cbn [fst snd]. lia. }
  assert (Hja : Forall (above a) (joined (a, c) l2)).
  { apply above_joined; [unfold above; cbn [fst snd]; lia|]. eapply Forall_impl; [exact Hab|]. unfold above. intros y. lia. }
  assert (Hnn : Forall (fun y : blk => 0 <= y.2) l2) by (eapply Forall_impl; [exact Hab|]; unfold above; intros y; lia).
  destruct (joined_cons a c l2 Hnn) as (c' & l2' & Ej & Hcc). rewrite Ej in *.
  set (m1 := free_upper m a p) in *. assert (Hp1 : hsize m1 p = n).
  { destruct (hdr_ext m m1 p) as [_ ->]; [|done]. intros b Hb'. apply Fu. lia. }
  destruct (free_lower_spec m1 a c' l2' base p n) as [Hlo Flo]; [done|done|done|lia|done|done|done|lia|done|done|].
  assert (Hr : first base r = p).
  { unfold r. rewrite Ej. unfold joined. destruct (_ =? _); done. }
  assert (F : forall b, ~ (a <= b < a + 16) -> ~ (p <= b < p + 16) -> rd m' b = rd m b).
  { intros b B1 B2. unfold m'. rewrite Flo by done. by apply Fu. }
  split; [|split; [|split; [done|exact F]]].
  - apply links_app. split; [|unfold r; by rewrite Ej]. rewrite Hr. eapply links_ext; [|exact Hl1]. intros x Hx. apply hdr_ext.
    intros b Hb'. destruct (Hcross x (p, n) Hx ltac:(left)) as [_ Hxp]. cbn [fst snd] in Hxp. apply F; lia.
  - apply StronglySorted_app. split; [|split; [done|]].
    + intros x y Hx Hy. assert (Hy' : p <= y.1).
      { assert (Hall : Forall (fun y : blk => p <= y.1) r).
        { unfold r. rewrite Ej. apply joined_addr. constructor; [simpl; lia|]. eapply Forall_impl; [exact Hja|]. intros z (? & _). lia. }
        rewrite Forall_forall in Hall. by apply Hall. }
      destruct (Hcross x (p, n) Hx ltac:(left)) as [X1 X2]. cbn [fst snd] in *. split; lia.
    + unfold r. rewrite Ej. apply joined_sorted; [done|]. eapply Forall_impl; [exact Hja|]. intros y (? & _ & _). cbn [fst snd]. lia.
Qed.

Lemma joined_length x l : (length (joined x l) <= S (length l))%nat.
Proof. unfold joined. destruct l as [|y l]; [done|]. destruct (_ =? _); simpl; lia. Qed.

Lemma joined_big x l k : k <= x.2 -> Forall (fun y : blk => 0 <= y.2) l -> exists y, y ∈ joined x l /\ k <= y.2.
Proof.
  intros Hk Hl. destruct x as [a c]. destruct (joined_cons a c l Hl) as (c' & l' & -> & Hc). exists (a, c'). split; [left|]. cbn [fst snd] in *. lia.
Qed.

(** The list behind [base], with the block [(a, c)] in it. *)
Lemma freed_list fl l1 p n l2 a c :
  (base, 0) :: fl = l1 ++ (p, n) :: l2 -> base < a -> 1 <= c -> Forall (fun x => 1 <= x.2) fl ->
  exists fl', l1 ++ joined (p, n) (joined (a, c) l2) = (base, 0) :: fl' /\ cells fl' ≡ₚ cells1 (a, c) ++ cells fl /\
    Forall (fun x => 1 <= x.2) fl' /\ (length fl' <= S (length fl))%nat /\ (exists x, x ∈ fl' /\ c <= x.2) /\ on_list p fl'.
Proof.
  intros E Ha Hc Hz. assert (Hnn : forall l, Forall (fun x : blk => 1 <= x.2) l -> Forall (fun x : blk => 0 <= x.2) l).
  { intros l Hl. eapply Forall_impl; [exact Hl|]. simpl. lia. }
  pose proof (joined_length (a, c) l2) as Hlen. destruct l1 as [|b l1]; cbn [app] in *.
  - injection E as <- <- <-. exists (joined (a, c) fl). destruct (joined_cons a c fl) as (c' & l' & Ej & Hcc); [auto|]. rewrite Ej.
    assert (Hno : joined (base, 0) ((a, c') :: l') = (base, 0) :: (a, c') :: l').
    { unfold joined. cbn [fst snd]. destruct (Z.eqb_spec (base + 16 * 0) a); [lia|done]. }
    split; [done|]. rewrite <- Ej. split; [by rewrite cells_joined by (auto; lia)|]. split.
    { apply joined_sizes; [simpl; lia|done|left; simpl; lia]. }
    split; [done|]. split; [apply joined_big; [simpl; lia|auto]|]. left.
  - injection E as <- ->. apply Forall_app in Hz as [Hz1 Hz2]. apply Forall_cons in Hz2 as [Hn Hz2]. cbn [snd] in Hn.
    set (r := joined (p, n) (joined (a, c) l2)). exists (l1 ++ r). split; [done|].
    assert (Hj : Forall (fun x : blk => 1 <= x.2) (joined (a, c) l2)) by (apply joined_sizes; [simpl; lia|done|left; simpl; lia]).
    assert (Er : cells r = cells1 (p, n) ++ cells1 (a, c) ++ cells l2).
    { unfold r. rewrite cells_joined, cells_joined by (auto; lia). done. }
    split; [rewrite !cells_app, Er, cells_cons; solve_Permutation|].
    split; [apply Forall_app; split; [done|]; apply joined_sizes; [simpl; lia|done|left; simpl; lia]|].
    split; [rewrite !length_app; cbn [length]; pose proof (joined_length (p, n) (joined (a, c) l2)); unfold r; lia|]. split.
    + unfold r. destruct (joined_cons a c l2) as (c' & l' & Ej & Hcc); [auto|]. rewrite Ej in *. apply Forall_cons in Hj as [_ Hj].
      unfold joined. cbn [fst snd]. destruct (_ =? _).
      * exists (p, n + c'). split; [apply elem_of_app; right; left|cbn [snd]; lia].
      * exists (a, c'). split; [apply elem_of_app; right; right; left|done].
    + right. apply list_elem_of_fmap. destruct (joined_cons p n (joined (a, c) l2)) as (n' & l' & Ej & _); [auto|]. exists (p, n').
      split; [done|]. unfold r. rewrite Ej. apply elem_of_app. right. left.
Qed.

Lemma heap_free m fl al hi a c p0 fuel :
  heap m fl ((a, c) :: al) hi -> on_list p0 fl -> (length fl < fuel)%nat ->
  exists p, free_find fuel m a p0 = Some p /\
    let m' := free_lower (free_upper m a p) a p in
    exists fl', heap m' fl' al hi /\ on_list p fl' /\ (forall b, b ∈ cells al -> rd m' b = rd m b) /\
      cells fl' ≡ₚ cells1 (a, c) ++ cells fl /\ (length fl' <= S (length fl))%nat /\ exists x, x ∈ fl' /\ c <= x.2.
Proof.
  intros Hh Hp0 Hf. destruct (free_find_heap m fl al hi a c p0 fuel Hh Hp0 Hf) as (l1 & p & n & l2 & E & Ef & Hpa & H2).
  exists p. split; [done|]. intros m'. destruct (heap_blk _ _ _ _ (a, c) Hh) as (A1 & A2 & A3); [apply elem_of_app; right; left|].
  cbn [fst snd] in *. pose proof (heap_far _ _ _ _ _ _ Hh) as Hfar. pose proof Hh as [S1 L1 Z1 Al1 N1 R1 B1].
  apply Forall_app in Z1 as [Zf Za]. apply Forall_cons in Za as [_ Za]. apply Forall_cons in Al1 as [Ha Al1]. cbn [fst snd] in Ha.
  assert (Hin : forall x, x ∈ l2 -> x ∈ fl).
  { intros x Hx. destruct l1; [injection E as _ _ ->; done|injection E as _ ->]. apply elem_of_app. right. by right. }
  assert (Hab : Forall (above (a + 16 * c)) l2).
  { rewrite Forall_forall in H2 |- *. intros x Hx. destruct (Hfar x (Hin x Hx)) as (_ & Hf2 & _).
    destruct (heap_blk _ _ _ _ x Hh) as (_ & X2 & X3); [apply elem_of_app; left; auto|]. specialize (Hf2 (H2 x Hx)). unfold above. lia. }
  assert (Hpn : (p = base /\ n = 0) \/ (p, n) ∈ fl).
  { destruct l1; [injection E as <- <- _; by left|injection E as _ ->]. right. apply elem_of_app. right. left. }
  assert (Hpf : p + 16 * n <= a /\ p + 16 <= a /\ 0 < p /\ 0 <= n /\ base <= p).
  { destruct Hpn as [[-> ->]|Hx]; [lia|]. destruct (Hfar _ Hx) as (Hf1 & _ & _).
    destruct (heap_blk _ _ _ _ (p, n) Hh) as (X1 & X2 & X3); [apply elem_of_app; by left|]. cbn [fst snd] in *. specialize (Hf1 Hpa). lia. }
  rewrite E in S1, L1. destruct (free_linked m l1 p n l2 a c) as (Lk & Sr & _ & F); try (done || lia).
  destruct (freed_list fl l1 p n l2 a c E) as (fl' & E' & Pc & Zf' & Ln & Big & On); [lia|done|done|]. rewrite E' in Lk, Sr.
  exists fl'. assert (Pall : cells (fl' ++ al) ≡ₚ cells (fl ++ (a, c) :: al)).
  { rewrite !cells_app, cells_cons, Pc. solve_Permutation. }
  assert (Keep : forall b, b ∈ cells al -> rd m' b = rd m b).
  { intros b Hb. rewrite !cells_app, cells_cons in N1. apply NoDup_app in N1 as (_ & N2 & N3). apply NoDup_app in N3 as (_ & N3 & _).
    assert (Hlo : base + 16 <= b).
    { rewrite Forall_forall in R1. specialize (R1 b). rewrite cells_app, cells_cons in R1. destruct R1; [|lia]. apply elem_of_app. right. apply elem_of_app. by right. }
    apply F.
    - intros Hr. apply (N3 b); [|done]. apply elem_cells1. cbn [fst snd]. lia.
    - intros Hr. destruct Hpn as [[-> _]|Hx]; [lia|]. apply (N2 b); [|apply elem_of_app; by right].
      apply elem_cells. exists (p, n). split; [done|]. destruct (heap_blk _ _ _ _ (p, n) Hh) as (_ & X2 & _); [apply elem_of_app; by left|].
      cbn [fst snd] in *. lia. }
  split; [|by repeat split].
  split; [done|done|by apply Forall_app| |by rewrite Pall|by rewrite Pall|done].
  rewrite Forall_forall in Al1, Za |- *. intros x Hx. rewrite <- (Al1 x Hx). apply hdr_ext. intros b Hb. apply Keep, elem_cells.
  exists x. split; [done|]. specialize (Za x Hx). lia.
Qed.

(** ** Taking a block *)

Definition in_blk (x : blk) (b : Z) : Prop := x.1 <= b < x.1 + 16.

(** A block is removed from the list or shortened; nothing but the headers of
    blocks of the list is written. *)
Lemma heap_take m m' l1 x y y' l2 a k fl al hi :
  heap m fl al hi -> (base, 0) :: fl = l1 ++ x :: y :: l2 ->
  y' = [] /\ a = y.1 /\ k = y.2 \/
  (exists r, y' = [(y.1, r)] /\ 1 <= r /\ 1 <= k /\ a = y.1 + 16 * r /\ y.2 = r + k) ->
  hsize m' a = k -> links m' (l1 ++ x :: y' ++ l2) base ->
  (forall b, b ∈ cells al -> rd m' b = rd m b) ->
  exists fl', l1 ++ x :: y' ++ l2 = (base, 0) :: fl' /\ heap m' fl' ((a, k) :: al) hi /\ on_list x.1 fl' /\
    cells fl ≡ₚ cells1 (a, k) ++ cells fl' /\ (length fl' <= length fl)%nat.
Proof.
  intros Hh E Hy Ha Hl Hk. pose proof Hh as [S1 L1 Z1 Al1 N1 R1 B1].
  assert (Efl : exists fl', l1 ++ x :: y' ++ l2 = (base, 0) :: fl' /\ (exists u, fl = u ++ y :: l2 /\ fl' = u ++ y' ++ l2) /\ on_list x.1 fl').
  { destruct l1 as [|z l1]; cbn [app] in *.
    - injection E as <- ->. eexists. split; [done|]. split; [by exists []|]. left.
    - injection E as <- ->. eexists. split; [done|]. split; [exists (l1 ++ [x]); by rewrite <- !app_assoc|].
      right. apply list_elem_of_fmap. exists x. split; [done|]. apply elem_of_app. right. left. }
  destruct Efl as (fl' & E' & (u & -> & ->) & On). exists (u ++ y' ++ l2). split; [done|].
  apply Forall_app in Z1 as [Zf Za]. apply Forall_app in Zf as [Zu Zf]. apply Forall_cons in Zf as [Zy Zl].
  assert (Cy : cells1 y ≡ₚ cells1 (a, k) ++ cells y' /\ 1 <= k /\ Forall (fun z : blk => 1 <= z.2) y').
  { destruct y as [q n]. destruct Hy as [(-> & -> & ->)|(r & -> & Hr & Hk1 & -> & En)]; cbn [fst snd] in *.
    - split; [by rewrite app_nil_r|]. split; [done|constructor].
    - subst n. rewrite cells_merge by lia. split; [|split; [done|by repeat constructor]]. cbn [cells mbind list_bind]. rewrite app_nil_r. by rewrite Permutation_app_comm. }
  destruct Cy as (Cy & Hk1 & Zy'). assert (Pc : cells (u ++ y :: l2) ≡ₚ cells1 (a, k) ++ cells (u ++ y' ++ l2)).
  { rewrite !cells_app, cells_cons, Cy. solve_Permutation. }
  assert (Pall : cells ((u ++ y' ++ l2) ++ (a, k) :: al) ≡ₚ cells ((u ++ y :: l2) ++ al)).
  { rewrite (cells_app (u ++ y' ++ l2)), (cells_app (u ++ y :: l2)), cells_cons, Pc. solve_Permutation. }
  split; [|split; [done|split; [done|]]].
  2:{ rewrite !length_app. destruct Hy as [(-> & _)|(r & -> & _)]; simpl; lia. }
  split; [rewrite <- E'|by rewrite <- E'| | |by rewrite Pall|by rewrite Pall|done].
  - rewrite E in S1. apply StronglySorted_app in S1 as (X1 & X2 & X3). apply StronglySorted_cons in X3 as [X3 X4].
    apply StronglySorted_cons in X4 as [X4 X5]. apply Forall_cons in X3 as [Xy X3].
    assert (Hy' : forall z, z ∈ y' -> z.1 = y.1 /\ z.2 <= y.2).
    { destruct Hy as [(-> & _)|(r & -> & ? & ? & ? & ?)]; intros z Hz; [by apply elem_of_nil in Hz|]. apply list_elem_of_singleton in Hz as ->. simpl. lia. }
    assert (Hb : forall z, before z y -> forall v, v ∈ y' -> before z v).
    { intros z [? ?] v Hv. destruct (Hy' v Hv) as [E1 _]. split; rewrite E1; done. }
    assert (Hb2 : forall z v, v ∈ y' -> before y z -> before v z).
    { intros z v Hv [? ?]. destruct (Hy' v Hv) as [E1 ?]. split; rewrite ?E1; lia. }
    apply StronglySorted_app. split; [|split; [done|]].
    + intros z v Hz [->|[Hv|Hv]%elem_of_app]%elem_of_cons; [apply X1; [done|left]| |apply X1; [done|right; by right]].
      apply Hb; [|done]. apply X1; [done|right; left].
    + apply StronglySorted_cons. split; [apply Forall_app; split; [rewrite Forall_forall; auto|done]|]. apply StronglySorted_app. split; [|split; [|done]].
      * intros v z Hv Hz. apply Hb2; [done|]. rewrite Forall_forall in X4. auto.
      * destruct Hy as [(-> & _)|(r & -> & _)]; repeat constructor.
  - apply Forall_app. split; [|by constructor]. apply Forall_app. split; [done|]. by apply Forall_app.
  - constructor; [done|]. rewrite Forall_forall in Al1, Za |- *. intros z Hz. rewrite <- (Al1 z Hz). apply hdr_ext. intros b Hb. apply Hk, elem_cells.
    exists z. split; [done|]. specialize (Za z Hz). lia.
Qed.

(** The header of a free block is in its cells. *)
Lemma hdr_cells m fl al hi y b : heap m fl al hi -> y ∈ (base, 0) :: fl -> in_blk y b -> b ∉ cells al.
Proof.
  intros Hh Hy Hb Hin. unfold in_blk in Hb. pose proof Hh as [_ _ _ _ N1 R1 _]. rewrite cells_app in N1, R1.
  apply NoDup_app in N1 as (_ & N1 & _). apply elem_of_cons in Hy as [->|Hy].
  - apply Forall_app in R1 as [_ R1]. rewrite Forall_forall in R1. specialize (R1 b Hin). simpl in Hb. lia.
  - apply (N1 b); [|done]. apply elem_cells. exists y. split; [done|].
    destruct (heap_blk _ _ _ _ y Hh) as (_ & Y2 & _); [apply elem_of_app; by left|]. lia.
Qed.

Lemma carve_spec {W} (s : hst W) nunits l1 x y l2 fl al hi :
  heap (hmem s) fl al hi -> (base, 0) :: fl = l1 ++ x :: y :: l2 -> 1 <= nunits <= y.2 ->
  exists a s' fl', carve nunits x.1 y.1 s = (a + 16, s') /\ heap (hmem s') fl' ((a, nunits) :: al) hi /\
    on_list (freep s') fl' /\ hw s' = hw s /\ (forall b, b ∈ cells al -> rd (hmem s') b = rd (hmem s) b) /\ (length fl' <= length fl)%nat.
Proof.
  intros Hh E Hn. pose proof Hh as [S1 L1 _ _ _ _ B1]. set (m := hmem s) in *.
  assert (Hxl : x ∈ (base, 0) :: fl) by (rewrite E; apply elem_of_app; right; left).
  assert (Hyl : y ∈ (base, 0) :: fl) by (rewrite E; apply elem_of_app; right; right; left).
  assert (Hyf : y ∈ fl) by (destruct (proj1 (elem_of_cons _ _ _) Hyl) as [->|]; [simpl in Hn; lia|done]).
  destruct (heap_blk _ _ _ _ y Hh) as (Y1 & Y2 & Y3); [apply elem_of_app; by left|].
  rewrite E in S1, L1. apply links_app in L1 as [Lk1 (Hzx & Hpx & Hzy & Hpy & Lk2)]. cbn [first] in *.
  assert (Hxy : apart x.1 y.1).
  { rewrite cons_middle, app_assoc in S1. apply (sorted_apart _ _ _ x S1). left. apply elem_of_app. right. left. }
  assert (Hax : forall z, z ∈ l1 \/ z ∈ l2 -> apart z.1 x.1).
  { intros z Hz. apply (sorted_apart l1 x (y :: l2) z S1). destruct Hz; [by left|right; by right]. }
  assert (Hay : forall z, z ∈ l1 \/ z ∈ l2 -> apart z.1 y.1).
  { intros z Hz. rewrite cons_middle, app_assoc in S1. apply (sorted_apart _ _ _ z S1).
    destruct Hz; [left; apply elem_of_app; by left|by right]. }
  unfold carve. fold m. rewrite Hzy. cbv zeta. unfold hadd, SIZEOF_HEADER. destruct (Z.eqb_spec y.2 nunits) as [En|En].
  - set (m1 := set_hptr m x.1 (hptr m y.1)). destruct (heap_take m m1 l1 x y [] l2 y.1 nunits fl al hi) as (fl' & E' & Hh' & On & _ & Len);
      [done|done|by left| | | |].
    + unfold m1. rewrite hsize_hptr; [congruence|]. left. unfold apart in *. lia.
    + apply links_app. cbn [app first links]. unfold m1. split; [|split; [|split]].
      * eapply links_ext; [|exact Lk1]. intros z Hz. by rewrite hptr_hptr, hsize_hptr by auto.
      * by rewrite hsize_hptr by auto.
      * rewrite Hpy, hptr_same; [done|]. destruct l2 as [|z l2]; cbn [first]; [lia|].
        destruct (heap_blk _ _ _ _ z Hh) as (? & ? & ?); [|lia]. apply elem_of_app. left.
        assert (Hz : z ∈ (base, 0) :: fl) by (rewrite E; apply elem_of_app; right; right; right; left).
        apply elem_of_cons in Hz as [->|]; [|done]. exfalso.
        destruct (sorted_behind [] (base, 0) (base, 0) fl) as [_ ?]; [apply (hp_sorted _ _ _ _ Hh)| |simpl in *; lia].
        destruct l1; injection E as _ ->; [right; left|]. apply elem_of_app. right. right. right. left.
      * eapply links_ext; [|exact Lk2]. intros z Hz. by rewrite hptr_hptr, hsize_hptr by auto.
    + intros b Hb. apply rd_set_hptr. intros Hr. by eapply hdr_cells; [exact Hh|exact Hxl| |exact Hb].
    + exists y.1, (HSt m1 x.1 (hw s)), fl'. split; [by rewrite Z.mul_1_r|]. split; [done|]. split; [done|]. split; [done|]. split; [|done].
      intros b Hb. apply rd_set_hptr. intros Hr. by eapply hdr_cells; [exact Hh|exact Hxl| |exact Hb].
  - set (r := y.2 - nunits). set (m1 := set_hsize m y.1 r). assert (Hr : hsize m1 y.1 = r) by (apply hsize_same; lia). rewrite Hr.
    set (a := y.1 + 16 * r). set (m2 := set_hsize m1 a nunits). assert (Haa : apart a y.1) by (unfold apart, a, r; lia).
    assert (Hfa : forall z, z = x \/ z ∈ l1 \/ z ∈ l2 -> apart z.1 a).
    { intros z Hz. assert (Hb : before z y \/ before y z).
      { rewrite cons_middle, app_assoc in S1. destruct Hz as [->|[Hz|Hz]].
        - left. apply (sorted_before _ _ _ _ S1). apply elem_of_app. right. left.
        - left. apply (sorted_before _ _ _ _ S1). apply elem_of_app. by left.
        - right. by apply (sorted_behind _ _ _ _ S1). }
      unfold before, apart, a, r in *. lia. }
    assert (Hkeep : forall b, b ∈ cells al -> rd m2 b = rd m b).
    { intros b Hb. unfold m2, m1. rewrite !rd_set_hsize; [done| |].
      - intros Hr'. by eapply hdr_cells; [exact Hh|exact Hyl| |exact Hb].
      - intros Hr'. pose proof (hp_nodup _ _ _ _ Hh) as N1. rewrite cells_app in N1. apply NoDup_app in N1 as (_ & N1 & _).
        apply (N1 b); [|done]. apply elem_cells. exists y. split; [done|]. unfold a, r in Hr'. lia. }
    destruct (heap_take m m2 l1 x y [(y.1, r)] l2 a nunits fl al hi) as (fl' & E' & Hh' & On & _ & Len); [done|done| | | |done|].
    + right. exists r. unfold r. split_and!; (done || lia).
    + apply hsize_same. lia.
    + apply links_app. cbn [app first links fst snd]. unfold m2, m1. split; [|split; [|split; [|split; [|split]]]].
      * eapply links_ext; [|exact Lk1]. intros z Hz. assert (apart z.1 a) by auto. by rewrite !hptr_hsize, !hsize_hsize by auto.
      * assert (apart x.1 a) by auto. by rewrite !hsize_hsize by auto.
      * assert (apart x.1 a) by auto. by rewrite !hptr_hsize by auto.
      * rewrite hsize_hsize by (unfold apart in *; lia). done.
      * rewrite !hptr_hsize by (unfold apart in *; lia). done.
      * eapply links_ext; [|exact Lk2]. intros z Hz. assert (apart z.1 a) by auto. by rewrite !hptr_hsize, !hsize_hsize by auto.
    + exists a, (HSt m2 x.1 (hw s)), fl'. split; [by rewrite Z.mul_1_r|]. by split_and!.
Qed.

(** No two elements of the list have the same address. *)
Lemma addr_nodup m fl al hi : heap m fl al hi -> NoDup (fst <$> (base, 0) :: fl).
Proof.
  intros Hh. pose proof (hp_sorted _ _ _ _ Hh) as Hs. revert Hs. generalize ((base, 0) :: fl) as l. clear. induction l as [|x l IH]; intros Hs; [constructor|].
  apply StronglySorted_cons in Hs as [Hx Hs]. cbn [fmap list_fmap]. constructor; [|auto].
  intros (y & E & Hy)%list_elem_of_fmap. rewrite Forall_forall in Hx. destruct (Hx y Hy) as [_ ?]. lia.
Qed.
End Heap.

(** * The user allocator: theorems

    [malloc] and [free] on a heap that satisfies the invariant, and every
    sequence of them. *)

(** What the allocator relies on: [sbrk] of a positive number fails, or
    returns the old end of the memory, which it moves up. Memory is far
    smaller than 2^36 bytes. *)
Class SbrkOk (W : Type) `{Sbrk W} := {
  brk : W -> Z;
  sbrk_grows n w p w' : 0 <= n < 2 ^ 31 -> os_sbrk n w = (p, w') ->
    p = SBRK_FAILED /\ brk w' = brk w \/ p = brk w /\ brk w' = brk w + n;
  brk_max w : brk w <= 2 ^ 36;
}.

Section Loops.
Context {W : Type} `{SbrkOk W}.
Variable base : Z.
Implicit Types s : hst W.

(** The state between calls, once the list exists. *)
Definition hinv s (fl al : list blk) : Prop := heap base (hmem s) fl al (brk (hw s)) /\ on_list base (freep s) fl.

Definition kept (al : list blk) s s' : Prop := forall b, b ∈ cells al -> rd (hmem s') b = rd (hmem s) b.

Lemma heap_grow m fl al hi nu : heap base m fl al hi -> 1 <= nu -> hi + 16 * nu <= 2 ^ 36 ->
  heap base (set_hsize m hi nu) fl ((hi, nu) :: al) (hi + 16 * nu).
Proof.
  intros Hh Hn Hhi. pose proof Hh as [S1 L1 Z1 Al1 N1 R1 B1].
  assert (Hlow : forall x, x ∈ (base, 0) :: fl \/ x ∈ al -> apart x.1 hi).
  { intros x Hx. unfold apart. left. assert (Hc : x = (base, 0) \/ x ∈ fl ++ al).
    { rewrite elem_of_app. destruct Hx as [[->|?]%elem_of_cons|?]; auto. }
    destruct Hc as [->|Hc]; [simpl; lia|]. destruct (heap_blk _ _ _ _ _ x Hh Hc) as (? & ? & ?). lia. }
  assert (P : cells (fl ++ (hi, nu) :: al) ≡ₚ cells1 (hi, nu) ++ cells (fl ++ al)).
  { rewrite !cells_app, cells_cons. solve_Permutation. }
  split; [done| | | |rewrite P|rewrite P|lia].
  - eapply links_ext; [|exact L1]. intros x Hx. rewrite hptr_hsize, hsize_hsize by auto. done.
  - apply Forall_app in Z1 as [? ?]. apply Forall_app. split; [done|]. by constructor.
  - constructor; [cbn [fst snd]; apply hsize_same; lia|]. rewrite Forall_forall in Al1 |- *. intros x Hx. rewrite hsize_hsize by auto. auto.
  - apply NoDup_app. split; [apply NoDup_seqZ|]. split; [|done]. intros a Ha Hc. apply elem_cells1 in Ha. cbn [fst snd] in Ha.
    rewrite Forall_forall in R1. specialize (R1 a Hc). simpl in R1. lia.
  - apply Forall_app. split.
    + rewrite Forall_forall. intros a Ha. apply elem_cells1 in Ha. cbn [fst snd] in Ha. lia.
    + eapply Forall_impl; [exact R1|]. simpl. lia.
Qed.

Lemma free_wp fuel s fl al a c (Q : unit -> hst W -> Prop) :
  hinv s fl ((a, c) :: al) -> (length fl < fuel)%nat ->
  (forall s' fl', hinv s' fl' al -> kept al s s' -> hw s' = hw s -> (length fl' <= S (length fl))%nat ->
     (exists x, x ∈ fl' /\ c <= x.2) -> Q tt s') ->
  wp (free fuel (a + 16)) s Q.
Proof.
  intros [Hh Hp] Hf HQ. unfold wp, free. unfold SIZEOF_HEADER. replace (a + 16 - 16) with a by lia.
  destruct (heap_free base _ _ _ _ _ _ _ fuel Hh Hp Hf) as (p & -> & fl' & Hh' & On & Hk & _ & Len & Big).
  by apply (HQ _ fl').
Qed.

Lemma morecore_wp fuel nu s fl al (Q : Z -> hst W -> Prop) :
  hinv s fl al -> 1 <= nu -> 16 * nu < 2 ^ 31 -> (length fl < fuel)%nat ->
  (forall s', hinv s' fl al -> kept al s s' -> Q 0 s') ->
  (forall s' fl', hinv s' fl' al -> kept al s s' -> (length fl' <= S (length fl))%nat ->
     (exists x, x ∈ fl' /\ nu <= x.2) -> Q (freep s') s') ->
  wp (morecore fuel nu) s Q.
Proof.
  intros [Hh Hp] Hn Hs Hf Q0 Q1. unfold morecore. set (k := if nu <? 4096 then 4096 else nu).
  assert (Hk : nu <= k /\ 16 * k < 2 ^ 31) by (unfold k; destruct (Z.ltb_spec nu 4096); lia).
  wp_step. unfold wp at 1. unfold SIZEOF_HEADER. rewrite i32_small by lia. destruct (os_sbrk (k * 16) (hw s)) as [p w] eqn:Eo.
  apply sbrk_grows in Eo; [|lia]. pose proof (hp_base _ _ _ _ _ Hh) as Hb. destruct Eo as [[-> Ew]|[-> Ew]].
  - rewrite Z.eqb_refl. apply wp_ret. apply Q0; [|done]. split; [cbn [hmem hw]; by rewrite Ew|done].
  - destruct (Z.eqb_spec (brk (hw s)) SBRK_FAILED) as [E|_]; [unfold SBRK_FAILED in E; lia|]. wp_step. wp_step. wp_step.
    cbn [hmem freep hw]. replace (hadd (brk (hw s)) 1) with (brk (hw s) + 16) by (unfold hadd, SIZEOF_HEADER; lia).
    pose proof (brk_max w) as Hm. assert (Hg : hinv (HSt (set_hsize (hmem s) (brk (hw s)) k) (freep s) w) fl ((brk (hw s), k) :: al)).
    { split; [|done]. cbn [hmem hw]. replace (brk w) with (brk (hw s) + 16 * k) in * by lia. apply heap_grow; [done|lia|lia]. }
    eapply (free_wp fuel _ fl al); [exact Hg|done|]. intros s' fl' Hi Hk' Hw Len (x & Hx & Hcx). wp_step. apply (Q1 s' fl'); [done| |done|].
    + intros b Hb'. rewrite (Hk' b Hb'). cbn [hmem]. apply rd_set_hsize. intros Hr.
      pose proof (hp_range _ _ _ _ _ Hh) as R1. rewrite Forall_forall in R1. specialize (R1 b). rewrite cells_app in R1.
      destruct R1; [apply elem_of_app; by right|]. lia.
    + exists x. split; [done|lia].
Qed.

(** What a call leaves. *)
Definition malloc_post nunits s (n : nat) (al : list blk) (r : Z) s' : Prop :=
  kept al s s' /\ exists fl', (length fl' <= n)%nat /\
    ((r = 0 /\ hinv s' fl' al) \/ (exists a, r = a + 16 /\ hinv s' fl' ((a, nunits) :: al))).

Lemma malloc_post_trans nunits s s1 n n1 al r s' :
  kept al s s1 -> (n1 <= n)%nat -> malloc_post nunits s1 n1 al r s' -> malloc_post nunits s n al r s'.
Proof.
  intros K1 Hn (K2 & fl' & Len & Hp). split; [intros b Hb; rewrite K2 by done; auto|]. exists fl'. split; [lia|done].
Qed.

(** A block that fits, found behind [x]. *)
Lemma found_wp fuel nunits s fl al i x y (Q : Z -> hst W -> Prop) :
  hinv s fl al -> 1 <= nunits -> ((base, 0) :: fl) !! i = Some x -> ((base, 0) :: fl) !! nx (S (length fl)) i = Some y ->
  nunits <= y.2 -> (0 < fuel)%nat -> (forall r s', malloc_post nunits s (length fl) al r s' -> Q r s') ->
  wp (malloc_loop fuel nunits x.1 y.1) s Q.
Proof.
  intros [Hh Hp] Hn Hx Hy Hfit Hf HQ. destruct fuel as [|f]; [lia|]. cbn [malloc_loop]. wp_step. wp_step.
  destruct (links_lookup _ _ _ _ _ (hp_links _ _ _ _ _ Hh) Hy) as [-> _]. rewrite (proj2 (Z.leb_le _ _) Hfit).
  assert (Ei : nx (S (length fl)) i = S i).
  { unfold nx in *. destruct (Nat.eqb_spec (S i) (S (length fl))); [|done]. injection Hy as <-. simpl in Hfit. lia. }
  rewrite Ei in Hy. pose proof (take_drop_middle _ _ _ Hx) as E. rewrite (drop_S _ y) in E by done.
  destruct (carve_spec base s nunits _ x y _ fl al (brk (hw s)) Hh (eq_sym E)) as (a & s' & fl' & Ec & Hh' & On & Ew & Hk & Len); [lia|].
  unfold wp. rewrite Ec. apply HQ. split; [done|]. exists fl'. split; [done|]. right. exists a. split; [done|]. split; [|done]. by rewrite Ew.
Qed.

(** The rest of a round, with a block that fits somewhere on the way. *)
Lemma round_wp nunits e : forall s fl al i x d f fuel (Q : Z -> hst W -> Prop), let len := S (length fl) in let l := (base, 0) :: fl in
  hinv s fl al -> 1 <= nunits -> l !! i = Some x -> hop len d (nx len i) = f -> (e <= d < len)%nat ->
  (exists z, l !! f = Some z /\ z.1 = freep s) -> (exists z, l !! hop len e (nx len i) = Some z /\ nunits <= z.2) -> (e < fuel)%nat ->
  (forall r s', malloc_post nunits s (length fl) al r s' -> Q r s') ->
  wp (malloc_loop fuel nunits x.1 (hptr (hmem s) x.1)) s Q.
Proof.
  induction e as [|e IH]; intros s fl al i x d f fuel Q len l Hi Hn Hx Hd Hde Hf Hg Hfu HQ; pose proof (hp_links _ _ _ _ _ (proj1 Hi)) as Hl.
  - destruct Hg as (z & Hz & Hfit). destruct (ublock_next base _ l i x Hl Hx) as (y & Hy & ->). simpl in Hz.
    change (length l) with len in Hy. rewrite Hy in Hz. injection Hz as ->. by eapply (found_wp fuel nunits s fl al i x z).
  - destruct (ublock_next base _ l i x Hl Hx) as (y & Hy & ->). change (length l) with len in Hy.
    destruct (Z_le_gt_dec nunits y.2) as [Hfit|Hsmall]; [by eapply (found_wp fuel nunits s fl al i x y); try done; lia|].
    destruct fuel as [|fuel]; [lia|]. cbn [malloc_loop]. wp_step. wp_step.
    destruct (links_lookup _ _ _ _ _ Hl Hy) as [-> _]. destruct (Z.leb_spec nunits y.2) as [|_]; [lia|]. wp_step. wp_step.
    destruct Hf as (z & Hz & Ez). destruct (Z.eqb_spec y.1 (freep s)) as [E|Hne].
    + exfalso. destruct d as [|d]; [lia|]. assert (Hlt : (nx len i < len)%nat) by (apply lookup_lt_Some in Hy; done).
      apply (hop_inj len (nx len i) (S d)); [done|lia|]. rewrite Hd.
      eapply (NoDup_lookup (fst <$> l)); [apply (addr_nodup base (hmem s) fl al (brk (hw s))), Hi|rewrite list_lookup_fmap, Hz; done|].
      rewrite list_lookup_fmap, Hy. cbn. by rewrite E, Ez.
    + destruct d as [|d]; [lia|]. eapply (IH s fl al (nx len i) y d f fuel); try done; [lia|by exists z|lia].
Qed.

(** A whole round ends where it began. *)
Lemma hop_round len i : (i < len)%nat -> hop len (len - 1) (nx len i) = i.
Proof.
  intros Hi. unfold nx. destruct (Nat.eqb_spec (S i) len) as [E|E].
  - rewrite hop_up; lia.
  - replace (len - 1)%nat with ((len - S i) + i)%nat by lia. rewrite hop_add, hop_home by lia. rewrite hop_up; lia.
Qed.

(** [p] is on the list, at some position. *)
Lemma on_list_index p fl : on_list base p fl -> exists i x, ((base, 0) :: fl) !! i = Some x /\ x.1 = p.
Proof.
  unfold on_list. change (base :: (fst <$> fl)) with (fst <$> ((base, 0) :: fl)). intros (x & -> & Hx)%list_elem_of_fmap.
  apply list_elem_of_lookup in Hx as [i Hi]. by exists i, x.
Qed.

(** A round from [freep] in a list with a block that fits. *)
Lemma full_round_wp nunits s fl al fuel (Q : Z -> hst W -> Prop) :
  hinv s fl al -> 1 <= nunits -> (exists z, z ∈ fl /\ nunits <= z.2) -> (length fl < fuel)%nat ->
  (forall r s', malloc_post nunits s (length fl) al r s' -> Q r s') ->
  wp (malloc_loop fuel nunits (freep s) (hptr (hmem s) (freep s))) s Q.
Proof.
  intros Hi Hn (z & Hz & Hfit) Hf HQ. destruct (on_list_index _ _ (proj2 Hi)) as (i & x & Hx & Ex). rewrite <- Ex.
  pose proof (lookup_lt_Some _ _ _ Hx) as Hlt. cbn [length] in Hlt. set (len := S (length fl)) in *.
  apply list_elem_of_lookup in Hz as [j Hj]. pose proof (lookup_lt_Some _ _ _ Hj) as Hjl.
  destruct (hop_reach len (nx len i) (S j)) as (e & He & Hw); [by apply nx_lt|lia|].
  eapply (round_wp nunits e s fl al i x (len - 1) i); try done; [by apply hop_round|lia|by exists x| |lia].
  exists z. unfold len in Hw. by rewrite Hw.
Qed.

(** At the end of a round: the memory grows, and one more round follows. *)
Lemma end_round_wp fuel f nunits s fl al (Q : Z -> hst W -> Prop) :
  hinv s fl al -> 1 <= nunits -> 16 * nunits < 2 ^ 31 -> (S (length fl) < f)%nat -> (f < fuel)%nat ->
  (forall r s', malloc_post nunits s (S (length fl)) al r s' -> Q r s') ->
  wp (bind (morecore fuel nunits) (fun p => if p =? 0 then ret 0 else bind (gets hmem) (fun m => malloc_loop f nunits p (hptr m p)))) s Q.
Proof.
  intros Hi Hn Hs Hf Hff HQ. wp_step. apply (morecore_wp fuel nunits s fl al); [done|done|done|lia| |].
  - intros s' Hi' K. rewrite Z.eqb_refl. apply wp_ret. apply HQ. split; [done|]. exists fl. split; [lia|]. by left.
  - intros s' fl' Hi' K Len Hbig. destruct (Z.eqb_spec (freep s') 0) as [E|_].
    + apply wp_ret. apply HQ. split; [done|]. exists fl'. split; [done|]. by left.
    + wp_step. wp_step. eapply (full_round_wp nunits s' fl' al); [done|done|done|lia|]. intros r s'' Hp. apply HQ.
      by eapply malloc_post_trans.
Qed.

(** The first round: a block that fits, or the end of the round. *)
Lemma first_round_wp nunits d : forall s fl al i x f fuel (Q : Z -> hst W -> Prop), let len := S (length fl) in let l := (base, 0) :: fl in
  hinv s fl al -> 1 <= nunits -> 16 * nunits < 2 ^ 31 -> l !! i = Some x -> hop len d (nx len i) = f ->
  (exists z, l !! f = Some z /\ z.1 = freep s) -> (d + len + 2 < fuel)%nat ->
  (forall r s', malloc_post nunits s (S (length fl)) al r s' -> Q r s') ->
  wp (malloc_loop fuel nunits x.1 (hptr (hmem s) x.1)) s Q.
Proof.
  induction d as [|d IH]; intros s fl al i x f fuel Q len l Hi Hn Hs Hx Hd Hf Hfu HQ; pose proof (hp_links _ _ _ _ _ (proj1 Hi)) as Hl;
    destruct (ublock_next base _ l i x Hl Hx) as (y & Hy & ->); change (length l) with len in Hy;
    (destruct (Z_le_gt_dec nunits y.2) as [Hfit|Hsmall];
      [eapply (found_wp fuel nunits s fl al i x y); try done; [lia|]; intros r s' Hp; apply HQ;
       by eapply malloc_post_trans; [|apply Nat.le_succ_diag_r|exact Hp]|]);
    (destruct fuel as [|fuel]; [lia|]); cbn [malloc_loop]; wp_step; wp_step;
    destruct (links_lookup _ _ _ _ _ Hl Hy) as [Ey _]; rewrite Ey;
    (destruct (Z.leb_spec nunits y.2) as [|_]; [lia|]); wp_step; wp_step; destruct Hf as (z & Hz & Ez).
  - simpl in Hd. subst f. rewrite Hy in Hz. injection Hz as ->. rewrite (proj2 (Z.eqb_eq _ _) Ez). apply (end_round_wp (S fuel) fuel nunits s fl al); (done || lia).
  - destruct (Z.eqb_spec y.1 (freep s)) as [E|Hne]; [apply (end_round_wp (S fuel) fuel nunits s fl al); (done || lia)|].
    eapply (IH s fl al (nx len i) y f fuel); try done; [by exists z|lia].
Qed.

(** malloc: 0, or a block of enough units that nobody has. *)
Definition units (nbytes : Z) : Z := (nbytes + 15) / 16 + 1.

Lemma units_bounds nbytes : 0 <= nbytes < 2 ^ 31 - 32 -> 1 <= units nbytes /\ nbytes + 16 <= 16 * units nbytes < 2 ^ 31.
Proof. unfold units. intros Hn. zdm. Qed.

Lemma malloc_wp nbytes s fl al fuel (Q : Z -> hst W -> Prop) :
  hinv s fl al -> 0 <= nbytes < 2 ^ 31 - 32 -> (2 * length fl + 4 < fuel)%nat ->
  (forall r s', malloc_post (units nbytes) s (S (length fl)) al r s' -> Q r s') ->
  wp (malloc base fuel nbytes) s Q.
Proof.
  intros Hi Hn Hf HQ. unfold malloc. destruct (units_bounds nbytes Hn) as [U1 U2].
  assert (Eu : u32 ((u32 nbytes + SIZEOF_HEADER - 1) / SIZEOF_HEADER + 1) = units nbytes).
  { unfold SIZEOF_HEADER. rewrite (u32_small nbytes) by lia. unfold units in *. replace (nbytes + 16 - 1) with (nbytes + 15) by lia. apply u32_small. lia. }
  rewrite Eu. assert (Hp : 0 < freep s).
  { destruct (on_list_index _ _ (proj2 Hi)) as (i & x & Hx & Ex). rewrite <- Ex. pose proof (hp_base _ _ _ _ _ (proj1 Hi)).
    destruct i as [|i]; [injection Hx as <-; simpl; lia|]. destruct (heap_blk _ _ _ _ _ x (proj1 Hi)); [|lia].
    apply elem_of_app. left. exact (list_elem_of_lookup_2 fl i x Hx). }
  wp_step. unfold wp at 1. rewrite (proj2 (Z.eqb_neq _ _)) by lia. wp_step. wp_step. wp_step. wp_step.
  destruct (on_list_index _ _ (proj2 Hi)) as (i & x & Hx & Ex). rewrite <- Ex. pose proof (lookup_lt_Some _ _ _ Hx) as Hlt. cbn [length] in Hlt.
  eapply (first_round_wp (units nbytes) (S (length fl) - 1) s fl al i x i); try done; [lia|by apply hop_round|by exists x|lia].
Qed.

(** ** The first call *)

Definition no_list s : Prop := freep s = 0 /\ 0 < base /\ base + 16 <= brk (hw s).

Lemma heap_first m hi : 0 < base -> base + 16 <= hi <= 2 ^ 36 -> heap base (set_hsize (set_hptr m base base) base 0) [] [] hi.
Proof.
  intros Hb Hhi. split; cbn [app]; [by repeat constructor| |constructor|constructor|constructor|constructor|done]. cbn. rewrite hsize_same by lia. rewrite hptr_hsize by auto.
  rewrite hptr_same by lia. done.
Qed.

Lemma malloc_first_wp nbytes s fuel (Q : Z -> hst W -> Prop) :
  no_list s -> 0 <= nbytes < 2 ^ 31 - 32 -> (4 < fuel)%nat ->
  (forall r s', malloc_post (units nbytes) s 1 [] r s' -> Q r s') -> wp (malloc base fuel nbytes) s Q.
Proof.
  intros (Hf & Hb & Hhi) Hn Hfu HQ. set (s1 := HSt (set_hsize (set_hptr (hmem s) base base) base 0) base (hw s)).
  assert (E : malloc base fuel nbytes s = malloc base fuel nbytes s1).
  { unfold malloc, bind. rewrite Hf. change (freep s1) with base. rewrite (proj2 (Z.eqb_neq base 0)) by lia. done. }
  unfold wp. rewrite E. apply (malloc_wp nbytes s1 [] []); [|done|simpl; lia|].
  - split; [|left]. apply (heap_first (hmem s) (brk (hw s))); [done|]. pose proof (brk_max (hw s)). lia.
  - intros r s' Hp. apply HQ. eapply (malloc_post_trans _ s s1); [|reflexivity|exact Hp]. intros b Hc. by apply elem_of_nil in Hc.
Qed.

(** ** Clients *)

Lemma heap_perm m fl al al' hi : al ≡ₚ al' -> heap base m fl al hi -> heap base m fl al' hi.
Proof.
  intros E [S1 L1 Z1 A1 N1 R1 B1].
  assert (P : cells (fl ++ al) ≡ₚ cells (fl ++ al')) by (rewrite !cells_app; unfold cells at 2 4; by rewrite E).
  split; try done; [by rewrite <- E|by rewrite <- E|by rewrite <- P|by rewrite <- P].
Qed.

(** A byte of a block given out, behind its header. *)
Definition payload (x : blk) (b : Z) : Prop := x.1 + 16 <= b < x.1 + 16 * x.2.

Lemma heap_write m fl al hi x b v : heap base m fl al hi -> x ∈ al -> payload x b -> heap base (wr m b v) fl al hi.
Proof.
  intros Hh Hx Hb. pose proof Hh as [S1 L1 Z1 A1 N1 R1 B1]. unfold payload in Hb.
  assert (Hin : b ∈ cells al) by (apply elem_cells; exists x; split; [done|lia]).
  split; try done.
  - eapply links_ext; [|exact L1]. intros y Hy. apply hdr_ext. intros a Ha. apply rd_wr_ne. intros <-.
    by eapply (hdr_cells base m fl al hi y b).
  - rewrite Forall_forall in A1 |- *. intros y Hy. rewrite <- (A1 y Hy). apply hdr_ext. intros a Ha. apply rd_wr_ne. intros <-.
    apply Forall_app in Z1 as [_ Z1]. rewrite Forall_forall in Z1. specialize (Z1 y Hy).
    destruct (decide (x = y)) as [->|Hne]; [lia|]. rewrite cells_app in N1. apply NoDup_app in N1 as (_ & _ & N1).
    apply list_elem_of_split in Hx as (u1 & u2 & ->). rewrite cells_app, cells_cons in N1. apply NoDup_app in N1 as (_ & Na & Nb).
    apply NoDup_app in Nb as (_ & Nb & _). assert (Hbx : b ∈ cells1 x) by (apply elem_cells1; lia).
    apply elem_of_app in Hy as [Hy|[->|Hy]%elem_of_cons]; [|done|].
    + apply (Na b); [apply elem_cells; exists y; split; [done|lia]|]. apply elem_of_app. by left.
    + apply (Nb b); [done|]. apply elem_cells. exists y. split; [done|lia].
Qed.

(** A program that uses the allocator: the blocks it holds and what it has
    written to them. *)
Record client := Client { c_heap : hst W; c_held : list blk; c_data : gmap Z Z }.

Inductive uses (fuel : nat) : nat -> client -> Prop :=
  | uses_start s : no_list s -> uses fuel 0 (Client s [] ∅)
  | uses_malloc n c nbytes r s' : uses fuel n c -> 0 <= nbytes < 2 ^ 31 - 32 ->
      malloc base fuel nbytes (c_heap c) = Ok r s' ->
      uses fuel (S n) (Client s' (if r =? 0 then c_held c else (r - 16, units nbytes) :: c_held c) (c_data c))
  | uses_free n c l1 x l2 s' : uses fuel n c -> c_held c = l1 ++ x :: l2 ->
      free fuel (x.1 + 16) (c_heap c) = Ok tt s' ->
      uses fuel (S n) (Client s' (l1 ++ l2) (filter (fun kv => kv.1 ∉ cells1 x) (c_data c)))
  | uses_write n c x b v : uses fuel n c -> x ∈ c_held c -> payload x b -> 0 <= v < 256 ->
      uses fuel n (Client (HSt (wr (hmem (c_heap c)) b v) (freep (c_heap c)) (hw (c_heap c))) (c_held c) (<[b := v]> (c_data c))).

Definition data_ok (c : client) : Prop :=
  forall b v, c_data c !! b = Some v -> rd (hmem (c_heap c)) b = v /\ b ∈ cells (c_held c).

Definition client_ok (n : nat) (c : client) : Prop :=
  data_ok c /\
  ((no_list (c_heap c) /\ c_held c = []) \/ exists fl, (length fl <= n)%nat /\ hinv (c_heap c) fl (c_held c)).

Lemma malloc_client fuel n c nbytes (Q : Z -> hst W -> Prop) :
  client_ok n c -> 0 <= nbytes < 2 ^ 31 - 32 -> (2 * n + 4 < fuel)%nat ->
  (forall r s', malloc_post (units nbytes) (c_heap c) (S n) (c_held c) r s' -> Q r s') -> wp (malloc base fuel nbytes) (c_heap c) Q.
Proof.
  intros [_ [[Hno ->]|(fl & Len & Hi)]] Hn Hf HQ.
  - apply malloc_first_wp; [done|done|lia|]. intros r s' Hp. apply HQ. eapply malloc_post_trans; [|apply le_n_S, Nat.le_0_l|exact Hp]. done.
  - apply (malloc_wp nbytes _ fl (c_held c)); [done|done|lia|]. intros r s' Hp. apply HQ.
    eapply malloc_post_trans; [|apply le_n_S, Len|exact Hp]. done.
Qed.

Lemma free_client fuel n c l1 x l2 (Q : unit -> hst W -> Prop) :
  client_ok n c -> c_held c = l1 ++ x :: l2 -> (n < fuel)%nat ->
  (forall s' fl', hinv s' fl' (l1 ++ l2) -> kept (l1 ++ l2) (c_heap c) s' -> (length fl' <= S n)%nat -> Q tt s') ->
  wp (free fuel (x.1 + 16)) (c_heap c) Q.
Proof.
  intros [_ [[_ E]|(fl & Len & Hi & On)]] El Hf HQ; [rewrite E in El; by destruct l1|]. destruct x as [a k]. cbn [fst].
  eapply (free_wp fuel _ fl (l1 ++ l2) a k); [|lia|].
  - split; [|done]. eapply heap_perm; [|exact Hi]. rewrite El. by rewrite <- Permutation_middle.
  - intros s' fl' Hi' Hk _ Len' _. apply (HQ s' fl'); [done|done|lia].
Qed.

Lemma uses_ok fuel n c : uses fuel n c -> (2 * n + 4 < fuel)%nat -> client_ok n c.
Proof.
  induction 1 as [s Hno|n c nbytes r s' Hu IH Hn Em|n c l1 x l2 s' Hu IH El Ef|n c x b v Hu IH Hx Hb Hv]; intros Hf.
  - split; [intros b v Hd; cbn [c_data] in Hd; by rewrite lookup_empty in Hd|]. by left.
  - specialize (IH ltac:(lia)). pose proof (proj1 IH) as Hd.
    assert (W0 : wp (malloc base fuel nbytes) (c_heap c) (malloc_post (units nbytes) (c_heap c) (S n) (c_held c)))
      by (apply (malloc_client fuel n c); [done|done|lia|done]).
    unfold wp in W0. rewrite Em in W0. destruct W0 as (K & fl' & Len & Hcase). split.
    + intros b v Hl. destruct (Hd b v Hl) as [E1 E2]. cbn [c_heap c_held]. split; [by rewrite K|].
      destruct (r =? 0); [done|]. rewrite cells_cons. apply elem_of_app. by right.
    + right. exists fl'. split; [done|]. cbn [c_heap c_held]. destruct Hcase as [[-> Hi]|(a & -> & Hi)]; [done|].
      destruct (Z.eqb_spec (a + 16) 0) as [E|_]; [|by replace (a + 16 - 16) with a by lia].
      destruct (heap_blk _ _ _ _ _ (a, units nbytes) (proj1 Hi)) as (A1 & _ & _); [apply elem_of_app; right; left|].
      pose proof (hp_base _ _ _ _ _ (proj1 Hi)). simpl in A1. lia.
  - specialize (IH ltac:(lia)). pose proof (proj1 IH) as Hd.
    assert (W0 : wp (free fuel (x.1 + 16)) (c_heap c) (fun _ s' => exists fl', hinv s' fl' (l1 ++ l2) /\ kept (l1 ++ l2) (c_heap c) s' /\ (length fl' <= S n)%nat)).
    { apply (free_client fuel n c l1 x l2); [done|done|lia|]. intros s1 fl' H1 H2 H3. by exists fl'. }
    unfold wp in W0. rewrite Ef in W0. destruct W0 as (fl' & Hi & K & Len). split; [|right; by exists fl'].
    intros b v [Hl Hno]%map_lookup_filter_Some. destruct (Hd b v Hl) as [E1 E2]. cbn [c_heap c_held fst] in *.
    assert (Hb : b ∈ cells (l1 ++ l2)).
    { rewrite El, cells_app, cells_cons in E2. rewrite cells_app. apply elem_of_app. apply elem_of_app in E2 as [?|[?|?]%elem_of_app]; auto. done. }
    split; [by rewrite K|done].
  - specialize (IH Hf). destruct IH as [Hd Hc]. destruct Hc as [[_ E]|(fl & Len & Hi & On)]; [rewrite E in Hx; by apply elem_of_nil in Hx|]. split.
    + intros a w. cbn [c_heap c_held c_data hmem]. intros [[<- <-]|[Hne Hl]]%lookup_insert_Some.
      * rewrite rd_wr_eq, u8_small by done. split; [done|]. apply elem_cells. exists x. split; [done|]. unfold payload in Hb. lia.
      * rewrite rd_wr_ne by done. by apply Hd.
    + right. exists fl. split; [done|]. split; [|done]. cbn [c_heap c_held hmem freep hw]. by apply (heap_write _ _ _ _ x).
Qed.

Lemma nodup_disjoint l i j x y : NoDup (cells l) -> Forall (fun z : blk => 1 <= z.2) l -> i <> j -> l !! i = Some x -> l !! j = Some y ->
  x.1 + 16 * x.2 <= y.1 \/ y.1 + 16 * y.2 <= x.1.
Proof.
  intros Hn Hz Hij Hx Hy. pose proof (take_drop_middle _ _ _ Hx) as E.
  assert (Hy' : y ∈ take i l \/ y ∈ drop (S i) l).
  { destruct (decide (j < i)%nat); [left|right]; apply list_elem_of_lookup; [exists j; by rewrite lookup_take_lt|].
    exists (j - S i)%nat. rewrite lookup_drop. by replace (S i + (j - S i))%nat with j by lia. }
  rewrite Forall_forall in Hz. pose proof (Hz x (list_elem_of_lookup_2 _ _ _ Hx)). pose proof (Hz y (list_elem_of_lookup_2 _ _ _ Hy)).
  rewrite <- E in Hn. destruct Hy' as [Hy'|Hy'].
  - destruct (cells_clash (take i l) (x :: drop (S i) l) y x Hn Hy'); [left|done|done|lia|lia].
  - rewrite cons_middle, app_assoc in Hn. apply (cells_clash (take i l ++ [x]) (drop (S i) l)); try done.
    apply elem_of_app. right. left.
Qed.

(** C8: the allocator is safe for every program that frees only blocks it
    holds and writes only inside them. After any number of calls, two blocks
    held never overlap, all lie between the allocator's own data and the end
    of the memory, every byte the program has written to a block it still
    holds is unchanged, and the next call returns: [malloc] of any size below
    2^31 - 32 bytes, whose blocks have room for as many bytes behind the
    header, and [free] of any block held. *)
Theorem umalloc_safe fuel n c :
  uses fuel n c -> (2 * n + 4 < fuel)%nat ->
  (forall i j x y, i <> j -> c_held c !! i = Some x -> c_held c !! j = Some y ->
     x.1 + 16 * x.2 <= y.1 \/ y.1 + 16 * y.2 <= x.1) /\
  (forall x, x ∈ c_held c -> base + 16 <= x.1 /\ 1 <= x.2 /\ x.1 + 16 * x.2 <= brk (hw (c_heap c))) /\
  (forall b v, c_data c !! b = Some v -> rd (hmem (c_heap c)) b = v) /\
  (forall nbytes, 0 <= nbytes < 2 ^ 31 - 32 -> exists r s', malloc base fuel nbytes (c_heap c) = Ok r s' /\
     nbytes <= 16 * (units nbytes - 1)) /\
  (forall x, x ∈ c_held c -> exists s', free fuel (x.1 + 16) (c_heap c) = Ok tt s').
Proof.
  intros Hu Hf. pose proof (uses_ok fuel n c Hu Hf) as Hc. pose proof Hc as [Hd Hcase]. split_and!.
  - intros i j x y Hij Hx Hy. destruct Hcase as [[_ E]|(fl & _ & [_ _ Z1 _ N1 _ _] & _)]; [by rewrite E in Hx|].
    rewrite cells_app in N1. apply NoDup_app in N1 as (_ & _ & N1). apply Forall_app in Z1 as [_ Z1]. by eapply nodup_disjoint.
  - intros x Hx. destruct Hcase as [[_ E]|(fl & _ & Hh & _)]; [rewrite E in Hx; by apply elem_of_nil in Hx|].
    destruct (heap_blk _ _ _ _ _ x Hh) as (? & ? & ?); [apply elem_of_app; by right|]. done.
  - intros b v Hl. by apply Hd.
  - intros nbytes Hn. assert (W0 : wp (malloc base fuel nbytes) (c_heap c) (fun _ _ => True)) by (by apply (malloc_client fuel n c)).
    apply wp_ok in W0 as (r & s' & E & _). exists r, s'. split; [done|]. destruct (units_bounds nbytes Hn). lia.
  - intros x Hx. apply list_elem_of_split in Hx as (l1 & l2 & E).
    assert (W0 : wp (free fuel (x.1 + 16)) (c_heap c) (fun _ _ => True)) by (by apply (free_client fuel n c l1 x l2); [| |lia|]).
    apply wp_ok in W0 as ([] & s' & E' & _). by exists s'.
Qed.
End Loops.

(** ** Example *)

(** A process whose memory can grow to 1 MB. *)
#[export] Instance ex_sbrk : Sbrk Z := fun n w => if (0 <=? n) && (w + n <=? 2 ^ 20) then (w, w + n) else (SBRK_FAILED, w).

#[export] Instance ex_sbrk_ok : SbrkOk Z.
Proof.
  refine {| brk w := Z.min w (2 ^ 20) |}.
  - intros n w p w' Hn. unfold os_sbrk, ex_sbrk. destruct (Z.leb_spec 0 n), (Z.leb_spec (w + n) (2 ^ 20)); cbn [andb]; intros [= <- <-]; lia.
  - intros w. lia.
Defined.

(** The program has called malloc(100) once and written to the block. *)
Definition ex_malloc : Z * hst Z :=
  match malloc 0x2000 20 100 (HSt ∅ 0 0x3000) with Ok r s => (r, s) | Fail _ => (0, HSt ∅ 0 0) end.
Definition ex_holder : client (W := Z) :=
  Client ex_malloc.2 (if ex_malloc.1 =? 0 then [] else [(ex_malloc.1 - 16, units 100)]) ∅.
Definition ex_client : client (W := Z) :=
  Client (HSt (wr (hmem (c_heap ex_holder)) ex_malloc.1 42) (freep (c_heap ex_holder)) (hw (c_heap ex_holder)))
    (c_held ex_holder) (<[ex_malloc.1 := 42]> (c_data ex_holder)).

Lemma umalloc_safe_witness :
  rd (hmem (c_heap ex_client)) ex_malloc.1 = 42 /\
  exists r s', malloc 0x2000 20 200 (c_heap ex_client) = Ok r s' /\ 200 <= 16 * (units 200 - 1).
Proof.
  assert (Hh : c_held ex_holder = [(ex_malloc.1 - 16, units 100)]) by (vm_compute; reflexivity).
  assert (Em : malloc 0x2000 20 100 (HSt ∅ 0 0x3000) = Ok ex_malloc.1 ex_malloc.2) by (vm_compute; reflexivity).
  assert (H1 : uses 0x2000 20 1 ex_holder).
  { assert (H0 : uses 0x2000 20 0 (Client (HSt ∅ 0 0x3000) [] ∅)) by (apply uses_start; split; [reflexivity|split; [lia|vm_compute; discriminate]]).
    pose proof (uses_malloc 0x2000 20 0 (Client (HSt ∅ 0 0x3000) [] ∅) 100 ex_malloc.1 ex_malloc.2 H0) as H1.
    exact (H1 ltac:(lia) Em). }
  assert (H2 : uses 0x2000 20 1 ex_client).
  { refine (uses_write 0x2000 20 1 ex_holder (ex_malloc.1 - 16, units 100) ex_malloc.1 42 H1 _ _ _); [rewrite Hh; left| |lia].
    split; vm_compute; [discriminate|reflexivity]. }
  destruct (umalloc_safe 0x2000 20 1 ex_client H2 ltac:(lia)) as (_ & _ & A3 & A4 & _).
  split; [apply A3, lookup_insert_eq|apply (A4 200); lia].
Defined.
