(* ===== verification/Sh.v ===== *)
(** * The shell's parser

    [gettoken], [peek], the parsing routines and [nulterminate] of
    [user/sh.c].  The line is a NUL-terminated string that ends at [es]; the
    state of the parser is the position [*ps].  [panic] is the error [EPanic].
    A node of a command holds the addresses of its words, start and end. *)

From S2P Require Import Prelude Mem CString Riscv ULib.

Definition MAXARGS : nat := 10.
Definition whitespace : list Z := [32; 9; 13; 10; 11].
Definition symbols : list Z := str "<|>&;()".


(** file, efile, mode, fd *)
Record redir := MkRedir { r_file : Z; r_efile : Z; r_mode : Z; r_fd : Z }.

Inductive cmd :=
  | EXEC (argv : list (Z * Z))          (** argv[i] and eargv[i] *)
  | REDIR (c : cmd) (r : redir)
  | PIPE (left right : cmd)
  | LIST (left right : cmd)
  | BACK (c : cmd).

(** strchr in a constant string; NUL is not found. *)
Definition is_in (toks : list Z) (c : Z) : bool := existsb (Z.eqb c) toks.

(** Redirections wrapped around a command, the first innermost. *)
Definition redirect (c : cmd) (rs : list redir) : cmd := foldl REDIR c rs.

Section Parser.
Variables (m : mem) (es : Z).
Local Open Scope kernel_scope.

(** while(s < es && p( *s)) s++ *)
Fixpoint skip_loop (p : Z -> bool) (n : nat) (s : Z) : Z :=
  match n with
  | O => s
  | S n => if p (rd m s) then skip_loop p n (s + 1) else s
  end.
Definition skip (p : Z -> bool) (s : Z) : Z := skip_loop p (Z.to_nat (es - s)) s.
Definition skip_space : Z -> Z := skip (is_in whitespace).

(** The kind of the token at [s] and its end. *)
Definition token (s : Z) : Z * Z :=
  let c := rd m s in
  if c =? 0 then (0, s)
  else if is_in (str "|();&<") c then (c, s + 1)
  else if c =? 62 then (if rd m (s + 1) =? 62 then (43, s + 2) else (c, s + 1))
  else (97, skip (fun c => negb (is_in whitespace c) && negb (is_in symbols c)) s).

(** Returns the kind, the start and the end of the token. *)
Definition gettoken : M Z (Z * (Z * Z)) :=
  fun ps => let q := skip_space ps in
            let (tok, eq) := token q in
            Ok (tok, (q, eq)) (skip_space eq).

Definition peek (toks : list Z) : M Z bool :=
  fun ps => let s := skip_space ps in
            Ok (negb (rd m s =? 0) && is_in toks (rd m s)) s.

(** The redirections at the position: parseredirs wraps them around its
    argument in this order. *)
Fixpoint parseredirs (fuel : nat) : M Z (list redir) :=
  match fuel with
  | O => fun _ => Fail EFuel
  | S fuel =>
      b <- peek (str "<>") ;;
      if b : bool then
        t <- gettoken ;;
        w <- gettoken ;;
        if negb (fst w =? 97) then (fun _ => Fail (EPanic "missing file for redirection")) else
        let (q, eq) := snd w in
        rs <- parseredirs fuel ;;
        ret ((if fst t =? 60 then [MkRedir q eq O_RDONLY 0]
              else if fst t =? 62 then [MkRedir q eq (Z.lor O_WRONLY (Z.lor O_CREATE O_TRUNC)) 1]
              else if fst t =? 43 then [MkRedir q eq (Z.lor O_WRONLY O_CREATE) 1] else []) ++ rs)
      else ret []
  end.

(** The arguments of a simple command and the redirections between them. *)
Fixpoint exec_loop (fuel : nat) (argv : list (Z * Z)) (rs : list redir) : M Z cmd :=
  match fuel with
  | O => fun _ => Fail EFuel
  | S fuel =>
      b <- peek (str "|)&;") ;;
      if b : bool then ret (redirect (EXEC argv) rs) else
      t <- gettoken ;;
      if fst t =? 0 then ret (redirect (EXEC argv) rs) else
      if negb (fst t =? 97) then (fun _ => Fail (EPanic "syntax")) else
      let argv := argv ++ [snd t] in
      if (MAXARGS <=? length argv)%nat then (fun _ => Fail (EPanic "too many args")) else
      rs' <- parseredirs fuel ;;
      exec_loop fuel argv (rs ++ rs')
  end.

(** while(peek(ps, es, "&")) *)
Fixpoint back_loop (fuel : nat) (c : cmd) : M Z cmd :=
  match fuel with
  | O => fun _ => Fail EFuel
  | S fuel =>
      b <- peek (str "&") ;;
      if b : bool then gettoken ;; back_loop fuel (BACK c) else ret c
  end.

Fixpoint parseline (fuel : nat) : M Z cmd :=
  match fuel with
  | O => fun _ => Fail EFuel
  | S fuel =>
      c <- parsepipe fuel ;;
      c <- back_loop fuel c ;;
      b <- peek (str ";") ;;
      if b : bool then gettoken ;; r <- parseline fuel ;; ret (LIST c r) else ret c
  end
with parsepipe (fuel : nat) : M Z cmd :=
  match fuel with
  | O => fun _ => Fail EFuel
  | S fuel =>
      c <- parseexec fuel ;;
      b <- peek (str "|") ;;
      if b : bool then gettoken ;; r <- parsepipe fuel ;; ret (PIPE c r) else ret c
  end
with parseexec (fuel : nat) : M Z cmd :=
  match fuel with
  | O => fun _ => Fail EFuel
  | S fuel =>
      b <- peek (str "(") ;;
      if b : bool then parseblock fuel else
      rs <- parseredirs fuel ;;
      exec_loop fuel [] rs
  end
with parseblock (fuel : nat) : M Z cmd :=
  match fuel with
  | O => fun _ => Fail EFuel
  | S fuel =>
      b <- peek (str "(") ;;
      if negb b then (fun _ => Fail (EPanic "parseblock")) else
      gettoken ;;
      c <- parseline fuel ;;
      b <- peek (str ")") ;;
      if negb b then (fun _ => Fail (EPanic "syntax - missing )")) else
      gettoken ;;
      rs <- parseredirs fuel ;;
      ret (redirect c rs)
  end.

End Parser.

(** NUL-terminate the words. *)
Fixpoint nulterminate (m : mem) (c : cmd) : mem :=
  match c with
  | EXEC argv => foldl (fun m w => wr m (snd w) 0) m argv
  | REDIR c r => wr (nulterminate m c) (r_efile r) 0
  | PIPE l r => nulterminate (nulterminate m l) r
  | LIST l r => nulterminate (nulterminate m l) r
  | BACK c => nulterminate m c
  end.

(** The command and the memory with its words terminated. *)
Definition parsecmd (fuel : nat) (m : mem) (s : Z) : res unit (cmd * mem) :=
  match strlen fuel m s with
  | None => Fail EFuel
  | Some n =>
      let es := s + n in
      match parseline m es fuel s with
      | Fail e => Fail e
      | Ok c s => if skip_space m es s =? es then Ok (c, nulterminate m c) tt else Fail (EPanic "syntax")
      end
  end.
