(* ===== verification/ShSpec.v ===== *)
(** * The shell's parser: tokens and grammar

    The line as a list of tokens, the grammar of commands over tokens, and the
    parser as a recogniser of the grammar. *)

From S2P Require Import Prelude Mem CString Riscv ULib Sh GrepSpec.

(** ** Tokens *)

Inductive tok := TWord (w : list Z) | TSym (c : Z).

Definition space (c : Z) : bool := is_in whitespace c.
(** A character of a word. *)
Definition ordinary (c : Z) : bool := negb (is_in whitespace c) && negb (is_in symbols c).

Fixpoint takew (p : Z -> bool) (t : list Z) : list Z :=
  match t with [] => [] | c :: t => if p c then c :: takew p t else [] end.
Fixpoint dropw (p : Z -> bool) (t : list Z) : list Z :=
  match t with [] => [] | c :: t' => if p c then dropw p t' else t end.

(** The first token, and the text behind it. *)
Definition next (t : list Z) : option (tok * list Z) :=
  match dropw space t with
  | [] => None
  | c :: t1 =>
      if is_in (str "|();&<") c then Some (TSym c, t1)
      else if c =? 62 then
        match t1 with
        | d :: t2 => if d =? 62 then Some (TSym 43, t2) else Some (TSym 62, t1)
        | [] => Some (TSym 62, t1)
        end
      else Some (TWord (takew ordinary (c :: t1)), dropw ordinary (c :: t1))
  end.

Fixpoint lex_loop (n : nat) (t : list Z) : list tok :=
  match n with
  | O => []
  | S n => match next t with Some (k, t) => k :: lex_loop n t | None => [] end
  end.
Definition lex (t : list Z) : list tok := lex_loop (length t) t.

Lemma takew_dropw p t : takew p t ++ dropw p t = t.
Proof. induction t as [|c t IH]; simpl; [done|]. destruct (p c); simpl; [by rewrite IH|done]. Qed.

Lemma dropw_length p t : (length (dropw p t) <= length t)%nat.
Proof. induction t as [|c t IH]; simpl; [done|]. destruct (p c); simpl; lia. Qed.

Lemma dropw_idem p t : dropw p (dropw p t) = dropw p t.
Proof. induction t as [|c t IH]; simpl; [done|]. destruct (p c) eqn:E; [done|]. simpl. by rewrite E. Qed.

Lemma next_space t : next (dropw space t) = next t.
Proof. unfold next. by rewrite dropw_idem. Qed.

Lemma dropw_head p t c t' : dropw p t = c :: t' -> p c = false.
Proof. induction t as [|d t IH]; simpl; [done|]. destruct (p d) eqn:E; [done|]. by intros [= <- <-]. Qed.

Lemma is_in_spec toks c : is_in toks c = true <-> c ∈ toks.
Proof.
  unfold is_in. rewrite existsb_exists. split.
  - intros (x & Hx%list_elem_of_In & ->%Z.eqb_eq). done.
  - intros Hx%list_elem_of_In. exists c. by rewrite Z.eqb_refl.
Qed.

(** The three kinds of characters that start a token. *)
Lemma ordinary_other c : space c = false -> is_in (str "|();&<") c = false -> c <> 62 -> ordinary c = true.
Proof.
  intros H1 H2 H3. unfold ordinary, space in *. rewrite H1. simpl negb. cbn [andb]. apply negb_true_iff.
  destruct (is_in symbols c) eqn:E; [|done]. apply is_in_spec in E. exfalso.
  assert (Hc : c ∈ str "|();&<").
  { cbn in E. repeat (apply elem_of_cons in E as [->|E]; [by (apply is_in_spec; vm_compute) || by destruct H3|]). by apply elem_of_nil in E. }
  apply is_in_spec in Hc. congruence.
Qed.

Lemma next_shorter t k t' : next t = Some (k, t') -> (length t' < length t)%nat.
Proof.
  unfold next. pose proof (dropw_length space t) as Hl. destruct (dropw space t) as [|c t1] eqn:Ed; [done|]. simpl in Hl.
  destruct (is_in (str "|();&<") c) eqn:E1; [intros [= <- <-]; lia|]. destruct (Z.eqb_spec c 62) as [->|Hc].
  - destruct t1 as [|d t2]; [intros [= <- <-]; simpl in *; lia|]. destruct (d =? 62); intros [= <- <-]; simpl in *; lia.
  - intros [= <- <-]. simpl. rewrite (ordinary_other c); [|by eapply dropw_head|done|done]. pose proof (dropw_length ordinary t1). lia.
Qed.

Lemma lex_loop_enough n t : (length t <= n)%nat -> lex_loop n t = lex t.
Proof.
  unfold lex. remember (length t) as k eqn:Ek. revert n t Ek. induction k as [k IH] using lt_wf_ind. intros n t -> Hn.
  destruct (next t) as [[x t']|] eqn:E.
  - pose proof (next_shorter _ _ _ E) as Hs. destruct n as [|n]; [lia|]. destruct (length t) as [|k] eqn:El; [lia|]. cbn [lex_loop]. rewrite E.
    f_equal. rewrite (IH (length t') ltac:(lia) n t' eq_refl ltac:(lia)). symmetry. apply (IH (length t')); lia || done.
  - destruct n, (length t); cbn [lex_loop]; rewrite ?E; done.
Qed.

Lemma lex_unfold t : lex t = match next t with Some (k, t') => k :: lex t' | None => [] end.
Proof.
  unfold lex at 1. destruct (next t) as [[k t']|] eqn:E.
  - pose proof (next_shorter _ _ _ E) as Hs. destruct (length t) as [|n] eqn:El; [lia|]. cbn [lex_loop]. rewrite E. f_equal. apply lex_loop_enough. lia.
  - destruct (length t); cbn [lex_loop]; by rewrite ?E.
Qed.

Lemma lex_space t : lex (dropw space t) = lex t.
Proof. rewrite !lex_unfold. by rewrite next_space. Qed.

Lemma lex_length t : (length (lex t) <= length t)%nat.
Proof.
  remember (length t) as k eqn:Ek. revert t Ek. induction k as [k IH] using lt_wf_ind. intros t ->. rewrite lex_unfold.
  destruct (next t) as [[x t']|] eqn:E; [|simpl; lia]. pose proof (next_shorter _ _ _ E) as Hs. specialize (IH (length t') Hs t' eq_refl). simpl. lia.
Qed.

(** ** The parser's primitives on tokens *)

Section Prims.
Variables (m : mem) (es : Z).

(** The rest [t] of the line is at [s]. *)
Definition at_text (s : Z) (t : list Z) : Prop := cstr m s t /\ s + Z.of_nat (length t) = es.
Definition at_toks (s : Z) (ts : list tok) : Prop := exists t, at_text s t /\ lex t = ts.

Lemma skip_loop_at p s t : at_text s t ->
  let s' := skip_loop m p (length t) s in s' = s + Z.of_nat (length (takew p t)) /\ at_text s' (dropw p t).
Proof.
  revert s. induction t as [|c t IH]; intros s [Hc He]; cbn [skip_loop length takew dropw]; [split; [lia|done]|].
  pose proof Hc as (Hn & E & Hc')%cstr_cons. rewrite E. destruct (p c).
  - destruct (IH (s + 1)) as [-> H2]; [split; [done|simpl in He; lia]|]. cbn [length]. split; [lia|].
    by replace (s + Z.of_nat (S (length (takew p t)))) with (s + 1 + Z.of_nat (length (takew p t))) by lia.
  - cbn [length]. split; [lia|]. done.
Qed.

Lemma skip_at p s t : at_text s t -> let s' := skip m es p s in s' = s + Z.of_nat (length (takew p t)) /\ at_text s' (dropw p t).
Proof.
  intros Ht. unfold skip. pose proof Ht as [_ He]. replace (Z.to_nat (es - s)) with (length t) by lia. by apply skip_loop_at.
Qed.

Lemma skip_space_at s t : at_text s t -> at_text (skip_space m es s) (dropw space t).
Proof. intros Ht. by apply (skip_at (is_in whitespace)). Qed.

Lemma at_nil s : at_text s [] -> rd m s = 0.
Proof. intros [Hc _]. by apply cstr_nil in Hc. Qed.

Lemma at_cons s c t : at_text s (c :: t) -> c <> 0 /\ rd m s = c /\ at_text (s + 1) t.
Proof. intros [Hc He]. apply cstr_cons in Hc as (H1 & H2 & H3). split; [done|]. split; [done|]. split; [done|]. simpl in He. lia. Qed.

(** A word of the line: its characters are ordinary, the one behind is not. *)
Definition word_at (p : Z * Z) (w : list Z) : Prop :=
  p.2 = p.1 + Z.of_nat (length w) /\ bytes (length w) m p.1 = w /\ Forall (fun c => ordinary c = true /\ c <> 0) w /\
  (rd m p.2 = 0 \/ ordinary (rd m p.2) = false).

Lemma takew_all p t : Forall (fun c => p c = true) (takew p t).
Proof. induction t as [|c t IH]; simpl; [constructor|]. destruct (p c) eqn:E; by constructor. Qed.

Lemma word_at_text q t : at_text q t -> word_at (q, skip m es ordinary q) (takew ordinary t).
Proof.
  intros Ht. destruct (skip_at ordinary q t Ht) as [E Ht']. pose proof Ht as [Hc He].
  split; [done|]. cbn [fst snd]. split.
  - apply cstr_bytes_at in Hc. rewrite <- (takew_dropw ordinary t) in Hc at 1 2. rewrite length_app, bytes_app in Hc.
    by apply app_inj_1 in Hc as [? _]; [|rewrite length_bytes].
  - split.
    + pose proof (takew_all ordinary t) as Ha. rewrite Forall_forall in Ha |- *. intros c Hin. split; [by apply Ha|].
      destruct Hc as [Hc _]. assert (Hin' : c ∈ t) by (rewrite <- (takew_dropw ordinary t); apply elem_of_app; by left).
      apply list_elem_of_lookup in Hin' as [i Hi]. by apply (Hc i c).
    + destruct (dropw ordinary t) as [|c t'] eqn:Ed; [left; by apply at_nil|right]. apply at_cons in Ht' as (_ & -> & _). by eapply dropw_head.
Qed.

Definition kind (k : tok) : Z := match k with TWord _ => 97 | TSym c => c end.

Lemma token_at s t : at_text s t -> dropw space t = t ->
  match next t with
  | None => token m es s = (0, s) /\ t = []
  | Some (k, t') => exists s', token m es s = (kind k, s') /\ at_text s' t' /\
      match k with TWord w => word_at (s, s') w /\ w <> [] | TSym c => c <> 0 /\ c <> 97 /\ ordinary c = false \/ c = 43 end
  end.
Proof.
  intros Ht Hd. unfold next, token. rewrite Hd. destruct t as [|c t1].
  { rewrite (at_nil _ Ht). done. }
  pose proof (at_cons _ _ _ Ht) as (Hc & -> & Ht1). rewrite (proj2 (Z.eqb_neq _ _) Hc).
  destruct (is_in (str "|();&<") c) eqn:E1.
  { exists (s + 1). split; [done|]. split; [done|]. left. split; [done|]. apply is_in_spec in E1. cbn in E1.
    repeat (apply elem_of_cons in E1 as [->|E1]; [by vm_compute|]). by apply elem_of_nil in E1. }
  destruct (Z.eqb_spec c 62) as [->|H62].
  { destruct t1 as [|d t2].
    - rewrite (at_nil _ Ht1). exists (s + 1). split; [done|]. split; [done|]. left. by vm_compute.
    - pose proof (at_cons _ _ _ Ht1) as (Hd' & -> & Ht2). destruct (d =? 62).
      + exists (s + 2). split; [done|]. split; [by replace (s + 2) with (s + 1 + 1) by lia|]. by right.
      + exists (s + 1). split; [done|]. split; [done|]. left. by vm_compute. }
  exists (skip m es ordinary s). split; [done|]. split; [by apply skip_at|]. split; [by apply word_at_text|].
  simpl. rewrite (ordinary_other c); [done|by eapply (dropw_head space)|done|done].
Qed.

Definition wordne (p : Z * Z) (w : list Z) : Prop := word_at p w /\ w <> [].
Definition tok_ok (k : tok) (p : Z * Z) : Prop :=
  match k with TWord w => wordne p w | TSym c => c <> 0 /\ c <> 97 end.

Lemma gettoken_toks s ts : at_toks s ts ->
  exists p s', at_toks s' (tail ts) /\
    gettoken m es s = Ok (match ts with k :: _ => kind k | [] => 0 end, p) s' /\
    match ts with k :: _ => tok_ok k p | [] => True end.
Proof.
  intros (t & Ht & <-). pose proof (skip_space_at s t Ht) as Hq. set (q := skip_space m es s) in *.
  pose proof (token_at q _ Hq (dropw_idem _ _)) as Hn. rewrite next_space in Hn. unfold gettoken. fold q. rewrite lex_unfold.
  destruct (next t) as [[k t']|] eqn:En.
  - destruct Hn as (s' & -> & Ht' & Hk). exists (q, s'), (skip_space m es s'). cbn [tail]. split.
    { exists (dropw space t'). split; [by apply skip_space_at|apply lex_space]. }
    split; [done|]. destruct k as [w|c]; [done|]. destruct Hk as [(? & ? & _)| ->]; done.
  - destruct Hn as [-> Hd]. exists (q, q), (skip_space m es q). cbn [tail]. split; [|done].
    exists (dropw space (dropw space t)). split; [by apply skip_space_at|]. by rewrite Hd.
Qed.

(** Does the next token start with one of [toks]? *)
Definition starts (toks : list Z) (ts : list tok) : bool :=
  match ts with TSym c :: _ => is_in toks (if c =? 43 then 62 else c) | _ => false end.

Lemma peek_toks toks s ts : Forall (fun c => is_in symbols c = true) toks -> at_toks s ts ->
  exists s', peek m es toks s = Ok (starts toks ts) s' /\ at_toks s' ts.
Proof.
  intros Hs (t & Ht & <-). pose proof (skip_space_at s t Ht) as Hq. unfold peek. set (q := skip_space m es s) in *. exists q.
  split; [|exists (dropw space t); split; [done|apply lex_space]]. f_equal. rewrite lex_unfold. unfold next.
  destruct (dropw space t) as [|c t1] eqn:Ed; [by rewrite (at_nil _ Hq)|].
  apply at_cons in Hq as (Hc & -> & _). rewrite (proj2 (Z.eqb_neq _ _) Hc). cbn [negb andb].
  destruct (is_in (str "|();&<") c) eqn:E1.
  { cbn [starts]. destruct (Z.eqb_spec c 43) as [->|]; [done|done]. }
  destruct (Z.eqb_spec c 62) as [->|H62].
  { destruct t1 as [|d t2]; [done|]. destruct (d =? 62); done. }
  cbn [starts]. destruct (is_in toks c) eqn:E; [|done]. apply is_in_spec in E. rewrite Forall_forall in Hs. specialize (Hs c E).
  pose proof (ordinary_other c (dropw_head _ _ _ _ Ed) E1 H62) as Ho. unfold ordinary in Ho. rewrite Hs in Ho. by rewrite andb_false_r in Ho.
Qed.
End Prims.

(** ** Grammar *)

Inductive rkind := RIn | ROut | RApp.
Definition rsym (k : rkind) : Z := match k with RIn => 60 | ROut => 62 | RApp => 43 end.
Definition rmode (k : rkind) : Z :=
  match k with RIn => O_RDONLY | ROut => Z.lor O_WRONLY (Z.lor O_CREATE O_TRUNC) | RApp => Z.lor O_WRONLY O_CREATE end.
Definition rfd (k : rkind) : Z := match k with RIn => 0 | _ => 1 end.

(** Commands, with their words. *)
Inductive acmd :=
  | AExec (args : list (list Z))
  | ARedir (c : acmd) (k : rkind) (file : list Z)
  | APipe (l r : acmd)
  | AList (l r : acmd)
  | ABack (c : acmd).

Definition aredirect (c : acmd) (rs : list (rkind * list Z)) : acmd := foldl (fun c r => ARedir c r.1 r.2) c rs.
Definition aback (n : nat) (c : acmd) : acmd := Nat.iter n ABack c.

Inductive g_redirs : list tok -> list (rkind * list Z) -> Prop :=
  | g_redirs_nil : g_redirs [] []
  | g_redirs_cons k f u l : g_redirs u l -> g_redirs (TSym (rsym k) :: TWord f :: u) ((k, f) :: l).

Inductive g_args : list tok -> list (list Z) -> list (rkind * list Z) -> Prop :=
  | g_args_nil : g_args [] [] []
  | g_args_cons w u l v ws l' : g_redirs u l -> g_args v ws l' -> g_args (TWord w :: u ++ v) (w :: ws) (l ++ l').

(** Simple commands have at most nine words; [&] binds tighter than [;]. *)
Inductive g_exec : list tok -> acmd -> Prop :=
  | g_simple u l v ws l' : g_redirs u l -> g_args v ws l' -> (length ws < MAXARGS)%nat ->
      g_exec (u ++ v) (aredirect (AExec ws) (l ++ l'))
  | g_block u c v l : g_line u c -> g_redirs v l -> g_exec (TSym 40 :: u ++ TSym 41 :: v) (aredirect c l)
with g_pipe : list tok -> acmd -> Prop :=
  | g_one u c : g_exec u c -> g_pipe u c
  | g_more u c v d : g_exec u c -> g_pipe v d -> g_pipe (u ++ TSym 124 :: v) (APipe c d)
with g_line : list tok -> acmd -> Prop :=
  | g_last u c n : g_pipe u c -> g_line (u ++ replicate n (TSym 38)) (aback n c)
  | g_list u c n v d : g_pipe u c -> g_line v d -> g_line (u ++ replicate n (TSym 38) ++ TSym 59 :: v) (AList (aback n c) d).

Scheme g_exec_mut := Minimality for g_exec Sort Prop
with g_pipe_mut := Minimality for g_pipe Sort Prop
with g_line_mut := Minimality for g_line Sort Prop.
Combined Scheme g_mutind from g_exec_mut, g_pipe_mut, g_line_mut.

Section Represents.
Variable m : mem.

Definition redir_ok (r : redir) (x : rkind * list Z) : Prop :=
  wordne m (r_file r, r_efile r) x.2 /\ r_mode r = rmode x.1 /\ r_fd r = rfd x.1.

(** A command of the parser for a command of the grammar. *)
Inductive rep : cmd -> acmd -> Prop :=
  | rep_exec argv ws : Forall2 (wordne m) argv ws -> rep (EXEC argv) (AExec ws)
  | rep_redir c a r x : rep c a -> redir_ok r x -> rep (REDIR c r) (ARedir a x.1 x.2)
  | rep_pipe l l' r r' : rep l l' -> rep r r' -> rep (PIPE l r) (APipe l' r')
  | rep_list l l' r r' : rep l l' -> rep r r' -> rep (LIST l r) (AList l' r')
  | rep_back c a : rep c a -> rep (BACK c) (ABack a).

Lemma rep_redirect c a rs l : rep c a -> Forall2 redir_ok rs l -> rep (redirect c rs) (aredirect a l).
Proof.
  intros Hc Hr. revert c a Hc. induction Hr as [|r x rs l Hx Hr IH]; intros c a Hc; simpl; [done|]. apply IH. by constructor.
Qed.
End Represents.
