(* ===== verification/ShParse.v ===== *)
(** * The shell's parser recognises its grammar

    With enough steps the parser never gets stuck: it returns a command that
    the grammar gives to the tokens it has consumed, or panics.  And it
    accepts every sentence of the grammar. *)

From S2P Require Import Prelude Mem CString Riscv ULib Sh GrepSpec ShSpec.

(** Facts about constant sets of characters. *)
Ltac chars := apply (bool_decide_unpack (Forall _ _)); vm_compute; exact I.

Section Parse.
Variables (m : mem) (es : Z).
Abbreviation at_ := (at_toks m es).
Abbreviation P A := (M Z A).

(** ** Soundness *)

(** The outcome of a routine at [s], where the tokens [ts] are: it panics, or
    consumes some tokens and returns. *)
Definition runs_to {A} (p : P A) (s : Z) (ts : list tok) (R : A -> list tok -> list tok -> Prop) : Prop :=
  match p s with
  | Ok x s' => exists u ts', ts = u ++ ts' /\ at_ s' ts' /\ R x u ts'
  | Fail (EPanic _) => True
  | Fail _ => False
  end.

Lemma runs_ret {A} (x : A) s ts (R : A -> list tok -> list tok -> Prop) : at_ s ts -> R x [] ts -> runs_to (ret x) s ts R.
Proof. intros Hs Hr. exists [], ts. done. Qed.

Lemma runs_bind {A B} (p : P A) (k : A -> P B) s ts R (R' : B -> list tok -> list tok -> Prop) :
  runs_to p s ts R ->
  (forall x u ts' s', ts = u ++ ts' -> at_ s' ts' -> R x u ts' -> runs_to (k x) s' ts' (fun y v => R' y (u ++ v))) ->
  runs_to (bind p k) s ts R'.
Proof.
  unfold runs_to, bind. destruct (p s) as [x s'|[]]; try done. intros (u & ts' & -> & Hs & Hr) Hk. specialize (Hk x u ts' s' eq_refl Hs Hr).
  destruct (k x s') as [y s''|[]]; try done. destruct Hk as (v & ts'' & -> & Hs' & Hr'). exists (u ++ v), ts''. by rewrite app_assoc.
Qed.

Lemma runs_mono {A} (p : P A) s ts (R R' : A -> list tok -> list tok -> Prop) :
  runs_to p s ts R -> (forall x u ts', ts = u ++ ts' -> R x u ts' -> R' x u ts') -> runs_to p s ts R'.
Proof. unfold runs_to. destruct (p s) as [x s'|[]]; try done. intros (u & ts' & -> & Hs & Hr) HR. exists u, ts'. eauto. Qed.

Definition syms (toks : list Z) : Prop := Forall (fun c => is_in symbols c = true) toks.

Lemma runs_peek toks s ts R : syms toks -> at_ s ts -> R (starts toks ts) [] ts -> runs_to (peek m es toks) s ts R.
Proof. intros Ht Hs HR. unfold runs_to. destruct (peek_toks m es toks s ts Ht Hs) as (s' & -> & Hs'). by exists [], ts. Qed.

Lemma runs_token s ts R : at_ s ts ->
  (ts = [] -> forall p, R (0, p) [] []) ->
  (forall k ts' p, ts = k :: ts' -> tok_ok m k p -> R (kind k, p) [k] ts') -> runs_to (gettoken m es) s ts R.
Proof.
  intros Hs H0 H1. unfold runs_to. destruct (gettoken_toks m es s ts Hs) as (p & s' & Hs' & -> & Hk). destruct ts as [|k ts].
  - exists [], []. auto.
  - exists [k], ts. auto.
Qed.

Lemma redirs_syms : syms (str "<>"). Proof. chars. Qed.

(** A token that starts a redirection. *)
Lemma starts_redir ts : starts (str "<>") ts = true -> exists k ts', ts = TSym (rsym k) :: ts'.
Proof.
  destruct ts as [|[w|c] ts]; try done. cbn [starts]. intros Hc. apply is_in_spec in Hc. destruct (Z.eqb_spec c 43) as [->|Hne]; [by exists RApp, ts|].
  cbn in Hc. apply elem_of_cons in Hc as [->|Hc]; [by exists RIn, ts|]. apply elem_of_cons in Hc as [->|Hc]; [by exists ROut, ts|].
  by apply elem_of_nil in Hc.
Qed.

Lemma redir_choice k q eq :
  (if rsym k =? 60 then [MkRedir q eq O_RDONLY 0]
   else if rsym k =? 62 then [MkRedir q eq (Z.lor O_WRONLY (Z.lor O_CREATE O_TRUNC)) 1]
   else if rsym k =? 43 then [MkRedir q eq (Z.lor O_WRONLY O_CREATE) 1] else []) = [MkRedir q eq (rmode k) (rfd k)].
Proof. by destruct k. Qed.

(** The token just seen by [peek]. *)
Lemma runs_sym {A} c s ts ts' (k : Z * (Z * Z) -> P A) (R : A -> list tok -> list tok -> Prop) :
  at_ s ts -> ts = TSym c :: ts' ->
  (forall p s', at_ s' ts' -> runs_to (k (c, p)) s' ts' (fun y v => R y (TSym c :: v))) -> runs_to (bind (gettoken m es) k) s ts R.
Proof.
  intros Hs -> Hk. eapply (runs_bind _ _ _ _ (fun t u ts1 => exists p, t = (c, p) /\ u = [TSym c])).
  - apply runs_token; [done|done|]. intros x ts1 p [= <- <-] _. by exists p.
  - intros x u ts1 s1 E Hs1 (p & -> & ->). injection E as <-. by apply Hk.
Qed.

(** A word, or an error. *)
Lemma runs_word {A} s ts (k : Z * (Z * Z) -> P A) (R : A -> list tok -> list tok -> Prop) :
  at_ s ts ->
  (ts = [] -> forall p s', at_ s' [] -> runs_to (k (0, p)) s' [] R) ->
  (forall c p s' ts', ts = TSym c :: ts' -> c <> 0 -> c <> 97 -> at_ s' ts' -> runs_to (k (c, p)) s' ts' (fun y v => R y (TSym c :: v))) ->
  (forall w p s' ts', ts = TWord w :: ts' -> wordne m p w -> at_ s' ts' -> runs_to (k (97, p)) s' ts' (fun y v => R y (TWord w :: v))) ->
  runs_to (bind (gettoken m es) k) s ts R.
Proof.
  intros Hs K0 K1 K2. eapply (runs_bind _ _ _ _ (fun t u ts1 => exists p,
    (ts = [] /\ t = (0, p) /\ u = []) \/ exists x, ts = x :: ts1 /\ t = (kind x, p) /\ u = [x] /\ tok_ok m x p)).
  - apply runs_token; [done|intros -> p; exists p; by left|]. intros x ts1 p -> Hx. exists p. right. by exists x.
  - intros t u ts1 s1 E Hs1 (p & [(-> & -> & ->)|(x & -> & -> & -> & Hx)]).
    + simpl in E. subst ts1. by apply K0.
    + destruct x as [w|c]; [by eapply K2|]. destruct Hx. by eapply K1.
Qed.

Lemma runs_panic {A} msg s ts (R : A -> list tok -> list tok -> Prop) : runs_to (fun _ => Fail (EPanic msg)) s ts R.
Proof. done. Qed.

(** The next token decides. *)
Lemma runs_if {A} toks s ts (k : bool -> P A) (R : A -> list tok -> list tok -> Prop) :
  syms toks -> at_ s ts -> (forall s', at_ s' ts -> runs_to (k (starts toks ts)) s' ts R) -> runs_to (bind (peek m es toks) k) s ts R.
Proof.
  intros Ht Hs Hk. eapply (runs_bind _ _ _ _ (fun b u ts1 => b = starts toks ts /\ u = [])).
  - by apply runs_peek.
  - intros b u ts1 s1 E Hs1 [-> ->]. simpl in E. subst ts1. by apply Hk.
Qed.

Lemma parseredirs_ok fuel s ts : at_ s ts -> (length ts < fuel)%nat ->
  runs_to (parseredirs m es fuel) s ts (fun rs u _ => exists l, Forall2 (redir_ok m) rs l /\ g_redirs u l).
Proof.
  revert s ts. induction fuel as [|fuel IH]; intros s ts Hs Hf; [lia|]. cbn [parseredirs].
  apply runs_if; [apply redirs_syms|done|]. intros s1 Hs1. destruct (starts (str "<>") ts) eqn:Eb.
  2:{ apply runs_ret; [done|]. exists []. split; constructor. }
  destruct (starts_redir _ Eb) as (k & ts1 & ->). eapply runs_sym; [exact Hs1|done|]. intros p s2 Hs2.
  apply runs_word; [done|intros ->; intros; apply runs_panic| |].
  - intros c p' s' ts' _ _ Hc _. cbn [fst]. rewrite (proj2 (Z.eqb_neq _ _) Hc). apply runs_panic.
  - intros w [q eq] s' ts' -> Hw Hs'. cbn [fst snd Z.eqb Pos.eqb negb]. eapply runs_bind; [apply (IH s' ts' Hs'); simpl in Hf; lia|].
    intros rs u ts2 s3 -> Hs3 (l & Hl & Hg). rewrite redir_choice. apply runs_ret; [done|]. exists ((k, w) :: l). split.
    + constructor; [|done]. by split.
    + rewrite app_nil_r. by constructor.
Qed.

Lemma exec_syms : syms (str "|)&;"). Proof. chars. Qed.

Lemma exec_loop_ok fuel argv rs s ts : at_ s ts -> (length ts < fuel)%nat -> (length argv < MAXARGS)%nat ->
  runs_to (exec_loop m es fuel argv rs) s ts (fun c u _ => exists argv' ws rs' l,
    c = redirect (EXEC (argv ++ argv')) (rs ++ rs') /\ Forall2 (wordne m) argv' ws /\ Forall2 (redir_ok m) rs' l /\
    (length (argv ++ argv') < MAXARGS)%nat /\ g_args u ws l).
Proof.
  revert argv rs s ts. induction fuel as [|fuel IH]; intros argv rs s ts Hs Hf Ha; [lia|]. cbn [exec_loop].
  assert (Hstop : forall s', at_ s' ts -> runs_to (ret (redirect (EXEC argv) rs)) s' ts (fun c u _ => exists argv' ws rs' l,
    c = redirect (EXEC (argv ++ argv')) (rs ++ rs') /\ Forall2 (wordne m) argv' ws /\ Forall2 (redir_ok m) rs' l /\
    (length (argv ++ argv') < MAXARGS)%nat /\ g_args u ws l)).
  { intros s' Hs'. apply runs_ret; [done|]. exists [], [], [], []. rewrite !app_nil_r. split_and!; [done|constructor|constructor|done|constructor]. }
  apply runs_if; [apply exec_syms|done|]. intros s1 Hs1. destruct (starts (str "|)&;") ts); [by apply Hstop|].
  apply runs_word; [done|intros -> p s' Hs'; by apply Hstop| |].
  - intros c p s' ts' _ H0 Hc _. cbn [fst]. rewrite (proj2 (Z.eqb_neq _ _) H0), (proj2 (Z.eqb_neq _ _) Hc). apply runs_panic.
  - intros w p s' ts' -> Hw Hs'. cbn [fst snd Z.eqb Pos.eqb negb]. destruct (Nat.leb_spec MAXARGS (length (argv ++ [p]))) as [|Hlt]; [apply runs_panic|].
    simpl in Hf. eapply runs_bind; [apply (parseredirs_ok fuel s' ts' Hs'); lia|]. intros rs1 u1 ts2 s2 -> Hs2 (l1 & Hl1 & Hg1).
    rewrite length_app in Hf. eapply runs_mono; [apply (IH (argv ++ [p]) (rs ++ rs1) s2 ts2 Hs2); [lia|done]|].
    intros c u ts3 -> (argv' & ws & rs' & l & -> & Hw' & Hr' & Hlen & Hg). exists (p :: argv'), (w :: ws), (rs1 ++ rs'), (l1 ++ l).
    rewrite <- !app_assoc in *. split; [done|]. split; [by constructor|]. split; [by apply Forall2_app|]. split; [done|]. by constructor.
Qed.

Lemma back_syms : syms (str "&"). Proof. chars. Qed.

(** A token that is one of a single character. *)
Lemma starts_one c ts : c <> 62 -> c <> 43 -> starts [c] ts = true -> exists ts', ts = TSym c :: ts'.
Proof.
  intros H62 H43. destruct ts as [|[w|d] ts]; try done. cbn [starts]. intros Hd. apply is_in_spec, list_elem_of_singleton in Hd.
  destruct (Z.eqb_spec d 43); [congruence|]. subst. by exists ts.
Qed.

Lemma iter_back n c a : rep m c a -> rep m (Nat.iter n BACK c) (aback n a).
Proof. intros Hc. induction n as [|n IH]; simpl; [done|]. by constructor. Qed.

Lemma back_loop_ok fuel c s ts : at_ s ts -> (length ts < fuel)%nat ->
  runs_to (back_loop m es fuel c) s ts (fun c' u _ => exists n, c' = Nat.iter n BACK c /\ u = replicate n (TSym 38)).
Proof.
  revert c s ts. induction fuel as [|fuel IH]; intros c s ts Hs Hf; [lia|]. cbn [back_loop]. apply runs_if; [apply back_syms|done|]. intros s1 Hs1.
  destruct (starts (str "&") ts) eqn:Eb; [|apply runs_ret; [done|]; by exists O].
  apply (starts_one 38) in Eb as (ts' & ->); [|done|done]. eapply runs_sym; [exact Hs1|done|]. intros p s2 Hs2.
  eapply runs_mono; [apply (IH (BACK c) s2 ts' Hs2); simpl in Hf; lia|]. intros c' u ts2 _ (n & -> & ->). exists (S n). split; [|done].
  by rewrite Nat.iter_succ_r.
Qed.

Lemma list_syms : syms (str ";"). Proof. chars. Qed.
Lemma pipe_syms : syms (str "|"). Proof. chars. Qed.
Lemma open_syms : syms (str "("). Proof. chars. Qed.
Lemma close_syms : syms (str ")"). Proof. chars. Qed.

Lemma parse_ok fuel : forall s ts, at_ s ts ->
  ((4 * length ts + 4 <= fuel)%nat -> runs_to (parseline m es fuel) s ts (fun c u _ => exists a, rep m c a /\ g_line u a)) /\
  ((4 * length ts + 3 <= fuel)%nat -> runs_to (parsepipe m es fuel) s ts (fun c u _ => exists a, rep m c a /\ g_pipe u a)) /\
  ((4 * length ts + 2 <= fuel)%nat -> runs_to (parseexec m es fuel) s ts (fun c u _ => exists a, rep m c a /\ g_exec u a)) /\
  ((4 * length ts + 1 <= fuel)%nat -> runs_to (parseblock m es fuel) s ts (fun c u _ => exists a, rep m c a /\ g_exec u a)).
Proof.
  induction fuel as [|fuel IH]; intros s ts Hs; [split_and!; intros; lia|]. split_and!; intros Hf.
  - cbn [parseline]. eapply runs_bind; [apply (IH s ts Hs); lia|]. intros c u ts1 s1 -> Hs1 (a & Hc & Hg). rewrite length_app in Hf.
    eapply runs_bind; [apply (back_loop_ok fuel c s1 ts1 Hs1); lia|]. intros c' u' ts2 s2 -> Hs2 (n & -> & ->). rewrite length_app in Hf.
    apply runs_if; [apply list_syms|done|]. intros s3 Hs3. destruct (starts (str ";") ts2) eqn:Eb.
    + apply (starts_one 59) in Eb as (ts3 & ->); [|done|done]. simpl in Hf. eapply runs_sym; [exact Hs3|done|]. intros p s4 Hs4.
      eapply runs_bind; [apply (IH s4 ts3 Hs4); lia|]. intros d v ts4 s5 _ Hs5 (b & Hd & Hgd). apply runs_ret; [done|].
      exists (AList (aback n a) b). split; [constructor; [by apply iter_back|done]|]. rewrite app_nil_r. by constructor.
    + apply runs_ret; [done|]. exists (aback n a). split; [by apply iter_back|]. rewrite app_nil_r. by constructor.
  - cbn [parsepipe]. eapply runs_bind; [apply (IH s ts Hs); lia|]. intros c u ts1 s1 -> Hs1 (a & Hc & Hg). rewrite length_app in Hf.
    apply runs_if; [apply pipe_syms|done|]. intros s2 Hs2. destruct (starts (str "|") ts1) eqn:Eb.
    + apply (starts_one 124) in Eb as (ts3 & ->); [|done|done]. simpl in Hf. eapply runs_sym; [exact Hs2|done|]. intros p s4 Hs4.
      eapply runs_bind; [apply (IH s4 ts3 Hs4); lia|]. intros d v ts4 s5 _ Hs5 (b & Hd & Hgd). apply runs_ret; [done|].
      exists (APipe a b). split; [by constructor|]. rewrite app_nil_r. by constructor.
    + apply runs_ret; [done|]. exists a. split; [done|]. rewrite app_nil_r. by constructor.
  - cbn [parseexec]. apply runs_if; [apply open_syms|done|]. intros s1 Hs1. destruct (starts (str "(") ts) eqn:Eb; [apply (IH s1 ts Hs1); lia|].
    eapply runs_bind; [apply (parseredirs_ok fuel s1 ts Hs1); lia|]. intros rs u ts1 s2 -> Hs2 (l & Hl & Hg). rewrite length_app in Hf.
    eapply runs_mono; [apply (exec_loop_ok fuel [] rs s2 ts1 Hs2); [lia|simpl; unfold MAXARGS; lia]|].
    intros c v ts2 _ (argv & ws & rs' & l' & -> & Hw & Hr & Hlen & Hga). exists (aredirect (AExec ws) (l ++ l')). split.
    + apply rep_redirect; [by constructor|by apply Forall2_app].
    + constructor; [done|done|]. by rewrite <- (Forall2_length _ _ _ Hw).
  - cbn [parseblock]. apply runs_if; [apply open_syms|done|]. intros s1 Hs1. destruct (starts (str "(") ts) eqn:Eb; [|apply runs_panic]. cbn [negb].
    apply (starts_one 40) in Eb as (ts1 & ->); [|done|done]. simpl in Hf. eapply runs_sym; [exact Hs1|done|]. intros p s2 Hs2.
    eapply runs_bind; [apply (IH s2 ts1 Hs2); lia|]. intros c u ts2 s3 -> Hs3 (a & Hc & Hg). rewrite length_app in Hf.
    apply runs_if; [apply close_syms|done|]. intros s4 Hs4. destruct (starts (str ")") ts2) eqn:Eb2; [|apply runs_panic]. cbn [negb].
    apply (starts_one 41) in Eb2 as (ts3 & ->); [|done|done]. simpl in Hf. eapply runs_sym; [exact Hs4|done|]. intros p' s5 Hs5.
    eapply runs_bind; [apply (parseredirs_ok fuel s5 ts3 Hs5); lia|]. intros rs v ts4 s6 _ Hs6 (l & Hl & Hgl). apply runs_ret; [done|].
    exists (aredirect a l). split; [by apply rep_redirect|]. rewrite app_nil_r. by constructor.
Qed.

(** ** Completeness *)

Definition accepts {A} (p : P A) (s : Z) (rest : list tok) (R : A -> Prop) : Prop :=
  exists x s', p s = Ok x s' /\ at_ s' rest /\ R x.

Lemma accepts_ret {A} (x : A) s rest (R : A -> Prop) : at_ s rest -> R x -> accepts (ret x) s rest R.
Proof. intros Hs Hr. by exists x, s. Qed.

Lemma accepts_bind {A B} (p : P A) (k : A -> P B) s r1 r2 R (R' : B -> Prop) :
  accepts p s r1 R -> (forall x s', at_ s' r1 -> R x -> accepts (k x) s' r2 R') -> accepts (bind p k) s r2 R'.
Proof. intros (x & s' & E & Hs & Hr) Hk. destruct (Hk x s' Hs Hr) as (y & s'' & E' & H1 & H2). exists y, s''. unfold bind. by rewrite E. Qed.

Lemma accepts_if {A} toks s ts rest (k : bool -> P A) (R : A -> Prop) :
  syms toks -> at_ s ts -> (forall s', at_ s' ts -> accepts (k (starts toks ts)) s' rest R) -> accepts (bind (peek m es toks) k) s rest R.
Proof.
  intros Ht Hs Hk. destruct (peek_toks m es toks s ts Ht Hs) as (s' & E & Hs'). destruct (Hk s' Hs') as (y & s'' & E' & H1 & H2).
  exists y, s''. unfold bind. by rewrite E.
Qed.

Lemma accepts_token {A} x s ts rest (k : Z * (Z * Z) -> P A) (R : A -> Prop) :
  at_ s (x :: ts) -> (forall p s', at_ s' ts -> tok_ok m x p -> accepts (k (kind x, p)) s' rest R) -> accepts (bind (gettoken m es) k) s rest R.
Proof.
  intros Hs Hk. destruct (gettoken_toks m es s _ Hs) as (p & s' & Hs' & E & Hx). destruct (Hk p s' Hs' Hx) as (y & s'' & E' & H1 & H2).
  exists y, s''. unfold bind. by rewrite E.
Qed.

Lemma redirs_complete u l : g_redirs u l -> forall s rest fuel, starts (str "<>") rest = false -> (length u < fuel)%nat -> at_ s (u ++ rest) ->
  accepts (parseredirs m es fuel) s rest (fun rs => Forall2 (redir_ok m) rs l).
Proof.
  induction 1 as [|k f u l Hg IH]; intros s rest fuel Hr Hf Hs; (destruct fuel as [|fuel]; [lia|]); cbn [parseredirs].
  - apply (accepts_if _ s rest); [apply redirs_syms|done|]. intros s1 Hs1. rewrite Hr. apply accepts_ret; [done|constructor].
  - apply (accepts_if _ s _ _ _ _ redirs_syms Hs). intros s1 Hs1. assert (Es : starts (str "<>") ((TSym (rsym k) :: TWord f :: u) ++ rest) = true) by (by destruct k).
    rewrite Es. simpl in Hs1. apply (accepts_token _ _ _ _ _ _ Hs1). intros p s2 Hs2 _. apply (accepts_token _ _ _ _ _ _ Hs2). intros [q eq] s3 Hs3 Hw.
    cbn [kind fst snd Z.eqb Pos.eqb negb]. eapply accepts_bind; [apply (IH s3 rest fuel Hr); [simpl in Hf; lia|done]|]. intros rs s4 Hs4 Hrs.
    rewrite redir_choice. apply accepts_ret; [done|]. constructor; [by split|done].
Qed.

(** What ends a simple command, a pipeline and a line. *)
Definition ends (toks : list Z) (rest : list tok) : Prop := rest = [] \/ starts toks rest = true.

Lemma starts_ends toks toks' rest : ends toks rest -> Forall (fun c => c ∉ toks') toks -> starts toks' rest = false.
Proof.
  intros [->|Hr] Hd; [done|]. rewrite Forall_forall in Hd. destruct rest as [|[w|c] rest]; try done. cbn [starts] in *. apply is_in_spec, Hd in Hr.
  destruct (is_in toks' _) eqn:E; [|done]. by apply is_in_spec in E.
Qed.

Lemma ends_sub toks toks' rest : ends toks rest -> Forall (fun c => c ∈ toks') toks -> ends toks' rest.
Proof.
  intros [->|Hr] Hd; [by left|right]. rewrite Forall_forall in Hd. destruct rest as [|[w|c] rest]; try done. cbn [starts] in *. apply is_in_spec. by apply is_in_spec, Hd in Hr.
Qed.

Lemma exec_complete u ws l : g_args u ws l -> forall argv rs s rest fuel, ends (str "|)&;") rest -> (length u + 1 < fuel)%nat ->
  (length argv + length ws < MAXARGS)%nat -> at_ s (u ++ rest) ->
  accepts (exec_loop m es fuel argv rs) s rest (fun c => exists argv' rs', c = redirect (EXEC (argv ++ argv')) (rs ++ rs') /\
    Forall2 (wordne m) argv' ws /\ Forall2 (redir_ok m) rs' l).
Proof.
  induction 1 as [|w u l v ws l' Hr Hg IH]; intros argv rs s rest fuel He Hf Ha Hs; (destruct fuel as [|fuel]; [lia|]); cbn [exec_loop].
  - assert (Hstop : forall s', at_ s' rest -> accepts (ret (redirect (EXEC argv) rs)) s' rest (fun c => exists argv' rs',
      c = redirect (EXEC (argv ++ argv')) (rs ++ rs') /\ Forall2 (wordne m) argv' [] /\ Forall2 (redir_ok m) rs' [])).
    { intros s' Hs'. apply accepts_ret; [done|]. exists [], []. rewrite !app_nil_r. split_and!; [done|constructor|constructor]. }
    apply (accepts_if _ s rest); [apply exec_syms|done|]. intros s1 Hs1. destruct He as [->|He]; [|rewrite He; by apply Hstop].
    cbn [starts]. destruct (gettoken_toks m es s1 [] Hs1) as (p & s2 & Hs2 & E & _). destruct (Hstop s2 Hs2) as (c & s3 & E3 & Hs3 & HR).
    exists c, s3. split; [|done]. unfold bind. rewrite E. exact E3.
  - simpl in Hs, Hf, Ha. rewrite length_app in Hf. apply (accepts_if _ s _ _ _ _ exec_syms Hs). intros s1 Hs1. cbn [starts].
    apply (accepts_token _ _ _ _ _ _ Hs1). intros p s2 Hs2 Hw. cbn [kind fst snd Z.eqb Pos.eqb negb].
    destruct (Nat.leb_spec MAXARGS (length (argv ++ [p]))) as [Hle|_]; [rewrite length_app in Hle; simpl in Hle; lia|].
    rewrite <- app_assoc in Hs2. eapply accepts_bind; [apply (redirs_complete u l Hr s2 (v ++ rest)); [|lia|done]|].
    { inversion Hg; subst; [|done]. simpl. eapply starts_ends; [exact He|]. chars. }
    intros rs1 s3 Hs3 Hrs. destruct (IH (argv ++ [p]) (rs ++ rs1) s3 rest fuel He) as (c & s4 & E & Hs4 & argv' & rs' & -> & Hw' & Hr');
      [lia|rewrite length_app; simpl; lia|done|].
    exists (redirect (EXEC ((argv ++ [p]) ++ argv')) ((rs ++ rs1) ++ rs')), s4. split; [done|]. split; [done|]. exists (p :: argv'), (rs1 ++ rs').
    rewrite <- !app_assoc. split; [done|]. split; [by constructor|by apply Forall2_app].
Qed.

Lemma back_complete n : forall c s rest fuel, starts (str "&") rest = false -> (n < fuel)%nat -> at_ s (replicate n (TSym 38) ++ rest) ->
  accepts (back_loop m es fuel c) s rest (fun c' => c' = Nat.iter n BACK c).
Proof.
  induction n as [|n IH]; intros c s rest fuel Hr Hf Hs; (destruct fuel as [|fuel]; [lia|]); cbn [back_loop].
  - apply (accepts_if _ s rest); [apply back_syms|done|]. intros s1 Hs1. rewrite Hr. by apply accepts_ret.
  - apply (accepts_if _ s _ _ _ _ back_syms Hs). intros s1 Hs1. simpl in Hs1. apply (accepts_token _ _ _ _ _ _ Hs1). intros p s2 Hs2 _.
    destruct (IH (BACK c) s2 rest fuel Hr) as (c' & s3 & E & Hs3 & ->); [lia|done|]. exists (Nat.iter n BACK (BACK c)), s3. split; [done|].
    split; [done|]. symmetry. apply Nat.iter_succ_r.
Qed.

Lemma back_stop n toks rest : ends toks rest -> ends (38 :: toks) (replicate n (TSym 38) ++ rest).
Proof.
  destruct n as [|n]; [|by right]. intros He. eapply ends_sub; [exact He|]. rewrite Forall_forall. intros c Hc. by right.
Qed.

Lemma parse_complete :
  (forall u a, g_exec u a -> forall s rest fuel, ends (str "|)&;") rest -> (4 * length u + 3 <= fuel)%nat -> at_ s (u ++ rest) ->
     accepts (parseexec m es fuel) s rest (fun c => rep m c a)) /\
  (forall u a, g_pipe u a -> forall s rest fuel, ends (str ")&;") rest -> (4 * length u + 4 <= fuel)%nat -> at_ s (u ++ rest) ->
     accepts (parsepipe m es fuel) s rest (fun c => rep m c a)) /\
  (forall u a, g_line u a -> forall s rest fuel, ends (str ")") rest -> (4 * length u + 5 <= fuel)%nat -> at_ s (u ++ rest) ->
     accepts (parseline m es fuel) s rest (fun c => rep m c a)).
Proof.
  apply g_mutind.
  - intros u l v ws l' Hr Hg Hlen s rest fuel He Hf Hs. destruct fuel as [|fuel]; [lia|]. rewrite length_app in Hf. cbn [parseexec].
    apply (accepts_if _ s _ _ _ _ open_syms Hs). intros s1 Hs1. rewrite <- app_assoc in Hs1.
    assert (Hv : starts (str "<>") (v ++ rest) = false) by (inversion Hg; subst; [simpl; eapply starts_ends; [exact He|chars]|done]).
    assert (Ho : starts (str "(") ((u ++ v) ++ rest) = false).
    { inversion Hr as [|k f u' l0 Hr']; subst; [|by destruct k]. simpl. inversion Hg; subst; [simpl; eapply starts_ends; [exact He|chars]|done]. }
    rewrite Ho. eapply accepts_bind; [apply (redirs_complete u l Hr s1 (v ++ rest)); [done|lia|done]|]. intros rs s2 Hs2 Hrs.
    destruct (exec_complete v ws l' Hg [] rs s2 rest fuel He) as (c & s3 & E & Hs3 & argv' & rs' & -> & Hw & Hr'); [lia|done|done|].
    eexists _, s3. split; [exact E|]. split; [done|]. apply rep_redirect; [by constructor|by apply Forall2_app].
  - intros u c v l Hg IH Hr s rest fuel He Hf Hs. destruct fuel as [|[|fuel]]; [simpl in Hf; lia|simpl in Hf; lia|]. cbn [parseexec parseblock].
    simpl in Hf. rewrite length_app in Hf. simpl in Hf. simpl in Hs. rewrite <- app_assoc in Hs. simpl in Hs.
    apply (accepts_if _ s _ _ _ _ open_syms Hs). intros s1 Hs1. cbn [starts]. change (is_in (str "(") _) with true. cbv iota.
    apply (accepts_if _ s1 _ _ _ _ open_syms Hs1). intros s2 Hs2. cbn [starts]. change (is_in (str "(") _) with true. cbn [negb].
    apply (accepts_token _ _ _ _ _ _ Hs2). intros p s3 Hs3 _.
    eapply accepts_bind; [apply (IH s3 (TSym 41 :: v ++ rest)); [by right|lia|done]|]. intros c' s4 Hs4 Hc.
    apply (accepts_if _ s4 _ _ _ _ close_syms Hs4). intros s5 Hs5. cbn [starts]. change (is_in (str ")") _) with true. cbn [negb].
    apply (accepts_token _ _ _ _ _ _ Hs5). intros p' s6 Hs6 _.
    eapply accepts_bind; [apply (redirs_complete v l Hr s6 rest); [eapply starts_ends; [exact He|chars]|lia|done]|]. intros rs s7 Hs7 Hrs.
    apply accepts_ret; [done|]. by apply rep_redirect.
  - intros u c Hg IH s rest fuel He Hf Hs. destruct fuel as [|fuel]; [lia|]. cbn [parsepipe].
    eapply accepts_bind; [apply (IH s rest); [eapply ends_sub; [exact He|chars]|lia|done]|]. intros c' s1 Hs1 Hc.
    apply (accepts_if _ s1 _ _ _ _ pipe_syms Hs1). intros s2 Hs2. rewrite (starts_ends _ _ _ He) by chars. by apply accepts_ret.
  - intros u c v d Hg IHe Hg' IHp s rest fuel He Hf Hs. destruct fuel as [|fuel]; [lia|]. cbn [parsepipe]. rewrite length_app in Hf. simpl in Hf.
    rewrite <- app_assoc in Hs. simpl in Hs.
    eapply accepts_bind; [apply (IHe s (TSym 124 :: v ++ rest)); [by right|lia|done]|]. intros c' s1 Hs1 Hc.
    apply (accepts_if _ s1 _ _ _ _ pipe_syms Hs1). intros s2 Hs2. cbn [starts]. change (is_in (str "|") _) with true. cbv iota.
    apply (accepts_token _ _ _ _ _ _ Hs2). intros p s3 Hs3 _.
    eapply accepts_bind; [apply (IHp s3 rest); [done|lia|done]|]. intros d' s4 Hs4 Hd. apply accepts_ret; [done|]. by constructor.
  - intros u c n Hg IH s rest fuel He Hf Hs. destruct fuel as [|fuel]; [lia|]. cbn [parseline]. rewrite length_app, length_replicate in Hf.
    rewrite <- app_assoc in Hs. eapply accepts_bind; [apply (IH s (replicate n (TSym 38) ++ rest)); [|lia|done]|].
    { eapply ends_sub; [by apply back_stop|]. chars. }
    intros c' s1 Hs1 Hc. eapply accepts_bind; [apply (back_complete n c' s1 rest); [eapply starts_ends; [exact He|chars]|lia|done]|].
    intros c2 s2 Hs2 ->. apply (accepts_if _ s2 _ _ _ _ list_syms Hs2). intros s3 Hs3. rewrite (starts_ends _ _ _ He) by chars.
    apply accepts_ret; [done|]. by apply iter_back.
  - intros u c n v d Hg IH Hg' IHl s rest fuel He Hf Hs. destruct fuel as [|fuel]; [lia|]. cbn [parseline].
    rewrite !length_app, length_replicate in Hf. simpl in Hf. rewrite <- !app_assoc in Hs. simpl in Hs.
    assert (Hsc : ends (str ";") (TSym 59 :: v ++ rest)) by (by right).
    eapply accepts_bind; [apply (IH s (replicate n (TSym 38) ++ TSym 59 :: v ++ rest)); [|lia|done]|].
    { eapply ends_sub; [by apply back_stop|]. chars. }
    intros c' s1 Hs1 Hc. eapply accepts_bind; [apply (back_complete n c' s1 _); [eapply starts_ends; [exact Hsc|chars]|lia|exact Hs1]|].
    intros c2 s2 Hs2 ->. apply (accepts_if _ s2 _ _ _ _ list_syms Hs2). intros s3 Hs3. cbn [starts]. change (is_in (str ";") _) with true. cbv iota.
    apply (accepts_token _ _ _ _ _ _ Hs3). intros p s4 Hs4 _.
    eapply accepts_bind; [apply (IHl s4 rest); [done|lia|done]|]. intros d' s5 Hs5 Hd. apply accepts_ret; [done|]. constructor; [by apply iter_back|done].
Qed.
End Parse.

(** * The shell's parser: theorems *)

(** ** Terminated words *)

(** The command with its words as C strings. *)
Inductive ready (m : mem) : cmd -> acmd -> Prop :=
  | ready_exec argv ws : Forall2 (fun p w => cstr m p.1 w) argv ws -> ready m (EXEC argv) (AExec ws)
  | ready_redir c a r k f : ready m c a -> cstr m (r_file r) f -> r_mode r = rmode k -> r_fd r = rfd k ->
      ready m (REDIR c r) (ARedir a k f)
  | ready_pipe l l' r r' : ready m l l' -> ready m r r' -> ready m (PIPE l r) (APipe l' r')
  | ready_list l l' r r' : ready m l l' -> ready m r r' -> ready m (LIST l r) (AList l' r')
  | ready_back c a : ready m c a -> ready m (BACK c) (ABack a).

(** The addresses behind the words. *)
Fixpoint word_ends (c : cmd) : list Z :=
  match c with
  | EXEC argv => snd <$> argv
  | REDIR c r => word_ends c ++ [r_efile r]
  | PIPE l r | LIST l r => word_ends l ++ word_ends r
  | BACK c => word_ends c
  end.

Lemma foldl_zeros argv : forall m a, rd (foldl (fun m (w : Z * Z) => wr m (snd w) 0) m argv) a = if decide (a ∈ snd <$> argv) then 0 else rd m a.
Proof.
  induction argv as [|p argv IH]; intros m a; cbn [foldl fmap list_fmap]; [rewrite decide_False; [done|apply not_elem_of_nil]|]. rewrite IH, rd_wr.
  destruct (decide (a ∈ snd <$> argv)) as [Hin|Hno]; [by rewrite decide_True by (by right)|].
  destruct (decide (p.2 = a)) as [<-|Hne]; [by rewrite decide_True by left|]. rewrite decide_False; [done|].
  intros [->|?]%elem_of_cons; done.
Qed.

Lemma rd_nulterminate c : forall m a, rd (nulterminate m c) a = if decide (a ∈ word_ends c) then 0 else rd m a.
Proof.
  assert (Happ : forall (l1 l2 : list Z) (a x : Z),
    (if decide (a ∈ l2) then 0 else if decide (a ∈ l1) then 0 else x) = if decide (a ∈ l1 ++ l2) then 0 else x).
  { intros l1 l2 a x. destruct (decide (a ∈ l2)) as [H2|H2]; [rewrite decide_True; [done|]; apply elem_of_app; by right|].
    destruct (decide (a ∈ l1)) as [H1|H1]; [rewrite decide_True; [done|]; apply elem_of_app; by left|].
    rewrite decide_False; [done|]. intros [?|?]%elem_of_app; done. }
  induction c as [argv|c IH r|l IHl r IHr|l IHl r IHr|c IH]; intros m a; cbn [nulterminate word_ends]; rewrite ?IHr, ?IHl, ?IH.
  - apply foldl_zeros.
  - rewrite rd_wr, IH, <- Happ. destruct (decide (r_efile r = a)) as [<-|Hne].
    + by rewrite decide_True by (by apply list_elem_of_singleton).
    + rewrite (decide_False (P := a ∈ [r_efile r])); [done|]. intros ->%list_elem_of_singleton. done.
  - apply Happ.
  - apply Happ.
  - done.
Qed.

Section Terminate.
Variables (m m' : mem) (E : list Z).
Hypothesis Hm' : forall a, rd m' a = if decide (a ∈ E) then 0 else rd m a.
(** No end of a word is inside a word. *)
Hypothesis Hends : Forall (fun e => rd m e = 0 \/ ordinary (rd m e) = false) E.

Lemma word_terminated p w : word_at m p w -> p.2 ∈ E -> cstr m' p.1 w.
Proof.
  intros (H1 & H2 & H3 & H4) Hin. split.
  - intros i b Hi. pose proof (lookup_lt_Some _ _ _ Hi) as Hl. rewrite Forall_lookup in H3. destruct (H3 i b Hi) as [Ho Hz]. split; [done|].
    assert (Er : rd m (p.1 + Z.of_nat i) = b) by (rewrite <- H2, lookup_bytes in Hi by done; by injection Hi).
    rewrite Hm', decide_False; [done|]. intros He. rewrite Forall_forall in Hends. destruct (Hends _ He) as [Hbad|Hbad]; congruence.
  - rewrite <- H1, Hm'. by rewrite decide_True.
Qed.

Lemma rep_ready c a : rep m c a -> (forall e, e ∈ word_ends c -> e ∈ E) -> ready m' c a.
Proof.
  induction 1 as [argv ws Hw|c a r x Hc IH Hr|l l' r r' Hl IHl Hr IHr|l l' r r' Hl IHl Hr IHr|c a Hc IH]; intros He; cbn [word_ends] in He.
  - constructor. induction Hw as [|p w argv ws [Hp _] Hw IH]; constructor; [apply word_terminated; [done|]; apply He; left|].
    apply IH. intros e Hin. apply He. by right.
  - destruct Hr as ([Hr _] & E1 & E2). constructor; [|by apply word_terminated in Hr; [|apply He, elem_of_app; right; left]|done|done].
    apply IH. intros e Hin. apply He, elem_of_app. by left.
  - constructor; [apply IHl|apply IHr]; intros e Hin; apply He, elem_of_app; auto.
  - constructor; [apply IHl|apply IHr]; intros e Hin; apply He, elem_of_app; auto.
  - constructor. by apply IH.
Qed.
End Terminate.

Lemma rep_ends m c a : rep m c a -> Forall (fun e => rd m e = 0 \/ ordinary (rd m e) = false) (word_ends c).
Proof.
  induction 1 as [argv ws Hw|c a r x Hc IH Hr|l l' r r' Hl IHl Hr IHr|l l' r r' Hl IHl Hr IHr|c a Hc IH]; cbn [word_ends].
  - induction Hw as [|p w argv ws [(_ & _ & _ & Hp) _] Hw IH]; simpl; by constructor.
  - apply Forall_app. split; [done|]. destruct Hr as ([(_ & _ & _ & Hp) _] & _). by constructor.
  - by apply Forall_app.
  - by apply Forall_app.
  - done.
Qed.

Lemma nulterminate_ready m c a : rep m c a -> ready (nulterminate m c) c a.
Proof. intros Hr. eapply (rep_ready m _ (word_ends c)); [apply rd_nulterminate|by eapply rep_ends|done|done]. Qed.

(** ** The parser *)

(** The end of the line is reached when no token is left. *)
Lemma at_end m es s ts : at_toks m es s ts -> (skip_space m es s =? es) = true <-> ts = [].
Proof.
  intros (t & Ht & <-). pose proof (skip_space_at m es s t Ht) as [_ He]. rewrite Z.eqb_eq, lex_unfold. unfold next.
  destruct (dropw space t) as [|c t1]; simpl in He; [split; [done|lia]|]. split; [lia|].
  destruct (is_in _ c); [done|]. destruct (c =? 62); [|done]. destruct t1 as [|d t1]; [done|]. by destruct (d =? 62).
Qed.

Section Parsecmd.
Variables (fuel : nat) (m : mem) (s : Z) (line : list Z).
Hypotheses (Hl : cstr m s line) (Hlen : Z.of_nat (length line) < 2 ^ 32) (Hf : (4 * length line + 5 <= fuel)%nat).
Let es := s + Z.of_nat (length line).

Lemma parsecmd_accepts a : g_line (lex line) a -> exists c m', parsecmd fuel m s = Ok (c, m') tt /\ ready m' c a.
Proof.
  intros Hg. unfold parsecmd. rewrite (strlen_spec fuel m s line) by (done || lia). fold es. pose proof (lex_length line) as Hll.
  assert (Hat : at_toks m es s (lex line)) by (by exists line).
  destruct (proj2 (proj2 (parse_complete m es)) _ _ Hg s [] fuel) as (c & s' & -> & Hs' & Hr); [by left|lia|by rewrite app_nil_r|].
  rewrite (proj2 (at_end m es s' [] Hs') eq_refl). exists c, (nulterminate m c). split; [done|]. by apply nulterminate_ready.
Qed.

Lemma parsecmd_rejects : (~ exists a, g_line (lex line) a) -> exists msg, parsecmd fuel m s = Fail (EPanic msg).
Proof.
  intros Hno. unfold parsecmd. rewrite (strlen_spec fuel m s line) by (done || lia). fold es. pose proof (lex_length line) as Hll.
  assert (Hat : at_toks m es s (lex line)) by (by exists line).
  pose proof (proj1 (parse_ok m es fuel s (lex line) Hat) ltac:(lia)) as Hp. unfold runs_to in Hp.
  destruct (parseline m es fuel s) as [c s'|[msg| | |]]; try done; [|by exists msg]. destruct Hp as (u & ts & E & Hs' & a & Hr & Hg).
  destruct (skip_space m es s' =? es) eqn:Es; [|by eexists]. apply (at_end _ _ _ _ Hs') in Es as ->. exfalso. apply Hno. exists a.
  by rewrite E, app_nil_r.
Qed.
End Parsecmd.

(** C9: the shell's parser recognises the grammar of commands. For every
    line, with a number of steps proportional to its length, [parsecmd]
    returns: if the tokens of the line form a command, it returns that
    command, its words NUL-terminated in the buffer; if they do not, it
    reports an error. *)
Theorem sh_parser_recognises fuel m s line :
  cstr m s line -> Z.of_nat (length line) < 2 ^ 32 -> (4 * length line + 5 <= fuel)%nat ->
  (forall a, g_line (lex line) a -> exists c m', parsecmd fuel m s = Ok (c, m') tt /\ ready m' c a) /\
  ((~ exists a, g_line (lex line) a) -> exists msg, parsecmd fuel m s = Fail (EPanic msg)).
Proof. intros Hl Hlen Hf. split; [by apply parsecmd_accepts|by apply parsecmd_rejects]. Qed.

(** The line "cat<a|wc&". *)
Lemma sh_parser_recognises_witness :
  exists c m', parsecmd 100 (wr_bytes ∅ 100 (str "cat<a|wc&")) 100 = Ok (c, m') tt /\
    ready m' c (ABack (APipe (ARedir (AExec [str "cat"]) RIn (str "a")) (AExec [str "wc"]))).
Proof.
  refine (proj1 (sh_parser_recognises 100 (wr_bytes ∅ 100 (str "cat<a|wc&")) 100 (str "cat<a|wc&") _ _ _) _ _).
  - apply bytes_cstr; [apply (bool_decide_unpack (Forall _ _)); vm_compute; exact I|vm_compute; reflexivity|vm_compute; reflexivity].
  - vm_compute. reflexivity.
  - vm_compute. lia.
  - assert (El : lex (str "cat<a|wc&") = ([TWord (str "cat"); TSym 60; TWord (str "a")] ++ TSym 124 :: [TWord (str "wc")]) ++ replicate 1 (TSym 38))
      by (vm_compute; reflexivity).
    rewrite El. apply (g_last _ (APipe (ARedir (AExec [str "cat"]) RIn (str "a")) (AExec [str "wc"])) 1). apply g_more.
    + apply (g_simple [] [] _ [str "cat"] [(RIn, str "a")]); [constructor| |vm_compute; lia].
      apply (g_args_cons (str "cat") [TSym 60; TWord (str "a")] [(RIn, str "a")] [] [] []); [|constructor].
      apply (g_redirs_cons RIn (str "a") [] []). constructor.
    + apply g_one. apply (g_simple [] [] _ [str "wc"] []); [constructor| |vm_compute; lia].
      apply (g_args_cons (str "wc") [] [] [] [] []); constructor.
Defined.
