(* ===== verification/ShRun.v ===== *)
(** * The shell runs commands

    [runcmd], [fork1], [panic], [getcmd] and [main] of [user/sh.c], as the
    trees [sys] of the system calls they make; and what the calls do to the
    descriptor tables of the processes, as a tree [plan] with a branch for each
    outcome that the kernel chooses.  The last theorem goes from the text of a
    line to the processes that run it. *)

From S2P Require Import Prelude Mem CString Riscv ULib UPrintf Programs Sh GrepSpec ShSpec ShParse.

(** ** Programs of system calls *)

(** A program as the tree of its calls; a continuation takes the result.
    [SStuck] is a loop out of steps.  The result of [close] is not used, and
    neither is that of [wait]; [SWait true] is the call that stores the exit
    message, which [SPrintMsg] prints with a newline. *)
Inductive sys :=
  | SStuck
  | SExit (status : Z)
  | SPrint (fd : Z) (bs : list Z) (k : sys)
  | SPrintMsg (fd : Z) (k : sys)
  | SExec (path : list Z) (argv : list (list Z)) (k : sys)
  | SOpen (path : list Z) (mode : Z) (k : Z -> sys)
  | SClose (fd : Z) (k : sys)
  | SDup (fd : Z) (k : Z -> sys)
  | SPipe (k : option (Z * Z) -> sys)
  | SFork (k : Z -> sys)
  | SWait (msg : bool) (k : sys)
  | SChdir (path : list Z) (k : Z -> sys)
  | SGets (max : Z) (k : list Z -> sys).   (** the line [gets] puts in a buffer of [max] bytes *)

Definition panic (s : string) : sys := SPrint 2 (str s ++ NL) (SExit 1).

(** Fork, but panics on failure. *)
Definition fork1 (k : Z -> sys) : sys := SFork (fun pid => if pid =? -1 then panic "fork" else k pid).

Section Run.
Variable fuel : nat.   (** steps of the loops over the line *)
Variable m : mem.

(** The string at [p], as a call or a conversion [%s] reads it. *)
Definition with_string (p : Z) (k : list Z -> sys) : sys :=
  match string_at fuel m p with None => SStuck | Some w => k w end.

(** Never returns: what follows a call of it is not reached. *)
Fixpoint runcmd (c : cmd) : sys :=
  match c with
  | EXEC argv =>
      match argv with
      | [] => SExit 1
      | (p, _) :: _ =>
          with_string p (fun path =>
          match mapM (string_at fuel m) (fst <$> argv) with
          | None => SStuck
          | Some args => SExec path args (SPrint 2 (str "exec " ++ path ++ str " failed" ++ NL) (SExit 0))
          end)
      end
  | REDIR c r =>
      SClose (r_fd r) (
      with_string (r_file r) (fun file =>
      SOpen file (r_mode r) (fun fd =>
      if fd <? 0 then SPrint 2 (str "open " ++ file ++ str " failed" ++ NL) (SExit 1)
      else runcmd c)))
  | LIST l r =>
      fork1 (fun pid =>
      if pid =? 0 then runcmd l else SWait false (runcmd r))
  | PIPE l r =>
      SPipe (fun p =>
      match p with
      | None => panic "pipe"
      | Some (p0, p1) =>
          fork1 (fun pid =>
          if pid =? 0 then SClose 1 (SDup p1 (fun _ => SClose p0 (SClose p1 (runcmd l)))) else
          fork1 (fun pid =>
          if pid =? 0 then SClose 0 (SDup p0 (fun _ => SClose p0 (SClose p1 (runcmd r)))) else
          SClose p0 (SClose p1 (SWait false (SWait false (SExit 0))))))
      end)
  | BACK c =>
      fork1 (fun pid =>
      if pid =? 0 then runcmd c else SExit 0)
  end.

(** What the parser prints on descriptor 2 before it exits. *)
Definition parse_report (s : Z) (e : string) (k : list Z -> sys) : sys :=
  match strlen fuel m s with
  | None => SStuck
  | Some n =>
      match parseline m (s + n) fuel s with
      | Fail _ => k (str e ++ NL)
      | Ok _ s' =>
          with_string (skip_space m (s + n) s') (fun rest => k (str "leftovers: " ++ rest ++ NL ++ str e ++ NL))
      end
  end.

End Run.

(** runcmd(parsecmd(buf)), in the child. *)
Definition run_line (fuel : nat) (m : mem) (buf : Z) : sys :=
  match parsecmd fuel m buf with
  | Ok (c, m) _ => runcmd fuel m c
  | Fail (EPanic e) => parse_report fuel m buf e (fun out => SPrint 2 out (SExit 1))
  | Fail _ => SStuck
  end.

Section Main.
Variables (fuel : nat) (buf : Z).   (** &buf[0], of 100 bytes *)

(** Prompts, clears the buffer and reads a line; a first byte of 0 is the end
    of the input. *)
Definition getcmd (m : mem) (nbuf : Z) (k : Z -> mem -> sys) : sys :=
  SPrint 2 (str "$ ") (
  SGets nbuf (fun line =>
  let m := wr (wr_bytes (wr_bytes m buf (replicate (Z.to_nat nbuf) 0)) buf line) (buf + Z.of_nat (length line)) 0 in
  k (if rd m buf =? 0 then -1 else 0) m)).

Fixpoint open_console (n : nat) (k : sys) : sys :=
  match n with
  | O => SStuck
  | S n =>
      SOpen (str "console") O_RDWR (fun fd =>
      if 0 <=? fd then (if 3 <=? fd then SClose fd k else open_console n k) else k)
  end.

(** The body of the loop over the lines. *)
Definition turn (m : mem) (k : mem -> sys) : sys :=
  if (rd m buf =? 99) && (rd m (buf + 1) =? 100) && (rd m (buf + 2) =? 32) then
    match strlen fuel m buf with
    | None => SStuck
    | Some n =>
        let m := wr m (buf + u32 (n - 1)) 0 in
        with_string fuel m (buf + 3) (fun dir =>
        SChdir dir (fun r =>
        if r <? 0 then SPrint 2 (str "cannot cd " ++ dir ++ NL) (k m) else k m))
    end
  else
    fork1 (fun pid =>
    if pid =? 0 then run_line fuel m buf else
    SWait true (SPrintMsg 1 (k m))).

Fixpoint main_loop (n : nat) (m : mem) : sys :=
  match n with
  | O => SStuck
  | S n => getcmd m 100 (fun r m => if 0 <=? r then turn m (main_loop n) else SExit 0)
  end.
Definition main (n : nat) (m : mem) : sys := open_console n (main_loop n m).
End Main.

(** ** What the calls do *)

(** What a descriptor refers to: a file the process started with, a file
    opened by the shell, or an end of the pipe [id]. *)
Inductive chan :=
  | CInherited (n : Z)
  | CFile (path : list Z) (mode : Z)
  | CPipeR (id : list nat)
  | CPipeW (id : list nat).

Abbreviation fdtab := (gmap Z chan).

(** The least free descriptor. *)
Definition lowest (T : fdtab) : option Z := snd <$> list_find (fun fd => T !! fd = None) (seqZ 0 NOFILE).

(** The processes: [PExec] with the table the program starts with, [PPrint]
    with where the text goes. *)
Inductive plan :=
  | PStuck
  | PExit (status : Z)
  | PPrint (c : option chan) (bs : list Z) (k : plan)
  | PPrintMsg (c : option chan) (k : plan)
  | PExec (path : list Z) (argv : list (list Z)) (T : fdtab) (failed : plan)
  | POpen (path : list Z) (mode : Z) (ok failed : plan)
  | PPipe (id : list nat) (ok failed : plan)
  | PFork (child parent failed : plan)
  | PWait (msg : bool) (k : plan)
  | PChdir (path : list Z) (ok failed : plan)
  | PGets (max : Z) (k : list Z -> plan).

Section Interp.
Variable newpid : list nat -> Z.   (** the id that [fork] returns for a new process *)

(** Process [me] with table [T], which has made [n] pipes and children so
    far; these are named by [me] and a number. *)
Fixpoint interp (p : sys) (T : fdtab) (me : list nat) (n : nat) : plan :=
  match p with
  | SStuck => PStuck
  | SExit status => PExit status
  | SPrint fd bs k => PPrint (T !! fd) bs (interp k T me n)
  | SPrintMsg fd k => PPrintMsg (T !! fd) (interp k T me n)
  | SExec path argv k => PExec path argv T (interp k T me n)
  | SOpen path mode k =>
      match lowest T with
      | Some fd => POpen path mode (interp (k fd) (<[fd := CFile path mode]> T) me n) (interp (k (-1)) T me n)
      | None => interp (k (-1)) T me n
      end
  | SClose fd k => interp k (delete fd T) me n
  | SDup fd k =>
      match T !! fd, lowest T with
      | Some c, Some fd' => interp (k fd') (<[fd' := c]> T) me n
      | _, _ => interp (k (-1)) T me n
      end
  | SPipe k =>
      let id := me ++ [n] in
      match lowest T with
      | None => interp (k None) T me n
      | Some p0 =>
          let T0 := <[p0 := CPipeR id]> T in
          match lowest T0 with
          | None => interp (k None) T me n
          | Some p1 =>
              PPipe id (interp (k (Some (p0, p1))) (<[p1 := CPipeW id]> T0) me (S n)) (interp (k None) T me n)
          end
      end
  | SFork k =>
      let id := me ++ [n] in
      PFork (interp (k 0) T id 0) (interp (k (newpid id)) T me (S n)) (interp (k (-1)) T me n)
  | SWait msg k => PWait msg (interp k T me n)
  | SChdir path k => PChdir path (interp (k 0) T me n) (interp (k (-1)) T me n)
  | SGets max k => PGets max (fun line => interp (k line) T me n)
  end.

(** ** What a command asks for *)

(** The panic of a process with table [T]. *)
Definition plan_panic (T : fdtab) (s : string) : plan := PPrint (T !! 2) (str s ++ NL) (PExit 1).

(** A program runs with the descriptors it is given; a redirection gives it
    the file, and a pipe gives the left side the write end as its output and
    the right side the read end as its input. *)
Fixpoint behaviour (a : acmd) (T : fdtab) (me : list nat) (n : nat) : plan :=
  match a with
  | AExec [] => PExit 1
  | AExec (path :: args) => PExec path (path :: args) T (PPrint (T !! 2) (str "exec " ++ path ++ str " failed" ++ NL) (PExit 0))
  | ARedir a k file =>
      POpen file (rmode k) (behaviour a (<[rfd k := CFile file (rmode k)]> T) me n)
        (PPrint (T !! 2) (str "open " ++ file ++ str " failed" ++ NL) (PExit 1))
  | AList l r =>
      PFork (behaviour l T (me ++ [n]) 0) (PWait false (behaviour r T me (S n))) (plan_panic T "fork")
  | APipe l r =>
      PPipe (me ++ [n])
        (PFork (behaviour l (<[1 := CPipeW (me ++ [n])]> T) (me ++ [S n]) 0)
          (PFork (behaviour r (<[0 := CPipeR (me ++ [n])]> T) (me ++ [S (S n)]) 0)
            (PWait false (PWait false (PExit 0)))
            (plan_panic T "fork"))
          (plan_panic T "fork"))
        (plan_panic T "pipe")
  | ABack a => PFork (behaviour a T (me ++ [n]) 0) (PExit 0) (plan_panic T "fork")
  end.

(** The tables that programs of a plan start with. *)
Fixpoint starts_with (P : fdtab -> Prop) (p : plan) : Prop :=
  match p with
  | PStuck | PExit _ => True
  | PPrint _ _ k | PPrintMsg _ k | PWait _ k => starts_with P k
  | PExec _ _ T failed => P T /\ starts_with P failed
  | POpen _ _ p q | PPipe _ p q | PChdir _ p q => starts_with P p /\ starts_with P q
  | PFork p q r => starts_with P p /\ starts_with P q /\ starts_with P r
  | PGets _ k => forall line, starts_with P (k line)
  end.

(** ** Descriptor tables *)

Definition valid_fd (fd : Z) : Prop := 0 <= fd < NOFILE.

Lemma seqZ_nth i x : seqZ 0 NOFILE !! i = Some x -> x = Z.of_nat i /\ valid_fd x.
Proof. intros H%lookup_seqZ. unfold valid_fd. lia. Qed.

Lemma lowest_Some T fd : lowest T = Some fd -> valid_fd fd /\ T !! fd = None.
Proof.
  unfold lowest. intros ((i & x) & (Hi & Hx & _)%list_find_Some & ->)%fmap_Some. by apply seqZ_nth in Hi as [_ ?].
Qed.

(** The descriptor that is filled when all below it are open. *)
Lemma lowest_at T fd : valid_fd fd -> T !! fd = None -> (forall x, 0 <= x < fd -> is_Some (T !! x)) -> lowest T = Some fd.
Proof.
  intros Hv Hn Hb. unfold lowest. apply fmap_Some. exists (Z.to_nat fd, fd). split; [|done]. apply list_find_Some. split; [|split; [done|]].
  - apply lookup_seqZ. unfold valid_fd in Hv. lia.
  - intros j y [-> Hy]%seqZ_nth Hj Hno. unfold valid_fd in Hv. destruct (Hb (Z.of_nat j)) as [c Hc]; [lia|]. congruence.
Qed.

Lemma lowest_free T fd : valid_fd fd -> T !! fd = None -> exists fd', lowest T = Some fd'.
Proof.
  intros Hv Hn. unfold lowest. destruct (list_find _ _) as [[i x]|] eqn:E; [by exists x|]. apply list_find_None in E.
  rewrite Forall_forall in E. destruct (E fd); [|done]. apply elem_of_seqZ. unfold valid_fd in Hv. lia.
Qed.

(** The tables the shell works with: the three standard descriptors are open,
    and there is room for a pipe. *)
Definition shell_tab (T : fdtab) : Prop :=
  (forall x, 0 <= x < 3 -> is_Some (T !! x)) /\
  exists a b, a <> b /\ valid_fd a /\ valid_fd b /\ T !! a = None /\ T !! b = None.

Lemma shell_tab_insert T fd c : shell_tab T -> 0 <= fd < 3 -> shell_tab (<[fd := c]> T).
Proof.
  intros (Hs & a & b & Hab & Ha & Hb & Ea & Eb) Hfd. destruct (Hs fd Hfd) as [d Hd]. split.
  - intros x Hx. rewrite lookup_insert. case_decide; [done|by apply Hs].
  - exists a, b. rewrite !lookup_insert_ne by congruence. done.
Qed.

Lemma dom_insert_open (T : fdtab) fd c : is_Some (T !! fd) -> dom (<[fd := c]> T) = dom T.
Proof. intros H%elem_of_dom. rewrite dom_insert_L. set_solver. Qed.

(** Once closed, a standard descriptor is the least free one. *)
Lemma lowest_closed T fd : (forall x, 0 <= x < 3 -> is_Some (T !! x)) -> 0 <= fd < 3 -> lowest (delete fd T) = Some fd.
Proof.
  intros Hs Hfd. apply lowest_at; [unfold valid_fd, NOFILE; lia|apply lookup_delete_eq|].
  intros x Hx. rewrite lookup_delete_ne by lia. apply Hs. lia.
Qed.

(** The descriptors of a new pipe. *)
Lemma lowest_pipe T c : shell_tab T -> exists p0 p1, lowest T = Some p0 /\ lowest (<[p0 := c]> T) = Some p1 /\
  3 <= p0 /\ 3 <= p1 /\ p0 <> p1 /\ T !! p0 = None /\ T !! p1 = None.
Proof.
  intros (Hs & a & b & Hab & Ha & Hb & Ea & Eb). destruct (lowest_free T a Ha Ea) as [p0 E0].
  assert (exists p1, lowest (<[p0 := c]> T) = Some p1) as [p1 E1].
  { destruct (decide (p0 = a)) as [->|Hne].
    - apply (lowest_free _ b); [done|]. by rewrite lookup_insert_ne.
    - apply (lowest_free _ a); [done|]. by rewrite lookup_insert_ne. }
  exists p0, p1. split; [done|]. split; [done|]. apply lowest_Some in E0 as [V0 N0], E1 as [V1 N1].
  assert (p0 <> p1) as Hp by (intros ->; by rewrite lookup_insert_eq in N1). rewrite lookup_insert_ne in N1 by done.
  assert (Hge : forall x, valid_fd x -> T !! x = None -> 3 <= x).
  { intros x Vx Nx. unfold valid_fd in Vx. destruct (decide (x < 3)); [|lia]. destruct (Hs x) as [d Hd]; [lia|]. congruence. }
  split; [by apply Hge|]. split; [by apply Hge|]. done.
Qed.

(** Closing, duplicating and closing again leaves the end of the pipe in the
    place of a standard descriptor, and nothing else. *)
Lemma pipe_wired (T : fdtab) fd p0 p1 c0 c1 c : fd <> p0 -> fd <> p1 -> T !! p0 = None -> T !! p1 = None ->
  delete p1 (delete p0 (<[fd := c]> (delete fd (<[p1 := c1]> (<[p0 := c0]> T))))) = <[fd := c]> T.
Proof.
  intros H0 H1 E0 E1. apply map_eq. intros x. destruct (decide (x = fd)) as [->|Hx].
  { by rewrite !lookup_delete_ne, !lookup_insert_eq by done. }
  destruct (decide (x = p1)) as [->|Hx1]; [by rewrite lookup_delete_eq, lookup_insert_ne|]. rewrite lookup_delete_ne by done.
  destruct (decide (x = p0)) as [->|Hx0]; [by rewrite lookup_delete_eq, lookup_insert_ne|].
  by rewrite lookup_delete_ne, lookup_insert_ne, lookup_delete_ne, !lookup_insert_ne by done.
Qed.

(** ** Running a command *)

Hypothesis newpid_pos : forall id, 0 < newpid id.

(** [fork1]: the child, the parent and the failure. *)
Lemma interp_fork1 k T me n :
  interp (fork1 k) T me n = PFork (interp (k 0) T (me ++ [n]) 0) (interp (k (newpid (me ++ [n]))) T me (S n)) (plan_panic T "fork").
Proof.
  pose proof (newpid_pos (me ++ [n])). unfold fork1. cbn [interp]. rewrite (proj2 (Z.eqb_neq (newpid _) (-1))) by lia. done.
Qed.

(** The end of a pipe moves to a standard descriptor. *)
Lemma interp_wire (T : fdtab) fd p0 p1 c0 c1 p k me n : shell_tab T -> 0 <= fd < 3 -> 3 <= p0 -> 3 <= p1 -> p0 <> p1 ->
  T !! p0 = None -> T !! p1 = None -> p = p0 \/ p = p1 ->
  interp (SClose fd (SDup p (fun _ => SClose p0 (SClose p1 k)))) (<[p1 := c1]> (<[p0 := c0]> T)) me n =
  interp k (<[fd := if decide (p = p0) then c0 else c1]> T) me n.
Proof.
  intros [Hs _] Hfd H0 H1 Hp E0 E1 Hc. cbn [interp].
  assert (Hl : forall x, 0 <= x < 3 -> is_Some ((<[p1 := c1]> (<[p0 := c0]> T) : fdtab) !! x))
    by (intros x Hx; rewrite !lookup_insert_ne by lia; by apply Hs).
  rewrite (lowest_closed _ fd Hl Hfd). rewrite lookup_delete_ne by lia.
  replace ((<[p1:=c1]> (<[p0:=c0]> T) : fdtab) !! p) with (Some (if decide (p = p0) then c0 else c1)).
  - by rewrite pipe_wired by (done || lia).
  - case_decide as Hd; [subst p; by rewrite lookup_insert_ne, lookup_insert_eq by done|]. destruct Hc as [?| ->]; [done|]. by rewrite lookup_insert_eq.
Qed.

Lemma string_at_cstr fuel m p w : cstr m p w -> (length w < fuel)%nat -> string_at fuel m p = Some w.
Proof.
  revert p w. induction fuel as [|fuel IH]; intros p w Hp Hf; [lia|]. cbn [string_at].
  apply cstr_inv in Hp as [[-> ->]|(x & w' & -> & Hx & -> & Hp)]; [done|]. rewrite (proj2 (Z.eqb_neq _ _) Hx). simpl in Hf.
  by rewrite (IH _ w') by (done || lia).
Qed.

(** The words of a command. *)
Fixpoint words_of (a : acmd) : list (list Z) :=
  match a with
  | AExec ws => ws
  | ARedir a _ f => words_of a ++ [f]
  | APipe l r | AList l r => words_of l ++ words_of r
  | ABack a => words_of a
  end.

Definition fit (fuel : nat) (a : acmd) : Prop := Forall (fun w => (length w < fuel)%nat) (words_of a).

Lemma strings_at fuel m argv ws : Forall2 (fun (p : Z * Z) w => cstr m p.1 w) argv ws -> Forall (fun w => (length w < fuel)%nat) ws ->
  mapM (string_at fuel m) (fst <$> argv) = Some ws.
Proof.
  intros Hr Hf. apply mapM_Some. induction Hr as [|p w argv ws Hp Hr IH]; simpl; constructor; apply Forall_cons in Hf as [Hw Hf].
  - by apply string_at_cstr.
  - by apply IH.
Qed.

(** The calls of [runcmd] do what the command asks for. *)
Lemma interp_runcmd fuel m c a : ready m c a -> fit fuel a -> forall T me n, shell_tab T ->
  interp (runcmd fuel m c) T me n = behaviour a T me n.
Proof.
  induction 1 as [argv ws Hw|c a r k f Hc IH Hf Hm Hfd|l l' r r' Hl IHl Hr IHr|l l' r r' Hl IHl Hr IHr|c a Hc IH];
    intros Hfit T me n HT; unfold fit in Hfit; cbn [words_of] in Hfit; cbn [runcmd behaviour].
  - destruct Hw as [|[p e] w argv ws Hp Hw]; [done|]. pose proof Hfit as [Hlw _]%Forall_cons. unfold with_string.
    rewrite (string_at_cstr fuel m p w Hp Hlw). rewrite (strings_at fuel m ((p, e) :: argv) (w :: ws) ltac:(by constructor) Hfit). done.
  - apply Forall_app in Hfit as [Hfa Hff]. apply Forall_cons in Hff as [Hff _]. unfold with_string. rewrite (string_at_cstr fuel m (r_file r) f Hf Hff).
    assert (Hr : 0 <= rfd k < 2) by (destruct k; simpl; lia). rewrite Hfd, Hm. cbn [interp]. rewrite lowest_closed by (apply HT || lia).
    rewrite (proj2 (Z.ltb_ge (rfd k) 0)) by lia. rewrite insert_delete_eq, IH by (done || (apply shell_tab_insert; [done|lia])).
    change (-1 <? 0) with true. cbn [interp]. by rewrite lookup_delete_ne by lia.
  - apply Forall_app in Hfit as [Hfl Hfr]. destruct (lowest_pipe T (CPipeR (me ++ [n])) HT) as (p0 & p1 & E0 & E1 & G0 & G1 & Hp & N0 & N1).
    cbn [interp]. rewrite E0, E1. f_equal. rewrite interp_fork1. pose proof (newpid_pos (me ++ [S n])). rewrite (proj2 (Z.eqb_neq (newpid _) 0)) by lia. rewrite Z.eqb_refl.
    pose proof (newpid_pos (me ++ [S (S n)])). rewrite interp_fork1, (proj2 (Z.eqb_neq (newpid _) 0)) by lia. rewrite Z.eqb_refl.
    unfold plan_panic. rewrite !(lookup_insert_ne _ _ 2) by lia.
    rewrite (interp_wire T 1 p0 p1), (interp_wire T 0 p0 p1) by (done || lia || by left || by right).
    rewrite (decide_False (P := p1 = p0)), (decide_True (P := p0 = p0)) by (done || congruence). rewrite IHl, IHr by (done || (apply shell_tab_insert; [done|lia])).
    done.
  - apply Forall_app in Hfit as [Hfl Hfr]. rewrite interp_fork1. pose proof (newpid_pos (me ++ [n])). rewrite (proj2 (Z.eqb_neq (newpid _) 0)) by lia.
    rewrite Z.eqb_refl. cbn [interp]. by rewrite IHl, IHr.
  - rewrite interp_fork1. pose proof (newpid_pos (me ++ [n])). rewrite (proj2 (Z.eqb_neq (newpid _) 0)) by lia. rewrite Z.eqb_refl. by rewrite IH.
Qed.
End Interp.

(** Every program starts with the descriptors that the process had: no end of
    a pipe is left open under another number. *)
Lemma behaviour_starts a : forall T me n, shell_tab T -> starts_with (fun T' => dom T' = dom T) (behaviour a T me n).
Proof.
  assert (Hi : forall a T fd c me n, (forall T me n, shell_tab T -> starts_with (fun T' => dom T' = dom T) (behaviour a T me n)) ->
    shell_tab T -> 0 <= fd < 3 -> starts_with (fun T' => dom T' = dom T) (behaviour a (<[fd := c]> T) me n)).
  { intros a0 T fd c me n IH HT Hfd. specialize (IH (<[fd := c]> T) me n). rewrite dom_insert_open in IH by (by apply HT). by apply IH, shell_tab_insert. }
  induction a as [ws|a IH k f|l IHl r IHr|l IHl r IHr|a IH]; intros T me n HT; cbn [behaviour].
  - by destruct ws.
  - split; [|done]. apply Hi; [done|done|]. destruct k; simpl; lia.
  - cbn. repeat split; apply Hi; done || lia.
  - cbn. auto.
  - cbn. auto.
Qed.

(** ** Lines *)

(** The words of a command are tokens of the line, and no longer than it. *)
Definition words_in (u : list tok) (a : acmd) : Prop := Forall (fun w => TWord w ∈ u) (words_of a).

Lemma words_redirect a l : words_of (aredirect a l) = words_of a ++ (snd <$> l).
Proof.
  unfold aredirect. revert a. induction l as [|[k f] l IH]; intros a; simpl; [by rewrite app_nil_r|]. rewrite IH. simpl. by rewrite <- app_assoc.
Qed.

Lemma words_back n a : words_of (aback n a) = words_of a.
Proof. unfold aback. induction n as [|n IH]; [done|]. by simpl. Qed.

Lemma redirs_words u l : g_redirs u l -> Forall (fun w => TWord w ∈ u) (snd <$> l).
Proof.
  induction 1 as [|k f u l Hr IH]; simpl; constructor; [set_solver|]. eapply Forall_impl; [exact IH|]. set_solver.
Qed.

Lemma args_words v ws l : g_args v ws l -> Forall (fun w => TWord w ∈ v) (ws ++ (snd <$> l)).
Proof.
  induction 1 as [|w u l v ws l' Hr Hv IH]; [constructor|]. apply redirs_words in Hr. rewrite fmap_app. rewrite !Forall_forall in *. set_solver.
Qed.

Lemma g_words : (forall u a, g_exec u a -> words_in u a) /\ (forall u a, g_pipe u a -> words_in u a) /\ (forall u a, g_line u a -> words_in u a).
Proof.
  apply g_mutind; unfold words_in.
  - intros u l v ws l' Hu%redirs_words Hv%args_words _. rewrite words_redirect, fmap_app. cbn [words_of]. rewrite !Forall_forall in *. set_solver.
  - intros u c v l _ IH Hv%redirs_words. rewrite words_redirect. rewrite !Forall_forall in *. set_solver.
  - done.
  - intros u c v d _ IHu _ IHv. cbn [words_of]. rewrite !Forall_forall in *. set_solver.
  - intros u c n _ IH. rewrite words_back. rewrite !Forall_forall in *. set_solver.
  - intros u c n v d _ IHu _ IHv. cbn [words_of]. rewrite words_back. rewrite !Forall_forall in *. set_solver.
Qed.

Lemma next_word t w t' : next t = Some (TWord w, t') -> (length w <= length t)%nat.
Proof.
  unfold next. pose proof (dropw_length space t) as Hl. destruct (dropw space t) as [|c t1]; [done|]. destruct (is_in _ c); [done|].
  destruct (c =? 62); [destruct t1 as [|d t2]; [done|]; by destruct (d =? 62)|]. intros [= <- _].
  rewrite <- (takew_dropw ordinary (c :: t1)), length_app in Hl. cbn [takew] in Hl. lia.
Qed.

Lemma lex_words t w : TWord w ∈ lex t -> (length w <= length t)%nat.
Proof.
  remember (length t) as k eqn:Ek. revert t Ek. induction k as [k IH] using lt_wf_ind. intros t ->. rewrite lex_unfold.
  destruct (next t) as [[x t']|] eqn:E; [|by intros ?%elem_of_nil]. intros [<-|Hin]%elem_of_cons; [by eapply next_word|].
  pose proof (next_shorter _ _ _ E) as Hs. specialize (IH _ Hs t' eq_refl Hin). lia.
Qed.

Lemma line_fit fuel line a : g_line (lex line) a -> (length line < fuel)%nat -> fit fuel a.
Proof.
  intros Hg Hf. pose proof (proj2 (proj2 g_words) _ _ Hg) as Hw. eapply Forall_impl; [exact Hw|]. intros w Hin%lex_words. lia.
Qed.

(** A line read by [gets] is a string in the buffer. *)
Lemma gets_string m buf line : Forall (fun c => 0 < c < 256) line ->
  cstr (wr (wr_bytes m buf line) (buf + Z.of_nat (length line)) 0) buf line.
Proof.
  intros Hl. split; [|by rewrite rd_wr_eq]. intros i b Hi. pose proof (lookup_lt_Some _ _ _ Hi). rewrite Forall_lookup in Hl. specialize (Hl i b Hi).
  split; [lia|]. rewrite rd_wr_ne, rd_wr_bytes, decide_True by lia. replace (Z.to_nat _) with i by lia. rewrite Hi. apply u8_small. lia.
Qed.

(** The test for a line that starts with "cd ". *)
Definition cd_line (m : mem) (buf : Z) : bool := (rd m buf =? 99) && (rd m (buf + 1) =? 100) && (rd m (buf + 2) =? 32).

Lemma cd_line_spec m buf line : cstr m buf line -> cd_line m buf = true <-> exists rest, line = str "cd " ++ rest.
Proof.
  intros Hs. unfold cd_line. rewrite !andb_true_iff, !Z.eqb_eq. split.
  - intros [[H1 H2] H3]. apply cstr_inv in Hs as [[-> E]|(x & t & -> & _ & E & Hs)]; [lia|].
    apply cstr_inv in Hs as [[-> E1]|(y & t1 & -> & _ & E1 & Hs)]; [lia|]. replace (buf + 1 + 1) with (buf + 2) in Hs by lia.
    apply cstr_inv in Hs as [[-> E2]|(z & t2 & -> & _ & E2 & Hs)]; [lia|]. exists t2. change (str "cd ") with [99; 100; 32]. cbn [app]. congruence.
  - intros [rest ->]. pose proof (fun i b H => proj2 (proj1 Hs i b H)) as H. split; [split|].
    + rewrite <- (Z.add_0_r buf). by apply (H 0%nat).
    + by apply (H 1%nat).
    + by apply (H 2%nat).
Qed.

Section Turn.
Variables (newpid : list nat -> Z) (fuel : nat) (buf : Z).
Hypothesis newpid_pos : forall id, 0 < newpid id.
Variables (m : mem) (k : mem -> sys) (T : fdtab) (me : list nat) (n : nat) (line : list Z).
Hypotheses (Hline : cstr m buf line) (Hlen : Z.of_nat (length line) < 100) (Hfuel : (4 * length line + 5 <= fuel)%nat) (HT : shell_tab T).

Lemma turn_command a : g_line (lex line) a -> (forall rest, line <> str "cd " ++ rest) ->
  interp newpid (turn fuel buf m k) T me n =
  PFork (behaviour a T (me ++ [n]) 0) (PWait true (PPrintMsg (T !! 1) (interp newpid (k m) T me (S n)))) (plan_panic T "fork").
Proof.
  intros Hg Hcd. unfold turn. fold (cd_line m buf). destruct (cd_line m buf) eqn:E.
  { apply (cd_line_spec m buf line Hline) in E as [rest ->]. by destruct (Hcd rest). }
  rewrite interp_fork1 by done. pose proof (newpid_pos (me ++ [n])). rewrite Z.eqb_refl, (proj2 (Z.eqb_neq (newpid _) 0)) by lia.
  destruct (parsecmd_accepts fuel m buf line Hline ltac:(lia) Hfuel a Hg) as (c & m' & Ep & Hr). unfold run_line. rewrite Ep.
  rewrite (interp_runcmd newpid newpid_pos fuel m' c a Hr); [done| |done]. eapply line_fit; [exact Hg|lia].
Qed.

(** The last character of the line, a newline, is not part of the name. *)
Lemma turn_cd dir : line = str "cd " ++ dir ++ NL ->
  let m' := wr m (buf + 3 + Z.of_nat (length dir)) 0 in
  interp newpid (turn fuel buf m k) T me n =
  PChdir dir (interp newpid (k m') T me n) (PPrint (T !! 2) (str "cannot cd " ++ dir ++ NL) (interp newpid (k m') T me n)).
Proof.
  intros El m'. unfold turn. fold (cd_line m buf). rewrite (proj2 (cd_line_spec m buf line Hline)) by (by eexists).
  rewrite (strlen_spec fuel m buf line) by (done || lia).
  assert (En : Z.of_nat (length line) = Z.of_nat (length dir) + 4) by (rewrite El, !length_app; cbn; lia).
  rewrite En, u32_small by lia. replace (buf + (Z.of_nat (length dir) + 4 - 1)) with (buf + 3 + Z.of_nat (length dir)) by lia. fold m'.
  rewrite El in Hline. apply cstr_app_r in Hline. change (Z.of_nat (length (str "cd "))) with 3 in Hline. apply cstr_cut in Hline. fold m' in Hline.
  unfold with_string. rewrite (string_at_cstr fuel m' (buf + 3) dir Hline) by lia. done.
Qed.
End Turn.

(** ** The shell *)

(** The run in which every file can be opened. *)
Fixpoint all_opened (p : plan) : plan := match p with POpen _ _ ok _ => all_opened ok | p => p end.

Definition console_chan : chan := CFile (str "console") O_RDWR.
(** Descriptor [fd] is the console if it was not open. *)
Definition fill (fd : Z) (T : fdtab) : fdtab := match T !! fd with None => <[fd := console_chan]> T | Some _ => T end.
Definition open_below (fd : Z) (T : fdtab) : Prop := forall x, 0 <= x < fd -> is_Some (T !! x).
Definition free_above (T : fdtab) : Prop := exists fd, 3 <= fd < NOFILE /\ T !! fd = None.

Lemma fill_open fd T : 0 <= fd -> open_below fd T -> open_below (fd + 1) (fill fd T).
Proof.
  intros H0 Hb x Hx. unfold fill. destruct (T !! fd) as [c|] eqn:E.
  - destruct (decide (x = fd)) as [->|]; [by rewrite E|]. apply Hb. lia.
  - rewrite lookup_insert. case_decide; [done|]. apply Hb. lia.
Qed.

Lemma fill_free fd T : fd < 3 -> free_above T -> free_above (fill fd T).
Proof.
  intros Hfd (x & Hx & E). exists x. split; [done|]. unfold fill. destruct (T !! fd); [done|]. rewrite lookup_insert_ne by lia. done.
Qed.

Section Console.
Variables (newpid : list nat -> Z) (k : sys) (me : list nat) (n : nat).
Abbreviation opened i T := (all_opened (interp newpid (open_console i k) T me n)).
Abbreviation done_with T := (all_opened (interp newpid k T me n)).

Lemma console_extra i T : (1 <= i)%nat -> open_below 3 T -> free_above T -> opened i T = done_with T.
Proof.
  intros Hi Hb (x & Hx & E). destruct i as [|i]; [lia|]. destruct (lowest_free T x) as [fd El]; [unfold valid_fd; lia|done|].
  cbn [open_console interp]. rewrite El. apply lowest_Some in El as [Hv Hn]. unfold valid_fd in Hv.
  assert (3 <= fd) by (destruct (decide (3 <= fd)); [done|]; destruct (Hb fd) as [c Hc]; [lia|]; congruence).
  cbn [all_opened]. rewrite (proj2 (Z.leb_le 0 fd)), (proj2 (Z.leb_le 3 fd)) by lia. cbn [interp]. by rewrite delete_insert_id.
Qed.

Lemma console_fill j fd F : 0 <= fd < 3 ->
  (forall i T, (j <= i)%nat -> open_below (fd + 1) T -> free_above T -> opened i T = F T) ->
  forall i T, (S j <= i)%nat -> open_below fd T -> free_above T -> opened i T = F (fill fd T).
Proof.
  intros Hfd HF i T Hi Hb Hfree. pose proof (fill_open fd T ltac:(lia) Hb) as Hb'. pose proof (fill_free fd T ltac:(lia) Hfree) as Hf'.
  unfold fill in *. destruct (T !! fd) as [c|] eqn:E; [apply HF; [lia|done|done]|]. destruct i as [|i]; [lia|].
  cbn [open_console interp]. rewrite (lowest_at T fd) by (done || unfold valid_fd, NOFILE; lia). cbn [all_opened].
  rewrite (proj2 (Z.leb_le 0 fd)), (proj2 (Z.leb_gt 3 fd)) by lia. apply HF; [lia|done|done].
Qed.

(** The loop at the start of the shell leaves the standard descriptors open,
    and no other. *)
Theorem open_console_std i T : (4 <= i)%nat -> free_above T -> opened i T = done_with (fill 2 (fill 1 (fill 0 T))).
Proof.
  intros Hi Hf. eapply (console_fill 3 0 (fun T => done_with (fill 2 (fill 1 T)))); [lia| |done|intros x Hx; lia|done].
  eapply (console_fill 2 1 (fun T => done_with (fill 2 T))); [lia|]. eapply (console_fill 1 2 (fun T => done_with T)); [lia|]. apply console_extra.
Qed.
End Console.

(** C10: the shell's loop. At the prompt it reads a line; at the end of the
    input it exits. For a line that is a command of the grammar it forks, the
    child does what the command asks for, and the parent waits for it, prints
    its exit message and goes on: programs get the files of their
    redirections and the ends of their pipes in the place of their standard
    descriptors, every other descriptor as the shell has it, and no end of a
    pipe stays open under another number. A line "cd dir" changes the
    directory of the shell itself. *)
Theorem sh_main_loop newpid fuel buf i m T me n :
  (forall id, 0 < newpid id) -> (401 <= fuel)%nat -> shell_tab T ->
  exists next, interp newpid (main_loop fuel buf (S i) m) T me n = PPrint (T !! 2) (str "$ ") (PGets 100 next) /\
    next [] = PExit 0 /\
    forall line, line <> [] -> Forall (fun c => 0 < c < 256) line -> Z.of_nat (length line) < 100 ->
      (forall a, g_line (lex line) a -> (forall rest, line <> str "cd " ++ rest) ->
        (exists m', next line = PFork (behaviour a T (me ++ [n]) 0)
          (PWait true (PPrintMsg (T !! 1) (interp newpid (main_loop fuel buf i m') T me (S n)))) (plan_panic T "fork")) /\
        starts_with (fun T' => dom T' = dom T) (behaviour a T (me ++ [n]) 0)) /\
      (forall dir, line = str "cd " ++ dir ++ NL ->
        exists m', next line = PChdir dir (interp newpid (main_loop fuel buf i m') T me n)
          (PPrint (T !! 2) (str "cannot cd " ++ dir ++ NL) (interp newpid (main_loop fuel buf i m') T me n))).
Proof.
  intros Hpid Hfuel HT. eexists. split; [reflexivity|]. cbv beta zeta. split.
  { cbn [length wr_bytes]. change (Z.of_nat 0) with 0. rewrite Z.add_0_r, rd_wr_eq. done. }
  intros line Hne Hc Hlen. set (m1 := wr (wr_bytes _ buf line) _ 0). assert (Hs : cstr m1 buf line) by (by apply gets_string).
  assert (Hgo : (0 <=? (if rd m1 buf =? 0 then -1 else 0)) = true).
  { destruct (cstr_inv _ _ _ Hs) as [[-> _]|(x & t & _ & Hx & E & _)]; [done|]. rewrite E. by rewrite (proj2 (Z.eqb_neq x 0)). }
  rewrite Hgo. split.
  - intros a Hg Hcd. split; [|by apply behaviour_starts]. eexists. apply (turn_command newpid fuel buf Hpid m1 _ T me n line); done || lia.
  - intros dir El. eexists. apply (turn_cd newpid fuel buf m1 _ T me n line); done || lia.
Qed.

Definition std_tab : fdtab := list_to_map ((fun fd => (fd, CInherited fd)) <$> [0; 1; 2]).

Lemma std_tab_ok : shell_tab std_tab.
Proof.
  split; [|exists 3, 4; by vm_compute]. intros x Hx. assert (x = 0 \/ x = 1 \/ x = 2) as [->|[->| ->]] by lia; by eexists.
Qed.

(** The line "cat<a|wc". *)
Lemma sh_main_loop_witness : exists next, interp (fun _ => 7) (main_loop 401 1000 1 ∅) std_tab [] 0 = PPrint (Some (CInherited 2)) (str "$ ") (PGets 100 next) /\
  exists m', next (str "cat<a|wc" ++ NL) = PFork
    (PPipe [0%nat; 0%nat]
      (PFork (POpen (str "a") 0 (PExec (str "cat") [str "cat"] (<[0 := CFile (str "a") 0]> (<[1 := CPipeW [0%nat; 0%nat]]> std_tab))
                (PPrint (Some (CInherited 2)) (str "exec cat failed" ++ NL) (PExit 0)))
              (PPrint (Some (CInherited 2)) (str "open a failed" ++ NL) (PExit 1)))
        (PFork (PExec (str "wc") [str "wc"] (<[0 := CPipeR [0%nat; 0%nat]]> std_tab)
                (PPrint (Some (CInherited 2)) (str "exec wc failed" ++ NL) (PExit 0)))
          (PWait false (PWait false (PExit 0)))
          (PPrint (Some (CInherited 2)) (str "fork" ++ NL) (PExit 1)))
        (PPrint (Some (CInherited 2)) (str "fork" ++ NL) (PExit 1)))
      (PPrint (Some (CInherited 2)) (str "pipe" ++ NL) (PExit 1)))
    (PWait true (PPrintMsg (Some (CInherited 1)) (interp (fun _ => 7) (main_loop 401 1000 0 m') std_tab [] 1)))
    (PPrint (Some (CInherited 2)) (str "fork" ++ NL) (PExit 1)).
Proof.
  destruct (sh_main_loop (fun _ => 7) 401 1000 0 ∅ std_tab [] 0 ltac:(intros; lia) ltac:(lia) std_tab_ok) as (next & E & _ & H).
  exists next. split; [exact E|].
  destruct (H (str "cat<a|wc" ++ NL)) as [Hcmd _]; [done|apply (bool_decide_unpack (Forall _ _)); vm_compute; exact I|vm_compute; reflexivity|].
  destruct (Hcmd (APipe (ARedir (AExec [str "cat"]) RIn (str "a")) (AExec [str "wc"]))) as [[m' Hm'] _].
  - assert (El : lex (str "cat<a|wc" ++ NL) = ([] ++ TWord (str "cat") :: [TSym 60; TWord (str "a")] ++ []) ++ TSym 124 :: ([] ++ TWord (str "wc") :: [] ++ []))
      by (vm_compute; reflexivity).
    rewrite El, <- (app_nil_r (_ ++ TSym 124 :: _)). apply (g_last _ _ 0), g_more.
    + apply (g_simple [] [] _ [str "cat"] [(RIn, str "a")]); [constructor| |vm_compute; lia].
      apply (g_args_cons (str "cat") _ [(RIn, str "a")] [] [] []); [apply (g_redirs_cons RIn)|]; constructor.
    + apply g_one, (g_simple [] [] _ [str "wc"] []); [constructor| |vm_compute; lia].
      apply (g_args_cons (str "wc") [] [] [] [] []); constructor.
  - intros rest. vm_compute. congruence.
  - exists m'. rewrite Hm'. reflexivity.
Defined.
